(* ===== verification/_CoqProject ===== *)
-Q . S2P
Prelude.v
Errors.v
GoStrings.v
Unicode.v
GoFormat.v
Hasher.v
Balancer.v
Routing.v
Telemetry.v
Future.v
CopyBatch.v
CopyBatchInv.v
CopyBatchSteps.v
CopyBatchRuns.v
CopyBatchClaims.v
CopyBatchMoves.v
Builder.v
Topology.v
OpenMesh.v
Tasks.v
StoreQueries.v
Store.v
StoreOps.v
StoreAsync.v
StoreBuild.v
StoreLemmas.v
StoreRefine.v
MemoryDriver.v
StoreOpen.v
StoreFanout.v
StoreCopy.v
StoreRouted.v
StoreLookup.v
StoreSubmit.v
StoreSpans.v
OneStore.v
OneRefine.v
OneSettings.v
SettingsDriver.v
CacheAside.v
Programs.v
ProgramStore.v
TwoShards.v
MirrorsProgram.v
FanoutProgram.v
SingletonStore.v
ReadWriteProgram.v
ShardedProgram.v
AsyncRuns.v
AsyncProgram.v
Plugin.v
SqlRelations.v
Naming.v
Annotations.v
Imports.v
PostgresTypes.v
GoTypeJson.v
Queries.v
Routes.v
Collect.v
Options.v
Emit.v
EmitMethods.v
EmitStore.v
Generate.v
GenerateFiles.v
Conformance.v
Declarations.v
GenerateTotal.v
GenerateSample.v
GenerateClaims.v
DeclaredOnce.v
