(* ===== verification/Prelude.v ===== *)
(** * pgmesh: a verification library for the PostgreSQL mesh and its generator

    pgmesh has two halves. The runtime (the Go package at the root of the
    repository) routes queries of one logical database over virtual shards:
    a hasher maps a key to a shard, a mesh maps the shard to a replica set, a
    replica set balances reads over its replicas and sends writes to its
    primary and its mirrors, and a copy batcher collects rows of COPY
    submissions into batches. The generator (sqlcplugin) is a sqlc plugin that
    reads annotated SQL queries and writes the typed stores on top of the
    runtime. The repository keeps two stores it generated (examples/internal)
    and programs that use them (examples/01 to 07). The library models all
    four, one file per component: the runtime, the generated stores running on
    it, example programs running on the stores, and the generator down to the
    bytes it writes.

    ** Conventions

    A Go function that returns an error or may panic is a function into
    [outcome]; one that works on shared objects is a function into [stE]. An
    error value keeps its format string, its formatted values and the errors
    it wraps ([Errors]), so [errors.Is] is a function on it. Integers are [Z],
    with the wrap-around of their width written out. A Go string is its bytes;
    runes are decoded as utf8 does ([GoStrings], [Unicode]). What lies outside
    the repository is an argument: node openers, mirrored writers, telemetry
    providers, the database driver ([Driver]), the environment and pgx's pools
    and transactions ([Platform]), the COPY function, the JSON parser,
    go/parser, go/format, the English singular forms, and Go's Unicode tables
    beyond ASCII ([UnicodeTables], with the laws [UnicodeLaws], which the ASCII
    instance satisfies). Orders that Go leaves open, of [sort.Slice] and of map
    iteration, are the classes [GoSort] and [GoMapOrder]; theorems hold for all
    their instances.

    ** Runtime

    - [Errors]: errors.go. [Hasher]: hasher.go, at the width of each key type;
      the modulo hasher gives the mathematical residue of every key.
    - [Balancer]: load_balancer.go, with the ticket counter's wrap-around;
      reads are spread evenly over full rounds.
    - [Routing]: node.go, route.go, replica_set.go, resolved_shard.go. Replica
      sets and balancers live in an explicit heap, so that a copy with mirrors
      visibly shares its balancer. Theorems: where reads and writes go, and
      that interleaved reads through a set and its mirrored copy are balanced
      as one.
    - [Telemetry]: telemetry.go and copy_batch_observer.go as calls to opaque
      instruments. Theorems: the in-flight counter is exact in every reachable
      state, delegation is reported exactly, instruments are wired.
    - [Future]: future.go, write-once results and [Await] at its select points.
    - [CopyBatch]: copy_batch.go and copy_batch_config.go as a step relation
      over submissions, timers, batch goroutines and flushes, with a history
      of what was accepted, dispatched and copied. [CopyBatchInv],
      [CopyBatchSteps] and [CopyBatchRuns] hold the invariant, its
      preservation and the argument over runs; [CopyBatchClaims] states what
      follows: rows are conserved, batches respect their limits and keep the
      order of submissions, futures get their outcome, flushes are barriers,
      nothing panics, and work drains. [CopyBatchMoves]: the moves that the
      batcher makes on its own, for programs that run beside it.
    - [Builder]: mesh.go and builder.go. Build accepts exactly the complete,
      well-named topologies; Resolve never panics.
    - [Topology] and [OpenMesh]: topology.go. [Topology] has the definitions
      and the lemmas on validation, [OpenMesh] the theorems: validation
      accepts exactly the complete configurations whose mirrors agree when
      their names are joined with NUL bytes, which are the servable ones where
      no name has such a byte ([mirror_check_collision] is one that has);
      opening a servable one whose nodes open succeeds, calls the opener once
      per DSN in order, and builds the mesh that was configured.

    ** The generated stores

    The store of examples/internal/sharded, with sqlc's queries below it. A
    resolver of the user's may panic; the operations then do.

    - [Tasks]: goroutines of a WaitGroup as trees of atomic actions, run under
      an arbitrary schedule; what a task does under a rely condition holds
      for the whole group under every schedule.
    - [StoreQueries]: queries.sql.go, copyfrom.go and the read and write
      wrappers with their mirrors, over the class [Driver] of databases that
      answer from the calls made before. [Store], [StoreOps], [StoreAsync],
      [StoreBuild]: the shared state, the operations of both query groups,
      asynchronous copies on the runtime's batchers, and options, topologies
      and NewStore. Clock and scheduler are oracles.
    - [StoreLemmas]: total correctness of operations, and the frames of spans
      and balancers. [StoreRefine] states the abstract specification, a table
      per replica set, and the simulation; [MemoryDriver] is a driver for
      which its assumptions hold; [StoreOpen] proves that opening a sharded
      topology gives a store that refines the tables.
    - [StoreRouted], [StoreFanout], [StoreCopy], [StoreLookup],
      [StoreSubmit]: for any answers of the driver and under every schedule,
      which databases an operation calls with what, and how answers and
      errors become its result; rows are handed to exactly one batcher.
      [StoreSpans]: the span around a query group that the application wrapped
      reports what ran inside it, whatever the wrapper did; no operation loses
      the execution of another.
    - [OneStore]: the store of examples/internal/one (one database, no shards)
      and its Settings group. [OneRefine] and [OneSettings]: opening it and its
      refinement of one table; [SettingsDriver]: a driver for which that
      assumption holds.

    ** Example programs

    - [Programs]: main functions as programs over the store's state and a
      world with what was printed, begun and closed; environment variables,
      deferred closes and [errors.Join] of their results. [ProgramStore]: the
      accounts store as programs use it. [TwoShards], [SingletonStore]: the
      topologies they open.
    - [ReadWriteProgram] (01, 02), [ShardedProgram] (03), [MirrorsProgram] (04),
      [AsyncProgram] (05), [FanoutProgram] (07): for every environment and every
      answer of the databases, a program ends without panic, closes the pools
      it opened in the reverse order, and either prints what it wrote, read
      from the databases its topology says, or returns the first error.
    - In [AsyncProgram] the copy batchers work between the steps of the program
      and while it waits: [AsyncRuns] shows that every move of their goroutines
      and timers keeps what the program knows of them. Which moves happen, when
      the deadline passes and which ready case a select takes are oracles of
      the [Runtime]; a wait that nothing interrupts lets every batcher finish.
      A move makes the whole COPY of a batch. An error of the program is pinned
      to the COPYs that failed, or to the deadline once it has passed.
    - [CacheAside] (06): the cached query group, through any sequence of reads
      and writes inside and outside of transactions. Outside of transactions it
      returns what the table holds; a row upserted in a transaction is served
      from the cache before the transaction commits.

    ** Generator

    - [Plugin]: sqlc's messages, the generator's options and overrides, the
      open orders. [SqlRelations]: sql_relations.go, the relations a SQL text
      names.
    - [Naming]: naming.go. Names made from SQL names are valid identifiers.
    - [Annotations]: the comment annotations of query.go. Reading them never
      panics, accepted ones are well formed, and printed ones are read back.
    - [Imports]: imports.go and the name helpers of emission.go and aliases.go;
      the default alias of the internal package is not importable.
    - [PostgresTypes]: postgresql_type.go, column types and overrides. A column
      override with plain names applies to exactly its column. [GoTypeJson]:
      the decoding of an override's go_type from the tree of its JSON text.
    - [Queries]: parameters, results and signatures of query.go. Field names
      and result names are distinct; the search for a free name ends.
    - [Routes]: route resolution, parameter wrappers and the loop over queries.
      A wrapper provides every SQL parameter from exactly one place.
    - [Collect]: collectShardRoutes, collectStoreGroups and declarations.go.
      Accepted groups declare the names that are checked once; two copy queries
      can still add the same method or the same type of batch states.
    - [GoFormat]: what the writers use of fmt and bytes.Buffer; a [buffer] is
      the list of its writes. [Options]: options.go. Options are accepted
      exactly when a stated specification of them holds.
    - [Emit], [EmitMethods], [EmitStore]: the writers of emission.go and
      aliases.go, call by call. [Generate]: the files in order, their names
      and imports, the re-exported types, and the entry point of plugin.go.
    - [GenerateSample] runs the whole generator on the requests of
      examples/sqlc: up to white space the files of examples/internal/sharded
      and examples/internal/one come out. [Conformance]: the methods a store
      group's file declares are those of its interfaces, on the store and on
      its telemetry wrapper. [Declarations], [DeclaredOnce]: over all the files
      of a package no top-level name is declared twice, for query names that
      start with an upper-case letter and options that rename to none that
      start with a lower-case one. [GenerateFiles], [GenerateTotal],
      [GenerateClaims]: file names are distinct, generation never panics, and
      two accepted inputs whose generated code does not compile (a parameter
      named like a local variable, an override from a package named [sync]).

    ** Fuel

    Loops that are not structural take as much fuel as they can need: the
    bytes of a string for decoding and tokenizing, the length of the queue or
    of the rows for the batcher's loops, one more candidate than there are
    used names for a free name or a free file name, the bits of a number for
    its digits, the pending events of a batcher, its weight for the moves
    that a wait lets it make. Lemmas ([runesAux_enough],
    [tokenizeAux_fuel], [digitsAux_value], [uniqueGeneratedName_fresh],
    [groupFileName_found], and the batcher's invariant) show that the fuel
    never decides a result.

    ** Not modelled

    encoding/json's parser and the decoding of the options object, arguments;
    go/parser and go/format, arguments; the command, which hands Generate to
    the sqlc SDK; tests.
    Generated text is compared with its interfaces by its declarations, not
    parsed as Go. Memory and scheduling are abstract: allocation succeeds, and
    goroutines interleave at the steps of the model. *)

From stdpp Require Export base list gmap strings sorting.
From Stdlib Require Export ZArith Lia.

Set Default Goal Selector "!".

(** ** Outcomes of Go code

    A Go function that returns [(T, error)] or may panic is modelled by a
    function into [outcome E T]. [Panic] stands for a run-time panic (nil
    dereference, index out of range, an explicit [panic]). *)

Inductive outcome (E A : Type) : Type :=
  | Ok (a : A)
  | Err (e : E)
  | Panic.
Arguments Ok {E A} a.
Arguments Err {E A} e.
Arguments Panic {E A}.

#[export] Instance outcome_ret E : MRet (outcome E) := fun _ a => Ok a.
#[export] Instance outcome_bind E : MBind (outcome E) :=
  fun _ _ f m => match m with Ok a => f a | Err e => Err e | Panic => Panic end.
#[export] Instance outcome_fmap E : FMap (outcome E) :=
  fun _ _ f m => match m with Ok a => Ok (f a) | Err e => Err e | Panic => Panic end.

Definition is_Ok {E A} (m : outcome E A) : bool :=
  match m with Ok _ => true | _ => false end.

(** [panic_if_none o] is a Go access that panics when there is nothing there. *)
Definition panic_if_none {E A} (o : option A) : outcome E A :=
  match o with Some a => Ok a | None => Panic end.

(** [make([]T, n)] with an unsigned [n] panics when [n] is no [int]; allocation
    itself is assumed to succeed. *)
Definition makeLen {E} (n : Z) : outcome E nat :=
  if (2 ^ 63 <=? n)%Z then Panic else Ok (Z.to_nat n).

(** ** Machine integers

    A [w]-bit unsigned integer is a [Z] in [[0, 2^w)]; a [w]-bit signed
    integer is a [Z] in [[-2^(w-1), 2^(w-1))]. The conversions below are Go's:
    they reduce modulo [2^w]. *)

Declare Scope go_scope.
Delimit Scope go_scope with go.

Definition wrap_u (w z : Z) : Z := z mod 2 ^ w.
Definition wrap_s (w z : Z) : Z := (z + 2 ^ (w - 1)) mod 2 ^ w - 2 ^ (w - 1).

Abbreviation u64 z := (wrap_u 64 z).
Abbreviation s64 z := (wrap_s 64 z).

Definition in_u (w z : Z) : Prop := (0 <= z < 2 ^ w)%Z.
Definition in_s (w z : Z) : Prop := (- 2 ^ (w - 1) <= z < 2 ^ (w - 1))%Z.

Lemma wrap_u_id w z : in_u w z -> wrap_u w z = z.
Proof. unfold in_u, wrap_u. intros H. by apply Z.mod_small. Qed.

Lemma wrap_u_range w z : (0 <= w)%Z -> in_u w (wrap_u w z).
Proof.
  intros Hw. unfold in_u, wrap_u. apply Z.mod_pos_bound.
  by apply Z.pow_pos_nonneg.
Qed.

Lemma pow2_split w : (0 < w)%Z -> (2 ^ w = 2 * 2 ^ (w - 1))%Z.
Proof.
  intros Hw. rewrite <- (Z.pow_succ_r 2 (w - 1)) by lia. f_equal. lia.
Qed.

Lemma wrap_s_id w z : (0 < w)%Z -> in_s w z -> wrap_s w z = z.
Proof.
  intros Hw [Hlo Hhi]. unfold wrap_s.
  rewrite Z.mod_small; [lia|]. rewrite (pow2_split w Hw). lia.
Qed.

Lemma wrap_s_range w z : (0 < w)%Z -> in_s w (wrap_s w z).
Proof.
  intros Hw. unfold in_s, wrap_s.
  pose proof (Z.mod_pos_bound (z + 2 ^ (w - 1)) (2 ^ w)) as Hb.
  assert (0 < 2 ^ w)%Z by (apply Z.pow_pos_nonneg; lia).
  pose proof (pow2_split w Hw). lia.
Qed.

Lemma wrap_s_add w a b : (0 <= w)%Z -> wrap_s w (wrap_s w a + b) = wrap_s w (a + b).
Proof.
  intros Hw. unfold wrap_s. assert (2 ^ w <> 0)%Z by (apply Z.pow_nonzero; lia).
  f_equal. replace ((a + 2 ^ (w - 1)) mod 2 ^ w - 2 ^ (w - 1) + b + 2 ^ (w - 1))%Z
    with ((a + 2 ^ (w - 1)) mod 2 ^ w + b)%Z by lia.
  rewrite Z.add_mod_idemp_l by done. f_equal. lia.
Qed.

Create HintDb go discriminated.
#[export] Hint Resolve wrap_u_range wrap_s_range : go.
#[export] Hint Extern 4 (_ <= _)%Z => lia : go.
#[export] Hint Extern 4 (_ < _)%Z => lia : go.

(** ** Tactics *)

(** Case analysis on the scrutinee of the first [match] or [if] in sight. *)
Ltac break_match_goal :=
  match goal with
  | |- context [match ?x with _ => _ end] =>
      lazymatch x with
      | context [match _ with _ => _ end] => fail
      | _ => destruct x eqn:?
      end
  end.
Ltac break_match_hyp H :=
  match type of H with
  | context [match ?x with _ => _ end] =>
      lazymatch x with
      | context [match _ with _ => _ end] => fail
      | _ => destruct x eqn:?
      end
  end.

(** Expose the outcome monad and simplify. *)
Ltac simplify_outcome :=
  unfold mret, mbind, fmap, outcome_ret, outcome_bind, outcome_fmap in *;
  simplify_eq/=.

(** Take apart a successful monadic computation. *)
Ltac inv_outcome H :=
  unfold mret, mbind, fmap, outcome_ret, outcome_bind, outcome_fmap in H;
  repeat (break_match_hyp H; cbn beta iota in H; try discriminate H);
  simplify_eq/=.

(** ** State and outcome

    Go code that reads and writes shared objects: a function of the state
    that returns an outcome and the state left behind, on errors and panics
    too. *)

Definition stE (S E A : Type) : Type := S -> outcome E A * S.

#[export] Instance stE_ret S E : MRet (stE S E) := fun _ a s => (Ok a, s).
#[export] Instance stE_bind S E : MBind (stE S E) :=
  fun _ _ f m s =>
    match m s with
    | (Ok a, s') => f a s'
    | (Err e, s') => (Err e, s')
    | (Panic, s') => (Panic, s')
    end.

Definition throw {S E A} (e : E) : stE S E A := fun s => (Err e, s).
Definition lift {S E A} (m : outcome E A) : stE S E A := fun s => (m, s).
Definition get_state {S E} : stE S E S := fun s => (Ok s, s).
Definition put_state {S E} (s : S) : stE S E unit := fun _ => (Ok tt, s).

(** Run a loop body for each element, threading an accumulator. *)
Fixpoint foldM {S E A B} (f : B -> A -> stE S E B) (b : B) (l : list A) : stE S E B :=
  match l with
  | [] => mret b
  | a :: l => b' ← f b a; foldM f b' l
  end.

Lemma stE_bind_Ok {S E A B} (f : A -> stE S E B) (m : stE S E A) s a s' :
  m s = (Ok a, s') -> (m ≫= f) s = f a s'.
Proof. intros H. unfold mbind, stE_bind. by rewrite H. Qed.

Lemma stE_bind_inv {S E A B} (f : A -> stE S E B) (m : stE S E A) s b s2 :
  (m ≫= f) s = (Ok b, s2) -> exists a s1, m s = (Ok a, s1) /\ f a s1 = (Ok b, s2).
Proof.
  unfold mbind, stE_bind. destruct (m s) as [[a|e|] s1]; [|done..].
  intros H. by exists a, s1.
Qed.

(** *** Sequencing outcomes *)

Lemma bind_Ok {E A B} (f : A -> outcome E B) (m : outcome E A) b :
  m ≫= f = Ok b <-> exists a, m = Ok a /\ f a = Ok b.
Proof. destruct m; cbn; naive_solver. Qed.

Lemma bind_unit_Ok {E B} (f : unit -> outcome E B) (m : outcome E unit) b :
  m ≫= f = Ok b <-> m = Ok tt /\ f tt = Ok b.
Proof. rewrite bind_Ok. split; [by intros [[] ?]|by exists tt]. Qed.

Lemma bind_not_Panic {E A B} (f : A -> outcome E B) (m : outcome E A) :
  m <> Panic -> (forall a, m = Ok a -> f a <> Panic) -> m ≫= f <> Panic.
Proof. intros Hm Hf. destruct m; cbn; [by apply Hf|done..]. Qed.

Lemma mret_Ok {E A} (a b : A) : (mret a : outcome E A) = Ok b -> a = b.
Proof. by intros [= ->]. Qed.

(** A guard in front of the rest. *)
Lemma guard_Ok {E A} (b : bool) (e : E) (m : outcome E A) a :
  (if b then Err e else m) = Ok a <-> b = false /\ m = Ok a.
Proof. destruct b; naive_solver. Qed.

(** The same loop in code that only fails. *)
Fixpoint foldO {E A B} (f : B -> A -> outcome E B) (b : B) (l : list A) : outcome E B :=
  match l with
  | [] => mret b
  | a :: l => b' ← f b a; foldO f b' l
  end.

Lemma foldO_cons_Ok {E A B} (f : B -> A -> outcome E B) b a l b' :
  foldO f b (a :: l) = Ok b' <-> exists b1, f b a = Ok b1 /\ foldO f b1 l = Ok b'.
Proof.
  simpl. destruct (f b a) as [b1| |]; simpl.
  - split; [by exists b1|]. by intros (? & [= <-] & ?).
  - split; [done|]. by intros (? & ? & ?).
  - split; [done|]. by intros (? & ? & ?).
Qed.

Lemma foldO_not_Panic {E A B} (f : B -> A -> outcome E B) b l :
  (forall b a, a ∈ l -> f b a <> Panic) -> foldO f b l <> Panic.
Proof.
  revert b. induction l as [|a l IH]; intros b Hf; simpl; [done|].
  pose proof (Hf b a ltac:(left)) as Ha. destruct (f b a) as [b1| |]; simpl; [|done..].
  apply IH. intros b2 a2 Hin. apply Hf. by right.
Qed.

(** A loop's errors are its body's errors. *)
Lemma foldO_Err {E A B} (f : B -> A -> outcome E B) (P : E -> Prop) b l e :
  (forall b a e, a ∈ l -> f b a = Err e -> P e) -> foldO f b l = Err e -> P e.
Proof.
  revert b. induction l as [|a l IH]; intros b Hf; simpl; [done|].
  destruct (f b a) as [b1|e1|] eqn:Ha; simpl; [|intros [= <-]; by apply (Hf b a); [left|]|done].
  apply IH. intros b2 a2 e2 Hin. apply Hf. by right.
Qed.

(** ** Lists of lists *)

Lemma elem_of_concat {A B} (g : A -> list B) l b :
  b ∈ concat (g <$> l) <-> exists a, a ∈ l /\ b ∈ g a.
Proof.
  induction l as [|a l IH]; simpl.
  - split; [by intros ?%elem_of_nil|]. by intros (? & ?%elem_of_nil & _).
  - rewrite elem_of_app, IH. setoid_rewrite elem_of_cons. naive_solver.
Qed.

(** [Forall2_impl] with the element at hand. *)
Lemma Forall2_impl_elem {A B} (P Q : A -> B -> Prop) l k :
  Forall2 P l k -> (forall x y, x ∈ l -> P x y -> Q x y) -> Forall2 Q l k.
Proof.
  induction 1 as [|x y l k Hxy _ IH]; intros H; constructor; [by apply H; [left|]|].
  apply IH. intros a b Ha. apply H. by right.
Qed.

(** An element of a duplicate-free concatenation comes from one list. *)
Lemma NoDup_concat_same {A B} (g : A -> list B) l x y b :
  NoDup (concat (g <$> l)) -> x ∈ l -> y ∈ l -> b ∈ g x -> b ∈ g y -> x = y.
Proof.
  induction l as [|a l IH]; simpl; intros Hnd Hx Hy Hbx Hby; [by apply elem_of_nil in Hx|].
  apply NoDup_app in Hnd as (_ & Hdis & Hnd).
  apply elem_of_cons in Hx as [->|Hx]; apply elem_of_cons in Hy as [->|Hy]; [done| | |by apply IH].
  - destruct (Hdis b Hbx). apply elem_of_concat. by exists y.
  - destruct (Hdis b Hby). apply elem_of_concat. by exists x.
Qed.

(** ** Distinct elements in order *)

Section Dedupe.
Context {A : Type} `{!EqDecision A}.

Definition dedupe (l : list A) : list A :=
  foldl (fun acc x => if decide (x ∈ acc) then acc else acc ++ [x]) [] l.

Lemma dedupe_snoc l x : dedupe (l ++ [x]) = if decide (x ∈ dedupe l) then dedupe l else dedupe l ++ [x].
Proof. unfold dedupe. by rewrite foldl_app. Qed.

Lemma dedupe_elem l x : x ∈ dedupe l <-> x ∈ l.
Proof.
  induction l as [|y l IH] using rev_ind; [done|]. rewrite dedupe_snoc.
  destruct (decide (y ∈ dedupe l)); set_solver.
Qed.

Lemma dedupe_NoDup l : NoDup (dedupe l).
Proof.
  induction l as [|y l IH] using rev_ind; [constructor|]. rewrite dedupe_snoc.
  destruct (decide (y ∈ dedupe l)); [done|]. apply NoDup_app. split_and!; [done|set_solver|apply NoDup_singleton].
Qed.
End Dedupe.
