(* ===== verification/Errors.v ===== *)
(** * Errors: the sentinel errors of errors.go and Go's error wrapping

    [error] is the shape of a Go error value: one of the package's sentinels, a
    standard-library sentinel, an anonymous message, a [fmt.Errorf] with the
    values it formats and the errors it wraps with [%w], an [errors.Join], or
    an error made by code outside the repository. [errorsIs] is [errors.Is]
    and [errorsJoin] is [errors.Join] on a slice of non-nil errors. *)

From S2P Require Import Prelude.

(** The package's sentinels, in the order of errors.go. *)
Inductive sentinel :=
  | ErrNoReplicaSets
  | ErrEmptyReplicaSetName
  | ErrDuplicateReplicaSet
  | ErrEmptyDSN
  | ErrNoVirtualShards
  | ErrVirtualShardAlreadyMapped
  | ErrVirtualShardNotMapped
  | ErrVirtualShardOutOfRange
  | ErrNilShardHasher
  | ErrNilNodeOpener
  | ErrUnknownReplicaSet
  | ErrNilReplicaSet
  | ErrMirrorConfiguration
  | ErrCrossShardTransaction
  | ErrCopyBatchCountMismatch
  | ErrNilCopyBatchFunc.

#[export] Instance sentinel_eq_dec : EqDecision sentinel.
Proof. solve_decision. Defined.

(** The standard library's sentinels the code compares against. *)
Inductive stdSentinel :=
  | SqlErrNoRows
  | ContextCanceled
  | ContextDeadlineExceeded.

#[export] Instance stdSentinel_eq_dec : EqDecision stdSentinel.
Proof. solve_decision. Defined.

(** A value formatted into an error message. *)
Inductive arg :=
  | AInt (z : Z)
  | AStr (s : string).

Inductive error :=
  | Sentinel (s : sentinel)
  | StdError (s : stdSentinel)
  | ErrorText (message : string)
  | Errorf (format : string) (args : list arg) (wrapped : list error)
  | Joined (errs : list error)
  | Foreign (id : nat).

(** [errors.Is(err, s)] for a package sentinel. *)
Fixpoint errorsIs (e : error) (s : sentinel) : bool :=
  match e with
  | Sentinel s' => bool_decide (s' = s)
  | StdError _ | ErrorText _ | Foreign _ => false
  | Errorf _ _ wrapped => existsb (fun e' => errorsIs e' s) wrapped
  | Joined errs => existsb (fun e' => errorsIs e' s) errs
  end.

(** [errors.Is(err, s)] for a standard-library sentinel. *)
Fixpoint errorsIsStd (e : error) (s : stdSentinel) : bool :=
  match e with
  | StdError s' => bool_decide (s' = s)
  | Sentinel _ | ErrorText _ | Foreign _ => false
  | Errorf _ _ wrapped => existsb (fun e' => errorsIsStd e' s) wrapped
  | Joined errs => existsb (fun e' => errorsIsStd e' s) errs
  end.

(** [errors.Join(errs...)]: nil when no error is given. *)
Definition errorsJoin (errs : list error) : option error :=
  match errs with
  | [] => None
  | _ => Some (Joined errs)
  end.

Lemma errorsJoin_None errs : errorsJoin errs = None <-> errs = [].
Proof. by destruct errs. Qed.

Lemma errorsJoin_is errs e s :
  errorsJoin errs = Some e ->
  errorsIs e s = existsb (fun e' => errorsIs e' s) errs.
Proof. by destruct errs; intros [= <-]. Qed.

(** Computations that fail with a Go error. *)
Abbreviation result := (outcome error).

(** [fails_with s m]: the computation returned an error that is [s]. *)
Definition fails_with {A} (s : sentinel) (m : result A) : bool :=
  match m with Err e => errorsIs e s | _ => false end.
