(* ===== verification/GoStrings.v ===== *)
(** * GoStrings: the parts of Go's strings, unicode and utf8 the code uses

    A Go string is a sequence of bytes, here Rocq's [string]. Iteration over
    runes, [TrimSpace] and the case mappings decode UTF-8 as utf8.DecodeRune
    does: an invalid byte is one U+FFFD. [unicode.IsSpace] and
    [unicode.IsControl] are complete. Letters, digits and cases are exact on
    ASCII; beyond it they are read from [UnicodeTables], the tables that ship
    with the Go release. *)

From S2P Require Import Prelude.
From Stdlib Require Import Ascii String.

#[local] Open Scope string_scope.
#[local] Open Scope Z_scope.

Definition byteZ (a : ascii) : Z := Z.of_N (N_of_ascii a).
Definition byteOf (z : Z) : ascii := ascii_of_N (Z.to_N z).

Lemma byteZ_range a : 0 <= byteZ a < 256.
Proof. unfold byteZ. pose proof (N_ascii_bounded a). lia. Qed.

(** ** Bytes *)

Definition HasPrefix (s prefix : string) : bool := String.prefix prefix s.

Fixpoint dropBytes (n : nat) (s : string) : string :=
  match n, s with
  | O, _ => s
  | _, EmptyString => EmptyString
  | S n, String _ s => dropBytes n s
  end.

Fixpoint takeBytes (n : nat) (s : string) : string :=
  match n, s with
  | O, _ => EmptyString
  | _, EmptyString => EmptyString
  | S n, String a s => String a (takeBytes n s)
  end.

Definition HasSuffix (s suffix : string) : bool :=
  bool_decide (length suffix <= length s)%nat &&
  bool_decide (dropBytes (length s - length suffix) s = suffix).

Definition TrimPrefix (s prefix : string) : string :=
  if HasPrefix s prefix then dropBytes (length prefix) s else s.

Definition TrimSuffix (s suffix : string) : string :=
  if HasSuffix s suffix then takeBytes (length s - length suffix) s else s.

(** [strings.Index]: the position of the first occurrence. *)
Fixpoint Index (s sub : string) : option nat :=
  if HasPrefix s sub then Some O
  else match s with
       | EmptyString => None
       | String _ s' => S <$> Index s' sub
       end.

Definition Contains (s sub : string) : bool :=
  match Index s sub with Some _ => true | None => false end.

(** [strings.Cut]. *)
Definition Cut (s sep : string) : string * string * bool :=
  match Index s sep with
  | Some i => (takeBytes i s, dropBytes (i + length sep) s, true)
  | None => (s, EmptyString, false)
  end.

(** [strings.Split] by a one-byte separator. *)
Fixpoint splitByte (c : ascii) (s : string) : list string :=
  match s with
  | EmptyString => [EmptyString]
  | String a s =>
      if Ascii.eqb a c then EmptyString :: splitByte c s
      else match splitByte c s with
           | [] => [String a EmptyString]
           | p :: ps => String a p :: ps
           end
  end.

(** [strings.Join]. *)
Definition Join (l : list string) (sep : string) : string := String.concat sep l.

(** [strings.ReplaceAll] for a non-empty [old]; the fuel is the length. *)
Fixpoint replaceAllAux (fuel : nat) (s old new : string) : string :=
  match fuel, s with
  | O, _ => s
  | _, EmptyString => EmptyString
  | S fuel, String a s' =>
      if HasPrefix s old then new +:+ replaceAllAux fuel (dropBytes (length old) s) old new
      else String a (replaceAllAux fuel s' old new)
  end.
Definition ReplaceAll (s old new : string) : string :=
  replaceAllAux (length s) s old new.

(** ** UTF-8 *)

Definition RuneError : Z := 0xFFFD.

Definition inRange (lo hi c : Z) : bool := (lo <=? c) && (c <=? hi).

(** utf8.DecodeRuneInString on a non-empty string: the rune, its bytes, the rest. *)
Definition decodeRune (s : string) : option (Z * string * string) :=
  match s with
  | EmptyString => None
  | String b0 s1 =>
      let c0 := byteZ b0 in
      let invalid := Some (RuneError, String b0 "", s1) in
      if c0 <? 0x80 then Some (c0, String b0 "", s1)
      else if c0 <? 0xC2 then invalid
      else if c0 <? 0xE0 then
        match s1 with
        | String b1 s2 =>
            if inRange 0x80 0xBF (byteZ b1)
            then Some ((c0 - 0xC0) * 64 + (byteZ b1 - 0x80), String b0 (String b1 ""), s2)
            else invalid
        | _ => invalid
        end
      else if c0 <? 0xF0 then
        match s1 with
        | String b1 (String b2 s3) =>
            let lo := if c0 =? 0xE0 then 0xA0 else 0x80 in
            let hi := if c0 =? 0xED then 0x9F else 0xBF in
            if inRange lo hi (byteZ b1) && inRange 0x80 0xBF (byteZ b2)
            then Some ((c0 - 0xE0) * 4096 + (byteZ b1 - 0x80) * 64 + (byteZ b2 - 0x80),
                       String b0 (String b1 (String b2 "")), s3)
            else invalid
        | _ => invalid
        end
      else if c0 <? 0xF5 then
        match s1 with
        | String b1 (String b2 (String b3 s4)) =>
            let lo := if c0 =? 0xF0 then 0x90 else 0x80 in
            let hi := if c0 =? 0xF4 then 0x8F else 0xBF in
            if inRange lo hi (byteZ b1) && inRange 0x80 0xBF (byteZ b2) &&
               inRange 0x80 0xBF (byteZ b3)
            then Some ((c0 - 0xF0) * 262144 + (byteZ b1 - 0x80) * 4096 +
                       (byteZ b2 - 0x80) * 64 + (byteZ b3 - 0x80),
                       String b0 (String b1 (String b2 (String b3 ""))), s4)
            else invalid
        | _ => invalid
        end
      else invalid
  end.

(** The runes of a string, each with the bytes it was decoded from. *)
Fixpoint runesAux (fuel : nat) (s : string) : list (Z * string) :=
  match fuel with
  | O => []
  | S fuel =>
      match decodeRune s with
      | None => []
      | Some (r, bs, rest) => (r, bs) :: runesAux fuel rest
      end
  end.
Definition runesOf (s : string) : list (Z * string) := runesAux (length s) s.
Definition runes (s : string) : list Z := fst <$> runesOf s.

(** utf8.AppendRune: surrogates and out-of-range runes encode as U+FFFD. *)
Definition encodeRune (r : Z) : string :=
  let r := if inRange 0 0x10FFFF r && negb (inRange 0xD800 0xDFFF r) then r else RuneError in
  if r <? 0x80 then String (byteOf r) ""
  else if r <? 0x800 then
    String (byteOf (0xC0 + r / 64)) (String (byteOf (0x80 + r mod 64)) "")
  else if r <? 0x10000 then
    String (byteOf (0xE0 + r / 4096))
      (String (byteOf (0x80 + r / 64 mod 64)) (String (byteOf (0x80 + r mod 64)) ""))
  else
    String (byteOf (0xF0 + r / 262144))
      (String (byteOf (0x80 + r / 4096 mod 64))
        (String (byteOf (0x80 + r / 64 mod 64)) (String (byteOf (0x80 + r mod 64)) ""))).

(** The conversion [string(runes)]. *)
Definition ofRunes (rs : list Z) : string := foldr (fun r s => encodeRune r +:+ s) "" rs.

(** ** unicode *)

(** unicode.IsSpace (White_Space). *)
Definition IsSpace (r : Z) : bool :=
  inRange 9 13 r || (r =? 32) || (r =? 0x85) || (r =? 0xA0) || (r =? 0x1680) ||
  inRange 0x2000 0x200A r || (r =? 0x2028) || (r =? 0x2029) || (r =? 0x202F) ||
  (r =? 0x205F) || (r =? 0x3000).

(** unicode.IsControl (category Cc). *)
Definition IsControl (r : Z) : bool := inRange 0 31 r || inRange 127 159 r.

(** The Unicode tables of the Go release, for runes beyond ASCII. *)
Class UnicodeTables := {
  uIsLetter : Z -> bool;
  uIsDigit : Z -> bool;
  uIsUpper : Z -> bool;
  uIsLower : Z -> bool;
  uToUpper : Z -> Z;
  uToLower : Z -> Z;
  uIsPrint : Z -> bool;
}.

(** No letters or digits beyond ASCII: the instance witnesses evaluate with. *)
Definition asciiTables : UnicodeTables := {|
  uIsLetter _ := false; uIsDigit _ := false; uIsUpper _ := false;
  uIsLower _ := false; uToUpper r := r; uToLower r := r; uIsPrint _ := false |}.

Section Unicode.
Context `{UT : !UnicodeTables}.

Definition asciiUpper (r : Z) : bool := inRange 65 90 r.
Definition asciiLower (r : Z) : bool := inRange 97 122 r.

Definition IsUpper (r : Z) : bool := if r <? 128 then asciiUpper r else uIsUpper r.
Definition IsLower (r : Z) : bool := if r <? 128 then asciiLower r else uIsLower r.
Definition IsLetter (r : Z) : bool :=
  if r <? 128 then asciiUpper r || asciiLower r else uIsLetter r.
Definition IsDigit (r : Z) : bool := if r <? 128 then inRange 48 57 r else uIsDigit r.
Definition IsPrint (r : Z) : bool := if r <? 128 then inRange 32 126 r else uIsPrint r.
Definition runeToUpper (r : Z) : Z :=
  if r <? 128 then (if asciiLower r then r - 32 else r) else uToUpper r.
Definition runeToLower (r : Z) : Z :=
  if r <? 128 then (if asciiUpper r then r + 32 else r) else uToLower r.

(** strings.ToLower and strings.ToUpper: the case mapping of each rune. *)
Definition ToLower (s : string) : string := ofRunes (runeToLower <$> runes s).
Definition ToUpper (s : string) : string := ofRunes (runeToUpper <$> runes s).

End Unicode.

(** strings.EqualFold against an ASCII word whose letters have no non-ASCII
    case variant (no k and no s). *)
Definition asciiFold (r : Z) : Z := if asciiUpper r then r + 32 else r.
Definition EqualFold (s word : string) : bool :=
  bool_decide (asciiFold <$> runes s = asciiFold <$> runes word).

Fixpoint dropSpace (l : list (Z * string)) : list (Z * string) :=
  match l with
  | [] => []
  | (r, bs) :: l' => if IsSpace r then dropSpace l' else l
  end.

Definition runeBytes (l : list (Z * string)) : string :=
  foldr (fun x s => x.2 +:+ s) "" l.

(** strings.TrimSpace. *)
Definition TrimSpace (s : string) : string :=
  runeBytes (rev (dropSpace (rev (dropSpace (runesOf s))))).

(** [strings.TrimSpace(s) == ""]. *)
Definition isBlank (s : string) : bool := bool_decide (TrimSpace s = "").

(** ** Lemmas *)

Lemma app_string_assoc (a b c : string) : (a +:+ b) +:+ c = a +:+ (b +:+ c).
Proof. induction a as [|x a IH]; [done|]. by apply (f_equal (String x)). Qed.

Lemma app_string_nil_r (a : string) : a +:+ "" = a.
Proof. induction a as [|x a IH]; [done|]. by apply (f_equal (String x)). Qed.

Lemma length_app_string (a b : string) : length (a +:+ b) = (length a + length b)%nat.
Proof. induction a as [|x a IH]; [done|]. by apply (f_equal S). Qed.

Lemma decodeRune_split s r bs rest :
  decodeRune s = Some (r, bs, rest) -> s = bs +:+ rest /\ bs <> "".
Proof.
  unfold decodeRune. intros H.
  repeat (break_match_hyp H; cbn beta iota zeta in H; try discriminate H); by simplify_eq/=.
Qed.

Lemma runesAux_bytes fuel s : (length s <= fuel)%nat -> runeBytes (runesAux fuel s) = s.
Proof.
  revert s. induction fuel as [|fuel IH]; intros s Hlen.
  - destruct s; [done|]. simpl in Hlen. lia.
  - simpl. destruct (decodeRune s) as [[[r bs] rest]|] eqn:E.
    + destruct (decodeRune_split _ _ _ _ E) as [-> Hne]. simpl.
      rewrite IH; [done|]. rewrite length_app_string in Hlen.
      destruct bs; simpl in *; [done|lia].
    + destruct s; [done|]. unfold decodeRune in E.
      repeat (break_match_hyp E; try discriminate E).
Qed.

(** Decoding loses no byte. *)
Lemma runesOf_bytes s : runeBytes (runesOf s) = s.
Proof. by apply runesAux_bytes. Qed.

(** Splitting at a separator byte that the parts do not contain. *)
Fixpoint hasByte (c : ascii) (s : string) : bool :=
  match s with
  | EmptyString => false
  | String a s => Ascii.eqb a c || hasByte c s
  end.

Lemma app_sep_inj c s1 s2 t1 t2 :
  hasByte c s1 = false -> hasByte c s2 = false ->
  s1 +:+ String c t1 = s2 +:+ String c t2 -> s1 = s2 /\ t1 = t2.
Proof.
  revert s2. induction s1 as [|a s1 IH]; intros [|b s2] H1 H2 Heq; cbn in *; simplify_eq.
  - done.
  - by rewrite Ascii.eqb_refl in H2.
  - by rewrite Ascii.eqb_refl in H1.
  - apply orb_false_iff in H1 as [_ H1], H2 as [_ H2].
    destruct (IH s2 H1 H2) as [-> ->]; done.
Qed.

Lemma app_sep_absent c s1 s2 t : hasByte c s1 = false -> s1 <> s2 +:+ String c t.
Proof.
  revert s1. induction s2 as [|b s2 IH]; intros [|a s1] H; cbn in *; try done.
  - intros [= -> _]. by rewrite Ascii.eqb_refl in H.
  - intros [= _ Heq]. apply orb_false_iff in H as [_ H]. by apply (IH s1).
Qed.

Lemma Join_cons2 c s t l : Join (s :: t :: l) (String c "") = s +:+ String c (Join (t :: l) (String c "")).
Proof. done. Qed.

(** Joining with a byte that occurs in no element is injective on lists of
    non-empty elements. *)
Lemma Join_inj c l1 l2 :
  Forall (fun s => hasByte c s = false /\ s <> "") l1 ->
  Forall (fun s => hasByte c s = false /\ s <> "") l2 ->
  Join l1 (String c "") = Join l2 (String c "") -> l1 = l2.
Proof.
  revert l2. induction l1 as [|s1 l1 IH]; intros [|s2 l2] H1 H2 Heq.
  - done.
  - apply Forall_cons in H2 as [[_ Hne] _]. destruct l2, s2; done.
  - apply Forall_cons in H1 as [[_ Hne] _]. destruct l1, s1; done.
  - pose proof H1 as [[Hs1 _] Hl1]%Forall_cons. pose proof H2 as [[Hs2 _] Hl2]%Forall_cons.
    destruct l1 as [|t1 l1], l2 as [|t2 l2].
    + by simpl in Heq; subst.
    + rewrite Join_cons2 in Heq. by apply app_sep_absent in Heq.
    + rewrite Join_cons2 in Heq. symmetry in Heq. by apply app_sep_absent in Heq.
    + rewrite !Join_cons2 in Heq. apply app_sep_inj in Heq as [-> Heq]; [|done..].
      f_equal. by apply IH.
Qed.
