(* ===== verification/Unicode.v ===== *)
(** * Unicode: UTF-8 round trips and the laws of Go's Unicode tables

    [GoStrings] reads letters, digits and cases beyond ASCII from
    [UnicodeTables]. The laws below are what the generator relies on of those
    tables, and hold of the Unicode categories L and Nd and of the simple case
    mappings; [asciiLaws] shows that they can hold. The lemmas are the ones
    about encoding, decoding and trimming that the naming and annotation code
    needs. *)

From S2P Require Import Prelude GoStrings.
From Stdlib Require Import Ascii String.

#[local] Open Scope string_scope.
#[local] Open Scope Z_scope.

(** A Unicode scalar value other than U+FFFD. *)
Definition scalar (r : Z) : bool :=
  inRange 0 0x10FFFF r && negb (inRange 0xD800 0xDFFF r) && negb (r =? RuneError).

Class UnicodeLaws (UT : UnicodeTables) := {
  law_letter_scalar : forall r, IsLetter r = true -> scalar r = true;
  law_digit_scalar : forall r, IsDigit r = true -> scalar r = true;
  law_letter_not_space : forall r, IsLetter r = true -> IsSpace r = false;
  law_digit_not_space : forall r, IsDigit r = true -> IsSpace r = false;
  law_letter_not_digit : forall r, IsLetter r = true -> IsDigit r = false;
  law_upper_letter : forall r, IsLetter r = true -> IsLetter (runeToUpper r) = true;
  law_lower_letter : forall r, IsLetter r = true -> IsLetter (runeToLower r) = true;
  law_upper_digit : forall r, IsDigit r = true -> runeToUpper r = r;
  law_lower_digit : forall r, IsDigit r = true -> runeToLower r = r;
  law_upper_not_lower : forall r, asciiLower (runeToUpper r) = false;
}.

Ltac rune_cases :=
  unfold IsLetter, IsDigit, IsSpace, IsUpper, IsLower, runeToUpper, runeToLower,
    asciiUpper, asciiLower, scalar, inRange, RuneError in *;
  cbn [uIsLetter uIsDigit uIsUpper uIsLower uToUpper uToLower asciiTables] in *; intros;
  repeat match goal with
  | H : context [if ?b then _ else _] |- _ => destruct b eqn:?
  | |- context [if ?b then _ else _] => destruct b eqn:?
  end; try discriminate; lia.

#[export] Instance asciiLaws : UnicodeLaws asciiTables.
Proof. split; rune_cases. Qed.

(** ** Encoding and decoding *)

Lemma byteZ_byteOf z : 0 <= z < 256 -> byteZ (byteOf z) = z.
Proof. intros Hz. unfold byteZ, byteOf. rewrite N_ascii_embedding; lia. Qed.

Lemma app_cons_string a (s t : string) : String a s +:+ t = String a (s +:+ t).
Proof. done. Qed.
Lemma app_nil_string (t : string) : "" +:+ t = t.
Proof. done. Qed.

Ltac decide_ifs :=
  repeat match goal with
  | |- context [if ?b then _ else _] =>
      first [ replace b with true by lia | replace b with false by lia ]; cbn iota
  end.

Lemma encodeRune_scalar r :
  scalar r = true ->
  encodeRune r =
    if r <? 0x80 then String (byteOf r) ""
    else if r <? 0x800 then
      String (byteOf (0xC0 + r / 64)) (String (byteOf (0x80 + r mod 64)) "")
    else if r <? 0x10000 then
      String (byteOf (0xE0 + r / 4096))
        (String (byteOf (0x80 + r / 64 mod 64)) (String (byteOf (0x80 + r mod 64)) ""))
    else
      String (byteOf (0xF0 + r / 262144))
        (String (byteOf (0x80 + r / 4096 mod 64))
          (String (byteOf (0x80 + r / 64 mod 64)) (String (byteOf (0x80 + r mod 64)) ""))).
Proof.
  intros Hr. unfold encodeRune. unfold scalar in Hr.
  destruct (inRange 0 0x10FFFF r && negb (inRange 0xD800 0xDFFF r)); done.
Qed.

Lemma decode_encode r s :
  scalar r = true -> decodeRune (encodeRune r +:+ s) = Some (r, encodeRune r, s).
Proof.
  intros Hr. rewrite (encodeRune_scalar r Hr).
  unfold scalar, inRange, RuneError in Hr.
  destruct (r <? 0x80) eqn:E1; [|destruct (r <? 0x800) eqn:E2; [|destruct (r <? 0x10000) eqn:E3]];
    rewrite ?app_cons_string, ?app_nil_string; unfold decodeRune, inRange; cbn zeta;
    Z.div_mod_to_equations; rewrite !byteZ_byteOf by lia;
    repeat match goal with |- context [?a =? ?b] => destruct (a =? b) eqn:? end; decide_ifs;
    repeat lazymatch goal with
    | |- Some _ = Some _ => f_equal
    | |- (_, _) = (_, _) => f_equal
    end; lia.
Qed.

Lemma encodeRune_nonempty r : encodeRune r <> "".
Proof.
  unfold encodeRune. cbn zeta.
  repeat match goal with |- context [if ?b then _ else _] => destruct b end; done.
Qed.

Lemma runesAux_enough n m s :
  (length s <= n)%nat -> (length s <= m)%nat -> runesAux n s = runesAux m s.
Proof.
  revert m s. induction n as [|n IH]; intros [|m] s Hn Hm; simpl.
  - done.
  - destruct s; simpl in Hn; [done|lia].
  - destruct s; simpl in Hm; [done|lia].
  - destruct (decodeRune s) as [[[r bs] rest]|] eqn:E; [|done].
    destruct (decodeRune_split _ _ _ _ E) as [-> Hne]. f_equal.
    rewrite length_app_string in Hn, Hm.
    destruct bs; [done|]. simpl in Hn, Hm. apply IH; lia.
Qed.

(** Decoding one rune after the other. *)
Lemma runesOf_step s :
  runesOf s = match decodeRune s with
              | None => []
              | Some (r, bs, rest) => (r, bs) :: runesOf rest
              end.
Proof.
  unfold runesOf. destruct s as [|a s]; [done|]. cbn [length runesAux].
  destruct (decodeRune (String a s)) as [[[r bs] rest]|] eqn:E; [|done].
  destruct (decodeRune_split _ _ _ _ E) as [Hs Hne]. f_equal.
  apply (f_equal length) in Hs. rewrite length_app_string in Hs.
  destruct bs; [done|]. simpl in Hs. apply runesAux_enough; lia.
Qed.

Lemma runesOf_ascii a s : byteZ a < 128 -> runesOf (String a s) = (byteZ a, String a "") :: runesOf s.
Proof.
  intros Ha. rewrite runesOf_step. unfold decodeRune. cbn zeta.
  by replace (byteZ a <? 128) with true by lia.
Qed.

Lemma runes_encode r s : scalar r = true -> runesOf (encodeRune r +:+ s) = (r, encodeRune r) :: runesOf s.
Proof. intros Hr. by rewrite runesOf_step, decode_encode. Qed.

Lemma runes_ofRunes rs : Forall (fun r => scalar r = true) rs -> runes (ofRunes rs) = rs.
Proof.
  induction 1 as [|r rs Hr _ IH]; [done|]. unfold runes in *. cbn [ofRunes foldr].
  rewrite runes_encode by done. cbn. by f_equal.
Qed.

(** What a well-formed prefix decodes to does not depend on what follows. *)
Lemma decodeRune_ext s r bs rest t :
  decodeRune s = Some (r, bs, rest) -> r <> RuneError -> decodeRune (bs +:+ t) = Some (r, bs, t).
Proof.
  intros H Hr. unfold decodeRune in H.
  repeat (break_match_hyp H; cbn beta iota zeta in H; try discriminate H);
    injection H as <- <- <-; try done;
    rewrite ?app_cons_string, ?app_nil_string; unfold decodeRune; cbn zeta;
    repeat match goal with H : ?b = _ |- context [if ?b then _ else _] => rewrite H end; done.
Qed.

(** The string holds no encoding error and no U+FFFD. *)
Definition wellFormed (s : string) : Prop := Forall (fun r => r <> RuneError) (runes s).

Lemma runesOf_app s t : wellFormed s -> runesOf (s +:+ t) = (runesOf s ++ runesOf t)%list.
Proof.
  unfold wellFormed, runes, runesOf at 1. generalize (Nat.le_refl (length s)).
  generalize (length s) at 2 3. intros n. revert s.
  induction n as [|n IH]; intros s Hn.
  - destruct s; [|simpl in Hn; lia]. by rewrite app_nil_string.
  - cbn [runesAux]. rewrite (runesOf_step s).
    destruct (decodeRune s) as [[[r bs] rest]|] eqn:E.
    + cbn [fmap list_fmap]. intros [Hr Hrest]%Forall_cons.
      destruct (decodeRune_split _ _ _ _ E) as [-> Hne].
      rewrite app_string_assoc, runesOf_step, (decodeRune_ext _ _ _ _ _ E Hr).
      cbn. f_equal. apply IH; [|done]. rewrite length_app_string in Hn.
      destruct bs; [done|]. simpl in Hn. lia.
    + intros _. destruct s; [by rewrite app_nil_string|].
      unfold decodeRune in E. repeat (break_match_hyp E; try discriminate E).
Qed.

(** An ASCII byte ends any encoding, so decoding restarts there. *)
Lemma decodeRune_app_ascii s a t r bs rest :
  byteZ a < 128 -> decodeRune s = Some (r, bs, rest) ->
  decodeRune (s +:+ String a t) = Some (r, bs, rest +:+ String a t).
Proof.
  intros Ha. destruct s as [|b0 s1]; [done|]. rewrite app_cons_string. unfold decodeRune. cbn zeta.
  assert (forall lo hi, 128 <= lo -> inRange lo hi (byteZ a) = false) as Hno by (unfold inRange; lia).
  destruct (byteZ b0 <? 128); [by intros [= <- <- <-]|]. destruct (byteZ b0 <? 194); [by intros [= <- <- <-]|].
  destruct (byteZ b0 <? 224); [|destruct (byteZ b0 <? 240); [|destruct (byteZ b0 <? 245);
    [|by intros [= <- <- <-]]]].
  - destruct s1 as [|b1 s2]; rewrite ?app_nil_string, ?app_cons_string;
      [rewrite Hno by lia|destruct (inRange _ _ _)]; by intros [= <- <- <-].
  - assert (128 <= if byteZ b0 =? 224 then 160 else 128) as Hlo by (destruct (byteZ b0 =? 224); lia).
    destruct s1 as [|b1 [|b2 s3]]; rewrite ?app_nil_string, ?app_cons_string, ?app_nil_string.
    + destruct t; [by intros [= <- <- <-]|]. rewrite (Hno _ _ Hlo). by intros [= <- <- <-].
    + rewrite (Hno 128), andb_false_r by lia. by intros [= <- <- <-].
    + destruct (_ && _); by intros [= <- <- <-].
  - assert (128 <= if byteZ b0 =? 240 then 144 else 128) as Hlo by (destruct (byteZ b0 =? 240); lia).
    destruct s1 as [|b1 [|b2 [|b3 s4]]]; rewrite ?app_nil_string, ?app_cons_string, ?app_nil_string.
    + destruct t as [|? [|? ?]]; [by intros [= <- <- <-]..|]. rewrite (Hno _ _ Hlo). by intros [= <- <- <-].
    + destruct t; [by intros [= <- <- <-]|]. rewrite (Hno 128), andb_false_r by lia. by intros [= <- <- <-].
    + rewrite (Hno 128), andb_false_r by lia. by intros [= <- <- <-].
    + destruct (_ && _); by intros [= <- <- <-].
Qed.

Lemma runesOf_app_ascii s a t :
  byteZ a < 128 -> runesOf (s +:+ String a t) = (runesOf s ++ runesOf (String a t))%list.
Proof.
  intros Ha. remember (length s) as n eqn:Hn. revert s Hn.
  induction n as [n IH] using lt_wf_ind. intros s ->.
  destruct s as [|b s]; [by rewrite app_nil_string|].
  rewrite (runesOf_step (String b s)), (runesOf_step (String b s +:+ String a t)).
  destruct (decodeRune (String b s)) as [[[r bs] rest]|] eqn:E.
  - rewrite (decodeRune_app_ascii _ a t _ _ _ Ha E). cbn [app]. f_equal.
    destruct (decodeRune_split _ _ _ _ E) as [Hs Hne]. eapply IH; [|done].
    apply (f_equal length) in Hs. rewrite length_app_string in Hs. rewrite Hs. destruct bs; [done|]. cbn. lia.
  - unfold decodeRune in E. repeat (break_match_hyp E; try discriminate E).
Qed.

Lemma ofRunes_app l k : ofRunes (l ++ k) = ofRunes l +:+ ofRunes k.
Proof.
  induction l as [|r l IH]; [by rewrite app_nil_string|]. cbn [app ofRunes foldr] in *.
  fold (ofRunes (l ++ k)) (ofRunes l) (ofRunes k) in *. by rewrite IH, app_string_assoc.
Qed.

Lemma ToLower_app_ascii `{UT : !UnicodeTables} s a t :
  byteZ a < 128 -> ToLower (s +:+ String a t) = ToLower s +:+ ToLower (String a t).
Proof.
  intros Ha. unfold ToLower, runes. rewrite runesOf_app_ascii by done. by rewrite !fmap_app, ofRunes_app.
Qed.

Lemma ToLower_cons_ascii `{UT : !UnicodeTables} a t :
  byteZ a < 128 -> ToLower (String a t) = encodeRune (runeToLower (byteZ a)) +:+ ToLower t.
Proof. intros Ha. unfold ToLower, runes. by rewrite runesOf_ascii. Qed.

(** ** Lengths *)

Lemma runesOf_length s : (Datatypes.length (runesOf s) <= String.length s)%nat.
Proof.
  unfold runesOf. generalize (String.length s) at 1. intros n. revert s.
  induction n as [|n IH]; intros s; cbn [runesAux]; [cbn; lia|].
  destruct (decodeRune s) as [[[r bs] rest]|] eqn:E; [|cbn; lia].
  destruct (decodeRune_split _ _ _ _ E) as [-> Hne]. rewrite length_app_string. cbn [Datatypes.length].
  specialize (IH rest). destruct bs; [done|]. cbn [String.length]. lia.
Qed.

Lemma encodeRune_first_ascii r b bs : encodeRune r = String b bs -> byteZ b < 128 -> bs = "".
Proof.
  unfold encodeRune, inRange, RuneError. cbn zeta. intros H Hb.
  repeat match type of H with context [if ?c then _ else _] => destruct c eqn:? end;
    injection H as <- <-; try done;
    match type of Hb with byteZ (byteOf ?z) < _ => rewrite byteZ_byteOf in Hb end;
    Z.div_mod_to_equations; lia.
Qed.

(** A prefix of ASCII bytes is encoded by as many runes. *)
Lemma ofRunes_prefix_length rs p :
  (forall a, hasByte a p = true -> byteZ a < 128) ->
  HasPrefix (ofRunes rs) p = true -> (String.length p <= Datatypes.length rs)%nat.
Proof.
  unfold HasPrefix. revert p. induction rs as [|r rs IH]; intros [|a p] Hp H; cbn [Datatypes.length String.length];
    try lia.
  - done.
  - cbn [ofRunes foldr] in H. destruct (encodeRune r) as [|b bs] eqn:E.
    + by apply encodeRune_nonempty in E.
    + rewrite app_cons_string in H. cbn [prefix] in H.
      destruct (Ascii.ascii_dec a b) as [->|]; [|done].
      rewrite (encodeRune_first_ascii _ _ _ E) in H.
      * rewrite app_nil_string in H. apply le_n_S, IH; [|done].
        intros c Hc. apply Hp. cbn. by rewrite Hc, orb_true_r.
      * apply Hp. cbn. by rewrite Ascii.eqb_refl.
Qed.

Lemma ToLower_prefix_length `{UT : !UnicodeTables} s p :
  (forall a, hasByte a p = true -> byteZ a < 128) ->
  HasPrefix (ToLower s) p = true -> (String.length p <= String.length s)%nat.
Proof.
  intros Hp H%ofRunes_prefix_length; [|done]. etrans; [exact H|].
  unfold runes. rewrite !length_fmap. apply runesOf_length.
Qed.

(** ** Positions *)

Lemma takeBytes_app a b : takeBytes (String.length a) (a +:+ b) = a.
Proof. induction a as [|x a IH]; [by destruct b|]. rewrite app_cons_string. cbn. by rewrite IH. Qed.

Lemma dropBytes_length_app a b : dropBytes (String.length a) (a +:+ b) = b.
Proof. induction a as [|x a IH]; [done|]. rewrite app_cons_string. exact IH. Qed.

Lemma Index_byte c s i :
  Index s (String c "") = Some i ->
  exists a b, s = a +:+ String c b /\ String.length a = i /\ hasByte c a = false.
Proof.
  revert i. induction s as [|x s IH]; intros i; cbn; [done|]. unfold HasPrefix. cbn.
  destruct (Ascii.ascii_dec c x) as [->|Hne].
  - intros H. exists "", s. split_and!; [done| |done]. destruct s; by simplify_eq/=.
  - intros (j & Hj & ->)%fmap_Some. destruct (IH j) as (a & b & -> & <- & Ha); [done|].
    exists (String x a), b. split_and!; [done..|]. cbn. rewrite Ha, orb_false_r.
    by apply Ascii.eqb_neq.
Qed.

Lemma Index_byte_app c a b : hasByte c a = false -> Index (a +:+ String c b) (String c "") = Some (String.length a).
Proof.
  induction a as [|x a IH]; intros Ha.
  - rewrite app_nil_string. cbn. unfold HasPrefix. cbn.
    destruct (Ascii.ascii_dec c c); [|done]. by destruct b.
  - rewrite app_cons_string. cbn in Ha. apply orb_false_iff in Ha as [Hx Ha].
    cbn. unfold HasPrefix. cbn. apply Ascii.eqb_neq in Hx.
    destruct (Ascii.ascii_dec c x); [by subst|]. by rewrite IH.
Qed.

Lemma takeDrop n s : takeBytes n s +:+ dropBytes n s = s.
Proof. revert s. induction n as [|n IH]; intros [|a s]; cbn; try done. rewrite app_cons_string. by rewrite IH. Qed.

Lemma HasSuffix_app s t : HasSuffix s t = true <-> exists a, s = a +:+ t.
Proof.
  unfold HasSuffix. rewrite andb_true_iff, !bool_decide_eq_true. split.
  - intros [_ H]. exists (takeBytes (String.length s - String.length t) s).
    rewrite <- (takeDrop (String.length s - String.length t) s) at 1. by rewrite H.
  - intros [a ->]. rewrite length_app_string. split; [lia|].
    replace (_ + _ - _)%nat with (String.length a) by lia. apply dropBytes_length_app.
Qed.

Lemma app_string_snoc_inj a b x y : a +:+ String x "" = b +:+ String y "" -> a = b /\ x = y.
Proof.
  revert b. induction a as [|c a IH]; intros [|d b]; rewrite ?app_cons_string, ?app_nil_string; intros H.
  - by simplify_eq.
  - injection H as -> H. by destruct b.
  - injection H as -> H. by destruct a.
  - injection H as -> H. destruct (IH b H) as [-> ->]. done.
Qed.

(** ** Trimming well-formed strings *)

(** A decoded rune with its bytes. *)
Definition piece (x : Z * string) : Prop :=
  x.1 <> RuneError /\ exists s rest, decodeRune s = Some (x.1, x.2, rest).

Lemma pieces_runes l : Forall piece l -> runesOf (runeBytes l) = l.
Proof.
  induction 1 as [|[r bs] l (Hr & s & rest & Hd) _ IH]; [done|]. cbn [runeBytes foldr fst snd] in *.
  rewrite runesOf_step, (decodeRune_ext _ _ _ _ _ Hd Hr). f_equal. exact IH.
Qed.

Lemma runeBytes_app a b : runeBytes (a ++ b) = runeBytes a +:+ runeBytes b.
Proof.
  unfold runeBytes. induction a as [|x a IH]; [done|].
  cbn [app foldr]. by rewrite IH, app_string_assoc.
Qed.

Lemma wellFormed_pieces s : wellFormed s -> Forall piece (runesOf s).
Proof.
  unfold wellFormed, runes. remember (runesOf s) as l eqn:E. revert s E.
  induction l as [|[r bs] l IH]; intros s E; [constructor|].
  cbn [fmap list_fmap]. intros [Hr Hl]%Forall_cons. rewrite runesOf_step in E.
  destruct (decodeRune s) as [[[r' bs'] rest]|] eqn:D; [|done]. injection E as <- <- E.
  constructor; [|by apply (IH rest)]. split; [done|]. by exists s, rest.
Qed.

Lemma wellFormed_app s t : wellFormed s -> wellFormed t -> wellFormed (s +:+ t).
Proof.
  intros Hs Ht. unfold wellFormed, runes in *. rewrite runesOf_app by done.
  rewrite fmap_app. by apply Forall_app.
Qed.

Lemma runes_app s t : wellFormed s -> runes (s +:+ t) = (runes s ++ runes t)%list.
Proof. intros Hs. unfold runes. by rewrite runesOf_app, fmap_app. Qed.

Lemma dropSpace_split l :
  exists p, l = (p ++ dropSpace l)%list /\
    match dropSpace l with [] => True | x :: _ => IsSpace x.1 = false end.
Proof.
  induction l as [|[r bs] l (p & Hp & Hd)]; cbn; [by exists []|].
  destruct (IsSpace r) eqn:E; [|by exists []].
  exists ((r, bs) :: p). split; [|done]. cbn. by f_equal.
Qed.

Lemma dropSpace_id x l : IsSpace x.1 = false -> dropSpace (x :: l) = x :: l.
Proof. destruct x as [r bs]. cbn. by intros ->. Qed.

Definition trimRunes (l : list (Z * string)) : list (Z * string) := rev (dropSpace (rev (dropSpace l))).

Lemma trimRunes_pieces l : Forall piece l -> Forall piece (trimRunes l).
Proof.
  intros Hl. unfold trimRunes. apply Forall_rev.
  destruct (dropSpace_split l) as (p & Hp & _). rewrite Hp in Hl. apply Forall_app in Hl as [_ Hl].
  apply Forall_rev in Hl. destruct (dropSpace_split (rev (dropSpace l))) as (p' & Hp' & _).
  rewrite Hp' in Hl. by apply Forall_app in Hl as [_ Hl].
Qed.

Lemma runesOf_TrimSpace s : wellFormed s -> runesOf (TrimSpace s) = trimRunes (runesOf s).
Proof. intros Hs. unfold TrimSpace. by apply pieces_runes, trimRunes_pieces, wellFormed_pieces. Qed.

Lemma trimRunes_idem l : trimRunes (trimRunes l) = trimRunes l.
Proof.
  unfold trimRunes at 2 3. set (m := dropSpace l).
  destruct (dropSpace_split (rev m)) as (p & Hp & Hn). set (n := dropSpace (rev m)) in *.
  assert (m = (rev n ++ rev p)%list) as Hm by (by rewrite <- rev_app_distr, <- Hp, rev_involutive).
  assert (dropSpace (rev n) = rev n) as Hrev.
  { destruct (rev n) as [|x r] eqn:E; [done|]. apply dropSpace_id.
    destruct (dropSpace_split l) as (_ & _ & Hd). fold m in Hd. by rewrite Hm in Hd. }
  unfold trimRunes. rewrite Hrev, rev_involutive. f_equal.
  destruct n as [|x n']; [done|]. by apply dropSpace_id.
Qed.

Lemma TrimSpace_idem s : wellFormed s -> TrimSpace (TrimSpace s) = TrimSpace s.
Proof.
  intros Hs. unfold TrimSpace at 1. rewrite runesOf_TrimSpace by done.
  fold (trimRunes (trimRunes (runesOf s))). by rewrite trimRunes_idem.
Qed.

Lemma TrimSpace_space s : TrimSpace (String " " s) = TrimSpace s.
Proof. unfold TrimSpace. by rewrite runesOf_ascii. Qed.

(** A well-formed string without a space at its ends. *)
Definition tight (s : string) : Prop :=
  wellFormed s /\ exists x l y, runesOf s = (x :: l)%list /\ last (x :: l) = Some y /\
    IsSpace x.1 = false /\ IsSpace y.1 = false.

Lemma tight_surround a m b : tight a -> wellFormed m -> tight b -> tight (a +:+ (m +:+ b)).
Proof.
  intros (Ha & x & l & y & Hax & Hay & Hx & _) Hm (Hb & x' & l' & y' & Hbx & Hby & _ & Hy').
  split; [by repeat apply wellFormed_app|].
  rewrite !runesOf_app by done. rewrite Hax, Hbx.
  exists x, (l ++ runesOf m ++ x' :: l')%list, y'. split_and!; [done| |done|done].
  change (x :: l ++ runesOf m ++ x' :: l')%list with ((x :: l) ++ (runesOf m ++ x' :: l'))%list.
  rewrite app_assoc. rewrite last_app, Hby. done.
Qed.

Lemma tight_app a b : tight a -> tight b -> tight (a +:+ b).
Proof. intros Ha Hb. apply (tight_surround a "" b); [done|constructor|done]. Qed.

Lemma TrimSpace_tight s : tight s -> TrimSpace s = s.
Proof.
  intros (Hs & x & l & y & E & Hl & Hx & Hy). unfold TrimSpace. rewrite E.
  rewrite dropSpace_id by done.
  assert (exists l', rev (x :: l) = y :: l') as [l' Hr].
  { apply last_Some in Hl as [l0 ->]. rewrite rev_app_distr. by exists (rev l0). }
  rewrite Hr, dropSpace_id by done. rewrite <- Hr, rev_involutive, <- E. apply runesOf_bytes.
Qed.

(** Bytes of well-formed strings. *)
Lemma piece_bytes c r bs :
  piece (r, bs) -> byteZ c < 128 -> r <> byteZ c -> hasByte c bs = false.
Proof.
  intros (Hr & s & rest & H) Hc Hne. cbn [fst snd] in *. unfold decodeRune in H.
  repeat (break_match_hyp H; cbn beta iota zeta in H; try discriminate H);
    injection H as <- <- <-; try done; cbn [hasByte]; rewrite ?orb_false_r;
    rewrite ?orb_false_iff; split_and?; apply Ascii.eqb_neq; intros <-;
    unfold inRange in *; lia.
Qed.

Lemma hasByte_app c a b : hasByte c (a +:+ b) = hasByte c a || hasByte c b.
Proof. induction a as [|x a IH]; [done|]. rewrite app_cons_string. cbn. by rewrite IH, orb_assoc. Qed.

Lemma wellFormed_hasByte c s :
  wellFormed s -> byteZ c < 128 -> Forall (fun r => r <> byteZ c) (runes s) -> hasByte c s = false.
Proof.
  intros Hs%wellFormed_pieces Hc. rewrite <- (runesOf_bytes s) at 2. unfold runes.
  induction Hs as [|[r bs] l Hp _ IH]; [done|]. cbn [fmap list_fmap]. intros [Hr Hl]%Forall_cons.
  cbn [runeBytes foldr snd]. rewrite hasByte_app, (piece_bytes c r bs) by done. by apply IH.
Qed.

(** ** Splitting at a byte *)

Lemma splitByte_none c s : hasByte c s = false -> splitByte c s = [s].
Proof.
  induction s as [|a s IH]; [done|]. cbn. intros [Ha Hs]%orb_false_iff. by rewrite Ha, (IH Hs).
Qed.

Lemma splitByte_app c a b : hasByte c a = false -> splitByte c (a +:+ String c b) = a :: splitByte c b.
Proof.
  induction a as [|x a IH].
  - intros _. rewrite app_nil_string. cbn. by rewrite Ascii.eqb_refl.
  - cbn [hasByte]. intros [Hx Ha]%orb_false_iff. rewrite app_cons_string. cbn. by rewrite Hx, IH.
Qed.

Lemma splitByte_Join c l :
  l <> [] -> Forall (fun s => hasByte c s = false) l -> splitByte c (Join l (String c "")) = l.
Proof.
  intros Hne Hl. induction Hl as [|s l Hs Hl IH]; [done|]. destruct l as [|t l].
  - by apply splitByte_none.
  - rewrite Join_cons2, splitByte_app by done. f_equal. by apply IH.
Qed.

(** ** Decoding is injective on well-formed strings *)

Lemma byteOf_byteZ a : byteOf (byteZ a) = a.
Proof. unfold byteOf, byteZ. rewrite N2Z.id. apply ascii_N_embedding. Qed.

(** Ranges for every byte in sight, and the branches of conditions split. *)
Ltac byte_facts :=
  repeat match goal with
  | a : ascii |- _ =>
      lazymatch goal with
      | _ : 0 <= byteZ a < 256 |- _ => fail
      | _ => pose proof (byteZ_range a)
      end
  end;
  repeat match goal with
  | H : context [if ?b then _ else _] |- _ => destruct b eqn:?
  end.

Lemma piece_scalar r bs : piece (r, bs) -> scalar r = true.
Proof.
  intros (Hr & s & rest & H). cbn [fst snd] in *. unfold decodeRune in H.
  repeat (break_match_hyp H; cbn beta iota zeta in H; try discriminate H);
    injection H as <- <- <-; try done; unfold scalar, inRange, RuneError in *; byte_facts; lia.
Qed.

Lemma piece_encode r bs : piece (r, bs) -> bs = encodeRune r.
Proof.
  intros Hp. pose proof (piece_scalar r bs Hp) as Hs. destruct Hp as (Hr & s & rest & H).
  cbn [fst snd] in *. rewrite (encodeRune_scalar r Hs). unfold decodeRune in H.
  repeat (break_match_hyp H; cbn beta iota zeta in H; try discriminate H);
    injection H as <- <- <-; try done; clear Hr Hs; unfold inRange in *; byte_facts; try (exfalso; lia); decide_ifs;
    repeat match goal with |- String _ _ = String _ _ => f_equal end; try done;
    match goal with |- ?a = byteOf ?z => rewrite <- (byteOf_byteZ a) at 1; f_equal end;
    Z.div_mod_to_equations; lia.
Qed.

Lemma wellFormed_ofRunes s : wellFormed s -> ofRunes (runes s) = s.
Proof.
  intros Hs%wellFormed_pieces. rewrite <- (runesOf_bytes s) at 2. unfold runes.
  induction Hs as [|[r bs] l Hp _ IH]; [done|]. cbn [fmap list_fmap ofRunes foldr runeBytes snd fst].
  rewrite (piece_encode r bs Hp). f_equal. exact IH.
Qed.

Lemma runes_inj s t : wellFormed s -> runes s = runes t -> s = t.
Proof.
  intros Hs E. rewrite <- (wellFormed_ofRunes s Hs), E. apply wellFormed_ofRunes.
  unfold wellFormed. by rewrite <- E.
Qed.
