(* ===== verification/GoFormat.v ===== *)
(** * GoFormat: the parts of fmt, strconv and bytes.Buffer that emit code

    A generated file is written into a buffer by calls of [WriteString] and
    [fmt.Fprintf]. The model keeps the calls: a buffer is a list of writes,
    and [render] gives its bytes. The calls carry their format, so theorems
    can ask which declarations a writer emits. *)

From S2P Require Import Prelude Errors GoStrings Unicode.
From Stdlib Require Import Ascii String.

#[local] Open Scope string_scope.
#[local] Open Scope Z_scope.

(** ** strconv.Quote *)

Definition hexDigit (z : Z) : ascii := byteOf (if z <? 10 then 48 + z else 87 + z).

(** The last [n] hexadecimal digits of a number. *)
Fixpoint hexDigits (n : nat) (z : Z) (acc : string) : string :=
  match n with
  | O => acc
  | S n => hexDigits n (z / 16) (String (hexDigit (z mod 16)) acc)
  end.

Definition quoteByte : ascii := "034".

Section Quote.
Context `{UT : !UnicodeTables}.

Definition quoteRune (x : Z * string) : string :=
  let '(r, bs) := x in
  if bool_decide (String.length bs = 1%nat) && (r =? RuneError) then
    match bs with String a _ => "\x" +:+ hexDigits 2 (byteZ a) "" | _ => "" end
  else if (r =? 34) || (r =? 92) then "\" +:+ bs
  else if IsPrint r then bs
  else if r =? 7 then "\a" else if r =? 8 then "\b" else if r =? 12 then "\f"
  else if r =? 10 then "\n" else if r =? 13 then "\r" else if r =? 9 then "\t"
  else if r =? 11 then "\v"
  else if (r <? 32) || (r =? 127) then "\x" +:+ hexDigits 2 r ""
  else if r <? 0x10000 then "\u" +:+ hexDigits 4 r ""
  else "\U" +:+ hexDigits 8 r "".

Definition Quote (s : string) : string :=
  String quoteByte (foldr (fun x acc => quoteRune x +:+ acc) (String quoteByte "") (runesOf s)).

End Quote.

(** ** fmt.Fprintf *)

(** A string literal of the source: [\t], [\n] and [\*] are escapes of Go's or
    of this text's (a star next to a parenthesis), and [\q] is a quote. *)
Fixpoint literal (s : string) : string :=
  match s with
  | String "\" (String c s') =>
      if Ascii.eqb c "t" then String "009" (literal s')
      else if Ascii.eqb c "n" then String "010" (literal s')
      else if Ascii.eqb c "q" then String quoteByte (literal s')
      else String c (literal s')
  | String a s' => String a (literal s')
  | EmptyString => ""
  end.

Section Printf.
Context `{UT : !UnicodeTables} (itoa : Z -> string).

(** A verb and its operand: the verbs the generator uses. *)
Definition formatVerb (verb : ascii) (a : arg) : string :=
  match a with
  | AStr s =>
      if Ascii.eqb verb "s" then s
      else if Ascii.eqb verb "q" then Quote s
      else "%!" +:+ String verb ("(string=" +:+ (s +:+ ")"))
  | AInt z =>
      if Ascii.eqb verb "d" then itoa z
      else "%!" +:+ String verb ("(int=" +:+ (itoa z +:+ ")"))
  end.

(** The bytes [Fprintf] writes for a format and its operands. Operands beyond
    the verbs do not occur; a missing one is reported as fmt does. *)
Fixpoint sprintf (format : string) (args : list arg) : string :=
  match format with
  | String "%" (String verb format') =>
      if Ascii.eqb verb "%" then String "%" (sprintf format' args)
      else
        match args with
        | a :: args => formatVerb verb a +:+ sprintf format' args
        | [] => "%!" +:+ String verb ("(MISSING)" +:+ sprintf format' [])
        end
  | String c format' => String c (sprintf format' args)
  | EmptyString => ""
  end.
End Printf.

(** ** Buffers *)

(** The calls on a [bytes.Buffer]: [WriteString] of a literal, of a computed
    string, and [fmt.Fprintf]. *)
Inductive write :=
  | WriteString (lit : string)
  | WriteValue (value : string)
  | Fprintf (format : string) (args : list arg).

Definition buffer : Type := list write.

(** The loop [for _, x := range l] around writes, and the one with an index. *)
Definition each {A} (l : list A) (f : A -> buffer) : buffer := List.concat (f <$> l).
Definition eachIndexed {A} (l : list A) (f : nat -> A -> buffer) : buffer := List.concat (imap f l).

(** The loop around writes that may panic. *)
Fixpoint eachM {A} (l : list A) (f : A -> result buffer) : result buffer :=
  match l with
  | [] => mret []
  | x :: l => a ← f x; b ← eachM l f; mret (a ++ b)%list
  end.

(** [strings.Replace(s, old, new, 1)] for a non-empty [old]. *)
Definition Replace1 (s old new : string) : string :=
  match Index s old with
  | Some i => takeBytes i s +:+ (new +:+ dropBytes (i + String.length old) s)
  | None => s
  end.
