(* ===== verification/Hasher.v ===== *)
(** * Hasher: shard-key hashers (hasher.go)

    [ShardHasher K] is the interface; [NewConstantShardHasher] and
    [NewModuloShardHasher] are its two implementations. The modulo hasher is
    generic over Go's integer types, given here by a width and a signedness;
    its body is written with the wrap-around of every intermediate value, so
    that the theorem that no intermediate value overflows is about the code. *)

From S2P Require Import Prelude Errors.

#[local] Open Scope Z_scope.

(** The interface: [Hash] maps a key to a virtual shard index. *)
Class ShardHasher (K : Type) := Hash : K -> Z.

Definition constantShardHasher_Hash {K} (virtualShardIndex : Z) (_ : K) : Z :=
  virtualShardIndex.

Definition NewConstantShardHasher {K} (virtualShardIndex : Z) : ShardHasher K :=
  constantShardHasher_Hash virtualShardIndex.

(** [IntegerShardKey]: the integer types a key may have. *)
Record intType := IntType { width : Z; signed : bool }.

Definition int8 := IntType 8 true.
Definition int16 := IntType 16 true.
Definition int32 := IntType 32 true.
Definition int64 := IntType 64 true.
Definition uint8 := IntType 8 false.
Definition uint16 := IntType 16 false.
Definition uint32 := IntType 32 false.
Definition uint64 := IntType 64 false.

(** [~int] and [~uint] are 64 bits wide on the supported platforms. *)
Definition IntegerShardKey : list intType :=
  [int8; int16; int32; int64; uint8; uint16; uint32; uint64].

Definition in_type (t : intType) (z : Z) : Prop :=
  if signed t then in_s (width t) z else in_u (width t) z.

(** Arithmetic of a type: the mathematical result reduced to the type. *)
Definition wrap (t : intType) (z : Z) : Z :=
  if signed t then wrap_s (width t) z else wrap_u (width t) z.

(** [moduloShardHasher.Hash], with every operation at its width: [key + 1] and
    the negation at the key's type, the conversion and the rest at uint64. *)
Definition moduloShardHasher_Hash (t : intType) (virtualShardCount key : Z) : Z :=
  if key <? 0 then
    let magnitude := u64 (u64 (wrap t (- wrap t (key + 1))) + 1) in
    let magnitudeRemainder := magnitude mod virtualShardCount in
    if magnitudeRemainder =? 0 then 0
    else u64 (virtualShardCount - magnitudeRemainder)
  else u64 key mod virtualShardCount.

(** [NewModuloShardHasher]: panics on a zero count. *)
Definition NewModuloShardHasher (t : intType) (virtualShardCount : Z)
    : result (Z -> Z) :=
  if virtualShardCount =? 0 then Panic
  else Ok (moduloShardHasher_Hash t virtualShardCount).

Lemma in_type_range t z :
  t ∈ IntegerShardKey -> in_type t z ->
  in_s 64 z \/ in_u 64 z.
Proof.
  intros Ht. unfold IntegerShardKey in Ht.
  repeat (apply elem_of_cons in Ht as [->|Ht]); [..|by apply elem_of_nil in Ht];
    unfold in_type, in_s, in_u; cbn; lia.
Qed.

(** No intermediate value of the negative branch leaves its type: the
    magnitude it computes is the exact absolute value, at the minimum integer too. *)
Lemma magnitude_exact t key :
  t ∈ IntegerShardKey -> in_type t key -> key < 0 ->
  u64 (u64 (wrap t (- wrap t (key + 1))) + 1) = - key.
Proof.
  intros Ht Hk Hneg. unfold IntegerShardKey in Ht.
  repeat (apply elem_of_cons in Ht as [->|Ht]); [..|by apply elem_of_nil in Ht];
    unfold in_type, in_u, in_s in Hk; cbn in Hk; try lia;
    unfold wrap; cbn [signed width int8 int16 int32 int64];
    rewrite (wrap_s_id _ (key + 1)) by (unfold in_s; cbn; lia);
    rewrite wrap_s_id by (unfold in_s; cbn; lia);
    rewrite (wrap_u_id 64 (- (key + 1))) by (unfold in_u; cbn; lia);
    rewrite wrap_u_id by (unfold in_u; cbn; lia); lia.
Qed.

Lemma neg_mod key n : 0 < n -> key mod n =
  if (- key) mod n =? 0 then 0 else n - (- key) mod n.
Proof.
  intros Hn. destruct (Z.eqb_spec ((- key) mod n) 0) as [E|E].
  - rewrite <- (Z.opp_involutive key). by apply Z.mod_opp_l_z; lia.
  - rewrite <- (Z.opp_involutive key) at 1. rewrite Z.mod_opp_l_nz by lia. lia.
Qed.

(** The code computes the mathematical (Euclidean) remainder. *)
Lemma modulo_hash_euclidean t n key :
  t ∈ IntegerShardKey -> in_type t key -> 0 < n < 2 ^ 64 ->
  moduloShardHasher_Hash t n key = key mod n.
Proof.
  intros Ht Hk Hn. unfold moduloShardHasher_Hash.
  destruct (Z.ltb_spec key 0) as [Hneg|Hpos].
  - cbv zeta. rewrite (magnitude_exact t key) by done.
    rewrite (neg_mod key n) by lia.
    pose proof (Z.mod_pos_bound (- key) n).
    destruct (_ =? _) eqn:E; [done|].
    rewrite wrap_u_id; [done|]. unfold in_u. lia.
  - rewrite wrap_u_id; [done|].
    destruct (in_type_range t key Ht Hk) as [H|H]; unfold in_s, in_u in *; lia.
Qed.

Section Claims.

(** For every integer key type and every non-zero count below 2^64, the
    modulo hasher exists and, at the type's minimum value too, returns the
    Euclidean remainder of the key, which is a valid virtual shard index. *)
Theorem modulo_hasher_correct t n key :
  t ∈ IntegerShardKey -> in_type t key -> 0 < n < 2 ^ 64 ->
  exists hash, NewModuloShardHasher t n = Ok hash /\
    hash key = key mod n /\ 0 <= hash key < n.
Proof.
  intros Ht Hk Hn. exists (moduloShardHasher_Hash t n). split.
  - unfold NewModuloShardHasher. destruct (Z.eqb_spec n 0); [lia|done].
  - rewrite modulo_hash_euclidean by done. split; [done|].
    apply Z.mod_pos_bound. lia.
Qed.

Lemma modulo_hasher_correct_witness :
  exists hash, NewModuloShardHasher int64 16 = Ok hash /\
    hash (- 2 ^ 63) = (- 2 ^ 63) mod 16 /\ 0 <= hash (- 2 ^ 63) < 16.
Proof.
  apply (modulo_hasher_correct int64 16 (- 2 ^ 63)).
  - unfold IntegerShardKey. do 3 right. left.
  - unfold in_type, in_s. cbn. lia.
  - lia.
Defined.

End Claims.
