(* ===== verification/Balancer.v ===== *)
(** * Balancer: the atomic round-robin cursor (load_balancer.go)

    A [roundRobin] is a fixed item list and an atomic 64-bit counter. Every
    call of [nextItem] takes one ticket with a single atomic add, so any
    concurrent use is some sequence of calls: [takeItems] runs such a sequence. *)

From S2P Require Import Prelude Errors.

#[local] Open Scope Z_scope.

Record roundRobin (T : Type) := RoundRobin {
  items : list T;
  next : Z;
}.
Arguments RoundRobin {T} items next.
Arguments items {T} r.
Arguments next {T} r.

Definition newRoundRobin {T} (items : list T) : roundRobin T :=
  RoundRobin items 0.

(** [nextItem]: [r.next.Add(1) - 1] is the ticket; the remainder by a zero
    length is a run-time panic. *)
Definition nextItem {T} (r : roundRobin T) : result (T * roundRobin T) :=
  let added := u64 (next r + 1) in
  let index := u64 (added - 1) in
  let r' := RoundRobin (items r) added in
  if Z.of_nat (length (items r)) =? 0 then Panic
  else
    item ← panic_if_none (items r !! Z.to_nat (index mod Z.of_nat (length (items r))));
    mret (item, r').

(** A sequence of [n] calls, in the order of their tickets. *)
Fixpoint takeItems {T} (n : nat) (r : roundRobin T) : result (list T * roundRobin T) :=
  match n with
  | O => mret ([], r)
  | S n =>
      '(x, r1) ← nextItem r;
      '(xs, r2) ← takeItems n r1;
      mret (x :: xs, r2)
  end.

Definition balancer_wf {T} (r : roundRobin T) : Prop :=
  items r <> [] /\ in_u 64 (next r).

Section Picks.
Context {T : Type}.
Implicit Types (l : list T) (r : roundRobin T).

(** The position a ticket selects in a list of [n] items. *)
Definition slot (n : nat) (ticket : Z) : nat := Z.to_nat (ticket mod Z.of_nat n).

Lemma slot_lt n ticket : (0 < n)%nat -> (slot n ticket < n)%nat.
Proof.
  intros Hn. unfold slot.
  pose proof (Z.mod_pos_bound ticket (Z.of_nat n)). lia.
Qed.

Lemma length_pos l : l <> [] -> (0 < length l)%nat.
Proof. destruct l; simpl; [done|lia]. Qed.

Lemma ticket_of_counter c : in_u 64 c -> u64 (u64 (c + 1) - 1) = c.
Proof.
  unfold in_u, wrap_u. intros Hc.
  rewrite Zminus_mod_idemp_l. rewrite Z.mod_small; lia.
Qed.

Lemma newRoundRobin_wf l : l <> [] -> balancer_wf (newRoundRobin l).
Proof. intros Hl. split; [done|]. unfold in_u. simpl. lia. Qed.

(** A call never panics on a non-empty list and returns the slot of its ticket. *)
Lemma nextItem_spec r :
  balancer_wf r ->
  exists x, items r !! slot (length (items r)) (next r) = Some x /\
    nextItem r = Ok (x, RoundRobin (items r) (u64 (next r + 1))).
Proof.
  intros [Hne Hc]. pose proof (length_pos _ Hne) as Hlen.
  unfold nextItem. rewrite ticket_of_counter by done.
  destruct (Z.eqb_spec (Z.of_nat (length (items r))) 0); [lia|].
  destruct (lookup_lt_is_Some_2 (items r) (slot (length (items r)) (next r))) as [x Hx].
  { by apply slot_lt. }
  exists x. split; [done|]. unfold slot in Hx. by rewrite Hx.
Qed.

Lemma nextItem_wf r x r' : balancer_wf r -> nextItem r = Ok (x, r') -> balancer_wf r'.
Proof.
  intros Hwf. destruct (nextItem_spec r Hwf) as (y & _ & ->). intros [= -> <-].
  destruct Hwf. split; [done|]. by apply wrap_u_range.
Qed.

(** [n] calls from a counter that does not wrap during them pick the
    consecutive slots. *)
Lemma takeItems_spec n l c :
  l <> [] -> 0 <= c -> c + Z.of_nat n < 2 ^ 64 ->
  exists xs, takeItems n (RoundRobin l c) = Ok (xs, RoundRobin l (c + Z.of_nat n)) /\
    length xs = n /\
    forall i, (i < n)%nat -> xs !! i = l !! slot (length l) (c + Z.of_nat i).
Proof.
  intros Hl. revert c. induction n as [|n IH]; intros c Hc Hn.
  - exists []. simpl. rewrite Z.add_0_r. repeat split; [done..|lia].
  - destruct (nextItem_spec (RoundRobin l c)) as (x & Hx & Hnext).
    { split; [done|]. unfold in_u. simpl. lia. }
    simpl in Hx, Hnext.
    destruct (IH (c + 1)) as (xs & Hxs & Hlen & Hat); [lia..|].
    exists (x :: xs). simpl. rewrite Hnext. simpl.
    rewrite wrap_u_id by (unfold in_u; lia). rewrite Hxs. simpl.
    split_and!; [by rewrite <- Z.add_assoc; repeat f_equal; lia|lia|].
    intros [|i] Hi; simpl.
    + by rewrite Z.add_0_r.
    + rewrite Hat by lia. do 2 f_equal. lia.
Qed.

(** One full round from any counter is a rotation of the items. *)
Lemma round_is_rotation l c xs :
  l <> [] -> 0 <= c -> length xs = length l ->
  (forall i, (i < length l)%nat -> xs !! i = l !! slot (length l) (c + Z.of_nat i)) ->
  xs = drop (slot (length l) c) l ++ take (slot (length l) c) l.
Proof.
  intros Hl Hc Hlen Hat. pose proof (length_pos _ Hl) as Hpos.
  pose proof (slot_lt (length l) c Hpos) as Hs.
  assert (Hsc : Z.of_nat (slot (length l) c) = c mod Z.of_nat (length l)).
  { unfold slot. rewrite Z2Nat.id; [done|].
    apply Z.mod_pos_bound. lia. }
  apply list_eq_same_length with (length l); [by rewrite length_app, length_drop, length_take; lia|done|].
  intros i x y Hi Hx Hy. rewrite Hat in Hx by done.
  assert (Hslot : slot (length l) (c + Z.of_nat i) =
    if decide (slot (length l) c + i < length l)%nat
    then (slot (length l) c + i)%nat else (slot (length l) c + i - length l)%nat).
  { unfold slot at 1. rewrite (Z.div_mod c (Z.of_nat (length l))) at 1 by lia.
    rewrite <- Hsc, <- Z.add_assoc.
    rewrite (Z.mul_comm (Z.of_nat (length l))), (Z.add_comm (_ * _)), Z.mod_add by lia.
    case_decide.
    - rewrite Z.mod_small by lia. lia.
    - replace (Z.of_nat (slot (length l) c) + Z.of_nat i)
        with (Z.of_nat (slot (length l) c) + Z.of_nat i - Z.of_nat (length l)
              + 1 * Z.of_nat (length l)) by lia.
      rewrite Z.mod_add by lia. rewrite Z.mod_small by lia. lia. }
  rewrite Hslot in Hx. case_decide.
  - rewrite lookup_app_l in Hy by (rewrite length_drop; lia).
    rewrite lookup_drop in Hy. congruence.
  - rewrite lookup_app_r in Hy by (rewrite length_drop; lia).
    rewrite length_drop, lookup_take_Some in Hy.
    destruct Hy as [Hy _].
    replace (i - (length l - slot (length l) c))%nat
      with (slot (length l) c + i - length l)%nat in Hy by lia. congruence.
Qed.

Lemma takeItems_app n m r xs r1 :
  takeItems n r = Ok (xs, r1) ->
  takeItems (n + m) r = ('(ys, r2) ← takeItems m r1; mret (xs ++ ys, r2)).
Proof.
  revert r xs. induction n as [|n IH]; intros r xs Hn; simpl in *.
  - simplify_outcome. by destruct (takeItems m r1) as [[??]| |].
  - destruct (nextItem r) as [[x r'] | |]; simpl in *; [|done..].
    destruct (takeItems n r') as [[ys r2]| |] eqn:E; simpl in *; [|done..].
    simplify_outcome. rewrite (IH r' ys E). by destruct (takeItems m r1) as [[??]| |].
Qed.

End Picks.

(** [q] full rounds of calls: every item exactly [q] times. *)
Lemma round_robin_rounds {T} (l : list T) c q :
  l <> [] -> 0 <= c -> c + Z.of_nat (q * length l) < 2 ^ 64 ->
  exists xs, takeItems (q * length l) (RoundRobin l c)
      = Ok (xs, RoundRobin l (c + Z.of_nat (q * length l))) /\
    xs ≡ₚ concat (replicate q l).
Proof.
  intros Hl. revert c. induction q as [|q IH]; intros c Hc Hq.
  - exists []. simpl. by rewrite Z.add_0_r.
  - simpl in Hq.
    destruct (takeItems_spec (length l) l c Hl Hc) as (xs & Hxs & Hlen & Hat); [lia|].
    destruct (IH (c + Z.of_nat (length l))) as (ys & Hys & Hperm); [lia..|].
    exists (xs ++ ys). simpl.
    rewrite (takeItems_app _ _ _ _ _ Hxs), Hys. simpl. split.
    + rewrite <- Z.add_assoc, <- Nat2Z.inj_add. done.
    + rewrite (round_is_rotation l c xs) by done.
      rewrite Hperm. apply Permutation_app; [|done].
      rewrite Permutation_app_comm, take_drop. done.
Qed.

Section Claims.

(** Round-robin fairness. Any [q] full rounds of calls whose tickets do
    not cross the 64-bit wrap return every item exactly [q] times, whatever
    the counter's starting value. *)
Theorem round_robin_fair {T} (l : list T) c q :
  l <> [] -> 0 <= c -> c + Z.of_nat (q * length l) < 2 ^ 64 ->
  exists xs, takeItems (q * length l) (RoundRobin l c)
      = Ok (xs, RoundRobin l (c + Z.of_nat (q * length l))) /\
    xs ≡ₚ concat (replicate q l).
Proof. apply round_robin_rounds. Qed.

Lemma round_robin_fair_witness :
  exists xs, takeItems (2 * 3) (RoundRobin [10%nat; 20%nat; 30%nat] 7)
      = Ok (xs, RoundRobin [10%nat; 20%nat; 30%nat] (7 + Z.of_nat (2 * 3))) /\
    xs ≡ₚ concat (replicate 2 [10%nat; 20%nat; 30%nat]).
Proof.
  apply (round_robin_fair [10%nat; 20%nat; 30%nat] 7 2).
  - discriminate.
  - lia.
  - vm_compute. reflexivity.
Defined.

End Claims.
