(* ===== verification/Routing.v ===== *)
(** * Routing: nodes, replica sets, routes and resolved shards
      (node.go, replica_set.go, route.go, resolved_shard.go)

    A [*ReplicaSet] is a pointer: two replica sets are the same one when the
    pointers are equal (Build keys a map on them), and a copy made by
    [WithWriteMirrors] shares its read balancer with the original. The heap
    therefore maps pointers to replica sets and, separately, pointers to the
    balancers they share. Replica-set fields are never assigned after
    construction; only balancers change. *)

From stdpp Require Import pretty.
From S2P Require Import Prelude Errors Balancer.

#[local] Open Scope Z_scope.

(** [MirrorableWriter]: [WithMirrors] returns a writer that also writes to the
    mirrors, in their order. *)
Class MirrorableWriter (W : Type) := WithMirrors : W -> list W -> W.

Record Node (R W : Type) := NewNode { reader : R; writer : W }.
Arguments NewNode {R W} reader writer.
Arguments reader {R W} n.
Arguments writer {R W} n.

Definition Reader {R W} (n : Node R W) : R := reader n.
Definition Writer {R W} (n : Node R W) : W := writer n.

Inductive NodeRole := NodeRolePrimary | NodeRoleReadReplica | NodeRoleTransaction.

#[export] Instance NodeRole_eq_dec : EqDecision NodeRole.
Proof. solve_decision. Defined.

(** The string constant behind each role. *)
Definition NodeRole_string (r : NodeRole) : string :=
  match r with
  | NodeRolePrimary => "primary"
  | NodeRoleReadReplica => "read_replica"
  | NodeRoleTransaction => "transaction"
  end.

Record RouteMetadata := {
  VirtualShardIndex : Z;
  HasVirtualShard : bool;
  ReplicaSetName : string;
  NodeName : string;
  RouteNodeRole : NodeRole;
}.

Record Route (T : Type) := MkRoute { Target : T; metadata : RouteMetadata }.
Arguments MkRoute {T} Target metadata.
Arguments Target {T} r.
Arguments metadata {T} r.

Definition Metadata {T} (r : Route T) : RouteMetadata := metadata r.

Definition withVirtualShard {T} (r : Route T) (virtualShardIndex : Z) : Route T :=
  MkRoute (Target r) {|
    VirtualShardIndex := virtualShardIndex;
    HasVirtualShard := true;
    ReplicaSetName := ReplicaSetName (metadata r);
    NodeName := NodeName (metadata r);
    RouteNodeRole := RouteNodeRole (metadata r) |}.

Definition WithoutVirtualShard (m : RouteMetadata) : RouteMetadata := {|
  VirtualShardIndex := 0;
  HasVirtualShard := false;
  ReplicaSetName := ReplicaSetName m;
  NodeName := NodeName m;
  RouteNodeRole := RouteNodeRole m |}.

Record nodeTarget (T : Type) := NodeTarget { nt_value : T; nt_name : string; nt_role : NodeRole }.
Arguments NodeTarget {T} nt_value nt_name nt_role.
Arguments nt_value {T} n.
Arguments nt_name {T} n.
Arguments nt_role {T} n.

(** Pointers. *)
Abbreviation loc := positive.

(** [strconv.Itoa] on a non-negative int. *)
Definition Itoa (n : nat) : string := pretty n.

Section ReplicaSets.
Context {R W : Type} `{!MirrorableWriter W}.

Record ReplicaSet := {
  rs_name : string;
  primary : Node R W;
  readTargets : loc;
  writeMirrors : list W;
}.

(** The heap, with the DSNs a caller's node opener was called with. *)
Record heap := Heap {
  replicaSetsAt : gmap loc ReplicaSet;
  balancersAt : gmap loc (roundRobin (nodeTarget R));
  fresh : loc;
  opened : list string;
}.

Definition emptyHeap : heap := Heap ∅ ∅ 1%positive [].

#[local] Abbreviation goM := (stE heap error).

Definition allocBalancer (r : roundRobin (nodeTarget R)) : goM loc := fun h =>
  (Ok (fresh h), Heap (replicaSetsAt h) (<[fresh h := r]> (balancersAt h))
     (Pos.succ (fresh h)) (opened h)).

Definition allocReplicaSet (s : ReplicaSet) : goM loc := fun h =>
  (Ok (fresh h), Heap (<[fresh h := s]> (replicaSetsAt h)) (balancersAt h)
     (Pos.succ (fresh h)) (opened h)).

(** Dereference a [*ReplicaSet]; a nil or dangling pointer panics. *)
Definition deref (p : loc) : goM ReplicaSet := fun h =>
  (panic_if_none (replicaSetsAt h !! p), h).

(** The read targets of [NewReplicaSet]: the replicas in order, or the primary
    when there are none. *)
Definition readTargetsOf (primary : Node R W) (replicas : list (Node R W))
    : list (nodeTarget R) :=
  match replicas with
  | [] => [NodeTarget (Reader primary) "primary" NodeRolePrimary]
  | _ => imap (fun index replica =>
           NodeTarget (Reader replica) ("replica-" +:+ Itoa index) NodeRoleReadReplica) replicas
  end.

Definition NewReplicaSet (name : string) (primary : Node R W)
    (replicas : list (Node R W)) : goM loc :=
  targets ← allocBalancer (newRoundRobin (readTargetsOf primary replicas));
  allocReplicaSet {|
    rs_name := name; primary := primary; readTargets := targets; writeMirrors := [] |}.

Definition Name (p : loc) : goM string := s ← deref p; mret (rs_name s).

(** [selectRead]: take the next ticket of the shared balancer. *)
Definition selectRead (s : ReplicaSet) : goM (nodeTarget R) := fun h =>
  match balancersAt h !! readTargets s with
  | None => (Panic, h)
  | Some b =>
      match nextItem b with
      | Ok (target, b') =>
          (Ok target, Heap (replicaSetsAt h) (<[readTargets s := b']> (balancersAt h))
             (fresh h) (opened h))
      | Err e => (Err e, h)
      | Panic => (Panic, h)
      end
  end.

Definition selectWrite (s : ReplicaSet) : nodeTarget W :=
  NodeTarget (WithMirrors (Writer (primary s)) (writeMirrors s)) "primary" NodeRolePrimary.

Definition routeOf {T} (s : ReplicaSet) (target : nodeTarget T) : Route T :=
  MkRoute (nt_value target) {|
    VirtualShardIndex := 0;
    HasVirtualShard := false;
    ReplicaSetName := rs_name s;
    NodeName := nt_name target;
    RouteNodeRole := nt_role target |}.

Definition ReadRoute (p : loc) : goM (Route R) :=
  s ← deref p;
  target ← selectRead s;
  mret (routeOf s target).

Definition WriteRoute (p : loc) : goM (Route W) :=
  s ← deref p;
  mret (routeOf s (selectWrite s)).

Definition ReplicaSet_Reader (p : loc) : goM R := r ← ReadRoute p; mret (Target r).
Definition ReplicaSet_Writer (p : loc) : goM W := r ← WriteRoute p; mret (Target r).

Definition WriteMirrorCount (p : loc) : goM Z :=
  s ← deref p; mret (Z.of_nat (length (writeMirrors s))).

Definition primaryWriter (p : loc) : goM W := s ← deref p; mret (Writer (primary s)).

Definition WithWriteMirrors (p : loc) (mirrors : list W) : goM loc :=
  s ← deref p;
  allocReplicaSet {|
    rs_name := rs_name s;
    primary := primary s;
    readTargets := readTargets s;
    writeMirrors := writeMirrors s ++ mirrors |}.

(** A resolved shard: the virtual shard a key selected and its replica set. *)
Record ResolvedShard := { rsh_virtualShardIndex : Z; rsh_replicaSet : loc }.

Definition ResolvedShard_VirtualShardIndex (s : ResolvedShard) : Z := rsh_virtualShardIndex s.
Definition ResolvedShard_ReplicaSetName (s : ResolvedShard) : goM string :=
  Name (rsh_replicaSet s).
Definition ResolvedShard_ReadRoute (s : ResolvedShard) : goM (Route R) :=
  r ← ReadRoute (rsh_replicaSet s); mret (withVirtualShard r (rsh_virtualShardIndex s)).
Definition ResolvedShard_WriteRoute (s : ResolvedShard) : goM (Route W) :=
  r ← WriteRoute (rsh_replicaSet s); mret (withVirtualShard r (rsh_virtualShardIndex s)).

(** ** The heap invariant

    Every allocated pointer is below [fresh], and every replica set's balancer
    holds the read targets [NewReplicaSet] computed for its primary. *)

Definition set_wf (h : heap) (s : ReplicaSet) (replicas : list (Node R W)) : Prop :=
  exists b, balancersAt h !! readTargets s = Some b /\
    items b = readTargetsOf (primary s) replicas /\ in_u 64 (next b).

Record heap_wf (h : heap) : Prop := {
  wf_sets p s : replicaSetsAt h !! p = Some s ->
    (p < fresh h)%positive /\ exists replicas, set_wf h s replicas;
  wf_balancers p b : balancersAt h !! p = Some b -> (p < fresh h)%positive;
}.

Lemma emptyHeap_wf : heap_wf emptyHeap.
Proof. split; simpl; intros p x; by rewrite lookup_empty. Qed.

Lemma readTargetsOf_nonempty (n : Node R W) replicas : readTargetsOf n replicas <> [].
Proof. by destruct replicas. Qed.

(** Names of read targets are pairwise distinct, so they identify a node
    within its replica set. *)
Lemma readTargetsOf_names_NoDup (n : Node R W) replicas :
  NoDup (nt_name <$> readTargetsOf n replicas).
Proof.
  destruct replicas as [|r rs]; simpl; [repeat constructor; by apply not_elem_of_nil|].
  change (NoDup (nt_name <$> imap (fun index replica =>
    NodeTarget (Reader replica) ("replica-" +:+ Itoa index) NodeRoleReadReplica) (r :: rs))).
  apply NoDup_alt. intros i j x Hi Hj.
  rewrite list_lookup_fmap, list_lookup_imap in Hi, Hj.
  destruct ((r :: rs) !! i), ((r :: rs) !! j); simplify_eq/=.
  by apply (inj pretty).
Qed.

(** A read target is a replica, or the primary when there is no replica. *)
Lemma readTargetsOf_role (n : Node R W) replicas t :
  t ∈ readTargetsOf n replicas ->
  match replicas with
  | [] => nt_value t = Reader n /\ nt_role t = NodeRolePrimary
  | _ => nt_role t = NodeRoleReadReplica /\ exists r, r ∈ replicas /\ nt_value t = Reader r
  end.
Proof.
  destruct replicas as [|r rs].
  - by intros ->%list_elem_of_singleton.
  - simpl. intros Ht. change (t ∈ imap (fun index replica =>
      NodeTarget (Reader replica) ("replica-" +:+ Itoa index) NodeRoleReadReplica) (r :: rs)) in Ht.
    apply elem_of_lookup_imap_1 in Ht as (i & x & -> & Hx). split; [done|].
    exists x. split; [by eapply list_elem_of_lookup_2|done].
Qed.

(** Allocation and balancer updates leave existing objects alone. *)
Lemma allocReplicaSet_wf s h p h' :
  heap_wf h -> (exists replicas, set_wf h s replicas) ->
  allocReplicaSet s h = (Ok p, h') ->
  heap_wf h' /\ p = fresh h /\ replicaSetsAt h' = <[p := s]> (replicaSetsAt h) /\
  balancersAt h' = balancersAt h /\ opened h' = opened h.
Proof.
  intros [Hs Hb] Hset [= <- <-]. split_and!; try done. split; simpl.
  - intros q s' Hq. destruct (decide (fresh h = q)) as [<-|Hne].
    + rewrite lookup_insert_eq in Hq. simplify_eq. split; [lia|done].
    + rewrite lookup_insert_ne in Hq by done.
      destruct (Hs q s' Hq). split; [lia|done].
  - intros q b Hq. specialize (Hb q b Hq). lia.
Qed.

Lemma allocBalancer_wf b h p h' :
  heap_wf h -> in_u 64 (next b) ->
  allocBalancer b h = (Ok p, h') ->
  heap_wf h' /\ p = fresh h /\ replicaSetsAt h' = replicaSetsAt h /\
  balancersAt h' = <[p := b]> (balancersAt h) /\ opened h' = opened h.
Proof.
  intros [Hs Hb] Hin [= <- <-]. split_and!; try done. split; simpl.
  - intros q s Hq. destruct (Hs q s Hq) as [Hlt (rs & b' & Hb' & ?)].
    split; [lia|]. exists rs, b'. simpl. split; [|done].
    rewrite lookup_insert_ne; [done|]. specialize (Hb _ _ Hb'). lia.
  - intros q b' Hq. destruct (decide (fresh h = q)) as [<-|Hne]; [lia|].
    rewrite lookup_insert_ne in Hq by done. specialize (Hb q b' Hq). lia.
Qed.

(** [NewReplicaSet] always succeeds, allocates a new set and extends the heap. *)
Lemma NewReplicaSet_spec name n replicas h :
  heap_wf h ->
  exists p h', NewReplicaSet name n replicas h = (Ok p, h') /\ heap_wf h' /\
    opened h' = opened h /\ replicaSetsAt h !! p = None /\
    exists s, replicaSetsAt h' = <[p := s]> (replicaSetsAt h) /\
      rs_name s = name /\ primary s = n /\ writeMirrors s = [] /\ set_wf h' s replicas /\
      forall s' rs', set_wf h s' rs' -> set_wf h' s' rs'.
Proof.
  intros Hwf. unfold NewReplicaSet.
  set (b := newRoundRobin (readTargetsOf n replicas)).
  destruct (allocBalancer b h) as [o h1] eqn:E1.
  pose proof E1 as E1'. injection E1' as <- Hh1.
  destruct (allocBalancer_wf b h _ _ Hwf ltac:(unfold in_u; simpl; lia) E1)
    as (Hwf1 & _ & Hs1 & Hb1 & Ho1).
  set (s := {| rs_name := name; primary := n; readTargets := fresh h; writeMirrors := [] |}).
  assert (Hset : set_wf h1 s replicas).
  { exists b. simpl. rewrite Hb1, lookup_insert_eq.
    split_and!; [done..|]. unfold in_u; simpl; lia. }
  rewrite (stE_bind_Ok _ _ _ _ _ E1). fold s.
  destruct (allocReplicaSet s h1) as [o2 h2] eqn:E2.
  pose proof E2 as E2'. injection E2' as <- Hh2.
  destruct (allocReplicaSet_wf s h1 _ _ Hwf1 (ex_intro _ _ Hset) E2)
    as (Hwf2 & _ & Hs2 & Hb2 & Ho2).
  exists (fresh h1), h2. split_and!; try done.
  - by rewrite Ho2.
  - destruct (replicaSetsAt h !! fresh h1) as [s'|] eqn:Hs'; [|done].
    rewrite <- Hs1 in Hs'. destruct (wf_sets _ Hwf1 _ _ Hs'). lia.
  - exists s. rewrite <- Hs1. split_and!; try done.
    + destruct Hset as (b' & Hb' & Hrest). exists b'. by rewrite Hb2.
    + intros s' rs' (b' & Hb' & Hrest). exists b'. split; [|done].
      rewrite Hb2, Hb1, lookup_insert_ne; [done|].
      pose proof (wf_balancers _ Hwf _ _ Hb'). lia.
Qed.

(** [WithWriteMirrors] allocates a copy that shares the balancer. *)
Lemma WithWriteMirrors_spec p mirrors h s :
  heap_wf h -> replicaSetsAt h !! p = Some s ->
  exists p' h', WithWriteMirrors p mirrors h = (Ok p', h') /\ heap_wf h' /\
    opened h' = opened h /\ balancersAt h' = balancersAt h /\
    replicaSetsAt h !! p' = None /\
    replicaSetsAt h' = <[p' := {| rs_name := rs_name s; primary := primary s;
      readTargets := readTargets s; writeMirrors := writeMirrors s ++ mirrors |}]>
      (replicaSetsAt h).
Proof.
  intros Hwf Hs. unfold WithWriteMirrors.
  rewrite (stE_bind_Ok _ _ h s h); [|unfold deref; by rewrite Hs].
  set (s' := {| rs_name := rs_name s; primary := primary s;
    readTargets := readTargets s; writeMirrors := writeMirrors s ++ mirrors |}).
  destruct (allocReplicaSet s' h) as [o h'] eqn:E.
  pose proof E as E'. injection E' as <- Hh'.
  destruct (wf_sets _ Hwf _ _ Hs) as [_ [rs Hset]].
  destruct (allocReplicaSet_wf s' h _ _ Hwf (ex_intro _ rs Hset) E) as (Hwf' & _ & ? & ? & ?).
  exists (fresh h), h'. split_and!; try done.
  destruct (replicaSetsAt h !! fresh h) as [x|] eqn:Hx; [|done].
  destruct (wf_sets _ Hwf _ _ Hx). lia.
Qed.

(** A read on a well-formed heap succeeds and moves only its own balancer. *)
Lemma selectRead_spec s h replicas :
  heap_wf h -> set_wf h s replicas ->
  exists b t b', balancersAt h !! readTargets s = Some b /\ nextItem b = Ok (t, b') /\
    t ∈ readTargetsOf (primary s) replicas /\
    selectRead s h = (Ok t, Heap (replicaSetsAt h) (<[readTargets s := b']> (balancersAt h))
      (fresh h) (opened h)) /\
    heap_wf (Heap (replicaSetsAt h) (<[readTargets s := b']> (balancersAt h))
      (fresh h) (opened h)).
Proof.
  intros [Hs Hb] (b & Hlook & Hitems & Hin).
  destruct (nextItem_spec b) as (t & Ht & Hnext).
  { split; [rewrite Hitems; apply readTargetsOf_nonempty|done]. }
  eexists b, t, _. split_and!; [done|done| | |].
  - rewrite <- Hitems. by eapply list_elem_of_lookup_2.
  - unfold selectRead. by rewrite Hlook, Hnext.
  - split; simpl.
    + intros p s' Hp. destruct (Hs p s' Hp) as [Hlt (rs & b1 & Hb1 & Hi1 & Hn1)].
      split; [done|]. exists rs. unfold set_wf. simpl.
      destruct (decide (readTargets s = readTargets s')) as [E|E].
      * rewrite <- E, lookup_insert_eq. rewrite <- E, Hlook in Hb1. simplify_eq.
        eexists. split_and!; [done|done|]. simpl. by apply wrap_u_range.
      * rewrite lookup_insert_ne by done. by exists b1.
    + intros p b1 Hp. destruct (decide (readTargets s = p)) as [<-|E].
      * by apply (Hb _ b).
      * rewrite lookup_insert_ne in Hp by done. by apply (Hb _ b1).
Qed.

(** Reads through a list of pointers, in the order they take their tickets. *)
Fixpoint readMany (ps : list loc) : goM (list R) :=
  match ps with
  | [] => mret []
  | p :: ps => r ← ReadRoute p; rs ← readMany ps; mret (Target r :: rs)
  end.

(** Reads through pointers that share a balancer are a run of that balancer. *)
Lemma readMany_shared ps h b l xs b' :
  balancersAt h !! l = Some b ->
  (forall p, p ∈ ps -> exists s, replicaSetsAt h !! p = Some s /\ readTargets s = l) ->
  takeItems (length ps) b = Ok (xs, b') ->
  exists h', readMany ps h = (Ok (nt_value <$> xs), h').
Proof.
  revert h b xs. induction ps as [|p ps IH]; intros h b xs Hb Hps Htake; simpl in Htake.
  - simplify_outcome. by exists h.
  - destruct (nextItem b) as [[t b1]| |] eqn:Hn; [|inv_outcome Htake..].
    destruct (takeItems (length ps) b1) as [[ys b2]| |] eqn:Ht; inv_outcome Htake.
    destruct (Hps p) as (s & Hs & Hl); [left|].
    set (h1 := Heap (replicaSetsAt h) (<[l := b1]> (balancersAt h)) (fresh h) (opened h)).
    destruct (IH h1 b1 ys) as [h' Hrec]; [by apply lookup_insert_eq|..|done|].
    { intros q Hq. apply Hps. by right. }
    exists h'. simpl.
    assert (Hread : ReadRoute p h = (Ok (routeOf s t), h1)).
    { unfold ReadRoute. rewrite (stE_bind_Ok _ _ h s h) by (unfold deref; by rewrite Hs).
      rewrite (stE_bind_Ok _ _ h t h1); [done|].
      unfold selectRead. rewrite Hl, Hb, Hn. done. }
    rewrite (stE_bind_Ok _ _ _ _ _ Hread), (stE_bind_Ok _ _ _ _ _ Hrec). done.
Qed.

End ReplicaSets.

Arguments ReplicaSet R W : clear implicits.
Arguments heap R W : clear implicits.
Arguments ResolvedShard : clear implicits.

(** ** A concrete writer for witnesses: the list of databases it writes to. *)
Module Sample.
#[export] Instance mirrorable : MirrorableWriter (list nat) := fun w ms => w ++ concat ms.

Definition node (n : nat) : Node nat (list nat) := NewNode n [n].

(** One replica set "eu" with primary 1 and replicas 2 and 3, and a mirrored copy. *)
Definition setup : outcome error (loc * loc) * heap nat (list nat) :=
  (p ← NewReplicaSet "eu" (node 1) [node 2; node 3];
   p' ← WithWriteMirrors p [[4%nat]];
   mret (p, p')) emptyHeap.

Lemma setup_wf : heap_wf (setup.2).
Proof.
  unfold setup. destruct (NewReplicaSet_spec "eu" (node 1) [node 2; node 3] emptyHeap
    emptyHeap_wf) as (p & h & Hp & Hwf & _ & _ & s & Hs & _).
  rewrite (stE_bind_Ok _ _ _ _ _ Hp).
  destruct (WithWriteMirrors_spec p [[4%nat]] h s Hwf) as (p' & h' & Hp' & Hwf' & _).
  { by rewrite Hs, lookup_insert_eq. }
  by rewrite (stE_bind_Ok _ _ _ _ _ Hp').
Qed.
End Sample.

Section Claims.
Context {R W : Type} `{!MirrorableWriter W}.
Implicit Types (h : heap R W).

(** A read through a resolved shard always succeeds. It is attributed to
    the shard's index and replica set; it goes to a replica's reader with role
    read_replica, or to the primary's reader exactly when the set was created
    with no replicas; and it changes no replica set and keeps the heap
    invariant. *)
Theorem read_route_correct h shard s replicas :
  heap_wf h -> replicaSetsAt h !! rsh_replicaSet shard = Some s -> set_wf h s replicas ->
  exists r h', ResolvedShard_ReadRoute shard h = (Ok r, h') /\
    heap_wf h' /\ replicaSetsAt h' = replicaSetsAt h /\
    ReplicaSetName (Metadata r) = rs_name s /\
    HasVirtualShard (Metadata r) = true /\
    VirtualShardIndex (Metadata r) = rsh_virtualShardIndex shard /\
    match replicas with
    | [] => Target r = Reader (primary s) /\ RouteNodeRole (Metadata r) = NodeRolePrimary
    | _ => RouteNodeRole (Metadata r) = NodeRoleReadReplica /\
           exists n, n ∈ replicas /\ Target r = Reader n
    end.
Proof.
  intros Hwf Hs Hset.
  destruct (selectRead_spec s h replicas Hwf Hset) as (b & t & b' & _ & _ & Ht & Hsel & Hwf').
  eexists (withVirtualShard (routeOf s t) _), _. split_and!; [|exact Hwf'|done..|].
  - unfold ResolvedShard_ReadRoute, ReadRoute.
    erewrite stE_bind_Ok; [done|].
    rewrite (stE_bind_Ok _ _ h s h) by (unfold deref; by rewrite Hs).
    by rewrite (stE_bind_Ok _ _ _ _ _ Hsel).
  - by apply readTargetsOf_role in Ht; destruct replicas.
Qed.

(** Writes always go to the primary. [WithWriteMirrors] returns a new
    replica set whose write target is the primary's writer mirrored by the
    configured mirrors followed by the added ones, in order, and leaves the
    write target of the original set unchanged. *)
Theorem write_route_correct h p s mirrors :
  heap_wf h -> replicaSetsAt h !! p = Some s ->
  exists p' h' r r', WithWriteMirrors p mirrors h = (Ok p', h') /\ p <> p' /\
    WriteRoute p h' = (Ok r, h') /\ WriteRoute p' h' = (Ok r', h') /\
    Target r = WithMirrors (Writer (primary s)) (writeMirrors s) /\
    Target r' = WithMirrors (Writer (primary s)) (writeMirrors s ++ mirrors) /\
    RouteNodeRole (Metadata r) = NodeRolePrimary /\
    RouteNodeRole (Metadata r') = NodeRolePrimary /\
    ReplicaSetName (Metadata r') = ReplicaSetName (Metadata r).
Proof.
  intros Hwf Hs.
  destruct (WithWriteMirrors_spec p mirrors h s Hwf Hs) as (p' & h' & Hp' & _ & _ & _ & Hnone & Hh').
  assert (p <> p') by congruence.
  set (s' := {| rs_name := rs_name s; primary := primary s;
    readTargets := readTargets s; writeMirrors := writeMirrors s ++ mirrors |}) in Hh'.
  exists p', h', (routeOf s (selectWrite s)), (routeOf s' (selectWrite s')).
  split_and!; [done|done| | |done..].
  - unfold WriteRoute. rewrite (stE_bind_Ok _ _ h' s h'); [done|].
    unfold deref. by rewrite Hh', lookup_insert_ne, Hs.
  - unfold WriteRoute. rewrite (stE_bind_Ok _ _ h' s' h'); [done|].
    unfold deref. by rewrite Hh', lookup_insert_eq.
Qed.

(** C27: read balance is shared with mirrored copies. Any interleaving of reads
    through a replica set and the copy [WithWriteMirrors] made of it returns,
    over [q] full rounds, every read target exactly [q] times, so mirroring
    does not skew the load. *)
Theorem mirrored_copy_shares_balance h p s replicas mirrors p' h' b ps q :
  heap_wf h -> replicaSetsAt h !! p = Some s -> set_wf h s replicas ->
  balancersAt h !! readTargets s = Some b ->
  WithWriteMirrors p mirrors h = (Ok p', h') ->
  (forall x, x ∈ ps -> x = p \/ x = p') ->
  length ps = (q * length (readTargetsOf (primary s) replicas))%nat ->
  next b + Z.of_nat (length ps) < 2 ^ 64 ->
  exists rs h'', readMany ps h' = (Ok rs, h'') /\
    rs ≡ₚ concat (replicate q (nt_value <$> readTargetsOf (primary s) replicas)).
Proof.
  intros Hwf Hs Hset Hb Hmir Hps Hlen Hbound.
  destruct (WithWriteMirrors_spec p mirrors h s Hwf Hs)
    as (p1 & h1 & Hp1 & _ & _ & Hbal & Hnone & Hsets).
  rewrite Hp1 in Hmir. injection Hmir as -> ->.
  destruct Hset as (b1 & Hb1 & Hitems & Hin).
  assert (b1 = b) as -> by congruence. clear Hb1.
  destruct b as [l c]. simpl in *. subst l.
  destruct (round_robin_rounds (readTargetsOf (primary s) replicas) c q)
    as (xs & Hxs & Hperm); [apply readTargetsOf_nonempty|by destruct Hin|by rewrite <- Hlen|].
  destruct (readMany_shared ps h' (RoundRobin (readTargetsOf (primary s) replicas) c)
    (readTargets s) xs (RoundRobin (readTargetsOf (primary s) replicas)
      (c + Z.of_nat (q * length (readTargetsOf (primary s) replicas))))) as [h'' Hrd].
  - by rewrite Hbal.
  - intros x Hx. rewrite Hsets. destruct (Hps x Hx) as [->| ->].
    + exists s. rewrite lookup_insert_ne; [done|]. intros ->. congruence.
    + eexists. by rewrite lookup_insert_eq.
  - by rewrite Hlen.
  - exists (nt_value <$> xs), h''. split; [done|].
    rewrite Hperm. clear. induction q as [|q IH]; simpl; [done|].
    by rewrite fmap_app, IH.
Qed.

End Claims.

Section Witnesses.
Import Sample.

Definition sampleSet : ReplicaSet nat (list nat) := {|
  rs_name := "eu"; primary := node 1; readTargets := 1%positive; writeMirrors := [] |}.

Lemma sampleSet_wf : set_wf (setup.2) sampleSet [node 2; node 3].
Proof.
  eexists. split_and!; [vm_compute; reflexivity|reflexivity|].
  unfold in_u. simpl. lia.
Qed.

Lemma read_route_correct_witness :
  exists r h', ResolvedShard_ReadRoute {| rsh_virtualShardIndex := 5; rsh_replicaSet := 2%positive |}
      (setup.2) = (Ok r, h') /\ RouteNodeRole (Metadata r) = NodeRoleReadReplica.
Proof.
  destruct (read_route_correct (setup.2)
    {| rsh_virtualShardIndex := 5; rsh_replicaSet := 2%positive |} sampleSet [node 2; node 3])
    as (r & h' & Hr & _ & _ & _ & _ & _ & Hrole & _).
  - apply setup_wf.
  - vm_compute. reflexivity.
  - apply sampleSet_wf.
  - exists r, h'. split; [exact Hr|exact Hrole].
Defined.

Lemma write_route_correct_witness :
  exists p' h' r', WithWriteMirrors 2%positive [[9%nat]] (setup.2) = (Ok p', h') /\
    WriteRoute p' h' = (Ok r', h') /\ Target r' = [1%nat; 9%nat].
Proof.
  destruct (write_route_correct (setup.2) 2%positive sampleSet [[9%nat]])
    as (p' & h' & r & r' & Hp & _ & _ & Hr' & _ & Ht & _).
  - apply setup_wf.
  - vm_compute. reflexivity.
  - exists p', h', r'. split; [exact Hp|]. split; [exact Hr'|]. exact Ht.
Defined.

Lemma mirrored_copy_shares_balance_witness :
  exists rs h'', readMany [2%positive; 4%positive; 4%positive; 2%positive]
      ((WithWriteMirrors 2%positive [[9%nat]] (setup.2)).2) = (Ok rs, h'') /\
    rs ≡ₚ [2%nat; 3%nat; 2%nat; 3%nat].
Proof.
  apply (mirrored_copy_shares_balance (setup.2) 2%positive sampleSet [node 2; node 3]
    [[9%nat]] 4%positive _ (newRoundRobin (readTargetsOf (node 1) [node 2; node 3])) _ 2).
  - apply setup_wf.
  - vm_compute. reflexivity.
  - apply sampleSet_wf.
  - vm_compute. reflexivity.
  - vm_compute. reflexivity.
  - intros x Hx. repeat (apply elem_of_cons in Hx as [->|Hx]; [by auto|]).
    by apply elem_of_nil in Hx.
  - vm_compute. reflexivity.
  - vm_compute. reflexivity.
Defined.

End Witnesses.
