(* ===== verification/Telemetry.v ===== *)
(** * Telemetry: spans, metrics and logs (telemetry.go)

    OpenTelemetry and slog are third-party code: a provider is a record of the
    functions the code calls on it, and every call the runtime makes on a
    tracer, span, instrument or logger is appended to the trace [calls]. The
    theorems are about that trace. Durations are integers of nanoseconds and
    the clock is an argument of the operations that read it. *)

From stdpp Require Import pretty.
From Stdlib Require Import QArith.
From S2P Require Import Prelude Errors Routing.

#[local] Open Scope Z_scope.

Definition instrumentationName : string := "github.com/sundayfun/pgmesh".

Definition MetricStoreQueryDuration : string := "pgmesh.query.store.duration".
Definition MetricLogicalQueryDuration : string := "pgmesh.query.logical.duration".
Definition MetricPhysicalQueryDuration : string := "pgmesh.query.physical.duration".
Definition MetricPhysicalQueryInFlight : string := "pgmesh.query.physical.inflight".
Definition MetricCopyBatchRows : string := "pgmesh.copy.batch.rows".
Definition MetricCopyBatchSubmissions : string := "pgmesh.copy.batch.submissions".
Definition MetricCopyBatchFlushes : string := "pgmesh.copy.batch.flushes".
Definition MetricCopyBatchDuration : string := "pgmesh.copy.batch.duration".
Definition MetricCopyBatchQueueDuration : string := "pgmesh.copy.batch.queue.duration".

Definition AttributeStoreName : string := "pgmesh.store.name".
Definition AttributeQueryName : string := "pgmesh.query.name".
Definition AttributeQueryKind : string := "pgmesh.query.kind".
Definition AttributeReplicaSetName : string := "pgmesh.replica_set.name".
Definition AttributeVirtualShardIndex : string := "pgmesh.virtual_shard.index".
Definition AttributeNodeName : string := "pgmesh.node.name".
Definition AttributeNodeRole : string := "pgmesh.node.role".
Definition AttributeRouteMode : string := "pgmesh.route.mode".
Definition AttributeRouteScope : string := "pgmesh.route.scope".
Definition AttributeRouteReplicaSetCount : string := "pgmesh.route.replica_set_count".
Definition AttributeStoreDelegated : string := "pgmesh.store.delegated".
Definition AttributeCopyBatchFlushReason : string := "pgmesh.copy.batch.flush_reason".

Inductive QueryKind := QueryKindRead | QueryKindWrite.
Definition QueryKind_string (k : QueryKind) : string :=
  match k with QueryKindRead => "read" | QueryKindWrite => "write" end.

Inductive RouteMode :=
  RouteModeRead | RouteModePrimary | RouteModeTransaction | RouteModeUnresolved.
Definition RouteMode_string (m : RouteMode) : string :=
  match m with
  | RouteModeRead => "read"
  | RouteModePrimary => "primary"
  | RouteModeTransaction => "transaction"
  | RouteModeUnresolved => "unresolved"
  end.

Inductive RouteScope := RouteScopeSingle | RouteScopeFanout | RouteScopeUnresolved.
Definition RouteScope_string (s : RouteScope) : string :=
  match s with
  | RouteScopeSingle => "single"
  | RouteScopeFanout => "fanout"
  | RouteScopeUnresolved => "unresolved"
  end.

#[export] Instance QueryKind_eq_dec : EqDecision QueryKind.
Proof. solve_decision. Defined.
#[export] Instance RouteMode_eq_dec : EqDecision RouteMode.
Proof. solve_decision. Defined.

(** An attribute: a key and a string, int or bool value. *)
Inductive attrValue := VString (s : string) | VInt (z : Z) | VBool (b : bool).
Definition KeyValue : Type := string * attrValue.

(** A structured-log attribute. *)
Inductive logValue :=
  | LString (s : string) | LInt (z : Z) | LBool (b : bool)
  | LDuration (ns : Z) | LError (e : error).
Definition LogAttr : Type := string * logValue.

#[export] Instance attrValue_eq_dec : EqDecision attrValue.
Proof. solve_decision. Defined.

(** [strconv.FormatUint(v, 10)]. *)
Definition FormatUint (v : Z) : string := pretty (Z.to_N v).

(** What an instrument is created with. *)
Inductive instrumentKind := Float64Histogram | Int64Histogram | Int64Counter | Int64UpDownCounter.
Record instrumentSpec := InstrumentSpec {
  is_kind : instrumentKind;
  is_name : string;
  is_description : string;
  is_unit : string;
  is_buckets : list Q;
}.

Section Telemetry.
(** The third-party types: tracers, instruments and loggers are opaque handles. *)
Context {Tracer Instrument Logger : Type}.

Record TracerProvider := { tp_Tracer : string -> Tracer }.
(** Creating an instrument gives it or an error. *)
Record MeterProvider := { mp_instrument : string -> instrumentSpec -> error + Instrument }.

(** The process-wide providers: otel.GetTracerProvider and otel.GetMeterProvider. *)
Context (globalTracerProvider : TracerProvider) (globalMeterProvider : MeterProvider).

(** A field holding an interface is nil until it is set. *)
Record meshTelemetry := MeshTelemetry {
  tracer : option Tracer;
  storeDuration : option Instrument;
  logicalDuration : option Instrument;
  physicalDuration : option Instrument;
  physicalInFlight : option Instrument;
  copyBatchRows : option Instrument;
  copyBatchSubmissions : option Instrument;
  copyBatchFlushes : option Instrument;
  copyBatchDuration : option Instrument;
  copyBatchQueueDuration : option Instrument;
  logger : option Logger;
}.

Definition zeroTelemetry : meshTelemetry :=
  MeshTelemetry None None None None None None None None None None None.

Definition setTracerProvider (t : meshTelemetry) (provider : option TracerProvider)
    : meshTelemetry :=
  let provider := default globalTracerProvider provider in
  MeshTelemetry (Some (tp_Tracer provider instrumentationName))
    (storeDuration t) (logicalDuration t) (physicalDuration t) (physicalInFlight t)
    (copyBatchRows t) (copyBatchSubmissions t) (copyBatchFlushes t)
    (copyBatchDuration t) (copyBatchQueueDuration t) (logger t).

Definition queryBuckets : list Q :=
  [0.001; 0.005; 0.01; 0.03; 0.05; 0.075; 0.1; 0.125; 0.25; 0.5; 0.75; 1; 3; 5; 10]%Q.

(** The instruments in the order [setMeterProvider] creates them, each with the
    field it is stored in. *)
Definition instruments
    : list (instrumentSpec * (Instrument -> meshTelemetry -> meshTelemetry)) :=
  [ (InstrumentSpec Float64Histogram MetricLogicalQueryDuration
       "Duration of logical pgmesh generated-query calls" "s" queryBuckets,
     fun i t => MeshTelemetry (tracer t) (storeDuration t) (Some i) (physicalDuration t)
       (physicalInFlight t) (copyBatchRows t) (copyBatchSubmissions t) (copyBatchFlushes t)
       (copyBatchDuration t) (copyBatchQueueDuration t) (logger t));
    (InstrumentSpec Float64Histogram MetricPhysicalQueryDuration
       "Duration of physical pgmesh database queries" "s" queryBuckets,
     fun i t => MeshTelemetry (tracer t) (storeDuration t) (logicalDuration t) (Some i)
       (physicalInFlight t) (copyBatchRows t) (copyBatchSubmissions t) (copyBatchFlushes t)
       (copyBatchDuration t) (copyBatchQueueDuration t) (logger t));
    (InstrumentSpec Int64UpDownCounter MetricPhysicalQueryInFlight
       "Physical pgmesh database queries currently in flight" "{query}" [],
     fun i t => MeshTelemetry (tracer t) (storeDuration t) (logicalDuration t)
       (physicalDuration t) (Some i) (copyBatchRows t) (copyBatchSubmissions t)
       (copyBatchFlushes t) (copyBatchDuration t) (copyBatchQueueDuration t) (logger t));
    (InstrumentSpec Float64Histogram MetricStoreQueryDuration
       "Duration of application-wrapped pgmesh query methods" "s" queryBuckets,
     fun i t => MeshTelemetry (tracer t) (Some i) (logicalDuration t) (physicalDuration t)
       (physicalInFlight t) (copyBatchRows t) (copyBatchSubmissions t) (copyBatchFlushes t)
       (copyBatchDuration t) (copyBatchQueueDuration t) (logger t));
    (InstrumentSpec Int64Histogram MetricCopyBatchRows
       "Attempted rows per physical pgmesh COPY operation" "{row}"
       [1; 2; 4; 5; 8; 12; 16; 20; 24; 28; 32; 36; 64; 128; 256; 512]%Q,
     fun i t => MeshTelemetry (tracer t) (storeDuration t) (logicalDuration t)
       (physicalDuration t) (physicalInFlight t) (Some i) (copyBatchSubmissions t)
       (copyBatchFlushes t) (copyBatchDuration t) (copyBatchQueueDuration t) (logger t));
    (InstrumentSpec Int64Histogram MetricCopyBatchSubmissions
       "Logical submission fragments per physical pgmesh COPY operation" "{submission}"
       [1; 2; 4; 8; 12; 16; 20; 24; 28; 32; 48; 64; 128; 256]%Q,
     fun i t => MeshTelemetry (tracer t) (storeDuration t) (logicalDuration t)
       (physicalDuration t) (physicalInFlight t) (copyBatchRows t) (Some i)
       (copyBatchFlushes t) (copyBatchDuration t) (copyBatchQueueDuration t) (logger t));
    (InstrumentSpec Int64Counter MetricCopyBatchFlushes
       "Physical pgmesh COPY operations by flush reason" "{batch}" [],
     fun i t => MeshTelemetry (tracer t) (storeDuration t) (logicalDuration t)
       (physicalDuration t) (physicalInFlight t) (copyBatchRows t) (copyBatchSubmissions t)
       (Some i) (copyBatchDuration t) (copyBatchQueueDuration t) (logger t));
    (InstrumentSpec Float64Histogram MetricCopyBatchDuration
       "Duration of physical pgmesh COPY operations" "s"
       [0.001; 0.005; 0.01; 0.02; 0.03; 0.05; 0.075; 0.1; 0.2; 0.3; 0.4; 0.5; 1; 5; 10]%Q,
     fun i t => MeshTelemetry (tracer t) (storeDuration t) (logicalDuration t)
       (physicalDuration t) (physicalInFlight t) (copyBatchRows t) (copyBatchSubmissions t)
       (copyBatchFlushes t) (Some i) (copyBatchQueueDuration t) (logger t));
    (InstrumentSpec Float64Histogram MetricCopyBatchQueueDuration
       "Time from oldest row admission until physical pgmesh COPY execution" "s"
       [0.0001; 0.0005; 0.001; 0.003; 0.004; 0.005; 0.01; 0.03; 0.05; 0.075; 0.1; 0.5; 1; 5]%Q,
     fun i t => MeshTelemetry (tracer t) (storeDuration t) (logicalDuration t)
       (physicalDuration t) (physicalInFlight t) (copyBatchRows t) (copyBatchSubmissions t)
       (copyBatchFlushes t) (copyBatchDuration t) (Some i) (logger t)) ].

(** Create and store instruments until one fails: the fields set before the
    failure keep their new instruments. *)
Fixpoint setInstruments (provider : MeterProvider)
    (l : list (instrumentSpec * (Instrument -> meshTelemetry -> meshTelemetry)))
    (t : meshTelemetry) : meshTelemetry * option error :=
  match l with
  | [] => (t, None)
  | (spec, store) :: l =>
      match mp_instrument provider instrumentationName spec with
      | inr i => setInstruments provider l (store i t)
      | inl e => (t, Some e)
      end
  end.

Definition setMeterProvider (t : meshTelemetry) (provider : option MeterProvider)
    : meshTelemetry * option error :=
  setInstruments (default globalMeterProvider provider) instruments t.

Definition newMeshTelemetry (tracerProvider : option TracerProvider)
    (meterProvider : option MeterProvider) : meshTelemetry * option error :=
  let t := setTracerProvider zeroTelemetry tracerProvider in
  match setMeterProvider t meterProvider with
  | (_, Some e) => (zeroTelemetry, Some e)
  | (t, None) => (t, None)
  end.

End Telemetry.

Arguments TracerProvider Tracer : clear implicits.
Arguments MeterProvider Instrument : clear implicits.
Arguments meshTelemetry Tracer Instrument Logger : clear implicits.

(** ** Spans *)

Section Spans.
Context {Tracer Instrument Logger : Type}.
(** semconv.ErrorType and the logger's level check are third-party functions. *)
Context (ErrorType : error -> KeyValue) (DebugEnabled : Logger -> bool).

(** What the runtime calls on the telemetry APIs. A span is named by the
    number its tracer gave it; durations are recorded in nanoseconds. *)
Inductive apiCall :=
  | TracerStart (t : Tracer) (span : nat) (name : string) (attrs : list KeyValue)
  | SpanSetAttributes (span : nat) (attrs : list KeyValue)
  | SpanRecordError (span : nat) (e : error)
  | SpanSetStatusError (span : nat) (e : error)
  | SpanEnd (span : nat)
  | RecordDuration (i : Instrument) (ns : Z) (attrs : list KeyValue)
  | RecordInt (i : Instrument) (z : Z) (attrs : list KeyValue)
  | CounterAdd (i : Instrument) (z : Z) (attrs : list KeyValue)
  | LogDebug (l : Logger) (message : string) (attrs : list LogAttr).

Record internalExecutionState := { owner : loc; executed : bool }.

(** The parts of a context the runtime reads: its error, the innermost store
    execution in its values, the active span. *)
Record Context := MkContext {
  ctx_err : option error;
  ctx_execution : option loc;
  ctx_span : option nat;
}.

Record tstate := TState {
  calls : list apiCall;
  spanCount : nat;
  executions : gmap loc internalExecutionState;
  nextExecution : loc;
}.

#[local] Abbreviation telM := (stE tstate error).

Definition emit (c : apiCall) : telM unit := fun st =>
  (Ok tt, TState (calls st ++ [c]) (spanCount st) (executions st) (nextExecution st)).

(** [tracer.Start]: a nil tracer panics; the new context carries the span. *)
Definition startSpan (t : option Tracer) (ctx : Context) (name : string)
    (attrs : list KeyValue) : telM (Context * nat) := fun st =>
  match t with
  | None => (Panic, st)
  | Some t =>
      (Ok (MkContext (ctx_err ctx) (ctx_execution ctx) (Some (spanCount st)), spanCount st),
       TState (calls st ++ [TracerStart t (spanCount st) name attrs]) (S (spanCount st))
         (executions st) (nextExecution st))
  end.

(** A method call on an instrument: a nil one panics. *)
Definition onInstrument (i : option Instrument) (c : Instrument -> apiCall) : telM unit :=
  i ← lift (panic_if_none i); emit (c i).

Definition allocExecution (e : internalExecutionState) : telM loc := fun st =>
  (Ok (nextExecution st), TState (calls st) (spanCount st)
     (<[nextExecution st := e]> (executions st)) (Pos.succ (nextExecution st))).

(** [execution.executed.Store(true)] on the execution the context carries, when
    its owner is this mesh. *)
Definition markExecuted (m : loc) (ctx : Context) : telM unit := fun st =>
  match ctx_execution ctx with
  | None => (Ok tt, st)
  | Some l =>
      match executions st !! l with
      | None => (Ok tt, st)
      | Some e =>
          if bool_decide (owner e = m)
          then (Ok tt, TState (calls st) (spanCount st)
                  (<[l := {| owner := owner e; executed := true |}]> (executions st))
                  (nextExecution st))
          else (Ok tt, st)
      end
  end.

Definition loadExecuted (l : loc) : telM bool := fun st =>
  (match executions st !! l with Some e => Ok (executed e) | None => Panic end, st).

Record LogicalQuerySpan := {
  ls_span : nat;
  ls_tracer : option Tracer;
  ls_logicalDuration : option Instrument;
  ls_physicalDuration : option Instrument;
  ls_physicalInFlight : option Instrument;
  ls_started : Z;
  ls_attributes : list KeyValue;
  ls_storeName : string;
  ls_queryName : string;
  ls_kind : QueryKind;
  ls_routeMode : RouteMode;
  ls_routeScope : RouteScope;
  ls_replicaSetCount : Z;
  ls_logger : option Logger;
  ls_logAttributes : list LogAttr;
}.

Record PhysicalQuerySpan := {
  ps_span : nat;
  ps_physicalDuration : option Instrument;
  ps_physicalInFlight : option Instrument;
  ps_started : Z;
  ps_metricAttributes : list KeyValue;
  ps_logger : option Logger;
  ps_logAttributes : list LogAttr;
}.

Record StoreQuerySpan := {
  ss_span : nat;
  ss_storeDuration : option Instrument;
  ss_started : Z;
  ss_attributes : list KeyValue;
  ss_logger : option Logger;
  ss_logAttributes : list LogAttr;
  ss_execution : loc;
}.

Definition logEnabled (l : option Logger) : option Logger :=
  match l with Some l => if DebugEnabled l then Some l else None | None => None end.

(** The error part of the three [End] methods: record the error on the span and
    return the attribute to add to the metric. *)
Definition recordSpanError (span : nat) (err : option error) : telM (list KeyValue) :=
  match err with
  | None => mret []
  | Some e =>
      emit (SpanRecordError span e) ≫= fun _ =>
      emit (SpanSetAttributes span [ErrorType e]) ≫= fun _ =>
      emit (SpanSetStatusError span e) ≫= fun _ =>
      mret [ErrorType e]
  end.

Definition isSome {A} (o : option A) : bool := match o with Some _ => true | None => false end.

Definition logError (err : option error) : list LogAttr :=
  match err with Some e => [("error", LError e)] | None => [] end.

Definition StartStoreQuerySpan (m : loc) (telemetry : meshTelemetry Tracer Instrument Logger)
    (ctx : Context) (storeName queryName : string) (kind : QueryKind) (now : Z)
    : telM (Context * StoreQuerySpan) :=
  let attributes := [ (AttributeStoreName, VString storeName);
                      (AttributeQueryName, VString queryName);
                      (AttributeQueryKind, VString (QueryKind_string kind)) ] in
  '(ctx, span) ← startSpan (tracer telemetry) ctx
      ("pgmesh.query.store." +:+ storeName +:+ "." +:+ queryName) attributes;
  execution ← allocExecution {| owner := m; executed := false |};
  mret (MkContext (ctx_err ctx) (Some execution) (ctx_span ctx),
    {| ss_span := span;
       ss_storeDuration := storeDuration telemetry;
       ss_started := now;
       ss_attributes := attributes;
       ss_logger := logger telemetry;
       ss_logAttributes := [ ("store_name", LString storeName);
                             ("query_name", LString queryName);
                             ("query_kind", LString (QueryKind_string kind)) ];
       ss_execution := execution |}).

Definition StartLogicalQuerySpan (m : loc) (telemetry : meshTelemetry Tracer Instrument Logger)
    (ctx : Context) (storeName queryName : string) (kind : QueryKind) (now : Z)
    : telM (Context * LogicalQuerySpan) :=
  markExecuted m ctx ≫= fun _ =>
  let attributes := [ (AttributeStoreName, VString storeName);
                      (AttributeQueryName, VString queryName);
                      (AttributeQueryKind, VString (QueryKind_string kind));
                      (AttributeRouteMode, VString (RouteMode_string RouteModeUnresolved));
                      (AttributeRouteScope, VString (RouteScope_string RouteScopeUnresolved)) ] in
  '(ctx, span) ← startSpan (tracer telemetry) ctx
      ("pgmesh.query.logical." +:+ storeName +:+ "." +:+ queryName) attributes;
  mret (ctx,
    {| ls_span := span;
       ls_tracer := tracer telemetry;
       ls_logicalDuration := logicalDuration telemetry;
       ls_physicalDuration := physicalDuration telemetry;
       ls_physicalInFlight := physicalInFlight telemetry;
       ls_started := now;
       ls_attributes := take 3 attributes;
       ls_storeName := storeName;
       ls_queryName := queryName;
       ls_kind := kind;
       ls_routeMode := RouteModeUnresolved;
       ls_routeScope := RouteScopeUnresolved;
       ls_replicaSetCount := 0;
       ls_logger := logger telemetry;
       ls_logAttributes := [ ("store_name", LString storeName);
                             ("query_name", LString queryName);
                             ("query_kind", LString (QueryKind_string kind)) ] |}).

(** [SetRoute] mutates the span: it returns the updated one. *)
Definition SetRoute (s : LogicalQuerySpan) (mode : RouteMode) (replicaSetCount : Z)
    : telM LogicalQuerySpan :=
  let scope := if 1 <? replicaSetCount then RouteScopeFanout else RouteScopeSingle in
  emit (SpanSetAttributes (ls_span s)
    [ (AttributeRouteMode, VString (RouteMode_string mode));
      (AttributeRouteScope, VString (RouteScope_string scope));
      (AttributeRouteReplicaSetCount, VInt replicaSetCount) ]) ≫= fun _ =>
  mret {| ls_span := ls_span s;
          ls_tracer := ls_tracer s;
          ls_logicalDuration := ls_logicalDuration s;
          ls_physicalDuration := ls_physicalDuration s;
          ls_physicalInFlight := ls_physicalInFlight s;
          ls_started := ls_started s;
          ls_attributes := ls_attributes s;
          ls_storeName := ls_storeName s;
          ls_queryName := ls_queryName s;
          ls_kind := ls_kind s;
          ls_routeMode := mode;
          ls_routeScope := scope;
          ls_replicaSetCount := replicaSetCount;
          ls_logger := ls_logger s;
          ls_logAttributes := ls_logAttributes s |}.

(** The node name and role a physical span reports: an explicit transaction's
    node is not observable. *)
Definition reportedNode (route : RouteMetadata) (mode : RouteMode) : string * NodeRole :=
  if bool_decide (mode = RouteModeTransaction) then ("transaction", NodeRoleTransaction)
  else (NodeName route, RouteNodeRole route).

Definition startPhysicalQuerySpan (ctx : Context) (tracer : option Tracer)
    (physicalDuration physicalInFlight : option Instrument) (logger : option Logger)
    (storeName queryName : string) (kind : QueryKind) (route : RouteMetadata)
    (mode : RouteMode) (now : Z) : telM (Context * PhysicalQuerySpan) :=
  let '(node, role) := reportedNode route mode in
  let metricAttributes :=
    [ (AttributeStoreName, VString storeName);
      (AttributeQueryName, VString queryName);
      (AttributeQueryKind, VString (QueryKind_string kind));
      (AttributeReplicaSetName, VString (ReplicaSetName route));
      (AttributeNodeName, VString node);
      (AttributeNodeRole, VString (NodeRole_string role));
      (AttributeRouteMode, VString (RouteMode_string mode)) ] ++
    (if HasVirtualShard route
     then [(AttributeVirtualShardIndex, VString (FormatUint (VirtualShardIndex route)))]
     else []) in
  let logAttributes :=
    [ ("store_name", LString storeName);
      ("query_name", LString queryName);
      ("query_kind", LString (QueryKind_string kind));
      ("replica_set", LString (ReplicaSetName route));
      ("node", LString node);
      ("node_role", LString (NodeRole_string role));
      ("route_mode", LString (RouteMode_string mode)) ] ++
    (if HasVirtualShard route
     then [("virtual_shard", LString (FormatUint (VirtualShardIndex route)))]
     else []) in
  '(ctx, span) ← startSpan tracer ctx
      ("pgmesh.query.physical." +:+ storeName +:+ "." +:+ queryName) metricAttributes;
  onInstrument physicalInFlight (fun i => CounterAdd i 1 metricAttributes) ≫= fun _ =>
  mret (ctx,
    {| ps_span := span;
       ps_physicalDuration := physicalDuration;
       ps_physicalInFlight := physicalInFlight;
       ps_started := now;
       ps_metricAttributes := metricAttributes;
       ps_logger := logger;
       ps_logAttributes := logAttributes |}).

Definition LogicalQuerySpan_StartPhysicalQuerySpan (s : LogicalQuerySpan) (ctx : Context)
    (route : RouteMetadata) (mode : RouteMode) (now : Z) : telM (Context * PhysicalQuerySpan) :=
  startPhysicalQuerySpan ctx (ls_tracer s) (ls_physicalDuration s) (ls_physicalInFlight s)
    (ls_logger s) (ls_storeName s) (ls_queryName s) (ls_kind s) route mode now.

Definition Mesh_StartPhysicalQuerySpan (telemetry : meshTelemetry Tracer Instrument Logger)
    (ctx : Context) (storeName queryName : string) (kind : QueryKind) (route : RouteMetadata)
    (mode : RouteMode) (now : Z) : telM (Context * PhysicalQuerySpan) :=
  startPhysicalQuerySpan ctx (tracer telemetry) (physicalDuration telemetry)
    (physicalInFlight telemetry) (logger telemetry) storeName queryName kind route mode now.

Definition LogicalQuerySpan_End (s : LogicalQuerySpan) (err : option error) (now : Z)
    : telM unit :=
  let duration := now - ls_started s in
  extra ← recordSpanError (ls_span s) err;
  onInstrument (ls_logicalDuration s) (fun i => RecordDuration i duration
    (ls_attributes s ++
     [ (AttributeRouteMode, VString (RouteMode_string (ls_routeMode s)));
       (AttributeRouteScope, VString (RouteScope_string (ls_routeScope s))) ] ++ extra))
    ≫= fun _ =>
  (match logEnabled (ls_logger s) with
   | Some l => emit (LogDebug l "pgmesh logical query completed"
       (ls_logAttributes s ++
        [ ("route_mode", LString (RouteMode_string (ls_routeMode s)));
          ("route_scope", LString (RouteScope_string (ls_routeScope s)));
          ("replica_set_count", LInt (ls_replicaSetCount s));
          ("failed", LBool (isSome err));
          ("duration", LDuration duration) ] ++ logError err))
   | None => mret tt
   end) ≫= fun _ =>
  emit (SpanEnd (ls_span s)).

Definition PhysicalQuerySpan_End (s : PhysicalQuerySpan) (err : option error) (now : Z)
    : telM unit :=
  let duration := now - ps_started s in
  onInstrument (ps_physicalInFlight s) (fun i => CounterAdd i (-1) (ps_metricAttributes s))
    ≫= fun _ =>
  extra ← recordSpanError (ps_span s) err;
  onInstrument (ps_physicalDuration s) (fun i => RecordDuration i duration
    (ps_metricAttributes s ++ extra)) ≫= fun _ =>
  (match logEnabled (ps_logger s) with
   | Some l => emit (LogDebug l "pgmesh physical query completed"
       (ps_logAttributes s ++
        [ ("failed", LBool (isSome err)); ("duration", LDuration duration) ] ++ logError err))
   | None => mret tt
   end) ≫= fun _ =>
  emit (SpanEnd (ps_span s)).

Definition StoreQuerySpan_End (s : StoreQuerySpan) (err : option error) (now : Z)
    : telM unit :=
  let duration := now - ss_started s in
  delegated ← loadExecuted (ss_execution s);
  emit (SpanSetAttributes (ss_span s) [(AttributeStoreDelegated, VBool delegated)]) ≫= fun _ =>
  extra ← recordSpanError (ss_span s) err;
  onInstrument (ss_storeDuration s) (fun i => RecordDuration i duration
    (ss_attributes s ++ [(AttributeStoreDelegated, VBool delegated)] ++ extra)) ≫= fun _ =>
  (match logEnabled (ss_logger s) with
   | Some l => emit (LogDebug l "pgmesh store query completed"
       (ss_logAttributes s ++
        [ ("store_delegated", LBool delegated); ("failed", LBool (isSome err));
          ("duration", LDuration duration) ] ++ logError err))
   | None => mret tt
   end) ≫= fun _ =>
  emit (SpanEnd (ss_span s)).

(** *** COPY batch observations (copy_batch_observer.go) *)

Inductive CopyBatchFlushReason :=
  | CopyBatchFlushReasonNone
  | CopyBatchFlushReasonFull
  | CopyBatchFlushReasonLinger
  | CopyBatchFlushReasonManual
  | CopyBatchFlushReasonUnbatched.

(** The string constants; a batch that is still open has the empty reason. *)
Definition CopyBatchFlushReason_string (r : CopyBatchFlushReason) : string :=
  match r with
  | CopyBatchFlushReasonNone => ""
  | CopyBatchFlushReasonFull => "full"
  | CopyBatchFlushReasonLinger => "linger"
  | CopyBatchFlushReasonManual => "manual"
  | CopyBatchFlushReasonUnbatched => "unbatched"
  end.

Record CopyBatchObservation := {
  RowCount : Z;
  SubmissionCount : Z;
  Reason : CopyBatchFlushReason;
  QueueDuration : Z;
  ExecutionDuration : Z;
  ObservationErr : option error;
}.

(** [NewCopyBatchObserver] fixes the base attributes; the observer it returns
    records one point on each of the five COPY instruments. *)
Definition NewCopyBatchObserver (telemetry : meshTelemetry Tracer Instrument Logger)
    (storeName queryName : string) (route : RouteMetadata)
    : CopyBatchObservation -> telM unit :=
  let baseAttributes :=
    [ (AttributeStoreName, VString storeName);
      (AttributeQueryName, VString queryName);
      (AttributeQueryKind, VString (QueryKind_string QueryKindWrite));
      (AttributeReplicaSetName, VString (ReplicaSetName route));
      (AttributeNodeName, VString (NodeName route));
      (AttributeNodeRole, VString (NodeRole_string (RouteNodeRole route)));
      (AttributeRouteMode, VString (RouteMode_string RouteModePrimary)) ] ++
    (if HasVirtualShard route
     then [(AttributeVirtualShardIndex, VString (FormatUint (VirtualShardIndex route)))]
     else []) in
  fun observation =>
    let attributes := baseAttributes ++
      [(AttributeCopyBatchFlushReason,
        VString (CopyBatchFlushReason_string (Reason observation)))] ++
      match ObservationErr observation with Some e => [ErrorType e] | None => [] end in
    onInstrument (copyBatchRows telemetry)
      (fun i => RecordInt i (RowCount observation) attributes) ≫= fun _ =>
    onInstrument (copyBatchSubmissions telemetry)
      (fun i => RecordInt i (SubmissionCount observation) attributes) ≫= fun _ =>
    onInstrument (copyBatchFlushes telemetry) (fun i => CounterAdd i 1 attributes) ≫= fun _ =>
    onInstrument (copyBatchDuration telemetry)
      (fun i => RecordDuration i (ExecutionDuration observation) attributes) ≫= fun _ =>
    onInstrument (copyBatchQueueDuration telemetry)
      (fun i => RecordDuration i (QueueDuration observation) attributes).

End Spans.

#[export] Instance CopyBatchFlushReason_eq_dec : EqDecision CopyBatchFlushReason.
Proof. solve_decision. Defined.

Arguments apiCall Tracer Instrument Logger : clear implicits.
Arguments tstate Tracer Instrument Logger : clear implicits.
Arguments LogicalQuerySpan Tracer Instrument Logger : clear implicits.
Arguments PhysicalQuerySpan Instrument Logger : clear implicits.
Arguments StoreQuerySpan Instrument Logger : clear implicits.

(** ** Lemmas and properties *)

Section Proofs.
Context {Tracer Instrument Logger : Type} `{!EqDecision Instrument}.
Context (ErrorType : error -> KeyValue) (DebugEnabled : Logger -> bool).
Implicit Types (st : tstate Tracer Instrument Logger).
Implicit Types (c : apiCall Tracer Instrument Logger) (i : Instrument) (attrs : list KeyValue).

(** The value of an up-down counter for one attribute set after a trace. *)
Definition counterDelta i attrs c : Z :=
  match c with
  | CounterAdd i' z attrs' => if bool_decide (i' = i /\ attrs' = attrs) then z else 0
  | _ => 0
  end.
Definition counterValue i attrs (cs : list (apiCall Tracer Instrument Logger)) : Z :=
  foldr (fun c z => counterDelta i attrs c + z) 0 cs.

Lemma counterValue_app i attrs cs1 cs2 :
  counterValue i attrs (cs1 ++ cs2) = counterValue i attrs cs1 + counterValue i attrs cs2.
Proof. induction cs1 as [|c cs1 IH]; [done|]. simpl. rewrite IH. lia. Qed.

(** How many of the open spans count on instrument [i] with attributes [attrs]. *)
Definition countsOn i attrs (s : PhysicalQuerySpan Instrument Logger) : Z :=
  if bool_decide (ps_physicalInFlight s = Some i /\ ps_metricAttributes s = attrs) then 1 else 0.
Definition openOn i attrs (l : list (PhysicalQuerySpan Instrument Logger)) : Z :=
  foldr (fun s z => countsOn i attrs s + z) 0 l.

Lemma openOn_app i attrs l1 l2 : openOn i attrs (l1 ++ l2) = openOn i attrs l1 + openOn i attrs l2.
Proof. induction l1 as [|s l1 IH]; [done|]. simpl. rewrite IH. lia. Qed.

(** A computation that only appends calls that do not move the counter. *)
Definition neutral {A} (m : stE (tstate Tracer Instrument Logger) error A) : Prop :=
  forall st o st', m st = (o, st') ->
    forall i attrs, counterValue i attrs (calls st') = counterValue i attrs (calls st).

Lemma neutral_ret {A} (a : A) : neutral (mret a).
Proof. by intros st o st' [= <- <-]. Qed.

Lemma neutral_bind {A B} (m : stE _ error A) (f : A -> stE _ error B) :
  neutral m -> (forall a, neutral (f a)) -> neutral (m ≫= f).
Proof.
  intros Hm Hf st o st' H i attrs. unfold mbind, stE_bind in H.
  destruct (m st) as [[a|e|] st1] eqn:E; simplify_eq/=.
  - rewrite (Hf a _ _ _ H), (Hm _ _ _ E). done.
  - by rewrite (Hm _ _ _ E).
  - by rewrite (Hm _ _ _ E).
Qed.

Lemma neutral_emit c : (forall i attrs, counterDelta i attrs c = 0) -> neutral (emit c).
Proof.
  intros Hc st o st' [= <- <-] i attrs. simpl. rewrite counterValue_app. simpl.
  rewrite Hc. lia.
Qed.

Lemma neutral_onInstrument (o : option Instrument) f :
  (forall i j attrs, counterDelta j attrs (f i) = 0) -> neutral (onInstrument o f).
Proof.
  intros Hf. apply neutral_bind; [|intros i; apply neutral_emit, Hf].
  by intros st o' st' [= <- <-].
Qed.

Lemma neutral_recordSpanError span err : neutral (recordSpanError ErrorType span err).
Proof.
  destruct err; simpl; [|apply neutral_ret].
  repeat (apply neutral_bind; [by apply neutral_emit|intros _]). apply neutral_ret.
Qed.

Lemma neutral_log {A} (o : option A) (f : A -> apiCall Tracer Instrument Logger) :
  (forall a i attrs, counterDelta i attrs (f a) = 0) ->
  neutral (match o with Some a => emit (f a) | None => mret tt end).
Proof. intros Hf. destruct o; [by apply neutral_emit|apply neutral_ret]. Qed.

Create HintDb neutral discriminated.
Hint Resolve neutral_ret neutral_bind neutral_emit neutral_onInstrument
  neutral_recordSpanError neutral_log : neutral.

(** Starting a physical span adds one on its own attributes and nothing else. *)
Lemma startPhysicalQuerySpan_counter ctx tr pd pf lg sn qn k route mode now st ctx' s st' :
  startPhysicalQuerySpan ctx tr pd pf lg sn qn k route mode now st = (Ok (ctx', s), st') ->
  forall i attrs, counterValue i attrs (calls st') =
    counterValue i attrs (calls st) + countsOn i attrs s.
Proof.
  unfold startPhysicalQuerySpan. destruct (reportedNode route mode) as [node role].
  cbv zeta. intros H i attrs.
  apply stE_bind_inv in H as ([ctx1 span] & st1 & H1 & H).
  unfold startSpan in H1. destruct tr as [tr|]; [|done]. injection H1 as <- <- <-.
  apply stE_bind_inv in H as ([] & st2 & H2 & H). injection H as <- <- <-.
  unfold onInstrument in H2. apply stE_bind_inv in H2 as (j & st3 & H3 & H2).
  destruct pf as [pf|]; [|done]. injection H3 as <- <-. injection H2 as <-.
  simpl. rewrite !counterValue_app. cbn [counterValue foldr counterDelta].
  unfold countsOn. cbn [ps_physicalInFlight ps_metricAttributes].
  do 2 case_bool_decide; naive_solver lia.
Qed.

(** Ending it subtracts one on the same attributes and nothing else. *)
Lemma PhysicalQuerySpan_End_counter s err now st st' :
  PhysicalQuerySpan_End ErrorType DebugEnabled s err now st = (Ok tt, st') ->
  forall i attrs, counterValue i attrs (calls st') =
    counterValue i attrs (calls st) - countsOn i attrs s.
Proof.
  unfold PhysicalQuerySpan_End. cbv zeta. intros H i attrs.
  apply stE_bind_inv in H as ([] & st1 & H1 & H).
  match type of H with ?m st1 = _ => assert (Hn : neutral m) by eauto 10 with neutral end.
  rewrite (Hn _ _ _ H). clear H Hn.
  unfold onInstrument in H1. apply stE_bind_inv in H1 as (j & st3 & H3 & H1).
  unfold countsOn. destruct (ps_physicalInFlight s) as [pf|]; [|done].
  injection H3 as <- <-. injection H1 as <-.
  simpl. rewrite !counterValue_app. cbn [counterValue foldr counterDelta].
  do 2 case_bool_decide; naive_solver lia.
Qed.

Lemma LogicalQuerySpan_End_neutral s err now :
  neutral (LogicalQuerySpan_End ErrorType DebugEnabled s err now).
Proof. unfold LogicalQuerySpan_End. eauto 12 with neutral. Qed.

(** Runs of the runtime's telemetry: physical spans start and end, in any
    order, between logical spans that end. *)
Inductive spanStep : tstate Tracer Instrument Logger * list (PhysicalQuerySpan Instrument Logger) ->
    tstate Tracer Instrument Logger * list (PhysicalQuerySpan Instrument Logger) -> Prop :=
  | step_start st st' open ctx ctx' tr pd pf lg sn qn k route mode now s :
      startPhysicalQuerySpan ctx tr pd pf lg sn qn k route mode now st = (Ok (ctx', s), st') ->
      spanStep (st, open) (st', s :: open)
  | step_end st st' l1 l2 s err now :
      PhysicalQuerySpan_End ErrorType DebugEnabled s err now st = (Ok tt, st') ->
      spanStep (st, l1 ++ s :: l2) (st', l1 ++ l2)
  | step_logical_end st st' open s err now :
      LogicalQuerySpan_End ErrorType DebugEnabled s err now st = (Ok tt, st') ->
      spanStep (st, open) (st', open).

Lemma spanStep_counter x y :
  spanStep x y -> forall i attrs,
  counterValue i attrs (calls y.1) - openOn i attrs y.2 =
  counterValue i attrs (calls x.1) - openOn i attrs x.2.
Proof.
  intros Hstep i attrs. destruct Hstep; simpl.
  - erewrite startPhysicalQuerySpan_counter by done. lia.
  - erewrite PhysicalQuerySpan_End_counter by done. rewrite !openOn_app. simpl. lia.
  - erewrite LogicalQuerySpan_End_neutral by done. lia.
Qed.

(** C39: the in-flight counter is exact. At every point of every run, for
    every instrument and attribute set, the up-down counter has moved by the
    number of physical spans that are open with those attributes; when every
    started span has ended it is back where it was. *)
Theorem inflight_counter_exact st st' open :
  rtc spanStep (st, []) (st', open) -> forall i attrs,
  counterValue i attrs (calls st') = counterValue i attrs (calls st) + openOn i attrs open.
Proof.
  intros Hrun i attrs.
  assert (H : forall x y, rtc spanStep x y ->
    counterValue i attrs (calls y.1) - openOn i attrs y.2 =
    counterValue i attrs (calls x.1) - openOn i attrs x.2).
  { induction 1 as [|x y z Hxy _ IH]; [done|].
    rewrite IH. by apply spanStep_counter. }
  specialize (H _ _ Hrun). simpl in H. lia.
Qed.

(** *** Delegation *)

Context (telemetry : meshTelemetry Tracer Instrument Logger).

(** What may run between the start and the end of a store span: further store
    spans and logical spans, of this mesh or another, on any context. *)
Inductive nested :=
  | NestedStore (m : loc) (ctx : Context) (sn qn : string) (k : QueryKind) (now : Z)
  | NestedLogical (m : loc) (ctx : Context) (sn qn : string) (k : QueryKind) (now : Z).

Definition runNested (e : nested) : stE (tstate Tracer Instrument Logger) error unit :=
  match e with
  | NestedStore m ctx sn qn k now =>
      StartStoreQuerySpan m telemetry ctx sn qn k now ≫= fun _ => mret tt
  | NestedLogical m ctx sn qn k now =>
      StartLogicalQuerySpan m telemetry ctx sn qn k now ≫= fun _ => mret tt
  end.

Fixpoint runAll (l : list nested) : stE (tstate Tracer Instrument Logger) error unit :=
  match l with
  | [] => mret tt
  | e :: l => runNested e ≫= fun _ => runAll l
  end.

(** The logical spans of mesh [m] whose context carries execution [l]. *)
Definition delegates (m l : loc) (e : nested) : bool :=
  match e with
  | NestedLogical m' ctx _ _ _ _ => bool_decide (m' = m /\ ctx_execution ctx = Some l)
  | NestedStore _ _ _ _ _ _ => false
  end.

Lemma runNested_execution e m l d st st' :
  executions st !! l = Some {| owner := m; executed := d |} ->
  (l < nextExecution st)%positive ->
  runNested e st = (Ok tt, st') ->
  executions st' !! l = Some {| owner := m; executed := d || delegates m l e |} /\
  (l < nextExecution st')%positive.
Proof.
  intros Hl Hlt. destruct e as [m' ctx sn qn k now|m' ctx sn qn k now]; simpl; intros H.
  - apply stE_bind_inv in H as (r & st1 & H1 & [= <-]).
    unfold StartStoreQuerySpan in H1. cbv zeta in H1.
    apply stE_bind_inv in H1 as ([ctx1 span] & st2 & H2 & H1).
    unfold startSpan in H2. destruct (tracer telemetry); [|done]. injection H2 as <- <- <-.
    injection H1 as _ <-. simpl. rewrite lookup_insert_ne by lia.
    rewrite orb_false_r. split; [done|lia].
  - apply stE_bind_inv in H as (r & st1 & H1 & [= <-]).
    unfold StartLogicalQuerySpan in H1.
    apply stE_bind_inv in H1 as ([] & st2 & H2 & H1). cbv zeta in H1.
    apply stE_bind_inv in H1 as ([ctx1 span] & st3 & H3 & H1).
    unfold startSpan in H3. destruct (tracer telemetry); [|done]. injection H3 as <- <- <-.
    injection H1 as _ <-. simpl. unfold markExecuted in H2.
    destruct (ctx_execution ctx) as [l'|] eqn:Hctx.
    + destruct (decide (l' = l)) as [->|Hne].
      * rewrite Hl in H2. simpl in H2. case_bool_decide as Hown; injection H2 as <-; simpl.
        -- rewrite lookup_insert_eq. rewrite bool_decide_eq_true_2 by done.
           by rewrite orb_true_r.
        -- rewrite bool_decide_eq_false_2 by naive_solver. by rewrite orb_false_r.
      * rewrite bool_decide_eq_false_2 by naive_solver. rewrite orb_false_r.
        destruct (executions st !! l'); [case_bool_decide|]; injection H2 as <-;
          simpl; [by rewrite lookup_insert_ne|done|done].
    + rewrite bool_decide_eq_false_2 by naive_solver. rewrite orb_false_r.
      by injection H2 as <-.
Qed.

Lemma runAll_execution es m l d st st' :
  executions st !! l = Some {| owner := m; executed := d |} ->
  (l < nextExecution st)%positive ->
  runAll es st = (Ok tt, st') ->
  executions st' !! l = Some {| owner := m; executed := d || existsb (delegates m l) es |}.
Proof.
  revert d st. induction es as [|e es IH]; intros d st Hl Hlt H; simpl in *.
  - injection H as <-. by rewrite orb_false_r.
  - apply stE_bind_inv in H as ([] & st1 & H1 & H).
    destruct (runNested_execution e m l d st st1 Hl Hlt H1) as [Hl1 Hlt1].
    rewrite (IH _ _ Hl1 Hlt1 H). by rewrite orb_assoc.
Qed.

(** C40: the delegation flag of a store span is exact. Whatever store and
    logical spans start in between, [End] reports delegated = true exactly when
    a logical span of the same mesh started on a context that carries the store
    span's execution: on the span first, and on the duration metric. *)
Theorem store_delegated_exact m ctx sn qn k now st ctx' s st1 es st2 err now' st3 :
  StartStoreQuerySpan m telemetry ctx sn qn k now st = (Ok (ctx', s), st1) ->
  runAll es st1 = (Ok tt, st2) ->
  StoreQuerySpan_End ErrorType DebugEnabled s err now' st2 = (Ok tt, st3) ->
  let d := existsb (delegates m (ss_execution s)) es in
  ctx_execution ctx' = Some (ss_execution s) /\
  exists rest i attrs, calls st3 = calls st2 ++
      SpanSetAttributes (ss_span s) [(AttributeStoreDelegated, VBool d)] :: rest /\
    RecordDuration i (now' - now) (ss_attributes s ++ (AttributeStoreDelegated, VBool d) :: attrs)
      ∈ rest /\ storeDuration telemetry = Some i.
Proof.
  intros H1 H2 H3 d. unfold StartStoreQuerySpan in H1. cbv zeta in H1.
  apply stE_bind_inv in H1 as ([ctx1 span] & st0 & H0 & H1).
  unfold startSpan in H0. destruct (tracer telemetry); [|done]. injection H0 as <- <- <-.
  injection H1 as <- <- <-.
  match type of H2 with runAll _ ?st1 = _ =>
    pose proof (runAll_execution es m (nextExecution st) false st1 st2) as Hex end.
  simpl in Hex. rewrite lookup_insert_eq in Hex. specialize (Hex eq_refl ltac:(lia) H2).
  split; [done|]. unfold StoreQuerySpan_End in H3. cbv zeta in H3.
  apply stE_bind_inv in H3 as (d' & st4 & Hd & H3).
  unfold loadExecuted in Hd. cbn in Hd. rewrite Hex in Hd. injection Hd as <- <-.
  apply stE_bind_inv in H3 as ([] & st5 & H5 & H3). injection H5 as <-.
  apply stE_bind_inv in H3 as (extra & st6 & H6 & H3).
  apply stE_bind_inv in H3 as ([] & st7 & H7 & H3). cbn in H7.
  unfold onInstrument in H7. apply stE_bind_inv in H7 as (j & st8 & H8 & H7). cbn in H8.
  destruct (storeDuration telemetry) as [i|]; [|done]. injection H8 as <- <-.
  injection H7 as <-.
  apply stE_bind_inv in H3 as ([] & st9 & H9 & H3). injection H3 as <-.
  assert (Hcalls6 : exists r6, calls st6 = (calls st2 ++
      [SpanSetAttributes (spanCount st) [(AttributeStoreDelegated, VBool d)]]) ++ r6).
  { destruct err; cbn in H6; injection H6 as <- <-; simpl.
    - rewrite <- !app_assoc. eexists. by rewrite <- !app_assoc.
    - exists []. by rewrite app_nil_r. }
  destruct Hcalls6 as [r6 Hcalls6].
  eexists (r6 ++ _ :: match logEnabled DebugEnabled (logger telemetry) with Some _ => [_] | None => [] end ++ [SpanEnd (spanCount st)]),
    i, extra. split_and!; [|by apply elem_of_app; right; left|done].
  cbn in H9. destruct (logEnabled DebugEnabled (logger telemetry)); injection H9 as <-; simpl;
    rewrite Hcalls6; simpl; rewrite <- !app_assoc; reflexivity.
Qed.

End Proofs.

Section Wiring.
Context {Tracer Instrument Logger : Type}.
Context (gtp : TracerProvider Tracer) (gmp : MeterProvider Instrument).
#[local] Abbreviation telemetryT := (meshTelemetry Tracer Instrument Logger).

(** Which field each metric belongs in. *)
Definition metricField : list (string * (telemetryT -> option Instrument)) :=
  [ (MetricStoreQueryDuration, storeDuration);
    (MetricLogicalQueryDuration, logicalDuration);
    (MetricPhysicalQueryDuration, physicalDuration);
    (MetricPhysicalQueryInFlight, physicalInFlight);
    (MetricCopyBatchRows, copyBatchRows);
    (MetricCopyBatchSubmissions, copyBatchSubmissions);
    (MetricCopyBatchFlushes, copyBatchFlushes);
    (MetricCopyBatchDuration, copyBatchDuration);
    (MetricCopyBatchQueueDuration, copyBatchQueueDuration) ].

(** [t] has a tracer of provider [tp] and, in every field, the instrument
    provider [mp] created under the field's metric name. *)
Definition wired (tp : TracerProvider Tracer) (mp : MeterProvider Instrument)
    (t : telemetryT) : Prop :=
  tracer t = Some (tp_Tracer tp instrumentationName) /\
  Forall (fun '(name, field) => exists spec i, is_name spec = name /\
    mp_instrument mp instrumentationName spec = inr i /\ field t = Some i) metricField.

Lemma setInstruments_inv p spec store l (t t' : telemetryT) :
  setInstruments p ((spec, store) :: l) t = (t', None) ->
  exists i, mp_instrument p instrumentationName spec = inr i /\
    setInstruments p l (store i t) = (t', None).
Proof. simpl. destruct (mp_instrument p instrumentationName spec); [done|eauto]. Qed.

Lemma setInstruments_err p l (t t' : telemetryT) e :
  setInstruments p l t = (t', Some e) ->
  exists spec, mp_instrument p instrumentationName spec = inl e.
Proof.
  revert t. induction l as [|[spec store] l IH]; intros t; simpl; [done|].
  destruct (mp_instrument p instrumentationName spec) eqn:E; [|apply IH].
  intros [= _ ->]. eauto.
Qed.

Lemma setMeterProvider_wired t p t' :
  setMeterProvider gmp t p = (t', None) ->
  tracer t' = tracer t /\
  Forall (fun '(name, field) => exists spec i, is_name spec = name /\
    mp_instrument (default gmp p) instrumentationName spec = inr i /\ field t' = Some i) metricField.
Proof.
  unfold setMeterProvider, instruments. intros H. destruct t.
  repeat (apply setInstruments_inv in H as (? & ? & H); cbv beta in H;
    cbn [tracer storeDuration logicalDuration physicalDuration physicalInFlight copyBatchRows
      copyBatchSubmissions copyBatchFlushes copyBatchDuration copyBatchQueueDuration logger] in H).
  injection H as <-. split; [done|]. unfold metricField.
  repeat (apply Forall_cons_2;
    [eexists _, _; split_and!; cycle 2; [reflexivity| |eassumption]; reflexivity|]).
  by apply Forall_nil.
Qed.

Lemma setMeterProvider_err t p t' e :
  setMeterProvider (Tracer:=Tracer) (Logger:=Logger) gmp t p = (t', Some e) ->
  exists spec, mp_instrument (default gmp p) instrumentationName spec = inl e.
Proof. unfold setMeterProvider. apply setInstruments_err. Qed.

(** A telemetry value that [newMeshTelemetry] returns without an error is
    completely wired: the tracer comes from the given provider or the global
    one, and every metric field holds the instrument created under that
    metric's name, so no field is nil or crossed; with an error the returned
    value is the zero telemetry and the error is one an instrument constructor
    returned. *)
Theorem newMeshTelemetry_wired tp mp t err :
  newMeshTelemetry gtp gmp tp mp = (t, err) ->
  match err with
  | None => wired (default gtp tp) (default gmp mp) t
  | Some e => t = zeroTelemetry /\ exists spec,
      mp_instrument (default gmp mp) instrumentationName spec = inl e
  end.
Proof.
  unfold newMeshTelemetry. cbv zeta. intros H.
  pose proof (setMeterProvider_wired (setTracerProvider gtp zeroTelemetry tp) mp) as Hok.
  pose proof (setMeterProvider_err (setTracerProvider gtp zeroTelemetry tp) mp) as Hbad.
  destruct (setMeterProvider gmp (setTracerProvider gtp zeroTelemetry tp) mp) as [t1 [e|]].
  - injection H as <- <-. split; [done|]. by apply (Hbad t1).
  - injection H as <- <-. destruct (Hok t1 eq_refl) as [Ht Hf].
    split; [|exact Hf]. by rewrite Ht.
Qed.

End Wiring.

Section Witnesses.

(** Providers whose handles are numbers and names. *)
Definition sampleTracers : TracerProvider nat := {| tp_Tracer _ := 7%nat |}.
Definition sampleMeters : MeterProvider string :=
  {| mp_instrument _ spec := inr (is_name spec) |}.
Definition sampleTelemetry : meshTelemetry nat string unit :=
  Eval vm_compute in (newMeshTelemetry sampleTracers sampleMeters None None).1.
Definition sampleErrorType (e : error) : KeyValue := ("error.type", VString "error").
Definition sampleState : tstate nat string unit := TState [] 0 ∅ 1%positive.
Definition sampleContext : Context := MkContext None None None.
Definition sampleRoute : RouteMetadata := {|
  VirtualShardIndex := 3; HasVirtualShard := true; ReplicaSetName := "eu";
  NodeName := "primary"; RouteNodeRole := NodeRolePrimary |}.

Lemma newMeshTelemetry_wired_witness :
  wired sampleTracers sampleMeters sampleTelemetry.
Proof.
  apply (newMeshTelemetry_wired sampleTracers sampleMeters (@None (TracerProvider nat))
    (@None (MeterProvider string)) sampleTelemetry None).
  vm_compute. reflexivity.
Defined.

Definition sampleOpen : outcome error (Context * PhysicalQuerySpan string unit) * tstate nat string unit :=
  Mesh_StartPhysicalQuerySpan sampleTelemetry sampleContext "Users" "GetUser" QueryKindRead
    sampleRoute RouteModePrimary 0 sampleState.

Definition samplePhysical : list (PhysicalQuerySpan string unit) :=
  match sampleOpen.1 with Ok (_, s) => [s] | _ => [] end.

Definition sampleAttributes : list KeyValue :=
  concat (ps_metricAttributes <$> samplePhysical).

Lemma inflight_counter_exact_witness :
  counterValue MetricPhysicalQueryInFlight sampleAttributes (calls sampleOpen.2) =
  counterValue MetricPhysicalQueryInFlight sampleAttributes (calls sampleState) +
  openOn MetricPhysicalQueryInFlight sampleAttributes samplePhysical.
Proof.
  apply (inflight_counter_exact sampleErrorType (fun _ => true) sampleState (sampleOpen.2)
    samplePhysical).
  apply rtc_once.
  apply (step_start _ _ sampleState (sampleOpen.2) [] sampleContext
    (MkContext None None (Some 0%nat)) (tracer sampleTelemetry)
    (physicalDuration sampleTelemetry) (physicalInFlight sampleTelemetry) None
    "Users" "GetUser" QueryKindRead sampleRoute RouteModePrimary 0).
  vm_compute. reflexivity.
Defined.

Definition sampleStore : outcome error (Context * StoreQuerySpan string unit) * tstate nat string unit :=
  StartStoreQuerySpan 9%positive sampleTelemetry sampleContext "Users" "GetUser" QueryKindRead 0 sampleState.

Lemma store_delegated_exact_witness :
  exists ctx s, sampleStore.1 = Ok (ctx, s) /\
    existsb (delegates 9%positive (ss_execution s))
      [NestedLogical 9%positive ctx "Users" "GetUser" QueryKindRead 1] = true /\
    ctx_execution ctx = Some (ss_execution s).
Proof.
  eexists _, _. split; [vm_compute; reflexivity|]. split; [vm_compute; reflexivity|].
  eapply (store_delegated_exact sampleErrorType (fun _ => true) sampleTelemetry 9%positive
    sampleContext "Users" "GetUser" QueryKindRead 0 sampleState _ _ (sampleStore.2)
    [NestedLogical 9%positive (MkContext None (Some 1%positive) (Some 0%nat))
       "Users" "GetUser" QueryKindRead 1] _ None 2).
  - vm_compute. reflexivity.
  - vm_compute. reflexivity.
  - vm_compute. reflexivity.
Defined.

End Witnesses.
