(* ===== verification/Future.v ===== *)
(** * Future: a write-once asynchronous result (future.go)

    A future is the state of its [done] channel (closed or not) with the value
    and error written before it was closed. [sync.Once] makes [resolve] write
    at most once. [Await] is modelled at its two observation points: the future
    as the first, non-blocking select sees it, and as the second select sees it
    when it wakes up; when both of its cases are ready the choice is free. *)

From S2P Require Import Prelude Errors.

Record Future (T : Type) := MkFuture { f_done : bool; f_value : T; f_err : option error }.
Arguments MkFuture {T} f_done f_value f_err.
Arguments f_done {T} f.
Arguments f_value {T} f.
Arguments f_err {T} f.

Section Futures.
Context {T : Type} (zero : T).
Implicit Types (f : Future T).

Definition newFuture : Future T := MkFuture false zero None.

Definition resolve f (value : T) (err : option error) : Future T :=
  if f_done f then f else MkFuture true value err.

Definition ResolvedFuture (value : T) (err : option error) : Future T :=
  resolve newFuture value err.

(** The goroutine of [RunFuture]: the future before and after the work. *)
Definition RunFuture (work : T * option error) : Future T * Future T :=
  (newFuture, resolve newFuture (fst work) (snd work)).

(** [Await]: [first] is the future at the first select, [woken] at the second,
    [ctxErr] the context's error if it is done by then; [preferDone] is the
    choice of select when both cases are ready. [None]: still blocked. *)
Definition Await (first woken : Future T) (ctxErr : option error) (preferDone : bool)
    : option (T * option error) :=
  if f_done first then Some (f_value first, f_err first)
  else
    match f_done woken, ctxErr with
    | true, None => Some (f_value woken, f_err woken)
    | true, Some e => if preferDone then Some (f_value woken, f_err woken) else Some (zero, Some e)
    | false, Some e => Some (zero, Some e)
    | false, None => None
    end.

(** How a future evolves: any number of resolve calls. *)
Definition later f f' : Prop :=
  exists calls, f' = foldl (fun f '(v, e) => resolve f v e) f calls.

Lemma resolve_done f v e : f_done (resolve f v e) = true.
Proof. unfold resolve. by destruct (f_done f) eqn:E. Qed.

Lemma resolve_stable f v e : f_done f = true -> resolve f v e = f.
Proof. unfold resolve. by intros ->. Qed.

Lemma later_stable f f' : f_done f = true -> later f f' -> f' = f.
Proof.
  intros Hd [calls ->]. induction calls as [|[v e] calls IH]; [done|].
  simpl. by rewrite resolve_stable.
Qed.

(** A future resolves once. However many goroutines call [resolve], the
    result is that of the first call; an Await on a resolved future returns it
    even when its context is already canceled; an Await that ends before the
    result is there returns the context's error, and leaves the future as it
    is; and without a done context Await never returns early. *)
Theorem future_resolves_once v e more first woken ctxErr pick :
  let f := foldl (fun f '(v, e) => resolve f v e) newFuture ((v, e) :: more) in
  later first woken ->
  f = MkFuture true v e /\
  (later f first -> Await first woken ctxErr pick = Some (v, e)) /\
  (f_done first = false -> f_done woken = false ->
     Await first woken ctxErr pick = (fun c => (zero, Some c)) <$> ctxErr) /\
  (f_done woken = true -> Await first woken None pick = Some (f_value woken, f_err woken)).
Proof.
  intros f H2. assert (Hf : f = MkFuture true v e).
  { unfold f. simpl. by apply (later_stable (MkFuture true v e)); [|exists more]. }
  split_and!; [done|..].
  - intros Hl. apply later_stable in Hl as ->; [|by rewrite Hf]. unfold Await. by rewrite Hf.
  - intros Hd Hw. unfold Await. rewrite Hd, Hw. by destruct ctxErr.
  - intros Hw. unfold Await. destruct (f_done first) eqn:Hd.
    + by apply (later_stable first woken) in H2 as ->.
    + by rewrite Hw.
Qed.

End Futures.

Lemma future_resolves_once_witness :
  Await 0 (MkFuture true 7 None) (MkFuture true 7 None) (Some (StdError ContextCanceled)) false =
  Some (7, None).
Proof.
  apply (future_resolves_once 0 7 None [(8, None)] (MkFuture true 7 None) (MkFuture true 7 None)).
  - by exists [].
  - by exists [].
Defined.
