(* ===== verification/CopyBatch.v ===== *)
(** * CopyBatch: coalescing COPY submissions (copy_batch.go, copy_batch_config.go)

    The batcher is a state machine. Everything between [b.mu.Lock] and
    [b.mu.Unlock] is one step; so is each locked section of a request. The
    [world] holds the mutex-protected batcher, the requests behind their
    pointers, the timers (armed, or fired and waiting for the lock), the
    goroutines that run batches and the ones that wait for a flush. Histories
    (what was accepted, dispatched, copied, finished) are recorded beside the
    state and read by no operation.

    The physical COPY is the caller's function: its count and error are inputs
    of the step in which it returns. A panic (an index out of range, a loop that
    does not end) is [Panic]. *)

From S2P Require Import Prelude Errors Future Telemetry.

#[local] Open Scope Z_scope.

(** ** Configuration *)

Definition DefaultCopyBatchLinger : Z := 1000000.
Definition DefaultCopyBatchMaxConcurrentBatches : Z := 32.

Record CopyBatchConfig := MkConfig {
  MaxRowsPerBatch : Z;
  Linger : Z;
  MaxConcurrentBatches : Z;
}.

Definition Validate (c : CopyBatchConfig) : option error :=
  if MaxRowsPerBatch c <? 0 then
    Some (ErrorText "pgmesh: copy batch maximum rows per batch must not be negative")
  else if Linger c <? 0 then
    Some (ErrorText "pgmesh: copy batch linger must not be negative")
  else if MaxConcurrentBatches c <? 0 then
    Some (ErrorText "pgmesh: copy batch maximum concurrent batches must not be negative")
  else None.

Definition normalized (c : CopyBatchConfig) : CopyBatchConfig :=
  MkConfig (MaxRowsPerBatch c)
    (if Linger c =? 0 then DefaultCopyBatchLinger else Linger c)
    (if MaxConcurrentBatches c =? 0 then DefaultCopyBatchMaxConcurrentBatches
     else MaxConcurrentBatches c).

#[export] Instance CopyBatchFlushReason_eq_dec : EqDecision CopyBatchFlushReason.
Proof. solve_decision. Defined.

(** ** State *)

Section CopyBatcher.
(** Rows, and contexts with [context.WithoutCancel]. *)
Context {T Ctx : Type} (WithoutCancel : Ctx -> Ctx).

(** Requests and batches are pointers; their identities are numbers. *)
Record copyRequest := CopyRequest {
  rq_result : Future Z;
  rowCount : Z;
  pendingParts : Z;
  errs : list error;
}.

Record copyBatch := CopyBatch {
  cb_id : nat;
  cb_ctx : Ctx;
  rows : list T;
  cb_requests : list nat;
  cb_timer : bool;
  queuedAt : Z;
  reason : CopyBatchFlushReason;
}.

(** The fields behind [b.mu]. *)
Record CopyBatcher := Batcher {
  config : CopyBatchConfig;
  observers : list (option nat);
  active : option copyBatch;
  queue : list copyBatch;
  inFlight : Z;
  pending : gset nat;
}.

(** A goroutine in [runBatch]: not started; in the COPY call; finishing the
    parts of its requests; about to take the lock again. *)
Inductive goroutine :=
  | GReady (b : copyBatch)
  | GCopy (b : copyBatch) (startedAt : Z)
  | GFinish (err : option error) (todo completed : list nat).

(** A flush goroutine: the futures it still awaits, the errors so far and its
    own future; [fl_barrier] records the futures it was started with. *)
Record flusher := Flusher {
  fl_barrier : list nat;
  fl_todo : list nat;
  fl_errs : list error;
  fl_result : Future unit;
}.

(** One finished part: its request and the error of its batch. *)
Definition part : Type := nat * option error.

Record history := History {
  accepted : list (nat * bool * list T);
  dispatched : list copyBatch;
  copied : list (copyBatch * option error);
  finished : list part;
  observed : list (nat * Ctx * CopyBatchObservation);
}.

Record world := World {
  bt : CopyBatcher;
  requests : gmap nat copyRequest;
  nextRequest : nat;
  nextBatch : nat;
  armed : gset nat;
  fired : gset nat;
  running : list goroutine;
  flushes : list flusher;
  now : Z;
  hist : history;
}.

(** ** Field updates *)

Definition setActive (b : CopyBatcher) (a : option copyBatch) : CopyBatcher :=
  Batcher (config b) (observers b) a (queue b) (inFlight b) (pending b).
Definition setQueue (b : CopyBatcher) (q : list copyBatch) : CopyBatcher :=
  Batcher (config b) (observers b) (active b) q (inFlight b) (pending b).
Definition setPending (b : CopyBatcher) (p : gset nat) : CopyBatcher :=
  Batcher (config b) (observers b) (active b) (queue b) (inFlight b) p.
Definition setInFlight (b : CopyBatcher) (n : Z) : CopyBatcher :=
  Batcher (config b) (observers b) (active b) (queue b) n (pending b).

Definition withBt (w : world) (b : CopyBatcher) : world :=
  World b (requests w) (nextRequest w) (nextBatch w) (armed w) (fired w) (running w)
    (flushes w) (now w) (hist w).
Definition withRequests (w : world) (m : gmap nat copyRequest) : world :=
  World (bt w) m (nextRequest w) (nextBatch w) (armed w) (fired w) (running w)
    (flushes w) (now w) (hist w).
Definition withTimers (w : world) (a f : gset nat) : world :=
  World (bt w) (requests w) (nextRequest w) (nextBatch w) a f (running w)
    (flushes w) (now w) (hist w).
Definition withRunning (w : world) (l : list goroutine) : world :=
  World (bt w) (requests w) (nextRequest w) (nextBatch w) (armed w) (fired w) l
    (flushes w) (now w) (hist w).
Definition withFlushes (w : world) (l : list flusher) : world :=
  World (bt w) (requests w) (nextRequest w) (nextBatch w) (armed w) (fired w) (running w)
    l (now w) (hist w).
Definition withHist (w : world) (h : history) : world :=
  World (bt w) (requests w) (nextRequest w) (nextBatch w) (armed w) (fired w) (running w)
    (flushes w) (now w) h.

(** ** Requests *)

Definition newCopyRequest (rowCount : Z) : copyRequest :=
  CopyRequest (newFuture 0) rowCount 0 [].

Definition addPart (r : copyRequest) : copyRequest :=
  CopyRequest (rq_result r) (rowCount r) (pendingParts r + 1) (errs r).

(** The request after a part, and whether it was the last one. *)
Definition finishPart (r : copyRequest) (err : option error) : copyRequest * bool :=
  let errs := match err with Some e => errs r ++ [e] | None => errs r end in
  let pendingParts := pendingParts r - 1 in
  if negb (pendingParts =? 0) then
    (CopyRequest (rq_result r) (rowCount r) pendingParts errs, false)
  else
    match errorsJoin errs with
    | Some e =>
        (CopyRequest (resolve (rq_result r) 0 (Some e)) (rowCount r) pendingParts errs, true)
    | None =>
        (CopyRequest (resolve (rq_result r) (rowCount r) None) (rowCount r) pendingParts errs, true)
    end.

(** ** Locked operations *)

Definition enqueueLocked (b : CopyBatcher) (batch : option copyBatch) : CopyBatcher :=
  match batch with
  | None => b
  | Some batch =>
      if bool_decide (length (rows batch) = 0%nat) then b
      else setQueue b (queue b ++ [batch])
  end.

Definition openBatchLocked (w : world) (ctx : Ctx) : world :=
  let batch := CopyBatch (nextBatch w) (WithoutCancel ctx) [] [] true (now w) CopyBatchFlushReasonNone in
  World (setActive (bt w) (Some batch)) (requests w) (nextRequest w) (S (nextBatch w))
    ({[nextBatch w]} ∪ armed w) (fired w) (running w) (flushes w) (now w) (hist w).

(** [detachActiveLocked]: stopping the timer disarms it; a timer that fired
    already is not recalled. *)
Definition detachActiveLocked (w : world) (why : CopyBatchFlushReason)
    : option copyBatch * world :=
  match active (bt w) with
  | None => (None, withBt w (setActive (bt w) None))
  | Some batch =>
      (Some (CopyBatch (cb_id batch) (cb_ctx batch) (rows batch) (cb_requests batch) false
               (queuedAt batch) why),
       withTimers (withBt w (setActive (bt w) None))
         (if cb_timer batch then armed w ∖ {[cb_id batch]} else armed w) (fired w))
  end.

(** One turn of the loop of [appendRequestLocked], and the rows left. *)
Definition appendPart (w : world) (ctx : Ctx) (rws : list T) (request : nat)
    : result (list T * world) :=
  let w := match active (bt w) with None => openBatchLocked w ctx | Some _ => w end in
  let max := MaxRowsPerBatch (config (bt w)) in
  act ← panic_if_none (active (bt w));
  let count := if 0 <? max then Z.min (Z.of_nat (length rws)) (max - Z.of_nat (length (rows act)))
               else Z.of_nat (length rws) in
  if count <? 0 then Panic
  else
    r ← panic_if_none (requests w !! request);
    let n := Z.to_nat count in
    let act := CopyBatch (cb_id act) (cb_ctx act) (rows act ++ take n rws)
                 (cb_requests act ++ [request]) (cb_timer act) (queuedAt act) (reason act) in
    let w := withRequests (withBt w (setActive (bt w) (Some act)))
               (<[request := addPart r]> (requests w)) in
    if (0 <? max) && (Z.of_nat (length (rows act)) =? max) then
      let '(batch, w) := detachActiveLocked w CopyBatchFlushReasonFull in
      mret (drop n rws, withBt w (enqueueLocked (bt w) batch))
    else mret (drop n rws, w).

(** The loop, with as many turns as there are rows: each one takes a row. *)
Fixpoint appendRequestLocked (fuel : nat) (w : world) (ctx : Ctx) (rws : list T) (request : nat)
    : result world :=
  match rws with
  | [] => mret w
  | _ =>
      match fuel with
      | O => Panic
      | S fuel =>
          '(rws, w) ← appendPart w ctx rws request;
          appendRequestLocked fuel w ctx rws request
      end
  end.

Definition enqueueUnbatchedLocked (w : world) (ctx : Ctx) (rws : list T) (request : nat)
    : result world :=
  r ← panic_if_none (requests w !! request);
  let batch := CopyBatch (nextBatch w) (WithoutCancel ctx) rws [request] false (now w)
                 CopyBatchFlushReasonUnbatched in
  mret (World (enqueueLocked (bt w) (Some batch)) (<[request := addPart r]> (requests w))
          (nextRequest w) (S (nextBatch w)) (armed w) (fired w) (running w) (flushes w)
          (now w) (hist w)).

(** ** Scheduling *)

Definition popQueueLocked (q : list copyBatch) : result (copyBatch * list copyBatch) :=
  match q with [] => Panic | batch :: q => Ok (batch, q) end.

Definition isLinger (b : copyBatch) : bool :=
  bool_decide (reason b = CopyBatchFlushReasonLinger).

(** The merge loop of [dequeueLocked]. *)
Fixpoint mergeLinger (max : Z) (batch : copyBatch) (q : list copyBatch)
    : copyBatch * list copyBatch :=
  match q with
  | [] => (batch, [])
  | next :: q' =>
      if negb (isLinger next) then (batch, q)
      else if (0 <? max) &&
              (max <? Z.of_nat (length (rows batch)) + Z.of_nat (length (rows next))) then (batch, q)
      else mergeLinger max
             (CopyBatch (cb_id batch) (cb_ctx batch) (rows batch ++ rows next)
                (cb_requests batch ++ cb_requests next) (cb_timer batch) (queuedAt batch)
                (reason batch)) q'
  end.

Definition dequeueLocked (max : Z) (q : list copyBatch) : result (copyBatch * list copyBatch) :=
  '(batch, q) ← popQueueLocked q;
  if negb (isLinger batch) then mret (batch, q) else mret (mergeLinger max batch q).

(** The loop of [scheduleLocked]; the fuel is the length of the queue. *)
Fixpoint scheduleLoop (fuel : nat) (max : Z) (capacity : Z) (q : list copyBatch)
    : result (list copyBatch * list copyBatch) :=
  if negb (0 <? capacity) || bool_decide (length q = 0%nat) then mret ([], q)
  else
    match fuel with
    | O => Panic
    | S fuel =>
        '(batch, q) ← dequeueLocked max q;
        '(batches, q) ← scheduleLoop fuel max (capacity - 1) q;
        mret (batch :: batches, q)
    end.

Definition scheduleLocked (b : CopyBatcher) : result (list copyBatch * CopyBatcher) :=
  let capacity := MaxConcurrentBatches (config b) - inFlight b in
  if (capacity <=? 0) || bool_decide (length (queue b) = 0%nat) then mret ([], b)
  else
    '(batches, q) ← scheduleLoop (length (queue b)) (MaxRowsPerBatch (config b)) capacity (queue b);
    mret (batches, setInFlight (setQueue b q) (inFlight b + Z.of_nat (length batches))).

(** [dispatch]: one goroutine per batch. *)
Definition dispatch (w : world) (batches : list copyBatch) : world :=
  let h := hist w in
  withHist (withRunning w (running w ++ (GReady <$> batches)))
    (History (accepted h) (dispatched h ++ batches) (copied h) (finished h) (observed h)).

(** Schedule under the lock, dispatch after it. *)
Definition scheduleAndDispatch (w : world) : result world :=
  '(batches, b) ← scheduleLocked (bt w);
  mret (dispatch (withBt w b) batches).

(** ** The entry points *)

(** What [Submit] returns: a resolved future, or a request's future. *)
Inductive submitted := SResolved (f : Future Z) | SRequest (id : nat).

(** [ctxErr1] and [ctxErr2] are [ctx.Err()] before and under the lock. *)
Definition submit (w : world) (ctx : Ctx) (ctxErr1 ctxErr2 : option error) (rws : list T)
    (coalesce : bool) : result (submitted * world) :=
  if bool_decide (length rws = 0%nat) then mret (SResolved (ResolvedFuture 0 0 None), w)
  else match ctxErr1 with
  | Some e => mret (SResolved (ResolvedFuture 0 0 (Some e)), w)
  | None =>
      let id := nextRequest w in
      let request := newCopyRequest (Z.of_nat (length rws)) in
      match ctxErr2 with
      | Some e => mret (SResolved (resolve (rq_result request) 0 (Some e)), w)
      | None =>
          let h := hist w in
          let w := World (setPending (bt w) ({[id]} ∪ pending (bt w)))
                     (<[id := request]> (requests w)) (S id) (nextBatch w) (armed w) (fired w)
                     (running w) (flushes w) (now w)
                     (History (accepted h ++ [(id, coalesce, rws)]) (dispatched h) (copied h)
                        (finished h) (observed h)) in
          w ← (if coalesce then appendRequestLocked (length rws) w ctx rws id
               else enqueueUnbatchedLocked w ctx rws id);
          w ← scheduleAndDispatch w;
          mret (SRequest id, w)
      end
  end.

Definition Submit w ctx ctxErr1 ctxErr2 rws := submit w ctx ctxErr1 ctxErr2 rws true.
Definition SubmitUnbatched w ctx ctxErr1 ctxErr2 rws := submit w ctx ctxErr1 ctxErr2 rws false.

(** A timer fires: its goroutine now waits for the lock. *)
Definition timerFires (w : world) (id : nat) : option world :=
  if bool_decide (id ∈ armed w)
  then Some (withTimers w (armed w ∖ {[id]}) ({[id]} ∪ fired w)) else None.

(** [flushExpiredBatch], run by a fired timer. *)
Definition flushExpiredBatch (w : world) (id : nat) : result world :=
  let w := withTimers w (armed w) (fired w ∖ {[id]}) in
  match active (bt w) with
  | Some batch =>
      if bool_decide (cb_id batch = id) then
        let batch := CopyBatch (cb_id batch) (cb_ctx batch) (rows batch) (cb_requests batch) false
                       (queuedAt batch) CopyBatchFlushReasonLinger in
        scheduleAndDispatch (withBt w (enqueueLocked (setActive (bt w) None) (Some batch)))
      else mret w
  | None => mret w
  end.

(** [runBatch] up to the COPY call: the start time is taken. *)
Definition startBatch (w : world) (i : nat) : option world :=
  match running w !! i with
  | Some (GReady b) => Some (withRunning w (<[i := GCopy b (now w)]> (running w)))
  | _ => None
  end.

(** The error of a batch whose COPY returned [count] and [err]. *)
Definition copyError (b : copyBatch) (count : Z) (err : option error) : option error :=
  match err with
  | Some e => Some e
  | None =>
      if count =? Z.of_nat (length (rows b)) then None
      else Some (Errorf "%w: got %d, want %d"
                   [AInt count; AInt (Z.of_nat (length (rows b)))] [Sentinel ErrCopyBatchCountMismatch])
  end.

(** [runBatch] from the return of COPY to the loop over the requests: the
    observers see the outcome. *)
Definition copyReturns (w : world) (i : nat) (count : Z) (err : option error) : option world :=
  match running w !! i with
  | Some (GCopy b startedAt) =>
      let err := copyError b count err in
      let observation := {|
        RowCount := Z.of_nat (length (rows b));
        SubmissionCount := Z.of_nat (length (cb_requests b));
        Reason := reason b;
        QueueDuration := startedAt - queuedAt b;
        ExecutionDuration := now w - startedAt;
        ObservationErr := err |} in
      let seen := (fun o => (o, cb_ctx b, observation)) <$> omap id (observers (bt w)) in
      let h := hist w in
      Some (withHist (withRunning w (<[i := GFinish err (cb_requests b) []]> (running w)))
        (History (accepted h) (dispatched h) (copied h ++ [(b, err)]) (finished h)
           (observed h ++ seen)))
  | _ => None
  end.

(** One turn of the loop over the batch's requests. *)
Definition finishOne (w : world) (i : nat) : option world :=
  match running w !! i with
  | Some (GFinish err (r :: todo) completed) =>
      match requests w !! r with
      | Some request =>
          let '(request, last) := finishPart request err in
          let h := hist w in
          Some (withHist (withRequests (withRunning w
            (<[i := GFinish err todo (if last then completed ++ [r] else completed)]> (running w)))
            (<[r := request]> (requests w)))
            (History (accepted h) (dispatched h) (copied h) (finished h ++ [(r, err)]) (observed h)))
      | None => None
      end
  | _ => None
  end.

(** The locked end of [runBatch]; the goroutine is gone afterwards. *)
Definition completeBatch (w : world) (i : nat) : option (result world) :=
  match running w !! i with
  | Some (GFinish _ [] completed) =>
      let b := bt w in
      let b := setInFlight (setPending b (pending b ∖ list_to_set completed)) (inFlight b - 1) in
      Some (scheduleAndDispatch (withRunning (withBt w b) (delete i (running w))))
  | _ => None
  end.

(** [FlushAsync]: [order] is the order in which the map of pending requests is
    iterated; a goroutine then awaits their futures. *)
Definition FlushAsync (w : world) (order : list nat) : result world :=
  let '(batch, w) := detachActiveLocked w CopyBatchFlushReasonManual in
  w ← scheduleAndDispatch (withBt w (enqueueLocked (bt w) batch));
  mret (withFlushes w (flushes w ++ [Flusher order order [] (newFuture tt)])).

(** One turn of the flush goroutine: an Await that returns, or the end. *)
Definition flushTurn (w : world) (i : nat) : option world :=
  match flushes w !! i with
  | Some (Flusher barrier (r :: todo) errs result) =>
      match requests w !! r with
      | Some request =>
          let f := rq_result request in
          match Await 0 f f None true with
          | Some (_, err) =>
              Some (withFlushes w (<[i := Flusher barrier todo
                (match err with Some e => errs ++ [e] | None => errs end) result]> (flushes w)))
          | None => None
          end
      | None => None
      end
  | Some (Flusher barrier [] errs result) =>
      if f_done result then None
      else Some (withFlushes w (<[i := Flusher barrier [] errs (resolve result tt (errorsJoin errs))]>
                   (flushes w)))
  | None => None
  end.

Definition Tick (w : world) (d : nat) : world :=
  World (bt w) (requests w) (nextRequest w) (nextBatch w) (armed w) (fired w) (running w)
    (flushes w) (now w + Z.of_nat d) (hist w).

(** [NewCopyBatcher]. *)
Definition NewCopyBatcher (c : CopyBatchConfig) (copyFuncGiven : bool) (obs : list (option nat))
    : result CopyBatcher :=
  match Validate c with
  | Some e => Err e
  | None =>
      if negb copyFuncGiven then Err (Sentinel ErrNilCopyBatchFunc)
      else Ok (Batcher (normalized c) obs None [] 0 ∅)
  end.

Definition emptyHistory : history := History [] [] [] [] [].

Definition initial (b : CopyBatcher) : world :=
  World b ∅ 0 0 ∅ ∅ [] [] 0 emptyHistory.

(** ** Steps *)

Inductive event :=
  | EvSubmit (ctx : Ctx) (ctxErr1 ctxErr2 : option error) (rws : list T) (coalesce : bool)
  | EvTimerFires (id : nat)
  | EvFlushExpired (id : nat)
  | EvStart (i : nat)
  | EvCopyReturns (i : nat) (count : Z) (err : option error)
  | EvFinishOne (i : nat)
  | EvComplete (i : nat)
  | EvFlushAsync (order : list nat)
  | EvFlushTurn (i : nat)
  | EvTick (d : nat).

(** Run one event; [None] when it is not enabled. *)
Definition exec (w : world) (e : event) : option (result world) :=
  match e with
  | EvSubmit ctx e1 e2 rws coalesce =>
      Some (snd <$> submit w ctx e1 e2 rws coalesce)
  | EvTimerFires id => Ok <$> timerFires w id
  | EvFlushExpired id =>
      if bool_decide (id ∈ fired w) then Some (flushExpiredBatch w id) else None
  | EvStart i => Ok <$> startBatch w i
  | EvCopyReturns i count err => Ok <$> copyReturns w i count err
  | EvFinishOne i => Ok <$> finishOne w i
  | EvComplete i => completeBatch w i
  | EvFlushAsync order =>
      if bool_decide (order ≡ₚ elements (pending (bt w))) then Some (FlushAsync w order) else None
  | EvFlushTurn i => Ok <$> flushTurn w i
  | EvTick d => Some (Ok (Tick w d))
  end.

End CopyBatcher.
