(* ===== verification/CopyBatchInv.v ===== *)
(** * CopyBatchInv: the invariant of the copy batcher

    The views of a world the invariant speaks of, the invariant, and that every
    event of [CopyBatch.exec] preserves it and never panics. *)

From S2P Require Import Prelude Errors Future Telemetry CopyBatch.

#[local] Open Scope Z_scope.

(** How often a request occurs in a list of parts. *)
Definition occ (r : nat) (l : list nat) : Z := Z.of_nat (length (filter (fun x => x = r) l)).

Lemma occ_nil r : occ r [] = 0.
Proof. done. Qed.
Lemma occ_app r l1 l2 : occ r (l1 ++ l2) = occ r l1 + occ r l2.
Proof. unfold occ. rewrite filter_app, length_app. lia. Qed.
Lemma occ_cons_eq r l : occ r (r :: l) = occ r l + 1.
Proof. unfold occ. rewrite filter_cons_True by done. simpl. lia. Qed.
Lemma occ_cons_ne r x l : x <> r -> occ r (x :: l) = occ r l.
Proof. intros H. unfold occ. by rewrite filter_cons_False. Qed.
Lemma occ_perm r l1 l2 : l1 ≡ₚ l2 -> occ r l1 = occ r l2.
Proof. unfold occ. by intros ->. Qed.
Lemma occ_nonneg r l : 0 <= occ r l.
Proof. unfold occ. lia. Qed.
Lemma occ_pos r l : r ∈ l <-> 0 < occ r l.
Proof.
  unfold occ. split.
  - intros H. assert (Hf : r ∈ filter (fun x => x = r) l) by (by apply list_elem_of_filter).
    destruct (filter (fun x => x = r) l); [by apply elem_of_nil in Hf|simpl; lia].
  - intros H. destruct (filter (fun x => x = r) l) as [|x f] eqn:E; [simpl in H; lia|].
    assert (Hx : x ∈ filter (fun x => x = r) l) by (rewrite E; left).
    by apply list_elem_of_filter in Hx as [-> ?].
Qed.

Section Invariant.
Context {T Ctx : Type} (WithoutCancel : Ctx -> Ctx).
#[local] Abbreviation worldT := (world (T := T) (Ctx := Ctx)).
#[local] Abbreviation batchT := (copyBatch (T := T) (Ctx := Ctx)).
Implicit Types (w : worldT) (b : batchT).

(** ** Views *)

Definition activeList w : list batchT :=
  match active (bt w) with Some b => [b] | None => [] end.

(** The batches that are not dispatched, oldest first. *)
Definition waiting w : list batchT := queue (bt w) ++ activeList w.

Definition gParts (g : goroutine (T := T) (Ctx := Ctx)) : list nat :=
  match g with GReady b | GCopy b _ => cb_requests b | GFinish _ todo _ => todo end.
Definition gRows (g : goroutine (T := T) (Ctx := Ctx)) : list T :=
  match g with GReady b | GCopy b _ => rows b | GFinish _ _ _ => [] end.
(** The parts a goroutine has an outcome for but has not finished. *)
Definition gOutcomes (g : goroutine (T := T) (Ctx := Ctx)) : list part :=
  match g with GReady _ | GCopy _ _ => [] | GFinish err todo _ => (fun r => (r, err)) <$> todo end.
Definition gCompleted (g : goroutine (T := T) (Ctx := Ctx)) : list nat :=
  match g with GReady _ | GCopy _ _ => [] | GFinish _ _ completed => completed end.

Definition flat {A B} (f : A -> list B) (l : list A) : list B := concat (f <$> l).

(** The parts not finished yet, and the rows not copied yet. *)
Definition parts w : list nat := flat gParts (running w) ++ flat cb_requests (waiting w).
Definition liveRows w : list T := flat gRows (running w) ++ flat rows (waiting w).

Definition acceptedRows w : list T := flat (fun x => x.2) (accepted (hist w)).
Definition copiedRows w : list T := flat (fun x => rows x.1) (copied (hist w)).

(** The outcome of a copied batch, once per request part. *)
Definition outcomes (x : batchT * option error) : list part := (fun r => (r, x.2)) <$> cb_requests x.1.

(** The errors of the finished parts of a request, in order. *)
Definition errorsOf (r : nat) (l : list part) : list error :=
  omap (fun p => if decide (p.1 = r) then p.2 else None) l.

(** ** Batches *)

Definition withinMax (max : Z) b : Prop := 0 < max -> Z.of_nat (length (rows b)) <= max.

(** A batch that left the active slot. *)
Definition queuedOk (max : Z) b : Prop :=
  rows b <> [] /\ (reason b <> CopyBatchFlushReasonUnbatched -> withinMax max b).

Definition activeOk w b : Prop :=
  reason b = CopyBatchFlushReasonNone /\ cb_timer b = true /\
  withinMax (MaxRowsPerBatch (config (bt w))) b /\
  (rows b = [] <-> cb_requests b = []) /\ cb_id b ∈ armed w ∪ fired w.

Definition gOk (max : Z) (g : goroutine) : Prop :=
  match g with GReady b | GCopy b _ => queuedOk max b | GFinish _ _ _ => True end.

(** ** The invariant

    [exc] is a request that is being submitted: it may have no parts and no
    result yet. *)
Record inv (exc : option nat) w : Prop := {
  inv_config : 0 <= MaxRowsPerBatch (config (bt w)) /\ 0 < MaxConcurrentBatches (config (bt w));
  inv_active b : active (bt w) = Some b -> activeOk w b;
  inv_queue : Forall (queuedOk (MaxRowsPerBatch (config (bt w)))) (queue (bt w));
  inv_running : Forall (gOk (MaxRowsPerBatch (config (bt w)))) (running w);
  inv_copied : Forall (fun x => queuedOk (MaxRowsPerBatch (config (bt w))) x.1) (copied (hist w));
  inv_inFlight : inFlight (bt w) = Z.of_nat (length (running w)) /\
    inFlight (bt w) <= MaxConcurrentBatches (config (bt w));
  inv_parts r rq : requests w !! r = Some rq -> pendingParts rq = occ r (parts w);
  inv_known r : r ∈ parts w -> is_Some (requests w !! r);
  inv_fresh r rq : requests w !! r = Some rq -> (r < nextRequest w)%nat;
  inv_done r rq : requests w !! r = Some rq -> exc <> Some r ->
    f_done (rq_result rq) = true <-> pendingParts rq = 0;
  inv_exc r rq : exc = Some r -> requests w !! r = Some rq -> f_done (rq_result rq) = false;
  inv_errs r rq : requests w !! r = Some rq -> errs rq = errorsOf r (finished (hist w));
  inv_result r rq : requests w !! r = Some rq -> f_done (rq_result rq) = true ->
    rq_result rq = MkFuture true (match errs rq with [] => rowCount rq | _ => 0 end)
                     (errorsJoin (errs rq));
  inv_pending r : r ∈ pending (bt w) -> exists rq, requests w !! r = Some rq /\
    (f_done (rq_result rq) = false \/ r ∈ flat gCompleted (running w));
  inv_unresolved r rq : requests w !! r = Some rq -> f_done (rq_result rq) = false ->
    r ∈ pending (bt w);
  inv_completed r : r ∈ flat gCompleted (running w) ->
    exists rq, requests w !! r = Some rq /\ f_done (rq_result rq) = true;
  inv_accepted r : is_Some (requests w !! r) <-> r ∈ (fun x => x.1.1) <$> accepted (hist w);
  inv_rowCount r c rws rq : (r, c, rws) ∈ accepted (hist w) -> requests w !! r = Some rq ->
    rowCount rq = Z.of_nat (length rws);
  inv_finished r e : (r, e) ∈ finished (hist w) -> is_Some (requests w !! r);
  inv_outcomes : flat outcomes (copied (hist w)) ≡ₚ
    finished (hist w) ++ flat gOutcomes (running w);
  inv_flushes i fl r : flushes w !! i = Some fl -> r ∈ fl_todo fl -> is_Some (requests w !! r);
}.

(** At rest no active batch is full or empty, and the queue is empty unless
    every slot is taken. *)
Definition tight w : Prop :=
  forall b, active (bt w) = Some b -> rows b <> [] /\
    (0 < MaxRowsPerBatch (config (bt w)) ->
     Z.of_nat (length (rows b)) < MaxRowsPerBatch (config (bt w))).

Definition workConserving w : Prop :=
  queue (bt w) <> [] -> inFlight (bt w) = MaxConcurrentBatches (config (bt w)).

(** ** Scheduling *)

Lemma flat_app {A B} (f : A -> list B) l1 l2 : flat f (l1 ++ l2) = flat f l1 ++ flat f l2.
Proof. unfold flat. by rewrite fmap_app, concat_app. Qed.
Lemma flat_cons {A B} (f : A -> list B) x l : flat f (x :: l) = f x ++ flat f l.
Proof. done. Qed.
Lemma flat_nil {A B} (f : A -> list B) : flat f [] = [].
Proof. done. Qed.
Lemma flat_perm {A B} (f : A -> list B) l1 l2 : l1 ≡ₚ l2 -> flat f l1 ≡ₚ flat f l2.
Proof. unfold flat. induction 1; simpl; [done|by f_equiv| |by etrans]. by rewrite !app_assoc, (Permutation_app_comm (f y)). Qed.

Lemma mergeLinger_spec max b q b' q' :
  isLinger b = true -> queuedOk max b -> Forall (queuedOk max) q ->
  mergeLinger max b q = (b', q') ->
  queuedOk max b' /\ Forall (queuedOk max) q' /\
  rows b' ++ flat rows q' = rows b ++ flat rows q /\
  cb_requests b' ++ flat cb_requests q' = cb_requests b ++ flat cb_requests q /\
  (length q' <= length q)%nat.
Proof.
  revert b. induction q as [|x q IH]; intros b Hl Hb Hq; simpl.
  - intros [= <- <-]. by split_and!.
  - pose proof Hq as [Hx Hq']%Forall_cons.
    destruct (isLinger x) eqn:Hlx; simpl; [|intros [= <- <-]; by split_and!].
    destruct ((0 <? max) && _) eqn:Hmax; [intros [= <- <-]; by split_and!|].
    intros Hrec. apply IH in Hrec as (H1 & H2 & H3 & H4 & H5); [|done| |done].
    + split_and!; [done|done|..|lia].
      * rewrite H3. simpl. by rewrite <- app_assoc.
      * rewrite H4. simpl. by rewrite <- app_assoc.
    + destruct Hb as [Hne Hb]. split; simpl.
      * by destruct (rows b).
      * intros Hr Hm. simpl. rewrite length_app.
        destruct (Z.ltb_spec 0 max); [|lia]. simpl in Hmax. apply Z.ltb_ge in Hmax. lia.
Qed.

Lemma dequeueLocked_spec max q :
  q <> [] -> Forall (queuedOk max) q ->
  exists b q', dequeueLocked max q = Ok (b, q') /\
    queuedOk max b /\ Forall (queuedOk max) q' /\
    rows b ++ flat rows q' = flat rows q /\
    cb_requests b ++ flat cb_requests q' = flat cb_requests q /\
    (length q' < length q)%nat.
Proof.
  intros Hne Hq. destruct q as [|b q]; [done|]. apply Forall_cons in Hq as [Hb Hq].
  unfold dequeueLocked. simpl. destruct (isLinger b) eqn:Hl; simpl.
  - destruct (mergeLinger max b q) as [b' q'] eqn:E.
    destruct (mergeLinger_spec max b q b' q' Hl Hb Hq E) as (? & ? & ? & ? & ?).
    exists b', q'. split_and!; [done..|lia].
  - exists b, q. by split_and!; try lia.
Qed.

Lemma scheduleLoop_spec fuel max capacity q :
  (length q <= fuel)%nat -> 0 <= capacity -> Forall (queuedOk max) q ->
  exists bs q', scheduleLoop fuel max capacity q = Ok (bs, q') /\
    Forall (queuedOk max) bs /\ Forall (queuedOk max) q' /\
    flat rows bs ++ flat rows q' = flat rows q /\
    flat cb_requests bs ++ flat cb_requests q' = flat cb_requests q /\
    Z.of_nat (length bs) <= capacity /\ (q' = [] \/ Z.of_nat (length bs) = capacity) /\
    (length bs + length q' <= length q)%nat.
Proof.
  revert capacity q. induction fuel as [|fuel IH]; intros capacity q Hf Hc Hq; simpl.
  - destruct q as [|x q]; [|simpl in Hf; lia]. rewrite orb_true_r.
    exists [], []. split_and!; [done..| |by left|done]. simpl. lia.
  - destruct (Z.ltb_spec 0 capacity) as [Hpos|Hz]; simpl.
    + case_bool_decide as Hl; simpl.
      { destruct q; [|done]. exists [], []. split_and!; [done..| |by left|done]. simpl. lia. }
      destruct (dequeueLocked_spec max q) as (b & q1 & -> & Hb & Hq1 & Hr & Hp & Hlen);
        [by destruct q|done|]. simpl.
      destruct (IH (capacity - 1) q1) as (bs & q2 & -> & Hbs & Hq2 & Hr2 & Hp2 & Hcap & Hend & Hll);
        [lia|lia|done|]. simpl.
      exists (b :: bs), q2. split_and!; [done|by constructor|done|..].
      * rewrite flat_cons, <- app_assoc. by rewrite Hr2.
      * rewrite flat_cons, <- app_assoc. by rewrite Hp2.
      * simpl. lia.
      * destruct Hend as [->|Hend]; [by left|right]. simpl. lia.
      * simpl. lia.
    + exists [], q. split_and!; [done..| |right; simpl; lia|done]. simpl. lia.
Qed.

(** The world after [bs] left the queue, which is [q] now. *)
Definition launch w (bs q : list batchT) : worldT :=
  dispatch (withBt w (setInFlight (setQueue (bt w) q) (inFlight (bt w) + Z.of_nat (length bs)))) bs.

Lemma scheduleAndDispatch_spec w :
  inFlight (bt w) <= MaxConcurrentBatches (config (bt w)) ->
  Forall (queuedOk (MaxRowsPerBatch (config (bt w)))) (queue (bt w)) ->
  exists bs q, scheduleAndDispatch w = Ok (launch w bs q) /\
    Forall (queuedOk (MaxRowsPerBatch (config (bt w)))) bs /\
    Forall (queuedOk (MaxRowsPerBatch (config (bt w)))) q /\
    flat rows bs ++ flat rows q = flat rows (queue (bt w)) /\
    flat cb_requests bs ++ flat cb_requests q = flat cb_requests (queue (bt w)) /\
    inFlight (bt w) + Z.of_nat (length bs) <= MaxConcurrentBatches (config (bt w)) /\
    workConserving (launch w bs q) /\ (length bs + length q <= length (queue (bt w)))%nat.
Proof.
  intros Hin Hq. unfold scheduleAndDispatch, scheduleLocked.
  assert (Hsame : launch w [] (queue (bt w)) = dispatch (withBt w (bt w)) []).
  { unfold launch. do 2 f_equal. destruct (bt w). unfold setInFlight, setQueue. simpl. f_equal. lia. }
  destruct (Z.leb_spec (MaxConcurrentBatches (config (bt w)) - inFlight (bt w)) 0) as [Hfull|Hcap]; simpl.
  { exists [], (queue (bt w)). rewrite Hsame. split_and!; [done..|simpl; lia| |done].
    unfold workConserving. simpl. intros _. lia. }
  case_bool_decide as Hl; simpl.
  { exists [], (queue (bt w)). rewrite Hsame. split_and!; [done..|simpl; lia| |done].
    unfold workConserving. simpl. by destruct (queue (bt w)). }
  destruct (scheduleLoop_spec (length (queue (bt w))) (MaxRowsPerBatch (config (bt w)))
    (MaxConcurrentBatches (config (bt w)) - inFlight (bt w)) (queue (bt w)))
    as (bs & q & -> & Hbs & Hq' & Hr & Hp & Hc & Hend & Hll); [lia|lia|done|].
  simpl. exists bs, q. split_and!; [done..|lia| |done].
  unfold workConserving. simpl. destruct Hend as [->|Hend]; [done|]. intros _. lia.
Qed.

Lemma parts_launch w bs q :
  flat cb_requests bs ++ flat cb_requests q = flat cb_requests (queue (bt w)) ->
  parts (launch w bs q) = parts w.
Proof.
  intros H. unfold parts, waiting, activeList. simpl. rewrite !flat_app, <- H, <- !app_assoc.
  do 2 f_equal. clear. induction bs as [|b bs IH]; [done|]. rewrite fmap_cons, !flat_cons.
  by rewrite IH.
Qed.

Lemma liveRows_launch w bs q :
  flat rows bs ++ flat rows q = flat rows (queue (bt w)) ->
  liveRows (launch w bs q) = liveRows w.
Proof.
  intros H. unfold liveRows, waiting, activeList. simpl. rewrite !flat_app, <- H, <- !app_assoc.
  do 2 f_equal. clear. induction bs as [|b bs IH]; [done|]. rewrite fmap_cons, !flat_cons.
  by rewrite IH.
Qed.

Lemma flat_GReady {B} (f : goroutine (T := T) (Ctx := Ctx) -> list B) (bs : list batchT) :
  (forall b, f (GReady b) = []) -> flat f (GReady <$> bs) = [].
Proof.
  intros Hf. induction bs as [|b bs IH]; [done|]. by rewrite fmap_cons, flat_cons, Hf, IH.
Qed.

(** Scheduling preserves the invariant. *)
Lemma launch_inv exc w bs q :
  inv exc w ->
  Forall (queuedOk (MaxRowsPerBatch (config (bt w)))) bs ->
  Forall (queuedOk (MaxRowsPerBatch (config (bt w)))) q ->
  flat cb_requests bs ++ flat cb_requests q = flat cb_requests (queue (bt w)) ->
  inFlight (bt w) + Z.of_nat (length bs) <= MaxConcurrentBatches (config (bt w)) ->
  inv exc (launch w bs q).
Proof.
  intros [] Hbs Hq Hp Hmax. pose proof (parts_launch w bs q Hp) as Hparts.
  split; try rewrite Hparts; try done; simpl.
  - apply Forall_app. split; [done|]. by apply Forall_fmap.
  - rewrite length_app, length_fmap. lia.
  - intros r Hr. destruct (inv_pending0 r Hr) as (rq & ? & Hd). exists rq. split; [done|].
    rewrite flat_app, elem_of_app. tauto.
  - intros r. rewrite flat_app, (flat_GReady gCompleted), app_nil_r by done. apply inv_completed0.
  - rewrite flat_app, (flat_GReady gOutcomes) by done. by rewrite app_nil_r.
Qed.

Lemma schedule_inv exc w :
  inv exc w -> exists w', scheduleAndDispatch w = Ok w' /\ inv exc w' /\ workConserving w' /\
    (tight w -> tight w').
Proof.
  intros Hinv.
  destruct (scheduleAndDispatch_spec w) as (bs & q & Hs & Hbs & Hq & _ & Hp & Hmax & Hwc & _);
    [apply Hinv..|].
  exists (launch w bs q). split_and!; [done| |done|done]. by apply launch_inv.
Qed.

(** ** Leaving the active slot *)

Definition closed b (why : CopyBatchFlushReason) : batchT :=
  CopyBatch (cb_id b) (cb_ctx b) (rows b) (cb_requests b) false (queuedAt b) why.

(** The world in which the active batch [b] was moved to the queue. *)
Definition retired w b (why : CopyBatchFlushReason) (a f : gset nat) : worldT :=
  withTimers (withBt w (enqueueLocked (setActive (bt w) None) (Some (closed b why)))) a f.

Lemma retired_waiting {B} (g : batchT -> list B) w b why a f :
  active (bt w) = Some b -> g (closed b why) = g b -> (rows b = [] -> g b = []) ->
  flat g (waiting (retired w b why a f)) = flat g (waiting w).
Proof.
  intros Ha Hg He. unfold waiting, activeList, retired. simpl. rewrite Ha.
  case_bool_decide as Hl; simpl.
  - apply nil_length_inv in Hl. rewrite !flat_app, flat_nil, flat_cons, He, flat_nil by done. done.
  - by rewrite app_nil_r, !flat_app, !flat_cons, Hg.
Qed.

Lemma retired_inv exc w b why a f :
  inv exc w -> active (bt w) = Some b -> why <> CopyBatchFlushReasonUnbatched ->
  inv exc (retired w b why a f).
Proof.
  intros Hinv Ha Hwhy. pose proof (inv_active _ _ Hinv b Ha) as (_ & _ & Hmax & Hempty & _).
  assert (Hparts : parts (retired w b why a f) = parts w).
  { unfold parts. rewrite retired_waiting; [done|done|done|]. by intros ?%Hempty. }
  assert (Hbt : config (bt (retired w b why a f)) = config (bt w) /\
    inFlight (bt (retired w b why a f)) = inFlight (bt w) /\
    pending (bt (retired w b why a f)) = pending (bt w) /\
    active (bt (retired w b why a f)) = None).
  { unfold retired. simpl. by case_bool_decide. }
  destruct Hbt as (Hc & Hi & Hp & Hact).
  destruct Hinv. split; try rewrite Hparts; try rewrite Hc; try rewrite Hi; try rewrite Hp; try done.
  - rewrite Hact. done.
  - unfold retired. simpl. case_bool_decide as Hl; simpl; [done|].
    apply Forall_app. split; [done|]. apply Forall_singleton. split; simpl; [by destruct (rows b)|done].
Qed.

Lemma retired_tight w b why a f : tight (retired w b why a f).
Proof. intros b'. unfold retired. simpl. by case_bool_decide. Qed.

(** [detachActiveLocked] and [enqueueLocked] together. *)
Lemma detach_enqueue w why :
  let '(batch, w') := detachActiveLocked w why in
  withBt w' (enqueueLocked (bt w') batch) =
  match active (bt w) with
  | None => withBt w (setActive (bt w) None)
  | Some b => retired w b why (if cb_timer b then armed w ∖ {[cb_id b]} else armed w) (fired w)
  end.
Proof. unfold detachActiveLocked. by destruct (active (bt w)) as [b|]. Qed.

Lemma setActive_None_id w : active (bt w) = None -> withBt w (setActive (bt w) None) = w.
Proof. intros H. destruct w as [[]]. simpl in *. by subst. Qed.

(** ** Appending rows *)

(** The world in which the active batch [act] got [rws] more rows of request [r]. *)
Definition appended w act (rws : list T) (r : nat) (rq : copyRequest) : worldT :=
  withRequests (withBt w (setActive (bt w) (Some
    (CopyBatch (cb_id act) (cb_ctx act) (rows act ++ rws) (cb_requests act ++ [r]) (cb_timer act)
       (queuedAt act) (reason act))))) (<[r := addPart rq]> (requests w)).

Lemma appended_parts w act rws r rq :
  active (bt w) = Some act -> parts (appended w act rws r rq) = parts w ++ [r].
Proof.
  intros Ha. unfold parts, waiting, activeList. simpl. rewrite Ha, !flat_app, !flat_cons, !flat_nil.
  simpl. by rewrite !app_nil_r, !app_assoc.
Qed.

Lemma appended_inv w act rws r rq :
  inv (Some r) w -> active (bt w) = Some act -> requests w !! r = Some rq -> rws <> [] ->
  (0 < MaxRowsPerBatch (config (bt w)) ->
   Z.of_nat (length (rows act) + length rws) <= MaxRowsPerBatch (config (bt w))) ->
  inv (Some r) (appended w act rws r rq).
Proof.
  intros Hinv Ha Hr Hne Hmax. pose proof (appended_parts w act rws r rq Ha) as Hparts.
  pose proof (inv_active _ _ Hinv act Ha) as (Hreason & Htimer & _ & _ & Hid).
  destruct Hinv. split; try rewrite Hparts; try done; simpl.
  - intros b [= <-]. split_and!; simpl; [done|done| |split|done].
    + unfold withinMax. simpl. by rewrite length_app.
    + intros [? ?]%app_eq_nil. done.
    + by intros [_ ?]%app_eq_nil.
  - intros r' rq'. rewrite lookup_insert_Some, occ_app. intros [[<- <-]|[Hn Hl]].
    + simpl. rewrite (inv_parts0 r rq Hr), occ_cons_eq, occ_nil. lia.
    + rewrite (inv_parts0 _ _ Hl), occ_cons_ne, occ_nil by done. lia.
  - intros r' [Hin| ->%list_elem_of_singleton]%elem_of_app.
    + destruct (decide (r = r')) as [<-|]; [by rewrite lookup_insert_eq|].
      rewrite lookup_insert_ne by done. by apply inv_known0.
    + by rewrite lookup_insert_eq.
  - intros r' rq'. rewrite lookup_insert_Some. intros [[<- <-]|[Hn Hl]]; eauto.
  - intros r' rq'. rewrite lookup_insert_Some. intros [[<- <-]|[Hn Hl]] Hx; [done|]. eauto.
  - intros r' rq' [= <-]. rewrite lookup_insert_eq. intros [= <-]. simpl. eauto.
  - intros r' rq'. rewrite lookup_insert_Some. intros [[<- <-]|[Hn Hl]]; simpl; eauto.
  - intros r' rq'. rewrite lookup_insert_Some. intros [[<- <-]|[Hn Hl]]; simpl; eauto.
  - intros r' Hin. destruct (inv_pending0 r' Hin) as (rq' & Hl & Hd).
    destruct (decide (r = r')) as [<-|].
    + exists (addPart rq). rewrite lookup_insert_eq. split; [done|]. simpl.
      assert (rq' = rq) as -> by congruence. done.
    + exists rq'. by rewrite lookup_insert_ne.
  - intros r' rq'. rewrite lookup_insert_Some. intros [[<- <-]|[Hn Hl]]; simpl; eauto.
  - intros r' Hin. destruct (inv_completed0 r' Hin) as (rq' & Hl & Hd).
    destruct (decide (r = r')) as [<-|].
    + exists (addPart rq). rewrite lookup_insert_eq. split; [done|]. simpl. congruence.
    + exists rq'. by rewrite lookup_insert_ne.
  - intros r'. rewrite <- inv_accepted0. destruct (decide (r = r')) as [<-|].
    + rewrite lookup_insert_eq, Hr. by split; intros _.
    + by rewrite lookup_insert_ne.
  - intros r' c rws' rq' Hin. rewrite lookup_insert_Some. intros [[<- <-]|[Hn Hl]]; simpl; eauto.
  - intros r' e Hin. destruct (decide (r = r')) as [<-|]; [by rewrite lookup_insert_eq|].
    rewrite lookup_insert_ne by done. eauto.
  - intros i fl r' Hfl Hin. destruct (decide (r = r')) as [<-|]; [by rewrite lookup_insert_eq|].
    rewrite lookup_insert_ne by done. eauto.
Qed.

Lemma openBatch_inv exc w ctx :
  inv exc w -> active (bt w) = None -> inv exc (openBatchLocked WithoutCancel w ctx).
Proof.
  intros Hinv Ha.
  assert (Hparts : parts (openBatchLocked WithoutCancel w ctx) = parts w).
  { unfold parts, waiting, activeList. simpl. by rewrite Ha, !flat_app, flat_nil. }
  destruct Hinv. split; try rewrite Hparts; try done; simpl.
  intros b [= <-]. split_and!; simpl; [done|done| |done|set_solver].
  unfold withinMax. simpl. lia.
Qed.

(** Every row of a batch belongs to one of its requests, and every part of a
    request has a row of its own there. *)
Definition ownedBy (owner : T -> nat) b : Prop :=
  Forall (fun x => owner x ∈ cb_requests b) (rows b) /\ cb_requests b ⊆+ owner <$> rows b.

Lemma ownedBy_row owner b x : ownedBy owner b -> x ∈ rows b -> owner x ∈ cb_requests b.
Proof. intros [H _]. rewrite Forall_forall in H. apply H. Qed.

(** A part has a row when it takes any. *)
Lemma owned_part owner (r : nat) (rws : list T) :
  rws <> [] -> Forall (fun x => owner x = r) rws -> [r] ⊆+ owner <$> rws.
Proof.
  intros Hne Hr. destruct rws as [|x rws]; [done|]. apply Forall_cons in Hr as [<- _].
  apply submseteq_skip, submseteq_nil_l.
Qed.

(** What appending keeps. *)
Definition sameRest w w' : Prop :=
  running w' = running w /\ hist w' = hist w /\ flushes w' = flushes w /\
  config (bt w') = config (bt w) /\ pending (bt w') = pending (bt w) /\
  inFlight (bt w') = inFlight (bt w).

#[local] Instance sameRest_refl : Reflexive sameRest.
Proof. intros w. by split_and!. Qed.
#[local] Instance sameRest_trans : Transitive sameRest.
Proof. intros w1 w2 w3 (?&?&?&?&?&?) (?&?&?&?&?&?). split_and!; congruence. Qed.

Lemma waiting_retired_owned owner w b why a f :
  active (bt w) = Some b -> Forall (ownedBy owner) (waiting w) ->
  Forall (ownedBy owner) (waiting (retired w b why a f)).
Proof.
  intros Ha. unfold waiting, activeList, retired. simpl. rewrite Ha, Forall_app, Forall_singleton.
  intros [Hq Hb]. case_bool_decide; simpl; rewrite app_nil_r; [done|].
  by rewrite Forall_app, Forall_singleton.
Qed.

Lemma appended_waiting w act rws r rq :
  active (bt w) = Some act ->
  flat rows (waiting (appended w act rws r rq)) = flat rows (waiting w) ++ rws.
Proof.
  intros Ha. unfold waiting, activeList. simpl.
  rewrite Ha, !flat_app, !flat_cons, !flat_nil. simpl. by rewrite !app_nil_r, !app_assoc.
Qed.

Lemma appended_owned owner w act rws r rq :
  active (bt w) = Some act -> Forall (ownedBy owner) (waiting w) -> Forall (fun x => owner x = r) rws -> rws <> [] ->
  Forall (ownedBy owner) (waiting (appended w act rws r rq)).
Proof.
  unfold waiting, activeList. simpl. intros ->. rewrite !Forall_app, !Forall_singleton.
  intros [Hq [Hb Hp]] Hr Hne. split; [done|]. unfold ownedBy. simpl. split; [apply Forall_app; split|].
  - eapply Forall_impl; [exact Hb|]. intros x Hx. simpl. set_solver.
  - eapply Forall_impl; [exact Hr|]. intros x <-. simpl. set_solver.
  - rewrite fmap_app. apply submseteq_app; [done|]. by apply owned_part.
Qed.

Lemma appendPart_spec w ctx rws r rq :
  inv (Some r) w -> tight w -> rws <> [] -> requests w !! r = Some rq ->
  exists n w', appendPart WithoutCancel w ctx rws r = Ok (drop n rws, w') /\
    (0 < n)%nat /\ inv (Some r) w' /\ tight w' /\ is_Some (requests w' !! r) /\
    sameRest w w' /\ 0 < occ r (parts w') /\
    flat rows (waiting w') = flat rows (waiting w) ++ take n rws /\
    (forall owner, Forall (fun x => owner x = r) rws -> Forall (ownedBy owner) (waiting w) ->
       Forall (ownedBy owner) (waiting w')).
Proof.
  intros Hinv Htight Hne Hr. unfold appendPart.
  set (w1 := match active (bt w) with None => openBatchLocked WithoutCancel w ctx | Some _ => w end).
  assert (H1 : exists act, active (bt w1) = Some act /\ inv (Some r) w1 /\
    (0 < MaxRowsPerBatch (config (bt w)) ->
      Z.of_nat (length (rows act)) < MaxRowsPerBatch (config (bt w))) /\
    requests w1 = requests w /\ sameRest w w1 /\ flat rows (waiting w1) = flat rows (waiting w) /\
    (forall owner, Forall (ownedBy owner) (waiting w) -> Forall (ownedBy owner) (waiting w1))).
  { unfold w1. destruct (active (bt w)) as [act|] eqn:Ha.
    - exists act. destruct (Htight act Ha). by split_and!.
    - eexists. split_and!; [done|by apply openBatch_inv|simpl; lia|done|by split_and!| |].
      + unfold waiting, activeList. simpl. by rewrite Ha, !flat_app, flat_nil.
      + intros owner. unfold waiting, activeList. simpl. rewrite Ha, app_nil_r, Forall_app.
        intros ?. split; [done|]. apply Forall_singleton. by split; constructor. }
  destruct H1 as (act & Ha1 & Hinv1 & Hlt & Hreq & Hsame1 & Hw1 & Hown1).
  pose proof Hsame1 as (_ & _ & _ & Hcfg & _). rewrite Ha1.
  cbn [panic_if_none mbind outcome_bind]. rewrite Hcfg.
  set (max := MaxRowsPerBatch (config (bt w))) in *.
  set (count := if 0 <? max then Z.min (Z.of_nat (length rws)) (max - Z.of_nat (length (rows act)))
                else Z.of_nat (length rws)).
  assert (Hlen : 0 < Z.of_nat (length rws)) by (destruct rws; simpl; [done|lia]).
  assert (Hcount : 0 < count <= Z.of_nat (length rws) /\
    (0 < max -> count <= max - Z.of_nat (length (rows act)))).
  { unfold count. destruct (Z.ltb_spec 0 max); [|lia]. specialize (Hlt ltac:(lia)). lia. }
  destruct (Z.ltb_spec count 0); [lia|]. rewrite Hreq, Hr.
  cbn [panic_if_none mbind outcome_bind].
  set (n := Z.to_nat count).
  assert (Htake : take n rws <> []).
  { intros E. apply (f_equal length) in E. rewrite length_take in E. simpl in E. lia. }
  set (w2 := appended w1 act (take n rws) r rq).
  assert (Hinv2 : inv (Some r) w2).
  { apply appended_inv; [done|done|by rewrite Hreq|done|]. rewrite Hcfg. fold max.
    rewrite length_take. lia. }
  assert (Hw2 : flat rows (waiting w2) = flat rows (waiting w) ++ take n rws).
  { unfold w2. by rewrite appended_waiting, Hw1. }
  assert (Hown2 : forall owner, Forall (fun x => owner x = r) rws ->
    Forall (ownedBy owner) (waiting w) -> Forall (ownedBy owner) (waiting w2)).
  { intros owner Ho Hb. apply appended_owned; [done|by apply Hown1|by apply Forall_take|done]. }
  assert (Hocc2 : 0 < occ r (parts w2)).
  { unfold w2. rewrite appended_parts, occ_app, occ_cons_eq, occ_nil by done.
    pose proof (occ_nonneg r (parts w1)). lia. }
  assert (Hsame2 : sameRest w w2) by (etrans; [exact Hsame1|by split_and!]).
  assert (Hex2 : is_Some (requests w2 !! r)) by (unfold w2; simpl; by rewrite lookup_insert_eq).
  assert (Hact2 : active (bt w2) = Some (CopyBatch (cb_id act) (cb_ctx act) (rows act ++ take n rws)
    (cb_requests act ++ [r]) (cb_timer act) (queuedAt act) (reason act))) by done.
  rewrite <- Hreq.
  match goal with |- context [withRequests ?X ?Y] => change (withRequests X Y) with w2 end.
  destruct ((0 <? max) && _) eqn:Hfull.
  - pose proof (detach_enqueue w2 CopyBatchFlushReasonFull) as Hd. unfold detachActiveLocked in Hd.
    rewrite Hact2 in Hd. unfold detachActiveLocked. rewrite Hact2.
    match type of Hd with _ = ?w' => exists n, w' end.
    split_and!; [f_equal; f_equal; exact Hd|lia|..].
    + by apply retired_inv.
    + apply retired_tight.
    + done.
    + etrans; [exact Hsame2|]. unfold retired. simpl. case_bool_decide; by split_and!.
    + unfold parts. rewrite retired_waiting; [done|exact Hact2|done|]. simpl.
      intros [_ ?]%app_eq_nil. done.
    + rewrite retired_waiting; [done|exact Hact2|done|done].
    + intros owner Ho Hb. apply waiting_retired_owned; [exact Hact2|]. by apply Hown2.
  - exists n, w2. split_and!; [done|lia|done| |done|done|done|done|done].
    intros b Hb. rewrite Hact2 in Hb. injection Hb as <-. simpl. split.
    { intros [_ ?]%app_eq_nil. done. }
    rewrite Hcfg. fold max. intros Hm. destruct (Z.ltb_spec 0 max); [|lia]. simpl in Hfull.
    apply Z.eqb_neq in Hfull. simpl in Hfull. rewrite length_app, length_take in *. lia.
Qed.

Lemma appendRequest_spec fuel w ctx rws r :
  inv (Some r) w -> tight w -> is_Some (requests w !! r) -> (length rws <= fuel)%nat ->
  (rws = [] -> 0 < occ r (parts w)) ->
  exists w', appendRequestLocked WithoutCancel fuel w ctx rws r = Ok w' /\
    inv (Some r) w' /\ tight w' /\ sameRest w w' /\ 0 < occ r (parts w') /\
    flat rows (waiting w') = flat rows (waiting w) ++ rws /\
    (forall owner, Forall (fun x => owner x = r) rws -> Forall (ownedBy owner) (waiting w) ->
       Forall (ownedBy owner) (waiting w')).
Proof.
  revert w rws. induction fuel as [|fuel IH]; intros w rws Hinv Ht [rq Hr] Hf Hocc.
  all: destruct rws as [|x rws]; [exists w; rewrite app_nil_r; by split_and!; auto|].
  - simpl in Hf. lia.
  - destruct (appendPart_spec w ctx (x :: rws) r rq) as
      (n & w1 & Hrun & Hn & Hinv1 & Ht1 & Hr1 & Hsame1 & Hocc1 & Hw1 & Hown1); [done..|].
    destruct (IH w1 (drop n (x :: rws))) as (w2 & Hrun2 & Hinv2 & Ht2 & Hsame2 & Hocc2 & Hw2 & Hown2).
    { done. } { done. } { done. } { rewrite length_drop. simpl in *. lia. } { done. }
    exists w2. split_and!; [|done|done|by etrans|done| |].
    + cbn [appendRequestLocked]. rewrite Hrun. exact Hrun2.
    + by rewrite Hw2, Hw1, <- app_assoc, take_drop.
    + intros owner Ho Hb. apply Hown2; [by apply Forall_drop|]. by apply Hown1.
Qed.

(** A batch of one whole submission. *)
Lemma enqueueUnbatched_spec w ctx rws r rq :
  inv (Some r) w -> tight w -> requests w !! r = Some rq -> rws <> [] ->
  exists w', enqueueUnbatchedLocked WithoutCancel w ctx rws r = Ok w' /\
    inv (Some r) w' /\ tight w' /\ sameRest w w' /\ 0 < occ r (parts w') /\
    flat rows (waiting w') ≡ₚ flat rows (waiting w) ++ rws /\
    (forall owner, Forall (fun x => owner x = r) rws -> Forall (ownedBy owner) (waiting w) ->
       Forall (ownedBy owner) (waiting w')).
Proof.
  intros Hinv Ht Hr Hne. unfold enqueueUnbatchedLocked. rewrite Hr.
  cbn [panic_if_none mbind outcome_bind].
  unfold enqueueLocked. rewrite bool_decide_eq_false_2 by (simpl; by destruct rws).
  eexists. split; [reflexivity|]. set (w' := World _ _ _ _ _ _ _ _ _ _).
  assert (Hparts : parts w' ≡ₚ parts w ++ [r]).
  { unfold parts, waiting, w'. simpl. unfold activeList at 1. simpl. fold (activeList w).
    rewrite !flat_app, flat_cons, flat_nil. simpl. rewrite <- !app_assoc. solve_Permutation. }
  split_and!.
  - destruct Hinv. split; try done; unfold w'; simpl.
    + apply Forall_app. split; [done|]. apply Forall_singleton. by split.
    + intros r' rq'. fold w'. rewrite (occ_perm _ _ _ Hparts), lookup_insert_Some, occ_app.
      intros [[<- <-]|[Hn Hl]].
      * simpl. rewrite (inv_parts0 r rq Hr), occ_cons_eq, occ_nil. lia.
      * rewrite (inv_parts0 _ _ Hl), occ_cons_ne, occ_nil by done. lia.
    + intros r'. fold w'. rewrite Hparts. intros [Hin| ->%list_elem_of_singleton]%elem_of_app.
      * destruct (decide (r = r')) as [<-|]; [by rewrite lookup_insert_eq|].
        rewrite lookup_insert_ne by done. by apply inv_known0.
      * by rewrite lookup_insert_eq.
    + intros r' rq'. rewrite lookup_insert_Some. intros [[<- <-]|[Hn Hl]]; eauto.
    + intros r' rq'. rewrite lookup_insert_Some. intros [[<- <-]|[Hn Hl]] Hx; [done|]. eauto.
    + intros r' rq' [= <-]. rewrite lookup_insert_eq. intros [= <-]. simpl. eauto.
    + intros r' rq'. rewrite lookup_insert_Some. intros [[<- <-]|[Hn Hl]]; simpl; eauto.
    + intros r' rq'. rewrite lookup_insert_Some. intros [[<- <-]|[Hn Hl]]; simpl; eauto.
    + intros r' Hin. destruct (inv_pending0 r' Hin) as (rq' & Hl & Hd).
      destruct (decide (r = r')) as [<-|].
      * exists (addPart rq). rewrite lookup_insert_eq. split; [done|]. simpl.
        assert (rq' = rq) as -> by congruence. done.
      * exists rq'. by rewrite lookup_insert_ne.
    + intros r' rq'. rewrite lookup_insert_Some. intros [[<- <-]|[Hn Hl]]; simpl; eauto.
    + intros r' Hin. destruct (inv_completed0 r' Hin) as (rq' & Hl & Hd).
      destruct (decide (r = r')) as [<-|].
      * exists (addPart rq). rewrite lookup_insert_eq. split; [done|]. simpl. congruence.
      * exists rq'. by rewrite lookup_insert_ne.
    + intros r'. rewrite <- inv_accepted0. destruct (decide (r = r')) as [<-|].
      * rewrite lookup_insert_eq, Hr. by split; intros _.
      * by rewrite lookup_insert_ne.
    + intros r' c rws' rq' Hin. rewrite lookup_insert_Some. intros [[<- <-]|[Hn Hl]]; simpl; eauto.
    + intros r' e Hin. destruct (decide (r = r')) as [<-|]; [by rewrite lookup_insert_eq|].
      rewrite lookup_insert_ne by done. eauto.
    + intros i fl r' Hfl Hin. destruct (decide (r = r')) as [<-|]; [by rewrite lookup_insert_eq|].
      rewrite lookup_insert_ne by done. eauto.
  - exact Ht.
  - by split_and!.
  - rewrite (occ_perm _ _ _ Hparts), occ_app, occ_cons_eq, occ_nil.
    pose proof (occ_nonneg r (parts w)). lia.
  - unfold waiting, w'. simpl. unfold activeList at 1. simpl. fold (activeList w).
    rewrite !flat_app, flat_cons, flat_nil. simpl. solve_Permutation.
  - intros owner Ho Hb. unfold waiting, w' in *. simpl. unfold activeList at 1. simpl.
    fold (activeList w). apply Forall_app in Hb as [Hq Ha]. rewrite !Forall_app, Forall_singleton.
    split_and!; [done| |done]. unfold ownedBy. simpl. split; [|by apply owned_part].
    eapply Forall_impl; [exact Ho|]. intros y <-. simpl. set_solver.
Qed.

(** ** Submitting *)

(** The world in which the next request is registered for [rws]. *)
Definition registered w (coalesce : bool) (rws : list T) : worldT :=
  let h := hist w in
  World (setPending (bt w) ({[nextRequest w]} ∪ pending (bt w)))
    (<[nextRequest w := newCopyRequest (Z.of_nat (length rws))]> (requests w)) (S (nextRequest w))
    (nextBatch w) (armed w) (fired w) (running w) (flushes w) (now w)
    (History (accepted h ++ [(nextRequest w, coalesce, rws)]) (dispatched h) (copied h)
       (finished h) (observed h)).

Lemma errorsOf_none r l : (forall e, (r, e) ∉ l) -> errorsOf r l = [].
Proof.
  intros H. unfold errorsOf. induction l as [|[r' e] l IH]; [done|]. simpl.
  destruct (decide (r' = r)) as [->|].
  - destruct (H e). left.
  - apply IH. intros e' He. apply (H e'). by right.
Qed.

Lemma registered_inv w coalesce rws :
  inv None w -> inv (Some (nextRequest w)) (registered w coalesce rws).
Proof.
  intros Hinv. set (id := nextRequest w).
  assert (Hnone : requests w !! id = None).
  { destruct (requests w !! id) as [rq|] eqn:E; [|done]. apply (inv_fresh _ _ Hinv) in E. lia. }
  assert (Hocc : occ id (parts w) = 0).
  { destruct (decide (id ∈ parts w)) as [Hin|Hin].
    - apply (inv_known _ _ Hinv) in Hin as [? ?]. congruence.
    - rewrite occ_pos in Hin. pose proof (occ_nonneg id (parts w)). lia. }
  destruct Hinv. split; try done; simpl; fold id.
  - change (parts (registered w coalesce rws)) with (parts w).
    intros r rq. rewrite lookup_insert_Some. intros [[<- <-]|[Hn Hl]]; [done|by apply inv_parts0].
  - intros r Hr. destruct (decide (id = r)) as [<-|]; [by rewrite lookup_insert_eq|].
    rewrite lookup_insert_ne by done. by apply inv_known0.
  - intros r rq. rewrite lookup_insert_Some. intros [[<- <-]|[Hn Hl]]; [lia|].
    apply inv_fresh0 in Hl. lia.
  - intros r rq. rewrite lookup_insert_Some. intros [[<- <-]|[Hn Hl]] Hx; [done|].
    by apply (inv_done0 r rq Hl).
  - intros r rq [= <-]. rewrite lookup_insert_eq. by intros [= <-].
  - intros r rq. rewrite lookup_insert_Some. intros [[<- <-]|[Hn Hl]]; [|by apply inv_errs0].
    simpl. symmetry. apply errorsOf_none. intros e He%inv_finished0. rewrite Hnone in He.
    by destruct He.
  - intros r rq. rewrite lookup_insert_Some. intros [[<- <-]|[Hn Hl]]; [done|].
    by apply (inv_result0 r).
  - intros r [->%elem_of_singleton|Hr]%elem_of_union.
    + eexists. rewrite lookup_insert_eq. split; [done|by left].
    + destruct (inv_pending0 r Hr) as (rq & Hl & Hd). exists rq.
      by rewrite lookup_insert_ne by congruence.
  - intros r rq. rewrite lookup_insert_Some. intros [[<- <-]|[Hn Hl]] Hd; [set_solver|].
    apply elem_of_union_r. by eapply inv_unresolved0.
  - intros r Hin. destruct (inv_completed0 r Hin) as (rq & Hl & Hd). exists rq.
    by rewrite lookup_insert_ne by congruence.
  - intros r. rewrite fmap_app, elem_of_app, <- inv_accepted0. simpl.
    rewrite list_elem_of_singleton. destruct (decide (id = r)) as [<-|].
    + rewrite lookup_insert_eq. split; [by right|by eexists].
    + rewrite lookup_insert_ne by done. naive_solver.
  - intros r c rws' rq. rewrite elem_of_app, list_elem_of_singleton.
    intros [Hin|[= -> -> ->]]; rewrite lookup_insert_Some.
    + assert (Hr : is_Some (requests w !! r)).
      { apply inv_accepted0, list_elem_of_fmap. by exists (r, c, rws'). }
      intros [[<- _]|[_ Hl]]; [by rewrite Hnone in Hr; destruct Hr|]. by eapply inv_rowCount0.
    + intros [[_ <-]|[? _]]; [done|done].
  - intros r e He. apply inv_finished0 in He. rewrite lookup_insert_is_Some. 
    destruct (decide (id = r)); tauto.
  - intros i fl r Hfl Hr. rewrite lookup_insert_is_Some.
    destruct (decide (id = r)); [by left|right]. split; [done|]. by eapply inv_flushes0.
Qed.

(** A submitted request with parts is like any other. *)
Lemma inv_close w r : inv (Some r) w -> 0 < occ r (parts w) -> inv None w.
Proof.
  intros [] Hocc. split; try done.
  intros r' rq Hl _. destruct (decide (r = r')) as [<-|Hne].
  - rewrite (inv_exc0 r rq eq_refl Hl), (inv_parts0 r rq Hl). split; [done|lia].
  - apply (inv_done0 r'); [done|]. congruence.
Qed.

Lemma waiting_launch_fifo w bs q :
  flat rows bs ++ flat rows q = flat rows (queue (bt w)) ->
  flat rows (dispatched (hist (launch w bs q))) ++ flat rows (waiting (launch w bs q)) =
  flat rows (dispatched (hist w)) ++ flat rows (waiting w).
Proof.
  intros H. unfold waiting, activeList. simpl. rewrite !flat_app, <- H. by rewrite <- !app_assoc.
Qed.

(** An accepted submission: the request is registered, its rows are appended to
    the waiting batches, and the queue is scheduled. *)
Lemma submit_accepted w ctx rws coalesce :
  inv None w -> tight w -> rws <> [] ->
  exists w2 w', submit WithoutCancel w ctx None None rws coalesce = Ok (SRequest (nextRequest w), w') /\
    scheduleAndDispatch w2 = Ok w' /\ inv None w2 /\ tight w2 /\
    sameRest (registered w coalesce rws) w2 /\
    flat rows (waiting w2) ≡ₚ flat rows (waiting w) ++ rws /\
    (coalesce = true -> flat rows (waiting w2) = flat rows (waiting w) ++ rws) /\
    (forall owner, Forall (fun x => owner x = nextRequest w) rws ->
       Forall (ownedBy owner) (waiting w) -> Forall (ownedBy owner) (waiting w2)).
Proof.
  intros Hinv Ht Hne. unfold submit. rewrite bool_decide_eq_false_2 by (by destruct rws).
  set (id := nextRequest w).
  pose proof (registered_inv w coalesce rws Hinv) as Hinv1. fold id in Hinv1.
  set (w1 := registered w coalesce rws) in *.
  assert (Hr1 : requests w1 !! id = Some (newCopyRequest (Z.of_nat (length rws))))
    by (by apply lookup_insert_eq).
  assert (H2 : exists w2, (if coalesce then appendRequestLocked WithoutCancel (length rws) w1 ctx rws id
      else enqueueUnbatchedLocked WithoutCancel w1 ctx rws id) = Ok w2 /\
    inv (Some id) w2 /\ tight w2 /\ sameRest w1 w2 /\ 0 < occ id (parts w2) /\
    flat rows (waiting w2) ≡ₚ flat rows (waiting w1) ++ rws /\
    (coalesce = true -> flat rows (waiting w2) = flat rows (waiting w1) ++ rws) /\
    (forall owner, Forall (fun x => owner x = id) rws ->
       Forall (ownedBy owner) (waiting w1) -> Forall (ownedBy owner) (waiting w2))).
  { destruct coalesce.
    - destruct (appendRequest_spec (length rws) w1 ctx rws id)
        as (w2 & ? & ? & ? & ? & ? & Hw & ?); [done|done|by eexists|done|done|].
      exists w2. by split_and!; rewrite ?Hw.
    - destruct (enqueueUnbatched_spec w1 ctx rws id _ Hinv1 Ht Hr1 Hne)
        as (w2 & ? & ? & ? & ? & ? & ? & ?). exists w2. by split_and!. }
  destruct H2 as (w2 & Hrun & Hinv2 & Ht2 & Hsame & Hocc & Hw & Hfifo & Hown).
  pose proof (inv_close w2 id Hinv2 Hocc) as Hinv3.
  destruct (schedule_inv None w2 Hinv3) as (w' & Hs & _).
  exists w2, w'. split_and!; [|done..].
  match goal with |- context [World ?a ?b ?c ?d ?e ?f ?g ?h ?i ?j] =>
    change (World a b c d e f g h i j) with w1 end.
  rewrite Hrun. cbn [mbind outcome_bind]. by rewrite Hs.
Qed.

(** ** Goroutines *)

Lemma flat_delete {A B} (f : A -> list B) l i x :
  l !! i = Some x -> flat f l ≡ₚ f x ++ flat f (delete i l).
Proof. intros H. rewrite <- flat_cons. apply flat_perm. by apply delete_Permutation. Qed.

Lemma delete_insert_same {A} (l : list A) i y : delete i (<[i := y]> l) = delete i l.
Proof. revert i. induction l as [|x l IH]; intros [|i]; [done..|]. simpl. f_equal. apply IH. Qed.

Lemma flat_insert {A B} (f : A -> list B) l i x y :
  l !! i = Some x -> f x ++ flat f (<[i := y]> l) ≡ₚ f y ++ flat f l.
Proof.
  intros H. rewrite (flat_delete f (<[i := y]> l) i y), (flat_delete f l i x) by
    (try done; apply list_lookup_insert_eq; by eapply lookup_lt_Some).
  rewrite delete_insert_same. solve_Permutation.
Qed.

Lemma flat_insert_same {A B} (f : A -> list B) l i x y :
  l !! i = Some x -> f y = f x -> flat f (<[i := y]> l) ≡ₚ flat f l.
Proof.
  intros H Hf. pose proof (flat_insert f l i x y H) as Hp. rewrite Hf in Hp.
  by apply Permutation_app_inv_l in Hp.
Qed.

(** The invariant after replacing a goroutine by one that owes the same. *)
Lemma replaced_inv exc w i g g' :
  inv exc w -> running w !! i = Some g ->
  gParts g' = gParts g -> gOutcomes g' = gOutcomes g -> gCompleted g' = gCompleted g ->
  (gOk (MaxRowsPerBatch (config (bt w))) g -> gOk (MaxRowsPerBatch (config (bt w))) g') ->
  inv exc (withRunning w (<[i := g']> (running w))).
Proof.
  intros Hinv Hi Hp Ho Hc Hok.
  assert (Hparts : parts (withRunning w (<[i := g']> (running w))) ≡ₚ parts w).
  { unfold parts. simpl. by rewrite (flat_insert_same gParts _ i g g'). }
  destruct Hinv. split; try done; simpl.
  - apply Forall_insert; [done|]. apply Hok. by eapply Forall_lookup_1.
  - by rewrite length_insert.
  - intros r rq Hr. rewrite (occ_perm _ _ _ Hparts). by apply inv_parts0.
  - intros r. rewrite Hparts. apply inv_known0.
  - intros r Hr. destruct (inv_pending0 r Hr) as (rq & ? & Hd). exists rq. split; [done|].
    by rewrite (flat_insert_same gCompleted _ i g g').
  - intros r. rewrite (flat_insert_same gCompleted _ i g g') by done. apply inv_completed0.
  - by rewrite (flat_insert_same gOutcomes _ i g g').
Qed.

Lemma start_inv w w' i : inv None w -> startBatch w i = Some w' -> inv None w'.
Proof.
  intros Hinv. unfold startBatch. destruct (running w !! i) as [[b| |]|] eqn:Hi; [|done..].
  intros [= <-]. by apply (replaced_inv _ w i (GReady b)).
Qed.

Lemma copyReturns_inv w w' i count err :
  inv None w -> copyReturns w i count err = Some w' -> inv None w'.
Proof.
  intros Hinv. unfold copyReturns. destruct (running w !! i) as [[|b at_|]|] eqn:Hi; [done| |done..].
  intros [= <-]. set (e := copyError b count err).
  set (g := GFinish e (cb_requests b) []).
  set (w1 := withRunning w (<[i := g]> (running w))).
  assert (Hparts : parts w1 ≡ₚ parts w).
  { unfold parts, w1. simpl. by rewrite (flat_insert_same gParts _ i (GCopy b at_) g). }
  assert (Hcomp : flat gCompleted (<[i := g]> (running w)) ≡ₚ flat gCompleted (running w))
    by (by apply (flat_insert_same gCompleted _ i (GCopy b at_) g)).
  assert (Hok : gOk (MaxRowsPerBatch (config (bt w))) (GCopy b at_)).
  { eapply Forall_lookup_1; [apply Hinv|done]. }
  destruct Hinv. split; try done; simpl.
  - by apply Forall_insert.
  - apply Forall_app. split; [done|]. apply Forall_singleton. exact Hok.
  - by rewrite length_insert.
  - intros r rq Hr. change (pendingParts rq = occ r (parts w1)).
    rewrite (occ_perm _ _ _ Hparts). by apply inv_parts0.
  - intros r Hr. change (r ∈ parts w1) in Hr. rewrite Hparts in Hr. by apply inv_known0.
  - intros r Hr. destruct (inv_pending0 r Hr) as (rq & ? & ?). exists rq. by rewrite Hcomp.
  - intros r. rewrite Hcomp. apply inv_completed0.
  - pose proof (flat_insert gOutcomes (running w) i (GCopy b at_) g Hi) as Hp. simpl in Hp.
    rewrite Hp, flat_app, flat_cons, flat_nil, app_nil_r, inv_outcomes0.
    unfold outcomes. simpl. solve_Permutation.
Qed.

Lemma errorsOf_snoc r l r' e :
  errorsOf r (l ++ [(r', e)]) = errorsOf r l ++ (if decide (r' = r) then option_list e else []).
Proof.
  unfold errorsOf. rewrite omap_app. simpl. destruct (decide (r' = r)); [|done]. by destruct e.
Qed.

(** What finishing a part does to a request that was not done. *)
Lemma finishPart_spec rq err rq' last :
  f_done (rq_result rq) = false -> finishPart rq err = (rq', last) ->
  rowCount rq' = rowCount rq /\ errs rq' = errs rq ++ option_list err /\
  pendingParts rq' = pendingParts rq - 1 /\ last = bool_decide (pendingParts rq = 1) /\
  (last = false -> rq_result rq' = rq_result rq) /\
  (last = true -> rq_result rq' = MkFuture true (match errs rq' with [] => rowCount rq' | _ => 0 end)
                     (errorsJoin (errs rq'))).
Proof.
  intros Hd. unfold finishPart.
  assert (He : match err with Some e => errs rq ++ [e] | None => errs rq end =
    errs rq ++ option_list err) by (destruct err; simpl; by rewrite ?app_nil_r).
  rewrite He. destruct (Z.eqb_spec (pendingParts rq - 1) 0) as [Hz|Hz]; simpl.
  - rewrite (bool_decide_eq_true_2 (pendingParts rq = 1)) by lia. unfold resolve. rewrite Hd.
    destruct (errs rq ++ option_list err) as [|e l] eqn:El; intros [= <- <-]; simpl; by split_and!.
  - rewrite (bool_decide_eq_false_2 (pendingParts rq = 1)) by lia. intros [= <- <-]. by split_and!.
Qed.

Lemma finishOne_inv w w' i : inv None w -> finishOne w i = Some w' -> inv None w'.
Proof.
  intros Hinv. unfold finishOne.
  destruct (running w !! i) as [[| |err [|r todo] completed]|] eqn:Hi; [done..| |done].
  destruct (requests w !! r) as [rq|] eqn:Hr; [|done].
  destruct (finishPart rq err) as [rq' last] eqn:Hf. intros [= <-].
  set (g := GFinish err todo (if last then completed ++ [r] else completed)).
  set (w1 := withRunning w (<[i := g]> (running w))).
  pose proof (flat_insert gParts (running w) i _ g Hi) as Hp. simpl in Hp.
  assert (Hparts : parts w ≡ₚ r :: parts w1).
  { unfold parts, w1. simpl. apply (Permutation_app_inv_l todo). rewrite app_assoc, <- Hp. solve_Permutation. }
  assert (Hpos : 0 < pendingParts rq).
  { rewrite (inv_parts _ _ Hinv r rq Hr). rewrite (occ_perm _ _ _ Hparts), occ_cons_eq.
    pose proof (occ_nonneg r (parts w1)). lia. }
  assert (Hnd : f_done (rq_result rq) = false).
  { apply not_true_is_false. intros Hd. apply (inv_done _ _ Hinv r rq Hr) in Hd; [lia|done]. }
  destruct (finishPart_spec rq err rq' last Hnd Hf) as (Hrc & He & Hpp & Hlast & Hkeep & Hres).
  pose proof (flat_insert gCompleted (running w) i _ g Hi) as Hc. simpl in Hc.
  assert (Hcomp : flat gCompleted (<[i := g]> (running w)) ≡ₚ
    (if last then [r] else []) ++ flat gCompleted (running w)).
  { apply (Permutation_app_inv_l completed). rewrite Hc. unfold g. destruct last; simpl; solve_Permutation. }
  assert (Hdone' : f_done (rq_result rq') = last).
  { destruct last; [by rewrite Hres|by rewrite Hkeep]. }
  destruct Hinv. split; try done; simpl.
  - apply Forall_insert; [done|]. done.
  - by rewrite length_insert.
  - intros r' rq1. change (parts _) with (parts w1). rewrite lookup_insert_Some.
    intros [[<- <-]|[Hn Hl]].
    + rewrite Hpp, (inv_parts0 r rq Hr), (occ_perm _ _ _ Hparts), occ_cons_eq. lia.
    + rewrite (inv_parts0 r' rq1 Hl), (occ_perm _ _ _ Hparts), occ_cons_ne by done. done.
  - intros r' Hin. change (r' ∈ parts w1) in Hin. rewrite lookup_insert_is_Some.
    destruct (decide (r = r')); [by left|right]. split; [done|]. apply inv_known0. rewrite Hparts. by right.
  - intros r' rq1. rewrite lookup_insert_Some. intros [[<- <-]|[Hn Hl]]; eauto.
  - intros r' rq1. rewrite lookup_insert_Some. intros [[<- <-]|[Hn Hl]] Hx.
    + rewrite Hdone', Hlast, Hpp, bool_decide_eq_true. lia.
    + by apply (inv_done0 r').
  - intros r' rq1. rewrite lookup_insert_Some, errorsOf_snoc. intros [[<- <-]|[Hn Hl]].
    + rewrite He, (inv_errs0 r rq Hr). by rewrite decide_True by done.
    + rewrite decide_False, app_nil_r by done. by apply inv_errs0.
  - intros r' rq1. rewrite lookup_insert_Some. intros [[<- <-]|[Hn Hl]]; [|by apply (inv_result0 r')].
    rewrite Hdone'. done.
  - intros r' Hin. destruct (inv_pending0 r' Hin) as (rq1 & Hl & Hd).
    destruct (decide (r = r')) as [<-|].
    + exists rq'. rewrite lookup_insert_eq, Hdone', Hcomp. split; [done|].
      destruct last; [right; set_solver|by left].
    + exists rq1. rewrite lookup_insert_ne, Hcomp, elem_of_app by done. split; [done|]. tauto.
  - intros r' rq1. rewrite lookup_insert_Some. intros [[<- <-]|[Hn Hl]] Hd; [|by eapply inv_unresolved0].
    by apply (inv_unresolved0 r rq).
  - intros r'. rewrite Hcomp, elem_of_app. intros [Hin|Hin].
    + exists rq'. destruct last; [|by apply elem_of_nil in Hin].
      apply list_elem_of_singleton in Hin as ->. by rewrite lookup_insert_eq.
    + destruct (inv_completed0 r' Hin) as (rq1 & Hl & Hd). exists rq1.
      rewrite lookup_insert_ne; [done|]. intros ->. congruence.
  - intros r'. rewrite <- inv_accepted0. rewrite lookup_insert_is_Some'. split; [|by right].
    intros [<-|]; [by rewrite Hr|done].
  - intros r' c rws rq1 Hin. rewrite lookup_insert_Some. intros [[<- <-]|[Hn Hl]]; [|by eapply inv_rowCount0].
    rewrite Hrc. by eapply inv_rowCount0.
  - intros r' e. rewrite elem_of_app, list_elem_of_singleton, lookup_insert_is_Some'.
    intros [Hin|[= -> ->]]; [right; by eapply inv_finished0|by left].
  - pose proof (flat_insert gOutcomes (running w) i _ g Hi) as Hpo. simpl in Hpo.
    rewrite inv_outcomes0, <- app_assoc. f_equiv. simpl.
    apply (Permutation_app_inv_l ((fun r => (r, err)) <$> todo)). rewrite <- Hpo. solve_Permutation.
  - intros j fl r' Hfl Hin. rewrite lookup_insert_is_Some'. right. by eapply inv_flushes0.
Qed.

End Invariant.
