(* ===== verification/CopyBatchSteps.v ===== *)
(** * CopyBatchSteps: every event of the copy batcher preserves its invariant

    The invariant of [CopyBatchInv] with the account of the rows: where each
    accepted row is, in which order rows are dispatched, and which request a
    batch's rows belong to. [exec_good] shows that no event panics or leaves it. *)

From S2P Require Import Prelude Errors Future Telemetry CopyBatch CopyBatchInv.

#[local] Open Scope Z_scope.

Section Steps.
Context {T Ctx : Type} (WithoutCancel : Ctx -> Ctx).
#[local] Abbreviation worldT := (world (T := T) (Ctx := Ctx)).
#[local] Abbreviation batchT := (copyBatch (T := T) (Ctx := Ctx)).
Implicit Types (w : worldT) (b : batchT).

(** ** Completion, timers and flushes *)

(** The world in which goroutine [i] took its completed requests off. *)
Definition ended w (i : nat) (completed : list nat) : worldT :=
  withRunning (withBt w (setInFlight (setPending (bt w) (pending (bt w) ∖ list_to_set completed))
    (inFlight (bt w) - 1))) (delete i (running w)).

Lemma ended_inv w i err completed :
  inv None w -> running w !! i = Some (GFinish err [] completed) -> inv None (ended w i completed).
Proof.
  intros Hinv Hi.
  pose proof (flat_delete gParts (running w) i _ Hi) as Hp. simpl in Hp.
  assert (Hparts : parts w ≡ₚ parts (ended w i completed)).
  { unfold parts, ended. simpl. by rewrite Hp. }
  pose proof (flat_delete gCompleted (running w) i _ Hi) as Hc. simpl in Hc.
  pose proof (flat_delete gOutcomes (running w) i _ Hi) as Ho. simpl in Ho.
  pose proof (lookup_lt_Some _ _ _ Hi) as Hlt.
  destruct Hinv. split; try done; simpl.
  - apply Forall_delete. done.
  - rewrite length_delete by done. lia.
  - intros r rq Hr. rewrite <- (occ_perm _ _ _ Hparts). by apply inv_parts.
  - intros r Hr. apply inv_known. by rewrite Hparts.
  - intros r [Hr Hn]%elem_of_difference. destruct (inv_pending r Hr) as (rq & Hl & Hd).
    exists rq. split; [done|]. destruct Hd as [?|Hd]; [by left|right].
    rewrite Hc in Hd. apply elem_of_app in Hd as [Hd|]; [|done]. set_solver.
  - intros r rq Hl Hd. apply elem_of_difference. split; [by eapply inv_unresolved|].
    rewrite elem_of_list_to_set. intros Hin.
    destruct (inv_completed r) as (rq' & Hl' & Hd'); [rewrite Hc; set_solver|]. congruence.
  - intros r Hr. apply inv_completed. rewrite Hc. set_solver.
  - by rewrite <- Ho.
Qed.

(** Timers only matter through the active batch's. *)
Lemma timers_inv exc w a f :
  inv exc w -> (forall b, active (bt w) = Some b -> cb_id b ∈ a ∪ f) -> inv exc (withTimers w a f).
Proof.
  intros [] Hid. split; try done. simpl. intros b Hb.
  destruct (inv_active b Hb) as (? & ? & ? & ? & _). split_and!; [done..|]. by apply Hid.
Qed.

Lemma flushes_inv w l :
  inv None w -> (forall i fl r, l !! i = Some fl -> r ∈ fl_todo fl -> is_Some (requests w !! r)) ->
  inv None (withFlushes w l).
Proof. intros [] Hl. by split. Qed.

(** ** The account of the rows *)

Definition ownerOk (owner : T -> nat) w : Prop :=
  forall id c rws, (id, c, rws) ∈ accepted (hist w) -> Forall (fun x => owner x = id) rws.

Definition gOwned (owner : T -> nat) (g : goroutine (T := T) (Ctx := Ctx)) : Prop :=
  match g with GReady b | GCopy b _ => ownedBy owner b | GFinish _ _ _ => True end.

Record owned (owner : T -> nat) w : Prop := {
  ow_waiting : Forall (ownedBy owner) (waiting w);
  ow_running : Forall (gOwned owner) (running w);
  ow_copied : Forall (fun x => ownedBy owner x.1) (copied (hist w));
}.

Record rinv w : Prop := {
  ri_rows : acceptedRows w ≡ₚ copiedRows w ++ liveRows w;
  ri_fifo : Forall (fun x => x.1.2 = true) (accepted (hist w)) ->
    flat rows (dispatched (hist w)) ++ flat rows (waiting w) = acceptedRows w;
  ri_owned owner : ownerOk owner w -> owned owner w;
}.

Record good w : Prop := {
  g_inv : inv None w;
  g_tight : tight w;
  g_wc : workConserving w;
  g_rows : rinv w;
}.

(** Merging and scheduling keep ownership. *)
Lemma merge_owned owner max b q b' q' :
  mergeLinger max b q = (b', q') -> ownedBy owner b -> Forall (ownedBy owner) q ->
  ownedBy owner b' /\ Forall (ownedBy owner) q'.
Proof.
  revert b. induction q as [|x q IH]; intros b; simpl; [by intros [= <- <-]|].
  destruct (isLinger x); simpl; [|by intros [= <- <-]].
  destruct (_ && _); [by intros [= <- <-]|]. intros Hm Hb Hq.
  apply Forall_cons in Hq as [Hx Hq]. apply (IH _ Hm); [|done].
  destruct Hb as [Hb Hbp], Hx as [Hx Hxp]. split; simpl; [|rewrite fmap_app; by apply submseteq_app].
  apply Forall_app. split; [eapply Forall_impl; [exact Hb|]
    |eapply Forall_impl; [exact Hx|]]; intros y Hy; simpl; set_solver.
Qed.

Lemma scheduleLoop_owned (owner : T -> nat) fuel max capacity (q bs : list batchT) q' :
  scheduleLoop fuel max capacity q = Ok (bs, q') -> Forall (ownedBy owner) q ->
  Forall (ownedBy owner) bs /\ Forall (ownedBy owner) q'.
Proof.
  revert capacity q bs. induction fuel as [|fuel IH]; intros capacity q bs; simpl.
  - destruct (_ || _); [|done]. by intros [= <- <-].
  - destruct (_ || _); [by intros [= <- <-]|]. unfold dequeueLocked.
    destruct q as [|b q]; simpl; [done|]. intros Hs [Hb Hq]%Forall_cons.
    assert (Hd : exists b1 q1, (if negb (isLinger b) then mret (b, q) else mret (mergeLinger max b q))
      = (Ok (b1, q1) : result (batchT * list batchT)) /\ ownedBy owner b1 /\ Forall (ownedBy owner) q1).
    { destruct (isLinger b); simpl; [|by exists b, q].
      destruct (mergeLinger max b q) as [b1 q1] eqn:E. exists b1, q1.
      by destruct (merge_owned owner _ _ _ _ _ E Hb Hq). }
    destruct Hd as (b1 & q1 & Hd & Hb1 & Hq1). rewrite Hd in Hs. simpl in Hs.
    destruct (scheduleLoop fuel max (capacity - 1) q1) as [[bs2 q2]| |] eqn:E; [|done..].
    simpl in Hs. injection Hs as <- <-. destruct (IH _ _ _ E Hq1). split; [by constructor|done].
Qed.

Lemma schedule_owned owner w w' :
  scheduleAndDispatch w = Ok w' -> owned owner w -> owned owner w'.
Proof.
  unfold scheduleAndDispatch, scheduleLocked. intros Hs [Hw Hr Hc].
  destruct (_ || _); simpl in Hs.
  { injection Hs as <-. split; [done| |done]. simpl. by rewrite app_nil_r. }
  destruct (scheduleLoop _ _ _ _) as [[bs q]| |] eqn:E; simpl in Hs; [|done..].
  injection Hs as <-. unfold waiting in Hw. apply Forall_app in Hw as [Hq Ha].
  destruct (scheduleLoop_owned owner _ _ _ _ _ _ E Hq). split; simpl.
  - unfold waiting. simpl. by apply Forall_app.
  - apply Forall_app. split; [done|]. by apply Forall_fmap.
  - done.
Qed.

(** Scheduling keeps the whole account. *)
Lemma schedule_rinv w w' :
  inv None w -> rinv w -> scheduleAndDispatch w = Ok w' -> rinv w'.
Proof.
  intros Hinv [Hrows Hfifo Howned] Hs.
  destruct (scheduleAndDispatch_spec w) as (bs & q & Hrun & _ & _ & Hr & _ & _ & _); [apply Hinv..|].
  assert (w' = launch w bs q) as -> by congruence. split.
  - by rewrite liveRows_launch.
  - intros Hc. by rewrite waiting_launch_fifo, Hfifo.
  - intros owner Ho. eapply schedule_owned; [exact Hrun|]. by apply Howned.
Qed.

(** A world that differs only in bookkeeping. *)
Lemma rinv_frame w w' :
  rinv w -> accepted (hist w') = accepted (hist w) -> copied (hist w') = copied (hist w) ->
  dispatched (hist w') = dispatched (hist w) -> running w' = running w ->
  flat rows (waiting w') = flat rows (waiting w) ->
  (forall owner, Forall (ownedBy owner) (waiting w) -> Forall (ownedBy owner) (waiting w')) ->
  rinv w'.
Proof.
  intros [Hr Hf Ho] Ha Hc Hd Hg Hw Hown.
  split; unfold acceptedRows, copiedRows, liveRows in *; rewrite ?Ha, ?Hc, ?Hd, ?Hg, ?Hw; [done..|].
  intros owner Hok. destruct (Ho owner) as [H1 H2 H3].
  - unfold ownerOk in *. by rewrite Ha in Hok.
  - split; [by apply Hown|by rewrite Hg|by rewrite Hc].
Qed.

Lemma retired_rinv exc w b why a f :
  inv exc w -> rinv w -> active (bt w) = Some b -> rinv (retired w b why a f).
Proof.
  intros Hinv Hr Ha. apply (rinv_frame w); [done..| |].
  - by apply retired_waiting.
  - intros owner. by apply waiting_retired_owned.
Qed.

(** ** Every event *)

Lemma schedule_good w :
  inv None w -> tight w -> rinv w -> exists w', scheduleAndDispatch w = Ok w' /\ good w'.
Proof.
  intros Hinv Ht Hr. destruct (schedule_inv None w Hinv) as (w' & Hs & Hinv' & Hwc & Ht').
  exists w'. split; [done|]. split; [done|by apply Ht'|done|exact (schedule_rinv w w' Hinv Hr Hs)].
Qed.

Lemma acceptedRows_snoc w w' x :
  accepted (hist w') = accepted (hist w) ++ [x] -> acceptedRows w' = acceptedRows w ++ x.2.
Proof. intros H. unfold acceptedRows. by rewrite H, flat_app, flat_cons, flat_nil, app_nil_r. Qed.

Lemma submit_good w ctx e1 e2 rws coalesce :
  good w -> exists f w', submit WithoutCancel w ctx e1 e2 rws coalesce = Ok (f, w') /\ good w'.
Proof.
  intros Hg. destruct (decide (rws = [])) as [->|Hne].
  { eexists _, w. split; [reflexivity|done]. }
  destruct e1 as [e1|].
  { unfold submit. rewrite bool_decide_eq_false_2 by (by destruct rws).
    eexists _, w. split; [reflexivity|done]. }
  destruct e2 as [e2|].
  { unfold submit. rewrite bool_decide_eq_false_2 by (by destruct rws).
    eexists _, w. split; [reflexivity|done]. }
  destruct Hg as [Hinv Ht _ [Hrows Hfifo Howned]].
  destruct (submit_accepted WithoutCancel w ctx rws coalesce Hinv Ht Hne)
    as (w2 & w' & Hsub & Hs & Hinv2 & Ht2 & (Hg & Hh & _) & Hw & Hf & Hown).
  assert (Hr2 : rinv w2).
  { assert (Hacc : acceptedRows w2 = acceptedRows w ++ rws).
    { by apply (acceptedRows_snoc w w2 (nextRequest w, coalesce, rws)); rewrite Hh. }
    split.
    - rewrite Hacc, Hrows. unfold copiedRows, liveRows. rewrite Hh, Hg, Hw. simpl.
      by rewrite !app_assoc.
    - rewrite Hacc, Hh. simpl. rewrite Forall_app, Forall_singleton. simpl. intros [Hc1 Hc2].
      by rewrite (Hf Hc2), app_assoc, (Hfifo Hc1).
    - intros owner Hok. assert (Hok1 : ownerOk owner w).
      { intros id c r Hin. apply (Hok id c). rewrite Hh. simpl. set_solver. }
      destruct (Howned owner Hok1) as [H1 H2 H3]. split.
      + apply Hown; [|done]. apply (Hok (nextRequest w) coalesce). rewrite Hh. simpl. set_solver.
      + by rewrite Hg.
      + by rewrite Hh. }
  destruct (schedule_good w2 Hinv2 Ht2 Hr2) as (w3 & Hs3 & Hgood).
  assert (w3 = w') as -> by congruence. eexists _, w'. split; [exact Hsub|done].
Qed.

Lemma flushExpired_good w id :
  good w -> id ∈ fired w -> exists w', flushExpiredBatch w id = Ok w' /\ good w'.
Proof.
  intros [Hinv Ht Hwc Hr] Hid. unfold flushExpiredBatch.
  assert (Hsame : forall b, active (bt w) = Some b -> cb_id b <> id ->
    cb_id b ∈ armed w ∪ fired w ∖ {[id]}).
  { intros b Hb Hn. destruct (inv_active _ _ Hinv b Hb) as (_ & _ & _ & _ & ?). set_solver. }
  destruct (active (bt w)) as [b|] eqn:Ha; simpl; rewrite Ha.
  - case_bool_decide as Hc.
    + apply (schedule_good (retired w b CopyBatchFlushReasonLinger (armed w) (fired w ∖ {[id]}))).
      * by apply retired_inv.
      * apply retired_tight.
      * by apply (retired_rinv None).
    + eexists. split; [reflexivity|]. split; [|done..|].
      * apply timers_inv; [done|]. intros b' Hb'. rewrite Ha in Hb'. simplify_eq. by apply Hsame.
      * by apply (rinv_frame w).
  - eexists. split; [reflexivity|]. split; [|done..|].
    + apply timers_inv; [done|]. intros b' Hb'. by rewrite Ha in Hb'.
    + by apply (rinv_frame w).
Qed.

Lemma FlushAsync_good w order :
  good w -> order ≡ₚ elements (pending (bt w)) ->
  exists w', FlushAsync w order = Ok w' /\ good w'.
Proof.
  intros [Hinv Ht Hwc Hr] Hord. unfold FlushAsync.
  pose proof (detach_enqueue w CopyBatchFlushReasonManual) as Hd.
  destruct (detachActiveLocked w CopyBatchFlushReasonManual) as [batch w1]. rewrite Hd. clear Hd.
  assert (H2 : exists w2, match active (bt w) with
      | None => withBt w (setActive (bt w) None)
      | Some b => retired w b CopyBatchFlushReasonManual
          (if cb_timer b then armed w ∖ {[cb_id b]} else armed w) (fired w)
      end = w2 /\ inv None w2 /\ tight w2 /\ rinv w2 /\ requests w2 = requests w).
  { destruct (active (bt w)) as [b|] eqn:Ha; eexists; (split; [reflexivity|]).
    - split_and!; [by apply retired_inv|apply retired_tight|by apply (retired_rinv None)|done].
    - rewrite setActive_None_id by done. done. }
  destruct H2 as (w2 & -> & Hinv2 & Ht2 & Hr2 & Hreq).
  destruct (scheduleAndDispatch_spec w2) as (bs & q & Hs & _); [apply Hinv2..|].
  destruct (schedule_good w2 Hinv2 Ht2 Hr2) as (w3 & Hs3 & [Hinv3 Ht3 Hwc3 Hr3]).
  assert (Hreq3 : requests w3 = requests w) by (assert (w3 = launch w2 bs q) as -> by congruence; done).
  rewrite Hs3. cbn [mbind outcome_bind]. eexists. split; [reflexivity|].
  split; [|done..|by apply (rinv_frame w3)]. apply flushes_inv; [done|].
  intros i fl r Hfl Hin. rewrite lookup_app_Some in Hfl. destruct Hfl as [Hfl|[_ Hfl]].
  - by eapply (inv_flushes _ _ Hinv3).
  - apply list_lookup_singleton_Some in Hfl as [_ <-]. simpl in Hin. rewrite Hreq3.
    rewrite Hord, elem_of_elements in Hin. destruct (inv_pending _ _ Hinv r Hin) as (rq & -> & _).
    by eexists.
Qed.

Lemma flushTurn_good w w' i : good w -> flushTurn w i = Some w' -> good w'.
Proof.
  intros [Hinv Ht Hwc Hr]. unfold flushTurn.
  destruct (flushes w !! i) as [[barrier [|r todo] es res]|] eqn:Hi; [| |done].
  - destruct (f_done res); [done|]. intros [= <-]. split; [|done..|by apply (rinv_frame w)].
    apply flushes_inv; [done|]. intros j fl r Hfl Hin. apply list_lookup_insert_Some in Hfl.
    destruct Hfl as [(_ & <- & _)|[_ Hfl]]; [by apply elem_of_nil in Hin|].
    by eapply (inv_flushes _ _ Hinv).
  - destruct (requests w !! r) as [rq|] eqn:Hrq; [|done].
    destruct (Await _ _ _ _ _) as [[v err]|]; [|done]. intros [= <-].
    split; [|done..|by apply (rinv_frame w)].
    apply flushes_inv; [done|]. intros j fl r' Hfl Hin. apply list_lookup_insert_Some in Hfl.
    destruct Hfl as [(_ & <- & _)|[_ Hfl]]; [|by eapply (inv_flushes _ _ Hinv)].
    simpl in Hin. eapply (inv_flushes _ _ Hinv); [exact Hi|]. simpl. by right.
Qed.

Lemma start_good w w' i : good w -> startBatch w i = Some w' -> good w'.
Proof.
  intros [Hinv Ht Hwc [Hrows Hfifo Hown]] Hs. pose proof (start_inv w w' i Hinv Hs) as Hinv'.
  unfold startBatch in Hs. destruct (running w !! i) as [[b| |]|] eqn:Hi; [|done..].
  injection Hs as <-. split; [done..|]. split.
  - unfold liveRows in *. simpl. by rewrite (flat_insert_same gRows _ i (GReady b)).
  - exact Hfifo.
  - intros owner Ho. destruct (Hown owner Ho) as [H1 H2 H3]. split; [done| |done].
    apply Forall_insert; [done|]. pose proof (Forall_lookup_1 _ _ _ _ H2 Hi) as Hb. exact Hb.
Qed.

Lemma copyReturns_good w w' i count err : good w -> copyReturns w i count err = Some w' -> good w'.
Proof.
  intros [Hinv Ht Hwc [Hrows Hfifo Hown]] Hs.
  pose proof (copyReturns_inv w w' i count err Hinv Hs) as Hinv'.
  unfold copyReturns in Hs. destruct (running w !! i) as [[|b at_|]|] eqn:Hi; [done| |done..].
  injection Hs as <-. split; [done..|]. split.
  - unfold acceptedRows, copiedRows, liveRows in *. simpl.
    rewrite flat_app, flat_cons, flat_nil, app_nil_r. simpl.
    pose proof (flat_insert gRows (running w) i _
      (GFinish (copyError b count err) (cb_requests b) []) Hi) as Hp. simpl in Hp.
    rewrite Hrows, <- Hp. solve_Permutation.
  - exact Hfifo.
  - intros owner Ho. destruct (Hown owner Ho) as [H1 H2 H3]. split; [done|by apply Forall_insert|].
    simpl. apply Forall_app. split; [done|]. apply Forall_singleton.
    pose proof (Forall_lookup_1 _ _ _ _ H2 Hi) as Hb. exact Hb.
Qed.

Lemma finishOne_good w w' i : good w -> finishOne w i = Some w' -> good w'.
Proof.
  intros [Hinv Ht Hwc [Hrows Hfifo Hown]] Hs. pose proof (finishOne_inv w w' i Hinv Hs) as Hinv'.
  unfold finishOne in Hs.
  destruct (running w !! i) as [[| |err [|r todo] completed]|] eqn:Hi; [done..| |done].
  destruct (requests w !! r) as [rq|] eqn:Hr; [|done].
  destruct (finishPart rq err) as [rq' last]. injection Hs as <-. split; [done..|]. split.
  - unfold liveRows in *. simpl. by rewrite (flat_insert_same gRows _ i _ _ Hi).
  - exact Hfifo.
  - intros owner Ho. destruct (Hown owner Ho) as [H1 H2 H3]. split; [done| |done].
    by apply Forall_insert.
Qed.

Lemma complete_good w i o :
  good w -> completeBatch w i = Some o -> exists w', o = Ok w' /\ good w'.
Proof.
  intros [Hinv Ht Hwc [Hrows Hfifo Hown]]. unfold completeBatch.
  destruct (running w !! i) as [[| |err [|r todo] completed]|] eqn:Hi; [done..| |done|done].
  intros [= <-]. fold (ended w i completed). pose proof (ended_inv w i err completed Hinv Hi) as Hinv'.
  destruct (schedule_good (ended w i completed)) as (w' & Hs & Hg); [done|done| |by exists w'].
  split.
  - unfold liveRows, ended in *. simpl.
    by rewrite (flat_delete gRows _ i _ Hi) in Hrows.
  - exact Hfifo.
  - intros owner Ho. destruct (Hown owner Ho) as [H1 H2 H3]. split; [done| |done].
    by apply Forall_delete.
Qed.

Lemma timer_good w w' id : good w -> timerFires w id = Some w' -> good w'.
Proof.
  intros [Hinv Ht Hwc Hr]. unfold timerFires. case_bool_decide; [|done]. intros [= <-].
  split; [|done..|by apply (rinv_frame w)]. apply timers_inv; [done|]. intros b Hb.
  destruct (inv_active _ _ Hinv b Hb) as (_ & _ & _ & _ & Hid).
  destruct (decide (cb_id b = id)); set_solver.
Qed.

Lemma tick_good w d : good w -> good (Tick w d).
Proof.
  intros [Hinv Ht Hwc Hr]. split; [|done..|by apply (rinv_frame w)]. destruct Hinv. by split.
Qed.

(** No event panics, and every event keeps the invariant. *)
Lemma exec_good w e o :
  good w -> exec WithoutCancel w e = Some o -> exists w', o = Ok w' /\ good w'.
Proof.
  intros Hg. destruct e as [ctx e1 e2 rws c|id|id|i|i n err|i|i|order|i|d]; simpl.
  - intros [= <-]. destruct (submit_good w ctx e1 e2 rws c Hg) as (f & w' & -> & Hg').
    by exists w'.
  - intros (w' & Hs & ->)%fmap_Some. exists w'. split; [done|by eapply timer_good].
  - case_bool_decide as Hid; [|done]. intros [= <-]. by apply flushExpired_good.
  - intros (w' & Hs & ->)%fmap_Some. exists w'. split; [done|by eapply start_good].
  - intros (w' & Hs & ->)%fmap_Some. exists w'. split; [done|by eapply copyReturns_good].
  - intros (w' & Hs & ->)%fmap_Some. exists w'. split; [done|by eapply finishOne_good].
  - by apply complete_good.
  - case_bool_decide as Hord; [|done]. intros [= <-]. by apply FlushAsync_good.
  - intros (w' & Hs & ->)%fmap_Some. exists w'. split; [done|by eapply flushTurn_good].
  - intros [= <-]. exists (Tick w d). split; [done|by apply tick_good].
Qed.

(** ** Reachable worlds *)

(** One event takes [w] to [w']. *)
Definition step w w' : Prop := exists e, exec WithoutCancel w e = Some (Ok w').

Inductive reachable (c : CopyBatchConfig) (obs : list (option nat)) : worldT -> Prop :=
  | reach_new B : NewCopyBatcher c true obs = Ok B -> reachable c obs (initial B)
  | reach_step w w' : reachable c obs w -> step w w' -> reachable c obs w'.

Lemma initial_good c obs B :
  NewCopyBatcher (T := T) (Ctx := Ctx) c true obs = Ok B -> good (initial B).
Proof.
  unfold NewCopyBatcher, Validate.
  destruct (Z.ltb_spec (MaxRowsPerBatch c) 0); [done|]. destruct (Linger c <? 0); [done|].
  destruct (Z.ltb_spec (MaxConcurrentBatches c) 0); [done|]. intros [= <-].
  assert (Hn : 0 < MaxConcurrentBatches (normalized c)).
  { unfold normalized. simpl. destruct (Z.eqb_spec (MaxConcurrentBatches c) 0); [done|lia]. }
  split; [|done| |].
  - split; simpl; try done; try (intros *; rewrite lookup_empty; done).
    + split; [done|]. apply Z.lt_le_incl. exact Hn.
    + intros r Hr. by apply elem_of_nil in Hr.
    + intros r Hr. by apply elem_of_nil in Hr.
    + intros r. rewrite lookup_empty. split; [by intros [? ?]|by intros ?%elem_of_nil].
    + intros r e Hr. by apply elem_of_nil in Hr.
  - intros Hq. done.
  - split; [done|done|]. intros owner _. by split; constructor.
Qed.

Lemma reachable_good c obs w : reachable c obs w -> good w.
Proof.
  induction 1 as [B Hb|w w' _ IH [e He]]; [by eapply initial_good|].
  destruct (exec_good w e _ IH He) as (w1 & [= ->] & Hg). done.
Qed.

End Steps.
