(* ===== verification/CopyBatchRuns.v ===== *)
(** * CopyBatchRuns: histories of the copy batcher

    What no event changes (the configuration, a resolved future), the account
    of the flush goroutines, and the measure that internal events decrease. *)

From S2P Require Import Prelude Errors Future Telemetry CopyBatch CopyBatchInv CopyBatchSteps.

#[local] Open Scope Z_scope.

Section Runs.
Context {T Ctx : Type} (WithoutCancel : Ctx -> Ctx).
#[local] Abbreviation worldT := (world (T := T) (Ctx := Ctx)).
#[local] Abbreviation batchT := (copyBatch (T := T) (Ctx := Ctx)).
Implicit Types (w : worldT) (b : batchT).

(** ** Stability *)

(** [w'] has the requests of [w] with their results, and its configuration. *)
Definition keeps w w' : Prop :=
  config (bt w') = config (bt w) /\ flushes w' = flushes w /\
  forall r rq, requests w !! r = Some rq -> exists rq', requests w' !! r = Some rq' /\
    rq_result rq' = rq_result rq.

#[local] Instance keeps_refl : Reflexive keeps.
Proof. intros w. split_and!; [done..|]. eauto. Qed.
#[local] Instance keeps_trans : Transitive keeps.
Proof.
  intros w1 w2 w3 (H1 & H1' & H2) (H3 & H3' & H4). split_and!; [congruence..|].
  intros r rq Hr. destruct (H2 r rq Hr) as (rq2 & Hr2 & E2).
  destruct (H4 r rq2 Hr2) as (rq3 & Hr3 & E3). exists rq3. split; [done|congruence].
Qed.

Lemma keeps_frame w w' :
  config (bt w') = config (bt w) -> flushes w' = flushes w -> requests w' = requests w -> keeps w w'.
Proof. intros Hc Hf Hr. split_and!; [done..|]. rewrite Hr. eauto. Qed.

Lemma keeps_insert w w' r rq rq' :
  config (bt w') = config (bt w) -> flushes w' = flushes w ->
  requests w !! r = Some rq -> requests w' = <[r := rq']> (requests w) ->
  rq_result rq' = rq_result rq -> keeps w w'.
Proof.
  intros Hc Hf Hr Hr' He. split_and!; [done..|]. intros r1 rq1 H1. rewrite Hr'.
  destruct (decide (r = r1)) as [<-|].
  - exists rq'. rewrite lookup_insert_eq. split; [done|congruence].
  - exists rq1. by rewrite lookup_insert_ne.
Qed.

Lemma enqueue_config (B : CopyBatcher (T := T) (Ctx := Ctx)) batch :
  config (enqueueLocked B batch) = config B.
Proof. destruct batch as [b|]; simpl; [|done]. by case_bool_decide. Qed.

Lemma schedule_keeps w w' : scheduleAndDispatch w = Ok w' -> keeps w w'.
Proof.
  unfold scheduleAndDispatch, scheduleLocked. intros H.
  destruct (_ || _); simpl in H; [injection H as <-; by apply keeps_frame|].
  destruct (scheduleLoop _ _ _ _) as [[bs q]| |]; simpl in H; [|done..].
  injection H as <-. by apply keeps_frame.
Qed.

Lemma detach_keeps w why batch w' : detachActiveLocked w why = (batch, w') -> keeps w w'.
Proof.
  unfold detachActiveLocked. destruct (active (bt w)); intros [= <- <-]; by apply keeps_frame.
Qed.

Lemma appendPart_keeps w ctx rws r rws' w' :
  appendPart WithoutCancel w ctx rws r = Ok (rws', w') -> keeps w w'.
Proof.
  unfold appendPart.
  set (w1 := match active (bt w) with None => openBatchLocked WithoutCancel w ctx | Some _ => w end).
  assert (H1 : keeps w w1) by (unfold w1; destruct (active (bt w)); by apply keeps_frame).
  intros H. etrans; [exact H1|]. clearbody w1. clear H1 w.
  destruct (active (bt w1)) as [act|]; [|done]. cbn [panic_if_none mbind outcome_bind] in H.
  destruct (_ <? 0); [done|].
  destruct (requests w1 !! r) as [rq|] eqn:Hr; [|done]. cbn [panic_if_none mbind outcome_bind] in H.
  destruct (_ && _).
  - destruct (detachActiveLocked _ _) as [batch w2] eqn:Hd. injection H as _ <-.
    apply detach_keeps in Hd. etrans; [|etrans; [exact Hd|]].
    + by eapply (keeps_insert w1 _ r rq (addPart rq)).
    + apply keeps_frame; [|done..]. simpl. apply enqueue_config.
  - injection H as _ <-. by eapply (keeps_insert w1 _ r rq (addPart rq)).
Qed.

Lemma appendRequest_keeps fuel w ctx rws r w' :
  appendRequestLocked WithoutCancel fuel w ctx rws r = Ok w' -> keeps w w'.
Proof.
  revert w rws. induction fuel as [|fuel IH]; intros w [|x rws]; cbn [appendRequestLocked];
    try (by intros [= <-]); try done.
  destruct (appendPart _ _ _ _ _) as [[rws1 w1]| |] eqn:E; simpl; [|done..].
  intros H. etrans; [by eapply appendPart_keeps|]. by eapply IH.
Qed.

Lemma submit_keeps w ctx e1 e2 rws c f w' :
  (forall rq, requests w !! nextRequest w = Some rq -> False) ->
  submit WithoutCancel w ctx e1 e2 rws c = Ok (f, w') -> keeps w w'.
Proof.
  intros Hfresh. unfold submit. case_bool_decide as Hl; [by intros [= _ <-]|].
  destruct e1; [by intros [= _ <-]|]. destruct e2; [by intros [= _ <-]|].
  fold (registered w c rws). intros H.
  assert (H1 : keeps w (registered w c rws)).
  { split_and!; [done..|]. intros r rq Hr. exists rq. simpl.
    rewrite lookup_insert_ne; [done|]. intros <-. by eapply Hfresh. }
  etrans; [exact H1|].
  destruct c; cbn [mbind outcome_bind] in H.
  - destruct (appendRequestLocked _ _ _ _ _ _) as [w2| |] eqn:E; simpl in H; [|done..].
    destruct (scheduleAndDispatch w2) as [w3| |] eqn:Hs; simpl in H; [|done..]. injection H as _ <-.
    etrans; [by eapply appendRequest_keeps|by apply schedule_keeps].
  - destruct (enqueueUnbatchedLocked _ _ _ _ _) as [w2| |] eqn:E; simpl in H; [|done..].
    destruct (scheduleAndDispatch w2) as [w3| |] eqn:Hs; simpl in H; [|done..]. injection H as _ <-.
    etrans; [|by apply schedule_keeps]. unfold enqueueUnbatchedLocked in E.
    assert (Hr : requests (registered w false rws) !! nextRequest w =
      Some (newCopyRequest (Z.of_nat (length rws)))) by (by apply lookup_insert_eq).
    rewrite Hr in E. injection E as <-.
    eapply (keeps_insert _ _ (nextRequest w) _ (addPart _)); [|done|exact Hr|done..].
    simpl. by case_bool_decide.
Qed.

(** Resolved futures stay as they are. *)
Definition stable w w' : Prop :=
  config (bt w') = config (bt w) /\
  forall r rq, requests w !! r = Some rq -> f_done (rq_result rq) = true ->
    exists rq', requests w' !! r = Some rq' /\ rq_result rq' = rq_result rq.

Lemma keeps_stable w w' : keeps w w' -> stable w w'.
Proof. intros (Hc & _ & Hr). split; [done|]. intros r rq Hl _. eauto. Qed.

Lemma FlushAsync_run w order w' :
  FlushAsync w order = Ok w' -> exists w1, keeps w w1 /\
    w' = withFlushes w1 (flushes w ++ [Flusher order order [] (newFuture tt)]).
Proof.
  unfold FlushAsync. destruct (detachActiveLocked w _) as [batch w1] eqn:Hd. intros H.
  apply detach_keeps in Hd.
  destruct (scheduleAndDispatch _) as [w2| |] eqn:Hs; simpl in H; [|done..].
  injection H as <-. apply schedule_keeps in Hs.
  assert (Hk : keeps w w2).
  { etrans; [exact Hd|]. etrans; [|exact Hs]. apply keeps_frame; [|done..]. apply enqueue_config. }
  exists w2. split; [done|]. destruct Hk as (_ & -> & _). done.
Qed.

Lemma flushExpired_keeps w id w' : flushExpiredBatch w id = Ok w' -> keeps w w'.
Proof.
  unfold flushExpiredBatch. intros H. etrans; [by apply (keeps_frame w (withTimers w (armed w) (fired w ∖ {[id]})))|].
  destruct (active _) as [b|]; [|by injection H as <-].
  case_bool_decide; [|by injection H as <-]. apply schedule_keeps in H. etrans; [|exact H].
  apply keeps_frame; [|done..]. simpl. by case_bool_decide.
Qed.

Lemma finishOne_stable w w' i : good w -> finishOne w i = Some w' -> stable w w' /\ flushes w' = flushes w.
Proof.
  intros Hg. unfold finishOne.
  destruct (running w !! i) as [[| |err [|r todo] completed]|] eqn:Hi; [done..| |done].
  destruct (requests w !! r) as [rq|] eqn:Hr; [|done].
  destruct (finishPart rq err) as [rq' last]. intros [= <-]. split; [|done]. split; [done|].
  intros r1 rq1 H1 Hd. exists rq1. simpl. rewrite lookup_insert_ne; [done|]. intros <-.
  assert (rq1 = rq) as -> by congruence.
  apply (inv_done _ _ (g_inv _ Hg) r rq Hr) in Hd; [|done].
  rewrite (inv_parts _ _ (g_inv _ Hg) r rq Hr) in Hd.
  assert (Hin : r ∈ parts w).
  { unfold parts. apply elem_of_app. left. apply elem_of_concat. eexists.
    split; [by eapply list_elem_of_lookup_2|]. left. }
  apply occ_pos in Hin. lia.
Qed.

(** Events other than the flush ones leave the flushes alone. *)
Lemma exec_stable w e w' :
  good w -> exec WithoutCancel w e = Some (Ok w') ->
  stable w w' /\
  match e with
  | EvFlushAsync order => flushes w' = flushes w ++ [Flusher order order [] (newFuture tt)]
  | EvFlushTurn _ => requests w' = requests w
  | _ => flushes w' = flushes w
  end.
Proof.
  intros Hg. destruct e as [ctx e1 e2 rws c|id|id|i|i n err|i|i|order|i|d]; simpl.
  - intros [= H]. destruct (submit _ _ _ _ _ _ _) as [[f w1]| |] eqn:E; [|done..].
    injection H as <-. apply submit_keeps in E; [split; [by apply keeps_stable|apply E]|].
    intros rq Hr%(inv_fresh _ _ (g_inv _ Hg)). lia.
  - intros (w1 & H & [= ->])%fmap_Some. unfold timerFires in H. case_bool_decide as Hb; [|done].
    injection H as <-. split; [|done]. by apply keeps_stable, keeps_frame.
  - case_bool_decide as Hb; [|done]. intros [= H%flushExpired_keeps]. split; [by apply keeps_stable|apply H].
  - intros (w1 & H & [= ->])%fmap_Some. unfold startBatch in H.
    destruct (running w !! i) as [[]|]; simplify_eq. split; [|done]. by apply keeps_stable, keeps_frame.
  - intros (w1 & H & [= ->])%fmap_Some. unfold copyReturns in H.
    destruct (running w !! i) as [[]|]; simplify_eq. split; [|done]. by apply keeps_stable, keeps_frame.
  - intros (w1 & H & [= ->])%fmap_Some. by apply (finishOne_stable w w1 i).
  - unfold completeBatch. destruct (running w !! i) as [[| |err [|] completed]|]; [done..| |done|done].
    intros [= H%schedule_keeps]. split; [by apply keeps_stable|apply H].
  - case_bool_decide as Hb; [|done]. intros [= H]. apply FlushAsync_run in H as (w1 & Hk & ->).
    split; [|done]. apply keeps_stable in Hk as [Hc Hr]. by split.
  - intros (w1 & H & [= ->])%fmap_Some. unfold flushTurn in H.
    assert (Hf : exists l, w1 = withFlushes w l).
    { destruct (flushes w !! i) as [[barrier [|r todo] es res]|]; [|destruct (requests w !! r)|done].
      - destruct (f_done res); simplify_eq. by eexists.
      - destruct (Await _ _ _ _ _) as [[]|]; simplify_eq. by eexists.
      - done. }
    destruct Hf as [l ->]. split; [|done]. split; [done|]. eauto.
  - intros [= <-]. split; [|done]. by apply keeps_stable, keeps_frame.
Qed.

(** ** The account of the flushes *)

(** The error of a request's future. *)
Definition resultErr w (r : nat) : option error :=
  rq ← requests w !! r; f_err (rq_result rq).

Definition resolved w (r : nat) : Prop :=
  exists rq, requests w !! r = Some rq /\ f_done (rq_result rq) = true.

Definition flushOk w (fl : flusher) : Prop :=
  exists awaited, fl_barrier fl = awaited ++ fl_todo fl /\
    (forall r, r ∈ awaited -> resolved w r) /\ fl_errs fl = omap (resultErr w) awaited /\
    (f_done (fl_result fl) = true ->
       fl_todo fl = [] /\ fl_result fl = MkFuture true tt (errorsJoin (fl_errs fl))).

Definition flushesOk w : Prop := Forall (flushOk w) (flushes w).

Lemma flushOk_stable w w' fl : stable w w' -> flushOk w fl -> flushOk w' fl.
Proof.
  intros [_ Hs] (awaited & Hb & Hr & He & Hd). exists awaited.
  assert (Hsame : forall r, r ∈ awaited -> resolved w' r /\ resultErr w' r = resultErr w r).
  { intros r Hin. destruct (Hr r Hin) as (rq & Hl & Hdone).
    destruct (Hs r rq Hl Hdone) as (rq' & Hl' & E). split.
    - exists rq'. by rewrite E.
    - unfold resultErr. rewrite Hl, Hl'. simpl. by rewrite E. }
  split_and!; [done|by apply Hsame| |done].
  rewrite He. clear -Hsame. induction awaited as [|r l IH]; [done|]. simpl.
  destruct (Hsame r) as [_ ->]; [left|]. destruct (resultErr w r); [f_equal|];
    apply IH; intros r' Hr'; apply Hsame; by right.
Qed.

Lemma flushTurn_flushes w w' i :
  flushTurn w i = Some w' -> flushesOk w -> flushesOk w'.
Proof.
  unfold flushTurn, flushesOk. intros H Hok.
  destruct (flushes w !! i) as [[barrier todo es res]|] eqn:Hi; [|done].
  pose proof (Forall_lookup_1 _ _ _ _ Hok Hi) as (awaited & Hb & Hr & He & Hd). simpl in *.
  assert (Hmono : forall l, Forall (flushOk w) l -> Forall (flushOk (withFlushes w l)) l).
  { intros l Hl. eapply Forall_impl; [exact Hl|]. intros fl Hfl. eapply flushOk_stable; [|exact Hfl].
    split; [done|]. eauto. }
  destruct todo as [|r todo].
  - destruct (f_done res) eqn:Hdone; [done|]. injection H as <-. apply Hmono.
    apply Forall_insert; [done|]. exists awaited. simpl. split_and!; [done..|].
    intros _. split; [done|]. unfold resolve. by rewrite Hdone.
  - destruct (requests w !! r) as [rq|] eqn:Hrq; [|done]. unfold Await in H.
    destruct (f_done (rq_result rq)) eqn:Hdone; [|done]. injection H as <-. apply Hmono.
    apply Forall_insert; [done|]. exists (awaited ++ [r]). simpl. split_and!.
    + by rewrite <- app_assoc.
    + intros r' [Hin| ->%list_elem_of_singleton]%elem_of_app; [by apply Hr|]. by exists rq.
    + assert (Hre : resultErr w r = f_err (rq_result rq)) by (unfold resultErr; by rewrite Hrq).
      rewrite omap_app, He. simpl. rewrite Hre.
      destruct (f_err (rq_result rq)); [done|by rewrite app_nil_r].
    + intros Hx. destruct (Hd Hx) as [? _]. done.
Qed.

Lemma exec_flushes w e w' :
  good w -> exec WithoutCancel w e = Some (Ok w') -> flushesOk w -> flushesOk w'.
Proof.
  intros Hg He Hok. destruct (exec_stable w e w' Hg He) as [Hst Hf].
  assert (Hold : Forall (flushOk w') (flushes w)).
  { eapply Forall_impl; [exact Hok|]. intros fl. by apply flushOk_stable. }
  unfold flushesOk.
  destruct e as [ctx e1 e2 rws c|id|id|i|i n err|i|i|order|i|d];
    try (rewrite Hf; exact Hold).
  - rewrite Hf. apply Forall_app. split; [done|]. apply Forall_singleton.
    exists []. simpl. split_and!; [done|set_solver|done|done].
  - simpl in He. apply fmap_Some in He as (w1 & He & [= ->]). by eapply flushTurn_flushes.
Qed.

Lemma reachable_flushes c obs w : reachable WithoutCancel c obs w -> flushesOk w.
Proof.
  induction 1 as [B Hb|w w' Hr IH [e He]]; [constructor|].
  eapply exec_flushes; [by eapply reachable_good|exact He|done].
Qed.

Lemma reachable_config c obs w : reachable WithoutCancel c obs w -> config (bt w) = normalized c.
Proof.
  induction 1 as [B Hb|w w' Hr IH [e He]].
  - unfold NewCopyBatcher in Hb. destruct (Validate c); [done|]. by injection Hb as <-.
  - rewrite <- IH. by destruct (exec_stable w e w' (reachable_good _ _ _ _ Hr) He) as [[-> _] _].
Qed.

(** ** Draining

    Each batch still has its start, its COPY, its parts and its completion
    ahead, each timer its firing and its handler, each flush its awaits. *)

Definition batchesWeight (l : list batchT) : nat := length (flat cb_requests l) + 3 * length l.

Definition gWeight (g : goroutine (T := T) (Ctx := Ctx)) : nat :=
  match g with
  | GReady b => length (cb_requests b) + 3
  | GCopy b _ => length (cb_requests b) + 2
  | GFinish _ todo _ => length todo + 1
  end.

Definition flWeight (fl : flusher) : nat :=
  length (fl_todo fl) + (if f_done (fl_result fl) then 0 else 1).

Definition weight w : nat :=
  2 * size (armed w) + size (fired w) + batchesWeight (waiting w) +
  sum_list_with gWeight (running w) + sum_list_with flWeight (flushes w).

Lemma sumWith_delete {A} (f : A -> nat) l i x :
  l !! i = Some x -> sum_list_with f l = (f x + sum_list_with f (delete i l))%nat.
Proof.
  revert i.  induction l as [|y l IH]; intros [|i] H; simplify_eq/=; [done|].
  rewrite (IH _ H). lia.
Qed.

Lemma sumWith_insert {A} (f : A -> nat) l i x y :
  l !! i = Some x -> (f x + sum_list_with f (<[i := y]> l) = f y + sum_list_with f l)%nat.
Proof.
  intros H. rewrite (sumWith_delete f (<[i := y]> l) i y), (sumWith_delete f l i x H).
  - rewrite delete_insert_same. lia.
  - apply list_lookup_insert_eq. by eapply lookup_lt_Some.
Qed.

Lemma batchesWeight_app l1 l2 : batchesWeight (l1 ++ l2) = (batchesWeight l1 + batchesWeight l2)%nat.
Proof. unfold batchesWeight. rewrite flat_app, !length_app. lia. Qed.

Lemma ready_weight (bs : list batchT) : sum_list_with gWeight (GReady <$> bs) = batchesWeight bs.
Proof.
  unfold batchesWeight. induction bs as [|b bs IH]; [done|].
  rewrite fmap_cons, flat_cons, length_app. simpl. rewrite IH. lia.
Qed.

Lemma schedule_weight w w' : inv None w -> scheduleAndDispatch w = Ok w' -> (weight w' <= weight w)%nat.
Proof.
  intros Hinv Hs.
  destruct (scheduleAndDispatch_spec w) as (bs & q & Hrun & _ & _ & _ & Hp & _ & _ & Hlen); [apply Hinv..|].
  assert (w' = launch w bs q) as -> by congruence.
  unfold weight, waiting, activeList. simpl. rewrite sum_list_with_app, ready_weight, !batchesWeight_app.
  assert (Hw : (batchesWeight bs + batchesWeight q <= batchesWeight (queue (bt w)))%nat).
  { unfold batchesWeight. apply (f_equal length) in Hp. rewrite length_app in Hp. lia. }
  lia.
Qed.

Lemma retired_weight w b why a f :
  active (bt w) = Some b ->
  (batchesWeight (waiting (retired w b why a f)) <= batchesWeight (waiting w))%nat.
Proof.
  intros Ha. unfold waiting, activeList, retired. simpl. rewrite Ha.
  case_bool_decide; simpl; rewrite ?app_nil_r, !batchesWeight_app; [lia|].
  assert (Hb : batchesWeight [closed b why] = batchesWeight [b]) by done. lia.
Qed.

(** The events the batcher's own goroutines and timers perform. *)
Definition internal (e : event (T := T) (Ctx := Ctx)) : bool :=
  match e with
  | EvSubmit _ _ _ _ _ | EvFlushAsync _ | EvTick _ => false
  | _ => true
  end.

Lemma flushExpired_weight w id w' :
  good w -> id ∈ fired w -> flushExpiredBatch w id = Ok w' -> (weight w' < weight w)%nat.
Proof.
  intros Hg Hid. unfold flushExpiredBatch.
  assert (Hsize : (size (fired w ∖ {[id]}) < size (fired w))%nat)
    by (apply subset_size; set_solver).
  destruct (active (bt w)) as [b|] eqn:Ha; simpl; rewrite Ha.
  - case_bool_decide as Hc.
    + set (w2 := retired w b CopyBatchFlushReasonLinger (armed w) (fired w ∖ {[id]})).
      change (scheduleAndDispatch w2 = Ok w' -> (weight w' < weight w)%nat). intros Hs.
      apply schedule_weight in Hs; [|apply retired_inv; [apply Hg|done..]].
      pose proof (retired_weight w b CopyBatchFlushReasonLinger (armed w) (fired w ∖ {[id]}) Ha) as Hw.
      fold w2 in Hw. enough (weight w2 < weight w)%nat by lia.
      
      assert (Hf : armed w2 = armed w /\ fired w2 = fired w ∖ {[id]} /\ running w2 = running w /\
        flushes w2 = flushes w) by done. destruct Hf as (Ea & Ef & Er & El).
      unfold weight. rewrite Ea, Ef, Er, El. lia.
    + intros [= <-]. unfold weight, waiting, activeList. simpl. lia.
  - intros [= <-]. unfold weight, waiting, activeList. simpl. lia.
Qed.

Lemma running_weight w i g g' :
  running w !! i = Some g -> (gWeight g' < gWeight g)%nat ->
  (weight (withRunning w (<[i := g']> (running w))) < weight w)%nat.
Proof.
  intros Hi Hlt. pose proof (sumWith_insert gWeight (running w) i g g' Hi).
  unfold weight, waiting, activeList. simpl. lia.
Qed.

Lemma flushes_weight w i fl fl' :
  flushes w !! i = Some fl -> (flWeight fl' < flWeight fl)%nat ->
  (weight (withFlushes w (<[i := fl']> (flushes w))) < weight w)%nat.
Proof.
  intros Hi Hlt. pose proof (sumWith_insert flWeight (flushes w) i fl fl' Hi).
  unfold weight, waiting, activeList. simpl. lia.
Qed.

(** Every internal event decreases the weight. *)
Lemma internal_weight w e w' :
  good w -> internal e = true -> exec WithoutCancel w e = Some (Ok w') -> (weight w' < weight w)%nat.
Proof.
  intros Hg. destruct e as [ctx e1 e2 rws c|id|id|i|i n err|i|i|order|i|d]; simpl; intros Hint; try done.
  - intros (w1 & H & [= ->])%fmap_Some. unfold timerFires in H. case_bool_decide as Hb; [|done].
    injection H as <-. unfold weight, waiting, activeList. simpl.
    assert (size (armed w ∖ {[id]}) < size (armed w))%nat by (apply subset_size; set_solver).
    pose proof (size_union_alt {[id]} (fired w)) as Hu. rewrite size_singleton in Hu.
    assert (size (fired w ∖ {[id]}) <= size (fired w))%nat by (apply subseteq_size; set_solver). lia.
  - case_bool_decide as Hb; [|done]. intros [= H]. by eapply flushExpired_weight.
  - intros (w1 & H & [= ->])%fmap_Some. unfold startBatch in H.
    destruct (running w !! i) as [[b| |]|] eqn:Hi; simplify_eq.
    eapply running_weight; [exact Hi|]. simpl. lia.
  - intros (w1 & H & [= ->])%fmap_Some. unfold copyReturns in H.
    destruct (running w !! i) as [[|b at_|]|] eqn:Hi; simplify_eq.
    apply (running_weight w i _ (GFinish (copyError b n err) (cb_requests b) []) Hi). simpl. lia.
  - intros (w1 & H & [= ->])%fmap_Some. unfold finishOne in H.
    destruct (running w !! i) as [[| |err [|r todo] completed]|] eqn:Hi; simplify_eq.
    destruct (requests w !! r) as [rq|]; [|done]. destruct (finishPart rq err) as [rq' last].
    injection H as <-. set (g := GFinish err todo (if last then completed ++ [r] else completed)).
    apply (running_weight w i _ g Hi). simpl. lia.
  - unfold completeBatch. destruct (running w !! i) as [[| |err [|] completed]|] eqn:Hi; [done..| |done|done].
    intros [= H]. change (scheduleAndDispatch (ended w i completed) = Ok w') in H.
    apply schedule_weight in H; [|eapply ended_inv; [apply Hg|exact Hi]].
    pose proof (sumWith_delete gWeight (running w) i _ Hi) as Hs. simpl in Hs.
    enough (weight (ended w i completed) < weight w)%nat by lia.
    unfold weight, waiting, activeList, ended. simpl. lia.
  - intros (w1 & H & [= ->])%fmap_Some. unfold flushTurn in H.
    destruct (flushes w !! i) as [[barrier [|r todo] es res]|] eqn:Hi; [| |done].
    + destruct (f_done res) eqn:Hd; [done|]. injection H as <-.
      eapply flushes_weight; [exact Hi|]. unfold flWeight. simpl. rewrite Hd. 
      unfold resolve. rewrite Hd. simpl. lia.
    + destruct (requests w !! r) as [rq|]; [|done]. destruct (Await _ _ _ _ _) as [[]|]; [|done].
      injection H as <-. eapply flushes_weight; [exact Hi|]. unfold flWeight. simpl. lia.
Qed.

(** Nothing is left to do: every batch ran, every future is resolved. *)
Record quiescent w : Prop := {
  q_running : running w = [];
  q_timers : armed w = ∅ /\ fired w = ∅;
  q_batches : active (bt w) = None /\ queue (bt w) = [];
  q_pending : pending (bt w) = ∅;
  q_resolved r rq : requests w !! r = Some rq -> f_done (rq_result rq) = true;
  q_flushes fl : fl ∈ flushes w -> f_done (fl_result fl) = true;
}.

Lemma idle_resolved w :
  good w -> running w = [] -> armed w = ∅ -> fired w = ∅ ->
  active (bt w) = None /\ queue (bt w) = [] /\ pending (bt w) = ∅ /\
  forall r rq, requests w !! r = Some rq -> f_done (rq_result rq) = true.
Proof.
  intros [Hinv _ Hwc _] Hr Ha Hf.
  assert (Hact : active (bt w) = None).
  { destruct (active (bt w)) as [b|] eqn:E; [|done].
    destruct (inv_active _ _ Hinv b E) as (_ & _ & _ & _ & Hid). rewrite Ha, Hf in Hid. set_solver. }
  assert (Hq : queue (bt w) = []).
  { destruct (decide (queue (bt w) = [])) as [|Hne]; [done|]. specialize (Hwc Hne).
    destruct (inv_inFlight _ _ Hinv) as [Hi _]. rewrite Hr in Hi. simpl in Hi.
    destruct (inv_config _ _ Hinv). lia. }
  assert (Hp : parts w = []).
  { unfold parts, waiting, activeList. by rewrite Hr, Hact, Hq. }
  assert (Hd : forall r rq, requests w !! r = Some rq -> f_done (rq_result rq) = true).
  { intros r rq Hl. apply (inv_done _ _ Hinv r rq Hl); [done|].
    by rewrite (inv_parts _ _ Hinv r rq Hl), Hp. }
  split_and!; [done..| |done].
  destruct (set_choose_or_empty (pending (bt w))) as [[r Hin]|He]; [|by apply leibniz_equiv].
  destruct (inv_pending _ _ Hinv r Hin) as (rq & Hl & [Hn|Hc]).
  - rewrite (Hd r rq Hl) in Hn. done.
  - rewrite Hr in Hc. by apply elem_of_nil in Hc.
Qed.

Lemma running_progress w g l :
  good w -> running w = g :: l -> exists e o, internal e = true /\ exec WithoutCancel w e = Some o.
Proof.
  intros Hg Hr. assert (H0 : running w !! 0%nat = Some g) by by rewrite Hr.
  destruct g as [b|b at_|err [|r todo] completed].
  - exists (EvStart 0), (Ok (withRunning w (<[0%nat := GCopy b (now w)]> (running w)))). split; [done|].
    simpl. unfold startBatch. by rewrite H0.
  - eexists (EvCopyReturns 0 0 None), _. split; [done|]. simpl. unfold copyReturns. by rewrite H0.
  - eexists (EvComplete 0), _. split; [done|]. simpl. unfold completeBatch. by rewrite H0.
  - destruct (inv_known _ _ (g_inv _ Hg) r) as [rq Hrq].
    { unfold parts. rewrite Hr, flat_cons. simpl. left. }
    destruct (finishPart rq err) as [rq' last] eqn:Hf.
    eexists (EvFinishOne 0), _. split; [done|]. simpl. unfold finishOne. by rewrite H0, Hrq, Hf.
Qed.

Lemma flushes_progress w :
  good w -> (forall r rq, requests w !! r = Some rq -> f_done (rq_result rq) = true) ->
  (forall fl, fl ∈ flushes w -> f_done (fl_result fl) = true) \/
  exists e o, internal e = true /\ exec WithoutCancel w e = Some o.
Proof.
  intros Hg Hd.
  destruct (list_find (fun fl => f_done (fl_result fl) = false) (flushes w)) as [[i fl]|] eqn:Hf.
  - right. apply list_find_Some in Hf as (Hi & Hn & _). destruct fl as [barrier [|r todo] es res].
    + eexists (EvFlushTurn i), _. split; [done|]. simpl. unfold flushTurn. rewrite Hi.
      simpl in Hn. by rewrite Hn.
    + destruct (inv_flushes _ _ (g_inv _ Hg) i _ r Hi) as [rq Hrq]; [left|].
      eexists (EvFlushTurn i), _. split; [done|]. simpl. unfold flushTurn. rewrite Hi, Hrq.
      unfold Await. by rewrite (Hd r rq Hrq).
  - left. intros fl Hin. apply list_find_None in Hf. rewrite Forall_forall in Hf.
    apply not_false_is_true. by apply Hf.
Qed.

Lemma progress w :
  good w -> quiescent w \/ exists e w', internal e = true /\ exec WithoutCancel w e = Some (Ok w').
Proof.
  intros Hg.
  assert (Hsome : (exists e o, internal e = true /\ exec WithoutCancel w e = Some o) ->
    exists e w', internal e = true /\ exec WithoutCancel w e = Some (Ok w')).
  { intros (e & o & Hint & He). destruct (exec_good _ w e o Hg He) as (w' & -> & _). eauto. }
  destruct (running w) as [|g l] eqn:Hr; [|right; apply Hsome; by eapply running_progress].
  destruct (set_choose_or_empty (armed w)) as [[id Hid]|Ha%leibniz_equiv].
  { right. apply Hsome. eexists (EvTimerFires id), _. split; [done|]. simpl. unfold timerFires.
    by rewrite bool_decide_eq_true_2. }
  destruct (set_choose_or_empty (fired w)) as [[id Hid]|Hf%leibniz_equiv].
  { right. apply Hsome. eexists (EvFlushExpired id), _. split; [done|]. simpl.
    by rewrite bool_decide_eq_true_2. }
  destruct (idle_resolved w Hg Hr Ha Hf) as (Hact & Hq & Hp & Hd).
  destruct (flushes_progress w Hg Hd) as [Hfl|Hfl]; [left; by split|right; by apply Hsome].
Qed.

(** Runs of internal events. *)
Inductive internalRun : nat -> worldT -> worldT -> Prop :=
  | run_nil w : internalRun 0 w w
  | run_cons n w w1 w2 e : internal e = true -> exec WithoutCancel w e = Some (Ok w1) ->
      internalRun n w1 w2 -> internalRun (S n) w w2.

Lemma internalRun_good n w w' : good w -> internalRun n w w' -> good w'.
Proof.
  intros Hg Hrun. induction Hrun as [w|n w w1 w2 e Hint He Hrun IH]; [done|].
  destruct (exec_good _ w e _ Hg He) as (w' & [= <-] & Hg'). by apply IH.
Qed.

Lemma internalRun_bounded n w w' : good w -> internalRun n w w' -> (n + weight w' <= weight w)%nat.
Proof.
  intros Hg Hrun. induction Hrun as [w|n w w1 w2 e Hint He Hrun IH]; [done|].
  pose proof (internal_weight w e w1 Hg Hint He) as Hlt.
  destruct (exec_good _ w e _ Hg He) as (w' & [= <-] & Hg'). specialize (IH Hg'). lia.
Qed.

Lemma drain w : good w -> exists n w', internalRun n w w' /\ quiescent w'.
Proof.
  remember (weight w) as k eqn:Hk. revert w Hk.
  induction (lt_wf k) as [k _ IH]. intros w -> Hg.
  destruct (progress w Hg) as [Hq|(e & w1 & Hint & He)]; [exists 0%nat, w; by split; [constructor|]|].
  pose proof (internal_weight w e w1 Hg Hint He) as Hlt.
  destruct (exec_good _ w e _ Hg He) as (w2 & [= <-] & Hg1).
  destruct (IH (weight w1) Hlt w1 eq_refl Hg1) as (n & w' & Hrun & Hq).
  exists (S n), w'. split; [|done]. by econstructor.
Qed.

End Runs.
