(* ===== verification/CopyBatchClaims.v ===== *)
(** * CopyBatchClaims: what the copy batcher guarantees

    Theorems about every world that [CopyBatchSteps.reachable] reaches: any
    interleaving of submissions, timers, batch goroutines and flushes, with any
    outcome of the physical COPY operations. *)

From S2P Require Import Prelude Errors Future Telemetry CopyBatch CopyBatchInv CopyBatchSteps CopyBatchRuns.

#[local] Open Scope Z_scope.

Section Claims.
Context {T Ctx : Type} (WithoutCancel : Ctx -> Ctx).
#[local] Abbreviation worldT := (world (T := T) (Ctx := Ctx)).
Implicit Types (w : worldT).

(** Run a list of events; [None] when one is not enabled or panics. *)
Fixpoint execAll w (es : list event) : option worldT :=
  match es with
  | [] => Some w
  | e :: es =>
      match exec WithoutCancel w e with
      | Some (Ok w') => execAll w' es
      | _ => None
      end
  end.

Lemma execAll_reachable c obs w es w' :
  reachable WithoutCancel c obs w -> execAll w es = Some w' -> reachable WithoutCancel c obs w'.
Proof.
  revert w. induction es as [|e es IH]; intros w Hr; simpl; [by intros [= <-]|].
  destruct (exec WithoutCancel w e) as [[w1| |]|] eqn:He; [|done..].
  apply IH. eapply reach_step; [done|]. by exists e.
Qed.

(** Parts of a request that is done are all finished. *)
Lemma done_no_parts w r rq :
  good w -> requests w !! r = Some rq -> f_done (rq_result rq) = true -> r ∉ parts w.
Proof.
  intros Hg Hl Hd Hin%occ_pos. apply (inv_done _ _ (g_inv _ Hg) r rq Hl) in Hd; [|done].
  rewrite (inv_parts _ _ (g_inv _ Hg) r rq Hl) in Hd. lia.
Qed.

Lemma errorsOf_elem r l e : e ∈ errorsOf r l <-> (r, Some e) ∈ l.
Proof.
  unfold errorsOf. rewrite list_elem_of_omap. split.
  - intros ([r' o] & Hin & H). simpl in H. destruct (decide (r' = r)) as [->|]; [|done].
    by rewrite H in Hin.
  - intros Hin. exists (r, Some e). split; [done|]. simpl. by rewrite decide_True.
Qed.

(** Every outcome of a done request is recorded as finished. *)
Lemma done_outcomes w r rq b e :
  good w -> requests w !! r = Some rq -> f_done (rq_result rq) = true ->
  (b, e) ∈ copied (hist w) -> r ∈ cb_requests b -> (r, e) ∈ finished (hist w).
Proof.
  intros Hg Hl Hd Hb Hr. pose proof (done_no_parts w r rq Hg Hl Hd) as Hnp.
  assert (Hin : (r, e) ∈ flat outcomes (copied (hist w))).
  { apply elem_of_concat. exists (b, e). split; [done|]. unfold outcomes. simpl.
    apply list_elem_of_fmap. by exists r. }
  rewrite (inv_outcomes _ _ (g_inv _ Hg)) in Hin. apply elem_of_app in Hin as [|Hin]; [done|].
  destruct Hnp. apply elem_of_concat in Hin as (g & Hg' & Hin). unfold parts. apply elem_of_app. left.
  apply elem_of_concat. exists g. split; [done|]. destruct g as [| |err todo completed]; simpl in *;
    [by apply elem_of_nil in Hin..|]. apply list_elem_of_fmap in Hin as (r' & [= <- _] & ?). done.
Qed.

(** A row that was not copied belongs to a request with an unfinished part. *)
Lemma live_row_part w owner x :
  good w -> ownerOk owner w -> x ∈ liveRows w -> owner x ∈ parts w.
Proof.
  intros Hg Ho Hx. destruct (ri_owned _ (g_rows _ Hg) owner Ho) as [Hw Hr _].
  unfold liveRows, parts in *. apply elem_of_app in Hx as [Hx|Hx]; apply elem_of_concat in Hx
    as (y & Hy & Hx); apply elem_of_app; [left|right]; apply elem_of_concat; exists y; (split; [done|]).
  - rewrite Forall_forall in Hr. specialize (Hr y Hy).
    destruct y as [b|b at_|]; simpl in *; [| |by apply elem_of_nil in Hx].
    all: by apply (ownedBy_row _ _ _ Hr).
  - rewrite Forall_forall in Hw. by apply (ownedBy_row _ _ _ (Hw y Hy)).
Qed.


(** C6: the batcher is work conserving: between steps a batch waits in the
    queue only while every execution slot is taken, and the open batch is
    never empty or full and always has a timer that is armed or has fired, so
    that it will be flushed. *)
Theorem work_conserving c obs w :
  reachable WithoutCancel c obs w ->
  (queue (bt w) <> [] -> inFlight (bt w) = MaxConcurrentBatches (normalized c)) /\
  forall b, active (bt w) = Some b -> rows b <> [] /\ cb_id b ∈ armed w ∪ fired w /\
    (0 < MaxRowsPerBatch (normalized c) ->
     Z.of_nat (length (rows b)) < MaxRowsPerBatch (normalized c)).
Proof.
  intros Hr. pose proof (reachable_config _ _ _ _ Hr) as Hc. apply reachable_good in Hr.
  rewrite <- Hc. split; [apply Hr|]. intros b Hb.
  destruct (inv_active _ _ (g_inv _ Hr) b Hb) as (_ & _ & _ & _ & Hid).
  destruct (g_tight _ Hr b Hb) as [Hne Hlt]. by split_and!.
Qed.

(** C1: no row is lost or duplicated: in every reachable state the rows of the
    accepted submissions are, as a multiset, the rows of the COPY operations
    that returned together with the rows still in running, queued and open
    batches. *)
Theorem rows_conserved c obs w :
  reachable WithoutCancel c obs w -> acceptedRows w ≡ₚ copiedRows w ++ liveRows w.
Proof. intros Hr%reachable_good. apply Hr. Qed.

(** C3: coalesced submissions are dispatched in order: without unbatched
    submissions, the rows of the batches in dispatch order, followed by the
    queued and open ones, are exactly the rows in the order of submission. *)
Theorem coalesced_fifo c obs w :
  reachable WithoutCancel c obs w -> Forall (fun x => x.1.2 = true) (accepted (hist w)) ->
  flat rows (dispatched (hist w)) ++ flat rows (waiting w) = acceptedRows w.
Proof. intros Hr%reachable_good. apply Hr. Qed.

(** C4: a request's future tells the outcome of its rows. A resolved future
    holds the row count of its submission when no COPY with one of its parts
    failed, and zero with the join of the errors of those that did; every such
    error is the error of a COPY that held one of its parts. When it resolved
    without an error every row of the submission was in a COPY that succeeded
    (rows are told apart by any function that gives each accepted row the
    request it was submitted by). *)
Theorem future_outcome c obs w r coalesce rws rq owner :
  reachable WithoutCancel c obs w ->
  (r, coalesce, rws) ∈ accepted (hist w) -> requests w !! r = Some rq ->
  f_done (rq_result rq) = true -> ownerOk owner w ->
  rq_result rq = MkFuture true (match errs rq with [] => Z.of_nat (length rws) | _ => 0 end)
                   (errorsJoin (errs rq)) /\
  (forall e, e ∈ errs rq -> exists b, (b, Some e) ∈ copied (hist w) /\ r ∈ cb_requests b) /\
  (forall b e, (b, Some e) ∈ copied (hist w) -> r ∈ cb_requests b -> e ∈ errs rq) /\
  (f_err (rq_result rq) = None ->
   forall x, x ∈ rws -> exists b, (b, None) ∈ copied (hist w) /\ x ∈ rows b).
Proof.
  intros Hr Hacc Hl Hd Ho. apply reachable_good in Hr. pose proof (g_inv _ Hr) as Hinv.
  pose proof (inv_errs _ _ Hinv r rq Hl) as Herrs.
  pose proof (inv_result _ _ Hinv r rq Hl Hd) as Hres.
  split_and!.
  - by rewrite Hres at 1; rewrite (inv_rowCount _ _ Hinv r coalesce rws rq Hacc Hl).
  - intros e. rewrite Herrs, errorsOf_elem. intros Hin.
    assert (Hin' : (r, Some e) ∈ flat outcomes (copied (hist w))).
    { rewrite (inv_outcomes _ _ Hinv). apply elem_of_app. by left. }
    apply elem_of_concat in Hin' as ([b e'] & Hb & Hin'). apply list_elem_of_fmap in Hin'
      as (r' & [= <- <-] & Hr'). by exists b.
  - intros b e Hb Hrb. rewrite Herrs, errorsOf_elem. by eapply done_outcomes.
  - intros He x Hx.
    assert (Hxo : owner x = r).
    { specialize (Ho r coalesce rws Hacc). rewrite Forall_forall in Ho. by apply Ho. }
    assert (Hxa : x ∈ acceptedRows w).
    { apply elem_of_concat. by exists (r, coalesce, rws). }
    rewrite (ri_rows _ (g_rows _ Hr)) in Hxa. apply elem_of_app in Hxa as [Hc|Hlive].
    2: { apply (live_row_part w owner x Hr Ho) in Hlive. rewrite Hxo in Hlive.
         by apply (done_no_parts w r rq Hr Hl Hd) in Hlive. }
    apply elem_of_concat in Hc as ([b o] & Hb & Hxb). simpl in Hxb.
    assert (Hrb : r ∈ cb_requests b).
    { pose proof (ow_copied _ _ (ri_owned _ (g_rows _ Hr) owner Ho)) as Hoc.
      rewrite Forall_forall in Hoc. rewrite <- Hxo. by apply (ownedBy_row _ _ _ (Hoc _ Hb)). }
    destruct o as [e|]; [|by exists b].
    pose proof (done_outcomes w r rq b (Some e) Hr Hl Hd Hb Hrb) as Hf.
    rewrite <- errorsOf_elem, <- Herrs in Hf. rewrite Hres in He. simpl in He.
    apply errorsJoin_None in He. rewrite He in Hf. by apply elem_of_nil in Hf.
Qed.

(** C5: a flush is a barrier. FlushAsync waits for every request whose future
    is unresolved when it is called; and once its future resolves, every request
    it waited for is resolved, with the flush's error the join of theirs (nil
    exactly when all of them succeeded). *)
Theorem flush_barrier c obs w :
  reachable WithoutCancel c obs w ->
  (forall order w', exec WithoutCancel w (EvFlushAsync order) = Some (Ok w') ->
     exists fl, flushes w' = flushes w ++ [fl] /\ fl_barrier fl = order /\
       forall r rq, requests w !! r = Some rq -> f_done (rq_result rq) = false -> r ∈ fl_barrier fl) /\
  (forall fl, fl ∈ flushes w -> f_done (fl_result fl) = true ->
     (forall r, r ∈ fl_barrier fl -> resolved w r) /\
     f_err (fl_result fl) = errorsJoin (omap (resultErr w) (fl_barrier fl))).
Proof.
  intros Hr. split.
  - intros order w' He. apply reachable_good in Hr.
    destruct (exec_stable _ w _ w' Hr He) as [_ Hf]. simpl in He. case_bool_decide as Hord; [|done].
    eexists. split; [exact Hf|]. split; [done|]. simpl. intros r rq Hl Hd. rewrite Hord.
    apply elem_of_elements. by eapply (inv_unresolved _ _ (g_inv _ Hr)).
  - intros fl Hin Hd. pose proof (reachable_flushes _ _ _ _ Hr) as Hok.
    unfold flushesOk in Hok. rewrite Forall_forall in Hok.
    destruct (Hok fl Hin) as (awaited & Hb & Hres & Herr & Hdone).
    destruct (Hdone Hd) as [Ht Hf]. rewrite Ht, app_nil_r in Hb. rewrite Hb.
    split; [done|]. by rewrite Hf, Herr.
Qed.

(** C7: no operation of the batcher panics or loops: in every reachable state
    every event that can happen produces a new state (in particular the loop
    that splits a submission over batches ends, and the queue is never popped
    when empty). *)
Theorem batcher_never_panics c obs w e o :
  reachable WithoutCancel c obs w -> exec WithoutCancel w e = Some o ->
  exists w', o = Ok w' /\ reachable WithoutCancel c obs w'.
Proof.
  intros Hr He. destruct (exec_good _ w e o (reachable_good _ _ _ _ Hr) He) as (w' & -> & _).
  exists w'. split; [done|]. eapply reach_step; [done|]. by exists e.
Qed.

(** C8: the batcher drains. From every reachable state, any run of timers,
    batch goroutines and flush goroutines has at most [weight] steps; as long
    as something is pending such a step is possible; and it ends with no batch
    or timer left, every accepted request resolved, nothing pending and every
    flush resolved. *)
Theorem batcher_drains c obs w :
  reachable WithoutCancel c obs w ->
  (forall n w', internalRun WithoutCancel n w w' -> (n <= weight w)%nat) /\
  (exists n w', internalRun WithoutCancel n w w' /\ quiescent w') /\
  (quiescent w \/ exists e w', internal e = true /\ exec WithoutCancel w e = Some (Ok w')).
Proof.
  intros Hr%reachable_good. split_and!.
  - intros n w' Hrun. pose proof (internalRun_bounded _ n w w' Hr Hrun). lia.
  - by apply drain.
  - by apply progress.
Qed.

End Claims.

(** ** A concrete run: three rows, two per batch, one batch at a time *)

Module Sample.
Definition cfg : CopyBatchConfig := MkConfig 2 0 1.
Definition batcher : CopyBatcher (T := nat) (Ctx := unit) := Batcher (normalized cfg) [Some 0%nat] None [] 0 ∅.
Definition keep (c : unit) : unit := c.

(** Submit, then flush: the second batch waits for the first. *)
Definition opening : list (event (T := nat) (Ctx := unit)) :=
  [EvSubmit tt None None [10; 11; 12]%nat true; EvFlushAsync [0%nat]].
Definition running1 : list (event (T := nat) (Ctx := unit)) :=
  [EvStart 0; EvTick 5; EvCopyReturns 0 2 None; EvFinishOne 0; EvComplete 0].
Definition running2 : list (event (T := nat) (Ctx := unit)) :=
  [EvStart 0; EvCopyReturns 0 1 None; EvFinishOne 0; EvComplete 0; EvFlushTurn 0; EvFlushTurn 0].

Definition midway : world := default (initial batcher) (execAll keep (initial batcher) opening).
Definition final : world :=
  default (initial batcher) (execAll keep (initial batcher) (opening ++ running1 ++ running2)).

Lemma midway_reachable : reachable keep cfg [Some 0%nat] midway.
Proof.
  apply (execAll_reachable keep cfg [Some 0%nat] (initial batcher) opening midway).
  - by apply reach_new.
  - vm_compute. reflexivity.
Qed.

Lemma final_reachable : reachable keep cfg [Some 0%nat] final.
Proof.
  apply (execAll_reachable keep cfg [Some 0%nat] (initial batcher) (opening ++ running1 ++ running2) final).
  - by apply reach_new.
  - vm_compute. reflexivity.
Qed.
End Sample.


Lemma work_conserving_witness : inFlight (bt Sample.midway) = 1.
Proof.
  apply (work_conserving Sample.keep Sample.cfg [Some 0%nat] Sample.midway Sample.midway_reachable).
  vm_compute. discriminate.
Defined.

Lemma rows_conserved_witness :
  [10; 11; 12]%nat ≡ₚ copiedRows Sample.final ++ liveRows Sample.final.
Proof.
  apply (rows_conserved Sample.keep Sample.cfg [Some 0%nat] Sample.final Sample.final_reachable).
Defined.

Lemma coalesced_fifo_witness :
  flat rows (dispatched (hist Sample.final)) ++ flat rows (waiting Sample.final) = [10; 11; 12]%nat.
Proof.
  apply (coalesced_fifo Sample.keep Sample.cfg [Some 0%nat] Sample.final Sample.final_reachable).
  vm_compute. repeat constructor.
Defined.

Lemma future_outcome_witness :
  exists rq, requests Sample.final !! 0%nat = Some rq /\ rq_result rq = MkFuture true 3 None /\
    forall x, x ∈ [10; 11; 12]%nat -> exists b, (b, None) ∈ copied (hist Sample.final) /\ x ∈ rows b.
Proof.
  exists (CopyRequest (MkFuture true 3 None) 3 0 []).
  destruct (future_outcome Sample.keep Sample.cfg [Some 0%nat] Sample.final 0 true [10; 11; 12]%nat
    (CopyRequest (MkFuture true 3 None) 3 0 []) (fun _ => 0%nat) Sample.final_reachable)
    as (H1 & _ & _ & H4).
  - vm_compute. left.
  - vm_compute. reflexivity.
  - reflexivity.
  - intros id c rws Hin. vm_compute in Hin. apply list_elem_of_singleton in Hin.
    injection Hin as -> _ ->. repeat constructor.
  - split; [vm_compute; reflexivity|]. split; [reflexivity|]. apply H4. reflexivity.
Defined.

Lemma flush_barrier_witness :
  resolved Sample.final 0 /\ exists fl, flushes Sample.final = [fl] /\ f_err (fl_result fl) = None.
Proof.
  destruct (flush_barrier Sample.keep Sample.cfg [Some 0%nat] Sample.final Sample.final_reachable)
    as [_ H].
  destruct (H (Flusher [0%nat] [] [] (MkFuture true tt None))) as [H1 H2].
  - vm_compute. left.
  - reflexivity.
  - split; [apply H1; left|]. exists (Flusher [0%nat] [] [] (MkFuture true tt None)).
    split; [vm_compute; reflexivity|reflexivity].
Defined.

Lemma batcher_never_panics_witness :
  exists w', exec Sample.keep Sample.midway (EvStart 0) = Some (Ok w') /\
    reachable Sample.keep Sample.cfg [Some 0%nat] w'.
Proof.
  destruct (batcher_never_panics Sample.keep Sample.cfg [Some 0%nat] Sample.midway (EvStart 0)
    (default (Ok Sample.midway) (exec Sample.keep Sample.midway (EvStart 0))) Sample.midway_reachable)
    as (w' & Ho & Hr).
  - vm_compute. reflexivity.
  - exists w'. split; [|exact Hr]. rewrite <- Ho. vm_compute. reflexivity.
Defined.

Lemma batcher_drains_witness :
  exists n w', internalRun Sample.keep n Sample.midway w' /\ quiescent w'.
Proof.
  apply (batcher_drains Sample.keep Sample.cfg [Some 0%nat] Sample.midway Sample.midway_reachable).
Defined.
