(* ===== verification/CopyBatchMoves.v ===== *)
(** * CopyBatchMoves: the goroutines of a copy batcher, one move at a time

    A program that waits for a batcher lets the batcher's timers and goroutines
    run. A [move] names what runs next without the outcome of a COPY, which is
    the database's. The lemmas say what a move leaves of the past: resolved
    futures stay, flushes keep their barriers, only a COPY that returns extends
    the record of copies; and [nextMove] finds a move as long as there is one. *)

From S2P Require Import Prelude Errors Future Telemetry CopyBatch CopyBatchInv CopyBatchSteps CopyBatchRuns CopyBatchClaims.

#[local] Open Scope Z_scope.

(** A timer fires, a fired one gets the lock; batch goroutine [i] starts, is in
    its COPY call, finishes a part, or ends; flush goroutine [i] takes a turn;
    time passes. *)
Inductive move :=
  | MTimer (id : nat)
  | MExpired (id : nat)
  | MStart (i : nat)
  | MCopy (i : nat)
  | MFinish (i : nat)
  | MComplete (i : nat)
  | MFlush (i : nat)
  | MTick (d : nat).

Section Moves.
Context {T Ctx : Type} (WithoutCancel : Ctx -> Ctx).
#[local] Abbreviation worldT := (world (T := T) (Ctx := Ctx)).
#[local] Abbreviation eventT := (event (T := T) (Ctx := Ctx)).
Implicit Types (w : worldT).

(** The event of a move; a COPY needs an outcome first. *)
Definition moveEvent (m : move) (outcome : Z * option error) : eventT :=
  match m with
  | MTimer id => EvTimerFires id
  | MExpired id => EvFlushExpired id
  | MStart i => EvStart i
  | MCopy i => EvCopyReturns i outcome.1 outcome.2
  | MFinish i => EvFinishOne i
  | MComplete i => EvComplete i
  | MFlush i => EvFlushTurn i
  | MTick d => EvTick d
  end.

(** A move that is possible, batches first: [None] when nothing is left. *)
Definition nextMove w : option move :=
  match running w with
  | GReady _ :: _ => Some (MStart 0)
  | GCopy _ _ :: _ => Some (MCopy 0)
  | GFinish _ (_ :: _) _ :: _ => Some (MFinish 0)
  | GFinish _ [] _ :: _ => Some (MComplete 0)
  | [] =>
      match elements (fired w), elements (armed w) with
      | id :: _, _ => Some (MExpired id)
      | [], id :: _ => Some (MTimer id)
      | [], [] => MFlush ∘ fst <$> list_find (fun fl => f_done (fl_result fl) = false) (flushes w)
      end
  end.

Lemma nextMove_enabled w m outcome :
  good w -> nextMove w = Some m ->
  internal (moveEvent m outcome) = true /\ is_Some (exec WithoutCancel w (moveEvent m outcome)).
Proof.
  intros Hg. unfold nextMove. destruct (running w) as [|g l] eqn:Hr.
  - destruct (elements (fired w)) as [|id ids] eqn:Hf; [destruct (elements (armed w)) as [|id ids] eqn:Ha|].
    + destruct (list_find _ (flushes w)) as [[i fl]|] eqn:E; [|done]. intros [= <-]. cbn [moveEvent fst]. split; [done|].
      apply list_find_Some in E as (Hi & Hd & _). apply elements_empty_iff, leibniz_equiv in Hf, Ha. destruct (idle_resolved w Hg Hr Ha Hf) as (_ & _ & _ & Hres).
      cbn [exec]. unfold flushTurn. rewrite Hi. destruct fl as [barrier [|r todo] es res]; cbn [fl_result] in Hd.
      { rewrite Hd. by eexists. }
      destruct (inv_flushes _ _ (g_inv _ Hg) i _ r Hi ltac:(left)) as [rq Hl]. rewrite Hl.
      unfold Await. rewrite (Hres r rq Hl). by eexists.
    + intros [= <-]. split; [done|]. cbn. unfold timerFires. rewrite bool_decide_eq_true_2; [by eexists|].
      apply elem_of_elements. rewrite Ha. left.
    + intros [= <-]. split; [done|]. cbn. rewrite bool_decide_eq_true_2; [by eexists|].
      apply elem_of_elements. rewrite Hf. left.
  - assert (H0 : running w !! 0%nat = Some g) by by rewrite Hr.
    destruct g as [b|b t|err [|r todo] completed]; intros [= <-]; (split; [done|]); cbn.
    + unfold startBatch. rewrite H0. by eexists.
    + unfold copyReturns. rewrite H0. by eexists.
    + unfold completeBatch. rewrite H0. by eexists.
    + unfold finishOne. rewrite H0. destruct (inv_known _ _ (g_inv _ Hg) r) as [rq Hl].
      { unfold parts. rewrite Hr, flat_cons. cbn. left. }
      rewrite Hl. destruct (finishPart rq err). by eexists.
Qed.

Lemma nextMove_None w : good w -> nextMove w = None -> quiescent w.
Proof.
  intros Hg. unfold nextMove. destruct (running w) as [|g l] eqn:Hr; [|by destruct g as [| |? [] ?]].
  destruct (elements (fired w)) eqn:Hf; [|done]. destruct (elements (armed w)) eqn:Ha; [|done].
  destruct (list_find _ (flushes w)) as [[i fl]|] eqn:E; [done|]. intros _.
  apply elements_empty_iff, leibniz_equiv in Hf, Ha.
  destruct (idle_resolved w Hg Hr Ha Hf) as (H1 & H2 & H3 & H4). split; [done..|].
  intros fl Hfl. apply list_find_None in E. rewrite Forall_forall in E. specialize (E fl Hfl).
  by destruct (f_done (fl_result fl)).
Qed.

(** ** What an event leaves *)

(** Scheduling records dispatched batches only. *)
Lemma schedule_record w w' :
  scheduleAndDispatch w = Ok w' -> accepted (hist w') = accepted (hist w) /\ copied (hist w') = copied (hist w).
Proof.
  unfold scheduleAndDispatch. destruct (scheduleLocked (bt w)) as [[batches b]| |]; [|done..]. by intros [= <-].
Qed.

Lemma submit_record w ctx e1 e2 rws coalesce f w' :
  good w -> submit WithoutCancel w ctx e1 e2 rws coalesce = Ok (f, w') -> copied (hist w') = copied (hist w).
Proof.
  intros [Hinv Ht _ _] Hs. destruct (decide (rws = [])) as [->|Hne].
  { unfold submit in Hs. cbn in Hs. by injection Hs as _ <-. }
  destruct e1 as [e|], e2 as [e'|]; try (by unfold submit in Hs; case_bool_decide; injection Hs as _ <-).
  destruct (submit_accepted WithoutCancel w ctx rws coalesce Hinv Ht Hne) as (w2 & w1 & Hsub & Hsch & _ & _ & (_ & Hh & _) & _).
  rewrite Hsub in Hs. injection Hs as _ <-. apply schedule_record in Hsch as [_ ->]. by rewrite Hh.
Qed.

(** The record of submissions and copies after an event. *)
Definition recorded w (e : eventT) w' : Prop :=
  match e with
  | EvSubmit _ _ _ _ _ => copied (hist w') = copied (hist w)
  | EvCopyReturns i count err =>
      accepted (hist w') = accepted (hist w) /\ exists b t, running w !! i = Some (GCopy b t) /\
        copied (hist w') = copied (hist w) ++ [(b, copyError b count err)]
  | _ => accepted (hist w') = accepted (hist w) /\ copied (hist w') = copied (hist w)
  end.

Lemma exec_recorded w e w' : good w -> exec WithoutCancel w e = Some (Ok w') -> recorded w e w'.
Proof.
  intros Hg.   destruct e as [ctx e1 e2 rws c|id|id|i|i n err|i|i|order|i|d]; cbn [exec recorded].
  - destruct (submit WithoutCancel w ctx e1 e2 rws c) as [[f w1]| |] eqn:Hs; [|done..]. intros [= <-]. by eapply submit_record.
  - intros (w1 & H & [= ->])%fmap_Some. unfold timerFires in H. case_bool_decide as Hin; [|done]. by injection H as <-.
  - case_bool_decide as Hin; [|done]. intros [= H]. unfold flushExpiredBatch in H.
    destruct (active _) as [b|]; [|by injection H as <-]. case_bool_decide as Hid; [|by injection H as <-].
    by apply schedule_record in H.
  - intros (w1 & H & [= ->])%fmap_Some. unfold startBatch in H. destruct (running w !! i) as [[]|]; try done. by injection H as <-.
  - intros (w1 & H & [= ->])%fmap_Some. unfold copyReturns in H. destruct (running w !! i) as [[|b t|]|]; try done.
    injection H as <-. split; [done|]. by exists b, t.
  - intros (w1 & H & [= ->])%fmap_Some. unfold finishOne in H.
    destruct (running w !! i) as [[| |? [|r todo] ?]|]; try done. destruct (requests w !! r); [|done].
    destruct (finishPart _ _). by injection H as <-.
  - unfold completeBatch. destruct (running w !! i) as [[| |? [|r todo] ?]|]; try done. intros [= H].
    by apply schedule_record in H.
  - case_bool_decide as Hord; [|done]. unfold FlushAsync. destruct (detachActiveLocked w _) as [batch w1] eqn:Hd.
    assert (H1 : hist w1 = hist w) by (unfold detachActiveLocked in Hd; destruct (active (bt w)); by injection Hd as <- <-).
    intros [= H]. destruct (scheduleAndDispatch _) as [w2| |] eqn:Hs; [|done..]. injection H as <-.
    apply schedule_record in Hs as [Ha Hc]. cbn in *. by rewrite H1 in Ha, Hc.
  - intros (w1 & H & [= ->])%fmap_Some. unfold flushTurn in H.
    destruct (flushes w !! i) as [[barrier [|r todo] es res]|]; [|..|done].
    + destruct (f_done res); [done|]. by injection H as <-.
    + destruct (requests w !! r) as [rq|]; [|done]. destruct (Await _ _ _ _ _) as [[]|]; [|done]. by injection H as <-.
  - by intros [= <-].
Qed.

(** A later world: resolved requests keep their results, flushes their
    barriers and their results, and copies their record. *)
Record laterWorld w w' : Prop := {
  lw_done r rq : requests w !! r = Some rq -> f_done (rq_result rq) = true ->
    exists rq', requests w' !! r = Some rq' /\ rq_result rq' = rq_result rq;
  lw_flush i fl : flushes w !! i = Some fl -> exists fl', flushes w' !! i = Some fl' /\
    fl_barrier fl' = fl_barrier fl /\ (f_done (fl_result fl) = true -> fl_result fl' = fl_result fl);
  lw_copied : copied (hist w) `prefix_of` copied (hist w');
}.

#[export] Instance laterWorld_refl : Reflexive laterWorld.
Proof. intros w. split; [eauto..|done]. Qed.
#[export] Instance laterWorld_trans : Transitive laterWorld.
Proof.
  intros w1 w2 w3 [D1 F1 C1] [D2 F2 C2]. split; [| |by etrans].
  - intros r rq H Hd. destruct (D1 r rq H Hd) as (rq2 & H2 & E2). rewrite <- E2 in Hd.
    destruct (D2 r rq2 H2 Hd) as (rq3 & H3 & E3). exists rq3. split; [done|]. congruence.
  - intros i fl H. destruct (F1 i fl H) as (fl2 & H2 & E2 & R2). destruct (F2 i fl2 H2) as (fl3 & H3 & E3 & R3).
    exists fl3. split; [done|]. split; [congruence|]. intros Hd. rewrite R3; [by apply R2|]. by rewrite R2.
Qed.

Lemma flushTurn_later w w' i : flushTurn w i = Some w' -> forall j fl, flushes w !! j = Some fl ->
  exists fl', flushes w' !! j = Some fl' /\ fl_barrier fl' = fl_barrier fl /\
    (f_done (fl_result fl) = true -> fl_result fl' = fl_result fl).
Proof.
  unfold flushTurn. intros H j fl Hj.
  destruct (flushes w !! i) as [[barrier todo es res]|] eqn:Hi; [|done].
  assert (Hset : forall fl1, fl_barrier fl1 = barrier -> (f_done res = true -> fl_result fl1 = res) ->
    w' = withFlushes w (<[i := fl1]> (flushes w)) -> exists fl', flushes w' !! j = Some fl' /\
      fl_barrier fl' = fl_barrier fl /\ (f_done (fl_result fl) = true -> fl_result fl' = fl_result fl)).
  { intros fl1 Hb Hres ->. cbn. destruct (decide (i = j)) as [<-|Hne].
    - rewrite Hi in Hj. injection Hj as <-. exists fl1. rewrite list_lookup_insert_eq; [done|by eapply lookup_lt_Some].
    - exists fl. by rewrite list_lookup_insert_ne. }
  destruct todo as [|r todo].
  - destruct (f_done res) eqn:Hd; [done|]. injection H as <-. by eapply Hset; cycle 2; [reflexivity|..].
  - destruct (requests w !! r) as [rq|]; [|done]. destruct (Await _ _ _ _ _) as [[u err]|]; [|done].
    injection H as <-. by eapply Hset; cycle 2; [reflexivity|..].
Qed.

Lemma exec_later w e w' : good w -> exec WithoutCancel w e = Some (Ok w') -> laterWorld w w'.
Proof.
  intros Hg He. destruct (exec_stable WithoutCancel w e w' Hg He) as [[_ Hst] Hf]. split; [exact Hst| |].
  2:{ pose proof (exec_recorded w e w' Hg He) as Hr. destruct e; cbn [recorded] in Hr;
      first [by rewrite Hr|by destruct Hr as [_ ->]|destruct Hr as (_ & b & t & _ & ->); by eexists]. }
  assert (Hsame : flushes w' = flushes w -> forall i fl, flushes w !! i = Some fl -> exists fl', flushes w' !! i = Some fl' /\
    fl_barrier fl' = fl_barrier fl /\ (f_done (fl_result fl) = true -> fl_result fl' = fl_result fl)).
  { intros -> i fl Hi. by exists fl. }
  destruct e as [ctx e1 e2 rws c|id|id|i|i n err|i|i|order|i|d]; try (by apply Hsame).
  - intros i fl Hi. exists fl. split; [|done]. rewrite Hf. by apply lookup_app_l_Some.
  - cbn [exec] in He. apply fmap_Some in He as (w1 & H & [= ->]). by eapply flushTurn_later.
Qed.

(** ** Requests and their rows *)

(** Every submission that was accepted has its result. *)
Definition allResolved w : Prop :=
  forall r rq, requests w !! r = Some rq -> f_done (rq_result rq) = true.


(** Rows are copied at most once. *)
Lemma copied_submseteq w : good w -> copiedRows w ⊆+ acceptedRows w.
Proof. intros Hg. rewrite (ri_rows _ (g_rows _ Hg)). by apply submseteq_inserts_r. Qed.

(** When everything is resolved, every accepted row was copied once. *)
Lemma resolved_copied w owner : good w -> ownerOk owner w -> allResolved w -> acceptedRows w ≡ₚ copiedRows w.
Proof.
  intros Hg Ho Hres. rewrite (ri_rows _ (g_rows _ Hg)). destruct (liveRows w) as [|x l] eqn:E; [by rewrite app_nil_r|].
  assert (Hp : owner x ∈ parts w) by (apply (live_row_part w owner x Hg Ho); rewrite E; left).
  destruct (inv_known _ _ (g_inv _ Hg) _ Hp) as [rq Hl].
  by destruct (done_no_parts w _ rq Hg Hl (Hres _ _ Hl)).
Qed.

(** How often a request occurs in a part of a list. *)
Lemma occ_submseteq r l1 l2 : l1 ⊆+ l2 -> occ r l1 <= occ r l2.
Proof. intros [k Hp]%submseteq_Permutation. rewrite (occ_perm r _ _ Hp), occ_app. pose proof (occ_nonneg r k). lia. Qed.

Lemma occ_fmap {A} (f : A -> nat) r l : occ r (f <$> l) = Z.of_nat (length (filter (fun y => f y = r) l)).
Proof.
  induction l as [|y l IH]; [done|]. cbn [fmap list_fmap]. destruct (decide (f y = r)) as [<-|Hne].
  - rewrite filter_cons_True, occ_cons_eq, IH by done. cbn [length]. lia.
  - by rewrite filter_cons_False, occ_cons_ne by done.
Qed.

(** A request with one outcome has its error, if it has one. *)
Lemma errorsOf_one r e (l : list part) : (r, e) ∈ l -> occ r (fst <$> l) <= 1 -> errorsOf r l = option_list e.
Proof.
  intros Hin. induction l as [|[r' e'] l IH]; [by apply elem_of_nil in Hin|]. cbn [fmap list_fmap fst].
  destruct (decide (r' = r)) as [->|Hne].
  - rewrite occ_cons_eq. intros Hocc. assert (Hnone : forall e, (r, e) ∉ l).
    { intros e1 H1%(list_elem_of_fmap_2 fst). apply occ_pos in H1. cbn [fst] in H1. lia. }
    apply elem_of_cons in Hin as [[= <-]|Hin]; [|by destruct (Hnone e)].
    change (errorsOf r ((r, e) :: l)) with (omap (fun p => if decide (p.1 = r) then p.2 else None) ([(r, e)] ++ l)).
    rewrite omap_app. fold (errorsOf r l). rewrite errorsOf_none by done. rewrite app_nil_r.
    cbn. rewrite decide_True by done. by destruct e.
  - rewrite occ_cons_ne by done. intros Hocc. apply elem_of_cons in Hin as [[= -> ?]|Hin]; [done|].
    rewrite <- (IH Hin Hocc). cbn. by rewrite decide_False.
Qed.

(** The parts that were copied are at most the rows: each part has its own. *)
Lemma copied_parts w owner :
  good w -> ownerOk owner w -> flat cb_requests (fst <$> copied (hist w)) ⊆+ owner <$> acceptedRows w.
Proof.
  intros Hg Ho. pose proof (ow_copied _ _ (ri_owned _ (g_rows _ Hg) owner Ho)) as Hoc.
  etrans; [|apply fmap_submseteq, copied_submseteq, Hg]. unfold copiedRows.
  induction Hoc as [|[b e] l [_ Hb] _ IH]; [done|]. cbn [fmap list_fmap fst]. rewrite !flat_cons, fmap_app.
  by apply submseteq_app.
Qed.

(** A submission of one row ends with what the COPY that held the row returned. *)
Lemma one_row_outcome w owner r rq x :
  good w -> ownerOk owner w -> filter (fun y => owner y = r) (acceptedRows w) = [x] ->
  requests w !! r = Some rq -> f_done (rq_result rq) = true ->
  exists b e, (b, e) ∈ copied (hist w) /\ x ∈ rows b /\ f_err (rq_result rq) = errorsJoin (option_list e).
Proof.
  intros Hg Ho Hone Hl Hd. assert (Hx : x ∈ filter (fun y => owner y = r) (acceptedRows w)) by (rewrite Hone; left).
  apply list_elem_of_filter in Hx as [Hxr Hx]. rewrite (ri_rows _ (g_rows _ Hg)) in Hx. apply elem_of_app in Hx as [Hx|Hx].
  2:{ apply (live_row_part w owner x Hg Ho) in Hx. rewrite Hxr in Hx. by destruct (done_no_parts w r rq Hg Hl Hd). }
  apply elem_of_concat in Hx as ([b e] & Hb & Hx). cbn [fst] in Hx. exists b, e. split; [done|]. split; [done|].
  pose proof (ow_copied _ _ (ri_owned _ (g_rows _ Hg) owner Ho)) as Hoc. rewrite Forall_forall in Hoc.
  pose proof (ownedBy_row _ _ _ (Hoc _ Hb) Hx) as Hr. cbn [fst] in Hr. rewrite Hxr in Hr.
  rewrite (inv_result _ _ (g_inv _ Hg) r rq Hl Hd), (inv_errs _ _ (g_inv _ Hg) r rq Hl). cbn [f_err].
  rewrite (errorsOf_one r e); [done|by eapply done_outcomes|].
  assert (Hsub : fst <$> finished (hist w) ⊆+ flat cb_requests (fst <$> copied (hist w))).
  { assert (Hfst : fst <$> flat outcomes (copied (hist w)) = flat cb_requests (fst <$> copied (hist w))).
    { clear. induction (copied (hist w)) as [|[b e] l IH]; [done|]. cbn [fmap list_fmap]. rewrite !flat_cons, fmap_app, IH.
      f_equal. unfold outcomes. cbn [fst]. rewrite <- list_fmap_compose. apply list_fmap_id. }
    rewrite <- Hfst, (inv_outcomes _ _ (g_inv _ Hg)), fmap_app. by apply submseteq_inserts_r. }
  etrans; [apply occ_submseteq; etrans; [exact Hsub|by apply copied_parts]|].
  by rewrite occ_fmap, Hone.
Qed.

(** When every request resolved without an error, no COPY failed. *)
Lemma succeeded_copies w owner :
  good w -> ownerOk owner w ->
  (forall r rq, requests w !! r = Some rq -> f_done (rq_result rq) = true /\ f_err (rq_result rq) = None) ->
  Forall (fun x => x.2 = None) (copied (hist w)).
Proof.
  intros Hg Ho Hres. apply Forall_forall. intros [b [e|]] Hb; [|done].
  pose proof (inv_copied _ _ (g_inv _ Hg)) as Hok. rewrite Forall_forall in Hok. destruct (Hok _ Hb) as [Hne _].
  cbn [fst] in Hne. destruct (rows b) as [|x l] eqn:Hx; [done|].
  assert (Hacc : x ∈ acceptedRows w).
  { rewrite (ri_rows _ (g_rows _ Hg)). apply elem_of_app. left. apply elem_of_concat. exists (b, Some e).
    split; [done|]. cbn. rewrite Hx. left. }
  apply elem_of_concat in Hacc as ([[id c] rws'] & Hin & Hrws). cbn [snd] in Hrws.
  pose proof (Ho id c rws' Hin) as Hid. rewrite Forall_forall in Hid. specialize (Hid x Hrws).
  assert (Hreq : owner x ∈ cb_requests b).
  { pose proof (ow_copied _ _ (ri_owned _ (g_rows _ Hg) owner Ho)) as Hoc. rewrite Forall_forall in Hoc.
    apply (ownedBy_row _ _ _ (Hoc _ Hb)). cbn [fst]. rewrite Hx. left. }
  destruct (proj2 (inv_accepted _ _ (g_inv _ Hg) (owner x))) as [rq Hl].
  { rewrite Hid. by apply (list_elem_of_fmap_2 (fun y : nat * bool * list T => y.1.1)) in Hin. }
  destruct (Hres _ _ Hl) as [Hd He].
  pose proof (done_outcomes w _ rq b (Some e) Hg Hl Hd Hb Hreq) as Hf.
  rewrite (inv_result _ _ (g_inv _ Hg) _ rq Hl Hd) in He. cbn in He. apply errorsJoin_None in He.
  apply errorsOf_elem in Hf. rewrite <- (inv_errs _ _ (g_inv _ Hg) _ rq Hl), He in Hf. by apply elem_of_nil in Hf.
Qed.

End Moves.
