(* ===== verification/Builder.v ===== *)
(** * Builder: the mesh and its builder (mesh.go, builder.go)

    [MeshBuilder] records the first failure and [Build] validates what was
    mapped. Replica sets are pointers into the heap of [Routing]: Build
    compares pointers, and reads the names behind them. *)

From S2P Require Import Prelude Errors GoStrings Hasher Balancer Routing Telemetry.

#[local] Open Scope Z_scope.

Section Builder.
Context {R W K : Type} `{!MirrorableWriter W}.
Context {Tracer Instrument Logger : Type}.
Context (gtp : TracerProvider Tracer) (gmp : MeterProvider Instrument).

#[local] Abbreviation goM := (stE (heap R W) error).
#[local] Abbreviation telemetryT := (meshTelemetry Tracer Instrument Logger).

Record Mesh := {
  virtualShards : list loc;
  replicaSets : list loc;
  hasher : ShardHasher K;
  telemetry : telemetryT;
}.

Definition Resolve (m : Mesh) (key : K) : result ResolvedShard :=
  let virtualShardIndex := hasher m key in
  if Z.of_nat (length (virtualShards m)) <=? virtualShardIndex then
    Err (Errorf "%w: got %d, valid range is [0,%d)"
      [AInt virtualShardIndex; AInt (Z.of_nat (length (virtualShards m)))]
      [Sentinel ErrVirtualShardOutOfRange])
  else
    p ← panic_if_none (virtualShards m !! Z.to_nat virtualShardIndex);
    mret {| rsh_virtualShardIndex := virtualShardIndex; rsh_replicaSet := p |}.

Definition ReplicaSets (m : Mesh) : list loc := replicaSets m.

Record MeshBuilder := MkBuilder {
  b_virtualShards : list (option loc);
  b_hasher : option (ShardHasher K);
  b_telemetry : telemetryT;
  b_err : option error;
}.

Definition NewMeshBuilder (virtualShardCount : Z) : result MeshBuilder :=
  let '(telemetry, telemetryErr) := newMeshTelemetry gtp gmp None None in
  n ← makeLen virtualShardCount;
  mret (MkBuilder (replicate n None) None telemetry telemetryErr).

Definition WithTracerProvider (b : MeshBuilder) (provider : option (TracerProvider Tracer))
    : MeshBuilder :=
  MkBuilder (b_virtualShards b) (b_hasher b)
    (setTracerProvider gtp (b_telemetry b) provider) (b_err b).

Definition WithMeterProvider (b : MeshBuilder) (provider : option (MeterProvider Instrument))
    : MeshBuilder :=
  let '(telemetry, err) := setMeterProvider gmp (b_telemetry b) provider in
  MkBuilder (b_virtualShards b) (b_hasher b) telemetry
    match err, b_err b with
    | Some e, None => Some (Errorf "configure OpenTelemetry metrics: %w" [] [e])
    | _, _ => b_err b
    end.

Definition WithLogger (b : MeshBuilder) (l : option Logger) : MeshBuilder :=
  let t := b_telemetry b in
  MkBuilder (b_virtualShards b) (b_hasher b)
    (MeshTelemetry (tracer t) (storeDuration t) (logicalDuration t) (physicalDuration t)
       (physicalInFlight t) (copyBatchRows t) (copyBatchSubmissions t) (copyBatchFlushes t)
       (copyBatchDuration t) (copyBatchQueueDuration t) l) (b_err b).

Definition WithShardHasher (b : MeshBuilder) (h : option (ShardHasher K)) : MeshBuilder :=
  MkBuilder (b_virtualShards b) h (b_telemetry b) (b_err b).

Definition setErr (b : MeshBuilder) (e : error) : MeshBuilder :=
  MkBuilder (b_virtualShards b) (b_hasher b) (b_telemetry b) (Some e).

Definition MapVirtualShard (b : MeshBuilder) (virtualShardIndex : Z) (replicaSet : option loc)
    : MeshBuilder :=
  match b_err b with
  | Some _ => b
  | None =>
      if Z.of_nat (length (b_virtualShards b)) <=? virtualShardIndex then
        setErr b (Errorf "%w: %d" [AInt virtualShardIndex] [Sentinel ErrVirtualShardOutOfRange])
      else
        match replicaSet with
        | None => setErr b (Errorf "%w: virtual shard %d" [AInt virtualShardIndex]
                              [Sentinel ErrNilReplicaSet])
        | Some p =>
            match mjoin (b_virtualShards b !! Z.to_nat virtualShardIndex) with
            | Some _ => setErr b (Errorf "%w: %d" [AInt virtualShardIndex]
                                    [Sentinel ErrVirtualShardAlreadyMapped])
            | None => MkBuilder (<[Z.to_nat virtualShardIndex := Some p]> (b_virtualShards b))
                        (b_hasher b) (b_telemetry b) None
            end
        end
  end.

(** The local variables of Build's loop. *)
Record buildState := BuildState {
  bs_virtualShards : list loc;
  bs_replicaSets : list loc;
  bs_seen : gset loc;
  bs_seenNames : gmap string loc;
}.

(** One iteration of Build's loop. *)
Definition buildShard (bs : buildState) (x : nat * option loc) : goM buildState :=
  let '(index, replicaSet) := x in
  match replicaSet with
  | None => throw (Errorf "%w: %d" [AInt (Z.of_nat index)] [Sentinel ErrVirtualShardNotMapped])
  | Some p =>
      name ← Name p;
      if isBlank name then
        throw (Errorf "%w: virtual shard %d" [AInt (Z.of_nat index)]
                 [Sentinel ErrEmptyReplicaSetName])
      else if match bs_seenNames bs !! name with
              | Some previous => negb (bool_decide (previous = p))
              | None => false
              end then
        throw (Errorf "%w: %q" [AStr name] [Sentinel ErrDuplicateReplicaSet])
      else
        let seenNames := <[name := p]> (bs_seenNames bs) in
        let virtualShards := bs_virtualShards bs ++ [p] in
        if bool_decide (p ∈ bs_seen bs)
        then mret (BuildState virtualShards (bs_replicaSets bs) (bs_seen bs) seenNames)
        else mret (BuildState virtualShards (bs_replicaSets bs ++ [p])
                     ({[p]} ∪ bs_seen bs) seenNames)
  end.

Definition Build (b : MeshBuilder) : goM Mesh :=
  match b_err b with
  | Some e => throw e
  | None =>
      if bool_decide (length (b_virtualShards b) = 0%nat) then throw (Sentinel ErrNoVirtualShards)
      else
        match b_hasher b with
        | None => throw (Sentinel ErrNilShardHasher)
        | Some h =>
            bs ← foldM buildShard (BuildState [] [] ∅ ∅) (imap pair (b_virtualShards b));
            mret {| virtualShards := bs_virtualShards bs;
                    replicaSets := bs_replicaSets bs;
                    hasher := h;
                    telemetry := b_telemetry b |}
        end
  end.

(** ** What Build returns *)

(** The distinct elements of a list, in the order of their first occurrence. *)
Fixpoint firstOccurrences (seen : gset loc) (l : list loc) : list loc :=
  match l with
  | [] => []
  | p :: l => if bool_decide (p ∈ seen) then firstOccurrences seen l
              else p :: firstOccurrences ({[p]} ∪ seen) l
  end.

Lemma firstOccurrences_elem seen l p :
  p ∈ firstOccurrences seen l <-> p ∈ l /\ p ∉ seen.
Proof.
  revert seen. induction l as [|q l IH]; intros seen; simpl.
  - split; [by intros ?%elem_of_nil|by intros [?%elem_of_nil _]].
  - case_bool_decide.
    + rewrite IH, elem_of_cons. set_solver.
    + rewrite !elem_of_cons, IH. destruct (decide (p = q)); set_solver.
Qed.

Lemma firstOccurrences_NoDup seen l : NoDup (firstOccurrences seen l).
Proof.
  revert seen. induction l as [|q l IH]; intros seen; simpl; [constructor|].
  case_bool_decide; [done|]. constructor; [|done].
  rewrite firstOccurrences_elem. set_solver.
Qed.

(** The order: whatever [firstOccurrences] puts later occurs first later. *)
Lemma firstOccurrences_order seen l i j p q :
  firstOccurrences seen l !! i = Some p -> firstOccurrences seen l !! j = Some q -> (i < j)%nat ->
  exists a, l !! a = Some p /\ forall b, l !! b = Some q -> (a < b)%nat.
Proof.
  revert seen i j. induction l as [|x l IH]; intros seen i j Hi Hj Hij; simpl in *; [done|].
  case_bool_decide as Hseen.
  - destruct (IH _ _ _ Hi Hj Hij) as (a & Ha & Hb).
    exists (S a). split; [done|]. intros [|b] Hq; simpl in Hq.
    + simplify_eq. apply list_elem_of_lookup_2, firstOccurrences_elem in Hj. naive_solver.
    + specialize (Hb b Hq). lia.
  - destruct j as [|j]; [lia|]. simpl in Hj.
    assert (Hqx : q <> x).
    { apply list_elem_of_lookup_2, firstOccurrences_elem in Hj. set_solver. }
    destruct i as [|i]; simpl in Hi.
    + simplify_eq. exists 0%nat. split; [done|].
      intros [|b] Hq; simpl in Hq; [congruence|lia].
    + destruct (IH _ i j Hi Hj) as (a & Ha & Hb); [lia|].
      exists (S a). split; [done|]. intros [|b] Hq; simpl in Hq; [congruence|].
      specialize (Hb b Hq). lia.
Qed.

(** The names behind a list of pointers. *)
Definition nameOf (h : heap R W) (p : loc) : option string := rs_name <$> replicaSetsAt h !! p.

(** What Build requires of the mapped pointers: they are live, their names are
    not blank and a name belongs to one pointer. *)
Definition buildable (h : heap R W) (ps : list loc) : Prop :=
  (forall p, p ∈ ps -> exists n, nameOf h p = Some n /\ isBlank n = false) /\
  (forall p q n, p ∈ ps -> q ∈ ps -> nameOf h p = Some n -> nameOf h q = Some n -> p = q).

Lemma Name_live h p n : nameOf h p = Some n -> Name p h = (Ok n, h).
Proof.
  unfold nameOf, Name, deref. intros H.
  destruct (replicaSetsAt h !! p) as [s|] eqn:E; [|done]. simpl in H. simplify_eq.
  by erewrite stE_bind_Ok by (by rewrite E).
Qed.

Lemma Name_inv h p n h' : Name p h = (Ok n, h') -> h' = h /\ nameOf h p = Some n.
Proof.
  intros H. apply stE_bind_inv in H as (s & h1 & Hs & [= <- <-]).
  unfold deref in Hs. unfold nameOf.
  destruct (replicaSetsAt h !! p); by simplify_eq/=.
Qed.

(** The loop's invariant: what the maps hold after some pointers. *)
Definition loopInv (h : heap R W) (done : list loc) (bs : buildState) : Prop :=
  bs_virtualShards bs = done /\
  (forall p, p ∈ bs_seen bs <-> p ∈ done) /\
  (forall n p, bs_seenNames bs !! n = Some p <-> p ∈ done /\ nameOf h p = Some n).

Lemma loopInv_nil h : loopInv h [] (BuildState [] [] ∅ ∅).
Proof.
  split_and!; [done|set_solver|]. intros n p. simpl. rewrite lookup_empty.
  split; [done|]. by intros [?%elem_of_nil _].
Qed.

(** The state after one accepted pointer. *)
Definition accept (bs : buildState) (p : loc) (n : string) : buildState :=
  if bool_decide (p ∈ bs_seen bs)
  then BuildState (bs_virtualShards bs ++ [p]) (bs_replicaSets bs) (bs_seen bs)
         (<[n := p]> (bs_seenNames bs))
  else BuildState (bs_virtualShards bs ++ [p]) (bs_replicaSets bs ++ [p])
         ({[p]} ∪ bs_seen bs) (<[n := p]> (bs_seenNames bs)).

Lemma accept_inv h done bs p n :
  loopInv h done bs -> nameOf h p = Some n ->
  (forall q, q ∈ done -> nameOf h q = Some n -> q = p) ->
  loopInv h (done ++ [p]) (accept bs p n).
Proof.
  intros (Hvs & Hseen & Hnames) Hn Hinj. unfold accept.
  assert (Hsn : forall m q, <[n := p]> (bs_seenNames bs) !! m = Some q <->
    q ∈ done ++ [p] /\ nameOf h q = Some m).
  { intros m q. rewrite lookup_insert_Some, Hnames, elem_of_app, list_elem_of_singleton.
    split.
    - intros [[<- <-]|[? [??]]]; eauto.
    - intros [[Hq| ->] Hqm]; [|naive_solver].
      destruct (decide (n = m)) as [<-|]; [|by right].
      left. split; [done|]. symmetry. by apply Hinj. }
  assert (Hsee : forall q, q ∈ {[p]} ∪ bs_seen bs <-> q ∈ done ++ [p]).
  { intros q. rewrite elem_of_app, list_elem_of_singleton, <- Hseen. set_solver. }
  case_bool_decide; (split_and!; simpl; [by rewrite Hvs| |exact Hsn]); [|exact Hsee].
  intros q. rewrite <- Hsee. set_solver.
Qed.

Lemma buildShard_accept h bs i p n :
  nameOf h p = Some n -> isBlank n = false ->
  match bs_seenNames bs !! n with
  | Some previous => negb (bool_decide (previous = p))
  | None => false
  end = false ->
  buildShard bs (i, Some p) h = (Ok (accept bs p n), h).
Proof.
  intros Hn Hblank Hprev. unfold buildShard, accept.
  rewrite (stE_bind_Ok _ _ _ _ _ (Name_live h p n Hn)), Hblank, Hprev.
  by case_bool_decide.
Qed.

Lemma buildLoop_ok h ps done bs k :
  buildable h (done ++ ps) -> loopInv h done bs ->
  exists bs', foldM buildShard bs (imap (fun i p => (k + i, Some p))%nat ps) h = (Ok bs', h) /\
    bs_virtualShards bs' = done ++ ps /\
    bs_replicaSets bs' = bs_replicaSets bs ++ firstOccurrences (bs_seen bs) ps.
Proof.
  revert done bs k. induction ps as [|p ps IH]; intros done bs k [Hlive Hinj] Hinv;
    pose proof Hinv as (Hvs & Hseen & Hnames).
  - exists bs. simpl. rewrite !app_nil_r. by split_and!.
  - destruct (Hlive p) as (n & Hn & Hblank); [set_solver|].
    assert (Hprev : match bs_seenNames bs !! n with
                    | Some previous => negb (bool_decide (previous = p))
                    | None => false
                    end = false).
    { destruct (bs_seenNames bs !! n) as [q|] eqn:E; [|done].
      apply Hnames in E as [Hq Hqn].
      rewrite bool_decide_eq_true_2; [done|]. apply (Hinj q p n); set_solver. }
    destruct (IH (done ++ [p]) (accept bs p n) (S k)) as (bs' & Hrun & Hvs' & Hrs').
    { rewrite <- app_assoc. done. }
    { apply accept_inv; [done..|]. intros q Hq Hqn. apply (Hinj q p n); set_solver. }
    exists bs'. simpl.
    rewrite (stE_bind_Ok _ _ _ _ _ (buildShard_accept h bs (k + 0) p n Hn Hblank Hprev)).
    rewrite <- (imap_ext (fun i p => (S k + i, Some p))%nat) by (intros; simpl; do 2 f_equal; lia).
    rewrite Hrun, Hvs', Hrs', <- app_assoc. split_and!; [done..|].
    unfold accept. case_bool_decide; simpl; [done|]. by rewrite <- app_assoc.
Qed.

Lemma imap_pair_Some (ps : list loc) :
  imap pair (Some <$> ps) = imap (fun i p => (0 + i, Some p))%nat ps.
Proof. by rewrite imap_fmap. Qed.

(** Build succeeds on every complete, well-named topology. *)
Lemma Build_ok h b ps hash :
  b_err b = None -> b_virtualShards b = Some <$> ps -> ps <> [] ->
  b_hasher b = Some hash -> buildable h ps ->
  Build b h = (Ok {| virtualShards := ps; replicaSets := firstOccurrences ∅ ps;
                     hasher := hash; telemetry := b_telemetry b |}, h).
Proof.
  intros Herr Hvs Hne Hh Hb. unfold Build. rewrite Herr, Hvs, Hh.
  rewrite length_fmap, bool_decide_eq_false_2 by (destruct ps; done).
  destruct (buildLoop_ok h ps [] (BuildState [] [] ∅ ∅) 0) as (bs & Hrun & Hvs' & Hrs').
  - done.
  - apply loopInv_nil.
  - rewrite imap_pair_Some, (stE_bind_Ok _ _ _ _ _ Hrun). simpl in *.
    by rewrite Hvs', Hrs'.
Qed.

Lemma buildable_snoc h ps p n :
  buildable h ps -> nameOf h p = Some n -> isBlank n = false ->
  (forall q, q ∈ ps -> nameOf h q = Some n -> q = p) -> buildable h (ps ++ [p]).
Proof.
  intros [Hlive Hinj] Hn Hb Hu. split.
  - intros q. rewrite elem_of_app, list_elem_of_singleton. intros [?| ->]; eauto.
  - intros q r m. rewrite !elem_of_app, !list_elem_of_singleton.
    intros [Hq| ->] [Hr| ->] Hqm Hrm; simplify_eq; eauto.
    symmetry. by eauto.
Qed.

(** Conversely, whatever Build accepts was complete and well named. *)
Lemma buildLoop_inv h xs bs bs' h' k done :
  loopInv h done bs -> buildable h done ->
  foldM buildShard bs (imap (fun i x => (k + i, x))%nat xs) h = (Ok bs', h') ->
  h' = h /\ exists ps, xs = Some <$> ps /\ buildable h (done ++ ps).
Proof.
  revert bs k done. induction xs as [|x xs IH]; intros bs k done Hinv Hdone Hrun; simpl in Hrun.
  - injection Hrun as _ <-. split; [done|]. exists []. by rewrite app_nil_r.
  - apply stE_bind_inv in Hrun as (bs1 & h1 & Hstep & Hrun).
    destruct x as [p|]; [|done]. pose proof Hstep as Hwhole. unfold buildShard in Hstep.
    apply stE_bind_inv in Hstep as (n & h2 & Hn & Hstep).
    apply Name_inv in Hn as [-> Hname].
    destruct (isBlank n) eqn:Hblank; [done|].
    destruct (match bs_seenNames bs !! n with
              | Some previous => negb (bool_decide (previous = p))
              | None => false
              end) eqn:Hprev; [done|].
    assert (Hinj : forall q, q ∈ done -> nameOf h q = Some n -> q = p).
    { intros q Hq Hqn. pose proof Hinv as (_ & _ & Hnames).
      assert (E : bs_seenNames bs !! n = Some q) by by apply Hnames.
      rewrite E in Hprev. by apply negb_false_iff, bool_decide_eq_true in Hprev. }
    pose proof (buildShard_accept h bs (k + 0) p _ Hname Hblank Hprev) as Hacc.
    simpl in Hwhole, Hacc. rewrite Hacc in Hwhole. injection Hwhole as <- <-.
    rewrite <- (imap_ext (fun i x => (S k + i, x))%nat) in Hrun
      by (intros; simpl; do 2 f_equal; lia).
    destruct (IH _ _ (done ++ [p]) (accept_inv h done bs p _ Hinv Hname Hinj)
      (buildable_snoc h done p _ Hdone Hname Hblank Hinj) Hrun) as (-> & ps & -> & Hps).
    split; [done|]. exists (p :: ps). split; [done|].
    by rewrite <- app_assoc in Hps.
Qed.

Lemma Build_inv h b m h' :
  Build b h = (Ok m, h') ->
  h' = h /\ b_err b = None /\ exists ps hash,
    b_virtualShards b = Some <$> ps /\ ps <> [] /\ b_hasher b = Some hash /\ buildable h ps.
Proof.
  unfold Build. intros H. destruct (b_err b); [done|].
  case_bool_decide as Hlen; [done|]. destruct (b_hasher b) as [hash|]; [|done].
  apply stE_bind_inv in H as (bs & h1 & Hrun & [= _ <-]).
  change (imap pair (b_virtualShards b))
    with (imap (fun i x => (0 + i, x))%nat (b_virtualShards b)) in Hrun.
  destruct (buildLoop_inv h (b_virtualShards b) _ bs h1 0 [] (loopInv_nil h)) as (-> & ps & Hps & Hb);
    [split; set_solver|exact Hrun|].
  split_and!; [done..|]. exists ps, hash. split_and!; [done| |done..].
  intros ->. by rewrite Hps in Hlen.
Qed.

(** ** Runs of MapVirtualShard *)

(** The fluent calls a client makes, in order. *)
Definition mapAll (b : MeshBuilder) (calls : list (Z * option loc)) : MeshBuilder :=
  foldl (fun b '(index, replicaSet) => MapVirtualShard b index replicaSet) b calls.

(** What is wrong with a call, given the calls before it: the specification the
    builder is checked against. *)
Definition callFault (n : nat) (earlier : list (Z * option loc)) (call : Z * option loc)
    : option sentinel :=
  if Z.of_nat n <=? call.1 then Some ErrVirtualShardOutOfRange
  else match call.2 with
       | None => Some ErrNilReplicaSet
       | Some _ => if bool_decide (call.1 ∈ earlier.*1) then Some ErrVirtualShardAlreadyMapped
                   else None
       end.

(** The first faulty call of a list, with its fault. *)
Fixpoint firstFault (n : nat) (earlier calls : list (Z * option loc)) : option sentinel :=
  match calls with
  | [] => None
  | c :: calls => match callFault n earlier c with
                  | Some s => Some s
                  | None => firstFault n (earlier ++ [c]) calls
                  end
  end.

(** The builder after the valid calls [earlier]. *)
Definition mappedBy (earlier : list (Z * option loc)) (n : nat) (b : MeshBuilder) : Prop :=
  b_err b = None /\ length (b_virtualShards b) = n /\
  forall i : Z, 0 <= i < Z.of_nat n ->
    ((i ∉ earlier.*1) /\ b_virtualShards b !! Z.to_nat i = Some None) \/
    (exists p, (i, Some p) ∈ earlier /\ b_virtualShards b !! Z.to_nat i = Some (Some p)).

Lemma mappedBy_fresh b n :
  b_err b = None -> b_virtualShards b = replicate n None -> mappedBy [] n b.
Proof.
  intros He Hv. split_and!; [done|by rewrite Hv, length_replicate|].
  intros i Hi. left. split; [by intros ?%elem_of_nil|].
  rewrite Hv. apply lookup_replicate_2. lia.
Qed.

(** One call: a fault is recorded and nothing else changes, and a valid call is
    added to the mapping. *)
Lemma MapVirtualShard_step earlier n b i r :
  mappedBy earlier n b -> 0 <= i ->
  match callFault n earlier (i, r) with
  | Some s => exists e, MapVirtualShard b i r = setErr b e /\ errorsIs e s
  | None => mappedBy (earlier ++ [(i, r)]) n (MapVirtualShard b i r)
  end.
Proof.
  intros (He & Hlen & Hmap) Hi. unfold callFault, MapVirtualShard. rewrite He, Hlen. simpl.
  destruct (Z.leb_spec (Z.of_nat n) i) as [Hr|Hr]; [by eexists|].
  destruct r as [p|]; [|by eexists].
  destruct (Hmap i) as [[Hnin Hl]|(p' & Hin & Hl)]; [lia|..]; rewrite Hl; simpl.
  - rewrite bool_decide_eq_false_2 by done. split_and!; simpl; [done|by rewrite length_insert|].
    intros j Hj. simpl. rewrite fmap_app, elem_of_app. simpl. destruct (decide (j = i)) as [->|Hne].
    + right. exists p. rewrite list_lookup_insert_eq by lia. split; [set_solver|done].
    + rewrite list_lookup_insert_ne by lia.
      destruct (Hmap j Hj) as [[??]|(q & Hq & ?)]; [left; set_solver|].
      right. exists q. by split; [apply elem_of_app; left|].
  - rewrite bool_decide_eq_true_2; [by eexists|].
    by apply (list_elem_of_fmap_2' fst _ (i, Some p')).
Qed.

Lemma mapAll_err calls b e : b_err b = Some e -> mapAll b calls = b.
Proof.
  intros He. induction calls as [|[i r] calls IH]; simpl; [done|].
  unfold mapAll in *. simpl. unfold MapVirtualShard. by rewrite He.
Qed.

Lemma mapAll_spec calls earlier n b :
  mappedBy earlier n b -> Forall (fun c => 0 <= c.1) calls ->
  match firstFault n earlier calls with
  | Some s => exists e, b_err (mapAll b calls) = Some e /\ errorsIs e s
  | None => mappedBy (earlier ++ calls) n (mapAll b calls)
  end.
Proof.
  revert earlier b. induction calls as [|[i r] calls IH]; intros earlier b Hb Hpos; simpl.
  { by rewrite app_nil_r. }
  apply Forall_cons in Hpos as [Hi Hpos].
  pose proof (MapVirtualShard_step earlier n b i r Hb Hi) as Hstep.
  destruct (callFault n earlier (i, r)) as [s|].
  - destruct Hstep as (e & Hs & He). exists e. unfold mapAll. simpl. rewrite Hs.
    change (foldl _ (setErr b e) calls) with (mapAll (setErr b e) calls).
    by rewrite (mapAll_err _ _ e).
  - specialize (IH _ _ Hstep Hpos). rewrite <- app_assoc in IH. exact IH.
Qed.

(** A valid, complete list of calls maps every shard. *)
Lemma mappedBy_complete calls n b :
  mappedBy calls n b -> (forall i, 0 <= i < Z.of_nat n -> i ∈ calls.*1) ->
  exists ps, b_virtualShards b = Some <$> ps /\ length ps = n /\
    forall i p, ps !! i = Some p -> (Z.of_nat i, Some p) ∈ calls.
Proof.
  intros (_ & Hlen & Hmap) Hall.
  assert (Hp : forall i, (i < n)%nat -> exists p, (Z.of_nat i, Some p) ∈ calls /\
    b_virtualShards b !! i = Some (Some p)).
  { intros i Hi. destruct (Hmap (Z.of_nat i)) as [[Hn _]|(p & ? & Hl)]; [lia|..].
    - destruct Hn. apply Hall. lia.
    - rewrite Nat2Z.id in Hl. by exists p. }
  assert (Hps : exists ps, b_virtualShards b = Some <$> ps).
  { assert (Hf : Forall is_Some (b_virtualShards b)).
    { apply Forall_lookup. intros i x Hx. destruct (Hp i) as (p & _ & Hl).
      - apply lookup_lt_Some in Hx. lia.
      - rewrite Hl in Hx. by simplify_eq. }
    clear -Hf. induction Hf as [|x l [p ->] _ [ps ->]]; [by exists []|by exists (p :: ps)]. }
  destruct Hps as [ps Hps]. exists ps. rewrite Hps, length_fmap in Hlen. split_and!; [done..|].
  intros i p Hip. destruct (Hp i) as (q & Hq & Hl).
  - apply lookup_lt_Some in Hip. lia.
  - rewrite Hps, list_lookup_fmap, Hip in Hl. simpl in Hl. by simplify_eq.
Qed.

End Builder.

Section Claims.
Context {R W K : Type} `{!MirrorableWriter W}.
Context {Tracer Instrument Logger : Type}.
Implicit Types (h : heap R W) (b : MeshBuilder (K := K) (Tracer := Tracer)
  (Instrument := Instrument) (Logger := Logger)).

(** C25: Build returns a mesh exactly for a builder that recorded no error, has
    at least one shard, has a hasher, and maps every shard to a live replica
    set with a non-blank name that no other mapped replica set has. The mesh
    then maps each shard as the builder did, keeps the builder's hasher and
    telemetry, and lists each physical replica set once; Build allocates and
    changes nothing. *)
Theorem build_correct h b m h' :
  Build b h = (Ok m, h') <->
  h' = h /\ b_err b = None /\ exists ps hash,
    b_virtualShards b = Some <$> ps /\ ps <> [] /\ b_hasher b = Some hash /\ buildable h ps /\
    m = {| virtualShards := ps; replicaSets := firstOccurrences ∅ ps;
           hasher := hash; telemetry := b_telemetry b |}.
Proof.
  split.
  - intros H. destruct (Build_inv h b m h' H) as (-> & He & ps & hash & Hvs & Hne & Hh & Hb).
    split_and!; [done..|]. exists ps, hash. split_and!; [done..|].
    rewrite (Build_ok h b ps hash) in H by done. by injection H as <-.
  - intros (-> & He & ps & hash & Hvs & Hne & Hh & Hb & ->). by apply Build_ok.
Qed.

(** The physical replica sets of a built mesh are exactly the sets its
    virtual shards map to, without duplicates, and ordered by the first virtual
    shard mapped to each: of two of them, the one listed earlier is mapped by a
    shard before every shard of the other. *)
Theorem replica_sets_ordered h b m h' :
  Build b h = (Ok m, h') ->
  NoDup (ReplicaSets m) /\
  (forall p, p ∈ ReplicaSets m <-> p ∈ virtualShards m) /\
  forall i j p q, ReplicaSets m !! i = Some p -> ReplicaSets m !! j = Some q -> (i < j)%nat ->
    exists a, virtualShards m !! a = Some p /\
      forall c, virtualShards m !! c = Some q -> (a < c)%nat.
Proof.
  intros H. destruct (Build_inv h b m h' H) as (-> & He & ps & hash & Hvs & Hne & Hh & Hb).
  rewrite (Build_ok h b ps hash) in H by done. injection H as <-. unfold ReplicaSets. simpl.
  split_and!.
  - apply firstOccurrences_NoDup.
  - intros p. rewrite firstOccurrences_elem. set_solver.
  - intros i j p q. apply firstOccurrences_order.
Qed.

(** The first faulty MapVirtualShard call decides the builder's error.
    After any run of calls on a builder with no error and no mapping, the error
    is the fault of the first call whose index is out of range, whose replica
    set is nil or whose index an earlier call mapped; later calls change
    neither the error nor the mapping. Without a faulty call there is no error
    and exactly the called shards are mapped, each to its call's set. *)
Theorem map_virtual_shard_first_error n b calls :
  b_err b = None -> b_virtualShards b = replicate n None ->
  Forall (fun c => 0 <= c.1) calls ->
  match firstFault n [] calls with
  | Some s => exists e, b_err (mapAll b calls) = Some e /\ errorsIs e s /\
      forall more, mapAll b (calls ++ more) = mapAll b calls
  | None => b_err (mapAll b calls) = None /\
      forall i : Z, 0 <= i < Z.of_nat n ->
        match mjoin (b_virtualShards (mapAll b calls) !! Z.to_nat i) with
        | Some p => (i, Some p) ∈ calls
        | None => i ∉ calls.*1
        end
  end.
Proof.
  intros He Hv Hpos.
  pose proof (mapAll_spec calls [] n b (mappedBy_fresh b n He Hv) Hpos) as Hspec.
  destruct (firstFault n [] calls) as [s|].
  - destruct Hspec as (e & Herr & Hs). exists e. split_and!; [done..|].
    intros more. unfold mapAll at 1. rewrite foldl_app. by apply (mapAll_err _ _ e).
  - destruct Hspec as (Herr & _ & Hmap). split; [done|].
    intros i Hi. by destruct (Hmap i Hi) as [[? ->]|(p & ? & ->)].
Qed.

(** C26: resolving a key never panics. A hash below the shard count yields that
    virtual shard with the replica set mapped to it; any other hash is the
    error ErrVirtualShardOutOfRange. *)
Theorem resolve_correct (m : Mesh (K := K) (Tracer := Tracer) (Instrument := Instrument)
    (Logger := Logger)) key :
  0 <= hasher m key ->
  match Resolve m key with
  | Ok s => hasher m key < Z.of_nat (length (virtualShards m)) /\
      ResolvedShard_VirtualShardIndex s = hasher m key /\
      virtualShards m !! Z.to_nat (hasher m key) = Some (rsh_replicaSet s)
  | Err e => Z.of_nat (length (virtualShards m)) <= hasher m key /\
      errorsIs e ErrVirtualShardOutOfRange
  | Panic => False
  end.
Proof.
  intros Hpos. unfold Resolve. destruct (Z.leb_spec (Z.of_nat (length (virtualShards m)))
    (hasher m key)) as [Hr|Hr]; [done|].
  destruct (virtualShards m !! Z.to_nat (hasher m key)) as [p|] eqn:E.
  - simpl. split_and!; [lia|done..].
  - apply lookup_ge_None in E. lia.
Qed.

End Claims.

(** A mesh of three virtual shards over two replica sets. *)
Module Sample.
Import Routing.Sample.

Definition base : MeshBuilder (K := Z) (Tracer := nat) (Instrument := string) (Logger := unit) :=
  MkBuilder (replicate 3 None) (Some (fun key => key)) sampleTelemetry None.

Definition heap0 : heap nat (list nat) :=
  ((p ← NewReplicaSet "eu" (node 1) [node 2];
    q ← NewReplicaSet "us" (node 3) [];
    mret (p, q)) emptyHeap).2.

Definition calls : list (Z * option loc) :=
  [(2, Some 2%positive); (0, Some 4%positive); (1, Some 2%positive)].

Definition builder := mapAll base calls.

Lemma names : nameOf heap0 4%positive = Some "us" /\ nameOf heap0 2%positive = Some "eu".
Proof. split; vm_compute; reflexivity. Qed.

Lemma live : buildable heap0 [4%positive; 2%positive; 2%positive].
Proof.
  destruct names as [Hus Heu]. split.
  - intros p Hp. repeat (apply elem_of_cons in Hp as [->|Hp]); [by exists "us"|by exists "eu"..|].
    by apply elem_of_nil in Hp.
  - intros p q n Hp Hq Hpn Hqn.
    repeat (apply elem_of_cons in Hp as [->|Hp]); try by apply elem_of_nil in Hp.
    all: repeat (apply elem_of_cons in Hq as [->|Hq]); try by apply elem_of_nil in Hq.
    all: congruence.
Qed.
End Sample.

Lemma build_correct_witness :
  Build Sample.builder Sample.heap0 = (Ok {|
    virtualShards := [4%positive; 2%positive; 2%positive];
    replicaSets := [4%positive; 2%positive];
    hasher := fun key => key; telemetry := sampleTelemetry |}, Sample.heap0).
Proof.
  apply build_correct. split; [reflexivity|]. split; [vm_compute; reflexivity|].
  exists [4%positive; 2%positive; 2%positive], (fun key => key).
  split; [vm_compute; reflexivity|]. split; [discriminate|].
  split; [vm_compute; reflexivity|]. split; [apply Sample.live|].
  vm_compute. reflexivity.
Defined.

Lemma replica_sets_ordered_witness : NoDup [4%positive; 2%positive].
Proof.
  apply (replica_sets_ordered Sample.heap0 Sample.builder {|
    virtualShards := [4%positive; 2%positive; 2%positive];
    replicaSets := [4%positive; 2%positive];
    hasher := fun key => key; telemetry := sampleTelemetry |} Sample.heap0).
  vm_compute. reflexivity.
Defined.

Lemma map_virtual_shard_first_error_witness :
  exists e, b_err (mapAll Sample.base (Sample.calls ++ [(1, Some 4%positive)])) = Some e /\
    errorsIs e ErrVirtualShardAlreadyMapped /\
    forall more, mapAll Sample.base ((Sample.calls ++ [(1, Some 4%positive)]) ++ more) =
                 mapAll Sample.base (Sample.calls ++ [(1, Some 4%positive)]).
Proof.
  apply (map_virtual_shard_first_error 3 Sample.base (Sample.calls ++ [(1, Some 4%positive)]));
    [reflexivity|reflexivity|].
  repeat constructor; simpl; lia.
Defined.

Lemma resolve_correct_witness :
  errorsIs match Resolve {| virtualShards := [4%positive; 2%positive];
      replicaSets := [4%positive; 2%positive];
      hasher := fun key : Z => key; telemetry := sampleTelemetry |} 2 with
    | Err e => e | _ => Foreign 0 end ErrVirtualShardOutOfRange.
Proof.
  apply (resolve_correct {| virtualShards := [4%positive; 2%positive];
      replicaSets := [4%positive; 2%positive];
      hasher := fun key : Z => key; telemetry := sampleTelemetry |} 2).
  simpl. lia.
Defined.
