(* ===== verification/Topology.v ===== *)
(** * Topology: opening a mesh from options (topology.go)

    OpenMesh folds its options into a configuration, validates it, opens every
    database node with the caller's opener, mirrors the main replica sets and
    hands the mapping to the builder. The opener is code of the caller: a
    parameter that sees the DSNs opened so far (it may fail on one call and
    succeed on the next) and returns a node or an error. The calls are recorded
    in the heap's [opened] list. *)

From S2P Require Import Prelude Errors GoStrings Hasher Balancer Routing Telemetry Builder.

#[local] Open Scope Z_scope.

Record replicaSetSpec := ReplicaSetSpec {
  sp_name : string;
  primaryDSN : string;
  replicaDSNs : list string;
}.

Record virtualShardMapping := VirtualShardMapping {
  virtualShardIndexes : list Z;
  mainReplicaSet : string;
  mirrorReplicaSets : list string;
}.

(** The half-open range [from, to): the loop, with its uint64 counter. *)
Fixpoint rangeLoop (fuel : nat) (index to : Z) (out : list Z) : list Z :=
  match fuel with
  | O => out
  | S fuel => if index <? to then rangeLoop fuel (u64 (index + 1)) to (out ++ [index]) else out
  end.

Definition VirtualShardRange (from to : Z) : result (list Z) :=
  if to <=? from then Ok []
  else cap ← makeLen (u64 (to - from)); mret (rangeLoop (S cap) from to []).

Section Topology.
Context {R W K : Type} `{!MirrorableWriter W}.
Context {Tracer Instrument Logger : Type}.
Context (gtp : TracerProvider Tracer) (gmp : MeterProvider Instrument).

#[local] Abbreviation goM := (stE (heap R W) error).

(** The caller's opener: the DSNs opened before, and the one to open. *)
Definition NodeOpener : Type := list string -> string -> error + Node R W.

Record openMeshConfig := OpenMeshConfig {
  cfg_replicaSets : list replicaSetSpec;
  virtualShardCount : Z;
  mappings : list virtualShardMapping;
  tracerProvider : option (TracerProvider Tracer);
  meterProvider : option (MeterProvider Instrument);
  cfg_logger : option Logger;
}.

Definition OpenMeshOption : Type := openMeshConfig -> openMeshConfig.

Definition WithReplicaSet (name primaryDSN : string) (replicaDSNs : list string)
    : OpenMeshOption := fun config =>
  OpenMeshConfig (cfg_replicaSets config ++ [ReplicaSetSpec name primaryDSN replicaDSNs])
    (virtualShardCount config) (mappings config) (tracerProvider config)
    (meterProvider config) (cfg_logger config).

Definition WithVirtualShardMapping (mainReplicaSet : string) (virtualShardIndexes : list Z)
    (mirrorReplicaSets : list string) : OpenMeshOption := fun config =>
  OpenMeshConfig (cfg_replicaSets config) (virtualShardCount config)
    (mappings config ++ [VirtualShardMapping virtualShardIndexes mainReplicaSet mirrorReplicaSets])
    (tracerProvider config) (meterProvider config) (cfg_logger config).

Definition WithTracerProvider (provider : option (TracerProvider Tracer))
    : OpenMeshOption := fun config =>
  OpenMeshConfig (cfg_replicaSets config) (virtualShardCount config) (mappings config)
    provider (meterProvider config) (cfg_logger config).

Definition WithMeterProvider (provider : option (MeterProvider Instrument))
    : OpenMeshOption := fun config =>
  OpenMeshConfig (cfg_replicaSets config) (virtualShardCount config) (mappings config)
    (tracerProvider config) provider (cfg_logger config).

Definition WithLogger (logger : option Logger) : OpenMeshOption := fun config =>
  OpenMeshConfig (cfg_replicaSets config) (virtualShardCount config) (mappings config)
    (tracerProvider config) (meterProvider config) logger.

(** ** Validation *)

(** One replica DSN of the replica set [name]. *)
Definition checkReplicaDSN (name : string) (_ : unit) (x : nat * string) : result unit :=
  let '(index, replicaDSN) := x in
  if isBlank replicaDSN then
    Err (Errorf "%w: replica %d of %q" [AInt (Z.of_nat index); AStr name] [Sentinel ErrEmptyDSN])
  else Ok tt.

(** One replica set of the configuration; [names] are the names before it. *)
Definition checkSpec (names : gset string) (spec : replicaSetSpec) : result (gset string) :=
  if isBlank (sp_name spec) then Err (Sentinel ErrEmptyReplicaSetName)
  else if bool_decide (sp_name spec ∈ names) then
    Err (Errorf "%w: %q" [AStr (sp_name spec)] [Sentinel ErrDuplicateReplicaSet])
  else if isBlank (primaryDSN spec) then
    Err (Errorf "%w: primary of %q" [AStr (sp_name spec)] [Sentinel ErrEmptyDSN])
  else
    _ ← foldO (checkReplicaDSN (sp_name spec)) tt (imap pair (replicaDSNs spec));
    mret ({[sp_name spec]} ∪ names).

(** One mirror of a mapping; [seenMirrors] are the mirrors before it. *)
Definition checkMirror (names : gset string) (main : string) (seenMirrors : gset string)
    (mirror : string) : result (gset string) :=
  if negb (bool_decide (mirror ∈ names)) then
    Err (Errorf "%w: mirror %q" [AStr mirror] [Sentinel ErrUnknownReplicaSet])
  else if bool_decide (mirror = main) then
    Err (Errorf "%w: replica set %q cannot mirror itself" [AStr mirror]
           [Sentinel ErrMirrorConfiguration])
  else if bool_decide (mirror ∈ seenMirrors) then
    Err (Errorf "%w: duplicate mirror %q" [AStr mirror] [Sentinel ErrMirrorConfiguration])
  else mret ({[mirror]} ∪ seenMirrors).

(** One virtual shard index of a mapping. *)
Definition checkIndex (count : Z) (mapped : list bool) (virtualShardIndex : Z)
    : result (list bool) :=
  if count <=? virtualShardIndex then
    Err (Errorf "%w: %d" [AInt virtualShardIndex] [Sentinel ErrVirtualShardOutOfRange])
  else
    b ← panic_if_none (mapped !! Z.to_nat virtualShardIndex);
    if b : bool then
      Err (Errorf "%w: %d" [AInt virtualShardIndex] [Sentinel ErrVirtualShardAlreadyMapped])
    else mret (<[Z.to_nat virtualShardIndex := true]> mapped).

(** The NUL separator of the mirror configurations. *)
Definition nul : string := String (Ascii.ascii_of_nat 0) "".

Definition checkMapping (names : gset string) (count : Z)
    (st : list bool * gmap string string) (mapping : virtualShardMapping)
    : result (list bool * gmap string string) :=
  let '(mapped, mirrorConfigurations) := st in
  if negb (bool_decide (mainReplicaSet mapping ∈ names)) then
    Err (Errorf "%w: main %q" [AStr (mainReplicaSet mapping)] [Sentinel ErrUnknownReplicaSet])
  else
    _ ← foldO (checkMirror names (mainReplicaSet mapping)) ∅ (mirrorReplicaSets mapping);
    let configuration := Join (mirrorReplicaSets mapping) nul in
    if match mirrorConfigurations !! mainReplicaSet mapping with
       | Some previous => negb (bool_decide (previous = configuration))
       | None => false
       end then
      Err (Errorf "%w for %q" [AStr (mainReplicaSet mapping)] [Sentinel ErrMirrorConfiguration])
    else
      mapped' ← foldO (checkIndex count) mapped (virtualShardIndexes mapping);
      mret (mapped', <[mainReplicaSet mapping := configuration]> mirrorConfigurations).

Definition checkMapped (_ : unit) (x : nat * bool) : result unit :=
  let '(index, ok) := x in
  if ok : bool then Ok tt
  else Err (Errorf "%w: %d" [AInt (Z.of_nat index)] [Sentinel ErrVirtualShardNotMapped]).

Definition validateMeshConfig (config : openMeshConfig) (openNode : option NodeOpener)
    (shardHasher : option (ShardHasher K)) : result unit :=
  if bool_decide (length (cfg_replicaSets config) = 0%nat) then Err (Sentinel ErrNoReplicaSets)
  else match openNode, shardHasher with
  | None, _ => Err (Sentinel ErrNilNodeOpener)
  | _, None => Err (Sentinel ErrNilShardHasher)
  | _, _ =>
      if virtualShardCount config =? 0 then Err (Sentinel ErrNoVirtualShards)
      else
        names ← foldO checkSpec ∅ (cfg_replicaSets config);
        n ← makeLen (virtualShardCount config);
        st ← foldO (checkMapping names (virtualShardCount config))
               (replicate n false, ∅) (mappings config);
        foldO checkMapped tt (imap pair st.1)
  end.

(** ** OpenMesh *)

(** Call the opener, which is recorded whether or not it succeeds. *)
Definition callOpen (openNode : NodeOpener) (dsn : string) : goM (Node R W) := fun h =>
  (match openNode (opened h) dsn with inl e => Err e | inr n => Ok n end,
   Heap (replicaSetsAt h) (balancersAt h) (fresh h) (opened h ++ [dsn])).

(** Wrap the error of a computation. *)
Definition wrapErr {A} (format name : string) (m : goM A) : goM A := fun h =>
  match m h with
  | (Err e, h') => (Err (Errorf format [AStr name] [e]), h')
  | r => r
  end.

(** Open the nodes of one replica set. *)
Definition openReplicaSet (openNode : NodeOpener) (replicaSets : gmap string loc)
    (spec : replicaSetSpec) : goM (gmap string loc) :=
  primary ← wrapErr "open primary node for replica set %q: %w" (sp_name spec)
              (callOpen openNode (primaryDSN spec));
  replicas ← foldM (fun replicas replicaDSN =>
               replica ← wrapErr "open replica node for replica set %q: %w" (sp_name spec)
                           (callOpen openNode replicaDSN);
               mret (replicas ++ [replica])) [] (replicaDSNs spec);
  p ← NewReplicaSet (sp_name spec) primary replicas;
  mret (<[sp_name spec := p]> replicaSets).

(** Mirror the main set of one mapping, unless an earlier mapping did. *)
Definition configureMapping (replicaSets : gmap string loc) (configured : gmap string loc)
    (mapping : virtualShardMapping) : goM (gmap string loc) :=
  match configured !! mainReplicaSet mapping with
  | Some _ => mret configured
  | None =>
      mirrors ← foldM (fun mirrors name =>
                  p ← lift (panic_if_none (replicaSets !! name));
                  w ← primaryWriter p;
                  mret (mirrors ++ [w])) [] (mirrorReplicaSets mapping);
      main ← lift (panic_if_none (replicaSets !! mainReplicaSet mapping));
      p ← WithWriteMirrors main mirrors;
      mret (<[mainReplicaSet mapping := p]> configured)
  end.

(** The MapVirtualShard calls of OpenMesh, in their order. *)
Definition shardCalls (mappings : list virtualShardMapping) (configured : gmap string loc)
    : list (Z * option loc) :=
  concat ((fun mapping => (fun index => (index, configured !! mainReplicaSet mapping)) <$>
            virtualShardIndexes mapping) <$> mappings).

Definition emptyConfig (count : Z) : openMeshConfig := OpenMeshConfig [] count [] None None None.

(** Fold the options; a nil one is an error. *)
Definition applyOptions (count : Z) (options : list (option OpenMeshOption))
    : result openMeshConfig :=
  foldO (fun config '(index, option) =>
    match option with
    | None => Err (Errorf "pgmesh: mesh option %d is nil" [AInt (Z.of_nat index)] [])
    | Some f => Ok (f config)
    end) (emptyConfig count) (imap pair options).

(** The options OpenMesh gives its builder before the mapping calls. *)
Definition openBuilder (builder : MeshBuilder (K := K)) (hash : option (ShardHasher K))
    (tp : option (TracerProvider Tracer)) (mp : option (MeterProvider Instrument))
    (l : option Logger) : MeshBuilder (K := K) :=
  Builder.WithLogger (Builder.WithMeterProvider gmp (Builder.WithTracerProvider gtp
    (WithShardHasher builder hash) tp) mp) l.

Definition OpenMesh (shardCount : Z) (openNode : option NodeOpener)
    (shardHasher : option (ShardHasher K)) (options : list (option OpenMeshOption))
    : goM (Mesh (K := K) (Tracer := Tracer) (Instrument := Instrument) (Logger := Logger)) :=
  config ← lift (applyOptions shardCount options);
  _ ← lift (validateMeshConfig config openNode shardHasher);
  open ← lift (panic_if_none openNode);
  replicaSets ← foldM (openReplicaSet open) ∅ (cfg_replicaSets config);
  configured ← foldM (configureMapping replicaSets) ∅ (mappings config);
  builder ← lift (NewMeshBuilder gtp gmp (virtualShardCount config));
  let builder := openBuilder builder shardHasher (tracerProvider config) (meterProvider config)
    (cfg_logger config) in
  Build (mapAll builder (shardCalls (mappings config) configured)).

(** ** What validation accepts *)

Definition specNames (config : openMeshConfig) : list string := sp_name <$> cfg_replicaSets config.

Definition specOk (spec : replicaSetSpec) : Prop :=
  isBlank (sp_name spec) = false /\ isBlank (primaryDSN spec) = false /\
  Forall (fun dsn => isBlank dsn = false) (replicaDSNs spec).

Definition mappingOk (names : gset string) (mapping : virtualShardMapping) : Prop :=
  mainReplicaSet mapping ∈ names /\
  Forall (fun m => m ∈ names /\ m <> mainReplicaSet mapping) (mirrorReplicaSets mapping) /\
  NoDup (mirrorReplicaSets mapping).

Definition allIndexes (ms : list virtualShardMapping) : list Z :=
  concat (virtualShardIndexes <$> ms).

(** A configuration that is complete and consistent, when the mappings of one
    main set agree on what [mirrors] gives for them. *)
Record consistent {A} {mirrors : virtualShardMapping -> A} (config : openMeshConfig) : Prop := {
  valid_sets : cfg_replicaSets config <> [];
  valid_count : 0 < virtualShardCount config < 2 ^ 63;
  valid_specs : Forall specOk (cfg_replicaSets config);
  valid_names : NoDup (specNames config);
  valid_mappings : Forall (mappingOk (list_to_set (specNames config))) (mappings config);
  valid_mirrors m m' : m ∈ mappings config -> m' ∈ mappings config ->
    mainReplicaSet m = mainReplicaSet m' -> mirrors m = mirrors m';
  valid_once : NoDup (allIndexes (mappings config));
  valid_range i : i ∈ allIndexes (mappings config) <-> 0 <= i < virtualShardCount config;
}.

(** A configuration OpenMesh can serve: the mirrors agree. *)
Definition validConfig (config : openMeshConfig) : Prop := consistent (mirrors := mirrorReplicaSets) config.

Lemma checkReplicaDSNs_Ok name (xs : list (nat * string)) :
  foldO (checkReplicaDSN name) tt xs = Ok tt <->
  Forall (fun dsn => isBlank dsn = false) xs.*2.
Proof.
  induction xs as [|[i d] xs IH]; [by split|].
  rewrite foldO_cons_Ok, fmap_cons, Forall_cons, <- IH. simpl. unfold checkReplicaDSN at 1.
  destruct (isBlank d); [naive_solver|]. split; [by intros ([] & _ & ?)|by intros [_ ?]; exists tt].
Qed.

Lemma imap_pair_snd {A} (l : list A) : (imap pair l).*2 = l.
Proof.
  apply list_eq. intros i. rewrite list_lookup_fmap, list_lookup_imap. by destruct (l !! i).
Qed.

Lemma checkSpec_Ok names spec names' :
  checkSpec names spec = Ok names' <->
  specOk spec /\ (sp_name spec ∉ names) /\ names' = {[sp_name spec]} ∪ names.
Proof.
  unfold checkSpec, specOk.
  destruct (isBlank (sp_name spec)); [naive_solver|].
  case_bool_decide; [naive_solver|].
  destruct (isBlank (primaryDSN spec)); [naive_solver|].
  pose proof (checkReplicaDSNs_Ok (sp_name spec) (imap pair (replicaDSNs spec))) as Hf.
  rewrite imap_pair_snd in Hf.
  destruct (foldO _ tt _) as [[]| |]; simpl; unfold mret, outcome_ret.
  - split; [intros [= <-]; naive_solver|]. by intros (_ & _ & ->).
  - split; [done|]. by intros ((_ & _ & H2%Hf) & _).
  - split; [done|]. by intros ((_ & _ & H2%Hf) & _).
Qed.

Lemma checkSpecs_Ok names specs names' :
  foldO checkSpec names specs = Ok names' <->
  Forall specOk specs /\ NoDup (sp_name <$> specs) /\
  (forall n, n ∈ (sp_name <$> specs) -> n ∉ names) /\
  names' = list_to_set (sp_name <$> specs) ∪ names.
Proof.
  revert names. induction specs as [|spec specs IH]; intros names.
  - simpl. split.
    + intros [= ->]. split_and!; [done|constructor|set_solver|set_solver].
    + intros (_ & _ & _ & ->). unfold mret, outcome_ret. f_equal. set_solver.
  - rewrite foldO_cons_Ok. setoid_rewrite checkSpec_Ok. setoid_rewrite IH.
    rewrite fmap_cons, Forall_cons, NoDup_cons. split.
    + intros (n1 & (Hok & Hnin & ->) & Hoks & Hnd & Hdis & ->).
      split_and!; [done..| |done| |simpl; set_solver].
      * intros Hin. apply (Hdis _ Hin). set_solver.
      * intros n [->|Hn]%elem_of_cons; [done|]. specialize (Hdis n Hn). set_solver.
    + intros ((Hok & Hoks) & (Hnin & Hnd) & Hdis & ->).
      exists ({[sp_name spec]} ∪ names). split_and!; [done| |done|done|done| |simpl; set_solver].
      * apply Hdis. left.
      * intros n Hn. pose proof (Hdis n ltac:(by right)). set_solver.
Qed.

Lemma checkMirrors_Ok names main seen ms seen' :
  foldO (checkMirror names main) seen ms = Ok seen' <->
  Forall (fun m => m ∈ names /\ m <> main) ms /\ NoDup ms /\
  (forall m, m ∈ ms -> m ∉ seen) /\ seen' = list_to_set ms ∪ seen.
Proof.
  revert seen. induction ms as [|m ms IH]; intros seen.
  - simpl. split.
    + intros [= ->]. split_and!; [done|constructor|set_solver|set_solver].
    + intros (_ & _ & _ & ->). unfold mret, outcome_ret. f_equal. set_solver.
  - rewrite foldO_cons_Ok. setoid_rewrite IH.
    assert (Hm : forall seen1, checkMirror names main seen m = Ok seen1 <->
      m ∈ names /\ m <> main /\ (m ∉ seen) /\ seen1 = {[m]} ∪ seen).
    { intros seen1. unfold checkMirror. case_bool_decide; simpl; [|by split; [|intros [? _]]].
      case_bool_decide; [by split; [|intros (_ & ? & _)]|].
      case_bool_decide; [by split; [|intros (_ & _ & ? & _)]|].
      split; [by intros [= <-]|]. by intros (_ & _ & _ & ->). }
    setoid_rewrite Hm. rewrite Forall_cons, NoDup_cons. split.
    + intros (s1 & (Hin & Hne & Hnin & ->) & Hoks & Hnd & Hdis & ->).
      split_and!; [done..| |done| |simpl; set_solver].
      * intros Hm'. apply (Hdis _ Hm'). set_solver.
      * intros n [->|Hn]%elem_of_cons; [done|]. specialize (Hdis n Hn). set_solver.
    + intros (((Hin & Hne) & Hoks) & (Hnin & Hnd) & Hdis & ->).
      exists ({[m]} ∪ seen). split_and!; [done|done| |done|done|done| |simpl; set_solver].
      * apply Hdis. left.
      * intros n Hn. pose proof (Hdis n ltac:(by right)). set_solver.
Qed.

(** The shards a run of indexes leaves mapped. *)
Definition markedBy (count : Z) (mapped : list bool) (l : list Z) (mapped' : list bool) : Prop :=
  length mapped' = length mapped /\
  forall i, 0 <= i < count ->
    mapped' !! Z.to_nat i = Some true <-> mapped !! Z.to_nat i = Some true \/ i ∈ l.

Lemma checkIndex_Ok count mapped i mapped' :
  Z.of_nat (length mapped) = count -> 0 <= i ->
  checkIndex count mapped i = Ok mapped' <->
  i < count /\ mapped !! Z.to_nat i = Some false /\ mapped' = <[Z.to_nat i := true]> mapped.
Proof.
  intros Hlen Hi. unfold checkIndex. destruct (Z.leb_spec count i) as [H|H].
  { split; [done|]. intros [? _]. lia. }
  destruct (mapped !! Z.to_nat i) as [[]|]; simpl; unfold mret, outcome_ret; naive_solver.
Qed.

Lemma checkIndexes_Ok count l mapped mapped' :
  Z.of_nat (length mapped) = count -> Forall (fun i => 0 <= i) l ->
  foldO (checkIndex count) mapped l = Ok mapped' ->
  Forall (fun i => i < count) l /\ NoDup l /\
  (forall i, i ∈ l -> mapped !! Z.to_nat i = Some false) /\ markedBy count mapped l mapped'.
Proof.
  intros Hlen Hpos. revert mapped Hlen. induction Hpos as [|i l Hi Hpos IH]; intros mapped Hlen.
  - intros [= ->]. split_and!; [done|constructor|set_solver|]. split; [done|]. set_solver.
  - rewrite foldO_cons_Ok. intros (m1 & Hm1 & Hrest).
    apply checkIndex_Ok in Hm1 as (Hlt & Hf & ->); [|done..].
    destruct (IH (<[Z.to_nat i := true]> mapped)) as (Hall & Hnd & Hfresh & Hl & Hmark);
      [by rewrite length_insert|done|].
    assert (Hnin : i ∉ l).
    { intros Hin. pose proof (Hfresh i Hin) as Hc.
      rewrite list_lookup_insert_eq in Hc by lia. done. }
    split_and!; [by constructor|by constructor| |].
    + intros j [->|Hj]%elem_of_cons; [done|]. pose proof (Hfresh j Hj) as Hc.
      rewrite list_lookup_insert_ne in Hc; [done|].
      intros E. apply Hnin. rewrite Forall_forall in Hpos. specialize (Hpos j Hj).
      assert (i = j) as -> by lia. done.
    + rewrite length_insert in Hl. split; [done|]. intros j Hj. rewrite Hmark by done.
      rewrite elem_of_cons. destruct (decide (i = j)) as [<-|Hne].
      * rewrite list_lookup_insert_eq by lia. naive_solver.
      * rewrite list_lookup_insert_ne by lia. naive_solver.
Qed.

Lemma checkIndexes_run count l mapped :
  Z.of_nat (length mapped) = count -> Forall (fun i => 0 <= i) l ->
  Forall (fun i => i < count) l -> NoDup l ->
  (forall i, i ∈ l -> mapped !! Z.to_nat i = Some false) ->
  exists mapped', foldO (checkIndex count) mapped l = Ok mapped'.
Proof.
  intros Hlen Hpos. revert mapped Hlen.
  induction Hpos as [|i l Hi Hpos IH]; intros mapped Hlen Hlt Hnd Hfresh; [by exists mapped|].
  apply Forall_cons in Hlt as [Hit Hlt]. apply NoDup_cons in Hnd as [Hnin Hnd].
  destruct (IH (<[Z.to_nat i := true]> mapped)) as [m' Hm'];
    [by rewrite length_insert|done|done| |].
  - intros j Hj. rewrite list_lookup_insert_ne.
    + apply Hfresh. by right.
    + intros E. rewrite Forall_forall in Hpos. specialize (Hpos j Hj).
      assert (i = j) as -> by lia. done.
  - exists m'. apply foldO_cons_Ok. exists (<[Z.to_nat i := true]> mapped). split; [|done].
    apply checkIndex_Ok; [done..|]. split_and!; [done| |done]. apply Hfresh. left.
Qed.

Lemma checkMapped_Ok (xs : list (nat * bool)) :
  foldO checkMapped tt xs = Ok tt <-> Forall (fun b => b = true) xs.*2.
Proof.
  induction xs as [|[i b] xs IH]; [by split|].
  rewrite foldO_cons_Ok, fmap_cons, Forall_cons, <- IH. simpl. destruct b.
  - split; [by intros ([] & _ & ?)|by intros [_ ?]; exists tt].
  - split; [by intros (? & ? & _)|by intros [? _]].
Qed.

Definition mirrorKey (m : virtualShardMapping) : string := Join (mirrorReplicaSets m) nul.

(** What the mapping loop has established of the mappings before it. *)
Record mappingsOk (names : gset string) (count : Z) (ms : list virtualShardMapping) : Prop := {
  mo_each : Forall (mappingOk names) ms;
  mo_once : NoDup (allIndexes ms);
  mo_range : Forall (fun i => i < count) (allIndexes ms);
  mo_mirrors m m' : m ∈ ms -> m' ∈ ms -> mainReplicaSet m = mainReplicaSet m' ->
    mirrorKey m = mirrorKey m';
}.

Record mappingInv (names : gset string) (count : Z) (ms : list virtualShardMapping)
    (st : list bool * gmap string string) : Prop := {
  mi_ok : mappingsOk names count ms;
  mi_len : Z.of_nat (length st.1) = count;
  mi_marks i : 0 <= i < count -> st.1 !! Z.to_nat i = Some true <-> i ∈ allIndexes ms;
  mi_keys m : m ∈ ms -> st.2 !! mainReplicaSet m = Some (mirrorKey m);
  mi_from n c : st.2 !! n = Some c -> exists m, m ∈ ms /\ mainReplicaSet m = n /\ c = mirrorKey m;
}.

Lemma mappingInv_nil names n :
  mappingInv names (Z.of_nat n) [] (replicate n false, ∅).
Proof.
  split; simpl.
  - split; [by constructor|by constructor|by constructor|set_solver].
  - by rewrite length_replicate.
  - intros i Hi. rewrite lookup_replicate_2 by lia. split; [done|]. set_solver.
  - set_solver.
  - intros n' c. by rewrite lookup_empty.
Qed.

Lemma allIndexes_snoc ms m : allIndexes (ms ++ [m]) = allIndexes ms ++ virtualShardIndexes m.
Proof. unfold allIndexes. rewrite fmap_app, concat_app. simpl. by rewrite app_nil_r. Qed.

(** A mark that is absent is false. *)
Lemma mappingInv_false names count ms st i :
  mappingInv names count ms st -> 0 <= i < count ->
  st.1 !! Z.to_nat i = Some false <-> i ∉ allIndexes ms.
Proof.
  intros Hinv Hi. rewrite <- (mi_marks _ _ _ _ Hinv i Hi).
  destruct (lookup_lt_is_Some_2 st.1 (Z.to_nat i)) as [[] ->];
    [pose proof (mi_len _ _ _ _ Hinv); lia|naive_solver..].
Qed.

Lemma checkMapping_inv names count ms st m st' :
  mappingInv names count ms st -> Forall (fun i => 0 <= i) (virtualShardIndexes m) ->
  checkMapping names count st m = Ok st' -> mappingInv names count (ms ++ [m]) st'.
Proof.
  intros Hinv Hpos. pose proof Hinv as [[Hea Hon Hra Hmi] Hlen Hmarks Hkeys Hfrom].
  destruct st as [mapped confs]. simpl in *. unfold checkMapping.
  case_bool_decide as Hmain; simpl; [|done].
  destruct (foldO (checkMirror _ _) ∅ _) as [seen| |] eqn:Hms; simpl; [|done..].
  apply checkMirrors_Ok in Hms as (Hmall & Hmnd & _ & _).
  destruct (match confs !! mainReplicaSet m with
            | Some previous => negb (bool_decide (previous = Join (mirrorReplicaSets m) nul))
            | None => false end) eqn:Hc; [done|].
  destruct (foldO (checkIndex count) mapped _) as [mapped'| |] eqn:Hix; simpl; [|done..].
  intros [= <-]. apply checkIndexes_Ok in Hix as (Hlt & Hnd & Hfr & Hl & Hmk); [|done..].
  assert (Hother : forall m', m' ∈ ms -> mainReplicaSet m' = mainReplicaSet m ->
    mirrorKey m' = mirrorKey m).
  { intros m' Hm' E. specialize (Hkeys m' Hm'). rewrite <- E, Hkeys in Hc.
    by apply negb_false_iff, bool_decide_eq_true in Hc. }
  split; simpl; [split| | | |].
  - apply Forall_app; split; [done|]. by apply Forall_singleton.
  - rewrite allIndexes_snoc. apply NoDup_app. split_and!; [done| |done].
    intros i Hi Hi'. pose proof (Hfr i Hi') as Hf. rewrite Forall_forall in Hlt, Hpos.
    apply (mappingInv_false _ _ _ (mapped, confs) _ Hinv) in Hf; [done|].
    split; [by apply Hpos|by apply Hlt].
  - rewrite allIndexes_snoc. by apply Forall_app.
  - intros m1 m2. rewrite !elem_of_app, !list_elem_of_singleton.
    intros [Hm1| ->] [Hm2| ->] E; [by apply Hmi|by apply Hother|symmetry; by apply Hother|done].
  - by rewrite Hl.
  - intros i Hi. by rewrite Hmk, Hmarks, allIndexes_snoc, elem_of_app.
  - intros m'. rewrite elem_of_app, list_elem_of_singleton.
    intros [Hm'| ->]; [|by rewrite lookup_insert_eq].
    destruct (decide (mainReplicaSet m' = mainReplicaSet m)) as [E|E].
    + by rewrite E, lookup_insert_eq, (Hother m' Hm' E).
    + rewrite lookup_insert_ne by done. by apply Hkeys.
  - intros n c'. rewrite lookup_insert_Some. intros [[<- <-]|[_ Hn]]; [exists m; set_solver|].
    destruct (Hfrom _ _ Hn) as (m' & ? & ? & ?). exists m'. set_solver.
Qed.

Lemma checkMapping_run names count ms st m :
  mappingInv names count ms st -> Forall (fun i => 0 <= i) (virtualShardIndexes m) ->
  mappingsOk names count (ms ++ [m]) -> exists st', checkMapping names count st m = Ok st'.
Proof.
  intros Hinv Hpos [Hea Hon Hra Hmi].
  apply Forall_app in Hea as [_ [(Hmain & Hmall & Hmnd) _]%Forall_cons].
  rewrite allIndexes_snoc in Hra, Hon. apply Forall_app in Hra as [_ Hlt].
  apply NoDup_app in Hon as (_ & Hdis & Hnd).
  destruct st as [mapped confs]. unfold checkMapping.
  rewrite bool_decide_eq_true_2 by done. simpl.
  rewrite (proj2 (checkMirrors_Ok names (mainReplicaSet m) ∅ (mirrorReplicaSets m)
    (list_to_set (mirrorReplicaSets m) ∪ ∅))) by (split_and!; [done|done|set_solver|done]).
  assert (Hk : match confs !! mainReplicaSet m with
    | Some previous => negb (bool_decide (previous = Join (mirrorReplicaSets m) nul))
    | None => false end = false).
  { destruct (confs !! mainReplicaSet m) as [c|] eqn:Hc; [|done].
    apply (mi_from _ _ _ _ Hinv) in Hc as (m' & Hin & E & ->).
    rewrite bool_decide_eq_true_2; [done|]. apply (Hmi m' m); set_solver. }
  simpl. rewrite Hk.
  destruct (checkIndexes_run count (virtualShardIndexes m) mapped) as [mapped' ->];
    [apply (mi_len _ _ _ _ Hinv)|done..| |by eexists].
  intros i Hi. rewrite Forall_forall in Hlt, Hpos.
  apply (mappingInv_false _ _ _ _ _ Hinv); [split; [by apply Hpos|by apply Hlt]|].
  intros Hi'. by apply (Hdis i).
Qed.

Lemma checkMappings_inv names count ms done st st' :
  mappingInv names count done st -> Forall (fun i => 0 <= i) (allIndexes ms) ->
  foldO (checkMapping names count) st ms = Ok st' -> mappingInv names count (done ++ ms) st'.
Proof.
  revert done st. induction ms as [|m ms IH]; intros done st Hinv Hpos.
  - intros [= ->]. by rewrite app_nil_r.
  - unfold allIndexes in Hpos. simpl in Hpos. apply Forall_app in Hpos as [Hp1 Hp2].
    rewrite foldO_cons_Ok. intros (st1 & H1 & H2).
    apply (checkMapping_inv _ _ _ _ _ _ Hinv Hp1) in H1.
    specialize (IH _ _ H1 Hp2 H2). by rewrite <- app_assoc in IH.
Qed.

Lemma mappingsOk_prefix names count ms ms' :
  mappingsOk names count (ms ++ ms') -> mappingsOk names count ms.
Proof.
  unfold allIndexes. intros [Hea Hon Hra Hmi].
  unfold allIndexes in Hon, Hra. rewrite fmap_app, concat_app in Hon, Hra.
  apply Forall_app in Hea as [? _]. apply NoDup_app in Hon as [? _].
  apply Forall_app in Hra as [? _]. split; [done..|].
  intros m m' Hm Hm'. apply Hmi; set_solver.
Qed.

Lemma checkMappings_run names count ms done st :
  mappingInv names count done st -> Forall (fun i => 0 <= i) (allIndexes ms) ->
  mappingsOk names count (done ++ ms) ->
  exists st', foldO (checkMapping names count) st ms = Ok st'.
Proof.
  revert done st. induction ms as [|m ms IH]; intros done st Hinv Hpos Hok; [by exists st|].
  unfold allIndexes in Hpos. simpl in Hpos. apply Forall_app in Hpos as [Hp1 Hp2].
  assert (Hok' : done ++ m :: ms = (done ++ [m]) ++ ms) by by rewrite <- app_assoc.
  rewrite Hok' in Hok.
  destruct (checkMapping_run names count done st m) as [st1 H1]; [done|done| |].
  { by apply mappingsOk_prefix in Hok. }
  destruct (IH (done ++ [m]) st1) as [st2 H2]; [by eapply checkMapping_inv|done|done|].
  exists st2. apply foldO_cons_Ok. by exists st1.
Qed.

Lemma checkIndexes_not_Panic count l mapped :
  Z.of_nat (length mapped) = count -> Forall (fun i => 0 <= i) l ->
  foldO (checkIndex count) mapped l <> Panic.
Proof.
  intros Hlen Hpos. revert mapped Hlen.
  induction Hpos as [|i l Hi Hpos IH]; intros mapped Hlen; simpl; [done|].
  destruct (checkIndex count mapped i) as [m1| |] eqn:E; simpl; [|done|].
  - apply checkIndex_Ok in E as (_ & _ & ->); [|done..]. apply IH. by rewrite length_insert.
  - unfold checkIndex in E. destruct (Z.leb_spec count i); [done|].
    destruct (lookup_lt_is_Some_2 mapped (Z.to_nat i)) as [b Hb]; [lia|].
    rewrite Hb in E. by destruct b.
Qed.

Lemma checkMapping_not_Panic names count ms st m :
  mappingInv names count ms st -> Forall (fun i => 0 <= i) (virtualShardIndexes m) ->
  checkMapping names count st m <> Panic.
Proof.
  intros Hinv Hpos. pose proof (mi_len _ _ _ _ Hinv) as Hlen.
  destruct st as [mapped confs]. unfold checkMapping. case_bool_decide; simpl; [|done].
  assert (Hm : foldO (checkMirror names (mainReplicaSet m)) ∅ (mirrorReplicaSets m) <> Panic).
  { apply foldO_not_Panic. intros b a _. unfold checkMirror. by repeat case_bool_decide. }
  destruct (foldO (checkMirror _ _) ∅ _) as [seen| |]; simpl; [|done..].
  pose proof (checkIndexes_not_Panic count (virtualShardIndexes m) mapped Hlen Hpos) as Hi.
  destruct (match confs !! mainReplicaSet m with Some _ => _ | None => _ end); [done|].
  by destruct (foldO (checkIndex count) mapped _).
Qed.

Lemma checkMappings_not_Panic names count ms done st :
  mappingInv names count done st -> Forall (fun i => 0 <= i) (allIndexes ms) ->
  foldO (checkMapping names count) st ms <> Panic.
Proof.
  revert done st. induction ms as [|m ms IH]; intros done st Hinv Hpos; simpl;
    [discriminate|].
  unfold allIndexes in Hpos. simpl in Hpos. apply Forall_app in Hpos as [Hp1 Hp2].
  pose proof (checkMapping_not_Panic names count done st m Hinv Hp1).
  destruct (checkMapping names count st m) as [st1| |] eqn:E; simpl; [|done..].
  apply (IH (done ++ [m])); [|done]. by eapply checkMapping_inv.
Qed.

(** ** Validation decides [validConfig] *)

(** The integers of a configuration are Go uint64s, and its count an int. *)
Definition configInts (config : openMeshConfig) : Prop :=
  0 <= virtualShardCount config < 2 ^ 63 /\ Forall (fun i => 0 <= i) (allIndexes (mappings config)).

(** No mirror name contains the separator. *)
Definition nulFree (config : openMeshConfig) : Prop :=
  Forall (fun m => Forall (fun n => hasByte (Ascii.ascii_of_nat 0) n = false)
    (mirrorReplicaSets m)) (mappings config).

Lemma checkMapped_all count ms st names :
  mappingInv names count ms st -> 0 <= count ->
  foldO checkMapped tt (imap pair st.1) = Ok tt <->
  forall i, 0 <= i < count -> i ∈ allIndexes ms.
Proof.
  intros Hinv Hc. rewrite checkMapped_Ok, imap_pair_snd, Forall_lookup.
  pose proof (mi_len _ _ _ _ Hinv) as Hlen. split.
  - intros Hall i Hi. apply (mi_marks _ _ _ _ Hinv); [done|].
    destruct (lookup_lt_is_Some_2 st.1 (Z.to_nat i)) as [b Hb]; [lia|].
    by rewrite Hb, (Hall _ _ Hb).
  - intros Hall k b Hb. pose proof (lookup_lt_Some _ _ _ Hb) as Hk.
    assert (Ht : st.1 !! Z.to_nat (Z.of_nat k) = Some true).
    { apply (mi_marks _ _ _ _ Hinv); [lia|]. apply Hall. lia. }
    rewrite Nat2Z.id, Hb in Ht. by simplify_eq.
Qed.

Lemma isBlank_empty : isBlank "" = true.
Proof. reflexivity. Qed.

(** The mirror keys of NUL-free lists of known names determine the lists. *)
Lemma mirrorKey_inj config m m' :
  Forall specOk (cfg_replicaSets config) -> nulFree config ->
  Forall (mappingOk (list_to_set (specNames config))) (mappings config) ->
  m ∈ mappings config -> m' ∈ mappings config ->
  mirrorKey m = mirrorKey m' -> mirrorReplicaSets m = mirrorReplicaSets m'.
Proof.
  intros Hspecs Hnul Hmaps Hm Hm' E.
  unfold nulFree in Hnul. rewrite Forall_forall in Hmaps.
  rewrite Forall_forall in Hspecs. rewrite Forall_forall in Hnul.
  assert (Hgood : forall x, x ∈ mappings config ->
    Forall (fun s => hasByte (Ascii.ascii_of_nat 0) s = false /\ s <> "") (mirrorReplicaSets x)).
  { intros x Hx. apply Forall_forall. intros n Hn.
    pose proof (Hnul x Hx) as Hz. rewrite Forall_forall in Hz. split; [by apply Hz|].
    intros ->. destruct (Hmaps x Hx) as (_ & Hall & _). rewrite Forall_forall in Hall.
    destruct (Hall _ Hn) as [Hin _]. apply elem_of_list_to_set, list_elem_of_fmap in Hin
      as (spec & Hs & Hspec). destruct (Hspecs spec Hspec) as (Hb & _).
    by rewrite <- Hs, isBlank_empty in Hb. }
  by apply (Join_inj (Ascii.ascii_of_nat 0)); [apply Hgood..|].
Qed.

(** A configuration the validation accepts: the joined names of the mirrors agree. *)
Definition acceptedConfig (config : openMeshConfig) : Prop := consistent (mirrors := mirrorKey) config.

Lemma valid_accepted config : validConfig config -> acceptedConfig config.
Proof.
  intros [? ? ? ? ? Hmirr ? ?]. split; [done..| |done|done]. intros m m' Hm Hm' E. unfold mirrorKey. by rewrite (Hmirr m m' Hm Hm' E).
Qed.

Lemma accepted_valid config : nulFree config -> acceptedConfig config -> validConfig config.
Proof.
  intros Hnul [? ? Hspecs ? Hmaps Hmirr ? ?]. split; [done..| |done|done].
  intros m m' Hm Hm' E. apply (mirrorKey_inj config); [done..|]. by apply Hmirr.
Qed.

Lemma validateMeshConfig_accepts config f hash :
  configInts config -> acceptedConfig config ->
  validateMeshConfig config (Some f) (Some hash) = Ok tt.
Proof.
  intros [Hc Hpos] [Hsets Hcount Hspecs Hnames Hmaps Hmirr Honce Hrange].
  unfold validateMeshConfig. rewrite bool_decide_eq_false_2 by (by destruct (cfg_replicaSets config)).
  destruct (Z.eqb_spec (virtualShardCount config) 0); [lia|].
  rewrite (proj2 (checkSpecs_Ok ∅ (cfg_replicaSets config)
    (list_to_set (specNames config) ∪ ∅))) by (split_and!; [done|done|set_solver|done]).
  simpl. unfold makeLen. destruct (Z.leb_spec (2 ^ 63) (virtualShardCount config)); [lia|]. simpl.
  rewrite (right_id_L ∅ (∪)).
  pose proof (mappingInv_nil (list_to_set (specNames config))
    (Z.to_nat (virtualShardCount config))) as Hinv. rewrite Z2Nat.id in Hinv by lia.
  destruct (checkMappings_run _ _ (mappings config) [] _ Hinv Hpos) as [st Hst].
  { split; [done|done| |].
    - apply Forall_forall. intros i Hi%Hrange. lia.
    - exact Hmirr. }
  rewrite Hst. simpl.
  apply (checkMappings_inv _ _ _ _ _ _ Hinv Hpos) in Hst.
  apply (checkMapped_all _ _ _ _ Hst); [lia|]. intros i Hi. by apply Hrange.
Qed.

Lemma validateMeshConfig_accepted config f hash :
  configInts config -> validateMeshConfig config (Some f) (Some hash) = Ok tt -> acceptedConfig config.
Proof.
  intros [Hc Hpos]. unfold validateMeshConfig. case_bool_decide as Hsets; [done|].
  destruct (Z.eqb_spec (virtualShardCount config) 0); [done|].
  destruct (foldO checkSpec ∅ _) as [names| |] eqn:Hspec; simpl; [|done..].
  apply checkSpecs_Ok in Hspec as (Hspecs & Hnames & _ & ->). rewrite (right_id_L ∅ (∪)).
  unfold makeLen. destruct (Z.leb_spec (2 ^ 63) (virtualShardCount config)); [done|]. simpl.
  pose proof (mappingInv_nil (list_to_set (specNames config))
    (Z.to_nat (virtualShardCount config))) as Hinv. rewrite Z2Nat.id in Hinv by lia.
  destruct (foldO (checkMapping _ _) _ _) as [st| |] eqn:Hst; simpl; [|done..].
  apply (checkMappings_inv _ _ _ _ _ _ Hinv Hpos) in Hst. simpl in Hst.
  rewrite (checkMapped_all _ _ _ _ Hst) by lia. intros Hall.
  destruct (mi_ok _ _ _ _ Hst) as [Hea Hon Hra Hmi]. split; [|lia|done..| |done|].
  - intros E. by rewrite E in Hsets.
  - exact Hmi.
  - intros i. split; [|apply Hall]. rewrite Forall_forall in Hra, Hpos. intros Hi.
    split; [by apply Hpos|by apply Hra].
Qed.

Lemma validateMeshConfig_run config f hash :
  configInts config -> validConfig config -> validateMeshConfig config (Some f) (Some hash) = Ok tt.
Proof. intros Hints Hv. by apply validateMeshConfig_accepts, valid_accepted. Qed.

Lemma validateMeshConfig_inv config f hash :
  configInts config -> nulFree config ->
  validateMeshConfig config (Some f) (Some hash) = Ok tt -> validConfig config.
Proof. intros Hints Hnul H. by eapply accepted_valid, validateMeshConfig_accepted. Qed.

Lemma validateMeshConfig_not_Panic config f hash :
  configInts config -> validateMeshConfig config f hash <> Panic.
Proof.
  intros [Hc Hpos]. unfold validateMeshConfig. case_bool_decide; [done|].
  destruct f, hash; try done. destruct (virtualShardCount config =? 0); [done|].
  assert (Hs : foldO checkSpec ∅ (cfg_replicaSets config) <> Panic).
  { apply foldO_not_Panic. intros names spec _. unfold checkSpec.
    destruct (isBlank _); [done|]. case_bool_decide; [done|]. destruct (isBlank _); [done|].
    assert (Hr : foldO (checkReplicaDSN (sp_name spec)) tt (imap pair (replicaDSNs spec)) <> Panic).
    { apply foldO_not_Panic. intros [] [? d] _. simpl. by destruct (isBlank d). }
    by destruct (foldO _ tt _). }
  destruct (foldO checkSpec ∅ _) as [names| |]; simpl; [|done..].
  unfold makeLen. destruct (Z.leb_spec (2 ^ 63) (virtualShardCount config)); [lia|]. simpl.
  pose proof (mappingInv_nil names (Z.to_nat (virtualShardCount config))) as Hinv.
  rewrite Z2Nat.id in Hinv by lia.
  pose proof (checkMappings_not_Panic _ _ (mappings config) _ _ Hinv Hpos).
  destruct (foldO (checkMapping _ _) _ _) as [st| |]; simpl; [|done..].
  apply foldO_not_Panic. intros [] [? []] _; done.
Qed.

End Topology.
