(* ===== verification/OpenMesh.v ===== *)
(** * OpenMesh: what opening a mesh guarantees

    Theorems about [Topology.OpenMesh]: the calls it makes to the node opener,
    its errors, and the mesh it returns for a valid configuration. *)

From S2P Require Import Prelude Errors GoStrings Hasher Balancer Routing Telemetry Builder Topology.

#[local] Open Scope Z_scope.

(** The DSNs of a replica set, and of a configuration, in option order. *)
Definition specDSNs (spec : replicaSetSpec) : list string := primaryDSN spec :: replicaDSNs spec.
Definition allDSNs (specs : list replicaSetSpec) : list string := concat (specDSNs <$> specs).

Section Opening.
Context {R W K : Type} `{!MirrorableWriter W}.
Context (f : NodeOpener (R := R) (W := W)) (node : string -> Node R W).
Implicit Types (h : heap R W).

(** The replica set [p] is the one opened for [spec], with the given mirrors. *)
Definition isSetOf h (p : loc) (spec : replicaSetSpec) (mirrors : list W) : Prop :=
  exists s, replicaSetsAt h !! p = Some s /\ rs_name s = sp_name spec /\
    primary s = node (primaryDSN spec) /\ writeMirrors s = mirrors /\
    set_wf h s (node <$> replicaDSNs spec).

(** Allocation only extends the heap. *)
Definition extends h h' : Prop :=
  replicaSetsAt h ⊆ replicaSetsAt h' /\ forall s rs, set_wf h s rs -> set_wf h' s rs.

#[local] Instance extends_refl : Reflexive extends.
Proof. by split. Qed.
#[local] Instance extends_trans : Transitive extends.
Proof. intros h1 h2 h3 [??] [??]. split; [by etrans|eauto]. Qed.

Lemma isSetOf_mono h h' p spec ms : extends h h' -> isSetOf h p spec ms -> isSetOf h' p spec ms.
Proof.
  intros [Hsub Hwf] (s & Hs & ? & ? & ? & ?). exists s. split_and!; eauto.
  by eapply lookup_weaken.
Qed.

Lemma extends_insert h h' p s :
  replicaSetsAt h !! p = None -> replicaSetsAt h' = <[p := s]> (replicaSetsAt h) ->
  (forall s' rs, set_wf h s' rs -> set_wf h' s' rs) -> extends h h'.
Proof. intros Hn Hh Hwf. split; [|done]. rewrite Hh. by apply insert_subseteq. Qed.

Definition withOpened h (l : list string) : heap R W :=
  Heap (replicaSetsAt h) (balancersAt h) (fresh h) (opened h ++ l).

Lemma withOpened_wf h l : heap_wf h -> heap_wf (withOpened h l).
Proof. intros [Hs Hb]. by split. Qed.

Lemma withOpened_app h l1 l2 : withOpened (withOpened h l1) l2 = withOpened h (l1 ++ l2).
Proof. unfold withOpened. simpl. by rewrite app_assoc. Qed.

Lemma wrapErr_Ok {A} fmt name (m : stE (heap R W) error A) h a h' :
  m h = (Ok a, h') -> wrapErr fmt name m h = (Ok a, h').
Proof. unfold wrapErr. by intros ->. Qed.

Lemma wrapErr_Err {A} fmt name (m : stE (heap R W) error A) h e h' :
  m h = (Err e, h') -> wrapErr fmt name m h = (Err (Errorf fmt [AStr name] [e]), h').
Proof. unfold wrapErr. by intros ->. Qed.

Lemma callOpen_Ok h d n : f (opened h) d = inr n -> callOpen f d h = (Ok n, withOpened h [d]).
Proof. unfold callOpen. by intros ->. Qed.

Lemma callOpen_Err h d e : f (opened h) d = inl e -> callOpen f d h = (Err e, withOpened h [d]).
Proof. unfold callOpen. by intros ->. Qed.

(** The replica loop of [openReplicaSet]. *)
Definition openReplica (name : string) (replicas : list (Node R W)) (replicaDSN : string)
    : stE (heap R W) error (list (Node R W)) :=
  replica ← wrapErr "open replica node for replica set %q: %w" name (callOpen f replicaDSN);
  mret (replicas ++ [replica]).

Lemma openReplicas_Ok name l h acc :
  (forall hist d, d ∈ l -> f hist d = inr (node d)) ->
  foldM (openReplica name) acc l h = (Ok (acc ++ (node <$> l)), withOpened h l).
Proof.
  revert h acc. induction l as [|d l IH]; intros h acc Hf; simpl.
  - unfold withOpened. rewrite !app_nil_r. by destruct h.
  - rewrite (stE_bind_Ok _ _ h (acc ++ [node d]) (withOpened h [d])).
    + rewrite IH by (intros; apply Hf; by right). rewrite withOpened_app.
      by rewrite <- app_assoc.
    + unfold openReplica. by rewrite (stE_bind_Ok _ _ _ _ _
        (wrapErr_Ok _ _ _ _ _ _ (callOpen_Ok h d (node d) (Hf _ d ltac:(left))))).
Qed.

(** Opening one replica set whose nodes all open. *)
Lemma openReplicaSet_Ok h m spec :
  heap_wf h -> (forall hist d, d ∈ specDSNs spec -> f hist d = inr (node d)) ->
  exists p h', openReplicaSet f m spec h = (Ok (<[sp_name spec := p]> m), h') /\
    heap_wf h' /\ extends h h' /\ opened h' = opened h ++ specDSNs spec /\ isSetOf h' p spec [].
Proof.
  intros Hwf Hf. set (h1 := withOpened h (specDSNs spec)).
  destruct (NewReplicaSet_spec (sp_name spec) (node (primaryDSN spec)) (node <$> replicaDSNs spec) h1)
    as (p & h' & Hnew & Hwf' & Hop & Hnone & s & Hsets & Hname & Hpri & Hmir & Hset & Hmono).
  { by apply withOpened_wf. }
  exists p, h'. split_and!; [|done| |by rewrite Hop|].
  - unfold openReplicaSet.
    rewrite (stE_bind_Ok _ _ _ _ _ (wrapErr_Ok _ _ _ _ _ _
      (callOpen_Ok h _ _ (Hf _ (primaryDSN spec) ltac:(left))))).
    rewrite (stE_bind_Ok _ _ _ (node <$> replicaDSNs spec) h1).
    + by rewrite (stE_bind_Ok _ _ _ _ _ Hnew).
    + change (foldM (openReplica (sp_name spec)) [] (replicaDSNs spec)
        (withOpened h [primaryDSN spec]) = (Ok (node <$> replicaDSNs spec), h1)).
      rewrite openReplicas_Ok by (intros; apply Hf; by right). by rewrite withOpened_app.
  - by eapply extends_insert.
  - exists s. split_and!; [|done..]. by rewrite Hsets, lookup_insert_eq.
Qed.

Lemma openSets_Ok specs h m :
  heap_wf h -> (forall hist d, d ∈ allDSNs specs -> f hist d = inr (node d)) ->
  NoDup (sp_name <$> specs) ->
  exists m' h', foldM (openReplicaSet f) m specs h = (Ok m', h') /\
    heap_wf h' /\ extends h h' /\ opened h' = opened h ++ allDSNs specs /\
    (forall spec, spec ∈ specs -> exists p, m' !! sp_name spec = Some p /\ isSetOf h' p spec []) /\
    (forall n, n ∉ sp_name <$> specs -> m' !! n = m !! n).
Proof.
  revert h m. induction specs as [|spec specs IH]; intros h m Hwf Hf Hnd.
  - exists m, h. rewrite app_nil_r. split_and!; [done..|set_solver|done].
  - rewrite fmap_cons in Hnd. apply NoDup_cons in Hnd as [Hnin Hnd].
    destruct (openReplicaSet_Ok h m spec Hwf) as (p & h1 & Hrun & Hwf1 & Hext1 & Hop1 & Hset1).
    { intros hist d Hd. apply Hf. unfold allDSNs. set_solver. }
    destruct (IH h1 (<[sp_name spec := p]> m) Hwf1) as (m' & h' & Hrun' & Hwf' & Hext & Hop & Hall & Hold);
      [intros hist d Hd; apply Hf; unfold allDSNs in *; set_solver|done|].
    exists m', h'. split_and!; [|done|by etrans| | |].
    + simpl. by rewrite (stE_bind_Ok _ _ _ _ _ Hrun).
    + rewrite Hop, Hop1, <- app_assoc. done.
    + intros spec' [->|Hs]%elem_of_cons; [|by apply Hall].
      exists p. rewrite Hold by done. split; [by rewrite lookup_insert_eq|].
      by eapply isSetOf_mono.
    + intros n Hn. rewrite Hold by set_solver. rewrite lookup_insert_ne; [done|]. set_solver.
Qed.

(** ** Mirroring *)

(** [w] is the primary writer of the configured set called [name]. *)
Definition isMirror (specs : list replicaSetSpec) (name : string) (w : W) : Prop :=
  exists spec, spec ∈ specs /\ sp_name spec = name /\ w = Writer (node (primaryDSN spec)).

(** The map of opened sets covers the specs. *)
Definition opensAll h (specs : list replicaSetSpec) (m : gmap string loc) : Prop :=
  forall spec, spec ∈ specs -> exists p, m !! sp_name spec = Some p /\ isSetOf h p spec [].

Lemma opensAll_mono h h' specs m : extends h h' -> opensAll h specs m -> opensAll h' specs m.
Proof.
  intros He Ho spec Hs. destruct (Ho spec Hs) as (p & ? & ?). exists p. split; [done|].
  by eapply isSetOf_mono.
Qed.

Definition addMirror (replicaSets : gmap string loc) (mirrors : list W) (name : string)
    : stE (heap R W) error (list W) :=
  p ← lift (panic_if_none (replicaSets !! name));
  w ← primaryWriter p;
  mret (mirrors ++ [w]).

Lemma addMirrors_Ok h specs m names acc :
  opensAll h specs m -> (forall n, n ∈ names -> n ∈ sp_name <$> specs) ->
  exists ws, foldM (addMirror m) acc names h = (Ok (acc ++ ws), h) /\
    Forall2 (isMirror specs) names ws.
Proof.
  intros Ho. revert acc. induction names as [|n names IH]; intros acc Hn.
  - exists []. rewrite app_nil_r. by split.
  - destruct (proj1 (list_elem_of_fmap _ _ _) (Hn n ltac:(left))) as (spec & -> & Hs).
    destruct (Ho spec Hs) as (p & Hp & s & Hlk & Hname & Hpri & _).
    destruct (IH (acc ++ [Writer (primary s)])) as (ws & Hrun & Hall).
    { intros n' Hn'. apply Hn. by right. }
    exists (Writer (primary s) :: ws). split.
    + simpl. rewrite (stE_bind_Ok _ _ h (acc ++ [Writer (primary s)]) h).
      * rewrite Hrun. by rewrite <- app_assoc.
      * unfold addMirror. rewrite (stE_bind_Ok _ _ h p h) by (unfold lift; by rewrite Hp).
        rewrite (stE_bind_Ok _ _ h (Writer (primary s)) h); [done|].
        unfold primaryWriter. rewrite (stE_bind_Ok _ _ h s h); [done|].
        unfold deref. by rewrite Hlk.
    + constructor; [|done]. exists spec. by rewrite Hpri.
Qed.

(** What the configured map holds for a mapping. *)
Definition isConfigured h (specs : list replicaSetSpec) (configured : gmap string loc)
    (m : virtualShardMapping) : Prop :=
  exists p spec ws, configured !! mainReplicaSet m = Some p /\ spec ∈ specs /\
    sp_name spec = mainReplicaSet m /\ isSetOf h p spec ws /\
    Forall2 (isMirror specs) (mirrorReplicaSets m) ws.

Definition configInv h (specs : list replicaSetSpec) (ms : list virtualShardMapping)
    (configured : gmap string loc) : Prop :=
  (forall m, m ∈ ms -> isConfigured h specs configured m) /\
  (forall n p, configured !! n = Some p -> exists m, m ∈ ms /\ mainReplicaSet m = n).

Lemma configureMapping_Ok h specs sets ms configured m :
  heap_wf h -> opensAll h specs sets -> configInv h specs ms configured ->
  mappingOk (list_to_set (sp_name <$> specs)) m ->
  (forall m', m' ∈ ms -> mainReplicaSet m' = mainReplicaSet m ->
     mirrorReplicaSets m' = mirrorReplicaSets m) ->
  exists configured' h', configureMapping sets configured m h = (Ok configured', h') /\
    heap_wf h' /\ extends h h' /\ opened h' = opened h /\
    configInv h' specs (ms ++ [m]) configured'.
Proof.
  intros Hwf Ho [Hin Hfrom] (Hmain & Hmir & _) Hsame. unfold configureMapping.
  destruct (configured !! mainReplicaSet m) as [p|] eqn:Hc.
  - exists configured, h. split_and!; [done..|]. split.
    + intros m' [Hm'| ->%list_elem_of_singleton]%elem_of_app; [by apply Hin|].
      destruct (Hfrom _ _ Hc) as (m0 & Hm0 & E). specialize (Hin _ Hm0).
      unfold isConfigured in *. by rewrite <- E, <- (Hsame _ Hm0 E).
    + intros n q Hn. destruct (Hfrom n q Hn) as (m0 & ? & ?). exists m0. set_solver.
  - destruct (addMirrors_Ok h specs sets (mirrorReplicaSets m) []) as (ws & Hrun & Hws); [done|..].
    { intros n Hn. rewrite Forall_forall in Hmir. destruct (Hmir n Hn) as [Hx _]. set_solver. }
    apply elem_of_list_to_set, list_elem_of_fmap in Hmain as (spec & Hname & Hspec).
    destruct (Ho spec Hspec) as (p & Hp & s & Hs & Hsn & Hpri & Hwm & Hset).
    destruct (WithWriteMirrors_spec p ws h s Hwf Hs)
      as (p' & h' & Hw & Hwf' & Hop & Hbal & Hnone & Hsets).
    assert (Hext : extends h h').
    { eapply extends_insert; [done..|]. intros s' rs (b & Hb & Hr). exists b. by rewrite Hbal. }
    exists (<[mainReplicaSet m := p']> configured), h'. split_and!; [|done..|split].
    + change (foldM _ [] (mirrorReplicaSets m)) with (foldM (addMirror sets) [] (mirrorReplicaSets m)).
      rewrite (stE_bind_Ok _ _ _ _ _ Hrun).
      rewrite (stE_bind_Ok _ _ h p h) by (unfold lift; by rewrite Hname, Hp).
      by rewrite (stE_bind_Ok _ _ _ _ _ Hw).
    + intros m' Hm'. destruct (decide (mainReplicaSet m' = mainReplicaSet m)) as [E|E].
      * assert (mirrorReplicaSets m' = mirrorReplicaSets m) as E2.
        { apply elem_of_app in Hm' as [Hm'| ->%list_elem_of_singleton]; [by apply Hsame|done]. }
        exists p', spec, ws. rewrite E, E2, lookup_insert_eq. split_and!; [done..| |done].
        eexists. rewrite Hsets, lookup_insert_eq. split_and!; [done|done|done| |].
        -- simpl. by rewrite Hwm.
        -- destruct Hext as [_ Hmono]. by apply (Hmono s).
      * apply elem_of_app in Hm' as [Hm'| ->%list_elem_of_singleton]; [|done].
        destruct (Hin _ Hm') as (q & spec' & ws' & ? & ? & ? & ? & ?).
        exists q, spec', ws'. rewrite lookup_insert_ne by done.
        split_and!; [done..| |done]. by eapply isSetOf_mono.
    + intros n q. rewrite lookup_insert_Some. intros [[<- _]|[_ Hn]]; [exists m; set_solver|].
      destruct (Hfrom n q Hn) as (m0 & ? & ?). exists m0. set_solver.
Qed.

Lemma configureMappings_Ok specs sets ms h done configured :
  heap_wf h -> opensAll h specs sets -> configInv h specs done configured ->
  Forall (mappingOk (list_to_set (sp_name <$> specs))) ms ->
  (forall m m', m ∈ done ++ ms -> m' ∈ done ++ ms -> mainReplicaSet m = mainReplicaSet m' ->
     mirrorReplicaSets m = mirrorReplicaSets m') ->
  exists configured' h', foldM (configureMapping sets) configured ms h = (Ok configured', h') /\
    heap_wf h' /\ extends h h' /\ opened h' = opened h /\
    configInv h' specs (done ++ ms) configured'.
Proof.
  revert h done configured. induction ms as [|m ms IH]; intros h before configured Hwf Ho Hinv Hms Hsame.
  - exists configured, h. by rewrite app_nil_r.
  - apply Forall_cons in Hms as [Hm Hms].
    destruct (configureMapping_Ok h specs sets before configured m)
      as (c1 & h1 & Hrun & Hwf1 & Hext1 & Hop1 & Hinv1); [done..| |].
    { intros m' Hm' E. apply Hsame; set_solver. }
    destruct (IH h1 (before ++ [m]) c1) as (c2 & h2 & Hrun2 & Hwf2 & Hext2 & Hop2 & Hinv2).
    { done. } { by eapply opensAll_mono. } { done. } { done. }
    { rewrite <- app_assoc. exact Hsame. }
    exists c2, h2. split_and!; [|done|by etrans|by rewrite Hop2|by rewrite <- app_assoc in Hinv2].
    simpl. by rewrite (stE_bind_Ok _ _ _ _ _ Hrun).
Qed.

End Opening.

(** ** The builder OpenMesh drives *)

Section Driving.
Context {R W K : Type} `{!MirrorableWriter W}.
Context {Tracer Instrument Logger : Type}.
Context (gtp : TracerProvider Tracer) (gmp : MeterProvider Instrument).

(** A meter provider whose instrument constructors succeed. *)
Definition metersOk (mp : MeterProvider Instrument) : Prop :=
  forall spec, exists i, mp_instrument mp instrumentationName spec = inr i.

Lemma setMeterProvider_Ok (t : meshTelemetry Tracer Instrument Logger) p :
  metersOk (default gmp p) -> exists t', setMeterProvider gmp t p = (t', None).
Proof.
  intros Hok. unfold setMeterProvider. revert t.
  induction instruments as [|[spec store] l IH]; intros t; simpl; [by exists t|].
  destruct (Hok spec) as [i ->]. apply IH.
Qed.

Lemma WithMeterProvider_Ok (b : MeshBuilder (K := K) (Tracer := Tracer) (Logger := Logger)) mp :
  metersOk (default gmp mp) ->
  b_err (Builder.WithMeterProvider gmp b mp) = b_err b /\
  b_hasher (Builder.WithMeterProvider gmp b mp) = b_hasher b /\
  b_virtualShards (Builder.WithMeterProvider gmp b mp) = b_virtualShards b.
Proof.
  intros Hm. unfold Builder.WithMeterProvider.
  by destruct (setMeterProvider_Ok (b_telemetry b) mp Hm) as [t ->].
Qed.

Lemma NewMeshBuilder_Ok count :
  0 <= count < 2 ^ 63 -> metersOk gmp ->
  exists b : MeshBuilder (K := K) (Tracer := Tracer) (Logger := Logger),
    NewMeshBuilder gtp gmp count = Ok b /\ b_err b = None /\
    b_virtualShards b = replicate (Z.to_nat count) None.
Proof.
  intros Hc Hg. unfold NewMeshBuilder, newMeshTelemetry, makeLen.
  destruct (setMeterProvider_Ok (setTracerProvider gtp zeroTelemetry None) None Hg) as [t0 Ht0].
  rewrite Ht0. destruct (Z.leb_spec (2 ^ 63) count); [lia|]. by eexists.
Qed.

Lemma WithLogger_fields (b : MeshBuilder (K := K) (Tracer := Tracer) (Instrument := Instrument)) (l : option Logger) :
  b_err (Builder.WithLogger b l) = b_err b /\ b_hasher (Builder.WithLogger b l) = b_hasher b /\
  b_virtualShards (Builder.WithLogger b l) = b_virtualShards b.
Proof. done. Qed.

(** The builder's telemetry after its options: everything comes from the given
    providers, or from the global ones. *)
Lemma openBuilder_wired b (hash : option (ShardHasher K)) tp mp (l : option Logger) :
  metersOk (default gmp mp) ->
  wired (default gtp tp) (default gmp mp) (b_telemetry (openBuilder gtp gmp b hash tp mp l)).
Proof.
  intros Hm. unfold openBuilder, Builder.WithMeterProvider. cbn [b_telemetry Builder.WithTracerProvider WithShardHasher].
  destruct (setMeterProvider_Ok (setTracerProvider gtp (b_telemetry b) tp) mp Hm) as [t Ht].
  destruct (setMeterProvider_wired _ _ _ _ Ht) as [Htr Hf]. rewrite Ht.
  split; [exact Htr|]. unfold metricField in *. rewrite !Forall_cons, Forall_nil in Hf |- *. exact Hf.
Qed.

Lemma mapAll_telemetry (b : MeshBuilder (K := K) (Tracer := Tracer) (Instrument := Instrument)
    (Logger := Logger)) calls :
  b_telemetry (mapAll b calls) = b_telemetry b /\ b_hasher (mapAll b calls) = b_hasher b.
Proof.
  induction calls as [|[i o] calls [IH1 IH2]] using rev_ind; [done|].
  unfold mapAll in *. rewrite foldl_app. simpl. rewrite <- IH1, <- IH2. unfold MapVirtualShard.
  by repeat (case_match; simpl).
Qed.

Lemma openBuilder_Ok count (hash : option (ShardHasher K)) tp mp (l : option Logger) :
  0 <= count < 2 ^ 63 -> metersOk gmp -> metersOk (default gmp mp) ->
  exists b, NewMeshBuilder gtp gmp count = Ok b /\ b_err (openBuilder gtp gmp b hash tp mp l) = None /\
    b_hasher (openBuilder gtp gmp b hash tp mp l) = hash /\
    b_virtualShards (openBuilder gtp gmp b hash tp mp l) = replicate (Z.to_nat count) None.
Proof.
  intros Hc Hg Hm. destruct (NewMeshBuilder_Ok count Hc Hg) as (b & Hb & Herr & Hvs).
  exists b. split; [exact Hb|]. unfold openBuilder.
  destruct (WithMeterProvider_Ok (Builder.WithTracerProvider gtp (WithShardHasher b hash) tp) mp Hm)
    as (He & Hh & Hv).
  destruct (WithLogger_fields (Builder.WithMeterProvider gmp (Builder.WithTracerProvider gtp
    (WithShardHasher b hash) tp) mp) l) as (-> & -> & ->).
  rewrite He, Hh, Hv. done.
Qed.

Lemma firstFault_None n earlier calls :
  Forall (fun c => c.1 < Z.of_nat n /\ is_Some c.2) calls -> NoDup (earlier ++ calls).*1 ->
  firstFault n earlier calls = None.
Proof.
  intros Hall. revert earlier. induction Hall as [|[i o] calls [Hi [p Ho]] Hall IH];
    intros earlier Hnd; simpl; [done|].
  unfold callFault. simpl in *. subst o. destruct (Z.leb_spec (Z.of_nat n) i); [lia|].
  rewrite bool_decide_eq_false_2.
  - apply IH. by rewrite <- app_assoc.
  - rewrite fmap_app, NoDup_app in Hnd. destruct Hnd as (_ & Hdis & _).
    intros Hin. apply (Hdis i Hin). left.
Qed.

Lemma shardCalls_indexes ms configured : (shardCalls ms configured).*1 = allIndexes ms.
Proof.
  unfold shardCalls, allIndexes. induction ms as [|m ms IH]; [done|].
  rewrite !fmap_cons. cbn [concat]. rewrite fmap_app, IH. f_equal.
  rewrite <- list_fmap_compose. apply list_fmap_id.
Qed.

Lemma shardCalls_elem ms configured i o :
  (i, o) ∈ shardCalls ms configured <->
  exists m, m ∈ ms /\ i ∈ virtualShardIndexes m /\ o = configured !! mainReplicaSet m.
Proof.
  unfold shardCalls. induction ms as [|m ms IH]; simpl.
  - split; [by intros ?%elem_of_nil|]. by intros (? & ?%elem_of_nil & _).
  - rewrite elem_of_app, IH, list_elem_of_fmap. setoid_rewrite elem_of_cons. naive_solver.
Qed.

(** The mapping calls of a valid configuration build its mesh. *)
Lemma buildConfigured h specs (config : openMeshConfig (Tracer := Tracer)
    (Instrument := Instrument) (Logger := Logger)) configured b node hash :
  validConfig config -> cfg_replicaSets config = specs ->
  configInv (R := R) (W := W) node h specs (mappings config) configured ->
  b_err b = None -> b_hasher b = Some hash ->
  b_virtualShards b = replicate (Z.to_nat (virtualShardCount config)) None ->
  exists m : Mesh (K := K) (Tracer := Tracer) (Instrument := Instrument) (Logger := Logger),
    Build (mapAll b (shardCalls (mappings config) configured)) h = (Ok m, h) /\ hasher m = hash /\
    length (virtualShards m) = Z.to_nat (virtualShardCount config) /\
    telemetry m = b_telemetry b /\ replicaSets m = firstOccurrences ∅ (virtualShards m) /\
    buildable h (virtualShards m) /\
    forall i p, virtualShards m !! i = Some p -> exists mapping, mapping ∈ mappings config /\
      Z.of_nat i ∈ virtualShardIndexes mapping /\ configured !! mainReplicaSet mapping = Some p.
Proof.
  intros Hv <- [Hin _] Herr Hhash Hvs.
  set (calls := shardCalls (mappings config) configured).
  set (n := Z.to_nat (virtualShardCount config)) in *.
  assert (Hrange : forall i, i ∈ allIndexes (mappings config) <-> 0 <= i < Z.of_nat n).
  { intros i. rewrite (valid_range _ Hv). pose proof (valid_count _ Hv). unfold n. lia. }
  assert (Hcalls : forall c, c ∈ calls -> 0 <= c.1 < Z.of_nat n /\ is_Some c.2).
  { intros [i o] Hc. split.
    - apply Hrange. rewrite <- (shardCalls_indexes _ configured).
      by apply (list_elem_of_fmap_2 fst) in Hc.
    - apply (shardCalls_elem _ _ i o) in Hc as (m & Hm & _ & Ho). simpl. rewrite Ho.
      destruct (Hin m Hm) as (p & _ & _ & -> & _). by eexists. }
  pose proof (mapAll_spec calls [] n b (mappedBy_fresh b n Herr Hvs)) as Hspec.
  rewrite firstFault_None in Hspec.
  2: { apply Forall_forall. intros c Hc. destruct (Hcalls c Hc) as [[]]. done. }
  2: { simpl. unfold calls. rewrite shardCalls_indexes. apply (valid_once _ Hv). }
  specialize (Hspec ltac:(apply Forall_forall; intros c Hc; by apply Hcalls)).
  destruct (mappedBy_complete calls n _ Hspec) as (ps & Hps & Hlen & Hfrom).
  { intros i Hi. unfold calls. rewrite shardCalls_indexes. by apply Hrange. }
  assert (Hsrc : forall i p, ps !! i = Some p -> exists mapping, mapping ∈ mappings config /\
    Z.of_nat i ∈ virtualShardIndexes mapping /\ configured !! mainReplicaSet mapping = Some p).
  { intros i p Hp. apply Hfrom, shardCalls_elem in Hp as (m & ? & ? & E). by exists m. }
  assert (Hnames : forall p, p ∈ ps -> exists mapping, mapping ∈ mappings config /\
    configured !! mainReplicaSet mapping = Some p /\ nameOf h p = Some (mainReplicaSet mapping) /\
    isBlank (mainReplicaSet mapping) = false).
  { intros p [i Hi]%list_elem_of_lookup_1. destruct (Hsrc i p Hi) as (m & Hm & _ & Hc).
    exists m. destruct (Hin m Hm) as (q & spec & ws & Hq & Hspec' & Hname & (s & Hs & Hsn & _) & _).
    assert (q = p) as -> by congruence. split_and!; [done..| |].
    - unfold nameOf. rewrite Hs. simpl. by rewrite Hsn, Hname.
    - pose proof (valid_specs _ Hv) as Hok. rewrite Forall_forall in Hok.
      destruct (Hok spec Hspec') as [Hb _]. by rewrite <- Hname. }
  destruct Hspec as (Herr' & _ & _). destruct (mapAll_telemetry b calls) as [Htel Hhash'].
  assert (Hbuild : buildable h ps).
  { split.
    - intros p Hp. destruct (Hnames p Hp) as (m & _ & _ & ? & ?). by eexists.
    - intros p q nm Hp Hq Hpn Hqn.
      destruct (Hnames p Hp) as (m & _ & Hcp & Hn & _).
      destruct (Hnames q Hq) as (m' & _ & Hcq & Hn' & _). congruence. }
  eexists. split_and!; [apply (Build_ok h _ ps hash)|done..].
  - done.
  - done.
  - intros ->. pose proof (valid_count _ Hv). unfold n in Hlen. simpl in Hlen. lia.
  - by rewrite <- Hhash.
  - done.
Qed.

End Driving.

(** ** The calls to the opener *)

Section Calls.
Context {R W K : Type} `{!MirrorableWriter W}.
Implicit Types (h : heap R W).

(** The reference behaviour: call the opener on each DSN until one fails. The
    result is every DSN opened so far and the failure. *)
Fixpoint openRun (f : NodeOpener (R := R) (W := W)) (hist dsns : list string)
    : list string * option error :=
  match dsns with
  | [] => (hist, None)
  | d :: dsns =>
      match f hist d with
      | inl e => (hist ++ [d], Some e)
      | inr _ => openRun f (hist ++ [d]) dsns
      end
  end.

Lemma openRun_app f hist l1 l2 :
  openRun f hist (l1 ++ l2) =
  match openRun f hist l1 with
  | (hist', None) => openRun f hist' l2
  | r => r
  end.
Proof.
  revert hist. induction l1 as [|d l1 IH]; intros hist; simpl; [done|].
  destruct (f hist d); [done|apply IH].
Qed.

(** What a computation that opens [dsns] does, up to how it wraps the error. *)
Definition opensLike {A} (f : NodeOpener (R := R) (W := W)) (dsns : list string) h
    (m : stE (heap R W) error A) : Prop :=
  match openRun f (opened h) dsns with
  | (hist, Some e) => exists fmt name h', m h = (Err (Errorf fmt [AStr name] [e]), h') /\
      opened h' = hist
  | (hist, None) => exists a h', m h = (Ok a, h') /\ opened h' = hist
  end.

Lemma opensLike_bind {A B} f l1 l2 h (m : stE (heap R W) error A) (k : A -> stE (heap R W) error B) :
  opensLike f l1 h m -> (forall a h', opensLike f l2 h' (k a)) ->
  opensLike f (l1 ++ l2) h (m ≫= k).
Proof.
  intros Hm Hk. unfold opensLike in *. rewrite openRun_app.
  destruct (openRun f (opened h) l1) as [hist [e|]].
  - destruct Hm as (fmt & name & h' & Hrun & Hop). exists fmt, name, h'.
    unfold mbind, stE_bind. by rewrite Hrun.
  - destruct Hm as (a & h' & Hrun & <-). specialize (Hk a h').
    unfold mbind, stE_bind. rewrite Hrun. exact Hk.
Qed.

Lemma opensLike_ret {A} f h (a : A) : opensLike f [] h (mret a).
Proof. by exists a, h. Qed.

Lemma opensLike_call f d fmt name h : opensLike f [d] h (wrapErr fmt name (callOpen f d)).
Proof.
  unfold opensLike. simpl. destruct (f (opened h) d) as [e|n] eqn:E.
  - exists fmt, name, (withOpened h [d]). split; [|done]. by apply wrapErr_Err, callOpen_Err.
  - exists n, (withOpened h [d]). split; [|done]. by apply wrapErr_Ok, callOpen_Ok.
Qed.

Lemma opensLike_foldM {A B} f (g : B -> A -> stE (heap R W) error B) (dsnsOf : A -> list string) l b h :
  (forall b a h, opensLike f (dsnsOf a) h (g b a)) ->
  opensLike f (concat (dsnsOf <$> l)) h (foldM g b l).
Proof.
  intros Hg. revert b h. induction l as [|a l IH]; intros b h; simpl.
  - apply opensLike_ret.
  - apply opensLike_bind; [apply Hg|]. intros b' h'. apply IH.
Qed.

Lemma opensLike_same {A} f l l' h (m : stE (heap R W) error A) :
  l = l' -> opensLike f l h m -> opensLike f l' h m.
Proof. by intros ->. Qed.

Lemma openReplicaSet_opens f m spec h : opensLike f (specDSNs spec) h (openReplicaSet f m spec).
Proof.
  apply (opensLike_bind f [primaryDSN spec] (replicaDSNs spec)); [apply opensLike_call|].
  intros n h1. apply (opensLike_same f (replicaDSNs spec ++ [])); [by rewrite app_nil_r|].
  apply opensLike_bind.
  - apply (opensLike_same f (concat ((fun d => [d]) <$> replicaDSNs spec))).
    { induction (replicaDSNs spec) as [|d l IH]; simpl; [done|]. by f_equal. }
    apply opensLike_foldM. intros replicas d h2.
    apply (opensLike_bind f [d] []); [apply opensLike_call|]. intros. apply opensLike_ret.
  - intros replicas h2. by eexists _, _.
Qed.

Lemma openSets_opens f specs m h :
  opensLike f (allDSNs specs) h (foldM (openReplicaSet f) m specs).
Proof. apply opensLike_foldM. intros. apply openReplicaSet_opens. Qed.

(** Computations that never call the opener. *)
Definition keepsOpened {A} (m : stE (heap R W) error A) : Prop :=
  forall h, opened (m h).2 = opened h.

Lemma keepsOpened_bind {A B} (m : stE (heap R W) error A) (k : A -> stE (heap R W) error B) :
  keepsOpened m -> (forall a, keepsOpened (k a)) -> keepsOpened (m ≫= k).
Proof.
  intros Hm Hk h. specialize (Hm h). unfold mbind, stE_bind.
  destruct (m h) as [[a|e|] h']; simpl in *; [|done..]. by rewrite (Hk a h').
Qed.

Lemma keepsOpened_foldM {A B} (g : B -> A -> stE (heap R W) error B) l b :
  (forall b a, keepsOpened (g b a)) -> keepsOpened (foldM g b l).
Proof.
  intros Hg. revert b. induction l as [|a l IH]; intros b; simpl; [done|].
  by apply keepsOpened_bind.
Qed.

Lemma configureMapping_keeps sets configured m :
  keepsOpened (configureMapping (R := R) (W := W) sets configured m).
Proof.
  unfold configureMapping. destruct (configured !! _); [done|].
  apply keepsOpened_bind.
  - apply keepsOpened_foldM. intros ws n. apply keepsOpened_bind; [done|].
    intros p. apply keepsOpened_bind; [|done]. by apply keepsOpened_bind.
  - intros ws. apply keepsOpened_bind; [done|]. intros p.
    apply keepsOpened_bind; [|done]. by apply keepsOpened_bind.
Qed.

Lemma buildShard_keeps bs x : keepsOpened (buildShard (R := R) (W := W) bs x).
Proof.
  destruct x as [i [p|]]; [|done]. apply keepsOpened_bind; [by apply keepsOpened_bind|].
  intros n. repeat case_match; done.
Qed.

Lemma Build_keeps {Tracer Instrument Logger} (b : MeshBuilder (K := K) (Tracer := Tracer)
    (Instrument := Instrument) (Logger := Logger)) : keepsOpened (Build (R := R) (W := W) b).
Proof.
  unfold Build. repeat (case_match; [done|]); case_match; [|done].
  apply keepsOpened_bind; [|done]. apply keepsOpened_foldM. intros. apply buildShard_keeps.
Qed.

End Calls.

(** ** The claims *)

Lemma rangeLoop_spec n fuel index to out :
  (n < fuel)%nat -> 0 <= index -> to < 2 ^ 64 -> Z.of_nat n = to - index ->
  rangeLoop fuel index to out = out ++ ((fun k => index + Z.of_nat k) <$> seq 0 n).
Proof.
  revert fuel index out. induction n as [|n IH]; intros [|fuel] index out Hf Hi Ht Hn; [lia..| |lia|];
    simpl; destruct (Z.ltb_spec index to); try lia.
  - by rewrite app_nil_r.
  - rewrite wrap_u_id by (unfold in_u; lia). rewrite IH by lia. rewrite <- app_assoc. f_equal.
    simpl. f_equal; [lia|]. rewrite <- fmap_S_seq, <- list_fmap_compose.
    apply list_fmap_ext. intros _ k _. simpl. lia.
Qed.

(** Every validation error wraps a sentinel. *)
Section Sentinels.
Context {R W K Tracer Instrument Logger : Type}.

Definition hasSentinel (e : error) : Prop := exists s, errorsIs e s = true.

Lemma hasSentinel_self s : hasSentinel (Sentinel s).
Proof. exists s. simpl. by apply bool_decide_eq_true. Qed.

Lemma hasSentinel_wrap fmt args s : hasSentinel (Errorf fmt args [Sentinel s]).
Proof. exists s. simpl. by rewrite bool_decide_eq_true_2. Qed.

Ltac sentinel := intros [= <-]; first [apply hasSentinel_self|apply hasSentinel_wrap].

Lemma checkSpec_sentinel names spec e : checkSpec names spec = Err e -> hasSentinel e.
Proof.
  unfold checkSpec. destruct (isBlank (sp_name spec)); [sentinel|].
  case_bool_decide; [sentinel|]. destruct (isBlank (primaryDSN spec)); [sentinel|].
  destruct (foldO _ tt _) as [|e1|] eqn:Hd; simpl; [done| |done]. intros [= <-].
  apply (foldO_Err _ hasSentinel) in Hd; [done|]. intros b [i d] e2 _. simpl.
  destruct (isBlank d); [sentinel|done].
Qed.

Lemma checkMapping_sentinel names count st m e :
  checkMapping names count st m = Err e -> hasSentinel e.
Proof.
  destruct st as [mapped confs]. unfold checkMapping. case_bool_decide; simpl; [|sentinel].
  destruct (foldO (checkMirror _ _) ∅ _) as [seen|e1|] eqn:Hd; simpl; [| |done].
  - destruct (match confs !! mainReplicaSet m with Some _ => _ | None => _ end); [sentinel|].
    destruct (foldO (checkIndex _) _ _) as [mapped'|e1|] eqn:Hx; simpl; [done| |done].
    intros [= <-]. apply (foldO_Err _ hasSentinel) in Hx; [done|]. intros l x e2 _.
    unfold checkIndex. destruct (count <=? x); [sentinel|].
    destruct (l !! _) as [[]|]; simpl; [sentinel|done..].
  - intros [= <-]. apply (foldO_Err _ hasSentinel) in Hd; [done|]. intros seen x e2 _.
    unfold checkMirror. case_bool_decide; simpl; [|sentinel].
    case_bool_decide; [sentinel|]. case_bool_decide; [sentinel|done].
Qed.

Lemma validateMeshConfig_sentinel (config : openMeshConfig (Tracer := Tracer)
    (Instrument := Instrument) (Logger := Logger)) (fo : option (NodeOpener (R := R) (W := W)))
    (ho : option (ShardHasher K)) e :
  validateMeshConfig config fo ho = Err e -> hasSentinel e.
Proof.
  unfold validateMeshConfig. case_bool_decide; [sentinel|].
  destruct fo, ho; try sentinel. destruct (virtualShardCount config =? 0); [sentinel|].
  destruct (foldO checkSpec _ _) as [names|e1|] eqn:H1; simpl; [|intros [= <-]|done].
  2: { apply (foldO_Err _ hasSentinel) in H1; [done|]. intros ??? _. apply checkSpec_sentinel. }
  unfold makeLen. destruct (2 ^ 63 <=? virtualShardCount config); simpl; [done|].
  destruct (foldO (checkMapping _ _) _ _) as [st|e1|] eqn:H2; simpl; [|intros [= <-]|done].
  2: { apply (foldO_Err _ hasSentinel) in H2; [done|]. intros ??? _. apply checkMapping_sentinel. }
  intros Hl. apply (foldO_Err _ hasSentinel) in Hl; [done|].
  intros b [i [|]] e2 _; simpl; [done|sentinel].
Qed.

End Sentinels.

Section Claims.
Context {R W K : Type} `{!MirrorableWriter W}.
Context {Tracer Instrument Logger : Type}.
Context (gtp : TracerProvider Tracer) (gmp : MeterProvider Instrument).
Implicit Types (h : heap R W) (f : NodeOpener (R := R) (W := W)) (hash : ShardHasher K).
Implicit Types (config : openMeshConfig (Tracer := Tracer) (Instrument := Instrument)
  (Logger := Logger)).


(** What opening a valid configuration gives: the claim below is part of it, and
    the stores built on a mesh use the rest. *)
Lemma open_mesh_ok h count options config f node hash :
  applyOptions count options = Ok config -> configInts config -> validConfig config ->
  heap_wf h -> metersOk gmp -> metersOk (default gmp (meterProvider config)) ->
  (forall hist d, d ∈ allDSNs (cfg_replicaSets config) -> f hist d = inr (node d)) ->
  exists m h', OpenMesh gtp gmp count (Some f) (Some hash) options h = (Ok m, h') /\
    heap_wf h' /\ opened h' = opened h ++ allDSNs (cfg_replicaSets config) /\
    hasher m = hash /\
    Z.of_nat (length (virtualShards m)) = virtualShardCount config /\
    wired (default gtp (tracerProvider config)) (default gmp (meterProvider config)) (telemetry m) /\
    replicaSets m = firstOccurrences ∅ (virtualShards m) /\ buildable h' (virtualShards m) /\
    forall mapping i, mapping ∈ mappings config -> i ∈ virtualShardIndexes mapping ->
      exists p spec ws, virtualShards m !! Z.to_nat i = Some p /\
        spec ∈ cfg_replicaSets config /\ sp_name spec = mainReplicaSet mapping /\
        isSetOf node h' p spec ws /\
        Forall2 (isMirror node (cfg_replicaSets config)) (mirrorReplicaSets mapping) ws.
Proof.
  intros Happ Hints Hv Hwf Hg Hm Hopen. pose proof Hints as [Hc _].
  destruct (openSets_Ok f node (cfg_replicaSets config) h ∅ Hwf Hopen (valid_names _ Hv))
    as (sets & h1 & Hsets & Hwf1 & _ & Hop1 & Hall & _).
  destruct (configureMappings_Ok node (cfg_replicaSets config) sets (mappings config) h1 [] ∅)
    as (configured & h2 & Hconf & Hwf2 & _ & Hop2 & Hinv); [done|done| | |apply (valid_mirrors _ Hv)|].
  { split; [set_solver|]. intros n p. by rewrite lookup_empty. }
  { apply (valid_mappings _ Hv). }
  destruct (openBuilder_Ok gtp gmp (virtualShardCount config) (Some hash) (tracerProvider config)
    (meterProvider config) (cfg_logger config)) as (b & Hb & Herr & Hhash & Hvs); [done..|].
  destruct (buildConfigured h2 _ config configured _ node hash Hv eq_refl Hinv Herr Hhash Hvs)
    as (m & Hbuild & Hh & Hlen & Htel & Hrs & Hnames & Hfrom).
  exists m, h2.
  split_and!; [|done|by rewrite Hop2|done|pose proof (valid_count _ Hv); lia| |done|done|].
  - unfold OpenMesh. rewrite (stE_bind_Ok _ _ h config h) by (unfold lift; by rewrite Happ).
    rewrite (stE_bind_Ok _ _ h tt h) by (unfold lift; by rewrite validateMeshConfig_run).
    rewrite (stE_bind_Ok _ _ h f h) by done.
    rewrite (stE_bind_Ok _ _ _ _ _ Hsets), (stE_bind_Ok _ _ _ _ _ Hconf).
    by rewrite (stE_bind_Ok _ _ h2 b h2) by (unfold lift; by rewrite Hb).
  - rewrite Htel. by apply openBuilder_wired.
  - intros mapping i Hmap Hi. assert (Hr : 0 <= i < virtualShardCount config).
    { apply (valid_range _ Hv). unfold allIndexes. apply elem_of_concat. by exists mapping. }
    destruct (lookup_lt_is_Some_2 (virtualShards m) (Z.to_nat i)) as [p Hp]; [lia|].
    destruct (Hfrom _ _ Hp) as (mapping' & Hmap' & Hi' & Hcfg). rewrite Z2Nat.id in Hi' by lia.
    assert (mapping' = mapping) as ->.
    { by apply (NoDup_concat_same virtualShardIndexes (mappings config) _ _ i (valid_once _ Hv)). }
    destruct Hinv as [Hinv _]. destruct (Hinv mapping Hmap) as (q & spec & ws & Hq & ? & ? & ? & ?).
    assert (q = p) as -> by congruence. by exists p, spec, ws.
Qed.

(** C24: opening a valid configuration whose nodes all open succeeds. Every
    virtual shard of a mapping is served by the replica set opened for its main
    set (its primary, and its replicas as read targets), whose writes go to the
    primary mirrored by the primary writers of the mapping's mirrors, in order;
    the opener was called exactly once for every primary and replica, in option
    order; and the mesh's telemetry is wired to the configured providers. *)
Theorem open_mesh_correct h count options config f node hash :
  applyOptions count options = Ok config -> configInts config -> validConfig config ->
  heap_wf h -> metersOk gmp -> metersOk (default gmp (meterProvider config)) ->
  (forall hist d, d ∈ allDSNs (cfg_replicaSets config) -> f hist d = inr (node d)) ->
  exists m h', OpenMesh gtp gmp count (Some f) (Some hash) options h = (Ok m, h') /\
    heap_wf h' /\ opened h' = opened h ++ allDSNs (cfg_replicaSets config) /\
    hasher m = hash /\
    Z.of_nat (length (virtualShards m)) = virtualShardCount config /\
    wired (default gtp (tracerProvider config)) (default gmp (meterProvider config)) (telemetry m) /\
    forall mapping i, mapping ∈ mappings config -> i ∈ virtualShardIndexes mapping ->
      exists p spec ws, virtualShards m !! Z.to_nat i = Some p /\
        spec ∈ cfg_replicaSets config /\ sp_name spec = mainReplicaSet mapping /\
        isSetOf node h' p spec ws /\
        Forall2 (isMirror node (cfg_replicaSets config)) (mirrorReplicaSets mapping) ws.
Proof.
  intros Happ Hints Hv Hwf Hg Hm Hopen.
  destruct (open_mesh_ok h count options config f node hash Happ Hints Hv Hwf Hg Hm Hopen)
    as (m & h' & Hrun & Hwf' & Hop & Hh & Hlen & Htel & _ & _ & Hserve).
  exists m, h'. by split_and!.
Qed.

(** The opener is called in option order and OpenMesh stops at its first
    error: the DSNs opened are those of the reference run, and a failed call is
    returned wrapped, with the nodes opened before it left as they are. *)
Theorem open_mesh_calls h count options config f hash :
  applyOptions count options = Ok config -> configInts config -> validConfig config ->
  match openRun f (opened h) (allDSNs (cfg_replicaSets config)) with
  | (hist, Some e) => exists fmt name h',
      OpenMesh gtp gmp count (Some f) (Some hash) options h = (Err (Errorf fmt [AStr name] [e]), h') /\
      opened h' = hist
  | (hist, None) => opened (OpenMesh gtp gmp count (Some f) (Some hash) options h).2 = hist
  end.
Proof.
  intros Happ Hints Hv. unfold OpenMesh.
  rewrite (stE_bind_Ok _ _ h config h) by (unfold lift; by rewrite Happ).
  rewrite (stE_bind_Ok _ _ h tt h) by (unfold lift; by rewrite validateMeshConfig_run).
  rewrite (stE_bind_Ok _ _ h f h) by done.
  pose proof (openSets_opens f (cfg_replicaSets config) ∅ h) as Ho. unfold opensLike in Ho.
  destruct (openRun f (opened h) (allDSNs (cfg_replicaSets config))) as [hist [e|]].
  - destruct Ho as (fmt & name & h' & Hrun & Hop). exists fmt, name, h'. split; [|done].
    unfold mbind at 1, stE_bind at 1. by rewrite Hrun.
  - destruct Ho as (sets & h1 & Hrun & <-). rewrite (stE_bind_Ok _ _ _ _ _ Hrun).
    match goal with |- opened (?m h1).2 = _ => enough (Hk : keepsOpened m) by apply Hk end.
    apply keepsOpened_bind.
    + apply keepsOpened_foldM. intros. apply configureMapping_keeps.
    + intros configured. apply keepsOpened_bind; [done|]. intros b. apply Build_keeps.
Qed.

(** A configuration that is not valid, a nil opener or a nil hasher is
    rejected with one of the package's sentinel errors before any node is
    opened: the heap and the list of opened DSNs are untouched, and nothing
    panics. *)
Theorem open_mesh_rejects h count options config (fo : option (NodeOpener (R := R) (W := W)))
    (ho : option (ShardHasher K)) :
  applyOptions count options = Ok config -> configInts config -> nulFree config ->
  fo = None \/ ho = None \/ (validConfig config -> False) ->
  exists e s, OpenMesh gtp gmp count fo ho options h = (Err e, h) /\ errorsIs e s = true.
Proof.
  intros Happ Hints Hnul Hbad.
  assert (Hval : exists e, validateMeshConfig config fo ho = Err e).
  { pose proof (validateMeshConfig_not_Panic config fo ho Hints) as Hnp.
    destruct (validateMeshConfig config fo ho) as [[]|e|] eqn:E; [|by exists e|done]. exfalso.
    unfold validateMeshConfig in E. destruct fo as [f|]; [|by case_bool_decide].
    destruct ho as [hash|]; [|by case_bool_decide].
    destruct Hbad as [?|[?|Hbad]]; [done..|]. apply Hbad.
    by apply (validateMeshConfig_inv (R := R) (W := W) config f hash). }
  destruct Hval as [e He]. destruct (validateMeshConfig_sentinel config fo ho e He) as [s Hs].
  exists e, s. split; [|done]. unfold OpenMesh.
  rewrite (stE_bind_Ok _ _ h config h) by (unfold lift; by rewrite Happ).
  unfold mbind at 1, stE_bind at 1, lift at 1. by rewrite He.
Qed.

(** VirtualShardRange lists the half-open range in increasing order, with
    no wrap-around even at the top of the uint64 range, and is empty when the
    bounds are equal or reversed. *)
Theorem virtual_shard_range_correct from to :
  in_u 64 from -> in_u 64 to -> to - from < 2 ^ 63 ->
  VirtualShardRange from to =
  Ok ((fun k => from + Z.of_nat k) <$> seq 0 (Z.to_nat (to - from))).
Proof.
  unfold in_u. intros Hf Ht Hd. unfold VirtualShardRange. destruct (Z.leb_spec to from).
  - by rewrite Z2Nat.nonpos by lia.
  - unfold makeLen. rewrite wrap_u_id by (unfold in_u; lia).
    destruct (Z.leb_spec (2 ^ 63) (to - from)); [lia|].
    unfold mbind, outcome_bind, mret, outcome_ret.
    by rewrite (rangeLoop_spec (Z.to_nat (to - from))) by lia.
Qed.

End Claims.

(** ** Concrete configurations *)

Module Sample.
Import Routing.Sample.

Definition config0 := openMeshConfig (Tracer := nat) (Instrument := string) (Logger := unit).

Definition options : list (option (config0 -> config0)) :=
  [ Some (WithReplicaSet "eu" "dsn-eu" ["dsn-eu-1"]);
    Some (WithReplicaSet "us" "dsn-us" []);
    Some (WithVirtualShardMapping "eu" [0; 2] ["us"]);
    Some (WithVirtualShardMapping "us" [1] []) ].

Definition config : config0 :=
  OpenMeshConfig [ReplicaSetSpec "eu" "dsn-eu" ["dsn-eu-1"]; ReplicaSetSpec "us" "dsn-us" []] 3
    [VirtualShardMapping [0; 2] "eu" ["us"]; VirtualShardMapping [1] "us" []] None None None.

(** The same, with a shard left unmapped. *)
Definition incomplete : config0 :=
  OpenMeshConfig [ReplicaSetSpec "us" "dsn-us" []] 2
    [VirtualShardMapping [1] "us" []] None None None.
Definition incompleteOptions : list (option (config0 -> config0)) :=
  [ Some (WithReplicaSet "us" "dsn-us" []); Some (WithVirtualShardMapping "us" [1] []) ].

Definition dsnNode (dsn : string) : Node nat (list nat) := node (String.length dsn).
Definition opener : NodeOpener (R := nat) (W := list nat) := fun _ dsn => inr (dsnNode dsn).

(** An opener that fails on its second call. *)
Definition flaky : NodeOpener (R := nat) (W := list nat) := fun hist dsn =>
  if bool_decide (length hist = 1%nat) then inl (Foreign 7) else inr (dsnNode dsn).

Definition hash : ShardHasher Z := fun key => key mod 3.

Lemma options_config : applyOptions 3 options = Ok config.
Proof. reflexivity. Qed.

Lemma config_ints : configInts config.
Proof. split; [simpl; lia|]. repeat constructor; lia. Qed.

Lemma incomplete_ints : configInts incomplete.
Proof. split; [simpl; lia|]. repeat constructor; lia. Qed.

Lemma config_nulFree : nulFree config.
Proof. repeat constructor. Qed.

Lemma config_valid : validConfig config.
Proof.
  apply (validateMeshConfig_inv config opener hash config_ints config_nulFree).
  vm_compute. reflexivity.
Qed.

Lemma meters_ok : metersOk sampleMeters.
Proof. intros spec. by exists (is_name spec). Qed.
End Sample.


Lemma open_mesh_correct_witness :
  exists m h', OpenMesh sampleTracers sampleMeters 3 (Some Sample.opener) (Some Sample.hash)
      Sample.options emptyHeap = (Ok m, h') /\ opened h' = ["dsn-eu"; "dsn-eu-1"; "dsn-us"].
Proof.
  destruct (open_mesh_correct sampleTracers sampleMeters emptyHeap 3 Sample.options Sample.config
    Sample.opener Sample.dsnNode Sample.hash Sample.options_config Sample.config_ints
    Sample.config_valid emptyHeap_wf Sample.meters_ok Sample.meters_ok)
    as (m & h' & Hrun & _ & Hop & _).
  - reflexivity.
  - exists m, h'. split; [exact Hrun|]. rewrite Hop. reflexivity.
Defined.

Lemma open_mesh_calls_witness :
  exists fmt name h', OpenMesh sampleTracers sampleMeters 3 (Some Sample.flaky) (Some Sample.hash)
      Sample.options emptyHeap = (Err (Errorf fmt [AStr name] [Foreign 7]), h') /\
    opened h' = ["dsn-eu"; "dsn-eu-1"].
Proof.
  apply (open_mesh_calls sampleTracers sampleMeters emptyHeap 3 Sample.options Sample.config
    Sample.flaky Sample.hash Sample.options_config Sample.config_ints Sample.config_valid).
Defined.

Lemma open_mesh_rejects_witness :
  exists e s, OpenMesh sampleTracers sampleMeters 2 (Some Sample.opener) (Some Sample.hash)
      Sample.incompleteOptions emptyHeap = (Err e, emptyHeap) /\ errorsIs e s = true.
Proof.
  apply (open_mesh_rejects sampleTracers sampleMeters emptyHeap 2 Sample.incompleteOptions
    Sample.incomplete (Some Sample.opener) (Some Sample.hash)).
  - reflexivity.
  - apply Sample.incomplete_ints.
  - repeat constructor.
  - right. right. intros Hv.
    assert (H : 0 ∈ allIndexes (mappings Sample.incomplete)).
    { apply (valid_range _ Hv). simpl. lia. }
    vm_compute in H. apply list_elem_of_singleton in H. discriminate.
Defined.

Lemma virtual_shard_range_correct_witness :
  VirtualShardRange (2 ^ 64 - 3) (2 ^ 64 - 1) = Ok [2 ^ 64 - 3; 2 ^ 64 - 2].
Proof.
  rewrite (virtual_shard_range_correct (2 ^ 64 - 3) (2 ^ 64 - 1)); unfold in_u; [reflexivity|lia..].
Defined.

(** Mappings of the set "m" that disagree on its mirrors: one set whose name
    holds a NUL byte, against two sets. *)
Definition nulName : string := "a" +:+ nul +:+ "b".
Definition collidingConfig : Sample.config0 :=
  OpenMeshConfig
    [ReplicaSetSpec "m" "d1" []; ReplicaSetSpec "a" "d2" []; ReplicaSetSpec "b" "d3" [];
     ReplicaSetSpec nulName "d4" []] 2
    [VirtualShardMapping [0] "m" [nulName]; VirtualShardMapping [1] "m" ["a"; "b"]] None None None.

(** The agreement check on mirrors is not complete for arbitrary names.
    A configuration whose two mappings of one main set list different mirrors
    passes validation when a replica-set name contains the NUL byte the check
    joins names with, although such mappings are to be rejected. *)
Theorem mirror_check_collision :
  validateMeshConfig collidingConfig (Some Sample.opener) (Some Sample.hash) = Ok tt /\
  exists m m', m ∈ mappings collidingConfig /\ m' ∈ mappings collidingConfig /\
    mainReplicaSet m = mainReplicaSet m' /\ mirrorReplicaSets m <> mirrorReplicaSets m'.
Proof.
  split; [vm_compute; reflexivity|].
  exists (VirtualShardMapping [0] "m" [nulName]), (VirtualShardMapping [1] "m" ["a"; "b"]).
  split_and!; [left|right; left|done|discriminate].
Qed.
