(* ===== verification/Tasks.v ===== *)
(** * Tasks: goroutines of a [sync.WaitGroup]

    A generated store runs one goroutine per replica set with [WaitGroup.Go]
    and waits for all of them. A goroutine is a [task]: a tree of atomic
    actions on the shared state, each of which decides how it goes on. [wait]
    runs a list of tasks: an arbitrary schedule picks the task that moves next,
    and what the schedule leaves unfinished is finished in order, so that every
    interleaving is the run of some schedule and every schedule ends.

    [does] is a rely condition: from any state that satisfies a shared
    invariant, a task moves without panicking, keeps the invariant, and ends
    with a result that fits the calls it recorded. [wait_does] lifts it to all
    tasks of a group under every schedule. *)

From S2P Require Import Prelude Errors.

Inductive task (S A : Type) : Type :=
  | TRet (a : A)
  | TAct (f : S -> outcome error (task S A) * S).
Arguments TRet {S A} a.
Arguments TAct {S A} f.

Section Tasks.
Context {S : Type}.

Fixpoint taskBind {A B} (k : A -> task S B) (t : task S A) : task S B :=
  match t with
  | TRet a => k a
  | TAct f => TAct (fun s =>
      match f s with
      | (Ok t', s') => (Ok (taskBind k t'), s')
      | (Err e, s') => (Err e, s')
      | (Panic, s') => (Panic, s')
      end)
  end.

#[export] Instance task_ret : MRet (task S) := fun _ => TRet.
#[export] Instance task_bind : MBind (task S) := fun _ _ => taskBind.

(** One atomic action. *)
Definition act {A} (m : stE S error A) : task S A := TAct (fun s =>
  match m s with
  | (Ok a, s') => (Ok (TRet a), s')
  | (Err e, s') => (Err e, s')
  | (Panic, s') => (Panic, s')
  end).

(** A task on its own. *)
Fixpoint runTask {A} (t : task S A) : stE S error A := fun s =>
  match t with
  | TRet a => (Ok a, s)
  | TAct f =>
      match f s with
      | (Ok t', s') => runTask t' s'
      | (Err e, s') => (Err e, s')
      | (Panic, s') => (Panic, s')
      end
  end.

(** One move of task [i]; a task that is done or absent does not move. *)
Definition moveTask {A} (i : nat) (ts : list (task S A)) : stE S error (list (task S A)) := fun s =>
  match ts !! i with
  | Some (TAct f) =>
      match f s with
      | (Ok t', s') => (Ok (<[i := t']> ts), s')
      | (Err e, s') => (Err e, s')
      | (Panic, s') => (Panic, s')
      end
  | _ => (Ok ts, s)
  end.

Fixpoint interleave {A} (schedule : list nat) (ts : list (task S A))
    : stE S error (list (task S A)) :=
  match schedule with
  | [] => mret ts
  | i :: schedule => ts' ← moveTask i ts; interleave schedule ts'
  end.

Fixpoint runTasks {A} (ts : list (task S A)) : stE S error (list A) :=
  match ts with
  | [] => mret []
  | t :: ts => a ← runTask t; l ← runTasks ts; mret (a :: l)
  end.

(** [waitGroup.Wait]. *)
Definition wait {A} (schedule : list nat) (ts : list (task S A)) : stE S error (list A) :=
  ts' ← interleave schedule ts; runTasks ts'.

(** ** Reasoning about all schedules *)

Lemma runTask_bind {A B} (t : task S A) (k : A -> task S B) s :
  runTask (t ≫= k) s = (runTask t ≫= fun a => runTask (k a)) s.
Proof.
  revert s. revert t. fix IH 1. intros [a|f] s; [done|].
  change (TAct f ≫= k) with (taskBind k (TAct f)). unfold mbind, stE_bind. simpl.
  destruct (f s) as [[t'|e|] s']; [|done..]. apply IH.
Qed.

Lemma runTask_act {A} (m : stE S error A) s : runTask (act m) s = m s.
Proof. simpl. by destruct (m s) as [[a|e|] s']. Qed.

Context {C : Type} (calls : S -> list C) (I : S -> Prop).

(** [does P t]: [t] runs to a result [a] having recorded [l] with [P a l]. *)
Fixpoint does {A} (P : A -> list C -> Prop) (t : task S A) : Prop :=
  match t with
  | TRet a => P a []
  | TAct f => forall s, I s ->
      match f s with
      | (Ok t', s') => I s' /\ exists l, calls s' = calls s ++ l /\ does (fun a l' => P a (l ++ l')) t'
      | _ => False
      end
  end.

Lemma does_mono {A} (P Q : A -> list C -> Prop) t :
  does P t -> (forall a l, P a l -> Q a l) -> does Q t.
Proof.
  revert P Q. revert t. fix IH 1. intros [a|f] P Q H HPQ; simpl in *; [by apply HPQ|].
  intros s Hs. specialize (H s Hs). destruct (f s) as [[t'|e|] s']; [|done..].
  destruct H as (Hs' & l & Hc & Hd). split; [done|]. exists l. split; [done|].
  apply (IH t' _ _ Hd). intros a l'. apply HPQ.
Qed.

Lemma does_bind {A B} (P : A -> list C -> Prop) (Q : B -> list C -> Prop) t (k : A -> task S B) :
  does P t -> (forall a l, P a l -> does (fun b l' => Q b (l ++ l')) (k a)) -> does Q (t ≫= k).
Proof.
  revert P Q. revert t. fix IH 1. intros [a|f] P Q H Hk.
  - by apply (does_mono _ _ _ (Hk a [] H)).
  - change (TAct f ≫= k) with (taskBind k (TAct f)). simpl in *. intros s Hs. specialize (H s Hs).
    destruct (f s) as [[t'|e|] s']; [|done..].
    destruct H as (Hs' & l & Hc & Hd). split; [done|]. exists l. split; [done|].
    apply (IH t' _ _ Hd). intros a l' Hp. apply (does_mono _ _ _ (Hk a (l ++ l') Hp)).
    intros b l2. by rewrite app_assoc.
Qed.

Lemma does_act {A} (P : A -> list C -> Prop) (m : stE S error A) :
  (forall s, I s -> exists a s' l, m s = (Ok a, s') /\ I s' /\ calls s' = calls s ++ l /\ P a l) ->
  does P (act m).
Proof.
  intros H. simpl. intros s Hs. destruct (H s Hs) as (a & s' & l & -> & Hs' & Hc & Hp).
  split; [done|]. exists l. split; [done|]. simpl. by rewrite app_nil_r.
Qed.

Lemma runTask_does {A} (P : A -> list C -> Prop) t s :
  does P t -> I s ->
  exists a s' l, runTask t s = (Ok a, s') /\ I s' /\ calls s' = calls s ++ l /\ P a l.
Proof.
  revert P s. revert t. fix IH 1. intros [a|f] P s H Hs; simpl in *.
  - exists a, s, []. by rewrite app_nil_r.
  - specialize (H s Hs). destruct (f s) as [[t'|e|] s']; [|done..].
    destruct H as (Hs' & l & Hc & Hd). destruct (IH t' _ s' Hd Hs') as (a & s2 & l2 & -> & ? & Hc2 & ?).
    exists a, s2, (l ++ l2). split_and!; [done..| |done]. by rewrite Hc2, Hc, app_assoc.
Qed.

(** Tasks that have recorded [ls] so far. *)
Definition pool {A} (Ps : list (A -> list C -> Prop)) (ls : list (list C)) (ts : list (task S A)) : Prop :=
  Forall3 (fun P l t => does (fun a l' => P a (l ++ l')) t) Ps ls ts.

Lemma pool_insert {A} (Ps : list (A -> list C -> Prop)) ls ts i t l :
  pool Ps ls ts ->
  (forall P l0, Ps !! i = Some P -> ls !! i = Some l0 -> does (fun a l' => P a ((l0 ++ l) ++ l')) t) ->
  pool Ps (alter (.++ l) i ls) (<[i := t]> ts).
Proof.
  intros H. revert i. induction H as [|P l0 t0 Ps ls ts H Hs IH]; intros i Hi; [destruct i; constructor|].
  destruct i as [|i]; simpl; constructor; [by apply Hi|exact Hs|exact H|].
  apply IH. intros P' l' HP Hl. by apply (Hi P' l').
Qed.

Lemma concat_alter (ls : list (list C)) i l :
  i < length ls -> concat (alter (.++ l) i ls) ≡ₚ concat ls ++ l.
Proof.
  revert i. induction ls as [|l0 ls IH]; intros [|i] Hi; simpl in *; [lia..| |].
  - rewrite <- !app_assoc. f_equiv. apply Permutation_app_comm.
  - rewrite <- app_assoc. f_equiv. apply IH. lia.
Qed.

Lemma moveTask_pool {A} (Ps : list (A -> list C -> Prop)) ls i ts s c :
  pool Ps ls ts -> I s -> calls s ≡ₚ c ++ concat ls ->
  exists ts' s' ls', moveTask i ts s = (Ok ts', s') /\ I s' /\ pool Ps ls' ts' /\
    calls s' ≡ₚ c ++ concat ls'.
Proof.
  intros H Hs Hc. unfold moveTask.
  destruct (ts !! i) as [[a|f]|] eqn:Hi; [by exists ts, s, ls| |by exists ts, s, ls].
  destruct (Forall3_lookup_r _ _ _ _ _ _ H Hi) as (P & l0 & HP & Hl & Hd).
  simpl in Hd. specialize (Hd s Hs). destruct (f s) as [[t'|e|] s']; [|done..].
  destruct Hd as (Hs' & l & Hc' & Hd). exists (<[i := t']> ts), s', (alter (.++ l) i ls).
  split_and!; [done..| |].
  - apply pool_insert; [done|]. intros P' l0' HP' Hl'. simplify_eq. apply (does_mono _ _ _ Hd).
    intros a l2. by rewrite app_assoc.
  - rewrite Hc', Hc, concat_alter by (by eapply lookup_lt_Some). by rewrite app_assoc.
Qed.

Lemma interleave_pool {A} (Ps : list (A -> list C -> Prop)) schedule ls ts s c :
  pool Ps ls ts -> I s -> calls s ≡ₚ c ++ concat ls ->
  exists ts' s' ls', interleave schedule ts s = (Ok ts', s') /\ I s' /\ pool Ps ls' ts' /\
    calls s' ≡ₚ c ++ concat ls'.
Proof.
  revert ls ts s. induction schedule as [|i schedule IH]; intros ls ts s H Hs Hc; simpl.
  - by exists ts, s, ls.
  - destruct (moveTask_pool Ps ls i ts s c H Hs Hc) as (ts1 & s1 & ls1 & E & Hs1 & H1 & Hc1).
    rewrite (stE_bind_Ok _ _ _ _ _ E). by apply (IH ls1).
Qed.

Lemma runTasks_pool {A} (Ps : list (A -> list C -> Prop)) ls ts s c :
  pool Ps ls ts -> I s -> calls s ≡ₚ c ++ concat ls ->
  exists vs s' ls', runTasks ts s = (Ok vs, s') /\ I s' /\ calls s' ≡ₚ c ++ concat ls' /\
    Forall3 (fun P l a => P a l) Ps ls' vs.
Proof.
  intros H. revert s c. induction H as [|P l t Ps ls ts Ht _ IH]; intros s c Hs Hc; simpl.
  - exists [], s, []. split_and!; [done..|constructor].
  - destruct (runTask_does _ t s Ht Hs) as (a & s1 & l1 & E & Hs1 & Hc1 & Hp).
    destruct (IH s1 (c ++ l ++ l1) Hs1) as (vs & s2 & ls2 & E2 & Hs2 & Hc2 & Hps).
    { rewrite Hc1, Hc. simpl. rewrite <- !app_assoc. do 2 f_equiv. apply Permutation_app_comm. }
    exists (a :: vs), s2, ((l ++ l1) :: ls2).
    rewrite (stE_bind_Ok _ _ _ _ _ E), (stE_bind_Ok _ _ _ _ _ E2).
    split_and!; [done..| |by constructor]. simpl. rewrite Hc2. by rewrite <- !app_assoc.
Qed.

(** Whatever the schedule, a group of tasks ends; each one's result fits the
    calls it recorded, and together they recorded nothing else. *)
Lemma wait_does {A} (Ps : list (A -> list C -> Prop)) schedule ts s :
  Forall2 does Ps ts -> I s ->
  exists vs s' ls, wait schedule ts s = (Ok vs, s') /\ I s' /\ calls s' ≡ₚ calls s ++ concat ls /\
    Forall3 (fun P l a => P a l) Ps ls vs.
Proof.
  intros H Hs. unfold wait.
  destruct (interleave_pool Ps schedule (replicate (length Ps) []) ts s (calls s))
    as (ts1 & s1 & ls1 & E & Hs1 & H1 & Hc1).
  - clear Hs. induction H; simpl; constructor; done.
  - done.
  - assert (concat (replicate (length Ps) (@nil C)) = []) as ->; [|by rewrite app_nil_r].
    induction (length Ps); done.
  - rewrite (stE_bind_Ok _ _ _ _ _ E). by apply (runTasks_pool Ps ls1).
Qed.

End Tasks.

(** ** Tasks on a part of the state *)

Section Zoom.
Context {S S' : Type} (get : S -> S') (set : S' -> S -> S).

Fixpoint zoom {A} (t : task S' A) : task S A :=
  match t with
  | TRet a => TRet a
  | TAct f => TAct (fun s =>
      match f (get s) with
      | (Ok t', s') => (Ok (zoom t'), set s' s)
      | (Err e, s') => (Err e, set s' s)
      | (Panic, s') => (Panic, set s' s)
      end)
  end.

(** The same for one computation. *)
Definition zoomM {E A} (m : stE S' E A) : stE S E A := fun s =>
  let '(o, s') := m (get s) in (o, set s' s).

Context (get_set : forall s' s, get (set s' s) = s').
Context (set_set : forall s1 s2 s, set s1 (set s2 s) = set s1 s) (set_get : forall s, set (get s) s = s).

Lemma runTask_zoom {A} (t : task S' A) s :
  runTask (zoom t) s = zoomM (runTask t) s.
Proof using get_set set_set set_get.
  revert s. revert t. fix IH 1. intros [a|f] s; unfold zoomM; simpl.
  - by rewrite set_get.
  - destruct (f (get s)) as [[t'|e|] s']; [|done..]. rewrite IH. unfold zoomM. rewrite get_set.
    destruct (runTask t' s') as [o s2]. by rewrite set_set.
Qed.

(** What a task on the part does, it does on the whole. *)
Lemma does_zoom {C A} (calls : S' -> list C) (I : S -> Prop) (P : A -> list C -> Prop) t :
  (forall s s', I s -> I (set s' s)) -> does calls (fun _ => True) P t ->
  does (fun s => calls (get s)) I P (zoom t).
Proof using get_set.
  intros HI. revert P. revert t. fix IH 1. intros [a|f] P H; simpl in *; [done|].
  intros s Hs. specialize (H (get s) Logic.I). destruct (f (get s)) as [[t'|e|] s']; [|done..].
  destruct H as (_ & l & Hc & Hd). split; [by apply HI|]. exists l. rewrite get_set.
  split; [done|]. by apply IH.
Qed.

End Zoom.
