(* ===== verification/StoreQueries.v ===== *)
(** * StoreQueries: the query layer of a generated store (examples/internal/sharded)

    The sqlc queries (queries.sql.go, copyfrom.go, zz_generated_db.go), the
    read and write wrappers the generator puts around them
    (zz_generated_store_read.go, zz_generated_store_write.go) and the
    [queryStore] that joins the two (zz_generated_store.go). The database is
    pgx's [DBTX]: what it answers to a call is a parameter, the class [Driver],
    which may depend on every call made before, and the calls are recorded in
    the order they are made. Pointers to queries, parameters and wrappers are
    never nil and never written through after their construction, so they are
    values here; a pointer to a row may be nil and is an option. *)

From S2P Require Import Prelude Errors Routing Telemetry Tasks.

#[local] Open Scope Z_scope.

(** ** The driver *)

(** Arguments of a statement, and destinations of [Scan]. *)
Inductive value := VInt64 (z : Z) | VText (s : string) | VInt64Array (l : list Z).
Inductive destType := DInt64 | DText.
Definition destVal (t : destType) : Set := match t with DInt64 => Z | DText => string end.
Fixpoint dests (ts : list destType) : Set :=
  match ts with [] => unit | t :: ts => destVal t * dests ts end.

(** A [pgx.Row] is what [Scan] does: from the contents of its destinations to
    their new contents and an error. *)
Definition row : Set := forall ts, dests ts -> dests ts * option error.

(** [pgx.Rows]: the rows [Next] steps through and the error of [Err]. *)
Record pgxRows := PgxRows { rows_items : list row; rows_Err : option error }.

Inductive dbCall (DBTX : Type) :=
  | CallQueryRow (db : DBTX) (sql : string) (args : list value)
  | CallQuery (db : DBTX) (sql : string) (args : list value)
  | CallCopyFrom (db : DBTX) (tableName columnNames : list string) (rows : list (list value)).
Arguments CallQueryRow {DBTX} db sql args.
Arguments CallQuery {DBTX} db sql args.
Arguments CallCopyFrom {DBTX} db tableName columnNames rows.

Definition callDB {DBTX} (c : dbCall DBTX) : DBTX :=
  match c with CallQueryRow db _ _ | CallQuery db _ _ | CallCopyFrom db _ _ _ => db end.

Class Driver (DBTX : Type) := {
  drv_QueryRow : list (dbCall DBTX) -> Context -> DBTX -> string -> list value -> row;
  drv_Query : list (dbCall DBTX) -> Context -> DBTX -> string -> list value -> error + pgxRows;
  drv_CopyFrom : list (dbCall DBTX) -> Context -> DBTX -> list string -> list string ->
    list (list value) -> Z * option error;
}.

(** ** Models and parameters *)

Record Account := MkAccount { ID : Z; TenantID : Z; DisplayName : string }.
#[export] Instance Account_eq_dec : EqDecision Account.
Proof. solve_decision. Defined.

Record CopyAccountsParams := MkCopyAccountsParams {
  cap_ID : Z; cap_TenantID : Z; cap_DisplayName : string }.
Record GetAccountParams := MkGetAccountParams { gap_TenantID : Z; gap_ID : Z }.
Record UpdateAccountNameParams := MkUpdateAccountNameParams {
  uap_TenantID : Z; uap_ID : Z; uap_DisplayName : string }.
Record UpsertAccountParams := MkUpsertAccountParams {
  usp_ID : Z; usp_TenantID : Z; usp_DisplayName : string }.

Definition countAccounts : string := "-- name: CountAccounts :one
SELECT COUNT(*)
FROM accounts
WHERE tenant_id = $1
".
Definition getAccount : string := "-- name: GetAccount :one
SELECT id, tenant_id, display_name
FROM accounts
WHERE tenant_id = $1 AND id = $2
".
Definition listAccountsByIDs : string := "-- name: ListAccountsByIDs :many
SELECT id, tenant_id, display_name
FROM accounts
WHERE id = ANY($1::bigint[])
ORDER BY id
".
Definition listAllAccounts : string := "-- name: ListAllAccounts :many
SELECT id, tenant_id, display_name
FROM accounts
ORDER BY id
".
Definition updateAccountName : string := "-- name: UpdateAccountName :one
UPDATE accounts
SET display_name = $3
WHERE tenant_id = $1 AND id = $2
RETURNING id, tenant_id, display_name
".
Definition upsertAccount : string := "-- name: UpsertAccount :one
INSERT INTO accounts (id, tenant_id, display_name)
VALUES ($1, $2, $3)
ON CONFLICT (id) DO UPDATE
SET tenant_id = EXCLUDED.tenant_id,
    display_name = EXCLUDED.display_name
RETURNING id, tenant_id, display_name
".

(** ** The rows of a COPY (copyfrom.go) *)

Record iteratorForCopyAccounts := IteratorForCopyAccounts {
  it_rows : list CopyAccountsParams; skippedFirstNextCall : bool }.

Definition iterator_Next (r : iteratorForCopyAccounts) : bool * iteratorForCopyAccounts :=
  match it_rows r with
  | [] => (false, r)
  | _ :: rest =>
      if skippedFirstNextCall r
      then (bool_decide (rest <> []), IteratorForCopyAccounts rest true)
      else (true, IteratorForCopyAccounts (it_rows r) true)
  end.

(** [r.rows[0]] panics when there is no row. *)
Definition iterator_Values (r : iteratorForCopyAccounts) : result (list value) :=
  match it_rows r with
  | [] => Panic
  | x :: _ => Ok [VInt64 (cap_ID x); VInt64 (cap_TenantID x); VText (cap_DisplayName x)]
  end.

Definition iterator_Err (r : iteratorForCopyAccounts) : option error := None.

(** pgx reads a [CopyFromSource] by calling [Next] and [Values] in turn until
    [Next] is false. *)
Fixpoint drain (fuel : nat) (r : iteratorForCopyAccounts) : result (list (list value)) :=
  match fuel with
  | O => Panic
  | S fuel =>
      let '(more, r) := iterator_Next r in
      if more : bool then
        v ← iterator_Values r;
        rest ← drain fuel r;
        mret (v :: rest)
      else mret []
  end.

Section Queries.
Context {DBTX : Type} `{!Driver DBTX}.

(** Code that calls the database: each call is one atomic action, between two
    of them other goroutines may make theirs. *)
#[local] Abbreviation dbM := (task (list (dbCall DBTX))).

(** Make a call: the driver answers from the calls before it. *)
Definition dbAnswer {A} (c : dbCall DBTX) (answer : list (dbCall DBTX) -> A) : dbM A :=
  act (fun calls => (Ok (answer calls), calls ++ [c])).

Definition db_QueryRow (ctx : Context) (db : DBTX) (sql : string) (args : list value) : dbM row :=
  dbAnswer (CallQueryRow db sql args) (fun calls => drv_QueryRow calls ctx db sql args).
Definition db_Query (ctx : Context) (db : DBTX) (sql : string) (args : list value)
    : dbM (error + pgxRows) :=
  dbAnswer (CallQuery db sql args) (fun calls => drv_Query calls ctx db sql args).
Definition db_CopyFrom (ctx : Context) (db : DBTX) (tableName columnNames : list string)
    (source : iteratorForCopyAccounts) : dbM (Z * option error) :=
  rows ← act (lift (drain (S (length (it_rows source))) source));
  dbAnswer (CallCopyFrom db tableName columnNames rows)
    (fun calls => drv_CopyFrom calls ctx db tableName columnNames rows).

(** ** Queries *)

Record Queries := MkQueries { db : DBTX }.

Definition New (db : DBTX) : Queries := MkQueries db.

(** A transaction is the [DBTX] it implements. *)
Definition Queries_WithTx (q : Queries) (tx : DBTX) : Queries := MkQueries tx.

(** [row.Scan(&i.ID, &i.TenantID, &i.DisplayName)]. *)
Definition scanAccount (r : row) : Account * option error :=
  match r [DInt64; DInt64; DText] (0, (0, (EmptyString, tt))) with
  | ((id, (tenantID, (displayName, _))), err) => (MkAccount id tenantID displayName, err)
  end.

(** [row.Scan(&count)]. *)
Definition scanCount (r : row) : Z * option error :=
  match r [DInt64] (0, tt) with ((count, _), err) => (count, err) end.

(** The loop over [rows.Next] and the check of [rows.Err]. *)
Fixpoint scanAccounts (items : list (option Account)) (rows : list row) (rowsErr : option error)
    : list (option Account) * option error :=
  match rows with
  | [] => match rowsErr with Some e => ([], Some e) | None => (items, None) end
  | r :: rows =>
      let '(i, err) := scanAccount r in
      match err with
      | Some e => ([], Some e)
      | None => scanAccounts (items ++ [Some i]) rows rowsErr
      end
  end.

Definition Queries_CountAccounts (q : Queries) (ctx : Context) (tenantID : Z)
    : dbM (Z * option error) :=
  r ← db_QueryRow ctx (db q) countAccounts [VInt64 tenantID];
  mret (scanCount r).

Definition Queries_GetAccount (q : Queries) (ctx : Context) (arg : GetAccountParams)
    : dbM (option Account * option error) :=
  r ← db_QueryRow ctx (db q) getAccount [VInt64 (gap_TenantID arg); VInt64 (gap_ID arg)];
  let '(i, err) := scanAccount r in mret (Some i, err).

Definition Queries_ListAccountsByIDs (q : Queries) (ctx : Context) (ids : list Z)
    : dbM (list (option Account) * option error) :=
  r ← db_Query ctx (db q) listAccountsByIDs [VInt64Array ids];
  match r with
  | inl e => mret ([], Some e)
  | inr rows => mret (scanAccounts [] (rows_items rows) (rows_Err rows))
  end.

Definition Queries_ListAllAccounts (q : Queries) (ctx : Context)
    : dbM (list (option Account) * option error) :=
  r ← db_Query ctx (db q) listAllAccounts [];
  match r with
  | inl e => mret ([], Some e)
  | inr rows => mret (scanAccounts [] (rows_items rows) (rows_Err rows))
  end.

Definition Queries_UpdateAccountName (q : Queries) (ctx : Context) (arg : UpdateAccountNameParams)
    : dbM (option Account * option error) :=
  r ← db_QueryRow ctx (db q) updateAccountName
        [VInt64 (uap_TenantID arg); VInt64 (uap_ID arg); VText (uap_DisplayName arg)];
  let '(i, err) := scanAccount r in mret (Some i, err).

Definition Queries_UpsertAccount (q : Queries) (ctx : Context) (arg : UpsertAccountParams)
    : dbM (option Account * option error) :=
  r ← db_QueryRow ctx (db q) upsertAccount
        [VInt64 (usp_ID arg); VInt64 (usp_TenantID arg); VText (usp_DisplayName arg)];
  let '(i, err) := scanAccount r in mret (Some i, err).

Definition Queries_CopyAccounts (q : Queries) (ctx : Context) (arg : list CopyAccountsParams)
    : dbM (Z * option error) :=
  db_CopyFrom ctx (db q) ["accounts"] ["id"; "tenant_id"; "display_name"]
    (IteratorForCopyAccounts arg false).

(** ** Read wrappers *)

Record readQueries := MkReadQueries { rq_main : Queries }.

Definition newReadQueries (q : Queries) : readQueries := MkReadQueries q.
Definition readQueries_WithTx (q : readQueries) (tx : DBTX) : readQueries :=
  newReadQueries (Queries_WithTx (rq_main q) tx).

Definition readQueries_CountAccounts (q : readQueries) (ctx : Context) (tenantID : Z)
    : dbM (Z * option error) :=
  '(rv0, err) ← Queries_CountAccounts (rq_main q) ctx tenantID;
  match err with Some e => mret (0, Some e) | None => mret (rv0, None) end.

Definition readQueries_GetAccount (q : readQueries) (ctx : Context) (arg : GetAccountParams)
    : dbM (option Account * option error) :=
  '(rv0, err) ← Queries_GetAccount (rq_main q) ctx arg;
  match err with Some e => mret (None, Some e) | None => mret (rv0, None) end.

Definition readQueries_ListAccountsByIDs (q : readQueries) (ctx : Context) (ids : list Z)
    : dbM (list (option Account) * option error) :=
  '(rv0, err) ← Queries_ListAccountsByIDs (rq_main q) ctx ids;
  match err with Some e => mret ([], Some e) | None => mret (rv0, None) end.

Definition readQueries_ListAllAccounts (q : readQueries) (ctx : Context)
    : dbM (list (option Account) * option error) :=
  '(rv0, err) ← Queries_ListAllAccounts (rq_main q) ctx;
  match err with Some e => mret ([], Some e) | None => mret (rv0, None) end.

(** ** Write wrappers *)

Record writeQueries := MkWriteQueries { wq_main : Queries; wq_mirrors : list Queries }.

Definition newWriteQueries (q : Queries) (mirrors : list Queries) : writeQueries :=
  MkWriteQueries q mirrors.
Definition writeQueries_WithTx (q : writeQueries) (tx : DBTX) : writeQueries :=
  newWriteQueries (Queries_WithTx (wq_main q) tx) [].

(** [WithMirrors] skips nil wrappers. *)
Definition writeQueries_WithMirrors (q : writeQueries) (qs : list (option writeQueries))
    : writeQueries :=
  newWriteQueries (wq_main q)
    (foldl (fun mirrors o =>
       match o with
       | None => mirrors
       | Some m => mirrors ++ [wq_main m] ++ wq_mirrors m
       end) (wq_mirrors q) qs).

(** [mirror]: run [fn] on the mirrors in order; a missing row is no error,
    any other error ends the loop. *)
Fixpoint mirrorLoop (mirrors : list Queries) (fn : Queries -> dbM (option error))
    : dbM (option error) :=
  match mirrors with
  | [] => mret None
  | m :: mirrors =>
      err ← fn m;
      match err with
      | Some e => if errorsIsStd e SqlErrNoRows then mirrorLoop mirrors fn else mret (Some e)
      | None => mirrorLoop mirrors fn
      end
  end.
Definition writeQueries_mirror (q : writeQueries) (fn : Queries -> dbM (option error))
    : dbM (option error) := mirrorLoop (wq_mirrors q) fn.

Definition writeQueries_CopyAccounts (q : writeQueries) (ctx : Context)
    (arg : list CopyAccountsParams) : dbM (Z * option error) :=
  '(rv0, err) ← Queries_CopyAccounts (wq_main q) ctx arg;
  match err with
  | Some e => mret (0, Some e)
  | None =>
      mirrorErr ← writeQueries_mirror q (fun mirror =>
        '(_, err) ← Queries_CopyAccounts mirror ctx arg; mret err);
      mret (rv0, mirrorErr)
  end.

Definition writeQueries_UpdateAccountName (q : writeQueries) (ctx : Context)
    (arg : UpdateAccountNameParams) : dbM (option Account * option error) :=
  '(rv0, err) ← Queries_UpdateAccountName (wq_main q) ctx arg;
  match err with
  | Some e => mret (None, Some e)
  | None =>
      mirrorErr ← writeQueries_mirror q (fun mirror =>
        '(_, err) ← Queries_UpdateAccountName mirror ctx arg; mret err);
      mret (rv0, mirrorErr)
  end.

Definition writeQueries_UpsertAccount (q : writeQueries) (ctx : Context)
    (arg : UpsertAccountParams) : dbM (option Account * option error) :=
  '(rv0, err) ← Queries_UpsertAccount (wq_main q) ctx arg;
  match err with
  | Some e => mret (None, Some e)
  | None =>
      mirrorErr ← writeQueries_mirror q (fun mirror =>
        '(_, err) ← Queries_UpsertAccount mirror ctx arg; mret err);
      mret (rv0, mirrorErr)
  end.

(** ** The joined wrapper *)

Record queryStore := MkQueryStore { qs_read : readQueries; qs_write : writeQueries }.

Definition newQueryStore (q : Queries) (mirrors : list Queries) : queryStore :=
  MkQueryStore (newReadQueries q) (newWriteQueries q mirrors).

Definition queryStore_WithTx (q : queryStore) (tx : DBTX) : queryStore :=
  newQueryStore (Queries_WithTx (wq_main (qs_write q)) tx) [].

(** A [queryStore] is only made by [newQueryStore], so its wrappers are there;
    nil stores are skipped. *)
Definition queryStore_WithMirrors (q : queryStore) (qs : list (option queryStore)) : queryStore :=
  newQueryStore (wq_main (qs_write q))
    (foldl (fun mirrors o =>
       match o with
       | None => mirrors
       | Some m => mirrors ++ [wq_main (qs_write m)] ++ wq_mirrors (qs_write m)
       end) (wq_mirrors (qs_write q)) qs).

#[export] Instance queryStore_mirrorable : MirrorableWriter queryStore :=
  fun q qs => queryStore_WithMirrors q (Some <$> qs).

Definition newStoreNode (database : DBTX) : Node readQueries queryStore :=
  let queries := New database in
  NewNode (newReadQueries queries) (newQueryStore queries []).

End Queries.
Arguments Queries DBTX : clear implicits.
Arguments readQueries DBTX : clear implicits.
Arguments writeQueries DBTX : clear implicits.
Arguments queryStore DBTX : clear implicits.
