(* ===== verification/Store.v ===== *)
(** * Store: the state of a generated store and how its queries are routed

    The state a store's operations share: the heap of replica sets, the
    telemetry, the calls made to databases and the copy batchers. The clock and
    the scheduler are oracles, asked in turn. An operation returns a value and
    an error as the Go method does; only a panic ends a computation early.
    [routedRead] and [routedWrite] are the bodies the generator writes for a
    query of one shard (zz_generated_store_accounts.go and
    zz_generated_store_reports.go instantiate them). *)

From S2P Require Import Prelude Errors Hasher Routing Telemetry CopyBatch CopyBatchMoves Builder Tasks StoreQueries.

#[local] Open Scope Z_scope.

(** What the runtime observes of its environment: times, the order in which
    goroutines move, and the order of the pending requests a flush iterates (a
    range over a map has every key once). The goroutines of the copy batchers,
    named by their replica set, move between the steps of the caller; the
    deadline of a context passes at some tick; and a select whose cases are
    both ready takes one of them. *)
Class Runtime := {
  clock : nat -> Z;
  schedules : nat -> list nat;
  pendingOrder : nat -> gset nat -> list nat;
  pendingOrder_all n m : pendingOrder n m ≡ₚ elements m;
  backgroundMoves : nat -> list (string * move);
  deadline : option nat;
  selectDone : nat -> bool;
}.

(** The shard key of the route tenantKey, and its resolver. *)
Record TenantKey := MkTenantKey { tk_TenantID : Z }.

(** [defer func() { fin(err) }()]: [fin] runs after the body, on a panic too,
    when the named error is still nil. *)
Definition deferred {S A} (fin : option error -> stE S error unit) (body : stE S error (A * option error))
    : stE S error (A * option error) := fun s =>
  match body s with
  | (Ok (v, err), s) =>
      match fin err s with
      | (Ok _, s) => (Ok (v, err), s)
      | (Err e, s) => (Err e, s)
      | (Panic, s) => (Panic, s)
      end
  | (Err e, s) => (Err e, s)
  | (Panic, s) => (Panic, (fin None s).2)
  end.

Section Store.
Context {DBTX : Type} `{!Driver DBTX} `{!Runtime}.
Context {K Tracer Instrument Logger : Type}.
Context (ErrorType : error -> KeyValue) (DebugEnabled : Logger -> bool).

(** ** Query options *)

Record queryOptions := QueryOptions { qo_primary : bool; qo_tx : option DBTX }.

(** An option is a function, or nil. *)
Definition QueryOption : Type := option (queryOptions -> queryOptions).

Definition ReadFromPrimary : QueryOption := Some (fun options => QueryOptions true (qo_tx options)).
Definition WithTx (tx : option DBTX) : QueryOption :=
  Some (fun options => QueryOptions (qo_primary options) tx).

Definition applyQueryOptions (options : list QueryOption) : queryOptions :=
  foldl (fun result option => match option with Some f => f result | None => result end)
    (QueryOptions false None) options.

(** ** State *)

Record storeState := StoreState {
  st_heap : heap (readQueries DBTX) (queryStore DBTX);
  st_tel : tstate Tracer Instrument Logger;
  st_spans : gmap nat (LogicalQuerySpan Tracer Instrument Logger);
  st_calls : list (dbCall DBTX);
  st_ticks : nat;
  st_batchers : gmap loc (world (T := CopyAccountsParams) (Ctx := Context));
  st_next : loc;
}.

Definition setHeap h s := StoreState h (st_tel s) (st_spans s) (st_calls s) (st_ticks s)
  (st_batchers s) (st_next s).
Definition setTel t s := StoreState (st_heap s) t (st_spans s) (st_calls s) (st_ticks s)
  (st_batchers s) (st_next s).
Definition setSpans m s := StoreState (st_heap s) (st_tel s) m (st_calls s) (st_ticks s)
  (st_batchers s) (st_next s).
Definition setCalls c s := StoreState (st_heap s) (st_tel s) (st_spans s) c (st_ticks s)
  (st_batchers s) (st_next s).
Definition setTicks n s := StoreState (st_heap s) (st_tel s) (st_spans s) (st_calls s) n
  (st_batchers s) (st_next s).
Definition setBatchers m n s := StoreState (st_heap s) (st_tel s) (st_spans s) (st_calls s)
  (st_ticks s) m n.

#[local] Abbreviation storeM := (stE storeState error).

Definition onHeap {A} (m : stE (heap (readQueries DBTX) (queryStore DBTX)) error A) : storeM A :=
  zoomM st_heap setHeap m.
Definition onTel {A} (m : stE (tstate Tracer Instrument Logger) error A) : storeM A :=
  zoomM st_tel setTel m.
Definition onDB {A} (t : task (list (dbCall DBTX)) A) : task storeState A := zoom st_calls setCalls t.

(** Ask the oracles. *)
Definition timeNow : storeM Z := fun s => (Ok (clock (st_ticks s)), setTicks (S (st_ticks s)) s).
Definition nextSchedule : storeM (list nat) := fun s =>
  (Ok (schedules (st_ticks s)), setTicks (S (st_ticks s)) s).
Definition nextPendingOrder (pending : gset nat) : storeM (list nat) := fun s =>
  (Ok (pendingOrder (st_ticks s) pending), setTicks (S (st_ticks s)) s).
Definition nextMoves : storeM (list (string * move)) := fun s =>
  (Ok (backgroundMoves (st_ticks s)), setTicks (S (st_ticks s)) s).

(** ** The mesh store *)

(** A batcher pointer with the route and the observer its closures captured. *)
Record batcherRef := BatcherRef {
  br_batcher : loc;
  br_route : Route (queryStore DBTX);
  br_observer : CopyBatchObservation -> stE (tstate Tracer Instrument Logger) error unit;
}.

Record copyAccountsBatchState := CopyAccountsBatchState {
  cab_enabled : bool;
  cab_batchers : gmap string batcherRef;
}.

(** [ms_id] is the identity of the mesh pointer, [ms_zero] the zero of the shard
    key type. The resolver is the application's code: [None] where it panics. *)
Record meshStore := MeshStore {
  ms_id : loc;
  ms_mesh : Mesh (K := K) (Tracer := Tracer) (Instrument := Instrument) (Logger := Logger);
  ms_resolver : option (TenantKey -> option K);
  ms_zero : K;
  ms_copyAccountsBatch : copyAccountsBatchState;
}.

(** ** Spans *)

Definition startLogical (q : meshStore) (ctx : Context) (storeName queryName : string)
    (kind : QueryKind) : storeM (Context * nat) :=
  now ← timeNow;
  '(ctx, span) ← onTel (StartLogicalQuerySpan (ms_id q) (telemetry (ms_mesh q)) ctx
                          storeName queryName kind now);
  s ← get_state;
  _ ← put_state (setSpans (<[ls_span span := span]> (st_spans s)) s);
  mret (ctx, ls_span span).

(** Dereference a span pointer. *)
Definition logicalSpan (querySpan : nat) : storeM (LogicalQuerySpan Tracer Instrument Logger) :=
  s ← get_state; lift (panic_if_none (st_spans s !! querySpan)).

Definition setRoute (querySpan : nat) (mode : RouteMode) (replicaSetCount : Z) : storeM unit :=
  span ← logicalSpan querySpan;
  span ← onTel (SetRoute span mode replicaSetCount);
  s ← get_state;
  put_state (setSpans (<[querySpan := span]> (st_spans s)) s).

Definition startPhysical (querySpan : nat) (ctx : Context) (route : RouteMetadata)
    (mode : RouteMode) : storeM (Context * PhysicalQuerySpan Instrument Logger) :=
  now ← timeNow;
  span ← logicalSpan querySpan;
  onTel (LogicalQuerySpan_StartPhysicalQuerySpan span ctx route mode now).

Definition endLogical (querySpan : nat) (err : option error) : storeM unit :=
  now ← timeNow;
  span ← logicalSpan querySpan;
  onTel (LogicalQuerySpan_End ErrorType DebugEnabled span err now).

Definition endPhysical (span : PhysicalQuerySpan Instrument Logger) (err : option error)
    : storeM unit :=
  now ← timeNow;
  onTel (PhysicalQuerySpan_End ErrorType DebugEnabled span err now).

(** ** Queries of one shard *)

(** [var shardKey SK] and the call of the resolver: [key] is the key in the
    argument, absent when the argument is a nil pointer. *)
Definition shardKeyOf (q : meshStore) (key : option TenantKey) : result K :=
  match ms_resolver q with
  | Some resolver => key ← panic_if_none key; panic_if_none (resolver key)
  | None => mret (ms_zero q)
  end.

(** The error of [Resolve] is returned, not raised. *)
Definition resolveShard (q : meshStore) (key : option TenantKey)
    : storeM (error + ResolvedShard) := fun s =>
  match shardKeyOf q key with
  | Ok k =>
      match Resolve (ms_mesh q) k with
      | Ok shard => (Ok (inr shard), s)
      | Err e => (Ok (inl e), s)
      | Panic => (Panic, s)
      end
  | Err e => (Err e, s)
  | Panic => (Panic, s)
  end.

(** A read of one shard: through the transaction, from the primary, or from the
    next read target. *)
Definition routedRead {A} (zero : A) (storeName queryName : string) (q : meshStore)
    (ctx : Context) (key : option TenantKey) (storeOptions : list QueryOption)
    (run : readQueries DBTX -> Context -> storeM (A * option error)) : storeM (A * option error) :=
  '(ctx, querySpan) ← startLogical q ctx storeName queryName QueryKindRead;
  deferred (endLogical querySpan) (
    resolved ← resolveShard q key;
    match resolved with
    | inl e => mret (zero, Some e)
    | inr shard =>
        let options := applyQueryOptions storeOptions in
        match qo_tx options, qo_primary options with
        | Some tx, _ =>
            _ ← setRoute querySpan RouteModeTransaction 1;
            route ← onHeap (ResolvedShard_WriteRoute shard);
            let target := queryStore_WithTx (Target route) tx in
            '(ctx, physical) ← startPhysical querySpan ctx (Metadata route) RouteModeTransaction;
            deferred (endPhysical physical) (run (qs_read target) ctx)
        | None, true =>
            _ ← setRoute querySpan RouteModePrimary 1;
            route ← onHeap (ResolvedShard_WriteRoute shard);
            '(ctx, physical) ← startPhysical querySpan ctx (Metadata route) RouteModePrimary;
            deferred (endPhysical physical) (run (qs_read (Target route)) ctx)
        | None, false =>
            _ ← setRoute querySpan RouteModeRead 1;
            route ← onHeap (ResolvedShard_ReadRoute shard);
            '(ctx, physical) ← startPhysical querySpan ctx (Metadata route) RouteModeRead;
            deferred (endPhysical physical) (run (Target route) ctx)
        end
    end).

(** A write of one shard: to the primary and its mirrors, or through the
    transaction. *)
Definition routedWrite {A} (zero : A) (storeName queryName : string) (q : meshStore)
    (ctx : Context) (key : option TenantKey) (storeOptions : list QueryOption)
    (run : writeQueries DBTX -> Context -> storeM (A * option error)) : storeM (A * option error) :=
  '(ctx, querySpan) ← startLogical q ctx storeName queryName QueryKindWrite;
  deferred (endLogical querySpan) (
    resolved ← resolveShard q key;
    match resolved with
    | inl e => mret (zero, Some e)
    | inr shard =>
        let options := applyQueryOptions storeOptions in
        route ← onHeap (ResolvedShard_WriteRoute shard);
        let '(target, mode) :=
          match qo_tx options with
          | Some tx => (queryStore_WithTx (Target route) tx, RouteModeTransaction)
          | None => (Target route, RouteModePrimary)
          end in
        _ ← setRoute querySpan mode 1;
        '(ctx, physical) ← startPhysical querySpan ctx (Metadata route) mode;
        deferred (endPhysical physical) (run (qs_write target) ctx)
    end).

End Store.

Arguments storeState DBTX Tracer Instrument Logger : clear implicits.
Arguments meshStore DBTX K Tracer Instrument Logger : clear implicits.
Arguments queryOptions DBTX : clear implicits.
Arguments QueryOption DBTX : clear implicits.
