(* ===== verification/StoreOps.v ===== *)
(** * StoreOps: the operations of a generated store

    The methods of [groupedMeshStore] in zz_generated_store_accounts.go and
    zz_generated_store_reports.go. Queries of one shard instantiate
    [Store.routedRead] and [Store.routedWrite]. Queries of several shards group
    their inputs by replica set, run one goroutine per set and join what comes
    back. A nil pointer in an argument is [None]. *)

From S2P Require Import Prelude Errors Hasher Routing Telemetry CopyBatch Builder Tasks StoreQueries Store.

#[local] Open Scope Z_scope.

(** ** Store parameters *)

Record CopyAccountsT := MkCopyAccountsT {
  cat_TenantKey : TenantKey; cat_ID : Z; cat_DisplayName : string }.
Definition CopyAccountsT_sqlcParams (arg : CopyAccountsT) : CopyAccountsParams :=
  MkCopyAccountsParams (cat_ID arg) (tk_TenantID (cat_TenantKey arg)) (cat_DisplayName arg).

Record GetAccountT := MkGetAccountT { gat_TenantKey : TenantKey; gat_ID : Z }.
Definition GetAccountT_sqlcParams (arg : GetAccountT) : GetAccountParams :=
  MkGetAccountParams (tk_TenantID (gat_TenantKey arg)) (gat_ID arg).

Record ListAccountsByIDsT := MkListAccountsByIDsT { lat_TenantKey : TenantKey; lat_ID : Z }.

Record UpdateAccountNameT := MkUpdateAccountNameT {
  uat_TenantKey : TenantKey; uat_ID : Z; uat_DisplayName : string }.
Definition UpdateAccountNameT_sqlcParams (arg : UpdateAccountNameT) : UpdateAccountNameParams :=
  MkUpdateAccountNameParams (tk_TenantID (uat_TenantKey arg)) (uat_ID arg) (uat_DisplayName arg).

Record UpsertAccountT := MkUpsertAccountT {
  ust_TenantKey : TenantKey; ust_ID : Z; ust_DisplayName : string }.
Definition UpsertAccountT_sqlcParams (arg : UpsertAccountT) : UpsertAccountParams :=
  MkUpsertAccountParams (ust_ID arg) (tk_TenantID (ust_TenantKey arg)) (ust_DisplayName arg).

Record CountAccountsT := MkCountAccountsT { cnt_TenantKey : TenantKey }.

Section Ops.
Context {DBTX : Type} `{!Driver DBTX} `{!Runtime}.
Context {K Tracer Instrument Logger : Type}.
Context (ErrorType : error -> KeyValue) (DebugEnabled : Logger -> bool).

#[local] Abbreviation stateT := (storeState DBTX Tracer Instrument Logger).
#[local] Abbreviation storeM := (stE stateT error).
#[local] Abbreviation storeT := (meshStore DBTX K Tracer Instrument Logger).
#[local] Abbreviation optionsT := (list (QueryOption DBTX)).
Implicit Types (q : storeT).

(** ** Queries of one shard *)

Definition GetAccount q (ctx : Context) (arg : option GetAccountT) (storeOptions : optionsT)
    : storeM (option Account * option error) :=
  routedRead ErrorType DebugEnabled None "Accounts" "GetAccount" q ctx (gat_TenantKey <$> arg)
    storeOptions (fun target ctx =>
      params ← lift (panic_if_none (GetAccountT_sqlcParams <$> arg));
      runTask (onDB (readQueries_GetAccount target ctx params))).

Definition CountAccounts q (ctx : Context) (arg : option CountAccountsT) (storeOptions : optionsT)
    : storeM (Z * option error) :=
  routedRead ErrorType DebugEnabled 0 "Reports" "CountAccounts" q ctx (cnt_TenantKey <$> arg)
    storeOptions (fun target ctx =>
      key ← lift (panic_if_none (cnt_TenantKey <$> arg));
      runTask (onDB (readQueries_CountAccounts target ctx (tk_TenantID key)))).

Definition UpdateAccountName q (ctx : Context) (arg : option UpdateAccountNameT)
    (storeOptions : optionsT) : storeM (option Account * option error) :=
  routedWrite ErrorType DebugEnabled None "Accounts" "UpdateAccountName" q ctx
    (uat_TenantKey <$> arg) storeOptions (fun target ctx =>
      params ← lift (panic_if_none (UpdateAccountNameT_sqlcParams <$> arg));
      runTask (onDB (writeQueries_UpdateAccountName target ctx params))).

Definition UpsertAccount q (ctx : Context) (arg : option UpsertAccountT)
    (storeOptions : optionsT) : storeM (option Account * option error) :=
  routedWrite ErrorType DebugEnabled None "Accounts" "UpsertAccount" q ctx
    (ust_TenantKey <$> arg) storeOptions (fun target ctx =>
      params ← lift (panic_if_none (UpsertAccountT_sqlcParams <$> arg));
      runTask (onDB (writeQueries_UpsertAccount target ctx params))).

(** ** Queries of several shards *)

(** A body that returns its error with a zero result. *)
Definition returning {A} (zero : A) (m : storeM A) : storeM (A * option error) := fun s =>
  match m s with
  | (Ok a, s) => (Ok (a, None), s)
  | (Err e, s) => (Ok (zero, Some e), s)
  | (Panic, s) => (Panic, s)
  end.

(** The errors of the replica sets that failed, each with its set's name. *)
Definition replicaSetErrors (format : string) (sets : list loc) (errs : list (option error))
    : storeM (list error) :=
  foldM (fun acc '(p, err) =>
    match err with
    | None => mret acc
    | Some e => name ← onHeap (Name p); mret (acc ++ [Errorf format [AStr name] [e]])
    end) [] (zip sets errs).

(** Fail with [errors.Join] of the errors, if there is one. *)
Definition failJoined (errs : list error) : storeM unit :=
  match errorsJoin errs with Some e => throw e | None => mret tt end.

(** The groups in the order of the mesh's replica sets. *)
Definition orderedGroups {G} q (groupsByName : gmap string G) : storeM (list G) :=
  foldM (fun groups p =>
    name ← onHeap (Name p);
    mret (match groupsByName !! name with Some g => groups ++ [g] | None => groups end))
    [] (ReplicaSets (ms_mesh q)).

(** The goroutine of ListAllAccounts for one replica set. *)
Definition listAllTask (querySpan : nat) (ctx : Context) (primary : bool) (mode : RouteMode)
    (replicaSet : loc) : task stateT (list (option Account) * option error) :=
  if primary then
    route ← act (onHeap (WriteRoute replicaSet));
    '(queryCtx, physical) ← act (startPhysical querySpan ctx (Metadata route) mode);
    r ← onDB (readQueries_ListAllAccounts (qs_read (Target route)) queryCtx);
    _ ← act (endPhysical ErrorType DebugEnabled physical r.2);
    mret r
  else
    route ← act (onHeap (ReadRoute replicaSet));
    '(queryCtx, physical) ← act (startPhysical querySpan ctx (Metadata route) mode);
    r ← onDB (readQueries_ListAllAccounts (Target route) queryCtx);
    _ ← act (endPhysical ErrorType DebugEnabled physical r.2);
    mret r.

Definition ListAllAccounts q (ctx : Context) (storeOptions : optionsT)
    : storeM (list (option Account) * option error) :=
  '(ctx, querySpan) ← startLogical q ctx "Accounts" "ListAllAccounts" QueryKindRead;
  deferred (endLogical ErrorType DebugEnabled querySpan) (returning [] (
    let options := applyQueryOptions storeOptions in
    let replicaSets := ReplicaSets (ms_mesh q) in
    let n := Z.of_nat (length replicaSets) in
    if isSome (qo_tx options) then
      _ ← setRoute querySpan RouteModeTransaction n;
      throw (Sentinel ErrCrossShardTransaction)
    else
      let mode := if qo_primary options then RouteModePrimary else RouteModeRead in
      _ ← setRoute querySpan mode n;
      schedule ← nextSchedule;
      shardResults ← wait schedule
        (listAllTask querySpan ctx (qo_primary options) mode <$> replicaSets);
      shardErrors ← replicaSetErrors "query ListAllAccounts on replica set %q: %w" replicaSets
                      (snd <$> shardResults);
      _ ← failJoined shardErrors;
      mret (concat (fst <$> shardResults)))).

(** *** CopyAccounts *)

Record copyShardGroup := CopyShardGroup {
  csg_shard : ResolvedShard; csg_args : list CopyAccountsParams }.

(** One turn of the grouping loop. *)
Definition addCopyRow (format : string) q (groupsByName : gmap string copyShardGroup)
    (x : nat * option CopyAccountsT) : storeM (gmap string copyShardGroup) :=
  let '(inputIndex, item) := x in
  resolved ← resolveShard q (cat_TenantKey <$> item);
  match resolved with
  | inl e => throw (Errorf format [AInt (Z.of_nat inputIndex)] [e])
  | inr shard =>
      name ← onHeap (ResolvedShard_ReplicaSetName shard);
      let shardGroup := default (CopyShardGroup shard []) (groupsByName !! name) in
      params ← lift (panic_if_none (CopyAccountsT_sqlcParams <$> item));
      mret (<[name := CopyShardGroup (csg_shard shardGroup) (csg_args shardGroup ++ [params])]>
              groupsByName)
  end.

(** The goroutine of CopyAccounts for one group. *)
Definition copyTask (querySpan : nat) (ctx : Context) (tx : option DBTX) (mode : RouteMode)
    (shardGroup : copyShardGroup) : task stateT (Z * option error) :=
  route ← act (onHeap (ResolvedShard_WriteRoute (csg_shard shardGroup)));
  let target := match tx with
                | Some tx => queryStore_WithTx (Target route) tx
                | None => Target route
                end in
  '(queryCtx, physical) ← act (startPhysical querySpan ctx
                                 (WithoutVirtualShard (Metadata route)) mode);
  r ← onDB (writeQueries_CopyAccounts (qs_write target) queryCtx (csg_args shardGroup));
  _ ← act (endPhysical ErrorType DebugEnabled physical r.2);
  mret r.

Definition CopyAccounts q (ctx : Context) (arg : list (option CopyAccountsT))
    (storeOptions : optionsT) : storeM (Z * option error) :=
  '(ctx, querySpan) ← startLogical q ctx "Accounts" "CopyAccounts" QueryKindWrite;
  deferred (endLogical ErrorType DebugEnabled querySpan) (returning 0 (
    let options := applyQueryOptions storeOptions in
    groupsByName ← foldM (addCopyRow "route CopyAccounts input %d: %w" q) ∅ (imap pair arg);
    groups ← orderedGroups q groupsByName;
    let n := Z.of_nat (length groups) in
    if isSome (qo_tx options) && (1 <? n) then
      _ ← setRoute querySpan RouteModeTransaction n;
      throw (Sentinel ErrCrossShardTransaction)
    else
      let mode := if isSome (qo_tx options) then RouteModeTransaction else RouteModePrimary in
      _ ← setRoute querySpan mode n;
      if n =? 0 then mret 0
      else
        schedule ← nextSchedule;
        copyResults ← wait schedule (copyTask querySpan ctx (qo_tx options) mode <$> groups);
        copyErrors ← replicaSetErrors "query CopyAccounts on replica set %q: %w"
                       (rsh_replicaSet ∘ csg_shard <$> groups) (snd <$> copyResults);
        _ ← failJoined copyErrors;
        mret (foldl (fun result copyResult => s64 (result + fst copyResult)) 0 copyResults))).

(** *** ListAccountsByIDs *)

Record manyShardGroup := ManyShardGroup {
  msg_shard : ResolvedShard; msg_args : list Z; msg_requested : gset Z }.

(** [reflect.ValueOf(key).Comparable()] of an int64. *)
Definition comparableKey (key : Z) : bool := true.

(** One turn of the grouping loop: the groups, and the requested keys with
    their sets in input order. A key is requested from its set once. *)
Definition addLookup q (st : gmap string manyShardGroup * list (string * Z))
    (x : nat * option ListAccountsByIDsT)
    : storeM (gmap string manyShardGroup * list (string * Z)) :=
  let '(groupsByName, orderedItems) := st in
  let '(inputIndex, o) := x in
  match o with
  | None => throw (Errorf "route ListAccountsByIDs input %d: shard parameter is nil"
                     [AInt (Z.of_nat inputIndex)] [])
  | Some item =>
      let lookupKey := lat_ID item in
      if negb (comparableKey lookupKey) then
        throw (Errorf "route ListAccountsByIDs input %d: lookup key type %T is not comparable"
                 [AInt (Z.of_nat inputIndex); AStr "int64"] [])
      else
        resolved ← resolveShard q (Some (lat_TenantKey item));
        match resolved with
        | inl e => throw (Errorf "route ListAccountsByIDs input %d: %w"
                            [AInt (Z.of_nat inputIndex)] [e])
        | inr shard =>
            name ← onHeap (ResolvedShard_ReplicaSetName shard);
            let shardGroup := default (ManyShardGroup shard [] ∅) (groupsByName !! name) in
            if bool_decide (lookupKey ∈ msg_requested shardGroup) then
              mret (<[name := shardGroup]> groupsByName, orderedItems)
            else
              mret (<[name := ManyShardGroup (msg_shard shardGroup)
                                (msg_args shardGroup ++ [lookupKey])
                                ({[lookupKey]} ∪ msg_requested shardGroup)]> groupsByName,
                    orderedItems ++ [(name, lookupKey)])
        end
  end.

(** The goroutine of ListAccountsByIDs for one group. *)
Definition manyTask (querySpan : nat) (ctx : Context) (options : queryOptions DBTX)
    (mode : RouteMode) (shardGroup : manyShardGroup)
    : task stateT (list (option Account) * option error) :=
  match qo_tx options, qo_primary options with
  | Some tx, _ =>
      route ← act (onHeap (ResolvedShard_WriteRoute (msg_shard shardGroup)));
      let target := queryStore_WithTx (Target route) tx in
      '(queryCtx, physical) ← act (startPhysical querySpan ctx
                                     (WithoutVirtualShard (Metadata route)) mode);
      r ← onDB (readQueries_ListAccountsByIDs (qs_read target) queryCtx (msg_args shardGroup));
      _ ← act (endPhysical ErrorType DebugEnabled physical r.2);
      mret r
  | None, true =>
      route ← act (onHeap (ResolvedShard_WriteRoute (msg_shard shardGroup)));
      '(queryCtx, physical) ← act (startPhysical querySpan ctx
                                     (WithoutVirtualShard (Metadata route)) mode);
      r ← onDB (readQueries_ListAccountsByIDs (qs_read (Target route)) queryCtx
                  (msg_args shardGroup));
      _ ← act (endPhysical ErrorType DebugEnabled physical r.2);
      mret r
  | None, false =>
      route ← act (onHeap (ResolvedShard_ReadRoute (msg_shard shardGroup)));
      '(queryCtx, physical) ← act (startPhysical querySpan ctx
                                     (WithoutVirtualShard (Metadata route)) mode);
      r ← onDB (readQueries_ListAccountsByIDs (Target route) queryCtx (msg_args shardGroup));
      _ ← act (endPhysical ErrorType DebugEnabled physical r.2);
      mret r
  end.

(** One row of a group's result: it is filed under its key, or it is an error. *)
Definition addRow (name : string) (requested : gset Z)
    (st : gmap Z (list (option Account)) * list error) (x : nat * option Account)
    : gmap Z (list (option Account)) * list error :=
  let '(rowsByKey, groupErrors) := st in
  let '(resultIndex, row) := x in
  match row with
  | None => (rowsByKey, groupErrors ++
      [Errorf "query ListAccountsByIDs on replica set %q returned nil row at result %d"
         [AStr name; AInt (Z.of_nat resultIndex)] []])
  | Some account =>
      let resultKey := ID account in
      if negb (comparableKey resultKey) then
        (rowsByKey, groupErrors ++
          [Errorf "query ListAccountsByIDs on replica set %q result %d has non-comparable lookup key type %T"
             [AStr name; AInt (Z.of_nat resultIndex); AStr "int64"] []])
      else if negb (bool_decide (resultKey ∈ requested)) then
        (rowsByKey, groupErrors ++
          [Errorf "query ListAccountsByIDs on replica set %q result %d has an unrequested lookup key"
             [AStr name; AInt (Z.of_nat resultIndex)] []])
      else
        (<[resultKey := default [] (rowsByKey !! resultKey) ++ [row]]> rowsByKey, groupErrors)
  end.

(** The rows of all groups by set and key. *)
Definition addGroupRows
    (st : gmap string (gmap Z (list (option Account))) * list error)
    (x : manyShardGroup * list (option Account))
    : storeM (gmap string (gmap Z (list (option Account))) * list error) :=
  let '(rowsByGroup, groupErrors) := st in
  let '(group, rows) := x in
  name ← onHeap (ResolvedShard_ReplicaSetName (msg_shard group));
  let '(rowsByKey, groupErrors) :=
    foldl (addRow name (msg_requested group)) (∅, groupErrors) (imap pair rows) in
  mret (<[name := rowsByKey]> rowsByGroup, groupErrors).

Definition ListAccountsByIDs q (ctx : Context) (arg : list (option ListAccountsByIDsT))
    (storeOptions : optionsT) : storeM (list (option Account) * option error) :=
  '(ctx, querySpan) ← startLogical q ctx "Accounts" "ListAccountsByIDs" QueryKindRead;
  deferred (endLogical ErrorType DebugEnabled querySpan) (returning [] (
    let options := applyQueryOptions storeOptions in
    '(groupsByName, orderedItems) ← foldM (addLookup q) (∅, []) (imap pair arg);
    groups ← orderedGroups q groupsByName;
    let n := Z.of_nat (length groups) in
    if isSome (qo_tx options) && (1 <? n) then
      _ ← setRoute querySpan RouteModeTransaction n;
      throw (Sentinel ErrCrossShardTransaction)
    else
      let mode := if isSome (qo_tx options) then RouteModeTransaction
                  else if qo_primary options then RouteModePrimary else RouteModeRead in
      _ ← setRoute querySpan mode n;
      if n =? 0 then mret []
      else
        schedule ← nextSchedule;
        groupResults ← wait schedule (manyTask querySpan ctx options mode <$> groups);
        groupErrors ← replicaSetErrors "query ListAccountsByIDs on replica set %q: %w"
                        (rsh_replicaSet ∘ msg_shard <$> groups) (snd <$> groupResults);
        _ ← failJoined groupErrors;
        '(rowsByGroup, groupErrors) ← foldM addGroupRows (∅, groupErrors)
                                        (zip groups (fst <$> groupResults));
        _ ← failJoined groupErrors;
        mret (concat ((fun '(shardName, key) =>
          default [] (rowsByGroup !! shardName ≫= fun rowsByKey => rowsByKey !! key)) <$> orderedItems)))).

End Ops.
