(* ===== verification/StoreAsync.v ===== *)
(** * StoreAsync: asynchronous COPY of a generated store

    CopyAccountsAsync, FlushCopyAccounts and the copy function of the batchers
    (zz_generated_store_accounts.go, zz_generated_store.go). A batcher is a
    [CopyBatch.world] behind a pointer. A call hands its rows to the batchers
    and returns a future; [awaitAsync] is what the future's goroutine computes
    from the batchers' results once they are there, with the spans it ends. *)

From S2P Require Import Prelude Errors Hasher Routing Telemetry Future CopyBatch CopyBatchRuns CopyBatchMoves Builder Tasks StoreQueries Store StoreOps.

#[local] Open Scope Z_scope.

(** [context.WithoutCancel]. *)
Definition withoutCancel (ctx : Context) : Context :=
  MkContext None (ctx_execution ctx) (ctx_span ctx).

Section Async.
Context {DBTX : Type} `{!Driver DBTX} `{!Runtime}.
Context {K Tracer Instrument Logger : Type}.
Context (ErrorType : error -> KeyValue) (DebugEnabled : Logger -> bool).

#[local] Abbreviation stateT := (storeState DBTX Tracer Instrument Logger).
#[local] Abbreviation storeM := (stE stateT error).
#[local] Abbreviation storeT := (meshStore DBTX K Tracer Instrument Logger).
#[local] Abbreviation refT := (batcherRef (DBTX := DBTX) (Tracer := Tracer)
  (Instrument := Instrument) (Logger := Logger)).
#[local] Abbreviation worldT := (world (T := CopyAccountsParams) (Ctx := Context)).
Implicit Types (q : storeT).

(** Run an operation of the batcher at [p]. *)
Definition onBatcher {A} (p : loc) (f : worldT -> result (A * worldT)) : storeM A := fun s =>
  match st_batchers s !! p with
  | None => (Panic, s)
  | Some w =>
      match f w with
      | Ok (a, w) => (Ok a, setBatchers (<[p := w]> (st_batchers s)) (st_next s) s)
      | Err e => (Err e, s)
      | Panic => (Panic, s)
      end
  end.

(** ** The copy function of a batcher *)

Definition copyBatchFunc q (ref : refT) (ctx : Context) (rows : list CopyAccountsParams)
    : task stateT (Z * option error) :=
  now ← act timeNow;
  '(queryCtx, physical) ← act (onTel (Mesh_StartPhysicalQuerySpan (telemetry (ms_mesh q)) ctx
      "Accounts" "CopyAccounts" QueryKindWrite (Metadata (br_route ref)) RouteModePrimary now));
  r ← onDB (writeQueries_CopyAccounts (qs_write (Target (br_route ref))) queryCtx rows);
  _ ← act (endPhysical ErrorType DebugEnabled physical r.2);
  mret r.

(** A batch goroutine that is in its COPY call: the call, its return to the
    batcher, and the observer. [false] when goroutine [i] is elsewhere. *)
Definition runBatchCopy q (ref : refT) (i : nat) : storeM bool :=
  g ← onBatcher (br_batcher ref) (fun w => mret (running w !! i, w));
  match g with
  | Some (GCopy b _) =>
      '(count, err) ← runTask (copyBatchFunc q ref (cb_ctx b) (rows b));
      seen ← onBatcher (br_batcher ref) (fun w =>
        w' ← panic_if_none (copyReturns w i count err);
        mret (drop (length (observed (hist w))) (observed (hist w')), w'));
      _ ← foldM (fun _ '(_, _, observation) => onTel (br_observer ref observation)) tt seen;
      mret true
  | _ => mret false
  end.

(** ** Background work *)

(** A move of the batcher of a set; [false] when it is not possible. *)
Definition makeMove q (ref : refT) (m : move) : storeM bool :=
  match m with
  | MCopy i => runBatchCopy q ref i
  | _ =>
      onBatcher (br_batcher ref) (fun w =>
        match exec withoutCancel w (moveEvent m (0, None)) with
        | Some r => w' ← r; mret (true, w')
        | None => mret (false, w)
        end)
  end.

Definition background q : storeM unit :=
  moves ← nextMoves;
  foldM (fun _ '(name, m) =>
    match cab_batchers (ms_copyAccountsBatch q) !! name with
    | Some ref => _ ← makeMove q ref m; mret tt
    | None => mret tt
    end) tt moves.

(** The moves that remain; each one lowers the weight of the batcher. *)
Fixpoint settleBatcher q (ref : refT) (fuel : nat) : storeM unit :=
  match fuel with
  | O => mret tt
  | S fuel =>
      next ← onBatcher (br_batcher ref) (fun w => mret (nextMove w, w));
      match next with
      | Some m => _ ← makeMove q ref m; settleBatcher q ref fuel
      | None => mret tt
      end
  end.

Definition settle q : storeM unit :=
  foldM (fun _ '(_, ref) =>
    fuel ← onBatcher (br_batcher ref) (fun w => mret (weight w, w));
    settleBatcher q ref fuel) tt (map_to_list (cab_batchers (ms_copyAccountsBatch q))).

(** [Future.Await]: [view] is the future in a state, and [ctxErr] the error of
    the context at a tick. Nobody resolves the future when nothing is left to
    run: a deadlock. *)
Definition awaitFuture {A} q (ctxErr : nat -> option error) (zero : A) (view : stateT -> Future A)
    : storeM (A * option error) :=
  _ ← background q;
  s ← get_state;
  let first := view s in
  _ ← background q;
  s ← get_state;
  match Await zero first (view s) (ctxErr (st_ticks s)) (selectDone (st_ticks s)) with
  | Some r => mret r
  | None =>
      _ ← settle q;
      s ← get_state;
      lift (panic_if_none (Await zero (view s) (view s) None true))
  end.

(** ** Futures *)

(** What a future of CopyAccountsAsync waits for: nothing, or the submissions
    it made, each with the name of its replica set. *)
Inductive asyncSource :=
  | AsyncResolved (count : Z) (err : option error)
  | AsyncParts (parts : list (string * loc * submitted)).

(** The result of a submission, when it is there. *)
Definition partResult (s : stateT) (p : loc) (sub : submitted) : option (Z * option error) :=
  match sub with
  | SResolved f => if f_done f then Some (f_value f, f_err f) else None
  | SRequest id =>
      w ← st_batchers s !! p;
      rq ← requests w !! id;
      if f_done (rq_result rq) then Some (f_value (rq_result rq), f_err (rq_result rq)) else None
  end.

(** The goroutine of the combined future, after every Await returned. *)
Definition combineParts (results : list (string * (Z * option error))) : Z * option error :=
  let '(count, copyErrors) :=
    foldl (fun '(count, copyErrors) '(shardName, (shardCount, err)) =>
      match err with
      | Some e => (count, copyErrors ++
                     [Errorf "query CopyAccounts on replica set %q: %w" [AStr shardName] [e]])
      | None => (s64 (count + shardCount), copyErrors)
      end) (0, []) results in
  match errorsJoin copyErrors with
  | Some e => (0, Some e)
  | None => (count, None)
  end.

(** The result of a future; [None] while a part of it is pending. *)
Definition asyncResult (s : stateT) (source : asyncSource) : option (Z * option error) :=
  match source with
  | AsyncResolved count err => Some (count, err)
  | AsyncParts parts =>
      results ← mapM (fun '(name, p, sub) => pair name <$> partResult s p sub) parts;
      Some (combineParts results)
  end.

(** A future of CopyAccountsAsync as it is in a state. *)
Definition asyncView (source : asyncSource) (s : stateT) : Future Z :=
  match asyncResult s source with
  | Some (count, err) => MkFuture true count err
  | None => newFuture 0
  end.

(** A future: what it waits for, how a caller waits for it while the batchers of
    the store run, and what the goroutines around it do with its error. *)
Record asyncFuture := AsyncFuture {
  af_source : asyncSource;
  af_await : (nat -> option error) -> storeM (Z * option error);
  af_finish : list (option error -> storeM unit);
}.

(** The submissions, under the store's lock. *)
Definition submitGroups q (ctx : Context) (groups : list copyShardGroup) : storeM asyncSource :=
  match ctx_err ctx with
  | Some e => throw e
  | None =>
      targets ← foldM (fun targets group =>
        name ← onHeap (ResolvedShard_ReplicaSetName (csg_shard group));
        match cab_batchers (ms_copyAccountsBatch q) !! name with
        | None => throw (Errorf "query CopyAccountsAsync has no copy batcher for replica set %q"
                           [AStr name] [])
        | Some ref => mret (targets ++ [(name, ref : refT, csg_args group)])
        end) [] groups;
      let acceptedContext := withoutCancel ctx in
      parts ← foldM (fun parts '(name, ref, args) =>
        future ← onBatcher (br_batcher ref) (fun w =>
          if cab_enabled (ms_copyAccountsBatch q)
          then Submit withoutCancel w acceptedContext (ctx_err acceptedContext)
                 (ctx_err acceptedContext) args
          else SubmitUnbatched withoutCancel w acceptedContext (ctx_err acceptedContext)
                 (ctx_err acceptedContext) args);
        mret (parts ++ [(name, br_batcher ref, future)])) [] targets;
      mret (AsyncParts parts)
  end.

Definition CopyAccountsAsync q (ctx : Context) (arg : list (option CopyAccountsT))
    : storeM asyncFuture :=
  '(ctx, querySpan) ← startLogical q ctx "Accounts" "CopyAccountsAsync" QueryKindWrite;
  '(source, err) ← returning (AsyncResolved 0 None) (
    groupsByName ← foldM (addCopyRow "route CopyAccountsAsync input %d: %w" q) ∅ (imap pair arg);
    groups ← orderedGroups q groupsByName;
    _ ← setRoute querySpan RouteModePrimary (Z.of_nat (length groups));
    if bool_decide (length groups = 0%nat) then mret (AsyncResolved 0 None)
    else submitGroups q ctx groups);
  let source := match err with Some e => AsyncResolved 0 (Some e) | None => source end in
  mret (AsyncFuture source (fun ctxErr => awaitFuture q ctxErr 0 (asyncView source))
          [endLogical ErrorType DebugEnabled querySpan]).

(** The goroutines that end the spans and resolve the returned future. *)
Definition awaitAsync (f : asyncFuture) : storeM (option (Z * option error)) :=
  s ← get_state;
  match asyncResult s (af_source f) with
  | None => mret None
  | Some r =>
      _ ← foldM (fun _ fin => fin r.2) tt (af_finish f);
      mret (Some r)
  end.

(** [Future.Await] on a future of CopyAccountsAsync. *)
Definition Future_Await (ctxErr : nat -> option error) (f : asyncFuture) : storeM (Z * option error) :=
  r ← af_await f ctxErr;
  _ ← awaitAsync f;
  mret r.

(** ** Flushing *)

(** [FlushAsync] of a batcher; the flush is named by its position there. *)
Definition startFlush (ref : refT) : storeM nat :=
  pend ← onBatcher (br_batcher ref) (fun w => mret (pending (bt w), w));
  order ← nextPendingOrder pend;
  onBatcher (br_batcher ref) (fun w => w' ← FlushAsync w order; mret (length (flushes w), w')).

(** The flushes of FlushCopyAccounts, in the order of the replica sets. *)
Definition flushSet q (flushed : list (string * loc * nat)) (p : loc) : storeM (list (string * loc * nat)) :=
  _ ← background q;
  name ← onHeap (Name p);
  match cab_batchers (ms_copyAccountsBatch q) !! name with
  | None => mret flushed
  | Some ref => index ← startFlush ref; mret (flushed ++ [(name, br_batcher ref, index)])
  end.

Definition startFlushes q : storeM (list (string * loc * nat)) :=
  foldM (flushSet q) [] (ReplicaSets (ms_mesh q)).

Definition flushView (p : loc) (i : nat) (s : stateT) : Future unit :=
  match st_batchers s !! p ≫= fun w => flushes w !! i with
  | Some fl => fl_result fl
  | None => newFuture tt
  end.

(** The waits, until one fails with the context done. *)
Fixpoint awaitFlushes q (ctxErr : nat -> option error) (flushErrors : list error)
    (flushed : list (string * loc * nat)) : storeM (option error) :=
  match flushed with
  | [] => mret (errorsJoin flushErrors)
  | (shardName, p, i) :: flushed =>
      '(_, err) ← awaitFuture q ctxErr tt (flushView p i);
      match err with
      | None => awaitFlushes q ctxErr flushErrors flushed
      | Some e =>
          let flushErrors := flushErrors ++
            [Errorf "flush CopyAccounts on replica set %q: %w" [AStr shardName] [e]] in
          s ← get_state;
          if isSome (ctxErr (st_ticks s)) then mret (errorsJoin flushErrors)
          else awaitFlushes q ctxErr flushErrors flushed
      end
  end.

Definition FlushCopyAccounts q (ctxErr : nat -> option error) : storeM (option error) :=
  flushed ← startFlushes q;
  awaitFlushes q ctxErr [] flushed.

End Async.
