(* ===== verification/StoreBuild.v ===== *)
(** * StoreBuild: opening a generated store

    Store options, topologies and NewStore (zz_generated_store.go,
    zz_generated_store_sharded.go), the query groups as interfaces, and the
    telemetry around a group that a caller's factory wraps. A nil function,
    database or provider is [None]. *)

From S2P Require Import Prelude Errors Hasher Routing Telemetry Future CopyBatch Builder Topology Tasks StoreQueries Store StoreOps StoreAsync.

#[local] Open Scope Z_scope.

Section Build.
Context {DBTX : Type} `{!Driver DBTX} `{!Runtime}.
Context {Tracer Instrument Logger : Type}.
Context (ErrorType : error -> KeyValue) (DebugEnabled : Logger -> bool).
Context (gtp : TracerProvider Tracer) (gmp : MeterProvider Instrument).

#[local] Abbreviation stateT := (storeState DBTX Tracer Instrument Logger).
#[local] Abbreviation storeM := (stE stateT error).
#[local] Abbreviation optionsT := (list (QueryOption DBTX)).
#[local] Abbreviation asyncT := (asyncFuture (DBTX := DBTX) (Tracer := Tracer)
  (Instrument := Instrument) (Logger := Logger)).

(** ** Query groups

    A flush waits, so its context is the error it has at each tick. *)

Record Accounts := MkAccounts {
  Accounts_CopyAccounts : Context -> list (option CopyAccountsT) -> optionsT -> storeM (Z * option error);
  Accounts_CopyAccountsAsync : Context -> list (option CopyAccountsT) -> storeM asyncT;
  Accounts_FlushCopyAccounts : (nat -> option error) -> storeM (option error);
  Accounts_GetAccount : Context -> option GetAccountT -> optionsT -> storeM (option Account * option error);
  Accounts_ListAccountsByIDs : Context -> list (option ListAccountsByIDsT) -> optionsT ->
    storeM (list (option Account) * option error);
  Accounts_ListAllAccounts : Context -> optionsT -> storeM (list (option Account) * option error);
  Accounts_UpdateAccountName : Context -> option UpdateAccountNameT -> optionsT ->
    storeM (option Account * option error);
  Accounts_UpsertAccount : Context -> option UpsertAccountT -> optionsT ->
    storeM (option Account * option error);
}.

Record Reports := MkReports {
  Reports_CountAccounts : Context -> option CountAccountsT -> optionsT -> storeM (Z * option error);
}.

(** The store's goroutines run beside a program that holds it:
    [Store_Background] is what they do before the program's next step. *)
Record Store := MkStore {
  Store_Accounts : Accounts;
  Store_Reports : Reports;
  Store_Background : storeM unit;
}.

Section Groups.
Context {K : Type}.
#[local] Abbreviation storeT := (meshStore DBTX K Tracer Instrument Logger).
Implicit Types (q : storeT).

(** [groupedMeshStore] as an implementation of the two groups. *)
Definition groupedAccounts q : Accounts := {|
  Accounts_CopyAccounts := CopyAccounts ErrorType DebugEnabled q;
  Accounts_CopyAccountsAsync := CopyAccountsAsync ErrorType DebugEnabled q;
  Accounts_FlushCopyAccounts := FlushCopyAccounts ErrorType DebugEnabled q;
  Accounts_GetAccount := GetAccount ErrorType DebugEnabled q;
  Accounts_ListAccountsByIDs := ListAccountsByIDs ErrorType DebugEnabled q;
  Accounts_ListAllAccounts := ListAllAccounts ErrorType DebugEnabled q;
  Accounts_UpdateAccountName := UpdateAccountName ErrorType DebugEnabled q;
  Accounts_UpsertAccount := UpsertAccount ErrorType DebugEnabled q |}.

Definition groupedReports q : Reports := {|
  Reports_CountAccounts := CountAccounts ErrorType DebugEnabled q |}.

(** ** Telemetry around a wrapped group *)

Definition startStore q (ctx : Context) (storeName queryName : string) (kind : QueryKind)
    : storeM (Context * StoreQuerySpan Instrument Logger) :=
  now ← timeNow;
  onTel (StartStoreQuerySpan (ms_id q) (telemetry (ms_mesh q)) ctx storeName queryName kind now).

Definition endStore (span : StoreQuerySpan Instrument Logger) (err : option error) : storeM unit :=
  now ← timeNow;
  onTel (StoreQuerySpan_End ErrorType DebugEnabled span err now).

(** The body of every synchronous method of a telemetry store. *)
Definition withStoreSpan {A} q (ctx : Context) (storeName queryName : string) (kind : QueryKind)
    (call : Context -> storeM (A * option error)) : storeM (A * option error) :=
  '(ctx, storeSpan) ← startStore q ctx storeName queryName kind;
  deferred (endStore storeSpan) (call ctx).

Definition telemetryAccountsStore q (target : Accounts) : Accounts := {|
  Accounts_CopyAccounts ctx arg opts := withStoreSpan q ctx "Accounts" "CopyAccounts" QueryKindWrite
    (fun ctx => Accounts_CopyAccounts target ctx arg opts);
  Accounts_CopyAccountsAsync ctx arg :=
    '(ctx, storeSpan) ← startStore q ctx "Accounts" "CopyAccountsAsync" QueryKindWrite;
    future ← Accounts_CopyAccountsAsync target ctx arg;
    mret (AsyncFuture (af_source future) (af_await future) (af_finish future ++ [endStore storeSpan]));
  Accounts_FlushCopyAccounts ctx := Accounts_FlushCopyAccounts target ctx;
  Accounts_GetAccount ctx arg opts := withStoreSpan q ctx "Accounts" "GetAccount" QueryKindRead
    (fun ctx => Accounts_GetAccount target ctx arg opts);
  Accounts_ListAccountsByIDs ctx arg opts :=
    withStoreSpan q ctx "Accounts" "ListAccountsByIDs" QueryKindRead
      (fun ctx => Accounts_ListAccountsByIDs target ctx arg opts);
  Accounts_ListAllAccounts ctx opts := withStoreSpan q ctx "Accounts" "ListAllAccounts" QueryKindRead
    (fun ctx => Accounts_ListAllAccounts target ctx opts);
  Accounts_UpdateAccountName ctx arg opts :=
    withStoreSpan q ctx "Accounts" "UpdateAccountName" QueryKindWrite
      (fun ctx => Accounts_UpdateAccountName target ctx arg opts);
  Accounts_UpsertAccount ctx arg opts := withStoreSpan q ctx "Accounts" "UpsertAccount" QueryKindWrite
    (fun ctx => Accounts_UpsertAccount target ctx arg opts) |}.

Definition telemetryReportsStore q (target : Reports) : Reports := {|
  Reports_CountAccounts ctx arg opts := withStoreSpan q ctx "Reports" "CountAccounts" QueryKindRead
    (fun ctx => Reports_CountAccounts target ctx arg opts) |}.

End Groups.

(** ** Store options *)

Record storeOptions := StoreOptions {
  so_tracerProvider : option (TracerProvider Tracer);
  so_meterProvider : option (MeterProvider Instrument);
  so_logger : option Logger;
  so_factories_Accounts : option (Accounts -> Accounts);
  so_factories_Reports : option (Reports -> Reports);
  so_copyAccounts : option CopyBatchConfig;
}.

Definition StoreOption : Type := storeOptions -> storeOptions.

Definition WithTracerProvider (provider : option (TracerProvider Tracer)) : StoreOption := fun o =>
  StoreOptions provider (so_meterProvider o) (so_logger o) (so_factories_Accounts o)
    (so_factories_Reports o) (so_copyAccounts o).
Definition WithMeterProvider (provider : option (MeterProvider Instrument)) : StoreOption := fun o =>
  StoreOptions (so_tracerProvider o) provider (so_logger o) (so_factories_Accounts o)
    (so_factories_Reports o) (so_copyAccounts o).
Definition WithLogger (logger : option Logger) : StoreOption := fun o =>
  StoreOptions (so_tracerProvider o) (so_meterProvider o) logger (so_factories_Accounts o)
    (so_factories_Reports o) (so_copyAccounts o).
Definition WithAccountsFactory (create : option (Accounts -> Accounts)) : StoreOption := fun o =>
  StoreOptions (so_tracerProvider o) (so_meterProvider o) (so_logger o) create
    (so_factories_Reports o) (so_copyAccounts o).
Definition WithReportsFactory (create : option (Reports -> Reports)) : StoreOption := fun o =>
  StoreOptions (so_tracerProvider o) (so_meterProvider o) (so_logger o) (so_factories_Accounts o)
    create (so_copyAccounts o).
Definition WithCopyAccountsBatching (config : CopyBatchConfig) : StoreOption := fun o =>
  StoreOptions (so_tracerProvider o) (so_meterProvider o) (so_logger o) (so_factories_Accounts o)
    (so_factories_Reports o) (Some config).

Definition applyStoreOptions (options : list (option StoreOption)) : result storeOptions :=
  foldO (fun o '(index, option) =>
    match option with
    | None => Err (Errorf "pgmesh: store option %d is nil" [AInt (Z.of_nat index)] [])
    | Some f => Ok (f o)
    end) (StoreOptions None None None None None None) (imap pair options).

(** ** Initialization *)

Section Initialize.
Context {K : Type}.
#[local] Abbreviation meshT := (Mesh (K := K) (Tracer := Tracer) (Instrument := Instrument)
  (Logger := Logger)).
#[local] Abbreviation refT := (batcherRef (DBTX := DBTX) (Tracer := Tracer)
  (Instrument := Instrument) (Logger := Logger)).

Definition allocBatcher (b : CopyBatcher (T := CopyAccountsParams) (Ctx := Context)) : storeM loc :=
  fun s => (Ok (st_next s),
    setBatchers (<[st_next s := initial b]> (st_batchers s)) (Pos.succ (st_next s)) s).

(** A new pointer. *)
Definition allocId : storeM loc := fun s =>
  (Ok (st_next s), setBatchers (st_batchers s) (Pos.succ (st_next s)) s).

(** One turn of the loop of initializeCopyBatchers. *)
Definition addBatcher (mesh : meshT) (config : CopyBatchConfig) (batchers : gmap string refT)
    (replicaSet : loc) : storeM (gmap string refT) :=
  route ← onHeap (WriteRoute replicaSet);
  match NewCopyBatcher config true [Some 0%nat] with
  | Err e => throw (Errorf "configure CopyAccounts copy batching: %w" [] [e])
  | Panic => lift Panic
  | Ok b =>
      batcher ← allocBatcher b;
      name ← onHeap (Name replicaSet);
      mret (<[name := BatcherRef batcher route
                (NewCopyBatchObserver ErrorType (telemetry mesh) "Accounts" "CopyAccounts"
                   (Metadata route))]> batchers)
  end.

Definition initializeCopyBatchers (mesh : meshT) (options : storeOptions)
    : storeM (copyAccountsBatchState (DBTX := DBTX)) :=
  let config := default (MkConfig 0 0 0) (so_copyAccounts options) in
  batchers ← foldM (addBatcher mesh config) ∅ (ReplicaSets mesh);
  mret (CopyAccountsBatchState (isSome (so_copyAccounts options)) batchers).

(** The groups, wrapped by the caller's factories. *)
Definition initializeGroups (q : meshStore DBTX K Tracer Instrument Logger) (options : storeOptions)
    : Store := {|
  Store_Accounts :=
    match so_factories_Accounts options with
    | Some create => telemetryAccountsStore q (create (groupedAccounts q))
    | None => groupedAccounts q
    end;
  Store_Reports :=
    match so_factories_Reports options with
    | Some create => telemetryReportsStore q (create (groupedReports q))
    | None => groupedReports q
    end;
  Store_Background := background ErrorType DebugEnabled q |}.

(** The end of both buildStore methods. *)
Definition finishStore (mesh : meshT) (resolver : option (TenantKey -> option K)) (zero : K)
    (options : storeOptions) : storeM (meshStore DBTX K Tracer Instrument Logger * Store) :=
  id ← allocId;
  copyAccountsBatch ← initializeCopyBatchers mesh options;
  let q := MeshStore id mesh resolver zero copyAccountsBatch in
  mret (q, initializeGroups q options).

End Initialize.

(** ** One database *)

Record singletonConfig := SingletonConfig {
  sc_name : string;
  sc_primary : option DBTX;
  sc_replicas : list (option DBTX);
  sc_mirrors : list (option DBTX);
}.

Definition SingletonOption : Type := singletonConfig -> singletonConfig.

Definition WithDatabaseName (name : string) : SingletonOption := fun c =>
  SingletonConfig name (sc_primary c) (sc_replicas c) (sc_mirrors c).
Definition WithReadReplicas (databases : list (option DBTX)) : SingletonOption := fun c =>
  SingletonConfig (sc_name c) (sc_primary c) (sc_replicas c ++ databases) (sc_mirrors c).
Definition WithWriteMirrors (databases : list (option DBTX)) : SingletonOption := fun c =>
  SingletonConfig (sc_name c) (sc_primary c) (sc_replicas c) (sc_mirrors c ++ databases).

(** A topology is its configuration, or the error its constructor met. *)
Definition Singleton (primary : option DBTX) (options : list (option SingletonOption))
    : result singletonConfig :=
  foldO (fun c '(index, option) =>
    match option with
    | None => Err (Errorf "pgmesh: singleton option %d is nil" [AInt (Z.of_nat index)] [])
    | Some f => Ok (f c)
    end) (SingletonConfig "default" primary [] []) (imap pair options).

(** The databases of a list, none of which may be nil. *)
Definition requireAll (format : string) (databases : list (option DBTX)) : result (list DBTX) :=
  foldO (fun acc '(index, database) =>
    match database with
    | None => Err (Errorf format [AInt (Z.of_nat index)] [])
    | Some d => Ok (acc ++ [d])
    end) [] (imap pair databases).

Definition singleton_buildStore (c : result singletonConfig) (options : storeOptions)
    : storeM (meshStore DBTX Z Tracer Instrument Logger * Store) :=
  config ← lift c;
  let name := if bool_decide (sc_name config = "") then "default" else sc_name config in
  primaryDB ← lift (match sc_primary config with
                    | None => Err (ErrorText "pgmesh: database primary is nil")
                    | Some d => Ok d
                    end);
  replicaDBs ← lift (requireAll "pgmesh: database replica %d is nil" (sc_replicas config));
  mirrorDBs ← lift (requireAll "pgmesh: database mirror %d is nil" (sc_mirrors config));
  replicaSet ← onHeap (NewReplicaSet name (newStoreNode primaryDB) (newStoreNode <$> replicaDBs));
  replicaSet ← onHeap (Routing.WithWriteMirrors replicaSet
                         (Writer ∘ newStoreNode <$> mirrorDBs));
  builder ← lift (NewMeshBuilder gtp gmp 1);
  mesh ← onHeap (Build (MapVirtualShard
    (Builder.WithLogger (Builder.WithMeterProvider gmp (Builder.WithTracerProvider gtp
      (WithShardHasher builder (Some (NewConstantShardHasher (K := Z) 0)))
      (so_tracerProvider options)) (so_meterProvider options)) (so_logger options))
    0 (Some replicaSet)));
  finishStore mesh None 0 options.

(** ** Shards *)

Record shardDatabase := ShardDatabase {
  sd_name : string; sd_primary : option DBTX; sd_replicas : list (option DBTX) }.
Record shardMapping := ShardMapping {
  sm_mainReplicaSet : string; sm_virtualShards : list Z; sm_mirrorReplicaSets : list string }.
Record shardedOptions := ShardedOptions {
  sho_replicaSets : list shardDatabase; sho_mappings : list shardMapping }.

Definition ShardedOption : Type := shardedOptions -> shardedOptions.

Definition WithReplicaSet (name : string) (primary : option DBTX) (replicas : list (option DBTX))
    : ShardedOption := fun o =>
  ShardedOptions (sho_replicaSets o ++ [ShardDatabase name primary replicas]) (sho_mappings o).
Definition WithVirtualShardMapping (mainReplicaSet : string) (virtualShards : list Z)
    (mirrorReplicaSets : list string) : ShardedOption := fun o =>
  ShardedOptions (sho_replicaSets o)
    (sho_mappings o ++ [ShardMapping mainReplicaSet virtualShards mirrorReplicaSets]).

Record shardedTopology (K : Type) := ShardedTopology {
  sht_virtualShardCount : Z;
  sht_shardHasher : option (ShardHasher K);
  sht_resolver : option (TenantKey -> option K);
  sht_options : shardedOptions;
}.

Definition Sharded {K} (virtualShardCount : Z) (shardHasher : option (ShardHasher K))
    (resolver : option (TenantKey -> option K)) (options : list (option ShardedOption))
    : result (shardedTopology K) :=
  configured ← foldO (fun o '(index, option) =>
    match option with
    | None => Err (Errorf "pgmesh: sharded option %d is nil" [AInt (Z.of_nat index)] [])
    | Some f => Ok (f o)
    end) (ShardedOptions [] []) (imap pair options);
  mret (ShardedTopology K virtualShardCount shardHasher resolver configured).

(** The DSNs a sharded topology gives its databases. *)
Definition primaryDSNOf (setIndex : nat) : string := "pgmesh-internal://" +:+ Itoa setIndex +:+ "/primary".
Definition replicaDSNOf (setIndex replicaIndex : nat) : string :=
  "pgmesh-internal://" +:+ Itoa setIndex +:+ "/replica/" +:+ Itoa replicaIndex.

(** One turn of the loop over the replica sets: the nodes by DSN, and the mesh
    option of the set. *)
Definition addSet (st : gmap string (option DBTX) * list (option OpenMeshOption))
    (x : nat * shardDatabase)
    : gmap string (option DBTX) * list (option (OpenMeshOption (Tracer := Tracer)
        (Instrument := Instrument) (Logger := Logger))) :=
  let '(nodes, meshOptions) := st in
  let '(setIndex, set) := x in
  let nodes := <[primaryDSNOf setIndex := sd_primary set]> nodes in
  let '(nodes, replicaDSNs) :=
    foldl (fun '(nodes, dsns) '(replicaIndex, database) =>
      let dsn := replicaDSNOf setIndex replicaIndex in
      (<[dsn := database]> nodes, dsns ++ [dsn])) (nodes, []) (imap pair (sd_replicas set)) in
  (nodes, meshOptions ++ [Some (Topology.WithReplicaSet (sd_name set) (primaryDSNOf setIndex) replicaDSNs)]).

(** The opener of a sharded topology. *)
Definition shardedOpener (nodes : gmap string (option DBTX))
    : NodeOpener (R := readQueries DBTX) (W := queryStore DBTX) := fun _ dsn =>
  match nodes !! dsn with
  | Some (Some database) => inr (newStoreNode database)
  | _ => inl (Errorf "pgmesh: database node %q is nil" [AStr dsn] [])
  end.

Definition sharded_buildStore {K} (zero : K) (c : result (shardedTopology K)) (options : storeOptions)
    : storeM (meshStore DBTX K Tracer Instrument Logger * Store) :=
  c ← lift c;
  match sht_resolver K c with
  | None => throw (ErrorText "pgmesh: shard resolver is nil")
  | Some resolver =>
      let '(nodes, meshOptions) := foldl addSet (∅, []) (imap pair (sho_replicaSets (sht_options K c))) in
      let meshOptions := meshOptions ++
        ((fun m => Some (Topology.WithVirtualShardMapping (sm_mainReplicaSet m) (sm_virtualShards m)
            (sm_mirrorReplicaSets m))) <$> sho_mappings (sht_options K c)) ++
        [Some (Topology.WithTracerProvider (so_tracerProvider options));
         Some (Topology.WithMeterProvider (so_meterProvider options));
         Some (Topology.WithLogger (so_logger options))] in
      mesh ← onHeap (OpenMesh gtp gmp (sht_virtualShardCount K c) (Some (shardedOpener nodes))
                       (sht_shardHasher K c) meshOptions);
      finishStore mesh (Some resolver) zero options
  end.

(** ** NewStore *)

(** A topology is an interface value with the method buildStore. *)
Definition NewStore (topology : option (storeOptions -> storeM Store))
    (options : list (option StoreOption)) : storeM Store :=
  match topology with
  | None => throw (ErrorText "pgmesh: topology is nil")
  | Some buildStore =>
      storeOptions ← lift (applyStoreOptions options);
      buildStore storeOptions
  end.

End Build.
