(* ===== verification/StoreLemmas.v ===== *)
(** * StoreLemmas: running the operations of a generated store

    [runs] is total correctness of a computation: it ends without a panic in a
    state with the given property. [frame] relates states that differ in
    telemetry and balancer tickets only. Lemmas for the spans, for [routedRead] and [routedWrite],
    and for the wrappers of the query layer; the theorems about stores use
    these. *)

From S2P Require Import Prelude Errors Hasher Balancer Routing Telemetry CopyBatch Builder Tasks StoreQueries Store StoreOps.

#[local] Open Scope Z_scope.

(** ** Total correctness *)

Definition runs {S E A} (m : stE S E A) (s : S) (Q : A -> S -> Prop) : Prop :=
  exists a s', m s = (Ok a, s') /\ Q a s'.

Lemma runs_ret {S E A} (a : A) (s : S) (Q : A -> S -> Prop) : Q a s -> runs (E := E) (mret a) s Q.
Proof. intros H. by exists a, s. Qed.

Lemma runs_mono {S E A} (m : stE S E A) s (P Q : A -> S -> Prop) :
  runs m s P -> (forall a s', P a s' -> Q a s') -> runs m s Q.
Proof. intros (a & s' & Hm & HP) H. exists a, s'. auto. Qed.

Lemma runs_bind {S E A B} (m : stE S E A) (k : A -> stE S E B) s Q :
  runs m s (fun a s' => runs (k a) s' Q) -> runs (m ≫= k) s Q.
Proof.
  intros (a & s' & Hm & b & s2 & Hk & HQ). exists b, s2. split; [|done].
  by rewrite (stE_bind_Ok _ _ _ _ _ Hm).
Qed.

(** A computation and what follows it, when a weaker postcondition suffices. *)
Lemma runs_seq {S E A B} (m : stE S E A) (k : A -> stE S E B) s P Q :
  runs m s P -> (forall a s', P a s' -> runs (k a) s' Q) -> runs (m ≫= k) s Q.
Proof. intros Hm Hk. apply runs_bind. by eapply runs_mono. Qed.

Lemma runs_task {S C A} (calls : S -> list C) (I : S -> Prop) P (t : task S A) s :
  does calls I P t -> I s ->
  runs (runTask t) s (fun a s' => I s' /\ exists l, calls s' = calls s ++ l /\ P a l).
Proof.
  intros Ht Hs. destruct (runTask_does calls I P t s Ht Hs) as (a & s' & l & E & Hs' & Hc & Hp).
  exists a, s'. eauto.
Qed.

Lemma deferred_runs {S A} fin (body : stE S error (A * option error)) s Q :
  runs body s (fun r s' => runs (fin r.2) s' (fun _ s2 => Q r s2)) -> runs (deferred fin body) s Q.
Proof.
  intros ([v err] & s1 & Hb & [] & s2 & Hf & HQ). exists (v, err), s2. split; [|done].
  unfold deferred. rewrite Hb. simpl in Hf. by rewrite Hf.
Qed.

Create HintDb store discriminated.

Section Lemmas.
Context {DBTX : Type} `{!Driver DBTX} `{!Runtime}.
Context {K Tracer Instrument Logger : Type}.
Context (ErrorType : error -> KeyValue) (DebugEnabled : Logger -> bool).

#[local] Abbreviation stateT := (storeState DBTX Tracer Instrument Logger).
#[local] Abbreviation storeM := (stE stateT error).
#[local] Abbreviation storeT := (meshStore DBTX K Tracer Instrument Logger).
#[local] Abbreviation heapT := (heap (readQueries DBTX) (queryStore DBTX)).
#[local] Abbreviation setT := (ReplicaSet (readQueries DBTX) (queryStore DBTX)).
#[local] Abbreviation spanT := (LogicalQuerySpan Tracer Instrument Logger).
Implicit Types (q : storeT) (s : stateT).

(** ** Telemetry is there and changes nothing else *)

Record telemetryOk (t : meshTelemetry Tracer Instrument Logger) : Prop := {
  tok_tracer : is_Some (tracer t);
  tok_logical : is_Some (logicalDuration t);
  tok_physical : is_Some (physicalDuration t);
  tok_inFlight : is_Some (physicalInFlight t);
  tok_copies : Forall (fun field : meshTelemetry Tracer Instrument Logger -> option Instrument => is_Some (field t))
    [copyBatchRows; copyBatchSubmissions; copyBatchFlushes; copyBatchDuration; copyBatchQueueDuration];
}.

Record spanOk (sp : spanT) : Prop := {
  sok_tracer : is_Some (ls_tracer sp);
  sok_logical : is_Some (ls_logicalDuration sp);
  sok_physical : is_Some (ls_physicalDuration sp);
  sok_inFlight : is_Some (ls_physicalInFlight sp);
}.

Definition physicalOk (sp : PhysicalQuerySpan Instrument Logger) : Prop :=
  is_Some (ps_physicalDuration sp) /\ is_Some (ps_physicalInFlight sp).

Definition spanLive (id : nat) s : Prop := exists sp, st_spans s !! id = Some sp /\ spanOk sp.

(** Reading a replica set moves its balancer and nothing else. *)
Record heapLe (h h' : heapT) : Prop := {
  hle_wf : heap_wf h -> heap_wf h';
  hle_sets : replicaSetsAt h' = replicaSetsAt h;
  hle_targets st rs : set_wf h st rs -> set_wf h' st rs;
}.

#[export] Instance heapLe_refl : Reflexive heapLe.
Proof. by split. Qed.
#[export] Instance heapLe_trans : Transitive heapLe.
Proof. intros h1 h2 h3 [] []. split; [auto|congruence|auto]. Qed.

(** States that differ in telemetry and in the balancers' tickets only. *)
Record frame s s' : Prop := {
  fr_heap : heapLe (st_heap s) (st_heap s');
  fr_calls : st_calls s' = st_calls s;
  fr_batchers : st_batchers s' = st_batchers s;
  fr_next : st_next s' = st_next s;
  fr_live id : spanLive id s -> spanLive id s';
}.

#[export] Instance frame_refl : Reflexive frame.
Proof. by split. Qed.
#[export] Instance frame_trans : Transitive frame.
Proof. intros s1 s2 s3 [] []. split; [by etrans|congruence..|auto]. Qed.

Lemma timeNow_runs s : runs timeNow s (fun _ s' => frame s s').
Proof. eexists _, _. split; [done|]. by split. Qed.

Lemma nextSchedule_runs s : runs nextSchedule s (fun _ s' => frame s s').
Proof. eexists _, _. split; [done|]. by split. Qed.

Lemma onTel_runs {A} (m : stE (tstate Tracer Instrument Logger) error A) s (Q : A -> Prop) :
  runs m (st_tel s) (fun a _ => Q a) -> runs (onTel m) s (fun a s' => Q a /\ frame s s').
Proof.
  intros (a & t & Hm & HQ). exists a, (setTel t s). unfold onTel, zoomM. rewrite Hm.
  split; [done|]. split; [done|]. by split.
Qed.

Lemma emit_runs (c : apiCall Tracer Instrument Logger) st : runs (emit c) st (fun _ _ => True).
Proof. by eexists _, _. Qed.

Lemma onInstrument_runs (i : option Instrument) (c : Instrument -> apiCall Tracer Instrument Logger) st :
  is_Some i -> runs (onInstrument i c) st (fun _ _ => True).
Proof. intros [x ->]. by eexists _, _. Qed.

Lemma recordSpanError_runs span err (st : tstate Tracer Instrument Logger) :
  runs (recordSpanError ErrorType span err) st (fun _ _ => True).
Proof. destruct err; by eexists _, _. Qed.

Lemma logIf_runs {A} (o : option A) (f : A -> apiCall Tracer Instrument Logger) st :
  runs (match o with Some l => emit (f l) | None => mret tt end) st (fun _ _ => True).
Proof. destruct o; by eexists _, _. Qed.

(** Telemetry code that never panics: run its calls one after the other. *)
Ltac telemetry_runs :=
  repeat first
    [ apply runs_ret; done
    | apply emit_runs
    | apply onInstrument_runs; done
    | apply recordSpanError_runs
    | apply logIf_runs
    | eapply runs_seq; [solve [apply emit_runs | apply onInstrument_runs; done
                              | apply recordSpanError_runs | apply logIf_runs]|intros ?? _] ].

Lemma LogicalQuerySpan_End_runs sp err now st :
  spanOk sp -> runs (LogicalQuerySpan_End ErrorType DebugEnabled sp err now) st (fun _ _ => True).
Proof. intros []. unfold LogicalQuerySpan_End. telemetry_runs. Qed.

Lemma PhysicalQuerySpan_End_runs sp err now (st : tstate Tracer Instrument Logger) :
  physicalOk sp -> runs (PhysicalQuerySpan_End ErrorType DebugEnabled sp err now) st (fun _ _ => True).
Proof. intros []. unfold PhysicalQuerySpan_End. telemetry_runs. Qed.

Lemma startSpan_runs (t : option Tracer) ctx name attrs (st : tstate Tracer Instrument Logger) :
  is_Some t -> runs (startSpan t ctx name attrs) st (fun r _ => ctx_err r.1 = ctx_err ctx).
Proof. intros [x ->]. by eexists _, _. Qed.

Lemma startPhysicalQuerySpan_runs ctx t pd pf lg sn qn k route mode now (st : tstate Tracer Instrument Logger) :
  is_Some t -> is_Some pd -> is_Some pf ->
  runs (startPhysicalQuerySpan ctx t pd pf lg sn qn k route mode now) st
    (fun r _ => physicalOk r.2).
Proof.
  intros Ht Hd Hf. unfold startPhysicalQuerySpan. destruct (reportedNode route mode) as [node role].
  eapply runs_seq; [by apply startSpan_runs|]. intros [ctx' span] st' _.
  eapply runs_seq; [by apply onInstrument_runs|]. intros ? st2 _. by apply runs_ret.
Qed.

Lemma StartLogicalQuerySpan_runs m t ctx sn qn k now (st : tstate Tracer Instrument Logger) :
  telemetryOk t -> runs (StartLogicalQuerySpan m t ctx sn qn k now) st
    (fun r _ => ctx_err r.1 = ctx_err ctx /\ spanOk r.2).
Proof.
  intros []. unfold StartLogicalQuerySpan.
  apply (runs_seq _ _ _ (fun _ _ => True)).
  { unfold runs, markExecuted. destruct (ctx_execution ctx) as [l|]; [|by eexists _, _].
    destruct (executions st !! l); [|by eexists _, _]. case_bool_decide; by eexists _, _. }
  intros ? st' _. eapply runs_seq; [by apply startSpan_runs|]. intros [ctx' span] st2 Hc.
  apply runs_ret. by split.
Qed.

Lemma NewCopyBatchObserver_runs t sn qn route observation (st : tstate Tracer Instrument Logger) :
  telemetryOk t -> runs (NewCopyBatchObserver ErrorType t sn qn route observation) st (fun _ _ => True).
Proof.
  intros [_ _ _ _ Hc]. rewrite !Forall_cons in Hc. destruct Hc as (? & ? & ? & ? & ? & _).
  unfold NewCopyBatchObserver. telemetry_runs.
Qed.

Lemma startLogical_runs q ctx sn qn k s :
  telemetryOk (telemetry (ms_mesh q)) ->
  runs (startLogical q ctx sn qn k) s
    (fun r s' => ctx_err r.1 = ctx_err ctx /\ spanLive r.2 s' /\ frame s s').
Proof.
  intros Ht. unfold startLogical. eapply runs_seq; [apply timeNow_runs|]. intros now s1 H1.
  eapply runs_seq; [apply onTel_runs, (StartLogicalQuerySpan_runs _ _ _ _ _ _ _ _ Ht)|].
  intros [ctx' sp] s2 [[Hc Hsp] H2]. simpl in *. eexists _, _. split; [done|]. split_and!; [done| |].
  - exists sp. split; [apply lookup_insert_eq|done].
  - transitivity s1; [done|]. transitivity s2; [done|]. split; [done..|]. intros id (sp' & Hl & Hok).
    unfold spanLive. simpl. destruct (decide (id = ls_span sp)) as [->|Hne].
    + exists sp. by rewrite lookup_insert_eq.
    + exists sp'. by rewrite lookup_insert_ne.
Qed.

Lemma logicalSpan_runs id s :
  spanLive id s -> runs (logicalSpan id) s (fun sp s' => s' = s /\ spanOk sp).
Proof.
  intros (sp & Hl & Hok). exists sp, s. split; [|done]. unfold logicalSpan, lift, mbind, stE_bind. simpl.
  by rewrite Hl.
Qed.

Lemma setRoute_runs id mode n s : spanLive id s -> runs (setRoute id mode n) s (fun _ s' => frame s s').
Proof.
  intros Hid. unfold setRoute. eapply runs_seq; [by apply logicalSpan_runs|]. intros sp s1 [-> Hsp].
  eapply runs_seq.
  { apply (onTel_runs _ _ spanOk). eapply runs_seq; [apply emit_runs|]. intros ?? _.
    apply runs_ret. by destruct Hsp. }
  intros sp' s2 [Hok H2]. eexists _, _. split; [done|].
  transitivity s2; [done|]. split; [done..|]. intros id' (sp2 & Hl & Hok2).
  unfold spanLive. simpl. destruct (decide (id' = id)) as [->|Hne].
  - exists sp'. by rewrite lookup_insert_eq.
  - exists sp2. by rewrite lookup_insert_ne.
Qed.

Lemma startPhysical_runs id ctx route mode s :
  spanLive id s ->
  runs (startPhysical id ctx route mode) s (fun r s' => physicalOk r.2 /\ frame s s').
Proof.
  intros Hid. unfold startPhysical. eapply runs_seq; [apply timeNow_runs|]. intros now s1 H1.
  eapply runs_seq; [apply logicalSpan_runs; by apply (fr_live _ _ H1)|]. intros sp s2 [-> Hsp].
  destruct Hsp. eapply runs_mono.
  { apply (onTel_runs _ _ (fun r => physicalOk r.2)). by apply startPhysicalQuerySpan_runs. }
  intros r s2 [? ?]. split; [done|]. by transitivity s1.
Qed.

Lemma endPhysical_runs sp err s :
  physicalOk sp -> runs (endPhysical ErrorType DebugEnabled sp err) s (fun _ s' => frame s s').
Proof.
  intros Hsp. unfold endPhysical. eapply runs_seq; [apply timeNow_runs|]. intros now s1 H1.
  eapply runs_mono; [apply (onTel_runs _ _ (fun _ => True)), PhysicalQuerySpan_End_runs, Hsp|].
  intros ? s2 [_ ?]. by transitivity s1.
Qed.

Lemma endLogical_runs id err s :
  spanLive id s -> runs (endLogical ErrorType DebugEnabled id err) s (fun _ s' => frame s s').
Proof.
  intros Hid. unfold endLogical. eapply runs_seq; [apply timeNow_runs|]. intros now s1 H1.
  eapply runs_seq; [apply logicalSpan_runs; by apply (fr_live _ _ H1)|]. intros sp s2 [-> Hsp].
  eapply runs_mono; [apply (onTel_runs _ _ (fun _ => True)), LogicalQuerySpan_End_runs, Hsp|].
  intros ? s2 [_ ?]. by transitivity s1.
Qed.

(** ** Routes *)

Lemma selectRead_le st h rs :
  heap_wf h -> set_wf h st rs ->
  runs (selectRead st) h (fun t h' => heapLe h h' /\ t ∈ readTargetsOf (primary st) rs).
Proof.
  intros Hwf Hset. destruct (selectRead_spec st h rs Hwf Hset) as (b & t & b' & Hb & Hn & Ht & Hsel & Hwf').
  exists t. eexists. split; [exact Hsel|]. split; [|done]. split; [done..|].
  intros st2 rs2 (b2 & Hb2 & Hi2 & Hr2). unfold set_wf. simpl.
  destruct (decide (readTargets st = readTargets st2)) as [E|E].
  - rewrite <- E in *. rewrite Hb in Hb2. injection Hb2 as <-. exists b'. rewrite lookup_insert_eq.
    destruct (nextItem_spec b) as (t2 & _ & Hn2).
    { split; [rewrite Hi2; apply readTargetsOf_nonempty|done]. }
    rewrite Hn in Hn2. injection Hn2 as _ ->. split_and!; [done|done|]. simpl. by apply wrap_u_range.
  - exists b2. by rewrite lookup_insert_ne.
Qed.

Lemma ReadRoute_le p st h rs :
  heap_wf h -> replicaSetsAt h !! p = Some st -> set_wf h st rs ->
  runs (ReadRoute p) h
    (fun r h' => heapLe h h' /\ Target r ∈ (nt_value <$> readTargetsOf (primary st) rs)).
Proof.
  intros Hwf Hp Hset. unfold ReadRoute. apply (runs_seq _ _ _ (fun x h' => x = st /\ h' = h)).
  { exists st, h. unfold deref. by rewrite Hp. }
  intros ? ? [-> ->]. eapply runs_seq; [by apply selectRead_le|]. intros t h' [Hle Ht].
  apply runs_ret. split; [done|]. simpl. by apply list_elem_of_fmap_2.
Qed.

Lemma WriteRoute_le p st (h : heapT) :
  replicaSetsAt h !! p = Some st ->
  runs (WriteRoute p) h
    (fun r h' => h' = h /\ Target r = WithMirrors (Writer (primary st)) (writeMirrors st)).
Proof.
  intros Hp. unfold WriteRoute. apply (runs_seq _ _ _ (fun x h' => x = st /\ h' = h)).
  - exists st, h. unfold deref. by rewrite Hp.
  - intros ? ? [-> ->]. by apply runs_ret.
Qed.

Lemma onHeap_runs {A} (m : stE heapT error A) s (Q : A -> heapT -> Prop) :
  runs m (st_heap s) Q ->
  runs (onHeap m) s (fun a s' => Q a (st_heap s') /\ exists h, s' = setHeap h s).
Proof.
  intros (a & h & Hm & HQ). exists a, (setHeap h s). unfold onHeap, zoomM. rewrite Hm.
  split; [done|]. split; [done|]. by exists h.
Qed.

Lemma frame_setHeap s h : heapLe (st_heap s) h -> frame s (setHeap h s).
Proof. by split. Qed.

Lemma shardRead_runs shard st rs s :
  heap_wf (st_heap s) -> replicaSetsAt (st_heap s) !! rsh_replicaSet shard = Some st ->
  set_wf (st_heap s) st rs ->
  runs (onHeap (ResolvedShard_ReadRoute shard)) s
    (fun r s' => frame s s' /\ Target r ∈ (nt_value <$> readTargetsOf (primary st) rs)).
Proof.
  intros Hwf Hp Hset. eapply runs_mono.
  - apply (onHeap_runs _ _ (fun r h => heapLe (st_heap s) h /\
      Target r ∈ (nt_value <$> readTargetsOf (primary st) rs))).
    eapply runs_seq; [by apply ReadRoute_le|]. intros r h' Hr. apply runs_ret. exact Hr.
  - intros r s' [[Hle Ht] [h ->]]. split; [by apply frame_setHeap|done].
Qed.

Lemma shardWrite_runs shard st s :
  replicaSetsAt (st_heap s) !! rsh_replicaSet shard = Some st ->
  runs (onHeap (ResolvedShard_WriteRoute shard)) s
    (fun r s' => frame s s' /\ Target r = WithMirrors (Writer (primary st)) (writeMirrors st)).
Proof.
  intros Hp. eapply runs_mono.
  - apply (onHeap_runs _ _ (fun r h => h = st_heap s /\
      Target r = WithMirrors (Writer (primary st)) (writeMirrors st))).
    eapply runs_seq; [by apply WriteRoute_le|]. intros r h' Hr. apply runs_ret. exact Hr.
  - intros r s' [[Hle Ht] [h ->]]. simpl in *. subst h. split; [by apply frame_setHeap|done].
Qed.

(** Which reader a read of the set [st] may use. *)
Definition readTarget (options : queryOptions DBTX) (st : setT) (rs : list (Node _ _))
    (target : readQueries DBTX) : Prop :=
  match qo_tx options, qo_primary options with
  | Some tx, _ => target = newReadQueries (New tx)
  | None, true => target = newReadQueries (wq_main (qs_write (Writer (primary st))))
  | None, false => target ∈ (nt_value <$> readTargetsOf (primary st) rs)
  end.

(** The writer of a write to the set [st]. *)
Definition writeTarget (options : queryOptions DBTX) (st : setT) : writeQueries DBTX :=
  match qo_tx options with
  | Some tx => newWriteQueries (New tx) []
  | None => qs_write (WithMirrors (Writer (primary st)) (writeMirrors st))
  end.

(** The writer of a set of databases, outside a transaction. *)
Lemma writeTarget_databases (st : setT) p ms options :
  primary st = newStoreNode p -> writeMirrors st = Writer ∘ newStoreNode <$> ms -> qo_tx options = None ->
  writeTarget options st = MkWriteQueries (New p) (New <$> ms).
Proof.
  intros Hp Hw Htx. unfold writeTarget. rewrite Htx, Hp, Hw. clear Hw.
  unfold WithMirrors, queryStore_mirrorable, queryStore_WithMirrors. simpl. unfold newWriteQueries.
  f_equal. rewrite <- (app_nil_l (New <$> ms)). generalize (@nil (Queries DBTX)) as acc.
  induction ms as [|m ms IH]; intros acc; simpl; [by rewrite app_nil_r|].
  rewrite IH. by rewrite <- app_assoc.
Qed.

(** Run a database call and the end of its spans. *)
Lemma finishSpans_runs {A} (run : storeM (A * option error)) id physical s (Q : A * option error -> stateT -> Prop) :
  spanLive id s -> physicalOk physical ->
  runs run s (fun r s2 => st_spans s2 = st_spans s /\ forall s3, frame s2 s3 -> Q r s3) ->
  runs (deferred (endPhysical ErrorType DebugEnabled physical) run) s
    (fun r s2 => runs (endLogical ErrorType DebugEnabled id r.2) s2 (fun _ s3 => Q r s3)).
Proof.
  intros Hid Hph Hrun. apply deferred_runs. eapply runs_mono; [exact Hrun|]. intros r s2 [Hsp HQ].
  eapply runs_mono; [by apply endPhysical_runs|]. intros ? s3 H3.
  eapply runs_mono; [apply endLogical_runs|intros ? s4 H4; apply HQ; by transitivity s3].
  apply (fr_live _ _ H3). unfold spanLive. by rewrite Hsp.
Qed.

Lemma resolveShard_runs q key k shard s :
  shardKeyOf q key = Ok k -> Resolve (ms_mesh q) k = Ok shard ->
  runs (resolveShard q key) s (fun r s' => r = inr shard /\ s' = s).
Proof. intros Hk Hr. unfold runs, resolveShard. rewrite Hk, Hr. by eexists _, _. Qed.

(** A read of one shard runs its query on an allowed reader of the shard's set. *)
Lemma routedRead_runs {A} (zero : A) sn qn q ctx key opts run k shard st rs s Q :
  telemetryOk (telemetry (ms_mesh q)) -> heap_wf (st_heap s) ->
  shardKeyOf q key = Ok k -> Resolve (ms_mesh q) k = Ok shard ->
  replicaSetsAt (st_heap s) !! rsh_replicaSet shard = Some st -> set_wf (st_heap s) st rs ->
  (forall target ctx' s1, frame s s1 -> readTarget (applyQueryOptions opts) st rs target ->
     runs (run target ctx') s1
       (fun r s2 => st_spans s2 = st_spans s1 /\ forall s3, frame s2 s3 -> Q r s3)) ->
  runs (routedRead ErrorType DebugEnabled zero sn qn q ctx key opts run) s Q.
Proof.
  intros Ht Hwf Hk Hr Hp Hset Hrun. unfold routedRead.
  eapply runs_seq; [by apply startLogical_runs|]. intros [ctx1 id] s1 (_ & Hid & H1). cbn [fst snd] in *.
  apply deferred_runs. eapply runs_seq; [by eapply resolveShard_runs|]. intros ? ? [-> ->].
  set (options := applyQueryOptions opts) in *. unfold readTarget in Hrun.
  assert (Hcont : forall mode ctx' target s2 meta, frame s s2 -> spanLive id s2 ->
    match qo_tx options, qo_primary options with
    | Some tx, _ => target = newReadQueries (New tx)
    | None, true => target = newReadQueries (wq_main (qs_write (Writer (primary st))))
    | None, false => target ∈ (nt_value <$> readTargetsOf (primary st) rs)
    end ->
    runs ('(ctx, physical) ← startPhysical id ctx' meta mode;
          deferred (endPhysical ErrorType DebugEnabled physical) (run target ctx)) s2
      (fun r s' => runs (endLogical ErrorType DebugEnabled id r.2) s' (fun _ s3 => Q r s3))).
  { intros mode ctx' target s2 meta H2 Hid2 Htgt. eapply runs_seq; [by apply startPhysical_runs|].
    intros [ctx2 ph] s3 [Hph H3]. apply finishSpans_runs; [by apply (fr_live _ _ H3)|done|].
    apply Hrun; [by etrans|done]. }
  destruct (qo_tx options) as [tx|] eqn:Htx; [|destruct (qo_primary options) eqn:Hpr].
  - eapply runs_seq; [by apply setRoute_runs|]. intros ? s2 H2.
    assert (H12 : frame s s2) by by transitivity s1.
    eapply runs_seq; [apply shardWrite_runs; by rewrite (hle_sets _ _ (fr_heap _ _ H12))|].
    intros r s3 [H3 _]. apply Hcont; [by transitivity s2|by apply (fr_live _ _ H3), (fr_live _ _ H2)|done].
  - eapply runs_seq; [by apply setRoute_runs|]. intros ? s2 H2.
    assert (H12 : frame s s2) by by transitivity s1.
    eapply runs_seq; [apply shardWrite_runs; by rewrite (hle_sets _ _ (fr_heap _ _ H12))|].
    intros r s3 [H3 ->]. apply Hcont; [by transitivity s2|by apply (fr_live _ _ H3), (fr_live _ _ H2)|done].
  - eapply runs_seq; [by apply setRoute_runs|]. intros ? s2 H2.
    assert (H12 : frame s s2) by by transitivity s1. destruct (fr_heap _ _ H12) as [Hw Hs Ht2].
    eapply runs_seq; [apply (shardRead_runs _ st rs); [auto|by rewrite Hs|auto]|].
    intros r s3 [H3 Htgt]. apply Hcont; [by transitivity s2|by apply (fr_live _ _ H3), (fr_live _ _ H2)|done].
Qed.

(** A write of one shard runs its query on the writer of the shard's set. *)
Lemma routedWrite_runs {A} (zero : A) sn qn q ctx key opts run k shard st s Q :
  telemetryOk (telemetry (ms_mesh q)) ->
  shardKeyOf q key = Ok k -> Resolve (ms_mesh q) k = Ok shard ->
  replicaSetsAt (st_heap s) !! rsh_replicaSet shard = Some st ->
  (forall ctx' s1, frame s s1 ->
     runs (run (writeTarget (applyQueryOptions opts) st) ctx') s1
       (fun r s2 => st_spans s2 = st_spans s1 /\ forall s3, frame s2 s3 -> Q r s3)) ->
  runs (routedWrite ErrorType DebugEnabled zero sn qn q ctx key opts run) s Q.
Proof.
  intros Ht Hk Hr Hp Hrun. unfold routedWrite.
  eapply runs_seq; [by apply startLogical_runs|]. intros [ctx1 id] s1 (_ & Hid & H1). cbn [fst snd] in *.
  apply deferred_runs. eapply runs_seq; [by eapply resolveShard_runs|]. intros ? ? [-> ->].
  eapply runs_seq; [apply shardWrite_runs; by rewrite (hle_sets _ _ (fr_heap _ _ H1))|].
  intros r s2 [H2 Hr2]. unfold writeTarget in Hrun. rewrite Hr2.
  assert (Hid2 : spanLive id s2) by by apply (fr_live _ _ H2).
  assert (Hend : forall target mode meta, (forall ctx' s1, frame s s1 -> runs (run (qs_write target) ctx') s1
       (fun r s2 => st_spans s2 = st_spans s1 /\ forall s3, frame s2 s3 -> Q r s3)) ->
    runs (_ ← setRoute id mode 1; '(ctx, physical) ← startPhysical id ctx1 meta mode;
          deferred (endPhysical ErrorType DebugEnabled physical) (run (qs_write target) ctx)) s2
      (fun r s' => runs (endLogical ErrorType DebugEnabled id r.2) s' (fun _ s3 => Q r s3))).
  { intros target mode meta Hrun'. eapply runs_seq; [by apply setRoute_runs|]. intros ? s3 H3.
    assert (Hid3 : spanLive id s3) by by apply (fr_live _ _ H3).
    eapply runs_seq; [by apply startPhysical_runs|]. intros [ctx4 ph] s4 [Hph H4].
    apply finishSpans_runs; [by apply (fr_live _ _ H4)|done|].
    apply Hrun'. transitivity s1; [done|]. transitivity s2; [done|]. by transitivity s3. }
  by destruct (qo_tx (applyQueryOptions opts)) as [tx|]; apply Hend.
Qed.

(** A key that does not resolve: the error is returned and no database is called. *)
Lemma resolveShard_err q key k e s :
  shardKeyOf q key = Ok k -> Resolve (ms_mesh q) k = Err e ->
  runs (resolveShard q key) s (fun r s' => r = inl e /\ s' = s).
Proof. intros Hk Hr. unfold runs, resolveShard. rewrite Hk, Hr. by eexists _, _. Qed.

Lemma routedRead_err {A} (zero : A) sn qn q ctx key opts run k e s :
  telemetryOk (telemetry (ms_mesh q)) -> shardKeyOf q key = Ok k -> Resolve (ms_mesh q) k = Err e ->
  runs (routedRead ErrorType DebugEnabled zero sn qn q ctx key opts run) s
    (fun r s' => r = (zero, Some e) /\ frame s s').
Proof.
  intros Ht Hk Hr. unfold routedRead.
  eapply runs_seq; [by apply startLogical_runs|]. intros [ctx1 id] s1 (_ & Hid & H1). cbn [fst snd] in *.
  apply deferred_runs. eapply runs_seq; [by eapply resolveShard_err|]. intros ? ? [-> ->].
  apply runs_ret. eapply runs_mono; [by apply endLogical_runs|]. intros ? s2 H2.
  split; [done|]. by transitivity s1.
Qed.

(** ** Database calls *)

Lemma onDB_runs {A} (t : task (list (dbCall DBTX)) A) s (Q : A -> list (dbCall DBTX) -> Prop) :
  runs (runTask t) (st_calls s) Q ->
  runs (runTask (onDB t)) s (fun a s' => exists c, s' = setCalls c s /\ Q a c).
Proof.
  intros (a & c & Hm & HQ). exists a, (setCalls c s). split; [|by exists c].
  unfold onDB. rewrite (runTask_zoom st_calls setCalls); [|done|done|by intros []]. unfold zoomM. by rewrite Hm.
Qed.

Lemma bindTask_runs {S' A B} (t : task S' A) (k : A -> task S' B) (x : S') Q :
  runs (runTask t) x (fun a y => runs (runTask (k a)) y Q) -> runs (runTask (t ≫= k)) x Q.
Proof.
  intros (a & y1 & Ht & b & y2 & Hk & HQ). exists b, y2. rewrite runTask_bind.
  by rewrite (stE_bind_Ok _ _ _ _ _ Ht).
Qed.

Lemma dbAnswer_runs {A} (c : dbCall DBTX) (f : list (dbCall DBTX) -> A) calls (Q : A -> _ -> Prop) :
  Q (f calls) (calls ++ [c]) -> runs (runTask (dbAnswer c f)) calls Q.
Proof. intros HQ. by eexists _, _. Qed.

End Lemmas.

(** ** The rows of a COPY are read once each, in order *)

Definition copyRow (x : CopyAccountsParams) : list value :=
  [VInt64 (cap_ID x); VInt64 (cap_TenantID x); VText (cap_DisplayName x)].

Lemma drain_started fuel x rows :
  (length rows < fuel)%nat ->
  drain fuel (IteratorForCopyAccounts (x :: rows) true) = Ok (copyRow <$> rows).
Proof.
  revert x rows. induction fuel as [|fuel IH]; intros x rows Hf; [lia|]. simpl.
  destruct rows as [|y rows]; [done|]. rewrite bool_decide_eq_true_2 by done. simpl.
  simpl in Hf. by rewrite IH by lia.
Qed.

Lemma drain_all rows :
  drain (S (length rows)) (IteratorForCopyAccounts rows false) = Ok (copyRow <$> rows).
Proof.
  destruct rows as [|x rows]; [done|]. cbn [drain iterator_Next it_rows skippedFirstNextCall].
  rewrite drain_started by (simpl; lia). done.
Qed.
