(* ===== verification/StoreRefine.v ===== *)
(** * StoreRefine: a sharded store implements partitioned tables

    The abstract specification of the account queries of one shard is a table
    per replica set, keyed by account id: a query works on the table its shard
    key is routed to, and a write is repeated on the tables of the mirrors.
    [store_refines_tables] shows that a generated store returns what the
    specification returns, for every sequence of operations. What the SQL
    statements mean to the database is the class [AccountsTable]. *)

From S2P Require Import Prelude Errors Hasher Balancer Routing Telemetry CopyBatch Builder Tasks StoreQueries Store StoreOps StoreLemmas.

#[local] Open Scope Z_scope.

(** ** The meaning of the statements *)

(** Scanning an account row, and a row that is not there. *)
Definition isRow (r : row) (a : Account) : Prop :=
  forall d, r [DInt64; DInt64; DText] d = ((ID a, (TenantID a, (DisplayName a, tt))), None).
Definition isCount (r : row) (n : Z) : Prop := forall d, r [DInt64] d = ((n, tt), None).
Definition isNoRows (r : row) : Prop := forall ts d, (r ts d).2 = Some (StdError SqlErrNoRows).

Abbreviation accountTable := (gmap Z Account).

(** The account of a tenant with an id. *)
Definition findAccount (t : accountTable) (tenantID id : Z) : option Account :=
  a ← t !! id; if bool_decide (TenantID a = tenantID) then Some a else None.

Definition countTenant (t : accountTable) (tenantID : Z) : Z :=
  Z.of_nat (size (filter (fun x : Z * Account => TenantID x.2 = tenantID) t)).

Definition upsertArgs (a : Account) : list value :=
  [VInt64 (ID a); VInt64 (TenantID a); VText (DisplayName a)].
Definition updateArgs (a : Account) : list value :=
  [VInt64 (TenantID a); VInt64 (ID a); VText (DisplayName a)].

(** [table calls db] is the content of the accounts table of [db] after the
    calls. Handles are of different databases; [id] is the primary key. *)
Class AccountsTable (DBTX : Type) `{!Driver DBTX} := {
  table : list (dbCall DBTX) -> DBTX -> accountTable;
  table_other calls c db : callDB c <> db -> table (calls ++ [c]) db = table calls db;
  table_upsert calls ctx db a :
    isRow (drv_QueryRow calls ctx db upsertAccount (upsertArgs a)) a /\
    table (calls ++ [CallQueryRow db upsertAccount (upsertArgs a)]) db = <[ID a := a]> (table calls db);
  table_update calls ctx db a :
    let r := drv_QueryRow calls ctx db updateAccountName (updateArgs a) in
    let t' := table (calls ++ [CallQueryRow db updateAccountName (updateArgs a)]) db in
    match findAccount (table calls db) (TenantID a) (ID a) with
    | Some _ => isRow r a /\ t' = <[ID a := a]> (table calls db)
    | None => isNoRows r /\ t' = table calls db
    end;
  table_get calls ctx db tenantID id :
    let args := [VInt64 tenantID; VInt64 id] in
    let r := drv_QueryRow calls ctx db getAccount args in
    table (calls ++ [CallQueryRow db getAccount args]) db = table calls db /\
    match findAccount (table calls db) tenantID id with
    | Some a => isRow r a
    | None => isNoRows r
    end;
  table_count calls ctx db tenantID :
    let r := drv_QueryRow calls ctx db countAccounts [VInt64 tenantID] in
    table (calls ++ [CallQueryRow db countAccounts [VInt64 tenantID]]) db = table calls db /\
    isCount r (countTenant (table calls db) tenantID);
}.

(** ** The specification *)

Abbreviation tables := (gmap string (gmap Z Account)).

Inductive storeOp :=
  | OpUpsert (arg : UpsertAccountT)
  | OpUpdate (arg : UpdateAccountNameT)
  | OpGet (arg : GetAccountT)
  | OpCount (arg : CountAccountsT).

Inductive opResult :=
  | RAccount (a : option Account) (err : option error)
  | RCount (n : Z) (err : option error).

Definition upsertIn (a : Account) (T : tables) (n : string) : tables :=
  <[n := <[ID a := a]> (T !!! n)]> T.
Definition updateIn (a : Account) (T : tables) (n : string) : tables :=
  match findAccount (T !!! n) (TenantID a) (ID a) with
  | Some _ => <[n := <[ID a := a]> (T !!! n)]> T
  | None => T
  end.

Definition upserted (arg : UpsertAccountT) : Account :=
  MkAccount (ust_ID arg) (tk_TenantID (ust_TenantKey arg)) (ust_DisplayName arg).
Definition updated (arg : UpdateAccountNameT) : Account :=
  MkAccount (uat_ID arg) (tk_TenantID (uat_TenantKey arg)) (uat_DisplayName arg).

Section Spec.
Context (route : TenantKey -> string) (mirrors : string -> list string).

Definition specOp (T : tables) (op : storeOp) : opResult * tables :=
  match op with
  | OpUpsert arg =>
      let n := route (ust_TenantKey arg) in
      (RAccount (Some (upserted arg)) None, foldl (upsertIn (upserted arg)) T (n :: mirrors n))
  | OpUpdate arg =>
      let n := route (uat_TenantKey arg) in
      let a := updated arg in
      match findAccount (T !!! n) (TenantID a) (ID a) with
      | Some _ => (RAccount (Some a) None, foldl (updateIn a) T (n :: mirrors n))
      | None => (RAccount None (Some (StdError SqlErrNoRows)), T)
      end
  | OpGet arg =>
      let k := gat_TenantKey arg in
      match findAccount (T !!! route k) (tk_TenantID k) (gat_ID arg) with
      | Some a => (RAccount (Some a) None, T)
      | None => (RAccount None (Some (StdError SqlErrNoRows)), T)
      end
  | OpCount arg =>
      let k := cnt_TenantKey arg in
      (RCount (countTenant (T !!! route k) (tk_TenantID k)) None, T)
  end.

Fixpoint specOps (T : tables) (ops : list storeOp) : list opResult * tables :=
  match ops with
  | [] => ([], T)
  | op :: ops =>
      let '(r, T) := specOp T op in
      let '(rs, T) := specOps T ops in
      (r :: rs, T)
  end.

End Spec.

(** ** Running operations on a store *)

Section Refine.
Context {DBTX : Type} `{!Driver DBTX} `{!AccountsTable DBTX} {RT : Runtime}.
Context {K Tracer Instrument Logger : Type}.
Context (ErrorType : error -> KeyValue) (DebugEnabled : Logger -> bool).

#[local] Abbreviation stateT := (storeState DBTX Tracer Instrument Logger).
#[local] Abbreviation storeM := (stE stateT error).
#[local] Abbreviation storeT := (meshStore DBTX K Tracer Instrument Logger).
Implicit Types (q : storeT) (s : stateT).

Definition execOp q (ctx : Context) (op : storeOp) : storeM opResult :=
  match op with
  | OpUpsert arg =>
      '(a, err) ← UpsertAccount ErrorType DebugEnabled q ctx (Some arg) []; mret (RAccount a err)
  | OpUpdate arg =>
      '(a, err) ← UpdateAccountName ErrorType DebugEnabled q ctx (Some arg) []; mret (RAccount a err)
  | OpGet arg =>
      '(a, err) ← GetAccount ErrorType DebugEnabled q ctx (Some arg) [ReadFromPrimary];
      mret (RAccount a err)
  | OpCount arg =>
      '(n, err) ← CountAccounts ErrorType DebugEnabled q ctx (Some arg) [ReadFromPrimary];
      mret (RCount n err)
  end.

Fixpoint execOps q (ctx : Context) (ops : list storeOp) : storeM (list opResult) :=
  match ops with
  | [] => mret []
  | op :: ops => r ← execOp q ctx op; rs ← execOps q ctx ops; mret (r :: rs)
  end.

Context (names : list string) (primaryDB : string -> DBTX).
Context (route : TenantKey -> string) (mirrors : string -> list string).

(** A key for which the resolver returns. *)
Definition resolved q (key : TenantKey) : Prop := is_Ok (shardKeyOf q (Some key)) = true.

(** The store routes every key that resolves to the set [route] names, which has
    the primary database [primaryDB] gives it and writes to the primaries of its
    mirrors. *)
Record serves q s : Prop := {
  srv_telemetry : telemetryOk (telemetry (ms_mesh q));
  srv_heap : heap_wf (st_heap s);
  srv_route key k : shardKeyOf q (Some key) = Ok k -> route key ∈ names /\ mirrors (route key) ⊆ names /\
    exists shard st rs, Resolve (ms_mesh q) k = Ok shard /\
      replicaSetsAt (st_heap s) !! rsh_replicaSet shard = Some st /\ set_wf (st_heap s) st rs /\
      primary st = newStoreNode (primaryDB (route key)) /\
      writeMirrors st = Writer ∘ newStoreNode ∘ primaryDB <$> mirrors (route key);
}.

Lemma serves_frame q s s' : serves q s -> frame s s' -> serves q s'.
Proof.
  intros [Ht Hh Hr] [[Hw Hs Hset] _ _ _ _]. split; [done|auto|]. intros key k Hk.
  destruct (Hr key k Hk) as (Hin & Hm & shard & st & rs & ? & Hp & Hst & ? & ?).
  split_and!; [done..|]. exists shard, st, rs. rewrite Hs. by split_and!; auto.
Qed.

Lemma resolved_key q key : resolved q key -> exists k, shardKeyOf q (Some key) = Ok k.
Proof. unfold resolved. destruct (shardKeyOf q (Some key)) as [k| |]; [by exists k|done..]. Qed.

Lemma serves_setCalls q s c : serves q s -> serves q (setCalls c s).
Proof. by intros [Ht Hh Hr]. Qed.

Context (Hdistinct : forall n m, n ∈ names -> m ∈ names -> primaryDB n = primaryDB m -> n = m).

(** The databases hold the specification's tables. *)
Definition holds (calls : list (dbCall DBTX)) (T : tables) : Prop :=
  forall n, n ∈ names -> table calls (primaryDB n) = T !!! n.

Lemma holds_call calls c T n t :
  holds calls T -> n ∈ names -> callDB c = primaryDB n -> table (calls ++ [c]) (primaryDB n) = t ->
  holds (calls ++ [c]) (<[n := t]> T).
Proof.
  intros HT Hn Hc Ht m Hm. destruct (decide (n = m)) as [<-|Hne].
  - by rewrite lookup_total_insert_eq.
  - rewrite lookup_total_insert_ne by done. rewrite table_other; [by apply HT|].
    rewrite Hc. intros E. by apply Hne, Hdistinct.
Qed.

Lemma holds_read calls c T n :
  holds calls T -> n ∈ names -> callDB c = primaryDB n ->
  table (calls ++ [c]) (primaryDB n) = table calls (primaryDB n) -> holds (calls ++ [c]) T.
Proof.
  intros HT Hn Hc Ht m Hm. destruct (decide (n = m)) as [<-|Hne].
  - by rewrite Ht, HT.
  - rewrite table_other; [by apply HT|]. rewrite Hc. intros E. by apply Hne, Hdistinct.
Qed.

Lemma scanAccount_row r a : isRow r a -> scanAccount r = (a, None).
Proof. intros H. unfold scanAccount. rewrite H. by destruct a. Qed.

Lemma scanAccount_noRows r : isNoRows r -> exists a, scanAccount r = (a, Some (StdError SqlErrNoRows)).
Proof.
  intros H. unfold scanAccount.
  specialize (H [DInt64; DInt64; DText] (0, (0, (EmptyString, tt)))).
  destruct (r _ _) as [[id [t [n []]]] err]. simpl in H. rewrite H. by eexists.
Qed.

(** *** Queries on the database of a set *)

#[local] Abbreviation dbOf n := (New (primaryDB n)).

Lemma upsert_runs calls ctx T n arg :
  holds calls T -> n ∈ names ->
  runs (runTask (Queries_UpsertAccount (dbOf n) ctx (UpsertAccountT_sqlcParams arg))) calls
    (fun r c => r = (Some (upserted arg), None) /\ holds c (upsertIn (upserted arg) T n)).
Proof.
  intros HT Hn. apply bindTask_runs, dbAnswer_runs.
  destruct (table_upsert calls ctx (primaryDB n) (upserted arg)) as [Hr Ht].
  cbn [db dbOf New]. change [VInt64 _; VInt64 _; VText _] with (upsertArgs (upserted arg)).
  rewrite (scanAccount_row _ _ Hr). apply runs_ret. split; [done|].
  apply holds_call; [done..|]. by rewrite Ht, HT.
Qed.

Lemma update_runs calls ctx T n arg :
  let a := updated arg in
  holds calls T -> n ∈ names ->
  runs (runTask (Queries_UpdateAccountName (dbOf n) ctx (UpdateAccountNameT_sqlcParams arg))) calls
    (fun r c => holds c (updateIn a T n) /\
       match findAccount (T !!! n) (TenantID a) (ID a) with
       | Some _ => r = (Some a, None)
       | None => r.2 = Some (StdError SqlErrNoRows)
       end).
Proof.
  intros a HT Hn. apply bindTask_runs, dbAnswer_runs. unfold updateIn.
  pose proof (table_update calls ctx (primaryDB n) a) as Hu. cbv zeta in Hu. rewrite (HT n Hn) in Hu.
  cbn [db dbOf New]. change [VInt64 _; VInt64 _; VText _] with (updateArgs a).
  destruct (findAccount (T !!! n) (TenantID a) (ID a)) as [x|]; destruct Hu as [Hr Ht].
  - rewrite (scanAccount_row _ _ Hr). apply runs_ret. split; [|done]. by apply holds_call.
  - destruct (scanAccount_noRows _ Hr) as [x ->]. apply runs_ret. split; [|done].
    by apply (holds_read _ _ _ n); [..|rewrite Ht, HT].
Qed.

(** The mirrors of a write, for a query that at worst finds no row. *)
Lemma mirror_runs (fn : Queries DBTX -> task (list (dbCall DBTX)) (option error))
    (step : tables -> string -> tables) ms calls T :
  ms ⊆ names -> holds calls T ->
  (forall calls T n, holds calls T -> n ∈ names ->
     runs (runTask (fn (dbOf n))) calls (fun err c => holds c (step T n) /\
       (err = None \/ err = Some (StdError SqlErrNoRows)))) ->
  runs (runTask (mirrorLoop ((fun n => dbOf n) <$> ms) fn)) calls
    (fun err c => err = None /\ holds c (foldl step T ms)).
Proof.
  intros Hms HT Hfn. revert calls T HT. induction ms as [|n ms IH]; intros calls T HT; cbn.
  { by apply runs_ret. }
  apply bindTask_runs. eapply runs_mono; [apply Hfn; [done|set_solver]|].
  intros err c [Hc Herr]. destruct Herr as [-> | ->]; cbn; (apply IH; [set_solver|done]).
Qed.

(** The writer of a set is its primary with the primaries of its mirrors. *)
Lemma writeTarget_mirrors (st : ReplicaSet (readQueries DBTX) (queryStore DBTX)) n ms opts :
  primary st = newStoreNode (primaryDB n) ->
  writeMirrors st = Writer ∘ newStoreNode ∘ primaryDB <$> ms -> qo_tx opts = None ->
  writeTarget opts st = MkWriteQueries (dbOf n) ((fun m => dbOf m) <$> ms).
Proof.
  intros Hp Hw Htx. rewrite (writeTarget_databases st (primaryDB n) (primaryDB <$> ms)); [|done| |done].
  - by rewrite <- list_fmap_compose.
  - by rewrite Hw, <- list_fmap_compose.
Qed.

Lemma upsertMirrored_runs calls ctx T n ms arg :
  holds calls T -> n ∈ names -> ms ⊆ names ->
  runs (runTask (writeQueries_UpsertAccount (MkWriteQueries (dbOf n) ((fun m => dbOf m) <$> ms)) ctx
      (UpsertAccountT_sqlcParams arg))) calls
    (fun r c => r = (Some (upserted arg), None) /\ holds c (foldl (upsertIn (upserted arg)) T (n :: ms))).
Proof.
  intros HT Hn Hms. apply bindTask_runs. eapply runs_mono; [by apply upsert_runs|].
  intros ? c1 [-> H1]. apply bindTask_runs. eapply runs_mono; [apply (mirror_runs _ (upsertIn (upserted arg)) _ _ _ Hms H1)|].
  - intros calls' T' m HT' Hm. apply bindTask_runs. eapply runs_mono; [by apply upsert_runs|].
    intros ? c [-> ?]. apply runs_ret. by split; [|left].
  - intros ? c [-> Hc]. by apply runs_ret.
Qed.

Lemma updateMirrored_runs calls ctx T n ms arg :
  let a := updated arg in
  holds calls T -> n ∈ names -> ms ⊆ names ->
  runs (runTask (writeQueries_UpdateAccountName (MkWriteQueries (dbOf n) ((fun m => dbOf m) <$> ms)) ctx
      (UpdateAccountNameT_sqlcParams arg))) calls
    (fun r c => match findAccount (T !!! n) (TenantID a) (ID a) with
       | Some _ => r = (Some a, None) /\ holds c (foldl (updateIn a) T (n :: ms))
       | None => r = (None, Some (StdError SqlErrNoRows)) /\ holds c T
       end).
Proof.
  intros a HT Hn Hms. apply bindTask_runs. eapply runs_mono; [by apply update_runs|].
  intros [rv0 err] c1 [H1 Hr]. fold a in H1, Hr. cbn [foldl]. pose proof (eq_refl (updateIn a T n)) as Hu.
  unfold updateIn at 1 in Hu.
  destruct (findAccount (T !!! n) (TenantID a) (ID a)) as [x|].
  - injection Hr as -> ->. apply bindTask_runs. eapply runs_mono.
    + apply (mirror_runs _ (updateIn a) _ _ _ Hms H1).
      intros calls' T' m HT' Hm. apply bindTask_runs. eapply runs_mono; [by apply update_runs|].
      intros [v e] c [? Hv]. apply runs_ret. split; [done|].
      destruct (findAccount _ _ _); [injection Hv as _ ->; by left|by right].
    + intros ? c [-> Hc]. by apply runs_ret.
  - cbn in Hr. subst err. apply runs_ret. split; [done|]. by rewrite <- Hu in H1.
Qed.

Lemma getAccount_runs calls ctx T n arg :
  let k := gat_TenantKey arg in
  holds calls T -> n ∈ names ->
  runs (runTask (readQueries_GetAccount (newReadQueries (dbOf n)) ctx (GetAccountT_sqlcParams arg))) calls
    (fun r c => holds c T /\
       r = match findAccount (T !!! n) (tk_TenantID k) (gat_ID arg) with
           | Some a => (Some a, None)
           | None => (None, Some (StdError SqlErrNoRows))
           end).
Proof.
  intros k HT Hn. apply bindTask_runs, bindTask_runs, dbAnswer_runs.
  destruct (table_get calls ctx (primaryDB n) (tk_TenantID k) (gat_ID arg)) as [Ht Hr].
  rewrite (HT n Hn) in Hr. pose proof (holds_read _ (CallQueryRow (primaryDB n) _ _) _ n HT Hn eq_refl Ht) as Hh.
  cbn [db rq_main newReadQueries dbOf New].
  change [VInt64 _; VInt64 _] with [VInt64 (tk_TenantID k); VInt64 (gat_ID arg)].
  destruct (findAccount (T !!! n) (tk_TenantID k) (gat_ID arg)) as [a|].
  - rewrite (scanAccount_row _ _ Hr). by apply runs_ret, runs_ret.
  - destruct (scanAccount_noRows _ Hr) as [x ->]. by apply runs_ret, runs_ret.
Qed.

Lemma countAccounts_runs calls ctx T n t :
  holds calls T -> n ∈ names ->
  runs (runTask (readQueries_CountAccounts (newReadQueries (dbOf n)) ctx t)) calls
    (fun r c => holds c T /\ r = (countTenant (T !!! n) t, None)).
Proof.
  intros HT Hn. apply bindTask_runs, bindTask_runs, dbAnswer_runs.
  destruct (table_count calls ctx (primaryDB n) t) as [Ht Hr]. rewrite (HT n Hn) in Hr.
  pose proof (holds_read _ (CallQueryRow (primaryDB n) _ _) _ n HT Hn eq_refl Ht) as Hh.
  cbn [db rq_main newReadQueries dbOf New].
  unfold scanCount. rewrite Hr. by apply runs_ret, runs_ret.
Qed.

(** *** Operations *)

(** A query that leaves everything but the calls alone, inside its route. *)
Lemma inRoute_runs {A} (t : task (list (dbCall DBTX)) A) q s s1 (Q : A -> tables -> Prop) :
  serves q s -> frame s s1 ->
  runs (runTask t) (st_calls s1) (fun r c => exists T, holds c T /\ Q r T) ->
  runs (runTask (onDB t)) s1 (fun r s2 => st_spans s2 = st_spans s1 /\
    forall s3, frame s2 s3 -> serves q s3 /\ exists T, holds (st_calls s3) T /\ Q r T).
Proof using.
  intros Hs H1 Ht. eapply runs_mono; [by apply onDB_runs|]. intros r s2 (c & -> & T & Hc & HQ).
  split; [done|]. intros s3 H3. split.
  - eapply serves_frame; [apply serves_setCalls; by eapply serves_frame|done].
  - exists T. by rewrite (fr_calls _ _ H3).
Qed.

(** A routed write, and a routed read from the primary, by what their query does
    to the databases of the key's set. *)
Lemma routedWrite_refines {A} (zero : A) sn qn q ctx key run s T (Q : A * option error -> tables -> Prop) :
  serves q s -> resolved q key -> holds (st_calls s) T ->
  (forall ctx' calls, holds calls T ->
     runs (runTask (run (MkWriteQueries (dbOf (route key)) ((fun m => dbOf m) <$> mirrors (route key))) ctx'))
       calls (fun r c => exists T', holds c T' /\ Q r T')) ->
  runs (routedWrite ErrorType DebugEnabled zero sn qn q ctx (Some key) []
          (fun target ctx => runTask (onDB (run target ctx)))) s
    (fun r s' => serves q s' /\ exists T', holds (st_calls s') T' /\ Q r T').
Proof using.
  intros Hs [k Hk]%resolved_key HT Hrun. destruct (srv_route _ _ Hs key k Hk)
    as (_ & _ & shard & st & rs & Hr & Hp & Hset & Hpr & Hmi).
  eapply routedWrite_runs; [apply Hs|done..|]. intros ctx' s1 H1.
  rewrite (writeTarget_mirrors st _ _ _ Hpr Hmi) by done.
  apply (inRoute_runs _ q s s1); [done..|]. apply Hrun. by rewrite (fr_calls _ _ H1).
Qed.

Lemma routedRead_refines {A} (zero : A) sn qn q ctx key run s T (Q : A * option error -> tables -> Prop) :
  serves q s -> resolved q key -> holds (st_calls s) T ->
  (forall ctx' calls, holds calls T -> runs (runTask (run (newReadQueries (dbOf (route key))) ctx')) calls
     (fun r c => exists T', holds c T' /\ Q r T')) ->
  runs (routedRead ErrorType DebugEnabled zero sn qn q ctx (Some key) [ReadFromPrimary]
          (fun target ctx => runTask (onDB (run target ctx)))) s
    (fun r s' => serves q s' /\ exists T', holds (st_calls s') T' /\ Q r T').
Proof using.
  intros Hs [k Hk]%resolved_key HT Hrun. destruct (srv_route _ _ Hs key k Hk)
    as (_ & _ & shard & st & rs & Hr & Hp & Hset & Hpr & Hmi).
  eapply routedRead_runs; [apply Hs|apply Hs|done..|]. intros target ctx' s1 H1 Htgt. cbn in Htgt.
  subst target. rewrite Hpr. apply (inRoute_runs _ q s s1); [done..|]. apply Hrun.
  by rewrite (fr_calls _ _ H1).
Qed.

(** The result and tables of a specified operation. *)
Definition meets (T : tables) (op : storeOp) (r : opResult) (T' : tables) : Prop :=
  (r, T') = specOp route mirrors T op.

Lemma runs_result {A} (m : storeM (A * option error)) (mk : A -> option error -> opResult) s
    (Q : opResult -> stateT -> Prop) :
  runs m s (fun r s' => Q (mk r.1 r.2) s') -> runs ('(a, err) ← m; mret (mk a err)) s Q.
Proof using. intros Hm. eapply runs_seq; [exact Hm|]. intros [a e] s' H. by apply runs_ret. Qed.

(** The key an operation is routed by. *)
Definition opKey (op : storeOp) : TenantKey :=
  match op with
  | OpUpsert arg => ust_TenantKey arg
  | OpUpdate arg => uat_TenantKey arg
  | OpGet arg => gat_TenantKey arg
  | OpCount arg => cnt_TenantKey arg
  end.

Lemma execOp_refines q ctx s T op :
  serves q s -> resolved q (opKey op) -> holds (st_calls s) T ->
  runs (execOp q ctx op) s (fun r s' => serves q s' /\
    exists T', holds (st_calls s') T' /\ meets T op r T').
Proof.
  intros Hs Hres HT. destruct (resolved_key _ _ Hres) as [k Hk].
  destruct (srv_route _ _ Hs (opKey op) k Hk) as (Hn & Hm & _).
  destruct op as [arg|arg|arg|arg]; [apply (runs_result _ RAccount)..|apply (runs_result _ RCount)].
  - eapply (routedWrite_refines _ _ _ _ _ (ust_TenantKey arg) (fun t c => writeQueries_UpsertAccount t c _)
      _ T (fun r => meets T (OpUpsert arg) (RAccount r.1 r.2))); [done..|]. intros ctx' calls Hc.
    eapply runs_mono; [by apply upsertMirrored_runs|]. intros r c [-> Hc']. by eexists.
  - eapply (routedWrite_refines _ _ _ _ _ (uat_TenantKey arg) (fun t c => writeQueries_UpdateAccountName t c _)
      _ T (fun r => meets T (OpUpdate arg) (RAccount r.1 r.2))); [done..|]. intros ctx' calls Hc.
    eapply runs_mono; [by apply updateMirrored_runs|]. intros r c Hc'. unfold meets. cbn [specOp].
    destruct (findAccount _ _ _); destruct Hc' as [-> Hc']; by eexists.
  - eapply (routedRead_refines _ _ _ _ _ (gat_TenantKey arg) (fun t c => readQueries_GetAccount t c _)
      _ T (fun r => meets T (OpGet arg) (RAccount r.1 r.2))); [done..|]. intros ctx' calls Hc.
    eapply runs_mono; [by apply (getAccount_runs _ _ T (route (gat_TenantKey arg)))|].
    intros r c [Hc' ->]. exists T. split; [done|]. unfold meets. cbn [specOp]. by destruct (findAccount _ _ _).
  - eapply (routedRead_refines _ _ _ _ _ (cnt_TenantKey arg) (fun t c => readQueries_CountAccounts t c _)
      _ T (fun r => meets T (OpCount arg) (RCount r.1 r.2))); [done..|]. intros ctx' calls Hc.
    eapply runs_mono; [by apply (countAccounts_runs _ _ T (route (cnt_TenantKey arg)))|].
    intros r c [Hc' ->]. by exists T.
Qed.

Lemma execOps_refines q ctx s T ops :
  serves q s -> Forall (fun op => resolved q (opKey op)) ops -> holds (st_calls s) T ->
  runs (execOps q ctx ops) s (fun rs s' => serves q s' /\
    rs = (specOps route mirrors T ops).1 /\ holds (st_calls s') (specOps route mirrors T ops).2).
Proof.
  intros Hs Hres. revert s T Hs. induction Hres as [|op ops Hop _ IH]; intros s T Hs HT; cbn [execOps specOps].
  { by apply runs_ret. }
  eapply runs_seq; [by apply execOp_refines|]. intros r s1 (Hs1 & T1 & HT1 & Hm). rewrite <- Hm.
  eapply runs_seq; [by apply (IH s1 T1)|]. intros rs s2 (Hs2 & -> & HT2).
  destruct (specOps route mirrors T1 ops) as [rs2 T2]. by apply runs_ret.
Qed.

End Refine.
