(* ===== verification/MemoryDriver.v ===== *)
(** * MemoryDriver: databases in memory

    A driver that answers the account statements from the calls made before,
    one table per handle. It satisfies [AccountsTable], so the hypotheses about
    databases can hold, and it makes the store operations executable on
    concrete inputs. *)

From S2P Require Import Prelude Errors Telemetry Tasks StoreQueries StoreRefine.

#[local] Open Scope Z_scope.

(** ** Rows *)

Definition accountRow (a : Account) : row := fun ts =>
  match ts return dests ts -> dests ts * option error with
  | [DInt64; DInt64; DText] => fun _ => ((ID a, (TenantID a, (DisplayName a, tt))), None)
  | _ => fun d => (d, Some (ErrorText "scan"))
  end.
Definition countRow (n : Z) : row := fun ts =>
  match ts return dests ts -> dests ts * option error with
  | [DInt64] => fun _ => ((n, tt), None)
  | _ => fun d => (d, Some (ErrorText "scan"))
  end.
Definition noRow : row := fun ts d => (d, Some (StdError SqlErrNoRows)).

(** ** Statements *)

Inductive statement := SUpsert | SUpdate | SGet | SCount | SList | SListAll | SOther.

Definition statementOf (sql : string) : statement :=
  if bool_decide (sql = upsertAccount) then SUpsert
  else if bool_decide (sql = updateAccountName) then SUpdate
  else if bool_decide (sql = getAccount) then SGet
  else if bool_decide (sql = countAccounts) then SCount
  else if bool_decide (sql = listAccountsByIDs) then SList
  else if bool_decide (sql = listAllAccounts) then SListAll
  else SOther.

(** The effect of a statement on the table it runs on, and its row. *)
Definition runStatement (t : accountTable) (sql : string) (args : list value) : accountTable * row :=
  match statementOf sql, args with
  | SUpsert, [VInt64 id; VInt64 tenantID; VText name] =>
      let a := MkAccount id tenantID name in (<[id := a]> t, accountRow a)
  | SUpdate, [VInt64 tenantID; VInt64 id; VText name] =>
      match findAccount t tenantID id with
      | Some _ => let a := MkAccount id tenantID name in (<[id := a]> t, accountRow a)
      | None => (t, noRow)
      end
  | SGet, [VInt64 tenantID; VInt64 id] =>
      (t, match findAccount t tenantID id with Some a => accountRow a | None => noRow end)
  | SCount, [VInt64 tenantID] => (t, countRow (countTenant t tenantID))
  | _, _ => (t, noRow)
  end.

Definition copyValues (t : accountTable) (v : list value) : accountTable :=
  match v with
  | [VInt64 id; VInt64 tenantID; VText name] => <[id := MkAccount id tenantID name]> t
  | _ => t
  end.

Definition applyCall (db : nat) (t : accountTable) (c : dbCall nat) : accountTable :=
  if bool_decide (callDB c = db) then
    match c with
    | CallQueryRow _ sql args => (runStatement t sql args).1
    | CallQuery _ _ _ => t
    | CallCopyFrom _ _ _ rows => foldl copyValues t rows
    end
  else t.

Definition memoryTable (calls : list (dbCall nat)) (db : nat) : accountTable :=
  foldl (applyCall db) ∅ calls.

(** The accounts of a table with the given keys, or all, ordered by id. *)
Definition idLe (a b : Account) : Prop := ID a <= ID b.
#[export] Instance idLe_dec : RelDecision idLe.
Proof. intros a b. unfold idLe. apply _. Defined.
Definition byID (t : accountTable) : list Account := merge_sort idLe (map_to_list t).*2.

#[export] Instance memoryDriver : Driver nat := {|
  drv_QueryRow calls _ db sql args := (runStatement (memoryTable calls db) sql args).2;
  drv_Query calls _ db sql args :=
    match statementOf sql, args with
    | SList, [VInt64Array ids] =>
        inr (PgxRows (accountRow <$> filter (fun a => ID a ∈ ids) (byID (memoryTable calls db))) None)
    | SListAll, [] => inr (PgxRows (accountRow <$> byID (memoryTable calls db)) None)
    | _, _ => inl (ErrorText "statement")
    end;
  drv_CopyFrom calls _ db _ _ rows := (Z.of_nat (length rows), None);
|}.

Lemma memoryTable_snoc calls c db :
  memoryTable (calls ++ [c]) db = applyCall db (memoryTable calls db) c.
Proof. unfold memoryTable. by rewrite foldl_app. Qed.

Lemma applyCall_same db t sql args :
  applyCall db t (CallQueryRow db sql args) = (runStatement t sql args).1.
Proof. unfold applyCall. cbn [callDB]. by rewrite bool_decide_eq_true_2. Qed.

#[export] Instance memoryAccounts : AccountsTable nat.
Proof.
  refine {| table := memoryTable |}.
  - intros calls c db Hne. rewrite memoryTable_snoc. unfold applyCall. by rewrite bool_decide_eq_false_2.
  - intros calls ctx db [id t n]. rewrite memoryTable_snoc, applyCall_same. split; [|done]. by intros d.
  - intros calls ctx db [id t n] r t'. unfold r, t'. rewrite memoryTable_snoc, applyCall_same.
    cbn [drv_QueryRow memoryDriver]. unfold runStatement.
    change (statementOf updateAccountName) with SUpdate. cbn [updateArgs ID TenantID DisplayName].
    destruct (findAccount (memoryTable calls db) t id); split; try done; by intros d.
  - intros calls ctx db t id args r. unfold r. rewrite memoryTable_snoc, applyCall_same. split; [done|].
    cbn [drv_QueryRow memoryDriver]. unfold runStatement, args.
    change (statementOf getAccount) with SGet.
    cbn [snd]. destruct (findAccount (memoryTable calls db) t id); by intros d.
  - intros calls ctx db t r. unfold r. rewrite memoryTable_snoc, applyCall_same. split; [done|]. by intros d.
Defined.
