(* ===== verification/StoreOpen.v ===== *)
(** * StoreOpen: what opening a sharded store gives

    [sharded_buildStore] turns a topology into a mesh configuration, opens it
    and prepares the copy batchers. The lemmas below say which configuration
    that is and that its node opener finds every database; the theorem composes
    [OpenMesh], the batchers and [StoreRefine]. *)

From stdpp Require Import pretty.
From S2P Require Import Prelude Errors GoStrings Hasher Balancer Routing Telemetry CopyBatch Builder Topology OpenMesh Tasks StoreQueries Store StoreOps StoreAsync StoreBuild StoreLemmas StoreRefine MemoryDriver.

#[local] Open Scope Z_scope.

(** ** The internal DSNs are distinct *)

Definition slash : Ascii.ascii := Ascii.ascii_of_nat 47.

Lemma prettyDigits_noSlash x s : hasByte slash s = false -> hasByte slash (pretty_N_go x s) = false.
Proof.
  revert s. induction (N.lt_wf_0 x) as [x _ IH]. intros s Hs.
  destruct (decide (0 < x)%N) as [Hx|Hx].
  - rewrite pretty_N_go_step by done. apply IH; [by apply N.div_lt|].
    cbn [hasByte]. rewrite Hs, orb_false_r. unfold pretty_N_char. repeat case_match; reflexivity.
  - assert (x = 0%N) as -> by lia. by rewrite pretty_N_go_0.
Qed.

Lemma Itoa_noSlash n : hasByte slash (Itoa n) = false.
Proof.
  unfold Itoa, pretty, pretty_nat, pretty, pretty_N. case_decide; [done|]. by apply prettyDigits_noSlash.
Qed.

(** A database of a topology by position: the primary of a set or a replica. *)
Definition dsnAt (pos : nat * option nat) : string :=
  match pos with
  | (i, None) => primaryDSNOf i
  | (i, Some j) => replicaDSNOf i j
  end.

#[export] Instance dsnAt_inj : Inj (=) (=) dsnAt.
Proof.
  assert (Hpre : forall s t, "pgmesh-internal://" +:+ s = "pgmesh-internal://" +:+ t -> s = t).
  { intros s t H. by simplify_eq/=. }
  assert (Hsep : forall i i' t t', Itoa i +:+ String slash t = Itoa i' +:+ String slash t' -> i = i' /\ t = t').
  { intros i i' t t' H. apply app_sep_inj in H as [H ->]; [|apply Itoa_noSlash..].
    split; [|done]. by apply (inj pretty) in H. }
  intros [i [j|]] [i' [j'|]] H; apply Hpre, Hsep in H as [-> H]; by simplify_eq/=.
Qed.

(** ** The configuration of a topology *)

Section Config.
Context {DBTX : Type} {Tracer Instrument Logger : Type}.
#[local] Abbreviation setT := (shardDatabase (DBTX := DBTX)).
#[local] Abbreviation optT := (OpenMeshOption (Tracer := Tracer) (Instrument := Instrument) (Logger := Logger)).
Implicit Types (sets : list setT) (nodes : gmap string (option DBTX)).

(** The databases of a set by position. *)
Definition setNodes (i : nat) (set : setT) : list (nat * option nat * option DBTX) :=
  (i, None, sd_primary set) :: imap (fun j d => (i, Some j, d)) (sd_replicas set).

Definition setSpec (i : nat) (set : setT) : replicaSetSpec :=
  ReplicaSetSpec (sd_name set) (primaryDSNOf i) (imap (fun j _ => replicaDSNOf i j) (sd_replicas set)).

Definition putNode nodes (x : nat * option nat * option DBTX) : gmap string (option DBTX) :=
  <[dsnAt x.1 := x.2]> nodes.

Lemma addReplicas_fold i (f : nat -> nat) (dbs : list (option DBTX)) nodes dsns :
  foldl (fun '(nodes, dsns) '(j, d) => let dsn := replicaDSNOf i j in (<[dsn := d]> nodes, dsns ++ [dsn]))
    (nodes, dsns) (imap (fun j d => (f j, d)) dbs) =
  (foldl putNode nodes (imap (fun j d => (i, Some (f j), d)) dbs),
   dsns ++ imap (fun j _ => replicaDSNOf i (f j)) dbs).
Proof.
  revert f nodes dsns. induction dbs as [|d dbs IH]; intros f nodes dsns; [by rewrite app_nil_r|].
  rewrite !imap_cons. cbn [foldl]. etrans; [apply (IH (f ∘ S))|]. by rewrite <- app_assoc.
Qed.

Lemma addSet_eq nodes (opts : list (option optT)) i set :
  addSet (nodes, opts) (i, set) =
  (foldl putNode nodes (setNodes i set),
   opts ++ [Some (Topology.WithReplicaSet (sd_name set) (primaryDSNOf i) (replicaDSNs (setSpec i set)))]).
Proof.
  unfold addSet. rewrite (addReplicas_fold i id (sd_replicas set)). done.
Qed.

Lemma addSets_fold (f : nat -> nat) sets nodes (opts : list (option optT)) :
  foldl addSet (nodes, opts) (imap (fun i x => (f i, x)) sets) =
  (foldl putNode nodes (concat (imap (fun i => setNodes (f i)) sets)),
   opts ++ imap (fun i set => Some (Topology.WithReplicaSet (sd_name set) (primaryDSNOf (f i))
     (replicaDSNs (setSpec (f i) set)))) sets).
Proof.
  revert f nodes opts. induction sets as [|x sets IH]; intros f nodes opts; [by rewrite app_nil_r|].
  rewrite !imap_cons. cbn [foldl concat]. rewrite addSet_eq, foldl_app.
  etrans; [apply (IH (f ∘ S))|]. by rewrite <- app_assoc.
Qed.

(** Every database is found under its DSN. *)
Lemma putNodes_lookup l nodes pos v :
  (forall p v1 v2, (p, v1) ∈ l -> (p, v2) ∈ l -> v1 = v2) -> (pos, v) ∈ l ->
  foldl putNode nodes l !! dsnAt pos = Some v.
Proof.
  induction l as [|[p w] l IH] using rev_ind; intros Hfun Hin; [by apply elem_of_nil in Hin|].
  rewrite foldl_app. cbn [foldl]. unfold putNode at 1. cbn [fst snd].
  destruct (decide (p = pos)) as [->|Hne].
  - rewrite lookup_insert_eq. f_equal. apply (Hfun pos); [|done]. apply elem_of_app. right. by left.
  - rewrite lookup_insert_ne by (intros E; apply Hne; by apply (inj dsnAt)). apply IH.
    + intros p' v1 v2 H1 H2. apply (Hfun p'); apply elem_of_app; by left.
    + apply elem_of_app in Hin as [|Hin]; [done|]. apply list_elem_of_singleton in Hin. congruence.
Qed.

Lemma setNodes_elem i set pos v :
  (pos, v) ∈ setNodes i set <->
  pos.1 = i /\ match pos.2 with
               | None => v = sd_primary set
               | Some j => sd_replicas set !! j = Some v
               end.
Proof.
  unfold setNodes. rewrite elem_of_cons. destruct pos as [i' [j|]]; cbn [fst snd].
  - split.
    + intros [H|H]; [done|]. apply elem_of_lookup_imap in H as (j' & d & H & Hd). by simplify_eq.
    + intros [-> Hd]. right. apply elem_of_lookup_imap. by exists j, v.
  - split.
    + intros [H|H]; [by simplify_eq|]. by apply elem_of_lookup_imap in H as (j' & d & H & Hd).
    + intros [-> ->]. by left.
Qed.

(** The databases of all sets by position. *)
Definition allNodes sets : list (nat * option nat * option DBTX) := concat (imap setNodes sets).

Lemma allNodes_elem sets pos v :
  (pos, v) ∈ allNodes sets <-> exists set, sets !! pos.1 = Some set /\
    match pos.2 with
    | None => v = sd_primary set
    | Some j => sd_replicas set !! j = Some v
    end.
Proof.
  unfold allNodes. rewrite <- (list_fmap_id (imap setNodes sets)), elem_of_concat.
  setoid_rewrite elem_of_lookup_imap. split.
  - intros (l & (i & set & -> & Hi) & Hin). apply setNodes_elem in Hin as [<- Hin]. by exists set.
  - intros (set & Hi & Hv). exists (setNodes pos.1 set).
    split; [by exists pos.1, set|by apply setNodes_elem].
Qed.

Lemma nodes_lookup sets pos v :
  (pos, v) ∈ allNodes sets -> foldl putNode ∅ (allNodes sets) !! dsnAt pos = Some v.
Proof.
  apply putNodes_lookup. intros p v1 v2 (s1 & H1 & Hv1)%allNodes_elem (s2 & H2 & Hv2)%allNodes_elem.
  destruct p as [i [j|]]; cbn in *; simplify_eq; congruence.
Qed.

Definition mappingOf (m : shardMapping) : virtualShardMapping :=
  VirtualShardMapping (sm_virtualShards m) (sm_mainReplicaSet m) (sm_mirrorReplicaSets m).

(** The configuration a topology opens. *)
Definition topologyConfig (count : Z) sets (ms : list shardMapping) tp mp lg
    : openMeshConfig (Tracer := Tracer) (Instrument := Instrument) (Logger := Logger) :=
  OpenMeshConfig (imap setSpec sets) count (mappingOf <$> ms) tp mp lg.

Lemma foldOptions (f : nat -> nat) (fs : list optT) c :
  foldO (E := error) (fun config '(index, option) =>
    match option with
    | None => Err (Errorf "pgmesh: mesh option %d is nil" [AInt (Z.of_nat index)] [])
    | Some f => Ok (f config)
    end) c (imap (fun i o => (f i, o)) (Some <$> fs)) = Ok (foldl (fun c f => f c) c fs).
Proof.
  revert f c. induction fs as [|x fs IH]; intros f c; [done|].
  rewrite fmap_cons, imap_cons. cbn. apply (IH (f ∘ S)).
Qed.

Lemma foldSets (f : nat -> nat) sets (c : openMeshConfig (Tracer := Tracer) (Instrument := Instrument) (Logger := Logger)) :
  foldl (fun c f => f c) c (imap (fun i set =>
    Topology.WithReplicaSet (sd_name set) (primaryDSNOf (f i)) (replicaDSNs (setSpec (f i) set))) sets) =
  OpenMeshConfig (cfg_replicaSets c ++ imap (fun i => setSpec (f i)) sets) (virtualShardCount c) (mappings c)
    (tracerProvider c) (meterProvider c) (cfg_logger c).
Proof.
  revert f c. induction sets as [|x sets IH]; intros f c; [rewrite app_nil_r; by destruct c|].
  rewrite !imap_cons. cbn [foldl]. etrans; [apply (IH (f ∘ S))|].
  cbn [cfg_replicaSets virtualShardCount mappings tracerProvider meterProvider cfg_logger Topology.WithReplicaSet].
  by rewrite <- app_assoc.
Qed.

Lemma foldMappings (ms : list shardMapping) (c : openMeshConfig (Tracer := Tracer) (Instrument := Instrument) (Logger := Logger)) :
  foldl (fun c f => f c) c ((fun m => Topology.WithVirtualShardMapping (sm_mainReplicaSet m)
    (sm_virtualShards m) (sm_mirrorReplicaSets m)) <$> ms) =
  OpenMeshConfig (cfg_replicaSets c) (virtualShardCount c) (mappings c ++ (mappingOf <$> ms))
    (tracerProvider c) (meterProvider c) (cfg_logger c).
Proof.
  revert c. induction ms as [|m ms IH]; intros c; [rewrite app_nil_r; by destruct c|].
  cbn [foldl fmap list_fmap]. etrans; [apply IH|].
  cbn [cfg_replicaSets virtualShardCount mappings tracerProvider meterProvider cfg_logger
    Topology.WithVirtualShardMapping]. by rewrite <- app_assoc.
Qed.

(** The options [sharded_buildStore] passes to OpenMesh. *)
Definition meshOptionsOf sets (ms : list shardMapping) tp mp lg : list (option optT) :=
  imap (fun i set => Some (Topology.WithReplicaSet (sd_name set) (primaryDSNOf i) (replicaDSNs (setSpec i set)))) sets ++
  ((fun m => Some (Topology.WithVirtualShardMapping (sm_mainReplicaSet m) (sm_virtualShards m)
     (sm_mirrorReplicaSets m))) <$> ms) ++
  [Some (Topology.WithTracerProvider tp); Some (Topology.WithMeterProvider mp); Some (Topology.WithLogger lg)].

Lemma meshOptionsOf_config count sets ms tp mp lg :
  applyOptions count (meshOptionsOf sets ms tp mp lg) = Ok (topologyConfig count sets ms tp mp lg).
Proof.
  unfold applyOptions, meshOptionsOf.
  set (fs := imap (fun i set => Topology.WithReplicaSet (sd_name set) (primaryDSNOf i)
      (replicaDSNs (setSpec i set))) sets ++
    ((fun m => Topology.WithVirtualShardMapping (sm_mainReplicaSet m) (sm_virtualShards m)
      (sm_mirrorReplicaSets m)) <$> ms) ++
    [Topology.WithTracerProvider tp; Topology.WithMeterProvider mp; Topology.WithLogger lg] : list optT).
  match goal with |- foldO _ _ (imap pair ?l) = _ => assert (l = Some <$> fs) as -> end.
  { unfold fs. rewrite !fmap_app, fmap_imap, <- list_fmap_compose. done. }
  etrans; [apply (foldOptions id)|]. unfold fs. rewrite !foldl_app.
  rewrite (foldSets id), foldMappings. done.
Qed.

(** Every database of the topology is there. *)
Definition allGiven sets : Prop :=
  Forall (fun set => is_Some (sd_primary set) /\ Forall is_Some (sd_replicas set)) sets.

Lemma allDSNs_position sets d :
  allGiven sets -> d ∈ allDSNs (imap setSpec sets) ->
  exists pos v, d = dsnAt pos /\ (pos, Some v) ∈ allNodes sets.
Proof.
  intros Hg. unfold allDSNs. rewrite elem_of_concat. intros (spec & Hin & Hd).
  apply elem_of_lookup_imap in Hin as (i & set & -> & Hi).
  unfold allGiven in Hg. rewrite Forall_lookup in Hg. destruct (Hg i set Hi) as [[v Hv] Hr].
  apply elem_of_cons in Hd as [->|Hd].
  - exists (i, None), v. split; [done|]. apply allNodes_elem. exists set. by rewrite Hv.
  - apply elem_of_lookup_imap in Hd as (j & o & -> & Hj). rewrite Forall_lookup in Hr.
    destruct (Hr j o Hj) as [w ->]. exists (i, Some j), w. split; [done|].
    apply allNodes_elem. by exists set.
Qed.

End Config.

(** ** Preparing the store *)

Section Prepare.
Context {DBTX : Type} `{!Driver DBTX} {RT : Runtime}.
Context {K Tracer Instrument Logger : Type}.
Context (ErrorType : error -> KeyValue) (DebugEnabled : Logger -> bool).
#[local] Abbreviation stateT := (storeState DBTX Tracer Instrument Logger).
#[local] Abbreviation meshT := (Mesh (K := K) (Tracer := Tracer) (Instrument := Instrument) (Logger := Logger)).
Implicit Types (s : stateT) (mesh : meshT).

(** The pointer is a set of the heap with the given name. *)
Definition setNamed s (p : loc) (n : string) : Prop := nameOf (st_heap s) p = Some n.

Lemma setNamed_name s p n :
  setNamed s p n -> runs (onHeap (Name p)) s (fun r s' => r = n /\ s' = s).
Proof.
  intros H. exists n, s. split; [|done]. unfold onHeap, zoomM. rewrite (Name_live _ _ _ H). by destruct s.
Qed.

Lemma setNamed_write s p n :
  setNamed s p n -> runs (onHeap (WriteRoute p)) s (fun r s' => s' = s /\
    exists st, replicaSetsAt (st_heap s) !! p = Some st /\ r = routeOf st (selectWrite st)).
Proof.
  intros H. unfold setNamed, nameOf in H. apply fmap_Some in H as (st & Hst & _).
  exists (routeOf st (selectWrite st)), s. split; [|by split; [|exists st]].
  unfold onHeap, zoomM, WriteRoute. rewrite (stE_bind_Ok _ _ _ st (st_heap s)); [by destruct s|].
  unfold deref. by rewrite Hst.
Qed.

#[local] Abbreviation refT := (batcherRef (DBTX := DBTX) (Tracer := Tracer) (Instrument := Instrument)
  (Logger := Logger)).

(** An observer that does not panic. *)
Definition observes (ref : refT) : Prop := forall observation t, runs (br_observer ref observation) t (fun _ _ => True).

(** [ref] is a fresh batcher that writes to the set [p]. *)
Definition freshBatcher s (config : CopyBatchConfig) (p : loc) (ref : refT) : Prop :=
  exists st b, replicaSetsAt (st_heap s) !! p = Some st /\ br_route ref = routeOf st (selectWrite st) /\
    observes ref /\ NewCopyBatcher config true [Some 0%nat] = Ok b /\
    st_batchers s !! br_batcher ref = Some (initial b).

(** Batcher pointers are below the allocation pointer. *)
Definition batchersWf s : Prop := forall l, is_Some (st_batchers s !! l) -> (l < st_next s)%positive.

Lemma addBatcher_runs mesh config s m p n :
  telemetryOk (telemetry mesh) -> Validate config = None -> setNamed s p n -> batchersWf s ->
  runs (addBatcher ErrorType mesh config m p) s (fun m' s' => exists ref b,
    m' = <[n := ref]> m /\ br_batcher ref = st_next s /\ freshBatcher s' config p ref /\ batchersWf s' /\
    s' = setBatchers (<[st_next s := initial b]> (st_batchers s)) (Pos.succ (st_next s)) s).
Proof.
  intros Ht Hv Hn Hwf. unfold addBatcher. eapply runs_seq; [by apply (setNamed_write s p n)|].
  intros r ? (-> & st & Hst & ->). unfold NewCopyBatcher. rewrite Hv. cbn [negb].
  set (b := Batcher (normalized config) [Some 0%nat] None [] 0 ∅).
  set (s' := setBatchers (<[st_next s := initial b]> (st_batchers s)) (Pos.succ (st_next s)) s).
  apply (runs_seq _ _ _ (fun l s1 => l = st_next s /\ s1 = s')); [by eexists _, _|].
  intros ? ? [-> ->]. eapply runs_seq; [by apply (setNamed_name s' p n)|]. intros ? ? [-> ->].
  apply runs_ret. eexists _, b. split_and!; [done|done| | |done].
  - exists st, b. split_and!; [done|done| | |].
    + intros observation t. by apply NewCopyBatchObserver_runs.
    + unfold NewCopyBatcher. by rewrite Hv.
    + apply lookup_insert_eq.
  - intros l Hl. cbn in Hl |- *. destruct (decide (l = st_next s)) as [->|Hne]; [lia|].
    rewrite lookup_insert_ne in Hl by done. specialize (Hwf l Hl). lia.
Qed.

(** The batchers after the loop: one fresh batcher per set, under its name. *)
Record batchersFor s s' (config : CopyBatchConfig) (done : list loc) (m : gmap string refT) : Prop := {
  bf_heap : st_heap s' = st_heap s;
  bf_calls : st_calls s' = st_calls s;
  bf_spans : st_spans s' = st_spans s;
  bf_wf : batchersWf s';
  bf_sets p n : p ∈ done -> setNamed s p n -> exists ref, m !! n = Some ref /\ freshBatcher s' config p ref;
  bf_distinct n1 n2 r1 r2 : m !! n1 = Some r1 -> m !! n2 = Some r2 -> br_batcher r1 = br_batcher r2 -> n1 = n2;
  bf_live n r : m !! n = Some r -> is_Some (st_batchers s' !! br_batcher r);
  bf_named n r : m !! n = Some r -> exists p, p ∈ done /\ setNamed s p n;
}.

Lemma addBatchers_runs mesh config ps s0 s done m :
  telemetryOk (telemetry mesh) -> Validate config = None ->
  (forall p, p ∈ done ++ ps -> exists n, setNamed s0 p n) ->
  (forall p q n, p ∈ done ++ ps -> q ∈ done ++ ps -> setNamed s0 p n -> setNamed s0 q n -> p = q) ->
  NoDup (done ++ ps) ->
  batchersFor s0 s config done m ->
  runs (foldM (addBatcher ErrorType mesh config) m ps) s (fun m' s' => batchersFor s0 s' config (done ++ ps) m').
Proof.
  intros Ht Hv. revert s done m. induction ps as [|p ps IH]; intros s done m Hname Hinj Hnd H; cbn [foldM].
  { apply runs_ret. by rewrite app_nil_r. }
  destruct (Hname p ltac:(set_solver)) as [n Hn].
  assert (Hn' : setNamed s p n) by (unfold setNamed; by rewrite (bf_heap _ _ _ _ _ H)).
  eapply runs_seq; [by apply (addBatcher_runs mesh config s m p n); [..|apply H]|].
  intros ? s1 (ref & b & -> & Href & Hfresh & Hwf1 & Hs1).
  rewrite (cons_middle p done ps), app_assoc in *. apply IH; [done..|].
  assert (Hlt : forall k r, m !! k = Some r -> br_batcher r <> br_batcher ref).
  { intros k r Hr. pose proof (bf_wf _ _ _ _ _ H _ (bf_live _ _ _ _ _ H k r Hr)). rewrite Href. lia. }
  subst s1. destruct H as [H1 H2 H3 H4 H5 H6 H7 H8]. split; [done..| | | |].
  - intros p' n' [Hp'|Hp']%elem_of_app Hn2.
    + destruct (H5 p' n' Hp' Hn2) as (r & Hr & st & b' & ? & ? & ? & ? & Hl).
      assert (n' <> n).
      { intros ->. apply NoDup_app in Hnd as (Hnd & _). apply NoDup_app in Hnd as (_ & Hdis & _).
        apply (Hdis p' Hp'). assert (p' = p) as -> by (apply (Hinj _ _ n); set_solver). left. }
      exists r. rewrite lookup_insert_ne by done. split; [done|]. exists st, b'. split_and!; [done..|].
      cbn. rewrite lookup_insert_ne; [done|]. rewrite <- Href. intros E. by apply (Hlt n' r).
    + apply list_elem_of_singleton in Hp' as ->. unfold setNamed in *. assert (n' = n) as -> by congruence.
      exists ref. by rewrite lookup_insert_eq.
  - intros n1 n2 r1 r2 [[<- <-]|[N1 Hr1]]%lookup_insert_Some [[<- <-]|[N2 Hr2]]%lookup_insert_Some E.
    + done.
    + by destruct (Hlt n2 r2 Hr2).
    + by destruct (Hlt n1 r1 Hr1).
    + by eapply H6.
  - intros k r Hr. cbn. destruct (decide (k = n)) as [->|Hk].
    + rewrite lookup_insert_eq in Hr. injection Hr as <-. rewrite Href, lookup_insert_eq. by eexists.
    + rewrite lookup_insert_ne in Hr by done. rewrite lookup_insert_ne; [by apply (H7 k)|].
      rewrite <- Href. intros E. by apply (Hlt k r).
  - intros k r [[<- _]|[_ Hr]]%lookup_insert_Some; [exists p; set_solver|].
    destruct (H8 k r Hr) as (p' & ? & ?). exists p'. set_solver.
Qed.

#[local] Abbreviation optsT := (storeOptions (DBTX := DBTX) (Tracer := Tracer) (Instrument := Instrument)
  (Logger := Logger)).

(** The configuration of the batchers. *)
Definition batchConfigOf (options : optsT) : CopyBatchConfig := default (MkConfig 0 0 0) (so_copyAccounts options).

Lemma finishStore_runs mesh resolver zero (options : optsT) s :
  telemetryOk (telemetry mesh) -> Validate (batchConfigOf options) = None -> batchersWf s ->
  buildable (st_heap s) (ReplicaSets mesh) -> NoDup (ReplicaSets mesh) ->
  runs (finishStore ErrorType DebugEnabled mesh resolver zero options) s (fun '(q, store) s' => exists id cab,
    q = MeshStore id mesh resolver zero cab /\ store = initializeGroups ErrorType DebugEnabled q options /\
    cab_enabled cab = isSome (so_copyAccounts options) /\
    batchersFor s s' (batchConfigOf options) (ReplicaSets mesh) (cab_batchers cab)).
Proof.
  intros Ht Hv Hwf [Hlive Hinj] Hnd. unfold finishStore.
  set (s1 := setBatchers (st_batchers s) (Pos.succ (st_next s)) s).
  apply (runs_seq _ _ _ (fun id s' => s' = s1)); [by eexists _, _|]. intros id ? ->.
  unfold initializeCopyBatchers.
  apply (runs_seq _ _ _ (fun cab s' => cab_enabled cab = isSome (so_copyAccounts options) /\
    batchersFor s s' (batchConfigOf options) (ReplicaSets mesh) (cab_batchers cab))).
  { eapply runs_seq; [apply (addBatchers_runs mesh _ _ s s1 []); [exact Ht|exact Hv|..]|].
    - intros p Hp. destruct (Hlive p Hp) as (n & ? & _). by exists n.
    - intros p q n. apply Hinj.
    - done.
    - split; try done; [intros l Hl; specialize (Hwf l Hl); cbn; lia|by intros ?? ?%elem_of_nil|..].
    - intros m s' Hm. by apply runs_ret. }
  intros cab s' [He Hb]. apply runs_ret. by exists id, cab.
Qed.

End Prepare.

Lemma wired_telemetryOk {Tracer Instrument Logger} (tp : TracerProvider Tracer) (mp : MeterProvider Instrument)
    (t : meshTelemetry Tracer Instrument Logger) : wired tp mp t -> telemetryOk t.
Proof.
  intros [Htr Hf]. unfold metricField in Hf. rewrite !Forall_cons in Hf.
  destruct Hf as (_ & (? & ? & _ & _ & ?) & (? & ? & _ & _ & ?) & (? & ? & _ & _ & ?) & (? & ? & _ & _ & ?) &
    (? & ? & _ & _ & ?) & (? & ? & _ & _ & ?) & (? & ? & _ & _ & ?) & (? & ? & _ & _ & ?) & _).
  split; [by eexists..|]. rewrite !Forall_cons. split_and!; [by eexists..|by apply Forall_nil].
Qed.

(** ** Opening *)

(** The set a virtual shard is mapped to, and the mirrors of a set. *)
Definition routeName (ms : list shardMapping) (i : Z) : string :=
  match list_find (fun m => i ∈ sm_virtualShards m) ms with
  | Some (_, m) => sm_mainReplicaSet m
  | None => ""
  end.
Definition mirrorsOf (ms : list shardMapping) (n : string) : list string :=
  match list_find (fun m => sm_mainReplicaSet m = n) ms with
  | Some (_, m) => sm_mirrorReplicaSets m
  | None => []
  end.

Section Sharded.
Context {DBTX : Type} `{!Driver DBTX} {RT : Runtime}.
Context {K Tracer Instrument Logger : Type}.
Context (ErrorType : error -> KeyValue) (DebugEnabled : Logger -> bool).
Context (gtp : TracerProvider Tracer) (gmp : MeterProvider Instrument).
#[local] Abbreviation stateT := (storeState DBTX Tracer Instrument Logger).
#[local] Abbreviation optsT := (storeOptions (DBTX := DBTX) (Tracer := Tracer) (Instrument := Instrument)
  (Logger := Logger)).
#[local] Abbreviation storeT := (meshStore DBTX K Tracer Instrument Logger).
Implicit Types (q : storeT) (s : stateT).

(** How the physical sets of a mesh relate to its virtual shards. *)
Record meshShape q s : Prop := {
  shp_sets : ReplicaSets (ms_mesh q) = firstOccurrences ∅ (virtualShards (ms_mesh q));
  shp_names : buildable (st_heap s) (virtualShards (ms_mesh q));
}.

Context (count : Z) (hash : ShardHasher K) (resolver : TenantKey -> option K).
Context (sets : list (shardDatabase (DBTX := DBTX))) (ms : list shardMapping) (options : optsT).
Context (primaryDB : string -> DBTX).

Definition shardedConfig : openMeshConfig :=
  topologyConfig count sets ms (so_tracerProvider options) (so_meterProvider options) (so_logger options).

Definition topology : shardedTopology (DBTX := DBTX) K :=
  ShardedTopology K count (Some hash) (Some resolver) (ShardedOptions sets ms).

(** A topology that can be opened: valid names and mappings, every database
    given, hashes of keys in range, providers and batching that work. *)
Record openable : Prop := {
  op_ints : configInts shardedConfig;
  op_valid : validConfig shardedConfig;
  op_given : allGiven sets;
  op_primary set : set ∈ sets -> sd_primary set = Some (primaryDB (sd_name set));
  op_hash key k : resolver key = Some k -> 0 <= hash k < count;
  op_meters : metersOk gmp;
  op_options : metersOk (default gmp (so_meterProvider options));
  op_batching : Validate (batchConfigOf options) = None;
}.

Lemma routeName_spec i :
  openable -> 0 <= i < count ->
  exists m, m ∈ ms /\ i ∈ sm_virtualShards m /\ routeName ms i = sm_mainReplicaSet m /\
    mirrorsOf ms (sm_mainReplicaSet m) = sm_mirrorReplicaSets m.
Proof.
  intros Hop Hi. assert (Hin : i ∈ allIndexes (mappings shardedConfig)).
  { by apply (valid_range _ (op_valid Hop)). }
  unfold allIndexes in Hin. apply elem_of_concat in Hin as (vm & Hvm & Hi').
  apply list_elem_of_fmap in Hvm as (m0 & -> & Hm0).
  unfold routeName. destruct (list_find (fun m => i ∈ sm_virtualShards m) ms) as [[j m]|] eqn:E.
  - apply list_find_Some in E as (Hj & Him & _). exists m. split_and!; [by eapply list_elem_of_lookup_2|done..|].
    unfold mirrorsOf. destruct (list_find (fun x => sm_mainReplicaSet x = sm_mainReplicaSet m) ms)
      as [[j' m']|] eqn:E'.
    + apply list_find_Some in E' as (Hj' & Hm' & _).
      apply (valid_mirrors _ (op_valid Hop) (mappingOf m') (mappingOf m)); [..|done].
      * apply (list_elem_of_fmap_2 mappingOf). by eapply list_elem_of_lookup_2.
      * apply (list_elem_of_fmap_2 mappingOf). by eapply list_elem_of_lookup_2.
    + apply list_find_None in E'. rewrite Forall_lookup in E'. by destruct (E' j m Hj).
  - apply list_find_None in E. rewrite Forall_forall in E. by destruct (E m0 Hm0).
Qed.

(** The set a key is routed to. *)
Definition keyRoute (key : TenantKey) : string :=
  match resolver key with Some k => routeName ms (hash k) | None => "" end.

(** The nodes of the topology by DSN. *)
Definition topologyNodes : gmap string (option DBTX) := foldl putNode ∅ (allNodes sets).

Definition nodeAt (d0 : DBTX) (dsn : string) : Node (readQueries DBTX) (queryStore DBTX) :=
  match topologyNodes !! dsn with
  | Some (Some d) => newStoreNode d
  | _ => newStoreNode d0
  end.

Lemma opener_finds d0 hist d :
  openable -> d ∈ allDSNs (cfg_replicaSets shardedConfig) ->
  shardedOpener topologyNodes hist d = inr (nodeAt d0 d).
Proof.
  intros Hop Hd. destruct (allDSNs_position sets d (op_given Hop) Hd) as (pos & v & -> & Hv).
  unfold shardedOpener, nodeAt, topologyNodes. by rewrite (nodes_lookup _ _ _ Hv).
Qed.

(** The primary of a named set. *)
Lemma primary_of d0 spec :
  openable -> spec ∈ cfg_replicaSets shardedConfig ->
  sp_name spec ∈ sd_name <$> sets /\ nodeAt d0 (primaryDSN spec) = newStoreNode (primaryDB (sp_name spec)).
Proof.
  intros Hop Hs. apply elem_of_lookup_imap in Hs as (i & set & -> & Hi).
  assert (Hin : set ∈ sets) by by eapply list_elem_of_lookup_2.
  split; [by apply (list_elem_of_fmap_2 sd_name)|]. unfold nodeAt, topologyNodes.
  change (primaryDSN (setSpec i set)) with (dsnAt (i, None)).
  rewrite (nodes_lookup sets (i, None) (sd_primary set)).
  - by rewrite (op_primary Hop set Hin).
  - apply allNodes_elem. by exists set.
Qed.

Lemma mirrors_of d0 names ws :
  openable -> Forall2 (isMirror (nodeAt d0) (cfg_replicaSets shardedConfig)) names ws ->
  names ⊆ (sd_name <$> sets) /\ ws = Writer ∘ newStoreNode ∘ primaryDB <$> names.
Proof.
  intros Hop H. induction H as [|n w names ws (spec & Hs & <- & ->) _ [IH1 ->]]; [by split; [set_solver|]|].
  destruct (primary_of d0 spec Hop Hs) as [Hn ->]. split; [|done]. set_solver.
Qed.

Lemma firstOccurrences_subset (l : list loc) p : p ∈ firstOccurrences ∅ l <-> p ∈ l.
Proof. rewrite firstOccurrences_elem. set_solver. Qed.

(** A mesh that serves the configuration serves the topology's routes. *)
Lemma opened_serves d0 q s h (m : Mesh (K := K)) :
  openable -> ms_mesh q = m -> ms_resolver q = Some resolver -> st_heap s = h -> heap_wf h ->
  hasher m = hash -> Z.of_nat (length (virtualShards m)) = virtualShardCount shardedConfig ->
  wired (default gtp (so_tracerProvider options)) (default gmp (so_meterProvider options)) (telemetry m) ->
  (forall mapping i, mapping ∈ mappings shardedConfig -> i ∈ virtualShardIndexes mapping ->
     exists p spec ws, virtualShards m !! Z.to_nat i = Some p /\
       spec ∈ cfg_replicaSets shardedConfig /\ sp_name spec = mainReplicaSet mapping /\
       isSetOf (nodeAt d0) h p spec ws /\
       Forall2 (isMirror (nodeAt d0) (cfg_replicaSets shardedConfig)) (mirrorReplicaSets mapping) ws) ->
  serves (sd_name <$> sets) primaryDB keyRoute (mirrorsOf ms) q s.
Proof.
  intros Hop Hq Hres Hs Hwf Hh Hlen Htel Hserve.
  split; [rewrite Hq; by apply (wired_telemetryOk _ _ _ Htel)|by rewrite Hs|]. intros key k Hk.
  unfold shardKeyOf in Hk. rewrite Hres in Hk. cbn in Hk. unfold keyRoute.
  destruct (resolver key) as [k'|] eqn:Ek; [injection Hk as ->|done]. pose proof (op_hash Hop key k Ek) as Hrange.
  destruct (routeName_spec (hash k) Hop Hrange) as (mp & Hm & Hi & -> & ->).
  destruct (Hserve (mappingOf mp) (hash k)) as (p & spec & ws & Hp & Hspec & Hname & Hsof & Hmir);
    [by apply (list_elem_of_fmap_2 mappingOf)|done|].
  destruct (primary_of d0 spec Hop Hspec) as [Hn Hpri]. destruct (mirrors_of d0 _ ws Hop Hmir) as [Hsub Hws].
  cbn [mappingOf mainReplicaSet] in Hname. rewrite Hname in Hn, Hpri.
  split_and!; [done|done|]. destruct Hsof as (st & Hst & _ & Hps & Hwm & Hsw).
  exists {| rsh_virtualShardIndex := hash k; rsh_replicaSet := p |}, st, (nodeAt d0 <$> replicaDSNs spec).
  rewrite Hs. split_and!; [|done|done|by rewrite Hps|by rewrite Hwm].
  unfold Resolve. rewrite Hq, Hh.
  cbn [shardedConfig topologyConfig virtualShardCount] in Hlen. rewrite Hlen.
  destruct (Z.leb_spec count (hash k)); [lia|]. by rewrite Hp.
Qed.

(** Every virtual shard is on the set its mapping names, with that set's primary. *)
Definition placed q s : Prop :=
  hasher (ms_mesh q) = hash /\ Z.of_nat (length (virtualShards (ms_mesh q))) = count /\
  forall i p, virtualShards (ms_mesh q) !! i = Some p -> exists st, replicaSetsAt (st_heap s) !! p = Some st /\
    rs_name st = routeName ms (Z.of_nat i) /\ primary st = newStoreNode (primaryDB (rs_name st)).

(** The store that opening the topology in [s] gives in [s']. *)
Definition openedStore q (store : Store) s s' : Prop :=
  store = initializeGroups ErrorType DebugEnabled q options /\ st_calls s' = st_calls s /\
  ms_resolver q = Some resolver /\
  serves (sd_name <$> sets) primaryDB keyRoute (mirrorsOf ms) q s' /\
  meshShape q s' /\ cab_enabled (ms_copyAccountsBatch q) = isSome (so_copyAccounts options) /\
  batchersFor s' s' (batchConfigOf options) (ReplicaSets (ms_mesh q)) (cab_batchers (ms_copyAccountsBatch q)) /\
  placed q s'.

Lemma opened_placed d0 q s h (m : Mesh (K := K)) :
  openable -> ms_mesh q = m -> st_heap s = h -> hasher m = hash ->
  Z.of_nat (length (virtualShards m)) = virtualShardCount shardedConfig ->
  (forall mapping i, mapping ∈ mappings shardedConfig -> i ∈ virtualShardIndexes mapping ->
     exists p spec ws, virtualShards m !! Z.to_nat i = Some p /\
       spec ∈ cfg_replicaSets shardedConfig /\ sp_name spec = mainReplicaSet mapping /\
       isSetOf (nodeAt d0) h p spec ws /\
       Forall2 (isMirror (nodeAt d0) (cfg_replicaSets shardedConfig)) (mirrorReplicaSets mapping) ws) ->
  placed q s.
Proof.
  intros Hop Hq Hs Hhash Hlen Hserve. unfold placed. rewrite Hq, Hs. split; [exact Hhash|]. split; [exact Hlen|]. intros i p Hp.
  assert (Hi : 0 <= Z.of_nat i < count).
  { apply lookup_lt_Some in Hp. unfold shardedConfig, topologyConfig in Hlen. cbn in Hlen. lia. }
  destruct (routeName_spec (Z.of_nat i) Hop Hi) as (mp & Hm & Hin & -> & _).
  destruct (Hserve (mappingOf mp) (Z.of_nat i)) as (p' & spec & ws & Hp' & Hspec & Hname & (st & Hst & Hn & Hpri & _) & _);
    [by apply (list_elem_of_fmap_2 mappingOf)|done|].
  rewrite Nat2Z.id, Hp in Hp'. injection Hp' as <-. exists st. destruct (primary_of d0 spec Hop Hspec) as [_ Hpr].
  rewrite Hn, Hname, Hpri. split_and!; [done|done|]. by rewrite Hpr, Hname.
Qed.

(** The keys that resolve are those for which the resolver returns. *)
Lemma resolver_resolves q key : ms_resolver q = Some resolver -> is_Some (resolver key) -> resolved q key.
Proof. intros Hq [k Hk]. unfold resolved, shardKeyOf. rewrite Hq. cbn. by rewrite Hk. Qed.

Lemma resolvable_ops q ops :
  ms_resolver q = Some resolver -> Forall (fun op => is_Some (resolver (opKey op))) ops ->
  Forall (fun op => resolved q (opKey op)) ops.
Proof. intros Hq H. eapply Forall_impl; [exact H|]. intros op. by apply resolver_resolves. Qed.

(** Opening a topology gives a store that serves it; no database is called. *)
Lemma sharded_opens (zero : K) s :
  openable -> heap_wf (st_heap s) -> batchersWf s ->
  runs (sharded_buildStore ErrorType DebugEnabled gtp gmp zero (Ok topology) options) s
    (fun r s' => openedStore r.1 r.2 s s').
Proof.
  intros Hop Hwf Hbw. unfold sharded_buildStore.
  apply (runs_seq _ _ _ (fun c s' => c = topology /\ s' = s)); [by exists topology, s|].
  intros ? ? [-> ->]. cbn [topology sht_resolver sht_options sho_replicaSets sho_mappings sht_virtualShardCount sht_shardHasher].
  assert (Hfold := addSets_fold (Tracer := Tracer) (Instrument := Instrument) (Logger := Logger) id sets ∅ []).
  cbn [id] in Hfold. match goal with |- context [foldl addSet ?a ?b] => replace (foldl addSet a b) with
    (topologyNodes, imap (fun i set => Some (Topology.WithReplicaSet (sd_name set) (primaryDSNOf i)
      (replicaDSNs (setSpec i set)))) sets : list (option (OpenMeshOption (Tracer := Tracer)
        (Instrument := Instrument) (Logger := Logger)))) by (symmetry; exact Hfold) end.
  fold (meshOptionsOf sets ms (so_tracerProvider options) (so_meterProvider options) (so_logger options)).
  assert (exists set0, set0 ∈ sets) as [set0 Hset0].
  { destruct (sets !! 0%nat) as [x|] eqn:E; [exists x; by eapply list_elem_of_lookup_2|].
    destruct (valid_sets _ (op_valid Hop)). unfold shardedConfig, topologyConfig. cbn.
    apply lookup_ge_None, Nat.le_0_r, nil_length_inv in E. by rewrite E. }
  set (d0 := primaryDB (sd_name set0)).
  destruct (open_mesh_ok gtp gmp (st_heap s) count _ shardedConfig (shardedOpener topologyNodes) (nodeAt d0) hash
    (meshOptionsOf_config count sets ms _ _ _) (op_ints Hop) (op_valid Hop) Hwf (op_meters Hop) (op_options Hop)
    (fun hist d Hd => opener_finds d0 hist d Hop Hd))
    as (m & h' & Hrun & Hwf' & _ & Hh & Hlen & Htel & Hrs & Hnames & Hserve).
  set (s1 := setHeap h' s).
  apply (runs_seq _ _ _ (fun m' s' => m' = m /\ s' = s1)).
  { exists m, s1. split; [|done]. unfold onHeap, zoomM. by rewrite Hrun. }
  intros ? ? [-> ->]. assert (Hset : forall p, p ∈ ReplicaSets m <-> p ∈ virtualShards m).
  { intros p. unfold ReplicaSets. rewrite Hrs. apply firstOccurrences_subset. }
  eapply runs_mono.
  { apply (finishStore_runs ErrorType DebugEnabled m (Some resolver) zero options s1);
      [by apply (wired_telemetryOk _ _ _ Htel)|apply Hop|done|..].
    - destruct Hnames as [H1 H2].
      split; [intros p Hp; apply H1; by apply Hset|intros p q n Hp Hq; apply H2; by apply Hset].
    - unfold ReplicaSets. rewrite Hrs. apply firstOccurrences_NoDup. }
  intros [q store] s2 (id & cab & -> & -> & Hen & Hb). pose proof Hb as [Hh2 Hc2 _ _ _ _ _ _].
  split_and!; [done|done|done| |split; [done|]; by rewrite Hh2|done| |].
  - by eapply opened_serves.
  - destruct Hb as [? ? ? ? Hbs ? ? Hbn]. unfold setNamed in *. rewrite <- Hh2 in Hbs, Hbn. by split.
  - by eapply opened_placed.
Qed.

(** *** Using the opened store *)

#[local] Abbreviation storeI := (Store (DBTX := DBTX) (Tracer := Tracer) (Instrument := Instrument) (Logger := Logger)).

(** An operation through the interface of the store. *)
Definition useOp (store : storeI) (ctx : Context) (op : storeOp) : stE stateT error opResult :=
  match op with
  | OpUpsert arg =>
      '(a, err) ← Accounts_UpsertAccount (Store_Accounts store) ctx (Some arg) []; mret (RAccount a err)
  | OpUpdate arg =>
      '(a, err) ← Accounts_UpdateAccountName (Store_Accounts store) ctx (Some arg) []; mret (RAccount a err)
  | OpGet arg =>
      '(a, err) ← Accounts_GetAccount (Store_Accounts store) ctx (Some arg) [ReadFromPrimary];
      mret (RAccount a err)
  | OpCount arg =>
      '(n, err) ← Reports_CountAccounts (Store_Reports store) ctx (Some arg) [ReadFromPrimary];
      mret (RCount n err)
  end.

Fixpoint useOps (store : storeI) (ctx : Context) (ops : list storeOp) : stE stateT error (list opResult) :=
  match ops with
  | [] => mret []
  | op :: ops => r ← useOp store ctx op; rs ← useOps store ctx ops; mret (r :: rs)
  end.

(** Without factories the interface is the store's own operations. *)
Lemma useOps_exec q ctx ops :
  so_factories_Accounts options = None -> so_factories_Reports options = None ->
  useOps (initializeGroups ErrorType DebugEnabled q options) ctx ops =
  execOps ErrorType DebugEnabled q ctx ops.
Proof.
  intros HA HR. induction ops as [|op ops IH]; [done|]. cbn [useOps execOps]. rewrite IH.
  assert (useOp (initializeGroups ErrorType DebugEnabled q options) ctx op =
    execOp ErrorType DebugEnabled q ctx op) as ->; [|done].
  destruct op; unfold useOp, initializeGroups; cbn [Store_Accounts Store_Reports]; by rewrite ?HA, ?HR.
Qed.

Definition openStore (zero : K) (storeOptions : list (option StoreOption)) : stE stateT error storeI :=
  NewStore (Some (fun o => '(_, store) ← sharded_buildStore ErrorType DebugEnabled gtp gmp zero (Ok topology) o;
                           mret store)) storeOptions.

Lemma openStore_unfold (zero : K) storeOptions :
  openStore zero storeOptions =
  NewStore (Some (fun o => '(_, store) ← sharded_buildStore ErrorType DebugEnabled gtp gmp zero (Ok topology) o;
                           mret store)) storeOptions.
Proof. reflexivity. Qed.

Lemma openStore_runs (zero : K) storeOptions s :
  applyStoreOptions storeOptions = Ok options -> openable -> heap_wf (st_heap s) -> batchersWf s ->
  runs (openStore zero storeOptions) s (fun store s' => exists q, openedStore q store s s').
Proof.
  intros Happ Hop Hwf Hbw. unfold openStore, NewStore.
  apply (runs_seq _ _ _ (fun o s' => o = options /\ s' = s)).
  { exists options, s. unfold lift. by rewrite Happ. }
  intros ? ? [-> ->]. eapply runs_seq; [by apply sharded_opens|].
  intros [q store] s1 H. apply runs_ret. by exists q.
Qed.

(** Open the topology and run a sequence of operations. *)
Definition openAndUse (zero : K) (storeOptions : list (option StoreOption)) (ctx : Context) (ops : list storeOp)
    : stE stateT error (list opResult) :=
  store ← openStore zero storeOptions; useOps store ctx ops.

End Sharded.

Section Claims.
Context {DBTX : Type} `{!Driver DBTX} `{!AccountsTable DBTX} {RT : Runtime}.
Context {K Tracer Instrument Logger : Type}.
Context (ErrorType : error -> KeyValue) (DebugEnabled : Logger -> bool).
Context (gtp : TracerProvider Tracer) (gmp : MeterProvider Instrument).

(** C9: A sharded store implements partitioned tables. Opening a topology that
    can be opened succeeds, and then every sequence of upserts, updates, reads
    from the primary and counts returns, operation by operation, what the
    specification returns, if the resolver returns for the tenants used: each operation works on the table of the replica set
    its tenant key is routed to, a successful write is repeated on the tables of
    the set's mirrors (a mirror without the row is left alone), an update of a
    missing row fails before any mirror is touched, and the databases hold
    exactly the specification's tables afterwards. *)
Theorem sharded_store_refines (count : Z) (hash : ShardHasher K) (resolver : TenantKey -> option K)
    (sets : list (shardDatabase (DBTX := DBTX))) ms options primaryDB zero
    (storeOptions : list (option (StoreOption (Tracer := Tracer) (Instrument := Instrument) (Logger := Logger))))
    s T ctx ops :
  applyStoreOptions storeOptions = Ok options ->
  so_factories_Accounts options = None -> so_factories_Reports options = None ->
  openable gmp count hash resolver sets ms options primaryDB ->
  (forall n m, n ∈ sd_name <$> sets -> m ∈ sd_name <$> sets -> primaryDB n = primaryDB m -> n = m) ->
  Forall (fun op => is_Some (resolver (opKey op))) ops ->
  heap_wf (st_heap s) -> batchersWf s ->
  holds (sd_name <$> sets) primaryDB (st_calls s) T ->
  exists rs s', openAndUse ErrorType DebugEnabled gtp gmp count hash resolver sets ms zero storeOptions ctx ops s
      = (Ok rs, s') /\
    let spec := specOps (keyRoute hash resolver ms) (mirrorsOf ms) T ops in
    rs = spec.1 /\ holds (sd_name <$> sets) primaryDB (st_calls s') spec.2.
Proof.
  intros Happ HA HR Hop Hdist Hkeys Hwf Hbw HT. unfold openAndUse.
  eapply runs_seq; [by apply openStore_runs|].
  intros store s1 (q & -> & Hc & Hres & Hserve & _). rewrite useOps_exec by done.
  eapply runs_mono; [eapply (execOps_refines ErrorType DebugEnabled (sd_name <$> sets) primaryDB);
    [exact Hdist|exact Hserve|by apply (resolvable_ops resolver)|by rewrite Hc]|].
  intros rs s2 (_ & -> & HT2). by split.
Qed.

End Claims.

(** ** A topology to try it on *)

Module StoreSample.
(** Two sets; the first is mirrored to the second. Databases are numbers. *)
Definition sets : list (shardDatabase (DBTX := nat)) :=
  [ShardDatabase "eu" (Some 1%nat) [Some 11%nat]; ShardDatabase "us" (Some 2%nat) []].
Definition ms : list shardMapping := [ShardMapping "eu" [0; 2] ["us"]; ShardMapping "us" [1] []].
Definition hash : ShardHasher Z := fun key => key mod 3.
Definition resolver (key : TenantKey) : option Z := Some (tk_TenantID key).
Definition primaryDB (n : string) : nat := if bool_decide (n = "eu") then 1%nat else 2%nat.

#[export] Instance runtime : Runtime :=
  {| clock n := Z.of_nat n; schedules n := [1%nat; 0%nat; 0%nat; 1%nat]; pendingOrder _ m := elements m; pendingOrder_all _ m := reflexivity _;
     backgroundMoves _ := []; deadline := None; selectDone _ := true |}.

Definition state0 : storeState nat nat string unit :=
  StoreState emptyHeap sampleState ∅ [] 0 ∅ 1%positive.

Definition noOptions : list (option (StoreOption (DBTX := nat) (Tracer := nat) (Instrument := string)
  (Logger := unit))) := [].
Definition options0 : storeOptions (DBTX := nat) (Tracer := nat) (Instrument := string) (Logger := unit) :=
  StoreOptions None None None None None None.

Definition debug (_ : unit) : bool := true.

Lemma opens : openable sampleMeters 3 hash resolver sets ms options0 primaryDB.
Proof.
  assert (Hints : configInts (shardedConfig 3 sets ms options0)).
  { split; [simpl; lia|]. repeat constructor; lia. }
  split; [done| | | | |apply Sample.meters_ok|apply Sample.meters_ok|done].
  - apply (validateMeshConfig_inv (R := readQueries nat) (W := queryStore nat) _
      (shardedOpener (topologyNodes sets)) hash Hints).
    + repeat constructor.
    + vm_compute. reflexivity.
  - repeat constructor; by eexists.
  - intros set Hset. unfold sets in Hset. rewrite !elem_of_cons in Hset.
    by destruct Hset as [->|[->|[]%elem_of_nil]].
  - intros key k _. unfold hash. apply Z.mod_pos_bound. lia.
Qed.

Lemma distinct n m : n ∈ sd_name <$> sets -> m ∈ sd_name <$> sets -> primaryDB n = primaryDB m -> n = m.
Proof.
  unfold sets. cbn. rewrite !elem_of_cons. by intros [->|[->|[]%elem_of_nil]] [->|[->|[]%elem_of_nil]].
Qed.

Definition ops : list storeOp :=
  [ OpUpsert (MkUpsertAccountT (MkTenantKey 3) 7 "Ada");
    OpUpdate (MkUpdateAccountNameT (MkTenantKey 3) 7 "Ada L.");
    OpGet (MkGetAccountT (MkTenantKey 3) 7);
    OpGet (MkGetAccountT (MkTenantKey 4) 7);
    OpCount (MkCountAccountsT (MkTenantKey 3)) ].
End StoreSample.

#[local] Existing Instance StoreSample.runtime.

Lemma sharded_store_refines_witness :
  exists rs s', openAndUse sampleErrorType StoreSample.debug sampleTracers sampleMeters 3 StoreSample.hash
      StoreSample.resolver StoreSample.sets StoreSample.ms 0 StoreSample.noOptions sampleContext StoreSample.ops
      StoreSample.state0 = (Ok rs, s') /\
    rs = [ RAccount (Some (MkAccount 7 3 "Ada")) None; RAccount (Some (MkAccount 7 3 "Ada L.")) None;
           RAccount (Some (MkAccount 7 3 "Ada L.")) None;
           RAccount None (Some (StdError SqlErrNoRows)); RCount 1 None ].
Proof.
  destruct (sharded_store_refines sampleErrorType StoreSample.debug sampleTracers sampleMeters 3
    StoreSample.hash StoreSample.resolver StoreSample.sets StoreSample.ms StoreSample.options0 StoreSample.primaryDB 0
    StoreSample.noOptions StoreSample.state0 ∅ sampleContext StoreSample.ops)
    as (rs & s' & Hrun & Hrs & _).
  - reflexivity.
  - reflexivity.
  - reflexivity.
  - apply StoreSample.opens.
  - apply StoreSample.distinct.
  - repeat constructor; by eexists.
  - apply emptyHeap_wf.
  - intros l [w Hw]. discriminate Hw.
  - intros n _. reflexivity.
  - exists rs, s'. split; [exact Hrun|]. rewrite Hrs. vm_compute. reflexivity.
Defined.
