(* ===== verification/StoreFanout.v ===== *)
(** * StoreFanout: queries of several shards

    Lemmas about the operations that work on several replica sets at once:
    grouping inputs by set, one goroutine per set under any schedule, and
    joining what comes back. The claims are at the end. *)

From S2P Require Import Prelude Errors GoStrings Hasher Balancer Routing Telemetry CopyBatch Builder Topology OpenMesh Tasks StoreQueries Store StoreOps StoreAsync StoreBuild StoreLemmas StoreRefine MemoryDriver StoreOpen.

#[local] Open Scope Z_scope.

Section Fanout.
Context {DBTX : Type} `{!Driver DBTX} {RT : Runtime}.
Context {K Tracer Instrument Logger : Type}.
Context (ErrorType : error -> KeyValue) (DebugEnabled : Logger -> bool).
#[local] Abbreviation stateT := (storeState DBTX Tracer Instrument Logger).
#[local] Abbreviation storeM := (stE stateT error).
#[local] Abbreviation storeT := (meshStore DBTX K Tracer Instrument Logger).
#[local] Abbreviation setT := (ReplicaSet (readQueries DBTX) (queryStore DBTX)).
Implicit Types (q : storeT) (s : stateT).

(** ** Routing every key *)

Definition keyOf q (key : TenantKey) : K :=
  match shardKeyOf q (Some key) with Ok k => k | _ => ms_zero q end.

Lemma resolved_keyOf q key : resolved q key -> shardKeyOf q (Some key) = Ok (keyOf q key).
Proof. intros [k Hk]%resolved_key. unfold keyOf. by rewrite Hk. Qed.

(** The resolver returns a key whose hash is in range. *)
Definition routable q (key : TenantKey) : Prop :=
  resolved q key /\ exists shard, Resolve (ms_mesh q) (keyOf q key) = Ok shard.

(** A store on a mesh that was built. *)
Record storeWf q s : Prop := {
  sw_telemetry : telemetryOk (telemetry (ms_mesh q));
  sw_heap : heap_wf (st_heap s);
  sw_shape : meshShape q s;
}.

(** An opened store is well formed. *)
Lemma openedStore_wf count hash resolver sets ms options primaryDB q store s s' :
  openedStore ErrorType DebugEnabled count hash resolver sets ms options primaryDB q store s s' -> storeWf q s'.
Proof.
  by intros (_ & _ & _ & [Ht Hh Hr] & Hshape & _).
Qed.

Lemma openedStore_routable count hash resolver sets ms options primaryDB q store s s' key :
  openedStore ErrorType DebugEnabled count hash resolver sets ms options primaryDB q store s s' ->
  is_Some (resolver key) -> routable q key.
Proof.
  intros (_ & _ & Hq & [Ht Hh Hr] & _) Hkey. pose proof (resolver_resolves resolver q key Hq Hkey) as Hres.
  split; [done|]. destruct (Hr key _ (resolved_keyOf _ _ Hres)) as (_ & _ & shard & _ & _ & Hs & _). by exists shard.
Qed.

Lemma storeWf_frame q s s' : storeWf q s -> frame s s' -> storeWf q s'.
Proof.
  intros [Ht Hh [Hs Hb]] [[Hw He _] _ _ _ _]. split; [done|auto|]. split; [done|].
  unfold buildable, nameOf in *. by rewrite He.
Qed.

Definition shardOf q (key : TenantKey) : ResolvedShard :=
  match Resolve (ms_mesh q) (keyOf q key) with
  | Ok shard => shard
  | _ => {| rsh_virtualShardIndex := 0; rsh_replicaSet := 1%positive |}
  end.

(** The name of the set a key is routed to. *)
Definition setNameOf q s (key : TenantKey) : string :=
  default "" (nameOf (st_heap s) (rsh_replicaSet (shardOf q key))).

Lemma shardOf_spec q s key :
  storeWf q s -> routable q key ->
  Resolve (ms_mesh q) (keyOf q key) = Ok (shardOf q key) /\
  rsh_replicaSet (shardOf q key) ∈ ReplicaSets (ms_mesh q) /\
  setNamed s (rsh_replicaSet (shardOf q key)) (setNameOf q s key).
Proof.
  intros Hwf [_ [shard Hs]]. unfold shardOf, setNameOf. rewrite Hs.
  assert (Hin : rsh_replicaSet shard ∈ virtualShards (ms_mesh q)).
  { unfold Resolve in Hs. destruct (_ <=? _); [done|].
    destruct (virtualShards (ms_mesh q) !! _) as [p|] eqn:E; cbn in Hs; [|done]. injection Hs as <-.
    by eapply list_elem_of_lookup_2. }
  destruct (sw_shape _ _ Hwf) as [Hsets [Hnames _]]. split_and!; [done| |].
  - rewrite Hsets. by apply firstOccurrences_subset.
  - unfold setNamed, shardOf. rewrite Hs. destruct (Hnames _ Hin) as (n & -> & _). done.
Qed.

Lemma resolveShard_key q s key :
  storeWf q s -> routable q key -> runs (resolveShard q (Some key)) s (fun r s' => r = inr (shardOf q key) /\ s' = s).
Proof.
  intros Hwf Hkey. destruct (shardOf_spec q s key Hwf Hkey) as (Hr & _). apply (resolveShard_runs _ _ (keyOf q key)); [|done].
  apply resolved_keyOf, Hkey.
Qed.

(** The names of the physical sets, in the mesh's order. *)
Definition setNames q s : list string := (fun p => default "" (nameOf (st_heap s) p)) <$> ReplicaSets (ms_mesh q).

Lemma replicaSet_live q s p :
  storeWf q s -> p ∈ ReplicaSets (ms_mesh q) ->
  exists st rs, replicaSetsAt (st_heap s) !! p = Some st /\ set_wf (st_heap s) st rs /\
    setNamed s p (rs_name st).
Proof.
  intros Hwf Hp. destruct (sw_shape _ _ Hwf) as [Hsets [Hnames _]]. rewrite Hsets, firstOccurrences_subset in Hp.
  destruct (Hnames p Hp) as (n & Hn & _).
  unfold setNamed, nameOf in *. apply fmap_Some in Hn as (st & Hst & ->).
  destruct (wf_sets _ (sw_heap _ _ Hwf) p st Hst) as [_ [rs Hrs]]. exists st, rs. by rewrite Hst.
Qed.

Lemma setNames_NoDup q s : storeWf q s -> NoDup (setNames q s).
Proof.
  intros Hwf. pose proof (sw_shape _ _ Hwf) as [Hsets [Hnames Hinj]]. unfold setNames.
  apply NoDup_fmap_2_strong; [|rewrite Hsets; apply firstOccurrences_NoDup].
  intros p r Hp Hr E. rewrite Hsets, firstOccurrences_subset in Hp, Hr.
  destruct (Hnames p Hp) as (n & Hn & _), (Hnames r Hr) as (m & Hm & _).
  rewrite Hn, Hm in E. cbn in E. subst m. by apply (Hinj _ _ n).
Qed.

Lemma setNameOf_elem q s key : storeWf q s -> routable q key -> setNameOf q s key ∈ setNames q s.
Proof. intros Hwf Hkey. destruct (shardOf_spec q s key Hwf Hkey) as (_ & Hin & _). by apply (list_elem_of_fmap_2 (fun p => default "" (nameOf (st_heap s) p))). Qed.

(** ** Bodies that may return an error *)

Definition ends {S A} (m : stE S error A) (x : S) (QOk : A -> S -> Prop) (QErr : error -> S -> Prop) : Prop :=
  match m x with
  | (Ok a, y) => QOk a y
  | (Err e, y) => QErr e y
  | (Panic, _) => False
  end.

Lemma ends_bind {S' A B} (m : stE S' error A) (k : A -> stE S' error B) (x : S') QOk QErr :
  ends m x (fun a y => ends (k a) y QOk QErr) QErr -> ends (m ≫= k) x QOk QErr.
Proof. unfold ends, mbind, stE_bind. by destruct (m x) as [[a|e|] y]. Qed.

Lemma ends_seq {S' A B} (m : stE S' error A) (k : A -> stE S' error B) (x : S') P QOk QErr :
  runs m x P -> (forall a y, P a y -> ends (k a) y QOk QErr) -> ends (m ≫= k) x QOk QErr.
Proof. intros (a & y & Hm & HP) Hk. apply ends_bind. unfold ends at 1. rewrite Hm. by apply Hk. Qed.

Lemma ends_mono {S' A} (m : stE S' error A) (x : S') (POk QOk : A -> S' -> Prop) (PErr QErr : error -> S' -> Prop) :
  ends m x POk PErr -> (forall a y, POk a y -> QOk a y) -> (forall e y, PErr e y -> QErr e y) -> ends m x QOk QErr.
Proof. unfold ends. destruct (m x) as [[a|e|] y]; auto. Qed.

Lemma returning_runs {A} (zero : A) (m : storeM A) s Q :
  ends m s (fun a s' => Q (a, None) s') (fun e s' => Q (zero, Some e) s') -> runs (returning zero m) s Q.
Proof. unfold ends, runs, returning. destruct (m s) as [[a|e|] s']; intros H; [by eexists _, _..|done]. Qed.

(** The errors of the sets that failed. *)
Definition failures (format : string) (names : list string) (errs : list (option error)) : list error :=
  omap (fun '(n, err) => (fun e => Errorf format [AStr n] [e]) <$> err) (zip names errs).

Definition namesOf s (ps : list loc) : list string := (fun p => default "" (nameOf (st_heap s) p)) <$> ps.

Lemma replicaSetErrors_acc format ps errs s acc :
  (forall p, p ∈ ps -> is_Some (nameOf (st_heap s) p)) ->
  runs (foldM (fun acc '(p, err) =>
      match err with
      | None => mret acc
      | Some e => name ← onHeap (Name p); mret (acc ++ [Errorf format [AStr name] [e]])
      end) acc (zip ps errs)) s
    (fun l s' => s' = s /\ l = acc ++ failures format (namesOf s ps) errs).
Proof.
  revert errs acc. induction ps as [|p ps IH]; intros [|err errs] acc Hlive;
    [apply runs_ret; by rewrite app_nil_r..|]. cbn [zip zip_with foldM].
  destruct (Hlive p ltac:(left)) as [n Hn]. specialize (IH errs).
  eapply runs_seq.
  { instantiate (1 := fun l s' => s' = s /\ l = acc ++ failures format [n] [err]). destruct err as [e|].
    - eapply runs_seq; [by apply setNamed_name|]. intros ? ? [-> ->]. by apply runs_ret.
    - apply runs_ret. by rewrite app_nil_r. }
  intros ? ? [-> ->]. eapply runs_mono; [apply IH; intros p' Hp'; apply Hlive; by right|].
  intros l s' [-> ->]. split; [done|]. rewrite <- app_assoc. f_equal. unfold failures, namesOf.
  cbn [fmap list_fmap zip zip_with omap list_omap]. rewrite Hn. by destruct err.
Qed.

Lemma replicaSetErrors_runs format ps errs s :
  (forall p, p ∈ ps -> is_Some (nameOf (st_heap s) p)) ->
  runs (replicaSetErrors format ps errs) s (fun l s' => s' = s /\ l = failures format (namesOf s ps) errs).
Proof. apply replicaSetErrors_acc. Qed.

Lemma failJoined_ends {B} errs (k : unit -> storeM B) s QOk QErr :
  match errorsJoin errs with
  | None => ends (k tt) s QOk QErr
  | Some e => QErr e s
  end -> ends (failJoined errs ≫= k) s QOk QErr.
Proof. unfold failJoined. by destruct (errorsJoin errs). Qed.

Lemma replicaSets_named q s p : storeWf q s -> p ∈ ReplicaSets (ms_mesh q) -> is_Some (nameOf (st_heap s) p).
Proof. intros Hwf Hp. destruct (replicaSet_live q s p Hwf Hp) as (st & rs & _ & _ & Hn). by eexists. Qed.

(** ** Goroutines *)

(** The calls, each with the calls made before it: what the driver answers from. *)
Definition history (calls : list (dbCall DBTX)) : list (list (dbCall DBTX) * dbCall DBTX) :=
  imap (fun i c => (take i calls, c)) calls.
#[local] Abbreviation entries := (list (list (dbCall DBTX) * dbCall DBTX)).
#[local] Abbreviation historyOf := (fun x : stateT => history (st_calls x)).

Lemma history_snoc calls c : history (calls ++ [c]) = history calls ++ [(calls, c)].
Proof.
  unfold history. rewrite imap_app. cbn [imap]. rewrite Nat.add_0_r, take_app_length. f_equal.
  apply imap_ext. intros i x Hi. apply lookup_lt_Some in Hi. by rewrite take_app_le by lia.
Qed.

(** A call to the driver: one entry, answered from its history. *)
Lemma dbAnswer_does {A} c (f : list (dbCall DBTX) -> A) :
  does history (fun _ => True) (fun a l => exists hist, l = [(hist, c)] /\ a = f hist) (dbAnswer c f).
Proof. apply does_act. intros calls _. eexists _, _, _. split_and!; [done..|apply history_snoc|]. by exists calls. Qed.

(** What goroutines of one query rely on and keep. *)
Record shared q (id : nat) (s0 s : stateT) : Prop := {
  sh_wf : storeWf q s;
  sh_span : spanLive id s;
  sh_heap : heapLe (st_heap s0) (st_heap s);
}.

Lemma shared_frame q id s0 s s' : shared q id s0 s -> frame s s' -> shared q id s0 s'.
Proof.
  intros [H1 H2 H3] Hf. split; [by eapply storeWf_frame|by apply (fr_live _ _ Hf)|].
  etrans; [done|]. apply Hf.
Qed.

Lemma shared_setCalls q id s0 s c : shared q id s0 s -> shared q id s0 (setCalls c s).
Proof. by intros [[? ? [? ?]] H2 H3]. Qed.

(** One action that leaves the calls alone. *)
Lemma does_step {A B} (m : storeM A) (k : A -> task stateT B) q id s0 (Q : A -> Prop) (P : B -> entries -> Prop) :
  (forall s, shared q id s0 s -> runs m s (fun a s' => frame s s' /\ Q a)) ->
  (forall a, Q a -> does historyOf (shared q id s0) P (k a)) ->
  does historyOf (shared q id s0) P (act m ≫= k).
Proof.
  intros Hm Hk. eapply does_bind.
  - apply (does_act _ _ (fun a l => l = [] /\ Q a)). intros s Hs.
    destruct (Hm s Hs) as (a & s' & E & Hf & HQ). exists a, s', []. rewrite app_nil_r.
    split_and!; [done|by eapply shared_frame|by rewrite (fr_calls _ _ Hf)|done..].
  - intros a l [-> HQ]. by apply Hk.
Qed.

(** A database call, by what it does to the calls. *)
Lemma does_db {A B} (t : task (list (dbCall DBTX)) A) (k : A -> task stateT B) q id s0 (Q : A -> entries -> Prop) (P : B -> entries -> Prop) :
  does history (fun _ => True) Q t ->
  (forall a l, Q a l -> does historyOf (shared q id s0) (fun b l' => P b (l ++ l')) (k a)) ->
  does historyOf (shared q id s0) P (onDB t ≫= k).
Proof.
  intros Ht Hk. eapply does_bind; [|exact Hk].
  apply (does_zoom st_calls setCalls (fun _ _ => eq_refl) history); [|done].
  intros s c. apply shared_setCalls.
Qed.

(** The end of a goroutine: its physical span. *)
Lemma does_finish {A} (r : A * option error) physical q id s0 (P : A * option error -> entries -> Prop) :
  physicalOk physical -> P r [] ->
  does historyOf (shared q id s0) P (_ ← act (endPhysical ErrorType DebugEnabled physical r.2); mret r).
Proof.
  intros Hph HP. apply (does_step _ _ _ _ _ (fun _ => True)); [|by intros]. intros s Hs.
  eapply runs_mono; [by apply endPhysical_runs|]. by intros.
Qed.

(** ** Reading every set *)

(** What a reader makes of the driver's answer to a query of many rows. *)
Definition manyAnswer (a : error + pgxRows) : list (option Account) * option error :=
  match a with
  | inl e => ([], Some e)
  | inr rows =>
      let '(items, err) := scanAccounts [] (rows_items rows) (rows_Err rows) in
      match err with Some e => ([], Some e) | None => (items, None) end
  end.

(** [target] is a reader the set [p] may be read from. *)
Definition readable (options : queryOptions DBTX) s p target : Prop :=
  exists st rs, replicaSetsAt (st_heap s) !! p = Some st /\ set_wf (st_heap s) st rs /\
    readTarget options st rs target.

(** A query made one call and returned what the driver answered. *)
Definition askedMany (sql : string) (args : list value) (target : readQueries DBTX)
    (r : list (option Account) * option error) (l : entries) : Prop :=
  exists hist ctx, l = [(hist, CallQuery (db (rq_main target)) sql args)] /\
    r = manyAnswer (drv_Query hist ctx (db (rq_main target)) sql args).

(** The body both queries of many rows have. *)
Lemma asked_does sql args target ctx :
  does history (fun _ => True) (askedMany sql args target)
    ('(rv0, err) ← (r ← db_Query ctx (db (rq_main target)) sql args;
       match r with
       | inl e => mret ([], Some e)
       | inr rows => mret (scanAccounts [] (rows_items rows) (rows_Err rows))
       end);
     match err with Some e => mret ([], Some e) | None => mret (rv0, None) end).
Proof.
  eapply (does_bind _ _ (fun r l => exists hist, l = [(hist, CallQuery (db (rq_main target)) sql args)] /\
    r = match drv_Query hist ctx (db (rq_main target)) sql args with
        | inl e => ([], Some e)
        | inr rows => scanAccounts [] (rows_items rows) (rows_Err rows)
        end)).
  - eapply does_bind; [apply dbAnswer_does|]. intros a l (hist & -> & ->).
    destruct (drv_Query hist ctx _ sql args) as [e|rows] eqn:E; exists hist; by rewrite E.
  - intros [items err] l (hist & -> & Hr). unfold askedMany, manyAnswer.
    destruct err as [e|]; exists hist, ctx; (split; [done|]);
      destruct (drv_Query hist ctx _ sql args) as [e'|rows]; by simplify_eq || by rewrite <- Hr.
Qed.

Lemma listAllTask_does q id s0 ctx options mode p :
  storeWf q s0 -> p ∈ ReplicaSets (ms_mesh q) -> qo_tx options = None ->
  does historyOf (shared q id s0)
    (fun r l => exists target, readable options s0 p target /\ askedMany listAllAccounts [] target r l)
    (listAllTask ErrorType DebugEnabled id ctx (qo_primary options) mode p).
Proof.
  intros Hwf Hp Htx. destruct (replicaSet_live q s0 p Hwf Hp) as (st & rs & Hst & Hrs & _).
  assert (Hread : forall (route : readQueries DBTX) meta, readTarget options st rs route ->
    does historyOf (shared q id s0)
      (fun r l => exists target, readable options s0 p target /\ askedMany listAllAccounts [] target r l)
      ('(queryCtx, physical) ← act (startPhysical id ctx meta mode);
       r ← onDB (readQueries_ListAllAccounts route queryCtx);
       _ ← act (endPhysical ErrorType DebugEnabled physical r.2);
       mret r)).
  { intros target meta Ht. apply (does_step _ _ _ _ _ (fun r => physicalOk r.2)).
    { intros s Hs. eapply runs_mono; [apply startPhysical_runs, Hs|]. by intros r s' [? ?]. }
    intros [queryCtx physical] Hph. eapply does_db; [exact (asked_does listAllAccounts [] target queryCtx)|]. intros r l Hl.
    apply does_finish; [done|]. exists target. rewrite app_nil_r. split; [|done]. by exists st, rs. }
  unfold listAllTask. destruct (qo_primary options) eqn:Hpr.
  - apply (does_step _ _ _ _ _ (fun r => Target r = WithMirrors (Writer (primary st)) (writeMirrors st))).
    { intros s [_ _ Hle]. eapply runs_mono; [apply onHeap_runs, (WriteRoute_le p st); by rewrite (hle_sets _ _ Hle)|].
      intros r s' [[Hh ->] [h ->]]. cbn in Hh. subst h. split; [by apply frame_setHeap|done]. }
    intros r ->. apply Hread. unfold readTarget. by rewrite Htx, Hpr.
  - apply (does_step _ _ _ _ _ (fun r => Target r ∈ (nt_value <$> readTargetsOf (primary st) rs))).
    { intros s [Hw _ [_ Hle Hset]]. eapply runs_mono.
      - apply onHeap_runs, (ReadRoute_le p st _ rs); [apply Hw|by rewrite Hle|by apply Hset].
      - intros r s' [[Hh Ht] [h ->]]. split; [by apply frame_setHeap|done]. }
    intros r Hr. apply Hread. unfold readTarget. by rewrite Htx, Hpr.
Qed.

(** Goroutines over a list, each by its own specification. *)
Lemma wait_list {X A} (xs : list X) (t : X -> task stateT A) (P : X -> A -> entries -> Prop) q id s0 schedule s :
  (forall x, x ∈ xs -> does historyOf (shared q id s0) (P x) (t x)) -> shared q id s0 s ->
  runs (wait schedule (t <$> xs)) s (fun vs s' => shared q id s0 s' /\ exists ls,
    historyOf s' ≡ₚ historyOf s ++ concat ls /\ Forall3 (fun x l a => P x a l) xs ls vs).
Proof.
  intros Ht Hs. destruct (wait_does historyOf (shared q id s0) (P <$> xs) schedule (t <$> xs) s)
    as (vs & s' & ls & E & Hs' & Hc & Hall); [|done|].
  - apply Forall2_fmap_2, Forall_Forall2_diag, Forall_forall. exact Ht.
  - exists vs, s'. split; [done|]. split; [done|]. exists ls. split; [done|].
    clear -Hall. remember (P <$> xs) as Ps eqn:HP. revert xs HP. induction Hall; intros [|u us] HP; simplify_eq/=; constructor; auto.
Qed.

Lemma namesOf_shared q id s0 s ps : shared q id s0 s -> namesOf s ps = namesOf s0 ps.
Proof. intros [_ _ [_ He _]]. unfold namesOf, nameOf. by rewrite He. Qed.

(** What a query of several shards leaves alone. *)
Definition storeKept q s s' : Prop := storeWf q s' /\ heapLe (st_heap s) (st_heap s').

(** The start of every query of several shards, its body and its end. *)
Lemma fanned_runs {A} (zero : A) sn qn kind q ctx s (body : Context -> nat -> storeM A) Q :
  storeWf q s ->
  (forall ctx' id s1, shared q id s s1 -> st_calls s1 = st_calls s ->
     ends (body ctx' id) s1
       (fun a s2 => shared q id s s2 /\ forall s3, st_calls s3 = st_calls s2 -> Q (a, None) s3)
       (fun e s2 => shared q id s s2 /\ forall s3, st_calls s3 = st_calls s2 -> Q (zero, Some e) s3)) ->
  runs ('(ctx, querySpan) ← startLogical q ctx sn qn kind;
        deferred (endLogical ErrorType DebugEnabled querySpan) (returning zero (body ctx querySpan))) s
    (fun r s' => storeKept q s s' /\ Q r s').
Proof.
  intros Hwf Hbody. eapply runs_seq; [by apply startLogical_runs, sw_telemetry with (s := s)|].
  intros [ctx' id] s1 (_ & Hid & H1). cbn [fst snd] in *. apply deferred_runs, returning_runs.
  assert (Hsh : shared q id s s1) by (split; [by eapply storeWf_frame|done|apply H1]).
  specialize (Hbody ctx' id s1 Hsh (fr_calls _ _ H1)). unfold ends in *.
  destruct (body ctx' id s1) as [[a|e|] s2]; [| |done]; destruct Hbody as [Hs2 HQ];
    (eapply runs_mono; [apply endLogical_runs, Hs2|]; intros ? s3 H3; split; [|apply HQ; apply H3];
     split; [eapply storeWf_frame; [apply Hs2|done]|etrans; [apply Hs2|apply H3]]).
Qed.

Lemma fanned_post {A} (zero : A) sn qn kind q ctx s (body : Context -> nat -> storeM A) (Q : A * option error -> stateT -> Prop) :
  storeWf q s ->
  (forall ctx' id s1, shared q id s s1 -> st_calls s1 = st_calls s ->
     ends (body ctx' id) s1
       (fun a s2 => shared q id s s2 /\ forall s3, st_calls s3 = st_calls s2 -> Q (a, None) s3)
       (fun e s2 => shared q id s s2 /\ forall s3, st_calls s3 = st_calls s2 -> Q (zero, Some e) s3)) ->
  runs ('(ctx, querySpan) ← startLogical q ctx sn qn kind;
        deferred (endLogical ErrorType DebugEnabled querySpan) (returning zero (body ctx querySpan))) s Q.
Proof. intros Hwf Hbody. eapply runs_mono; [by apply fanned_runs|]. by intros r s' [_ H]. Qed.

Lemma shared_setRoute q id s0 s mode n :
  shared q id s0 s -> runs (setRoute id mode n) s (fun _ s' => shared q id s0 s' /\ st_calls s' = st_calls s).
Proof.
  intros Hs. eapply runs_mono; [apply setRoute_runs, Hs|]. intros ? s' Hf.
  split; [by eapply shared_frame|apply Hf].
Qed.

Lemma shared_schedule q id s0 s :
  shared q id s0 s -> runs nextSchedule s (fun _ s' => shared q id s0 s' /\ st_calls s' = st_calls s).
Proof.
  intros Hs. eapply runs_mono; [apply nextSchedule_runs|]. intros ? s' Hf.
  split; [by eapply shared_frame|apply Hf].
Qed.

(** The result of a query whose sets returned [results]. *)
Definition joinResults {A} (zero : A) (ok : list (A * option error) -> A) (format : string) (names : list string)
    (results : list (A * option error)) : A * option error :=
  match errorsJoin (failures format names (snd <$> results)) with
  | Some e => (zero, Some e)
  | None => (ok results, None)
  end.

(** What reading all shards returns and asks. *)
Definition listedAll q s (options : queryOptions DBTX) (r : list (option Account) * option error) s' : Prop :=
  if isSome (qo_tx options) then r = ([], Some (Sentinel ErrCrossShardTransaction)) /\ st_calls s' = st_calls s
  else exists asked results,
    history (st_calls s') ≡ₚ history (st_calls s) ++ concat asked /\
    Forall3 (fun p l result => exists target, readable options s p target /\
      askedMany listAllAccounts [] target result l) (ReplicaSets (ms_mesh q)) asked results /\
    r = joinResults [] (fun results => concat (fst <$> results))
          "query ListAllAccounts on replica set %q: %w" (setNames q s) results.

Lemma ListAllAccounts_runs q s ctx opts :
  storeWf q s ->
  runs (ListAllAccounts ErrorType DebugEnabled q ctx opts) s (fun r s' =>
    storeKept q s s' /\ listedAll q s (applyQueryOptions opts) r s').
Proof.
  intros Hwf. unfold ListAllAccounts, listedAll. set (options := applyQueryOptions opts). apply (fanned_runs [] _ _ _ _ _ _ _ _ Hwf).
  intros ctx' id s1 Hs1 Hc1. fold options. destruct (isSome (qo_tx options)) eqn:Htx.
  - eapply ends_seq; [by apply shared_setRoute|]. intros ? s2 [Hs2 Hc2]. split; [done|].
    intros s3 ->. by rewrite Hc2.
  - assert (Htx' : qo_tx options = None) by by destruct (qo_tx options).
    eapply ends_seq; [by apply shared_setRoute|]. intros ? s2 [Hs2 Hc2].
    eapply ends_seq; [by apply shared_schedule|]. intros schedule s3 [Hs3 Hc3].
    eapply ends_seq; [eapply wait_list; [|exact Hs3]; intros p Hp; by apply listAllTask_does|].
    intros vs s4 (Hs4 & ls & Hc4 & Hall). cbn beta in Hc4. rewrite Hc3, Hc2, Hc1 in Hc4.
    eapply ends_seq; [apply replicaSetErrors_runs; intros p; apply (replicaSets_named q s4), Hs4|].
    intros ? ? [-> ->]. rewrite (namesOf_shared _ _ _ _ _ Hs4). apply failJoined_ends.
    unfold joinResults. change (setNames q s) with (namesOf s (ReplicaSets (ms_mesh q))).
    destruct (errorsJoin (failures _ _ _)) as [e|] eqn:He; (split; [done|]; intros s5 ->; exists ls, vs; by rewrite He).
Qed.

(** C13: Reading all shards. Whatever the order in which the goroutines run,
    ListAllAccounts never panics and asks one reader of every physical replica
    set (the primary's when the options ask for it, else one of its read
    targets) exactly once, and nothing else. When all of them answer, the
    result is the concatenation of their rows in the order of the replica sets;
    otherwise it is empty and the error joins the errors of exactly the sets
    that failed, in order and with their names. In a transaction it fails with
    ErrCrossShardTransaction and asks no database. *)
Theorem list_all_accounts_correct q s ctx opts :
  storeWf q s ->
  let options := applyQueryOptions opts in
  exists r s', ListAllAccounts ErrorType DebugEnabled q ctx opts s = (Ok r, s') /\
  if isSome (qo_tx options) then r = ([], Some (Sentinel ErrCrossShardTransaction)) /\ st_calls s' = st_calls s
  else exists asked results,
    history (st_calls s') ≡ₚ history (st_calls s) ++ concat asked /\
    Forall3 (fun p l result => exists target, readable options s p target /\
      askedMany listAllAccounts [] target result l) (ReplicaSets (ms_mesh q)) asked results /\
    r = joinResults [] (fun results => concat (fst <$> results))
          "query ListAllAccounts on replica set %q: %w" (setNames q s) results.
Proof.
  intros Hwf options. destruct (ListAllAccounts_runs q s ctx opts Hwf) as (r & s' & Hrun & _ & Hr). by exists r, s'.
Qed.

(** ** Copying rows to their shards *)

End Fanout.

(** ** An opened store to try the operations on *)

Module FanoutSample.
#[local] Existing Instance StoreSample.runtime.

Definition errorType := sampleErrorType.
Definition debug := StoreSample.debug.

(** The databases already have two accounts. *)
Definition seeded : storeState nat nat string unit :=
  setCalls [CallCopyFrom 2%nat ["accounts"] [] [[VInt64 5; VInt64 4; VText "Alan"]];
            CallCopyFrom 1%nat ["accounts"] [] [[VInt64 6; VInt64 3; VText "Barbara"]]] StoreSample.state0.

(** The store of [StoreSample]'s topology with the state after it was opened. *)
Definition opened : option (meshStore nat Z nat string unit * storeState nat nat string unit) :=
  match sharded_buildStore errorType debug sampleTracers sampleMeters 0
          (Ok (topology 3 StoreSample.hash StoreSample.resolver StoreSample.sets StoreSample.ms)) StoreSample.options0
          seeded with
  | (Ok (q, _), s) => Some (q, s)
  | _ => None
  end.

Lemma opened_spec : exists q s store, opened = Some (q, s) /\
  openedStore errorType debug 3 StoreSample.hash StoreSample.resolver StoreSample.sets StoreSample.ms StoreSample.options0
    StoreSample.primaryDB q store seeded s.
Proof.
  destruct (sharded_opens errorType debug sampleTracers sampleMeters 3 StoreSample.hash StoreSample.resolver StoreSample.sets
    StoreSample.ms StoreSample.options0 StoreSample.primaryDB 0 seeded StoreSample.opens emptyHeap_wf)
    as ([q store] & s & E & Hop).
  - intros l [w Hw]. discriminate Hw.
  - exists q, s, store. split; [unfold opened; by rewrite E|done].
Qed.

Lemma opened_wf : exists q s, opened = Some (q, s) /\ storeWf q s.
Proof.
  destruct opened_spec as (q & s & store & E & Hop). exists q, s. split; [done|]. by eapply openedStore_wf.
Qed.

Lemma opened_routable : exists q s, opened = Some (q, s) /\ storeWf q s /\ forall key, routable q key.
Proof.
  destruct opened_spec as (q & s & store & E & Hop). exists q, s. split; [done|]. split; [by eapply openedStore_wf|].
  intros key. eapply openedStore_routable; [exact Hop|by eexists].
Qed.

Definition account (tenant id : Z) (name : string) : CopyAccountsT := MkCopyAccountsT (MkTenantKey tenant) id name.
Definition rows : list CopyAccountsT := [account 3 7 "Ada"; account 4 8 "Grace"; account 5 9 "Edsger"].
End FanoutSample.

#[local] Existing Instance StoreSample.runtime.

Lemma list_all_accounts_correct_witness :
  exists q s, FanoutSample.opened = Some (q, s) /\
    (exists r s', ListAllAccounts FanoutSample.errorType FanoutSample.debug q sampleContext [ReadFromPrimary] s = (Ok r, s') /\
      r = ([Some (MkAccount 6 3 "Barbara"); Some (MkAccount 5 4 "Alan")], None)) /\
    length (ReplicaSets (ms_mesh q)) = 2%nat.
Proof.
  destruct FanoutSample.opened_wf as (q & s & E & Hwf). exists q, s. split; [exact E|].
  assert (H : match FanoutSample.opened with
    | Some (q, s) => ReplicaSets (ms_mesh q) = [5%positive; 6%positive] /\
        (ListAllAccounts FanoutSample.errorType FanoutSample.debug q sampleContext [ReadFromPrimary] s).1 = Ok ([Some (MkAccount 6 3 "Barbara"); Some (MkAccount 5 4 "Alan")], None)
    | None => False end) by (vm_compute; auto).
  rewrite E in H. destruct H as [Hsets Hr]. split; [|by rewrite Hsets].
  destruct (list_all_accounts_correct FanoutSample.errorType FanoutSample.debug q s sampleContext [ReadFromPrimary] Hwf)
    as (r & s' & Hrun & _).
  exists r, s'. split; [exact Hrun|]. rewrite Hrun in Hr. by injection Hr.
Defined.
