(* ===== verification/StoreCopy.v ===== *)
(** * StoreCopy: copying rows to their shards

    CopyAccounts groups its rows by replica set, copies each group to the set's
    primary and the primary's mirrors in a goroutine of its own, and joins what
    comes back. This file says what a mirrored write does for any answers of the
    driver, what the groups are, and what CopyAccounts does under every
    schedule. The lemmas on grouping are also those of the other operations
    that group. *)

From S2P Require Import Prelude Errors GoStrings Hasher Balancer Routing Telemetry CopyBatch Builder Topology OpenMesh Tasks StoreQueries Store StoreOps StoreAsync StoreBuild StoreLemmas StoreRefine MemoryDriver StoreOpen StoreFanout.

#[local] Open Scope Z_scope.

(** ** Grouping a list by name *)

Section Grouping.
Context {X G : Type} (nameFor : X -> string).

Definition partOf (xs : list X) (n : string) : list X := filter (fun x => nameFor x = n) xs.

(** The parts that are not empty, in the order of [names]. *)
Definition planOf (names : list string) (xs : list X) : list (string * list X) :=
  filter (fun part => part.2 <> []) ((fun n => (n, partOf xs n)) <$> names).

Lemma concat_fmap_app {B} (f g : string -> list B) names :
  concat ((fun n => f n ++ g n) <$> names) ≡ₚ concat (f <$> names) ++ concat (g <$> names).
Proof.
  induction names as [|n names IH]; [done|]. cbn. rewrite IH, <- !app_assoc. f_equiv.
  rewrite !app_assoc. f_equiv. apply Permutation_app_comm.
Qed.

Lemma concat_one (x : X) names :
  NoDup names -> nameFor x ∈ names ->
  concat ((fun n => if decide (nameFor x = n) then [x] else []) <$> names) = [x].
Proof.
  intros Hnd Hin. induction Hnd as [|n names Hn _ IH]; [by apply elem_of_nil in Hin|]. cbn.
  destruct (decide (nameFor x = n)) as [<-|Hne].
  - assert (concat ((fun n => if decide (nameFor x = n) then [x] else []) <$> names) = []) as ->; [|done].
    clear IH Hin. induction names as [|m names IH]; [done|]. cbn. apply not_elem_of_cons in Hn as [Hne Hn].
    rewrite decide_False by done. by apply IH.
  - apply elem_of_cons in Hin as [?|Hin]; [done|]. by apply IH.
Qed.

(** Nothing is lost and nothing is doubled. *)
Lemma parts_permutation names xs :
  NoDup names -> (forall x, x ∈ xs -> nameFor x ∈ names) -> concat (partOf xs <$> names) ≡ₚ xs.
Proof.
  intros Hnd. induction xs as [|x xs IH]; intros Hin.
  - induction names as [|n names IHn]; [done|]. cbn. apply IHn; [by apply NoDup_cons in Hnd as [_ ?]|by intros y ?%elem_of_nil].
  - rewrite <- (IH (fun y Hy => Hin y (list_elem_of_further _ _ _ Hy))) at 2.
    assert (partOf (x :: xs) <$> names =
      (fun n => (if decide (nameFor x = n) then [x] else []) ++ partOf xs n) <$> names) as ->.
    + apply list_fmap_ext. intros i n _. unfold partOf.
      rewrite filter_cons. by destruct (decide (nameFor x = n)).
    + rewrite concat_fmap_app, concat_one; [done..|]. apply Hin. left.
Qed.

Lemma planOf_concat names xs : concat (snd <$> planOf names xs) = concat (partOf xs <$> names).
Proof.
  unfold planOf. induction names as [|n names IH]; [done|]. cbn [fmap list_fmap concat]. rewrite filter_cons. cbn [snd].
  destruct (decide (partOf xs n <> [])) as [H|H]; cbn; rewrite IH; [done|].
  destruct (partOf xs n); [done|]. by destruct H.
Qed.

Lemma planOf_permutation names xs :
  NoDup names -> (forall x, x ∈ xs -> nameFor x ∈ names) -> concat (snd <$> planOf names xs) ≡ₚ xs.
Proof. intros. rewrite planOf_concat. by apply parts_permutation. Qed.

(** A map from names to groups that fits the parts gives the groups of the plan. *)
Lemma planOf_groups (ok : string -> list X -> G -> Prop) (groups : gmap string G) names xs :
  (forall n, match groups !! n with
             | None => partOf xs n = []
             | Some g => partOf xs n <> [] /\ ok n (partOf xs n) g
             end) ->
  Forall2 (fun part g => ok part.1 part.2 g) (planOf names xs) (omap (groups !!.) names).
Proof.
  intros Hok. unfold planOf. induction names as [|n names IH]; [constructor|].
  cbn [fmap list_fmap]. rewrite filter_cons. cbn [snd omap list_omap]. specialize (Hok n).
  destruct (groups !! n) as [g|]; [destruct Hok as [Hne Hg]|].
  - rewrite decide_True by done. by constructor.
  - rewrite decide_False by (rewrite Hok; by intros []). done.
Qed.

Lemma partOf_snoc xs x n :
  partOf (xs ++ [x]) n = if decide (nameFor x = n) then partOf xs n ++ [x] else partOf xs n.
Proof.
  unfold partOf. rewrite filter_app, filter_cons, filter_nil.
  destruct (decide (nameFor x = n)); [done|]. by rewrite app_nil_r.
Qed.

End Grouping.

Section Copy.
Context {DBTX : Type} `{!Driver DBTX} {RT : Runtime}.
Context {K Tracer Instrument Logger : Type}.
Context (ErrorType : error -> KeyValue) (DebugEnabled : Logger -> bool).
#[local] Abbreviation stateT := (storeState DBTX Tracer Instrument Logger).
#[local] Abbreviation storeM := (stE stateT error).
#[local] Abbreviation storeT := (meshStore DBTX K Tracer Instrument Logger).
#[local] Abbreviation setT := (ReplicaSet (readQueries DBTX) (queryStore DBTX)).
#[local] Abbreviation entries := (list (list (dbCall DBTX) * dbCall DBTX)).
#[local] Abbreviation historyOf := (fun x : stateT => history (st_calls x)).
Implicit Types (q : storeT) (s : stateT).

(** ** Mirrored writes *)

(** The mirrors in order: a missing row is no error, another error ends it. *)
Fixpoint mirrorRun (call : Queries DBTX -> dbCall DBTX) (answer : list (dbCall DBTX) -> Queries DBTX -> option error)
    (mirrors : list (Queries DBTX)) (err : option error) (l : entries) : Prop :=
  match mirrors with
  | [] => err = None /\ l = []
  | m :: mirrors => exists hist rest, l = (hist, call m) :: rest /\
      match answer hist m with
      | Some e => if errorsIsStd e SqlErrNoRows then mirrorRun call answer mirrors err rest
                  else err = Some e /\ rest = []
      | None => mirrorRun call answer mirrors err rest
      end
  end.

Lemma mirrorLoop_does call answer fn mirrors :
  (forall m, does history (fun _ => True) (fun e l => exists hist, l = [(hist, call m)] /\ e = answer hist m) (fn m)) ->
  does history (fun _ => True) (mirrorRun call answer mirrors) (mirrorLoop mirrors fn).
Proof.
  intros Hfn. induction mirrors as [|m mirrors IH]; [done|]. cbn [mirrorLoop].
  eapply does_bind; [apply Hfn|]. intros err l (hist & -> & ->).
  destruct (answer hist m) as [e|] eqn:E; [destruct (errorsIsStd e SqlErrNoRows) eqn:Hn|].
  - eapply does_mono; [exact IH|]. intros err rest Hrest. exists hist, rest. rewrite E, Hn. done.
  - exists hist, []. by rewrite E, Hn.
  - eapply does_mono; [exact IH|]. intros err rest Hrest. exists hist, rest. by rewrite E.
Qed.

(** A write through a writer: the primary first; its error ends it with the zero
    value, else the mirrors follow and the primary's value is kept beside a
    mirror's error. *)
Definition writeRun {A} (zero : A) (call : Queries DBTX -> dbCall DBTX)
    (answer : list (dbCall DBTX) -> Queries DBTX -> A * option error)
    (target : writeQueries DBTX) (r : A * option error) (l : entries) : Prop :=
  exists hist rest, l = (hist, call (wq_main target)) :: rest /\
    match answer hist (wq_main target) with
    | (_, Some e) => r = (zero, Some e) /\ rest = []
    | (a, None) => r.1 = a /\
        mirrorRun call (fun hist m => (answer hist m).2) (wq_mirrors target) r.2 rest
    end.

(** The body of every write wrapper. *)
Lemma writeRun_does {A} (zero : A) call answer target (query : Queries DBTX -> task (list (dbCall DBTX)) (A * option error)) :
  (forall m, does history (fun _ => True) (fun r l => exists hist, l = [(hist, call m)] /\ r = answer hist m) (query m)) ->
  does history (fun _ => True) (writeRun zero call answer target)
    ('(rv0, err) ← query (wq_main target);
     match err with
     | Some e => mret (zero, Some e)
     | None =>
         mirrorErr ← writeQueries_mirror target (fun mirror => '(_, err) ← query mirror; mret err);
         mret (rv0, mirrorErr)
     end).
Proof.
  intros Hq. eapply does_bind; [apply Hq|]. intros [a err] l (hist & -> & Hr).
  destruct err as [e|]; [exists hist, []; rewrite <- Hr; done|].
  eapply does_bind.
  { apply (mirrorLoop_does call (fun hist m => (answer hist m).2)). intros m.
    eapply does_bind; [apply Hq|]. intros [a' err'] l (hist' & -> & Hr'). exists hist'. by rewrite <- Hr'. }
  intros mirrorErr rest Hrest. exists hist, rest. rewrite <- Hr, app_nil_r. done.
Qed.

(** One COPY of [arg]. *)
Definition copyCall (arg : list CopyAccountsParams) (m : Queries DBTX) : dbCall DBTX :=
  CallCopyFrom (db m) ["accounts"] ["id"; "tenant_id"; "display_name"] (copyRow <$> arg).
Definition copyAnswer (ctx : Context) (arg : list CopyAccountsParams) (hist : list (dbCall DBTX)) (m : Queries DBTX)
    : Z * option error :=
  drv_CopyFrom hist ctx (db m) ["accounts"] ["id"; "tenant_id"; "display_name"] (copyRow <$> arg).

Definition copyRun (ctx : Context) (arg : list CopyAccountsParams) : writeQueries DBTX -> Z * option error -> entries -> Prop :=
  writeRun 0 (copyCall arg) (copyAnswer ctx arg).

Lemma Queries_copy_does m ctx arg :
  does history (fun _ => True) (fun r l => exists hist, l = [(hist, copyCall arg m)] /\ r = copyAnswer ctx arg hist m)
    (Queries_CopyAccounts m ctx arg).
Proof.
  unfold Queries_CopyAccounts, db_CopyFrom. cbn [it_rows]. rewrite drain_all.
  eapply (does_bind _ _ (fun rows l => rows = copyRow <$> arg /\ l = [])).
  - apply does_act. intros calls _. eexists _, calls, []. by rewrite app_nil_r.
  - intros rows l [-> ->]. apply dbAnswer_does.
Qed.

Lemma writeQueries_copy_does target ctx arg :
  does history (fun _ => True) (copyRun ctx arg target) (writeQueries_CopyAccounts target ctx arg).
Proof. apply (writeRun_does 0 _ _ target (fun m => Queries_CopyAccounts m ctx arg)). intros m. apply Queries_copy_does. Qed.

(** ** The groups of a list of rows *)

Definition rowSet q s (row : CopyAccountsT) : string := setNameOf q s (cat_TenantKey row).

(** The sets that get rows, in the mesh's order, each with its rows in input order. *)
Definition copyPlan q s (rows : list CopyAccountsT) : list (string * list CopyAccountsT) :=
  planOf (rowSet q s) (setNames q s) rows.

(** A shard of the mesh whose set is called [n]. *)
Definition shardNamed q s (shard : ResolvedShard) (n : string) : Prop :=
  rsh_replicaSet shard ∈ ReplicaSets (ms_mesh q) /\ setNamed s (rsh_replicaSet shard) n.

Definition copyGroupOk q s (n : string) (part : list CopyAccountsT) (g : copyShardGroup) : Prop :=
  csg_args g = CopyAccountsT_sqlcParams <$> part /\ shardNamed q s (csg_shard g) n.

Definition copyGrouped q s (rows : list CopyAccountsT) (groups : gmap string copyShardGroup) : Prop :=
  forall n, match groups !! n with
            | None => partOf (rowSet q s) rows n = []
            | Some g => partOf (rowSet q s) rows n <> [] /\ copyGroupOk q s n (partOf (rowSet q s) rows n) g
            end.

(** Every row has a key that can be routed. *)
Definition rowsRoutable q (rows : list CopyAccountsT) : Prop := Forall (fun row => routable q (cat_TenantKey row)) rows.

Lemma addCopyRow_runs format q s rows groups i row :
  storeWf q s -> routable q (cat_TenantKey row) -> copyGrouped q s rows groups ->
  runs (addCopyRow format q groups (i, Some row)) s (fun groups' s' => s' = s /\ copyGrouped q s (rows ++ [row]) groups').
Proof.
  intros Hwf Hkey Hg. destruct (shardOf_spec q s (cat_TenantKey row) Hwf Hkey) as (_ & Hin & Hname).
  unfold addCopyRow. cbn [fmap option_fmap option_map].
  eapply runs_seq; [by apply resolveShard_key|]. intros ? ? [-> ->].
  eapply runs_seq; [by apply setNamed_name|]. intros ? ? [-> ->].
  eapply (runs_seq _ _ _ (fun p s' => p = CopyAccountsT_sqlcParams row /\ s' = s)); [by eexists _, _|].
  intros ? ? [-> ->]. apply runs_ret. split; [done|]. intros n. rewrite partOf_snoc.
  fold (rowSet q s row) in *. destruct (decide (rowSet q s row = n)) as [<-|Hne].
  - rewrite lookup_insert_eq. split; [by destruct (partOf _ _ _)|]. specialize (Hg (rowSet q s row)).
    destruct (groups !! rowSet q s row) as [g|]; cbn [default csg_args csg_shard from_option].
    + destruct Hg as [_ [Ha Hs]]. split; [cbn; by rewrite Ha, fmap_app|done].
    + rewrite Hg. by split.
  - rewrite lookup_insert_ne by done. apply Hg.
Qed.

Lemma addCopyRows_runs format q s xs rows more groups :
  storeWf q s -> rowsRoutable q more -> copyGrouped q s rows groups -> snd <$> xs = Some <$> more ->
  runs (foldM (addCopyRow format q) groups xs) s (fun groups' s' => s' = s /\ copyGrouped q s (rows ++ more) groups').
Proof.
  intros Hwf. revert rows more groups. induction xs as [|[i o] xs IH]; intros rows [|row more] groups Hkeys Hg E; [|done..|].
  - apply runs_ret. by rewrite app_nil_r.
  - injection E as -> E. apply Forall_cons in Hkeys as [Hkey Hkeys]. cbn [foldM]. eapply runs_seq; [by apply addCopyRow_runs|]. intros groups' ? [-> Hg'].
    eapply runs_mono; [by apply (IH (rows ++ [row]) more)|]. intros ? ? [-> H]. by rewrite <- app_assoc in H.
Qed.

Lemma snd_imap_pair {A} (l : list A) : snd <$> imap pair l = l.
Proof. apply list_eq. intros i. rewrite list_lookup_fmap, list_lookup_imap. by destruct (l !! i). Qed.

(** The groups of the rows of a call. *)
Lemma copyGroups_runs format q s rows :
  storeWf q s -> rowsRoutable q rows ->
  runs (foldM (addCopyRow format q) ∅ (imap pair (Some <$> rows))) s
    (fun groups s' => s' = s /\ copyGrouped q s rows groups).
Proof.
  intros Hwf Hkeys. apply (addCopyRows_runs format q s _ [] rows ∅ Hwf Hkeys); [|apply snd_imap_pair]. intros n.
  by rewrite lookup_empty.
Qed.

Lemma orderedGroups_acc {G} q s (groups : gmap string G) acc ps :
  storeWf q s -> ps ⊆ ReplicaSets (ms_mesh q) ->
  runs (foldM (fun acc p => name ← onHeap (Name p);
      mret (match groups !! name with Some g => acc ++ [g] | None => acc end)) acc ps) s
    (fun l s' => s' = s /\ l = acc ++ omap (groups !!.) (namesOf s ps)).
Proof.
  intros Hwf. revert acc. induction ps as [|p ps IH]; intros acc Hsub; [apply runs_ret; by rewrite app_nil_r|].
  destruct (replicaSets_named q s p Hwf ltac:(apply Hsub; left)) as [n Hn]. cbn [foldM].
  eapply (runs_seq _ _ _ (fun l s' => s' = s /\ l = match groups !! n with Some g => acc ++ [g] | None => acc end)).
  { eapply runs_seq; [by apply setNamed_name|]. intros ? ? [-> ->]. by apply runs_ret. }
  intros ? ? [-> ->]. eapply runs_mono; [apply IH; set_solver|]. intros l s' [-> ->]. split; [done|].
  unfold namesOf. cbn [fmap list_fmap omap list_omap]. rewrite Hn. cbn [default from_option id].
  destruct (groups !! n); [by rewrite <- app_assoc|done].
Qed.

Lemma orderedGroups_runs {G} q s (groups : gmap string G) :
  storeWf q s -> runs (orderedGroups q groups) s (fun l s' => s' = s /\ l = omap (groups !!.) (setNames q s)).
Proof. intros Hwf. exact (orderedGroups_acc q s groups [] (ReplicaSets (ms_mesh q)) Hwf (fun p H => H)). Qed.

(** ** CopyAccounts *)

(** The set called [n]. *)
Definition setAt q s (n : string) (st : setT) : Prop :=
  exists p, p ∈ ReplicaSets (ms_mesh q) /\ replicaSetsAt (st_heap s) !! p = Some st /\ rs_name st = n.

Lemma shardNamed_setAt q s shard n :
  shardNamed q s shard n -> exists st, replicaSetsAt (st_heap s) !! rsh_replicaSet shard = Some st /\ setAt q s n st.
Proof.
  intros [Hin Hn]. unfold setNamed, nameOf in Hn. apply fmap_Some in Hn as (st & Hst & ->).
  exists st. split; [done|]. by exists (rsh_replicaSet shard).
Qed.

(** What a state that goroutines share with [s0] does not change. *)
Lemma setNames_shared q id s0 s : shared q id s0 s -> setNames q s = setNames q s0.
Proof. apply namesOf_shared. Qed.

Lemma setNameOf_shared q id s0 s key : shared q id s0 s -> setNameOf q s key = setNameOf q s0 key.
Proof. intros [_ _ [_ He _]]. unfold setNameOf, nameOf. by rewrite He. Qed.

Lemma shardNamed_shared q id s0 s shard n : shared q id s0 s -> shardNamed q s shard n <-> shardNamed q s0 shard n.
Proof. intros [_ _ [_ He _]]. unfold shardNamed, setNamed, nameOf. by rewrite He. Qed.

Lemma copyPlan_shared q id s0 s rows : shared q id s0 s -> copyPlan q s rows = copyPlan q s0 rows.
Proof. intros [_ _ [_ He _]]. unfold copyPlan, rowSet, setNames, setNameOf, nameOf. by rewrite He. Qed.

Lemma copyTask_does q id s0 ctx options mode n part g :
  copyGroupOk q s0 n part g ->
  does historyOf (shared q id s0)
    (fun r l => exists st ctx', setAt q s0 n st /\
       copyRun ctx' (CopyAccountsT_sqlcParams <$> part) (writeTarget options st) r l)
    (copyTask ErrorType DebugEnabled id ctx (qo_tx options) mode g).
Proof.
  intros [Hargs Hsh]. destruct (shardNamed_setAt _ _ _ _ Hsh) as (st & Hst & Hat). unfold copyTask.
  apply (does_step _ _ _ _ _ (fun r => Target r = WithMirrors (Writer (primary st)) (writeMirrors st))).
  { intros s [_ _ Hle]. apply shardWrite_runs. by rewrite (hle_sets _ _ Hle). }
  intros r Hr. apply (does_step _ _ _ _ _ (fun r => physicalOk r.2)).
  { intros s Hs. eapply runs_mono; [apply startPhysical_runs, Hs|]. by intros ? s' [? ?]. }
  intros [queryCtx physical] Hph. eapply does_db; [apply writeQueries_copy_does|]. intros result l Hl.
  apply does_finish; [done|]. exists st, queryCtx. rewrite app_nil_r, <- Hargs. split; [done|].
  unfold writeTarget. rewrite Hr in Hl. by destruct (qo_tx options).
Qed.

(** The count of a copy: the sum of the sets' counts, in 64 bits. *)
Definition copied (results : list (Z * option error)) : Z := s64 (foldr Z.add 0 (fst <$> results)).

Lemma copied_foldl results : foldl (fun result copyResult => s64 (result + fst copyResult)) 0 results = copied results.
Proof.
  assert (H : forall acc, foldl (fun result copyResult => s64 (result + fst copyResult)) (s64 acc) results =
    s64 (acc + foldr Z.add 0 (fst <$> results))).
  { induction results as [|r results IH]; intros acc; [cbn; by rewrite Z.add_0_r|]. cbn [foldl fmap list_fmap foldr].
    rewrite wrap_s_add by lia. by rewrite IH, Z.add_assoc. }
  apply (H 0).
Qed.

Lemma planNames q s {X G} (shard : G -> ResolvedShard) (ok : string -> list X -> G -> Prop) plan gs :
  (forall n part g, ok n part g -> shardNamed q s (shard g) n) ->
  Forall2 (fun part g => ok part.1 part.2 g) plan gs ->
  namesOf s (rsh_replicaSet ∘ shard <$> gs) = fst <$> plan.
Proof.
  intros Hok. induction 1 as [|part g plan gs H _ IH]; [done|]. cbn. f_equal; [|exact IH].
  destruct (Hok _ _ _ H) as [_ Hn]. unfold setNamed in Hn. by rewrite Hn.
Qed.

(** The goroutines of a call that grouped its inputs, and the errors they leave:
    the parts of the plan each run once, by their own specification. *)
Lemma planned_ends {X G A} (plan : list (string * list X)) (gs : list G) (shard : G -> ResolvedShard)
    (ok : string -> list X -> G -> Prop) (t : G -> task stateT (A * option error))
    (P : string -> list X -> A * option error -> entries -> Prop) format q id s0 s {B} (k : _ -> _ -> storeM B) QOk QErr :
  Forall2 (fun part g => ok part.1 part.2 g) plan gs ->
  (forall n part g, ok n part g -> shardNamed q s0 (shard g) n) ->
  (forall n part g, ok n part g -> does historyOf (shared q id s0) (P n part) (t g)) ->
  shared q id s0 s ->
  (forall results s' ls, shared q id s0 s' -> historyOf s' ≡ₚ historyOf s ++ concat ls ->
     Forall3 (fun part l result => P part.1 part.2 result l) plan ls results ->
     ends (k results (failures format (fst <$> plan) (snd <$> results))) s' QOk QErr) ->
  ends (schedule ← nextSchedule; results ← wait schedule (t <$> gs);
        errs ← replicaSetErrors format (rsh_replicaSet ∘ shard <$> gs) (snd <$> results);
        k results errs) s QOk QErr.
Proof.
  intros Hplan Hname Ht Hs Hk.
  eapply ends_seq; [by apply (shared_schedule q id s0)|]. intros schedule s1 [Hs1 Hc1].
  destruct (wait_does historyOf (shared q id s0) ((fun part => P part.1 part.2) <$> plan) schedule (t <$> gs) s1)
    as (results & s2 & ls & E & Hs2 & Hc2 & Hall); [|done|].
  { apply Forall2_fmap_2. eapply Forall2_impl; [exact Hplan|]. intros part g Hg. by apply (Ht _ _ _ Hg). }
  eapply (ends_seq _ _ _ (fun r s' => r = results /\ s' = s2)); [by exists results, s2|]. intros ? ? [-> ->].
  assert (Hnames : namesOf s2 (rsh_replicaSet ∘ shard <$> gs) = fst <$> plan).
  { rewrite (namesOf_shared _ _ _ _ _ Hs2). by eapply planNames. }
  eapply ends_seq; [apply replicaSetErrors_runs|].
  { intros p (g & -> & Hg)%list_elem_of_fmap. apply list_elem_of_lookup_1 in Hg as [i Hi].
    destruct (Forall2_lookup_r _ _ _ _ _ Hplan Hi) as (part & _ & Hok). apply (replicaSets_named q s2); [apply Hs2|].
    apply (Hname _ _ _ Hok). }
  intros ? ? [-> ->]. rewrite Hnames. apply (Hk results s2 ls Hs2); [by rewrite Hc2, Hc1|].
  clear -Hall. remember ((fun part => P part.1 part.2) <$> plan) as Ps eqn:HP. revert plan HP.
  induction Hall; intros [|u us] HP; simplify_eq/=; constructor; auto.
Qed.

(** C10: Copying rows. For rows that are not nil and whose keys
    resolve, whatever the order in which the
    goroutines run, CopyAccounts never panics. The rows are split by the set
    their tenant key is routed to, each row into exactly one part and in input
    order; each part is copied once to the primary of its set and then to the
    set's mirrors in order until one fails with an error other than a missing
    row, and no other call is made. When no set fails the result is the sum of
    the primaries' counts, otherwise zero and the join of the errors of exactly
    the sets that failed, with their names. In a transaction the one part goes
    to the transaction and to no mirror; more than one part is
    ErrCrossShardTransaction and no call. *)
Theorem copy_accounts_correct q s ctx rows opts :
  storeWf q s -> rowsRoutable q rows ->
  let options := applyQueryOptions opts in
  let plan := copyPlan q s rows in
  concat (snd <$> plan) ≡ₚ rows /\
  exists r s', CopyAccounts ErrorType DebugEnabled q ctx (Some <$> rows) opts s = (Ok r, s') /\
  if isSome (qo_tx options) && bool_decide (1 < length plan)%nat
  then r = (0, Some (Sentinel ErrCrossShardTransaction)) /\ st_calls s' = st_calls s
  else exists copies results,
    history (st_calls s') ≡ₚ history (st_calls s) ++ concat copies /\
    Forall3 (fun part l result => exists st ctx', setAt q s part.1 st /\
      copyRun ctx' (CopyAccountsT_sqlcParams <$> part.2) (writeTarget options st) result l) plan copies results /\
    r = joinResults 0 copied "query CopyAccounts on replica set %q: %w" (fst <$> plan) results.
Proof.
  intros Hwf Hkeys options plan. split.
  { apply planOf_permutation; [by apply setNames_NoDup|]. unfold rowsRoutable in Hkeys. rewrite Forall_forall in Hkeys.
    intros row Hrow. by apply setNameOf_elem, Hkeys. }
  unfold CopyAccounts. apply (fanned_post _ _ 0 _ _ _ _ _ _ _ _ Hwf). intros ctx' id s1 Hs1 Hc1. fold options.
  eapply ends_seq; [by apply copyGroups_runs; [apply Hs1|]|]. intros groups ? [-> Hg].
  eapply ends_seq; [apply orderedGroups_runs, Hs1|]. intros gs ? [-> Egs].
  assert (Hplan : Forall2 (fun part g => copyGroupOk q s part.1 part.2 g) plan gs).
  { rewrite Egs. unfold plan. rewrite <- (copyPlan_shared _ _ _ _ _ Hs1).
    eapply Forall2_impl; [by apply (planOf_groups (rowSet q s1) (copyGroupOk q s1))|].
    intros part g [Ha Hn]. split; [done|]. by apply (shardNamed_shared _ _ _ _ _ _ Hs1). }
  clear Egs Hg. pose proof (Forall2_length _ _ _ Hplan) as Hlen. rewrite Hlen.
  replace (bool_decide (1 < length gs)%nat) with (1 <? Z.of_nat (length gs))
    by (case_bool_decide; [apply Z.ltb_lt|apply Z.ltb_ge]; lia).
  destruct (isSome (qo_tx options) && (1 <? Z.of_nat (length gs))) eqn:Htx.
  { eapply ends_seq; [by apply (shared_setRoute q id s)|]. intros ? s2 [Hs2 Hc2]. split; [done|]. intros s3 ->. by rewrite Hc2. }
  eapply ends_seq; [by apply (shared_setRoute q id s)|]. intros ? s2 [Hs2 Hc2].
  destruct (Z.eqb_spec (Z.of_nat (length gs)) 0) as [H0|_].
  { split; [done|]. intros s3 ->. exists [], []. destruct plan; [|cbn in Hlen; lia].
    split_and!; [by rewrite app_nil_r, Hc2, Hc1|constructor|done]. }
  eapply (planned_ends plan gs csg_shard (copyGroupOk q s)); [exact Hplan|by intros ? ? ? []|..].
  { intros n part g Hok. by apply (copyTask_does _ _ _ _ options _ n part). }
  { done. }
  intros results s3 ls Hs3 Hc3 Hall. cbn beta in Hc3. rewrite Hc2, Hc1 in Hc3. apply failJoined_ends.
  unfold joinResults. destruct (errorsJoin (failures _ _ _)) as [e|] eqn:He;
    (split; [done|]; intros s5 ->; exists ls, results; by rewrite He, ?copied_foldl).
Qed.

End Copy.

#[local] Existing Instance StoreSample.runtime.

Lemma copy_accounts_correct_witness :
  exists q s, FanoutSample.opened = Some (q, s) /\
    (snd <$> copyPlan q s FanoutSample.rows =
       [[FanoutSample.account 3 7 "Ada"; FanoutSample.account 5 9 "Edsger"]; [FanoutSample.account 4 8 "Grace"]]) /\
    exists r s', CopyAccounts FanoutSample.errorType FanoutSample.debug q sampleContext (Some <$> FanoutSample.rows) [] s
      = (Ok r, s') /\ r = (3, None).
Proof.
  destruct FanoutSample.opened_routable as (q & s & E & Hwf & Hkeys). exists q, s. split; [exact E|].
  assert (H : match FanoutSample.opened with
    | Some (q, s) => snd <$> copyPlan q s FanoutSample.rows =
          [[FanoutSample.account 3 7 "Ada"; FanoutSample.account 5 9 "Edsger"]; [FanoutSample.account 4 8 "Grace"]] /\
        (CopyAccounts FanoutSample.errorType FanoutSample.debug q sampleContext (Some <$> FanoutSample.rows) [] s).1
          = Ok (3, None)
    | None => False end) by (vm_compute; auto).
  rewrite E in H. destruct H as [Hplan Hr]. split; [exact Hplan|].
  destruct (copy_accounts_correct FanoutSample.errorType FanoutSample.debug q s sampleContext FanoutSample.rows [] Hwf
    (Forall_true _ _ (fun row => Hkeys (cat_TenantKey row))))
    as (_ & r & s' & Hrun & _).
  exists r, s'. split; [exact Hrun|]. rewrite Hrun in Hr. by injection Hr.
Defined.
