(* ===== verification/StoreRouted.v ===== *)
(** * StoreRouted: queries of one shard, for any answers of the driver

    GetAccount, CountAccounts, UpdateAccountName and UpsertAccount on a mesh that
    was built: which database is called with what, in which order, and how its
    answers, its errors and the errors of mirrors become the result. Keys that
    do not resolve are included. *)

From S2P Require Import Prelude Errors GoStrings Hasher Balancer Routing Telemetry CopyBatch Builder Topology OpenMesh Tasks StoreQueries Store StoreOps StoreAsync StoreBuild StoreLemmas StoreRefine MemoryDriver StoreOpen StoreFanout StoreCopy.

#[local] Open Scope Z_scope.

Section Routed.
Context {DBTX : Type} `{!Driver DBTX} {RT : Runtime}.
Context {K Tracer Instrument Logger : Type}.
Context (ErrorType : error -> KeyValue) (DebugEnabled : Logger -> bool).
#[local] Abbreviation stateT := (storeState DBTX Tracer Instrument Logger).
#[local] Abbreviation storeM := (stE stateT error).
#[local] Abbreviation storeT := (meshStore DBTX K Tracer Instrument Logger).
#[local] Abbreviation entries := (list (list (dbCall DBTX) * dbCall DBTX)).
Implicit Types (q : storeT) (s : stateT).

(** A mesh that was built; a hash is an unsigned number, which may be out of range. *)
Record meshWf q s : Prop := {
  mw_telemetry : telemetryOk (telemetry (ms_mesh q));
  mw_heap : heap_wf (st_heap s);
  mw_shape : meshShape q s;
  mw_hash key : 0 <= hasher (ms_mesh q) key;
}.

(** A key resolves to a live set, or it is out of range. *)
Lemma resolve_cases q s key :
  meshWf q s ->
  match Resolve (ms_mesh q) (keyOf q key) with
  | Ok shard => exists st rs, replicaSetsAt (st_heap s) !! rsh_replicaSet shard = Some st /\ set_wf (st_heap s) st rs
  | Err e => errorsIs e ErrVirtualShardOutOfRange = true
  | Panic => False
  end.
Proof.
  intros [_ Hwf [_ [Hnames _]] Hhash]. unfold Resolve. specialize (Hhash (keyOf q key)).
  destruct (Z.leb_spec (Z.of_nat (length (virtualShards (ms_mesh q)))) (hasher (ms_mesh q) (keyOf q key))); [done|].
  destruct (lookup_lt_is_Some_2 (virtualShards (ms_mesh q)) (Z.to_nat (hasher (ms_mesh q) (keyOf q key)))) as [p Hp]; [lia|].
  rewrite Hp. cbn. destruct (Hnames p) as (n & Hn & _); [by eapply list_elem_of_lookup_2|].
  unfold nameOf in Hn. apply fmap_Some in Hn as (st & Hst & _). destruct (wf_sets _ Hwf p st Hst) as [_ [rs Hrs]].
  by exists st, rs.
Qed.

(** A call for [key] that is [m]: where the resolver panics so does the call,
    and no database is called. *)
Definition routedOutcome {A} q s (key : TenantKey) (m : storeM A) (P : A -> stateT -> Prop) : Prop :=
  match shardKeyOf q (Some key) with
  | Ok _ => exists r s', m s = (Ok r, s') /\ P r s'
  | _ => exists s', m s = (Panic, s') /\ st_calls s' = st_calls s
  end.

Lemma resolver_panics q key : ~ resolved q key -> shardKeyOf q (Some key) = Panic.
Proof.
  unfold resolved, shardKeyOf. destruct (ms_resolver q) as [f|]; [|done]. cbn. by destruct (f key).
Qed.

Lemma routedOutcome_cases {A} q s key (m : storeM A) P :
  (resolved q key -> runs m s P) ->
  (shardKeyOf q (Some key) = Panic -> exists s', m s = (Panic, s') /\ st_calls s' = st_calls s) ->
  routedOutcome q s key m P.
Proof.
  intros Hok Hpanic. unfold routedOutcome. destruct (decide (is_Ok (shardKeyOf q (Some key)) = true)) as [H|H].
  - destruct (resolved_key q key H) as [k Hk]. rewrite Hk. by apply Hok.
  - pose proof (resolver_panics q key H) as Hp. rewrite Hp. by apply Hpanic.
Qed.

Lemma routedOutcome_resolved {A} q s key (m : storeM A) P :
  routedOutcome q s key m P -> resolved q key -> exists r s', m s = (Ok r, s') /\ P r s'.
Proof. intros H [k Hk]%resolved_key. unfold routedOutcome in H. by rewrite Hk in H. Qed.

(** The body of a query panics: its span ends and the call panics. *)
Lemma deferred_panics {A} id (body : storeM (A * option error)) s s1 :
  body s1 = (Panic, s1) -> spanLive id s1 -> st_calls s1 = st_calls s ->
  exists s', deferred (endLogical ErrorType DebugEnabled id) body s1 = (Panic, s') /\ st_calls s' = st_calls s.
Proof.
  intros Hb Hid Hc. destruct (endLogical_runs ErrorType DebugEnabled id None s1 Hid) as (u & s2 & Hf & H2).
  exists s2. unfold deferred. rewrite Hb, Hf, (fr_calls _ _ H2). by destruct u.
Qed.

Lemma resolveShard_panics q key s : shardKeyOf q key = Panic -> resolveShard q key s = (Panic, s).
Proof. intros H. unfold resolveShard. by rewrite H. Qed.

Lemma bind_panics {S' A B} (m : stE S' error A) (k : A -> stE S' error B) x y : m x = (Panic, y) -> (m ≫= k) x = (Panic, y).
Proof. intros H. unfold mbind, stE_bind. by rewrite H. Qed.

Lemma routedRead_panics {A} (zero : A) sn qn q ctx key opts run s :
  telemetryOk (telemetry (ms_mesh q)) -> shardKeyOf q key = Panic ->
  exists s', routedRead ErrorType DebugEnabled zero sn qn q ctx key opts run s = (Panic, s') /\ st_calls s' = st_calls s.
Proof.
  intros Ht Hk. destruct (startLogical_runs q ctx sn qn QueryKindRead s Ht) as ([ctx1 id] & s1 & Hs & _ & Hid & H1).
  unfold routedRead. rewrite (stE_bind_Ok _ _ _ _ _ Hs). cbv beta iota. eapply deferred_panics; [|exact Hid|by apply fr_calls].
  by apply bind_panics, resolveShard_panics.
Qed.

Lemma routedWrite_panics {A} (zero : A) sn qn q ctx key opts run s :
  telemetryOk (telemetry (ms_mesh q)) -> shardKeyOf q key = Panic ->
  exists s', routedWrite ErrorType DebugEnabled zero sn qn q ctx key opts run s = (Panic, s') /\ st_calls s' = st_calls s.
Proof.
  intros Ht Hk. destruct (startLogical_runs q ctx sn qn QueryKindWrite s Ht) as ([ctx1 id] & s1 & Hs & _ & Hid & H1).
  unfold routedWrite. rewrite (stE_bind_Ok _ _ _ _ _ Hs). cbv beta iota. eapply deferred_panics; [|exact Hid|by apply fr_calls].
  by apply bind_panics, resolveShard_panics.
Qed.

(** A database call that runs alone: its entries are the next ones. *)
Lemma onDB_history {A} (t : task (list (dbCall DBTX)) A) s (P : A -> entries -> Prop) :
  does history (fun _ => True) P t ->
  runs (runTask (onDB t)) s (fun a s' => st_spans s' = st_spans s /\
    exists l, history (st_calls s') = history (st_calls s) ++ l /\ P a l).
Proof.
  intros Ht. eapply runs_mono.
  - apply (onDB_runs t s (fun a c => exists l, history c = history (st_calls s) ++ l /\ P a l)).
    destruct (runTask_does history (fun _ => True) P t (st_calls s) Ht Logic.I) as (a & c & l & E & _ & Hc & HP).
    exists a, c. split; [done|]. by exists l.
  - intros a s' (c & -> & l & Hc & HP). split; [done|]. by exists l.
Qed.

(** ** Writes *)

(** A statement that returns the row it wrote. *)
Definition rowCall (sql : string) (args : list value) (m : Queries DBTX) : dbCall DBTX := CallQueryRow (db m) sql args.
Definition rowAnswer (ctx : Context) (sql : string) (args : list value) (hist : list (dbCall DBTX)) (m : Queries DBTX)
    : option Account * option error :=
  let '(i, err) := scanAccount (drv_QueryRow hist ctx (db m) sql args) in (Some i, err).

Lemma row_does m ctx sql args :
  does history (fun _ => True) (fun r l => exists hist, l = [(hist, rowCall sql args m)] /\ r = rowAnswer ctx sql args hist m)
    (r ← db_QueryRow ctx (db m) sql args; let '(i, err) := scanAccount r in mret (Some i, err)).
Proof.
  eapply does_bind; [apply dbAnswer_does|]. intros r l (hist & -> & ->).
  destruct (scanAccount (drv_QueryRow hist ctx (db m) sql args)) as [i err] eqn:E. exists hist. split; [done|].
  unfold rowAnswer. by rewrite E.
Qed.

(** A write of the statement [sql] for [key] returned [r] and left [s']. *)
Definition wrote q s (opts : list (QueryOption DBTX)) (key : TenantKey) (sql : string) (args : list value)
    (r : option Account * option error) s' : Prop :=
  match Resolve (ms_mesh q) (keyOf q key) with
  | Ok shard => exists st ctx l, replicaSetsAt (st_heap s) !! rsh_replicaSet shard = Some st /\
      history (st_calls s') = history (st_calls s) ++ l /\
      writeRun None (rowCall sql args) (rowAnswer ctx sql args) (writeTarget (applyQueryOptions opts) st) r l
  | Err e => r = (None, Some e) /\ st_calls s' = st_calls s
  | Panic => False
  end.

Lemma routedWrite_err {A} (zero : A) sn qn q ctx key opts run k e s :
  telemetryOk (telemetry (ms_mesh q)) -> shardKeyOf q key = Ok k -> Resolve (ms_mesh q) k = Err e ->
  runs (routedWrite ErrorType DebugEnabled zero sn qn q ctx key opts run) s
    (fun r s' => r = (zero, Some e) /\ frame s s').
Proof.
  intros Ht Hk Hr. unfold routedWrite.
  eapply runs_seq; [by apply startLogical_runs|]. intros [ctx1 id] s1 (_ & Hid & H1). cbn [fst snd] in *.
  apply deferred_runs. eapply runs_seq; [by eapply resolveShard_err|]. intros ? ? [-> ->].
  apply runs_ret. eapply runs_mono; [by apply endLogical_runs|]. intros ? s2 H2.
  split; [done|]. by transitivity s1.
Qed.

(** Both writes have this form. *)
Lemma routedWrite_wrote sn qn q ctx key opts sql args run s :
  meshWf q s -> resolved q key ->
  (forall target ctx, does history (fun _ => True) (writeRun None (rowCall sql args) (rowAnswer ctx sql args) target) (run target ctx)) ->
  runs (routedWrite ErrorType DebugEnabled None sn qn q ctx (Some key) opts (fun target ctx => runTask (onDB (run target ctx)))) s
    (wrote q s opts key sql args).
Proof.
  intros Hwf Hkey%resolved_keyOf Hrun. unfold wrote. pose proof (resolve_cases q s key Hwf) as Hcase.
  destruct (Resolve (ms_mesh q) (keyOf q key)) as [shard|e|] eqn:Hr; [| |done].
  - destruct Hcase as (st & rs & Hst & _).
    eapply routedWrite_runs; [apply Hwf|exact Hkey|done..|]. intros ctx' s1 H1.
    eapply runs_mono; [apply onDB_history, Hrun|]. intros r s2 (Hsp & l & Hl & HP). split; [done|]. intros s3 H3.
    exists st, ctx', l. split_and!; [done| |done]. by rewrite (fr_calls _ _ H3), Hl, (fr_calls _ _ H1).
  - eapply runs_mono; [apply (routedWrite_err _ _ _ _ _ _ _ _ (keyOf q key) e); [apply Hwf|exact Hkey|done]|].
    intros r s' [-> Hf]. split; [done|apply Hf].
Qed.

(** C21: Writes of one shard, for any answers of the driver. A write
    panics where the resolver does, before any database is called, and nowhere
    else. When its key is out of range the error of the mesh is returned and no
    database is called. Otherwise the statement runs on the primary of the key's
    set with the arguments in order; if it fails its error is returned with no
    row and no mirror is called; if not, the set's mirrors run the same
    statement in order until one fails with an error other than a missing row,
    and the primary's row is returned with that error. In a transaction the
    statement runs on the transaction only. *)
Theorem routed_writes_correct q s ctx opts :
  meshWf q s ->
  (forall arg, routedOutcome q s (uat_TenantKey arg) (UpdateAccountName ErrorType DebugEnabled q ctx (Some arg) opts)
     (wrote q s opts (uat_TenantKey arg) updateAccountName
       [VInt64 (tk_TenantID (uat_TenantKey arg)); VInt64 (uat_ID arg); VText (uat_DisplayName arg)])) /\
  (forall arg, routedOutcome q s (ust_TenantKey arg) (UpsertAccount ErrorType DebugEnabled q ctx (Some arg) opts)
     (wrote q s opts (ust_TenantKey arg) upsertAccount
       [VInt64 (ust_ID arg); VInt64 (tk_TenantID (ust_TenantKey arg)); VText (ust_DisplayName arg)])).
Proof.
  intros Hwf. split; intros arg; (apply routedOutcome_cases; [intros Hkey|intros Hp; apply routedWrite_panics; [apply Hwf|done]]).
  - apply (routedWrite_wrote "Accounts" "UpdateAccountName" q ctx (uat_TenantKey arg) opts _ _
      (fun target ctx => writeQueries_UpdateAccountName target ctx (UpdateAccountNameT_sqlcParams arg)) s Hwf Hkey).
    intros target ctx'. apply (writeRun_does None _ _ target (fun m => Queries_UpdateAccountName m ctx' _)).
    intros m. apply row_does.
  - apply (routedWrite_wrote "Accounts" "UpsertAccount" q ctx (ust_TenantKey arg) opts _ _
      (fun target ctx => writeQueries_UpsertAccount target ctx (UpsertAccountT_sqlcParams arg)) s Hwf Hkey).
    intros target ctx'. apply (writeRun_does None _ _ target (fun m => Queries_UpsertAccount m ctx' _)).
    intros m. apply row_does.
Qed.

(** ** Reads *)

(** A read of the statement [sql] for [key]: one call, on an allowed reader. *)
Definition readOnce {A} (zero : A) q s (opts : list (QueryOption DBTX)) (key : TenantKey) (sql : string) (args : list value)
    (scan : row -> A * option error) (r : A * option error) s' : Prop :=
  match Resolve (ms_mesh q) (keyOf q key) with
  | Ok shard => exists target ctx, readable (applyQueryOptions opts) s (rsh_replicaSet shard) target /\
      st_calls s' = st_calls s ++ [CallQueryRow (db (rq_main target)) sql args] /\
      r = match scan (drv_QueryRow (st_calls s) ctx (db (rq_main target)) sql args) with
          | (_, Some e) => (zero, Some e)
          | (a, None) => (a, None)
          end
  | Err e => r = (zero, Some e) /\ st_calls s' = st_calls s
  | Panic => False
  end.

Lemma routedRead_once {A} (zero : A) sn qn q ctx key opts sql args scan
    (run : readQueries DBTX -> Context -> task (list (dbCall DBTX)) (A * option error)) s :
  meshWf q s -> resolved q key ->
  (forall target ctx calls, runTask (run target ctx) calls =
     (Ok (match scan (drv_QueryRow calls ctx (db (rq_main target)) sql args) with
          | (_, Some e) => (zero, Some e)
          | (a, None) => (a, None)
          end), calls ++ [CallQueryRow (db (rq_main target)) sql args])) ->
  runs (routedRead ErrorType DebugEnabled zero sn qn q ctx (Some key) opts (fun target ctx => runTask (onDB (run target ctx)))) s
    (readOnce zero q s opts key sql args scan).
Proof.
  intros Hwf Hkey%resolved_keyOf Hrun. unfold readOnce. pose proof (resolve_cases q s key Hwf) as Hcase.
  destruct (Resolve (ms_mesh q) (keyOf q key)) as [shard|e|] eqn:Hr; [| |done].
  - destruct Hcase as (st & rs & Hst & Hrs).
    eapply routedRead_runs; [apply Hwf|apply Hwf|exact Hkey|done..|]. intros target ctx' s1 H1 Ht.
    eapply runs_mono; [apply (onDB_runs _ s1 (fun a c => runTask (run target ctx') (st_calls s1) = (Ok a, c)))|].
    { rewrite Hrun. by eexists _, _. }
    intros r s2 (c & -> & E). rewrite Hrun in E. injection E as <- <-. split; [done|]. intros s3 H3.
    exists target, ctx'. rewrite (fr_calls _ _ H3). cbn. rewrite (fr_calls _ _ H1). split_and!; [by exists st, rs|done..].
  - eapply runs_mono; [apply (routedRead_err _ _ _ _ _ _ _ _ _ _ (keyOf q key) e); [apply Hwf|exact Hkey|done]|].
    intros r s' [-> Hf]. split; [done|apply Hf].
Qed.

(** C22: Reads of one shard, for any answers of the driver. A read panics
    where the resolver does, before any database is called, and nowhere else.
    When its key is out of range the error of the mesh is returned and no
    database is called. Otherwise exactly one database is asked, once: the
    transaction of the options, or the primary of the key's set when the options
    ask for it, or one of the set's read targets; the result is what it
    answered, and an error comes with no row. *)
Theorem routed_reads_correct q s ctx opts :
  meshWf q s ->
  (forall arg, routedOutcome q s (gat_TenantKey arg) (GetAccount ErrorType DebugEnabled q ctx (Some arg) opts)
     (readOnce None q s opts (gat_TenantKey arg) getAccount
       [VInt64 (tk_TenantID (gat_TenantKey arg)); VInt64 (gat_ID arg)]
       (fun r => let '(a, err) := scanAccount r in (Some a, err)))) /\
  (forall arg, routedOutcome q s (cnt_TenantKey arg) (CountAccounts ErrorType DebugEnabled q ctx (Some arg) opts)
     (readOnce 0 q s opts (cnt_TenantKey arg) countAccounts [VInt64 (tk_TenantID (cnt_TenantKey arg))] scanCount)).
Proof.
  intros Hwf. split; intros arg; (apply routedOutcome_cases; [intros Hkey|intros Hp; apply routedRead_panics; [apply Hwf|done]]).
  - apply (routedRead_once None "Accounts" "GetAccount" q ctx (gat_TenantKey arg) opts _ _ _
      (fun target ctx => readQueries_GetAccount target ctx (GetAccountT_sqlcParams arg)) s Hwf Hkey).
    intros target ctx' calls. cbn. destruct (scanAccount _) as [a [e|]]; done.
  - apply (routedRead_once 0 "Reports" "CountAccounts" q ctx (cnt_TenantKey arg) opts _ _ _
      (fun target ctx => readQueries_CountAccounts target ctx (tk_TenantID (cnt_TenantKey arg))) s Hwf Hkey).
    intros target ctx' calls. cbn. destruct (scanCount _) as [a [e|]]; done.
Qed.

End Routed.

#[local] Existing Instance StoreSample.runtime.

Module RoutedSample.
(** The store of [FanoutSample]: tenant 3 is on a set with a mirror. *)
Lemma opened_mesh : exists q s, FanoutSample.opened = Some (q, s) /\ meshWf q s /\ forall key, resolved q key.
Proof.
  destruct FanoutSample.opened_routable as (q & s & E & [Ht Hh Hs] & Hkeys). exists q, s. split; [done|].
  split; [|intros key; apply Hkeys]. split; [done..|].
  assert (H : match FanoutSample.opened with
    | Some (q, _) => forall key, hasher (ms_mesh q) key = StoreSample.hash key
    | None => False end) by (vm_compute; reflexivity).
  rewrite E in H. intros key. rewrite H. unfold StoreSample.hash. apply Z.mod_pos_bound. lia.
Qed.
End RoutedSample.

Lemma routed_writes_correct_witness :
  exists q s, FanoutSample.opened = Some (q, s) /\
    exists r s', UpdateAccountName FanoutSample.errorType FanoutSample.debug q sampleContext
        (Some (MkUpdateAccountNameT (MkTenantKey 3) 6 "B. Liskov")) [] s = (Ok r, s') /\
      r = (Some (MkAccount 6 3 "B. Liskov"), None) /\
      wrote q s [] (MkTenantKey 3) updateAccountName [VInt64 3; VInt64 6; VText "B. Liskov"] r s'.
Proof.
  destruct RoutedSample.opened_mesh as (q & s & E & Hwf & Hkeys). exists q, s. split; [exact E|].
  assert (H : match FanoutSample.opened with
    | Some (q, s) => (UpdateAccountName FanoutSample.errorType FanoutSample.debug q sampleContext
        (Some (MkUpdateAccountNameT (MkTenantKey 3) 6 "B. Liskov")) [] s).1 = Ok (Some (MkAccount 6 3 "B. Liskov"), None)
    | None => False end) by (vm_compute; reflexivity).
  rewrite E in H.
  destruct (routed_writes_correct FanoutSample.errorType FanoutSample.debug q s sampleContext [] Hwf) as [Hupdate _].
  destruct (routedOutcome_resolved _ _ _ _ _ (Hupdate (MkUpdateAccountNameT (MkTenantKey 3) 6 "B. Liskov")) (Hkeys _)) as (r & s' & Hrun & Hw).
  exists r, s'. split; [exact Hrun|]. split; [|exact Hw]. rewrite Hrun in H. by injection H.
Defined.

Lemma routed_reads_correct_witness :
  exists q s, FanoutSample.opened = Some (q, s) /\
    exists r s', GetAccount FanoutSample.errorType FanoutSample.debug q sampleContext
        (Some (MkGetAccountT (MkTenantKey 4) 5)) [] s = (Ok r, s') /\
      r = (Some (MkAccount 5 4 "Alan"), None).
Proof.
  destruct RoutedSample.opened_mesh as (q & s & E & Hwf & Hkeys). exists q, s. split; [exact E|].
  assert (H : match FanoutSample.opened with
    | Some (q, s) => (GetAccount FanoutSample.errorType FanoutSample.debug q sampleContext
        (Some (MkGetAccountT (MkTenantKey 4) 5)) [] s).1 = Ok (Some (MkAccount 5 4 "Alan"), None)
    | None => False end) by (vm_compute; reflexivity).
  rewrite E in H.
  destruct (routed_reads_correct FanoutSample.errorType FanoutSample.debug q s sampleContext [] Hwf) as [Hget _].
  destruct (routedOutcome_resolved _ _ _ _ _ (Hget (MkGetAccountT (MkTenantKey 4) 5)) (Hkeys _)) as (r & s' & Hrun & _).
  exists r, s'. split; [exact Hrun|]. rewrite Hrun in H. by injection H.
Defined.
