(* ===== verification/StoreLookup.v ===== *)
(** * StoreLookup: looking accounts up by their keys

    ListAccountsByIDs asks each replica set once for the distinct keys that are
    routed to it, files the rows that come back under their keys, and returns
    them in the order in which the keys were first asked for. *)

From S2P Require Import Prelude Errors GoStrings Hasher Balancer Routing Telemetry CopyBatch Builder Topology OpenMesh Tasks StoreQueries Store StoreOps StoreAsync StoreBuild StoreLemmas StoreRefine MemoryDriver StoreOpen StoreFanout StoreCopy.

#[local] Open Scope Z_scope.

(** ** The answer *)

Definition hasID (k : Z) (row : option Account) : Prop := ID <$> row = Some k.
#[export] Instance hasID_dec k row : Decision (hasID k row).
Proof. unfold hasID. apply _. Defined.

(** The error of a row: nil, or with a key that was not asked for. *)
Definition stray (name : string) (keys : list Z) (x : nat * option Account) : option error :=
  match x with
  | (i, None) => Some (Errorf "query ListAccountsByIDs on replica set %q returned nil row at result %d"
                         [AStr name; AInt (Z.of_nat i)] [])
  | (i, Some a) => if decide (ID a ∈ keys) then None
      else Some (Errorf "query ListAccountsByIDs on replica set %q result %d has an unrequested lookup key"
                   [AStr name; AInt (Z.of_nat i)] [])
  end.
Definition strayErrors (name : string) (keys : list Z) (rows : list (option Account)) : list error :=
  omap (stray name keys) (imap pair rows).

(** The rows of the sets [names], whose keys were asked as [requests] says. *)
Definition mergeRows (requests : list (string * Z)) (names : list string) (rows : list (list (option Account)))
    : list (option Account) :=
  concat ((fun '(n, k) => filter (hasID k)
    (default [] ((list_to_map (zip names rows) : gmap string (list (option Account))) !! n))) <$> requests).

(** What a lookup returns, from the plan (sets and their keys) and the sets' answers. *)
Definition lookupAnswer (requests : list (string * Z)) (plan : list (string * list Z))
    (results : list (list (option Account) * option error)) : list (option Account) * option error :=
  match errorsJoin (failures "query ListAccountsByIDs on replica set %q: %w" (fst <$> plan) (snd <$> results)) with
  | Some e => ([], Some e)
  | None =>
      match errorsJoin (concat (zip_with (fun part rows => strayErrors part.1 part.2 rows) plan (fst <$> results))) with
      | Some e => ([], Some e)
      | None => (mergeRows requests (fst <$> plan) (fst <$> results), None)
      end
  end.

Lemma strays_snoc name keys rows row :
  strayErrors name keys (rows ++ [row]) =
  strayErrors name keys rows ++ option_list (stray name keys (length rows, row)).
Proof.
  unfold strayErrors. rewrite imap_app, omap_app. cbn [imap omap list_omap].
  change ((pair ∘ _) 0%nat row) with ((length rows + 0)%nat, row). rewrite Nat.add_0_r. by destruct (stray _ _ _).
Qed.

(** The rows of one group. *)
Lemma addRows_spec name (requested : gset Z) keys errs rows :
  (forall k, k ∈ requested <-> k ∈ keys) ->
  exists m, foldl (addRow name requested) (∅, errs) (imap pair rows) = (m, errs ++ strayErrors name keys rows) /\
    forall k, k ∈ keys -> default [] (m !! k) = filter (hasID k) rows.
Proof.
  intros Hreq. induction rows as [|row rows (m & E & Hm)] using rev_ind.
  - exists ∅. split; [by rewrite app_nil_r|]. intros k _. by rewrite lookup_empty.
  - rewrite imap_app, foldl_app, E, strays_snoc. cbn [imap foldl addRow].
    change ((pair ∘ _) 0%nat row) with ((length rows + 0)%nat, row). rewrite Nat.add_0_r.
    destruct row as [a|]; cbn [addRow comparableKey negb].
    2:{ exists m. split; [cbn; by rewrite <- app_assoc|]. intros k Hk. rewrite filter_app, filter_cons_False, app_nil_r by done. auto. }
    cbn [stray]. destruct (decide (ID a ∈ keys)) as [Ha|Ha].
    + rewrite bool_decide_eq_true_2 by by apply Hreq. cbn. eexists. split; [by rewrite app_nil_r|]. intros k Hk.
      rewrite filter_app. destruct (decide (ID a = k)) as [<-|Hne].
      * rewrite lookup_insert_eq, filter_cons_True, filter_nil by done. by rewrite <- Hm.
      * rewrite lookup_insert_ne, filter_cons_False, filter_nil, app_nil_r by (done || by intros [=]). auto.
    + rewrite bool_decide_eq_false_2 by by rewrite Hreq. cbn. eexists. split; [by rewrite <- app_assoc|]. intros k Hk.
      rewrite filter_app, filter_cons_False, filter_nil, app_nil_r; [auto|]. by intros [= <-].
Qed.

(** When no row is stray, the rows of a group are split among its keys. *)
Lemma split_rows name keys rows :
  NoDup keys -> strayErrors name keys rows = [] -> concat ((fun k => filter (hasID k) rows) <$> keys) ≡ₚ rows.
Proof.
  intros Hnd. induction rows as [|row rows IH] using rev_ind; intros Hs.
  - clear. by induction keys.
  - rewrite strays_snoc in Hs. apply app_eq_nil in Hs as [Hs Hrow]. destruct row as [a|]; [|done].
    cbn [stray] in Hrow. destruct (decide (ID a ∈ keys)) as [Ha|]; [|done]. clear Hrow.
    transitivity (concat ((fun k => filter (hasID k) rows) <$> keys) ++ [Some a]); [|by rewrite (IH Hs)].
    clear IH Hs. induction Hnd as [|k keys Hk Hnd IHk]; [by apply elem_of_nil in Ha|].
    cbn. rewrite filter_app. destruct (decide (ID a = k)) as [<-|Hne].
    + rewrite filter_cons_True, filter_nil by done. rewrite <- !app_assoc. f_equiv. rewrite Permutation_app_comm.
      f_equiv. clear -Hk. induction keys as [|k keys IH]; [done|]. cbn. apply not_elem_of_cons in Hk as [Hne Hk].
      rewrite filter_app, filter_cons_False, filter_nil, app_nil_r by (by intros [= ?]). f_equiv. by apply IH.
    + rewrite filter_cons_False, filter_nil, app_nil_r, <- app_assoc by (by intros [= ?]). f_equiv. apply IHk.
      by apply elem_of_cons in Ha as [?|?].
Qed.

(** The keys asked of each set of the plan. *)
Definition keysPlan {X} (idOf : X -> Z) (plan : list (string * list X)) : list (string * list Z) :=
  (fun part => (part.1, dedupe (idOf <$> part.2))) <$> plan.

(** The pairs of set and key of such a plan. *)
Definition pairsOf (keys : list (string * list Z)) : list (string * Z) :=
  concat ((fun part : string * list Z => pair part.1 <$> part.2) <$> keys).

Section Requests.
Context {X : Type} (setOf : X -> string) (idOf : X -> Z).

Lemma planOf_cons n names xs :
  pairsOf (keysPlan idOf (planOf setOf (n :: names) xs)) =
  (pair n <$> dedupe (idOf <$> partOf setOf xs n)) ++ pairsOf (keysPlan idOf (planOf setOf names xs)).
Proof.
  unfold planOf. cbn [fmap list_fmap]. rewrite filter_cons. cbn [snd].
  destruct (decide (partOf setOf xs n <> [])) as [H|H]; [done|].
  destruct (partOf setOf xs n); [done|]. by destruct H.
Qed.

Lemma pairsOf_elem names xs n k :
  (n, k) ∈ pairsOf (keysPlan idOf (planOf setOf names xs)) <-> n ∈ names /\ exists x, x ∈ xs /\ setOf x = n /\ idOf x = k.
Proof.
  induction names as [|m names IH]; [set_solver|].
  rewrite planOf_cons, elem_of_app, IH, list_elem_of_fmap, elem_of_cons. unfold partOf. split.
  - intros [(k' & [= -> ->] & Hk)|[? ?]]; [|tauto]. rewrite dedupe_elem, list_elem_of_fmap in Hk.
    destruct Hk as (x & -> & [Hx Hin]%list_elem_of_filter). split; [by left|]. by exists x.
  - intros [[->|Hn] (x & Hin & <- & <-)]; [|right; eauto]. left. exists (idOf x). split; [done|].
    rewrite dedupe_elem, list_elem_of_fmap. exists x. split; [done|]. by apply list_elem_of_filter.
Qed.

(** The requests by set: each set's keys, in order. *)
Lemma requests_permutation names (xs : list X) :
  NoDup names -> (forall x, x ∈ xs -> setOf x ∈ names) ->
  dedupe ((fun x => (setOf x, idOf x)) <$> xs) ≡ₚ pairsOf (keysPlan idOf (planOf setOf names xs)).
Proof.
  intros Hnd Hin. apply NoDup_Permutation; [apply dedupe_NoDup| |].
  - clear Hin. induction Hnd as [|n names Hn _ IH]; [constructor|]. rewrite planOf_cons. apply NoDup_app.
    split_and!; [apply NoDup_fmap_2; [by intros ? ? [=]|apply dedupe_NoDup]| |done].
    intros [n' k] (k' & [= -> ->] & _)%list_elem_of_fmap [Hn' _]%pairsOf_elem. done.
  - intros [n k]. rewrite pairsOf_elem, dedupe_elem, list_elem_of_fmap. split.
    + intros (x & [= -> ->] & Hx). split; [auto|]. by exists x.
    + intros [_ (x & Hx & <- & <-)]. by exists x.
Qed.
End Requests.

Lemma concat_fmap_Permutation {A B} (f : A -> list B) l l' : l ≡ₚ l' -> concat (f <$> l) ≡ₚ concat (f <$> l').
Proof.
  induction 1 as [|x l l' _ IH|x y l|l1 l2 l3 _ IH1 _ IH2]; [done|cbn; by f_equiv| |by etrans].
  cbn. rewrite !app_assoc. f_equiv. apply Permutation_app_comm.
Qed.

(** The rows of a set of the plan. *)
Lemma rowsOf_set (names : list string) (rows : list (list (option Account))) i n l :
  NoDup names -> names !! i = Some n -> rows !! i = Some l ->
  (list_to_map (zip names rows) : gmap string (list (option Account))) !! n = Some l.
Proof.
  intros Hnd Hn Hl. apply elem_of_list_to_map_1.
  - clear Hn Hl. revert rows. induction Hnd as [|m names Hm _ IH]; intros [|r rows]; [constructor..|]. cbn.
    constructor; [|apply IH]. intros ((m' & r') & -> & Hin)%list_elem_of_fmap. apply Hm.
    by apply elem_of_zip_l in Hin.
  - apply (list_elem_of_lookup_2 _ i). apply lookup_zip_with_Some. by exists n, l.
Qed.

(** Every row that came back is returned once. *)
Lemma mergeRows_permutation requests plan rows :
  NoDup (fst <$> plan) -> (forall part, part ∈ plan -> NoDup part.2) -> length rows = length plan ->
  requests ≡ₚ pairsOf plan ->
  concat (zip_with (fun part l => strayErrors part.1 part.2 l) plan rows) = [] ->
  mergeRows requests (fst <$> plan) rows ≡ₚ concat rows.
Proof.
  intros Hnd Hkeys Hlen Hreq Hstray. unfold mergeRows. rewrite (concat_fmap_Permutation _ _ _ Hreq).
  assert (Hrows : forall i part l, plan !! i = Some part -> rows !! i = Some l ->
    (list_to_map (zip (fst <$> plan) rows) : gmap string (list (option Account))) !! part.1 = Some l).
  { intros i part l Hp Hl. apply (rowsOf_set _ _ i); [done| |done]. by rewrite list_lookup_fmap, Hp. }
  set (m := list_to_map (zip (fst <$> plan) rows) : gmap string (list (option Account))) in *. clearbody m.
  clear Hreq Hnd. revert rows Hlen Hstray Hrows.
  induction plan as [|[n keys] plan IH]; intros [|l rows] Hlen Hstray Hrows; try done.
  cbn [zip_with concat] in Hstray. apply app_eq_nil in Hstray as [Hs Hstray]. cbn [fst snd] in Hs.
  unfold pairsOf. cbn [fmap list_fmap concat fst snd]. fold (pairsOf plan).
  rewrite fmap_app, concat_app. f_equiv.
  - transitivity (concat ((fun k => filter (hasID k) l) <$> keys));
      [|apply (split_rows n); [by apply (Hkeys (n, keys)); left|done]].
    rewrite <- list_fmap_compose. unfold compose.
    pose proof (Hrows 0%nat (n, keys) l eq_refl eq_refl) as Hn. cbn in Hn. by rewrite Hn.
  - apply IH; [intros part Hp; apply Hkeys; by right|by injection Hlen|done|].
    intros i part l' Hp Hl. by apply (Hrows (S i)).
Qed.

Section Lookup.
Context {DBTX : Type} `{!Driver DBTX} {RT : Runtime}.
Context {K Tracer Instrument Logger : Type}.
Context (ErrorType : error -> KeyValue) (DebugEnabled : Logger -> bool).
#[local] Abbreviation stateT := (storeState DBTX Tracer Instrument Logger).
#[local] Abbreviation storeM := (stE stateT error).
#[local] Abbreviation storeT := (meshStore DBTX K Tracer Instrument Logger).
#[local] Abbreviation historyOf := (fun x : stateT => history (st_calls x)).
Implicit Types (q : storeT) (s : stateT).

(** ** The groups of a list of keys *)

Definition lookupSet q s (item : ListAccountsByIDsT) : string := setNameOf q s (lat_TenantKey item).

(** The sets that are asked, in the mesh's order, each with its distinct keys in
    the order they were first given. *)
Definition lookupPlan q s (items : list ListAccountsByIDsT) : list (string * list Z) :=
  keysPlan lat_ID (planOf (lookupSet q s) (setNames q s) items).

(** The distinct pairs of set and key, in the order they were first given. *)
Definition lookupRequests q s (items : list ListAccountsByIDsT) : list (string * Z) :=
  dedupe ((fun item => (lookupSet q s item, lat_ID item)) <$> items).

Definition manyGroupOk q s (n : string) (keys : list Z) (g : manyShardGroup) : Prop :=
  msg_args g = keys /\ (forall k, k ∈ msg_requested g <-> k ∈ keys) /\ shardNamed q s (msg_shard g) n.

(** Every key given can be routed. *)
Definition itemsRoutable q (items : list ListAccountsByIDsT) : Prop :=
  Forall (fun item => routable q (lat_TenantKey item)) items.

Definition lookupGrouped q s items (groups : gmap string manyShardGroup) : Prop :=
  forall n, match groups !! n with
            | None => partOf (lookupSet q s) items n = []
            | Some g => partOf (lookupSet q s) items n <> [] /\
                manyGroupOk q s n (dedupe (lat_ID <$> partOf (lookupSet q s) items n)) g
            end.

Lemma lookupRequests_elem q s items n k :
  (n, k) ∈ lookupRequests q s items <-> k ∈ dedupe (lat_ID <$> partOf (lookupSet q s) items n).
Proof.
  unfold lookupRequests, partOf. rewrite !dedupe_elem, !list_elem_of_fmap. split.
  - intros (x & [= -> ->] & Hx). exists x. split; [done|]. by apply list_elem_of_filter.
  - intros (x & -> & [<- Hx]%list_elem_of_filter). by exists x.
Qed.

Lemma lookupRequests_snoc q s items item :
  lookupRequests q s (items ++ [item]) =
  if decide (lat_ID item ∈ dedupe (lat_ID <$> partOf (lookupSet q s) items (lookupSet q s item)))
  then lookupRequests q s items else lookupRequests q s items ++ [(lookupSet q s item, lat_ID item)].
Proof.
  pose proof (lookupRequests_elem q s items (lookupSet q s item) (lat_ID item)) as H.
  unfold lookupRequests in *. rewrite fmap_app. cbn [fmap list_fmap]. rewrite dedupe_snoc.
  by apply decide_ext.
Qed.

Lemma addLookup_runs q s items groups i item :
  storeWf q s -> routable q (lat_TenantKey item) -> lookupGrouped q s items groups ->
  runs (addLookup q (groups, lookupRequests q s items) (i, Some item)) s
    (fun r s' => s' = s /\ lookupGrouped q s (items ++ [item]) r.1 /\ r.2 = lookupRequests q s (items ++ [item])).
Proof.
  intros Hwf Hkey Hg. destruct (shardOf_spec q s (lat_TenantKey item) Hwf Hkey) as (_ & Hin & Hname).
  cbn [addLookup comparableKey negb]. eapply runs_seq; [by apply resolveShard_key|]. intros ? ? [-> ->].
  eapply runs_seq; [by apply setNamed_name|]. intros ? ? [-> ->]. fold (lookupSet q s item) in *.
  rewrite lookupRequests_snoc. set (n := lookupSet q s item) in *. set (group := default _ _).
  assert (Hgroup : manyGroupOk q s n (dedupe (lat_ID <$> partOf (lookupSet q s) items n)) group).
  { specialize (Hg n). unfold group. destruct (groups !! n) as [g|]; [apply Hg|]. rewrite Hg. split_and!; [done| |done].
    intros k. split; [by intros ?%elem_of_empty|by intros ?%elem_of_nil]. }
  destruct Hgroup as (Hargs & Hreq & Hsh).
  assert (Hrest : forall g, manyGroupOk q s n (dedupe (lat_ID <$> partOf (lookupSet q s) (items ++ [item]) n)) g ->
    lookupGrouped q s (items ++ [item]) (<[n:=g]> groups)).
  { intros g Hok m. destruct (decide (n = m)) as [<-|Hne].
    - rewrite lookup_insert_eq. split; [|done]. rewrite partOf_snoc. fold n. rewrite decide_True by done. by destruct (partOf _ _ _).
    - rewrite lookup_insert_ne, partOf_snoc by done. fold n. rewrite decide_False by done. apply Hg. }
  rewrite partOf_snoc in Hrest. fold n in Hrest. rewrite decide_True, fmap_app in Hrest by done.
  cbn [fmap list_fmap] in Hrest. rewrite dedupe_snoc in Hrest.
  destruct (decide (lat_ID item ∈ dedupe _)) as [Hk|Hk].
  - rewrite bool_decide_eq_true_2 by by apply Hreq. apply runs_ret. split; [done|]. split; [|done]. by apply Hrest.
  - rewrite bool_decide_eq_false_2 by by rewrite Hreq. apply runs_ret. split; [done|]. split; [|done]. apply Hrest.
    split_and!; [cbn; by rewrite Hargs| |done]. intros k. cbn. rewrite elem_of_union, elem_of_singleton, Hreq, elem_of_app, list_elem_of_singleton.
    tauto.
Qed.

Lemma addLookups_runs q s xs items more groups :
  storeWf q s -> itemsRoutable q more -> lookupGrouped q s items groups -> snd <$> xs = Some <$> more ->
  runs (foldM (addLookup q) (groups, lookupRequests q s items) xs) s
    (fun r s' => s' = s /\ lookupGrouped q s (items ++ more) r.1 /\ r.2 = lookupRequests q s (items ++ more)).
Proof.
  intros Hwf. revert items more groups. induction xs as [|[i o] xs IH]; intros items [|item more] groups Hkeys Hg E; [|done..|].
  - apply runs_ret. by rewrite app_nil_r.
  - injection E as -> E. apply Forall_cons in Hkeys as [Hkey Hkeys]. cbn [foldM].
    eapply runs_seq; [by apply addLookup_runs|].
    intros [groups' requests] ? (-> & Hg' & Hr). cbn [fst snd] in *. subst requests.
    eapply runs_mono; [by apply (IH (items ++ [item]) more)|]. intros ? ? [-> H]. by rewrite <- !app_assoc in H.
Qed.

Lemma lookupGroups_runs q s items :
  storeWf q s -> itemsRoutable q items ->
  runs (foldM (addLookup q) (∅, []) (imap pair (Some <$> items))) s
    (fun r s' => s' = s /\ lookupGrouped q s items r.1 /\ r.2 = lookupRequests q s items).
Proof.
  intros Hwf Hkeys. apply (addLookups_runs q s _ [] items ∅ Hwf Hkeys); [|apply snd_imap_pair]. intros n. by rewrite lookup_empty.
Qed.

(** ** One group *)

(** A reader the set called [n] may be read from. *)
Definition readableAt q s (options : queryOptions DBTX) (n : string) (target : readQueries DBTX) : Prop :=
  exists p, p ∈ ReplicaSets (ms_mesh q) /\ setNamed s p n /\ readable options s p target.

Lemma manyTask_does q id s0 ctx options mode n keys g :
  storeWf q s0 -> manyGroupOk q s0 n keys g ->
  does historyOf (shared q id s0)
    (fun r l => exists target, readableAt q s0 options n target /\ askedMany listAccountsByIDs [VInt64Array keys] target r l)
    (manyTask ErrorType DebugEnabled id ctx options mode g).
Proof.
  intros Hwf (<- & _ & Hin & Hn). destruct (replicaSet_live q s0 _ Hwf Hin) as (st & rs & Hst & Hrs & _).
  set (post := fun r l => _). assert (Hread : forall (route : readQueries DBTX) meta, readTarget options st rs route ->
    does historyOf (shared q id s0) post
      ('(queryCtx, physical) ← act (startPhysical id ctx meta mode);
       r ← onDB (readQueries_ListAccountsByIDs route queryCtx (msg_args g));
       _ ← act (endPhysical ErrorType DebugEnabled physical r.2);
       mret r)).
  { intros target meta Ht. apply (does_step _ _ _ _ _ (fun r => physicalOk r.2)).
    { intros s Hs. eapply runs_mono; [apply startPhysical_runs, Hs|]. by intros r s' [? ?]. }
    intros [queryCtx physical] Hph.
    eapply does_db; [exact (asked_does listAccountsByIDs [VInt64Array (msg_args g)] target queryCtx)|]. intros r l Hl.
    apply does_finish; [done|]. exists target. rewrite app_nil_r. split; [|done].
    exists (rsh_replicaSet (msg_shard g)). split_and!; [done..|]. by exists st, rs. }
  assert (Hwrite : forall k, (forall r, Target r = WithMirrors (Writer (primary st)) (writeMirrors st) ->
      does historyOf (shared q id s0) post (k r)) ->
    does historyOf (shared q id s0) post (act (onHeap (ResolvedShard_WriteRoute (msg_shard g))) ≫= k)).
  { intros k Hk. apply (does_step _ _ _ _ _ (fun r => Target r = WithMirrors (Writer (primary st)) (writeMirrors st))); [|done].
    intros s [_ _ Hle]. apply shardWrite_runs. by rewrite (hle_sets _ _ Hle). }
  unfold manyTask. unfold readTarget in Hread. destruct (qo_tx options) as [tx|]; [|destruct (qo_primary options)].
  - apply Hwrite. intros r _. by apply Hread.
  - apply Hwrite. intros r ->. by apply Hread.
  - apply (does_step _ _ _ _ _ (fun r => Target r ∈ (nt_value <$> readTargetsOf (primary st) rs))).
    { intros s [Hw _ [_ Hle Hset]]. apply shardRead_runs; [apply Hw|by rewrite Hle|by apply Hset]. }
    intros r Hr. by apply Hread.
Qed.

(** ** Filing the rows *)

Lemma addGroups_runs q s plan groups rows m errs :
  Forall2 (fun part g => manyGroupOk q s part.1 part.2 g) plan groups -> length rows = length plan ->
  NoDup (fst <$> plan) ->
  runs (foldM addGroupRows (m, errs) (zip groups rows)) s (fun r s' => s' = s /\
    r.2 = errs ++ concat (zip_with (fun part l => strayErrors part.1 part.2 l) plan rows) /\
    (forall n, n ∉ fst <$> plan -> r.1 !! n = m !! n) /\
    forall i part l k, plan !! i = Some part -> rows !! i = Some l -> k ∈ part.2 ->
      default [] (r.1 !! part.1 ≫= fun rowsByKey => rowsByKey !! k) = filter (hasID k) l).
Proof.
  intros Hplan. revert rows m errs. induction Hplan as [|[n keys] g plan groups Hok _ IH]; intros [|l rows] m errs Hlen Hnd;
    [by apply runs_ret; rewrite app_nil_r|done..|].
  cbn [zip zip_with foldM]. destruct Hok as (_ & Hreq & [_ Hname]). cbn [fst snd] in *.
  apply NoDup_cons in Hnd as [Hn Hnd]. injection Hlen as Hlen.
  destruct (addRows_spec n (msg_requested g) keys errs l Hreq) as (byKey & Hfold & Hrows).
  eapply (runs_seq _ _ _ (fun r s' => s' = s /\ r = (<[n := byKey]> m, errs ++ strayErrors n keys l))).
  { unfold addGroupRows. eapply runs_seq; [by apply setNamed_name|]. intros ? ? [-> ->]. rewrite Hfold. by apply runs_ret. }
  intros ? ? [-> ->]. eapply runs_mono; [by apply IH|]. intros [m' errs'] s' (-> & -> & Hout & Hin). cbn [fst snd] in *.
  split; [done|]. split_and!.
  - cbn. by rewrite <- app_assoc.
  - intros n' [Hne Hn']%not_elem_of_cons. rewrite Hout, lookup_insert_ne; done.
  - intros [|i] part l' k Hp Hl Hk; [|by apply (Hin i)]. injection Hp as <-. injection Hl as <-. cbn [fst snd] in *.
    rewrite Hout, lookup_insert_eq by done. cbn. by apply Hrows.
Qed.

Lemma mergeRows_spec plan requests rows (m : gmap string (gmap Z (list (option Account)))) :
  NoDup (fst <$> plan) -> length rows = length plan -> (forall x, x ∈ requests -> x ∈ pairsOf plan) ->
  (forall i part l k, plan !! i = Some part -> rows !! i = Some l -> k ∈ part.2 ->
      default [] (m !! part.1 ≫= fun rowsByKey => rowsByKey !! k) = filter (hasID k) l) ->
  concat ((fun '(shardName, key) => default [] (m !! shardName ≫= fun rowsByKey => rowsByKey !! key)) <$> requests) =
  mergeRows requests (fst <$> plan) rows.
Proof.
  intros Hnd Hlen Hreq Hm. unfold mergeRows. f_equal. apply list_fmap_ext. intros j [n k] Hj.
  apply list_elem_of_lookup_2, Hreq in Hj. unfold pairsOf in Hj. apply elem_of_concat in Hj as (part & Hpart & Hk).
  apply list_elem_of_fmap in Hk as (k' & [= -> ->] & Hk). apply list_elem_of_lookup_1 in Hpart as [i Hi].
  destruct (lookup_lt_is_Some_2 rows i) as [l Hl]; [rewrite Hlen; by eapply lookup_lt_Some|].
  rewrite (Hm i part l k' Hi Hl Hk). erewrite rowsOf_set; [done|done|by rewrite list_lookup_fmap, Hi|done].
Qed.

Lemma lookupPlan_shared q id s0 s items : shared q id s0 s -> lookupPlan q s items = lookupPlan q s0 items.
Proof. intros [_ _ [_ He _]]. unfold lookupPlan, lookupSet, setNames, setNameOf, nameOf. by rewrite He. Qed.

Lemma lookupRequests_shared q id s0 s items : shared q id s0 s -> lookupRequests q s items = lookupRequests q s0 items.
Proof. intros [_ _ [_ He _]]. unfold lookupRequests, lookupSet, setNameOf, nameOf. by rewrite He. Qed.

Lemma planOf_names_NoDup {X} (setOf : X -> string) names xs : NoDup names -> NoDup (fst <$> planOf setOf names xs).
Proof.
  intros Hnd. unfold planOf. induction Hnd as [|n names Hn _ IH]; [constructor|]. cbn [fmap list_fmap].
  rewrite filter_cons. destruct (decide _); [|done]. cbn. constructor; [|done].
  intros (part & -> & [_ (m & -> & Hm)%list_elem_of_fmap]%list_elem_of_filter)%list_elem_of_fmap. done.
Qed.

Lemma lookupPlan_NoDup q s items :
  storeWf q s -> NoDup (fst <$> lookupPlan q s items) /\ forall part, part ∈ lookupPlan q s items -> NoDup part.2.
Proof.
  intros Hwf. unfold lookupPlan, keysPlan. split.
  - rewrite <- list_fmap_compose. by apply (planOf_names_NoDup _ (setNames q s)), setNames_NoDup.
  - intros part (x & -> & _)%list_elem_of_fmap. apply dedupe_NoDup.
Qed.

Lemma lookupRequests_plan q s items :
  storeWf q s -> itemsRoutable q items -> lookupRequests q s items ≡ₚ pairsOf (lookupPlan q s items).
Proof.
  intros Hwf Hkeys. apply requests_permutation; [by apply setNames_NoDup|]. unfold itemsRoutable in Hkeys.
  rewrite Forall_forall in Hkeys. intros item Hitem. by apply setNameOf_elem, Hkeys.
Qed.

(** The answer loses no row. *)
Lemma lookupAnswer_complete q s items results rows :
  storeWf q s -> itemsRoutable q items -> length results = length (lookupPlan q s items) ->
  lookupAnswer (lookupRequests q s items) (lookupPlan q s items) results = (rows, None) ->
  rows ≡ₚ concat (fst <$> results).
Proof.
  intros Hwf Hitems Hlen E. unfold lookupAnswer in E. destruct (errorsJoin (failures _ _ _)); [done|].
  destruct (errorsJoin _) eqn:Hs in E; [done|]. injection E as <-. apply errorsJoin_None in Hs.
  destruct (lookupPlan_NoDup q s items Hwf) as [Hnd Hkeys].
  apply mergeRows_permutation; [done..|by rewrite length_fmap|by apply lookupRequests_plan|done].
Qed.

(** The part after the queries: filing the rows, their errors and the order. *)
Lemma filed_ends q id s0 s items groups results (Q : list (option Account) * option error -> Prop) :
  storeWf q s0 -> itemsRoutable q items -> shared q id s0 s -> length results = length (lookupPlan q s0 items) ->
  Forall2 (fun part g => manyGroupOk q s0 part.1 part.2 g) (lookupPlan q s0 items) groups ->
  Q (lookupAnswer (lookupRequests q s0 items) (lookupPlan q s0 items) results) ->
  let errs := failures "query ListAccountsByIDs on replica set %q: %w" (fst <$> lookupPlan q s0 items) (snd <$> results) in
  ends (_ ← failJoined errs;
        '(rowsByGroup, groupErrors) ← foldM addGroupRows (∅, errs) (zip groups (fst <$> results));
        _ ← failJoined groupErrors;
        mret (concat ((fun '(shardName, key) => default [] (rowsByGroup !! shardName ≫= fun rowsByKey => rowsByKey !! key))
          <$> lookupRequests q s0 items))) s
    (fun rows s' => s' = s /\ Q (rows, None)) (fun e s' => s' = s /\ Q ([], Some e)).
Proof.
  intros Hwf Hkeys Hs Hlen Hplan HQ errs. unfold lookupAnswer in HQ. fold errs in HQ. apply failJoined_ends.
  destruct (errorsJoin errs) as [e|] eqn:He; [done|]. apply errorsJoin_None in He.
  destruct (lookupPlan_NoDup q s0 items Hwf) as [Hnd _].
  eapply ends_seq; [apply (addGroups_runs q s (lookupPlan q s0 items)); [|by rewrite length_fmap|done]|].
  { eapply Forall2_impl; [exact Hplan|]. intros part g (Ha & Hr & Hn). split_and!; [done..|].
    by apply (shardNamed_shared _ _ _ _ _ _ Hs). }
  intros [m errs'] ? (-> & Herrs & _ & Hm). cbn [fst snd] in *. rewrite He in Herrs. cbn in Herrs. subst errs'.
  apply failJoined_ends. destruct (errorsJoin _) as [e|]; [done|]. split; [done|].
  rewrite (mergeRows_spec (lookupPlan q s0 items) _ (fst <$> results)); [done|done|by rewrite length_fmap| |done].
  intros x Hx. by rewrite <- (lookupRequests_plan q s0 items Hwf Hkeys).
Qed.

(** What a lookup returns and asks. *)
Definition lookedUp q s (options : queryOptions DBTX) (items : list ListAccountsByIDsT)
    (r : list (option Account) * option error) s' : Prop :=
  let plan := lookupPlan q s items in
  if isSome (qo_tx options) && bool_decide (1 < length plan)%nat
  then r = ([], Some (Sentinel ErrCrossShardTransaction)) /\ st_calls s' = st_calls s
  else exists asked results,
    history (st_calls s') ≡ₚ history (st_calls s) ++ concat asked /\
    Forall3 (fun part l result => exists target, readableAt q s options part.1 target /\
      askedMany listAccountsByIDs [VInt64Array part.2] target result l) plan asked results /\
    r = lookupAnswer (lookupRequests q s items) plan results /\
    (r.2 = None -> r.1 ≡ₚ concat (fst <$> results)).

Lemma ListAccountsByIDs_runs q s ctx items opts :
  storeWf q s -> itemsRoutable q items ->
  runs (ListAccountsByIDs ErrorType DebugEnabled q ctx (Some <$> items) opts) s (fun r s' =>
    storeKept q s s' /\ lookedUp q s (applyQueryOptions opts) items r s').
Proof.
  intros Hwf Hkeys. unfold ListAccountsByIDs, lookedUp. set (options := applyQueryOptions opts).
  set (plan := lookupPlan q s items). apply (fanned_runs _ _ [] _ _ _ _ _ _ _ _ Hwf).
  intros ctx' id s1 Hs1 Hc1. fold options.
  eapply ends_seq; [by apply lookupGroups_runs; [apply Hs1|]|]. intros [groups requests] ? (-> & Hg & Hr). cbn [fst snd] in Hg, Hr.
  eapply ends_seq; [apply orderedGroups_runs, Hs1|]. intros gs ? [-> Egs].
  assert (Hplan : Forall2 (fun part g => manyGroupOk q s part.1 part.2 g) plan gs).
  { rewrite Egs. unfold plan. rewrite <- (lookupPlan_shared _ _ _ _ _ Hs1). apply Forall2_fmap_l.
    eapply Forall2_impl; [by apply (planOf_groups (lookupSet q s1) (fun n part g => manyGroupOk q s1 n (dedupe (lat_ID <$> part)) g))|].
    intros part g (Ha & Hreq & Hn). split_and!; [done..|]. by apply (shardNamed_shared _ _ _ _ _ _ Hs1). }
  rewrite (lookupRequests_shared _ _ _ _ _ Hs1) in Hr. subst requests.
  clear Egs Hg. pose proof (Forall2_length _ _ _ Hplan) as Hlen. rewrite Hlen.
  replace (bool_decide (1 < length gs)%nat) with (1 <? Z.of_nat (length gs))
    by (case_bool_decide; [apply Z.ltb_lt|apply Z.ltb_ge]; lia).
  destruct (isSome (qo_tx options) && (1 <? Z.of_nat (length gs))) eqn:Htx.
  { eapply ends_seq; [by apply (shared_setRoute q id s)|]. intros ? s2 [Hs2 Hc2]. split; [done|]. intros s3 ->. by rewrite Hc2. }
  eapply ends_seq; [by apply (shared_setRoute q id s)|]. intros ? s2 [Hs2 Hc2].
  destruct (Z.eqb_spec (Z.of_nat (length gs)) 0) as [H0|_].
  { split; [done|]. intros s3 ->. exists [], []. assert (Hnil : plan = []) by (destruct plan; [done|cbn in Hlen; lia]).
    assert (lookupRequests q s items = []) as ->.
    { apply Permutation_nil. rewrite (lookupRequests_plan q s items Hwf Hkeys). fold plan. by rewrite Hnil. }
    rewrite app_nil_r, Hc2, Hc1, Hnil. split_and!; [done|constructor|done|done]. }
  eapply (planned_ends plan gs msg_shard (manyGroupOk q s)); [exact Hplan|by intros ? ? ? (? & ? & ?)|..].
  { intros n part g Hok. by apply (manyTask_does _ _ _ _ options _ n part). }
  { done. }
  intros results s3 ls Hs3 Hc3 Hall. cbn beta in Hc3. rewrite Hc2, Hc1 in Hc3.
  assert (Hlen' : length results = length plan) by by destruct (Forall3_length_lr _ _ _ _ Hall).
  eapply ends_mono; [apply (filed_ends q id s s3 items gs results
    (fun r => r = lookupAnswer (lookupRequests q s items) plan results) Hwf Hkeys Hs3 Hlen' Hplan eq_refl)| |].
  - intros rows ? [-> E]. split; [done|]. intros s5 ->. exists ls, results. split_and!; [done..|]. intros _.
    by apply (lookupAnswer_complete q s items).
  - intros e ? [-> E]. split; [done|]. intros s5 ->. by exists ls, results.
Qed.

(** C12: Looking keys up. For keys that are not nil and that resolve, whatever the
    order in which the goroutines run, ListAccountsByIDs never panics. It asks each set that a
    key is routed to exactly once, on a reader the options allow, for its
    distinct keys in the order they were first given, and makes no other call.
    When every set answers and every row has a key its set was asked for, the
    result is the rows in the order in which the keys were first given, and it
    is a permutation of the rows that came back; otherwise it is empty and the
    error joins the errors of exactly the sets that failed, or else of exactly
    the stray rows. In a transaction with keys of more than one set it fails
    with ErrCrossShardTransaction and makes no call. *)
Theorem list_accounts_by_ids_correct q s ctx items opts :
  storeWf q s -> itemsRoutable q items ->
  let options := applyQueryOptions opts in
  let plan := lookupPlan q s items in
  exists r s', ListAccountsByIDs ErrorType DebugEnabled q ctx (Some <$> items) opts s = (Ok r, s') /\
  if isSome (qo_tx options) && bool_decide (1 < length plan)%nat
  then r = ([], Some (Sentinel ErrCrossShardTransaction)) /\ st_calls s' = st_calls s
  else exists asked results,
    history (st_calls s') ≡ₚ history (st_calls s) ++ concat asked /\
    Forall3 (fun part l result => exists target, readableAt q s options part.1 target /\
      askedMany listAccountsByIDs [VInt64Array part.2] target result l) plan asked results /\
    r = lookupAnswer (lookupRequests q s items) plan results /\
    (r.2 = None -> r.1 ≡ₚ concat (fst <$> results)).
Proof.
  intros Hwf Hkeys options plan. destruct (ListAccountsByIDs_runs q s ctx items opts Hwf Hkeys) as (r & s' & Hrun & _ & Hr).
  by exists r, s'.
Qed.

End Lookup.

#[local] Existing Instance StoreSample.runtime.

Module LookupSample.
Definition key (tenant id : Z) : ListAccountsByIDsT := MkListAccountsByIDsT (MkTenantKey tenant) id.
(** The first and the third key go to the same set; the third is the first again. *)
Definition items : list ListAccountsByIDsT := [key 3 6; key 4 5; key 3 6; key 5 9].
End LookupSample.

Lemma list_accounts_by_ids_correct_witness :
  exists q s, FanoutSample.opened = Some (q, s) /\
    lookupPlan q s LookupSample.items = [("eu", [6; 9]); ("us", [5])] /\
    exists r s', ListAccountsByIDs FanoutSample.errorType FanoutSample.debug q sampleContext
        (Some <$> LookupSample.items) [ReadFromPrimary] s = (Ok r, s') /\
      r = ([Some (MkAccount 6 3 "Barbara"); Some (MkAccount 5 4 "Alan")], None).
Proof.
  destruct FanoutSample.opened_routable as (q & s & E & Hwf & Hkeys). exists q, s. split; [exact E|].
  assert (H : match FanoutSample.opened with
    | Some (q, s) => lookupPlan q s LookupSample.items = [("eu", [6; 9]); ("us", [5])] /\
        (ListAccountsByIDs FanoutSample.errorType FanoutSample.debug q sampleContext
          (Some <$> LookupSample.items) [ReadFromPrimary] s).1 =
        Ok ([Some (MkAccount 6 3 "Barbara"); Some (MkAccount 5 4 "Alan")], None)
    | None => False end) by (vm_compute; auto).
  rewrite E in H. destruct H as [Hplan Hr]. split; [exact Hplan|].
  destruct (list_accounts_by_ids_correct FanoutSample.errorType FanoutSample.debug q s sampleContext
    LookupSample.items [ReadFromPrimary] Hwf (Forall_true _ _ (fun item => Hkeys (lat_TenantKey item)))) as (r & s' & Hrun & _).
  exists r, s'. split; [exact Hrun|]. rewrite Hrun in Hr. by injection Hr.
Defined.
