(* ===== verification/StoreSubmit.v ===== *)
(** * StoreSubmit: handing rows to the copy batchers

    CopyAccountsAsync splits its rows as CopyAccounts does and submits each part
    to the copy batcher of its replica set. This file joins the store with the
    batchers: which batcher accepts which rows, that no other batcher moves, and
    what the future gives once the batchers have resolved their requests. *)

From S2P Require Import Prelude Errors GoStrings Hasher Balancer Routing Telemetry Future CopyBatch CopyBatchInv CopyBatchSteps CopyBatchMoves Builder Topology OpenMesh Tasks StoreQueries Store StoreOps StoreAsync StoreBuild StoreLemmas StoreRefine MemoryDriver StoreOpen StoreFanout StoreCopy StoreLookup.

#[local] Open Scope Z_scope.

(** A batcher accepts a submission that is not empty. *)
Lemma submit_reaches {T Ctx} (WithoutCancel : Ctx -> Ctx) c obs (w : world (T := T)) ctx coalesce rws :
  reachable WithoutCancel c obs w -> rws <> [] ->
  exists w', submit WithoutCancel w ctx None None rws coalesce = Ok (SRequest (nextRequest w), w') /\
    reachable WithoutCancel c obs w' /\
    accepted (hist w') = accepted (hist w) ++ [(nextRequest w, coalesce, rws)] /\
    CopyBatch.copied (hist w') = CopyBatch.copied (hist w) /\ laterWorld w w'.
Proof.
  intros Hr Hne. pose proof (reachable_good _ _ _ _ Hr) as Hg. destruct (Hg) as [Hinv Ht _ _].
  destruct (submit_accepted WithoutCancel w ctx rws coalesce Hinv Ht Hne) as (w2 & w' & Hsub & Hs & _ & _ & (_ & Hh & _) & _).
  assert (He : exec WithoutCancel w (EvSubmit ctx None None rws coalesce) = Some (Ok w')) by (cbn; by rewrite Hsub).
  destruct (schedule_record _ _ Hs) as [Ha Hc]. rewrite Hh in Ha, Hc. exists w'.
  split_and!; [done| |exact Ha|exact Hc|by eapply exec_later].
  eapply reach_step; [exact Hr|by eexists].
Qed.

Section Submit.
Context {DBTX : Type} `{!Driver DBTX} {RT : Runtime}.
Context {K Tracer Instrument Logger : Type}.
Context (ErrorType : error -> KeyValue) (DebugEnabled : Logger -> bool).
#[local] Abbreviation stateT := (storeState DBTX Tracer Instrument Logger).
#[local] Abbreviation storeM := (stE stateT error).
#[local] Abbreviation storeT := (meshStore DBTX K Tracer Instrument Logger).
#[local] Abbreviation refT := (batcherRef (DBTX := DBTX) (Tracer := Tracer) (Instrument := Instrument)
  (Logger := Logger)).
Implicit Types (q : storeT) (s : stateT).

#[local] Abbreviation batchersOf q := (cab_batchers (ms_copyAccountsBatch q)).
#[local] Abbreviation enabledOf q := (cab_enabled (ms_copyAccountsBatch q)).

(** Every set has a batcher of its own, in a state it can reach. *)
Record batchersReady (c : CopyBatchConfig) q s : Prop := {
  brd_set n : n ∈ setNames q s -> exists ref w, batchersOf q !! n = Some ref /\
    st_batchers s !! br_batcher ref = Some w /\ reachable withoutCancel c [Some 0%nat] w;
  brd_distinct n m (r1 r2 : refT) : batchersOf q !! n = Some r1 -> batchersOf q !! m = Some r2 ->
    br_batcher r1 = br_batcher r2 -> n = m;
}.

Lemma openedStore_ready count hash resolver sets ms options primaryDB q store s s' :
  openedStore ErrorType DebugEnabled count hash resolver sets ms options primaryDB q store s s' ->
  batchersReady (batchConfigOf options) q s'.
Proof.
  intros H. pose proof (openedStore_wf _ _ _ _ _ _ _ _ _ _ _ _ _ H) as Hwf.
  destruct H as (_ & _ & _ & _ & _ & _ & Hb & _). split; [|apply Hb].
  intros n (p & -> & Hp)%list_elem_of_fmap. destruct (replicaSet_live q s' p Hwf Hp) as (st & rs & _ & _ & Hn).
  destruct (bf_sets _ _ _ _ _ Hb p _ Hp Hn) as (ref & Href & _ & b & _ & _ & _ & Hnew & Hl).
  exists ref, (initial b). unfold setNamed in Hn. rewrite Hn. split_and!; [done..|]. by apply reach_new.
Qed.

(** Part [part] of the rows was accepted by the batcher of its set, as the
    submission [x]; no COPY ran, and what was resolved or flushed stays so. *)
Definition delivered (c : CopyBatchConfig) q s s' (part : string * list CopyAccountsT) (x : string * loc * submitted) : Prop :=
  exists ref w w', batchersOf q !! part.1 = Some ref /\ x = (part.1, br_batcher ref, SRequest (nextRequest w)) /\
    st_batchers s !! br_batcher ref = Some w /\ st_batchers s' !! br_batcher ref = Some w' /\
    accepted (hist w') = accepted (hist w) ++ [(nextRequest w, enabledOf q, CopyAccountsT_sqlcParams <$> part.2)] /\
    CopyBatch.copied (hist w') = CopyBatch.copied (hist w) /\ laterWorld w w' /\
    reachable withoutCancel c [Some 0%nat] w'.

(** The states between submissions: other batchers do not move. *)
Definition onlyBatchers q (names : list string) s s' : Prop :=
  (exists m, s' = setBatchers m (st_next s) s) /\
  forall l, (forall n (ref : refT), n ∈ names -> batchersOf q !! n = Some ref -> br_batcher ref <> l) ->
    st_batchers s' !! l = st_batchers s !! l.

(** One submission. *)
Definition submitOne q (acceptedContext : Context) (parts : list (string * loc * submitted))
    (x : string * refT * list CopyAccountsParams) : storeM (list (string * loc * submitted)) :=
  let '(name, ref, args) := x in
  future ← onBatcher (br_batcher ref) (fun w =>
    if enabledOf q
    then Submit withoutCancel w acceptedContext (ctx_err acceptedContext) (ctx_err acceptedContext) args
    else SubmitUnbatched withoutCancel w acceptedContext (ctx_err acceptedContext) (ctx_err acceptedContext) args);
  mret (parts ++ [(name, br_batcher ref, future)]).

Lemma submitOne_runs c q ctx done n part (ref : refT) w s :
  ctx_err ctx = None -> part <> [] -> batchersOf q !! n = Some ref ->
  st_batchers s !! br_batcher ref = Some w -> reachable withoutCancel c [Some 0%nat] w ->
  runs (submitOne q ctx done (n, ref, CopyAccountsT_sqlcParams <$> part)) s
    (fun r s' => r = done ++ [(n, br_batcher ref, SRequest (nextRequest w))] /\ onlyBatchers q [n] s s' /\
       delivered c q s s' (n, part) (n, br_batcher ref, SRequest (nextRequest w))).
Proof.
  intros Hctx Hne Href Hw Hr.
  destruct (submit_reaches withoutCancel c _ w ctx (enabledOf q) (CopyAccountsT_sqlcParams <$> part) Hr)
    as (w' & Hsub & Hr' & Hacc & Hcop & Hlat); [by destruct part|].
  set (s' := setBatchers (<[br_batcher ref := w']> (st_batchers s)) (st_next s) s).
  unfold submitOne. rewrite Hctx. apply (runs_seq _ _ _ (fun sub s1 => sub = SRequest (nextRequest w) /\ s1 = s')).
  { eexists _, s'. split; [|done]. unfold onBatcher. rewrite Hw. unfold Submit, SubmitUnbatched.
    destruct (enabledOf q); by rewrite Hsub. }
  intros ? ? [-> ->]. apply runs_ret. split_and!; [done|..].
  - split; [by eexists|]. intros l Hl. apply lookup_insert_ne. apply (Hl n ref); [by left|done].
  - exists ref, w, w'. split_and!; [done..|apply lookup_insert_eq|exact Hacc|exact Hcop|exact Hlat|exact Hr'].
Qed.

Lemma onlyBatchers_cons q n names s s1 s2 :
  onlyBatchers q [n] s s1 -> onlyBatchers q names s1 s2 -> onlyBatchers q (n :: names) s s2.
Proof.
  intros [[m1 ->] H1] [[m2 ->] H2]. split; [by eexists|]. intros l Hl. rewrite H2, H1; [done|..].
  - intros k ref ->%list_elem_of_singleton. apply Hl. left.
  - intros k ref Hk. apply Hl. by right.
Qed.

Lemma delivered_later c q names s s1 s2 part x :
  (forall k, k ∈ names -> k <> part.1) ->
  (forall n m (r1 r2 : refT), batchersOf q !! n = Some r1 -> batchersOf q !! m = Some r2 -> br_batcher r1 = br_batcher r2 -> n = m) ->
  delivered c q s s1 part x -> onlyBatchers q names s1 s2 -> delivered c q s s2 part x.
Proof.
  intros Hne Hd (ref & w & w' & Href & -> & Hw & Hw' & Hacc & Hcop & Hl & Hr) [_ Ho]. exists ref, w, w'. split_and!; try done.
  rewrite Ho; [done|]. intros k r Hk Hr2 E. apply (Hne k Hk). by apply (Hd _ _ r ref).
Qed.

Lemma delivered_earlier c q n s s1 s2 part x :
  part.1 <> n ->
  (forall n m (r1 r2 : refT), batchersOf q !! n = Some r1 -> batchersOf q !! m = Some r2 -> br_batcher r1 = br_batcher r2 -> n = m) ->
  onlyBatchers q [n] s s1 -> delivered c q s1 s2 part x -> delivered c q s s2 part x.
Proof.
  intros Hne Hd [_ Ho] (ref & w & w' & Href & -> & Hw & Hw' & Hacc & Hcop & Hl & Hr). exists ref, w, w'. split_and!; try done.
  rewrite <- Ho; [done|]. intros k r ->%list_elem_of_singleton Hr2 E. apply Hne. symmetry. by apply (Hd _ _ r ref).
Qed.

Section Ready.
Context (c : CopyBatchConfig) (q : storeT).
Hypothesis distinct : forall n m (r1 r2 : refT),
  batchersOf q !! n = Some r1 -> batchersOf q !! m = Some r2 -> br_batcher r1 = br_batcher r2 -> n = m.

(** The submissions, one after the other. *)
Lemma submitAll_runs ctx plan (refs : list refT) s done :
  ctx_err ctx = None -> NoDup (fst <$> plan) ->
  Forall2 (fun part ref => part.2 <> [] /\ batchersOf q !! part.1 = Some ref /\
    exists w, st_batchers s !! br_batcher ref = Some w /\ reachable withoutCancel c [Some 0%nat] w) plan refs ->
  runs (foldM (submitOne q ctx) done (zip_with (fun part ref => (part.1, ref, CopyAccountsT_sqlcParams <$> part.2)) plan refs)) s
    (fun r s' => onlyBatchers q (fst <$> plan) s s' /\
       exists parts, r = done ++ parts /\ Forall2 (delivered c q s s') plan parts).
Proof using distinct.
  intros Hctx Hnd Hall. revert s done Hnd Hall. revert refs.
  induction plan as [|[n part] plan IH]; intros refs s done Hnd Hall.
  { inversion Hall. apply runs_ret. split; [|exists []; by rewrite app_nil_r].
    split; [exists (st_batchers s); by destruct s|done]. }
  apply NoDup_cons in Hnd as [Hn Hnd]. inversion Hall as [|? ref ? refs' (Hne & Href & w & Hw & Hr) Hrest]. subst.
  cbn [zip_with foldM fst snd] in *. eapply runs_seq; [by apply (submitOne_runs c q ctx done n part ref w s)|].
  intros ? s1 (-> & Honly & Hdel). eapply runs_mono; [apply IH; [done|]|].
  - eapply Forall2_impl_elem; [exact Hrest|]. intros part' ref' Hin (? & Href' & w' & Hw' & Hr'). split_and!; [done..|].
    exists w'. split; [|done]. rewrite (proj2 Honly); [done|]. intros k r ->%list_elem_of_singleton Hk E.
    apply Hn. rewrite (distinct _ _ _ _ Hk Href' E). by apply (list_elem_of_fmap_2 fst).
  - intros r s2 [Ho (parts & -> & Hparts)]. split; [by apply (onlyBatchers_cons q n _ s s1 s2)|].
    exists ((n, br_batcher ref, SRequest (nextRequest w)) :: parts). split; [by rewrite <- app_assoc|]. constructor.
    + eapply delivered_later; [|done..]. by intros k Hk ->.
    + eapply Forall2_impl_elem; [exact Hparts|]. intros part' x Hin. apply (delivered_earlier _ _ n); [|done..].
      intros E. apply Hn. rewrite <- E. by apply (list_elem_of_fmap_2 fst).
Qed.

(** Looking the batchers up. *)
Lemma targets_runs s plan gs done :
  Forall2 (fun part g => copyGroupOk q s part.1 part.2 g) plan gs ->
  Forall (fun part => is_Some (batchersOf q !! part.1)) plan ->
  runs (foldM (fun targets group =>
      name ← onHeap (ResolvedShard_ReplicaSetName (csg_shard group));
      match batchersOf q !! name with
      | None => throw (Errorf "query CopyAccountsAsync has no copy batcher for replica set %q" [AStr name] [])
      | Some ref => mret (targets ++ [(name, ref : refT, csg_args group)])
      end) done gs) s
    (fun r s' => s' = s /\ exists refs, Forall2 (fun part ref => batchersOf q !! part.1 = Some ref) plan refs /\
       r = done ++ zip_with (fun part ref => (part.1, ref, CopyAccountsT_sqlcParams <$> part.2)) plan refs).
Proof.
  intros Hplan. revert done. induction Hplan as [|part g plan gs [Hargs [_ Hn]] _ IH]; intros done Hrefs.
  { apply runs_ret. split; [done|]. exists []. by rewrite app_nil_r. }
  apply Forall_cons in Hrefs as [[ref Href] Hrefs]. cbn [foldM].
  eapply (runs_seq _ _ _ (fun r s' => s' = s /\ r = done ++ [(part.1, ref, CopyAccountsT_sqlcParams <$> part.2)])).
  { eapply runs_seq; [by apply setNamed_name|]. intros ? ? [-> ->]. rewrite Href, Hargs. by apply runs_ret. }
  intros ? ? [-> ->]. eapply runs_mono; [by apply IH|]. intros r s' (-> & refs & H & ->). split; [done|].
  exists (ref :: refs). split; [by constructor|]. cbn. by rewrite <- app_assoc.
Qed.
End Ready.

(** What the future gives once every part is resolved: the same as the
    synchronous call gives for the same answers of the sets. *)
Lemma combineParts_fold names (results : list (Z * option error)) count errs :
  length names = length results ->
  exists count', foldl (fun '(count, copyErrors) '(shardName, (shardCount, err)) =>
      match err with
      | Some e => (count, copyErrors ++ [Errorf "query CopyAccounts on replica set %q: %w" [AStr shardName] [e]])
      | None => (s64 (count + shardCount), copyErrors)
      end) (count, errs) (zip names results) =
    (count', errs ++ failures "query CopyAccounts on replica set %q: %w" names (snd <$> results)) /\
    (failures "query CopyAccounts on replica set %q: %w" names (snd <$> results) = [] ->
     count' = foldl (fun result copyResult => s64 (result + fst copyResult)) count results).
Proof.
  revert results count errs. induction names as [|n names IH]; intros [|[r [e|]] results] count errs Hlen; try done.
  - exists count. by rewrite app_nil_r.
  - injection Hlen as Hlen. destruct (IH results count
      (errs ++ [Errorf "query CopyAccounts on replica set %q: %w" [AStr n] [e]]) Hlen) as (count' & E & _).
    exists count'. cbn in E |- *. rewrite E. unfold failures. cbn. by rewrite <- app_assoc.
  - injection Hlen as Hlen. destruct (IH results (s64 (count + r)) errs Hlen) as (count' & E & Hc).
    exists count'. cbn in E |- *. rewrite E. unfold failures in *. cbn. by split.
Qed.

Lemma combineParts_joined (names : list string) (results : list (Z * option error)) :
  length names = length results ->
  combineParts (zip names results) = joinResults 0 copied "query CopyAccounts on replica set %q: %w" names results.
Proof.
  intros Hlen. destruct (combineParts_fold names results 0 [] Hlen) as (count & E & Hc).
  unfold combineParts, joinResults. rewrite E. cbn [app].
  destruct (errorsJoin (failures _ _ _)) eqn:He; [done|]. apply errorsJoin_None in He.
  by rewrite (Hc He), copied_foldl.
Qed.

(** The results of the parts of a future, when they are there. *)
Definition partsResolved s (parts : list (string * loc * submitted)) (results : list (Z * option error)) : Prop :=
  Forall2 (fun part r => partResult s part.1.2 part.2 = Some r) parts results.

Lemma asyncResult_joined s parts results :
  partsResolved s parts results ->
  asyncResult s (AsyncParts parts) =
  Some (joinResults 0 copied "query CopyAccounts on replica set %q: %w" (fst ∘ fst <$> parts) results).
Proof.
  intros H. cbn [asyncResult]. assert (mapM (fun '(name, p, sub) => pair name <$> partResult s p sub) parts =
    Some (zip (fst ∘ fst <$> parts) results)) as ->.
  - apply mapM_Some. induction H as [|[[n p] sub] r parts results Hr _ IH]; constructor; [|exact IH].
    cbn in Hr |- *. by rewrite Hr.
  - cbn. rewrite combineParts_joined; [done|]. rewrite length_fmap. by eapply Forall2_length.
Qed.

Lemma planOf_nonempty {X} (nameFor : X -> string) names xs part : part ∈ planOf nameFor names xs -> part.2 <> [] /\ part.1 ∈ names.
Proof. unfold planOf. intros [H (n & -> & Hn)%list_elem_of_fmap]%list_elem_of_filter. done. Qed.

(** A call asks no database, and its span [id] is live. *)
Record traced (id : nat) s s' : Prop := {
  tra_calls : st_calls s' = st_calls s;
  tra_heap : heapLe (st_heap s) (st_heap s');
  tra_live i : spanLive i s -> spanLive i s';
  tra_span : spanLive id s';
}.

Lemma traced_frame id s s' : frame s s' -> spanLive id s' -> traced id s s'.
Proof. intros [] Hid. by split. Qed.

(** What a call leaves: its source in the state [s']. *)
Definition asyncPost c q id s (ctx : Context) rows (source : asyncSource) s' : Prop :=
  traced id s s' /\
  match ctx_err ctx, rows with
  | _, [] => source = AsyncResolved 0 None /\ st_batchers s' = st_batchers s
  | Some e, _ => source = AsyncResolved 0 (Some e) /\ st_batchers s' = st_batchers s
  | None, _ => exists parts, source = AsyncParts parts /\ Forall2 (delivered c q s s') (copyPlan q s rows) parts /\
      (forall l, (forall n (ref : refT), n ∈ fst <$> copyPlan q s rows -> batchersOf q !! n = Some ref -> br_batcher ref <> l) ->
         st_batchers s' !! l = st_batchers s !! l) /\
      forall s2 results, partsResolved s2 parts results -> asyncResult s2 source =
        Some (joinResults 0 copied "query CopyAccounts on replica set %q: %w" (fst <$> copyPlan q s rows) results)
  end.

Lemma copyPlan_nil q s rows : storeWf q s -> rowsRoutable q rows -> copyPlan q s rows = [] <-> rows = [].
Proof.
  intros Hwf Hkeys. assert (H : concat (snd <$> copyPlan q s rows) ≡ₚ rows).
  { apply planOf_permutation; [by apply setNames_NoDup|]. unfold rowsRoutable in Hkeys. rewrite Forall_forall in Hkeys.
    intros row Hrow. by apply setNameOf_elem, Hkeys. }
  split; intros E; [rewrite E in H; by apply Permutation_nil|]. subst rows.
  destruct (copyPlan q s []) as [|part plan] eqn:Ep; [done|].
  destruct (planOf_nonempty (rowSet q s) (setNames q s) [] part) as [Hne _].
  { unfold copyPlan in Ep. rewrite Ep. left. }
  symmetry in H. apply Permutation_nil in H. cbn in H. apply app_eq_nil in H as [H _]. done.
Qed.

Lemma delivered_names c q s s' plan parts : Forall2 (delivered c q s s') plan parts -> fst ∘ fst <$> parts = fst <$> plan.
Proof. induction 1 as [|part x plan parts (ref & w & w' & _ & -> & _) _ IH]; [done|]. cbn. by f_equal. Qed.

(** The submissions of a call, from any state that differs in telemetry only. *)
Lemma submitGroups_ends c q id s s2 ctx ctx' rows gs :
  storeWf q s -> batchersReady c q s -> frame s s2 -> spanLive id s2 -> ctx_err ctx' = ctx_err ctx -> rows <> [] ->
  Forall2 (fun part g => copyGroupOk q s2 part.1 part.2 g) (copyPlan q s rows) gs ->
  ends (submitGroups q ctx' gs) s2 (asyncPost c q id s ctx rows) (fun e => asyncPost c q id s ctx rows (AsyncResolved 0 (Some e))).
Proof.
  intros Hwf [Hset Hdist] Hf Hid Hctx Hne Hplan. unfold submitGroups. rewrite Hctx.
  destruct (ctx_err ctx) as [e|] eqn:He.
  { split; [by apply traced_frame|]. rewrite He. destruct rows; [done|]. split; [done|apply Hf]. }
  assert (Href : forall part, part ∈ copyPlan q s rows -> part.2 <> [] /\ exists ref w, batchersOf q !! part.1 = Some ref /\
    st_batchers s !! br_batcher ref = Some w /\ reachable withoutCancel c [Some 0%nat] w).
  { intros part [Hp Hin]%planOf_nonempty. split; [done|]. by apply Hset. }
  eapply ends_seq; [apply (targets_runs q s2 (copyPlan q s rows) gs); [done|]|].
  { apply Forall_forall. intros part (_ & ref & w & H & _)%Href. by exists ref. }
  intros ? ? (-> & refs & Hrefs & ->). cbn [app].
  eapply ends_seq; [apply (submitAll_runs c q Hdist (withoutCancel ctx') (copyPlan q s rows) refs s2 []); [done|..]|].
  { by apply planOf_names_NoDup, setNames_NoDup. }
  { eapply Forall2_impl_elem; [exact Hrefs|]. intros part ref (Hp & ref' & w & Href' & Hw & Hr)%Href E. simplify_eq.
    split_and!; [done..|]. exists w. by rewrite (fr_batchers _ _ Hf). }
  intros ? s3 ([[m ->] Ho] & parts & -> & Hparts). cbn [app] in *.
  assert (Hdel : Forall2 (delivered c q s (setBatchers m (st_next s2) s2)) (copyPlan q s rows) parts).
  { eapply Forall2_impl; [exact Hparts|]. intros part x. unfold delivered. by rewrite (fr_batchers _ _ Hf). }
  split; [destruct Hf; by split|]. rewrite He. destruct rows as [|row rows]; [done|]. exists parts. split_and!; [done..| |].
  - intros l Hl. rewrite (Ho l Hl). by rewrite (fr_batchers _ _ Hf).
  - intros s4 results Hres. rewrite (asyncResult_joined s4 parts results Hres). by rewrite (delivered_names _ _ _ _ _ _ Hdel).
Qed.

Lemma CopyAccountsAsync_runs c q s ctx rows :
  storeWf q s -> batchersReady c q s -> rowsRoutable q rows ->
  runs (CopyAccountsAsync ErrorType DebugEnabled q ctx (Some <$> rows)) s (fun f s' => exists id,
    asyncPost c q id s ctx rows (af_source f) s' /\ af_finish f = [endLogical ErrorType DebugEnabled id] /\
    af_await f = fun ctxErr => awaitFuture ErrorType DebugEnabled q ctxErr 0 (asyncView (af_source f))).
Proof.
  intros Hwf Hready Hkeys. set (plan := copyPlan q s rows). unfold CopyAccountsAsync.
  eapply runs_seq; [by apply startLogical_runs, sw_telemetry with (s := s)|].
  intros [ctx' id] s1 (Hctx & Hid & H1). cbn [fst snd] in *.
  assert (Hsh : shared q id s s1) by (split; [by eapply storeWf_frame|done|apply H1]).
  apply (runs_seq _ _ _ (fun r s' => asyncPost c q id s ctx rows
    (match r.2 with Some e => AsyncResolved 0 (Some e) | None => r.1 end) s')).
  2:{ intros [source err] s' Hpost. apply runs_ret. by exists id. }
  apply returning_runs. cbn [fst snd].
  eapply ends_seq; [by apply copyGroups_runs; [apply Hsh|]|]. intros groups ? [-> Hg].
  eapply ends_seq; [apply orderedGroups_runs, Hsh|]. intros gs ? [-> Egs].
  eapply ends_seq; [by apply setRoute_runs|]. intros ? s2 H2.
  assert (Hf : frame s s2) by by transitivity s1. assert (Hsh2 : shared q id s s2) by by eapply shared_frame.
  assert (Hplan : Forall2 (fun part g => copyGroupOk q s2 part.1 part.2 g) plan gs).
  { rewrite Egs. unfold plan. rewrite <- (copyPlan_shared _ _ _ _ _ Hsh).
    eapply Forall2_impl; [by apply (planOf_groups (rowSet q s1) (copyGroupOk q s1))|].
    intros part g [Ha Hn]. split; [done|]. apply (shardNamed_shared _ _ _ _ _ _ Hsh2). by apply (shardNamed_shared _ _ _ _ _ _ Hsh). }
  case_bool_decide as Hlen.
  - assert (Hnil : rows = []).
    { apply (copyPlan_nil q s rows Hwf Hkeys). fold plan. apply nil_length_inv. by rewrite (Forall2_length _ _ _ Hplan). }
    subst rows. split; [apply traced_frame; [done|apply Hsh2]|]. destruct (ctx_err ctx); (split; [done|apply Hf]).
  - apply submitGroups_ends; [done..|apply Hsh2|done| |done]. intros ->. apply Hlen. rewrite <- (Forall2_length _ _ _ Hplan).
    unfold plan. by rewrite (proj2 (copyPlan_nil q s [] Hwf (List.Forall_nil _)) eq_refl).
Qed.

(** C11: Asynchronous copies reach the right batchers. For rows that are not nil,
    whose keys resolve, and a store whose sets each have a batcher, CopyAccountsAsync never panics
    and makes no database call. A cancelled context or an empty input moves no
    batcher. Otherwise each part of the rows (the parts of CopyAccounts) is
    accepted exactly once, by the batcher of its set and in the same order, as
    one submission, coalesced when batching is configured and on its own when
    not; every other batcher is left as it was; and once the batchers have
    resolved these submissions the future gives the sum of their counts, or the
    join of exactly the failed sets' errors. *)
Theorem copy_accounts_async_correct c q s ctx rows :
  storeWf q s -> batchersReady c q s -> rowsRoutable q rows ->
  let plan := copyPlan q s rows in
  exists f s', CopyAccountsAsync ErrorType DebugEnabled q ctx (Some <$> rows) s = (Ok f, s') /\
  st_calls s' = st_calls s /\
  match ctx_err ctx, rows with
  | _, [] => af_source f = AsyncResolved 0 None /\ st_batchers s' = st_batchers s
  | Some e, _ => af_source f = AsyncResolved 0 (Some e) /\ st_batchers s' = st_batchers s
  | None, _ => exists parts, af_source f = AsyncParts parts /\ Forall2 (delivered c q s s') plan parts /\
      (forall l, (forall n (ref : refT), n ∈ fst <$> plan -> batchersOf q !! n = Some ref -> br_batcher ref <> l) ->
         st_batchers s' !! l = st_batchers s !! l) /\
      forall s2 results, partsResolved s2 parts results -> asyncResult s2 (af_source f) =
        Some (joinResults 0 copied "query CopyAccounts on replica set %q: %w" (fst <$> plan) results)
  end.
Proof.
  intros Hwf Hready Hkeys plan.
  destruct (CopyAccountsAsync_runs c q s ctx rows Hwf Hready Hkeys) as (f & s' & Hrun & id & [Ht Hpost] & _).
  exists f, s'. split; [exact Hrun|]. split; [exact (tra_calls _ _ _ Ht)|exact Hpost].
Qed.

End Submit.

#[local] Existing Instance StoreSample.runtime.

Lemma copy_accounts_async_correct_witness :
  exists q s, FanoutSample.opened = Some (q, s) /\
    exists f s', CopyAccountsAsync FanoutSample.errorType FanoutSample.debug q sampleContext (Some <$> FanoutSample.rows) s
        = (Ok f, s') /\ st_calls s' = st_calls s /\
      exists x y, af_source f = AsyncParts [x; y] /\ x.1.1 = "eu" /\ y.1.1 = "us".
Proof.
  destruct FanoutSample.opened_spec as (q & s & store & E & Hop). exists q, s. split; [exact E|].
  pose proof (openedStore_wf _ _ _ _ _ _ _ _ _ _ _ _ _ Hop) as Hwf.
  pose proof (openedStore_ready _ _ _ _ _ _ _ _ _ _ _ _ _ Hop) as Hready.
  destruct (copy_accounts_async_correct FanoutSample.errorType FanoutSample.debug _ q s sampleContext FanoutSample.rows
    Hwf Hready (Forall_true _ _ (fun row => openedStore_routable _ _ _ _ _ _ _ _ _ _ _ _ _ (cat_TenantKey row) Hop (ltac:(by eexists))))) as (f & s' & Hrun & Hcalls & parts & Hf & Hparts & _).
  exists f, s'. split; [exact Hrun|]. split; [exact Hcalls|]. rewrite Hf.
  assert (H : match FanoutSample.opened with
    | Some (q, s) => fst <$> copyPlan q s FanoutSample.rows = ["eu"; "us"]
    | None => False end) by (vm_compute; auto).
  rewrite E in H. rewrite <- (delivered_names _ _ _ _ _ _ Hparts) in H.
  destruct parts as [|x [|y [|z parts]]]; try discriminate H. exists x, y. injection H as Hx Hy. by split_and!.
Defined.
