(* ===== verification/StoreSpans.v ===== *)
(** * StoreSpans: store spans around a group that the application wrapped

    The span of a wrapped query group starts before the application's code and
    ends after it, whatever ran in between. [always] is a relation between the
    states before and after a computation, however it ends; [kept] says that no
    store execution disappears, which every operation of a store satisfies. *)

From S2P Require Import Prelude Errors Hasher Routing Telemetry Builder OpenMesh Tasks.
From S2P Require Import StoreQueries Store StoreBuild StoreLemmas StoreOpen.

#[local] Open Scope Z_scope.

(** ** A relation between the states before and after *)

Section Always.
Context {S E : Type} (R : S -> S -> Prop) `{!PreOrder R}.

Definition always {A} (m : stE S E A) : Prop := forall s o s', m s = (o, s') -> R s s'.

Lemma always_ret {A} (a : A) : always (mret a).
Proof. by intros s o s' [= <- <-]. Qed.

Lemma always_lift {A} (o : outcome E A) : always (lift o).
Proof. by intros s o' s' [= <- <-]. Qed.

Lemma always_bind {A B} (m : stE S E A) (k : A -> stE S E B) :
  always m -> (forall a, always (k a)) -> always (m ≫= k).
Proof.
  intros Hm Hk s o s' H. unfold mbind, stE_bind in H.
  destruct (m s) as [[a|e|] s1] eqn:Em; [etrans; [by eapply Hm|by eapply Hk]|..];
    injection H as <- <-; by eapply Hm.
Qed.

(** Reading the state and writing a related one. *)
Lemma always_update {B} (f : S -> S) (k : S -> stE S E B) :
  (forall s, R s (f s)) -> (forall s, always (k s)) -> always (s ← get_state; put_state (f s) ≫= fun _ => k s).
Proof. intros Hf Hk s o s' H. etrans; [apply Hf|]. by eapply (Hk s). Qed.

Lemma always_put (f : S -> S) : (forall s, R s (f s)) -> always (s ← get_state; put_state (f s)).
Proof. intros Hf s o s' [= <- <-]. apply Hf. Qed.

Lemma always_read {A B} (f : S -> outcome E A) (k : A -> stE S E B) :
  (forall a, always (k a)) -> always ((s ← get_state; lift (f s)) ≫= k).
Proof. intros Hk. apply always_bind; [|done]. by intros s o s' [= <- <-]. Qed.

End Always.

Lemma always_zoom {S S' E A} (R : S -> S -> Prop) (R' : S' -> S' -> Prop) (get : S -> S') (set : S' -> S -> S)
    (m : stE S' E A) :
  (forall s s', R' (get s) s' -> R s (set s' s)) -> always R' m -> always R (zoomM get set m).
Proof.
  intros Hset Hm s o s' H. unfold zoomM in H. destruct (m (get s)) as [o1 s1] eqn:Em. injection H as <- <-.
  apply Hset. by eapply Hm.
Qed.

Lemma always_deferred {S A} (R : S -> S -> Prop) `{!PreOrder R} fin (body : stE S error (A * option error)) :
  (forall err, always R (fin err)) -> always R body -> always R (deferred fin body).
Proof.
  intros Hf Hb s o s' H. unfold deferred in H. destruct (body s) as [[[v err]|e|] s1] eqn:Eb.
  - destruct (fin err s1) as [o2 s2] eqn:Ef. transitivity s1; [by eapply Hb|]. destruct o2; injection H as _ <-; by eapply Hf.
  - injection H as _ <-. by eapply Hb.
  - injection H as _ <-. transitivity s1; [by eapply Hb|]. eapply (Hf None). apply surjective_pairing.
Qed.

(** What runs and what always holds. *)
Lemma runs_always {S E A} (R : S -> S -> Prop) (m : stE S E A) s (Q : A -> S -> Prop) :
  runs m s Q -> always R m -> runs m s (fun a s' => Q a s' /\ R s s').
Proof. intros (a & s' & Hm & HQ) HR. exists a, s'. split; [done|]. split; [done|by eapply HR]. Qed.

(** ** No execution disappears *)

Section Kept.
Context {DBTX : Type} `{!Driver DBTX} {RT : Runtime}.
Context {K Tracer Instrument Logger : Type}.
Context (ErrorType : error -> KeyValue) (DebugEnabled : Logger -> bool).
#[local] Abbreviation stateT := (storeState DBTX Tracer Instrument Logger).
#[local] Abbreviation storeM := (stE stateT error).
#[local] Abbreviation telT := (tstate Tracer Instrument Logger).
#[local] Abbreviation storeT := (meshStore DBTX K Tracer Instrument Logger).
Implicit Types (q : storeT) (s : stateT).

Definition keptTel (t t' : telT) : Prop :=
  forall l, is_Some (executions t !! l) -> is_Some (executions t' !! l).
#[export] Instance keptTel_preorder : PreOrder keptTel.
Proof. split; [by intros t l|]. intros t1 t2 t3 H1 H2 l Hl. by apply H2, H1. Qed.

Definition kept s s' : Prop := keptTel (st_tel s) (st_tel s').
#[export] Instance kept_preorder : PreOrder kept.
Proof. split; [by intros s l|]. intros s1 s2 s3 H1 H2 l Hl. by apply H2, H1. Qed.

Lemma emit_kept (c : apiCall Tracer Instrument Logger) : always keptTel (emit c).
Proof. by intros t o t' [= <- <-] l. Qed.

Lemma onInstrument_kept (i : option Instrument) (c : Instrument -> apiCall Tracer Instrument Logger) :
  always keptTel (onInstrument i c).
Proof. apply always_bind; [apply _|apply always_lift, _|intros; apply emit_kept]. Qed.

Lemma startSpan_kept (t : option Tracer) ctx name attrs : always keptTel (startSpan (Instrument := Instrument) (Logger := Logger) t ctx name attrs).
Proof. destruct t; by intros st o st' [= <- <-] l. Qed.

Lemma markExecuted_kept m ctx : always keptTel (markExecuted (Tracer := Tracer) (Instrument := Instrument) (Logger := Logger) m ctx).
Proof.
  intros t o t' H l Hl. unfold markExecuted in H. destruct (ctx_execution ctx) as [k|]; [|by injection H as <- <-].
  destruct (executions t !! k) as [e|]; [|by injection H as <- <-].
  case_bool_decide; injection H as <- <-; [|done]. cbn. rewrite lookup_insert_is_Some'. by right.
Qed.

Lemma recordSpanError_kept span err :
  always keptTel (recordSpanError (Tracer := Tracer) (Instrument := Instrument) (Logger := Logger) ErrorType span err).
Proof. destruct err; by intros t o t' [= <- <-] l. Qed.

Lemma logIf_kept {A} (o : option A) (f : A -> apiCall Tracer Instrument Logger) :
  always keptTel (match o with Some l => emit (f l) | None => mret tt end).
Proof. destruct o; by intros t o' t' [= <- <-] l. Qed.

(** Telemetry code keeps executions call by call. *)
Ltac tel_kept := repeat first
  [ apply always_ret; apply _ | apply emit_kept | apply onInstrument_kept | apply recordSpanError_kept
  | apply logIf_kept | apply startSpan_kept | apply markExecuted_kept
  | apply always_bind; [apply _| |intros] | case_match ].

Lemma StartLogicalQuerySpan_kept m (t : meshTelemetry Tracer Instrument Logger) ctx sn qn k now :
  always keptTel (StartLogicalQuerySpan m t ctx sn qn k now).
Proof. unfold StartLogicalQuerySpan. tel_kept. Qed.
Lemma SetRoute_kept (sp : LogicalQuerySpan Tracer Instrument Logger) mode n : always keptTel (SetRoute sp mode n).
Proof. unfold SetRoute. tel_kept. Qed.
Lemma LogicalQuerySpan_End_kept (sp : LogicalQuerySpan Tracer Instrument Logger) err now :
  always keptTel (LogicalQuerySpan_End ErrorType DebugEnabled sp err now).
Proof. unfold LogicalQuerySpan_End. tel_kept. Qed.
Lemma PhysicalQuerySpan_End_kept (sp : PhysicalQuerySpan Instrument Logger) err now :
  always keptTel (PhysicalQuerySpan_End (Tracer := Tracer) ErrorType DebugEnabled sp err now).
Proof. unfold PhysicalQuerySpan_End. tel_kept. Qed.
Lemma StartPhysicalQuerySpan_kept (sp : LogicalQuerySpan Tracer Instrument Logger) ctx route mode now :
  always keptTel (LogicalQuerySpan_StartPhysicalQuerySpan sp ctx route mode now).
Proof. unfold LogicalQuerySpan_StartPhysicalQuerySpan, startPhysicalQuerySpan. tel_kept. Qed.

(** *** Operations of a store *)

Lemma onTel_kept {A} (m : stE telT error A) : always keptTel m -> always kept (onTel (DBTX := DBTX) m).
Proof. apply always_zoom. by intros s t H. Qed.
Lemma onHeap_kept {A} (m : stE (heap (readQueries DBTX) (queryStore DBTX)) error A) :
  always kept (onHeap (Tracer := Tracer) (Instrument := Instrument) (Logger := Logger) m).
Proof. intros s o s' H. unfold onHeap, zoomM in H. destruct (m (st_heap s)). injection H as <- <-. by intros l. Qed.
Lemma onDB_kept {A} (t : task (list (dbCall DBTX)) A) :
  always kept (runTask (onDB (Tracer := Tracer) (Instrument := Instrument) (Logger := Logger) t)).
Proof.
  intros s o s' H. unfold onDB in H. rewrite (runTask_zoom st_calls setCalls) in H; [|done|done|by intros []].
  unfold zoomM in H. destruct (runTask t (st_calls s)). injection H as <- <-. by intros ?.
Qed.
Lemma timeNow_kept : always kept timeNow.
Proof. by intros s o s' [= <- <-] l. Qed.
Lemma resolveShard_kept q key : always kept (resolveShard q key).
Proof. intros s o s' H. unfold resolveShard in H. repeat case_match; injection H as <- <-; by intros ?. Qed.
Lemma logicalSpan_kept id : always kept (logicalSpan (DBTX := DBTX) (Tracer := Tracer) (Instrument := Instrument) (Logger := Logger) id).
Proof. by intros s o s' [= <- <-] l. Qed.

Lemma startLogical_kept q ctx sn qn k : always kept (startLogical q ctx sn qn k).
Proof.
  unfold startLogical. apply always_bind; [apply _|apply timeNow_kept|intros now].
  apply always_bind; [apply _|apply onTel_kept, StartLogicalQuerySpan_kept|intros [ctx' sp]].
  refine (always_update kept (fun s => setSpans (<[ls_span sp := sp]> (st_spans s)) s) _ _ _); [by intros s l|].
  intros s. apply always_ret, _.
Qed.
Lemma setRoute_kept id mode n : always kept (setRoute (DBTX := DBTX) (Tracer := Tracer) (Instrument := Instrument) (Logger := Logger) id mode n).
Proof.
  unfold setRoute. apply always_bind; [apply _|apply logicalSpan_kept|intros sp].
  apply always_bind; [apply _|apply onTel_kept, SetRoute_kept|intros sp'].
  apply (always_put kept (fun s => setSpans (<[id := sp']> (st_spans s)) s)). by intros s l.
Qed.
Lemma startPhysical_kept id ctx route mode :
  always kept (startPhysical (DBTX := DBTX) (Tracer := Tracer) (Instrument := Instrument) (Logger := Logger) id ctx route mode).
Proof.
  unfold startPhysical. apply always_bind; [apply _|apply timeNow_kept|intros now].
  apply always_bind; [apply _|apply logicalSpan_kept|intros sp]. apply onTel_kept, StartPhysicalQuerySpan_kept.
Qed.
Lemma endLogical_kept id err : always kept (endLogical (DBTX := DBTX) (Tracer := Tracer) ErrorType DebugEnabled id err).
Proof.
  unfold endLogical. apply always_bind; [apply _|apply timeNow_kept|intros now].
  apply always_bind; [apply _|apply logicalSpan_kept|intros sp]. apply onTel_kept, LogicalQuerySpan_End_kept.
Qed.
Lemma endPhysical_kept sp err : always kept (endPhysical (DBTX := DBTX) (Tracer := Tracer) ErrorType DebugEnabled sp err).
Proof.
  unfold endPhysical. apply always_bind; [apply _|apply timeNow_kept|intros now].
  apply onTel_kept, PhysicalQuerySpan_End_kept.
Qed.

(** The body of a routed query, step by step. *)
Ltac store_kept := repeat first
  [ apply startLogical_kept | apply setRoute_kept | apply startPhysical_kept | apply resolveShard_kept
  | apply onHeap_kept | apply always_ret; apply _
  | apply always_deferred; [apply _|intros; apply endLogical_kept || apply endPhysical_kept|]
  | apply always_bind; [apply _| |intros] | case_match ].

Lemma routedRead_kept {A} (zero : A) sn qn q ctx key opts run :
  (forall target ctx, always kept (run target ctx)) ->
  always kept (routedRead ErrorType DebugEnabled zero sn qn q ctx key opts run).
Proof.
  intros Hrun. unfold routedRead.
  store_kept; apply Hrun.
Qed.

Lemma routedWrite_kept {A} (zero : A) sn qn q ctx key opts run :
  (forall target ctx, always kept (run target ctx)) ->
  always kept (routedWrite ErrorType DebugEnabled zero sn qn q ctx key opts run).
Proof.
  intros Hrun. unfold routedWrite.
  store_kept; apply Hrun.
Qed.

(** ** The span around a group *)

(** A store span that can end: its execution exists and so does its instrument. *)
Definition storeSpanLive (sp : StoreQuerySpan Instrument Logger) s : Prop :=
  is_Some (executions (st_tel s) !! ss_execution sp) /\ is_Some (ss_storeDuration sp).

Lemma storeSpanLive_kept sp s s' : storeSpanLive sp s -> kept s s' -> storeSpanLive sp s'.
Proof. intros [Hl Hd] Hk. split; [by apply Hk|done]. Qed.

Lemma startStore_runs q ctx sn qn k s :
  telemetryOk (telemetry (ms_mesh q)) -> is_Some (storeDuration (telemetry (ms_mesh q))) ->
  runs (startStore q ctx sn qn k) s (fun r s' => frame s s' /\ storeSpanLive r.2 s' /\ kept s s').
Proof.
  intros [[tr Htr] _ _ _] Hd. unfold startStore. eexists _, _. cbn [mbind].
  unfold mbind, stE_bind, timeNow, onTel, zoomM, StartStoreQuerySpan, startSpan. rewrite Htr. cbn.
  split; [reflexivity|]. cbn. split_and!; [by split|split; [cbn; rewrite lookup_insert_is_Some'; by left|done]|].
  intros l Hl. cbn. rewrite lookup_insert_is_Some'. by right.
Qed.

Lemma StoreQuerySpan_End_runs sp err now (t : telT) :
  is_Some (executions t !! ss_execution sp) -> is_Some (ss_storeDuration sp) ->
  runs (StoreQuerySpan_End ErrorType DebugEnabled sp err now) t (fun _ _ => True).
Proof.
  intros [e He] Hd. unfold StoreQuerySpan_End. cbv zeta.
  apply (runs_seq _ _ _ (fun _ _ => True)); [by exists (executed e), t; unfold loadExecuted; rewrite He|]. intros delegated ? _.
  eapply runs_seq; [apply emit_runs|]. intros ? ? _.
  eapply runs_seq; [apply recordSpanError_runs|]. intros extra ? _.
  eapply runs_seq; [by apply onInstrument_runs|]. intros ? ? _.
  eapply runs_seq; [apply logIf_runs|]. intros ? ? _. apply emit_runs.
Qed.

Lemma endStore_runs sp err s :
  storeSpanLive sp s -> runs (endStore ErrorType DebugEnabled sp err) s (fun _ s' => frame s s').
Proof.
  intros Hlive. unfold endStore.
  eapply runs_seq; [exact (runs_always kept _ _ _ (timeNow_runs s) timeNow_kept)|].
  intros now s1 [H1 Hk]. destruct (storeSpanLive_kept _ _ _ Hlive Hk) as [He Hd].
  eapply runs_mono; [by apply (onTel_runs _ _ (fun _ => True)), StoreQuerySpan_End_runs|].
  intros ? s2 [_ H2]. by transitivity s1.
Qed.

Lemma startStore_kept q ctx sn qn k : always kept (startStore q ctx sn qn k).
Proof.
  unfold startStore. apply always_bind; [apply _|apply timeNow_kept|intros now]. apply onTel_kept.
  unfold StartStoreQuerySpan. cbv zeta. apply always_bind; [apply _|apply startSpan_kept|intros [ctx' span]].
  apply always_bind; [apply _| |intros e; apply always_ret, _].
  intros t o t' [= <- <-] l Hl. cbn. rewrite lookup_insert_is_Some'. by right.
Qed.

Lemma endStore_kept sp err : always kept (endStore (DBTX := DBTX) (Tracer := Tracer) ErrorType DebugEnabled sp err).
Proof.
  unfold endStore. apply always_bind; [apply _|apply timeNow_kept|intros now]. apply onTel_kept.
  unfold StoreQuerySpan_End. tel_kept. by intros t o t' [= <- <-] l.
Qed.

End Kept.
