(* ===== verification/OneStore.v ===== *)
(** * OneStore: the generated store of one database (examples/internal/one)

    The store of the settings queries. What its package has in common with
    examples/internal/sharded word for word (Queries with New and WithTx, the
    read and write wrappers, the mirrors, the query options, newStoreNode and
    the options of a singleton topology) is the code [StoreQueries], [Store]
    and [StoreBuild] translate; this file holds what is its own: the queries of
    application_settings, the Settings group, its telemetry, and the building of
    the store. There is no sharded topology, so the shard key is the zero of
    its type.

    A query group is an interface that the caller's factory may wrap with code
    of its own. Its methods work on the store's state together with a state [W]
    of the application. *)

From S2P Require Import Prelude Errors Hasher Routing Telemetry Builder Tasks StoreQueries Store StoreBuild.

#[local] Open Scope Z_scope.

(** ** Queries (settings_queries.sql.go) *)

Record ApplicationSetting := MkSetting { Key : string; Value : string }.
#[export] Instance ApplicationSetting_eq_dec : EqDecision ApplicationSetting.
Proof. solve_decision. Defined.

Record UpsertSettingParams := MkUpsertSettingParams { usp_Key : string; usp_Value : string }.

Definition getSetting : string := "-- name: GetSetting :one
SELECT key, value
FROM application_settings
WHERE key = $1
".
Definition upsertSetting : string := "-- name: UpsertSetting :one
INSERT INTO application_settings (key, value)
VALUES ($1, $2)
ON CONFLICT (key) DO UPDATE
SET value = EXCLUDED.value
RETURNING key, value
".

(** [row.Scan(&i.Key, &i.Value)]. *)
Definition scanSetting (r : row) : ApplicationSetting * option error :=
  match r [DText; DText] (EmptyString, (EmptyString, tt)) with
  | ((key, (value, _)), err) => (MkSetting key value, err)
  end.

Section Queries.
Context {DBTX : Type} `{!Driver DBTX}.
#[local] Abbreviation dbM := (task (list (dbCall DBTX))).

Definition Queries_GetSetting (q : Queries DBTX) (ctx : Context) (key : string)
    : dbM (option ApplicationSetting * option error) :=
  r ← db_QueryRow ctx (db q) getSetting [VText key];
  let '(i, err) := scanSetting r in mret (Some i, err).

Definition Queries_UpsertSetting (q : Queries DBTX) (ctx : Context) (arg : UpsertSettingParams)
    : dbM (option ApplicationSetting * option error) :=
  r ← db_QueryRow ctx (db q) upsertSetting [VText (usp_Key arg); VText (usp_Value arg)];
  let '(i, err) := scanSetting r in mret (Some i, err).

Definition readQueries_GetSetting (q : readQueries DBTX) (ctx : Context) (key : string)
    : dbM (option ApplicationSetting * option error) :=
  '(rv0, err) ← Queries_GetSetting (rq_main q) ctx key;
  match err with Some e => mret (None, Some e) | None => mret (rv0, None) end.

Definition writeQueries_UpsertSetting (q : writeQueries DBTX) (ctx : Context)
    (arg : UpsertSettingParams) : dbM (option ApplicationSetting * option error) :=
  '(rv0, err) ← Queries_UpsertSetting (wq_main q) ctx arg;
  match err with
  | Some e => mret (None, Some e)
  | None =>
      mirrorErr ← writeQueries_mirror q (fun mirror =>
        '(_, err) ← Queries_UpsertSetting mirror ctx arg; mret err);
      mret (rv0, mirrorErr)
  end.
End Queries.

Section One.
Context {DBTX : Type} `{!Driver DBTX} `{!Runtime}.
Context {W Tracer Instrument Logger : Type}.
Context (ErrorType : error -> KeyValue) (DebugEnabled : Logger -> bool).
Context (gtp : TracerProvider Tracer) (gmp : MeterProvider Instrument).

#[local] Abbreviation stateT := (storeState DBTX Tracer Instrument Logger).
#[local] Abbreviation storeM := (stE stateT error).
#[local] Abbreviation appM := (stE (stateT * W) error).
#[local] Abbreviation optionsT := (list (QueryOption DBTX)).
#[local] Abbreviation settingM M := (M (option ApplicationSetting * option error)%type).

(** Code of the store inside the application. *)
Definition onStore {A} (m : storeM A) : appM A := zoomM fst (fun s x => (s, x.2)) m.

(** ** The query group (zz_generated_store_settings.go) *)

Record Settings := MkSettings {
  Settings_GetSetting : Context -> string -> optionsT -> settingM appM;
  Settings_UpsertSetting : Context -> option UpsertSettingParams -> optionsT -> settingM appM;
}.

Record Store := MkStore { Store_Settings : Settings }.

Section Group.
Context {K : Type}.
#[local] Abbreviation storeT := (meshStore DBTX K Tracer Instrument Logger).
Implicit Types (q : storeT).

Definition GetSetting q (ctx : Context) (key : string) (storeOptions : optionsT) : settingM storeM :=
  routedRead ErrorType DebugEnabled None "Settings" "GetSetting" q ctx None storeOptions
    (fun target ctx => runTask (onDB (readQueries_GetSetting target ctx key))).

Definition UpsertSetting q (ctx : Context) (arg : option UpsertSettingParams) (storeOptions : optionsT)
    : settingM storeM :=
  routedWrite ErrorType DebugEnabled None "Settings" "UpsertSetting" q ctx None storeOptions
    (fun target ctx =>
      params ← lift (panic_if_none arg);
      runTask (onDB (writeQueries_UpsertSetting target ctx params))).

(** [groupedMeshStore] as an implementation of the group. *)
Definition groupedSettings q : Settings := {|
  Settings_GetSetting ctx key opts := onStore (GetSetting q ctx key opts);
  Settings_UpsertSetting ctx arg opts := onStore (UpsertSetting q ctx arg opts) |}.

(** The body of a method of the telemetry store. *)
Definition withStoreSpan {A} q (ctx : Context) (queryName : string) (kind : QueryKind)
    (call : Context -> appM (A * option error)) : appM (A * option error) :=
  '(ctx, storeSpan) ← onStore (startStore q ctx "Settings" queryName kind);
  deferred (fun err => onStore (endStore ErrorType DebugEnabled storeSpan err)) (call ctx).

Definition telemetrySettingsStore q (target : Settings) : Settings := {|
  Settings_GetSetting ctx key opts := withStoreSpan q ctx "GetSetting" QueryKindRead
    (fun ctx => Settings_GetSetting target ctx key opts);
  Settings_UpsertSetting ctx arg opts := withStoreSpan q ctx "UpsertSetting" QueryKindWrite
    (fun ctx => Settings_UpsertSetting target ctx arg opts) |}.
End Group.

(** ** Store options (zz_generated_store.go) *)

Record storeOptions := StoreOptions {
  so_tracerProvider : option (TracerProvider Tracer);
  so_meterProvider : option (MeterProvider Instrument);
  so_logger : option Logger;
  so_factories_Settings : option (Settings -> Settings);
}.

Definition StoreOption : Type := storeOptions -> storeOptions.

Definition WithTracerProvider (provider : option (TracerProvider Tracer)) : StoreOption := fun o =>
  StoreOptions provider (so_meterProvider o) (so_logger o) (so_factories_Settings o).
Definition WithMeterProvider (provider : option (MeterProvider Instrument)) : StoreOption := fun o =>
  StoreOptions (so_tracerProvider o) provider (so_logger o) (so_factories_Settings o).
Definition WithLogger (logger : option Logger) : StoreOption := fun o =>
  StoreOptions (so_tracerProvider o) (so_meterProvider o) logger (so_factories_Settings o).
Definition WithSettingsFactory (create : option (Settings -> Settings)) : StoreOption := fun o =>
  StoreOptions (so_tracerProvider o) (so_meterProvider o) (so_logger o) create.

Definition applyStoreOptions (options : list (option StoreOption)) : result storeOptions :=
  foldO (fun o '(index, option) =>
    match option with
    | None => Err (Errorf "pgmesh: store option %d is nil" [AInt (Z.of_nat index)] [])
    | Some f => Ok (f o)
    end) (StoreOptions None None None None) (imap pair options).

(** ** Building *)

Definition initializeGroups (q : meshStore DBTX Z Tracer Instrument Logger) (options : storeOptions) : Store := {|
  Store_Settings :=
    match so_factories_Settings options with
    | Some create => telemetrySettingsStore q (create (groupedSettings q))
    | None => groupedSettings q
    end |}.

(** A mesh store without batchers and without a resolver. *)
Definition oneMeshStore (id : loc)
    (mesh : Mesh (K := Z) (Tracer := Tracer) (Instrument := Instrument) (Logger := Logger))
    : meshStore DBTX Z Tracer Instrument Logger :=
  MeshStore id mesh None 0 (CopyAccountsBatchState false ∅).

Definition singleton_buildStore (c : result (singletonConfig (DBTX := DBTX))) (options : storeOptions)
    : storeM Store :=
  config ← lift c;
  let name := if bool_decide (sc_name config = "") then "default" else sc_name config in
  primaryDB ← lift (match sc_primary config with
                    | None => Err (ErrorText "pgmesh: database primary is nil")
                    | Some d => Ok d
                    end);
  replicaDBs ← lift (requireAll "pgmesh: database replica %d is nil" (sc_replicas config));
  mirrorDBs ← lift (requireAll "pgmesh: database mirror %d is nil" (sc_mirrors config));
  replicaSet ← onHeap (NewReplicaSet name (newStoreNode primaryDB) (newStoreNode <$> replicaDBs));
  replicaSet ← onHeap (Routing.WithWriteMirrors replicaSet (Writer ∘ newStoreNode <$> mirrorDBs));
  builder ← lift (NewMeshBuilder gtp gmp 1);
  mesh ← onHeap (Build (MapVirtualShard
    (Builder.WithLogger (Builder.WithMeterProvider gmp (Builder.WithTracerProvider gtp
      (WithShardHasher builder (Some (NewConstantShardHasher (K := Z) 0)))
      (so_tracerProvider options)) (so_meterProvider options)) (so_logger options))
    0 (Some replicaSet)));
  id ← allocId;
  mret (initializeGroups (oneMeshStore id mesh) options).

Definition NewStore (topology : option (storeOptions -> storeM Store)) (options : list (option StoreOption))
    : storeM Store :=
  match topology with
  | None => throw (ErrorText "pgmesh: topology is nil")
  | Some buildStore =>
      storeOptions ← lift (applyStoreOptions options);
      buildStore storeOptions
  end.

End One.
Arguments Settings DBTX W Tracer Instrument Logger : clear implicits.
Arguments Store DBTX W Tracer Instrument Logger : clear implicits.
