(* ===== verification/OneRefine.v ===== *)
(** * OneRefine: opening and using the store of one database

    [NewStore] on a singleton topology fails with the first fault of the
    configuration and opens otherwise; the settings queries of the opened store
    are a map from keys to values, repeated on the mirrors. What the two SQL
    statements mean to a database is the class [SettingsTable]. *)

From S2P Require Import Prelude Errors GoStrings Hasher Balancer Routing Telemetry Builder Topology OpenMesh Tasks.
From S2P Require Import StoreQueries Store StoreBuild StoreLemmas StoreOpen StoreSpans OneStore.

#[local] Open Scope Z_scope.

(** ** Faults of a configuration *)

(** The first database that is missing. *)
Definition firstNil {D} (l : list (option D)) : option nat := fst <$> list_find (fun d => d = None) l.

Definition singletonName {D} (c : singletonConfig (DBTX := D)) : string :=
  if bool_decide (sc_name c = "") then "default" else sc_name c.

Definition singletonFault {D} (c : singletonConfig (DBTX := D)) : option error :=
  match sc_primary c with
  | None => Some (ErrorText "pgmesh: database primary is nil")
  | Some _ =>
      match firstNil (sc_replicas c), firstNil (sc_mirrors c) with
      | Some i, _ => Some (Errorf "pgmesh: database replica %d is nil" [AInt (Z.of_nat i)] [])
      | None, Some i => Some (Errorf "pgmesh: database mirror %d is nil" [AInt (Z.of_nat i)] [])
      | None, None =>
          if isBlank (singletonName c)
          then Some (Errorf "%w: virtual shard %d" [AInt 0] [Sentinel ErrEmptyReplicaSetName])
          else None
      end
  end.

Lemma firstNil_cons {D} (d : option D) l :
  firstNil (d :: l) = match d with None => Some 0%nat | Some _ => S <$> firstNil l end.
Proof.
  unfold firstNil. cbn [list_find]. destruct d as [d|]; [|by rewrite decide_True].
  rewrite decide_False by done. by destruct (list_find _ l) as [[i x]|].
Qed.

(** A loop that stops at the first missing element. *)
Lemma foldO_firstNil {D B} fmt (step : B -> D -> B) (l : list (option D)) k acc :
  foldO (fun acc '(index, d) =>
    match d with
    | None => Err (Errorf fmt [AInt (Z.of_nat index)] [])
    | Some d => Ok (step acc d)
    end) acc (imap (fun i d => ((k + i)%nat, d)) l) =
  match firstNil l with
  | Some i => Err (E := error) (Errorf fmt [AInt (Z.of_nat (k + i))] [])
  | None => Ok (foldl step acc (omap id l))
  end.
Proof.
  revert k acc. induction l as [|d l IH]; intros k acc; [done|].
  rewrite imap_cons, firstNil_cons. cbn [foldO]. destruct d as [d|]; [|by rewrite Nat.add_0_r].
  cbn [mbind outcome_bind]. rewrite (imap_ext _ (fun i d => ((S k + i)%nat, d))) by (intros; cbn; f_equal; lia).
  rewrite IH. destruct (firstNil l) as [i|]; cbn [fmap option_fmap option_map]; [|done].
  by rewrite Nat.add_succ_comm.
Qed.

Lemma foldl_snoc {A} (l acc : list A) : foldl (fun acc x => acc ++ [x]) acc l = acc ++ l.
Proof.
  revert acc. induction l as [|x l IH]; intros acc; cbn; [by rewrite app_nil_r|]. rewrite IH. by rewrite <- app_assoc.
Qed.

Lemma requireAll_spec {D} fmt (l : list (option D)) :
  requireAll fmt l =
  match firstNil l with
  | Some i => Err (Errorf fmt [AInt (Z.of_nat i)] [])
  | None => Ok (omap id l)
  end.
Proof.
  etrans; [apply (foldO_firstNil fmt (fun acc d => acc ++ [d]) l 0 [])|].
  destruct (firstNil l); [done|]. by rewrite foldl_snoc.
Qed.

Lemma wired_storeDuration {Tracer Instrument Logger} (tp : TracerProvider Tracer) (mp : MeterProvider Instrument)
    (t : meshTelemetry Tracer Instrument Logger) : wired tp mp t -> is_Some (storeDuration t).
Proof. intros [_ Hf]. unfold metricField in Hf. rewrite Forall_cons in Hf. destruct Hf as [(? & i & _ & _ & ->) _]. by exists i. Qed.

(** ** The shape of an opened store *)

Section Open.
Context {DBTX : Type} `{!Driver DBTX} {RT : Runtime}.
Context {W Tracer Instrument Logger : Type}.
Context (ErrorType : error -> KeyValue) (DebugEnabled : Logger -> bool).
Context (gtp : TracerProvider Tracer) (gmp : MeterProvider Instrument).
#[local] Abbreviation stateT := (storeState DBTX Tracer Instrument Logger).
#[local] Abbreviation storeM := (stE stateT error).
#[local] Abbreviation storeT := (meshStore DBTX Z Tracer Instrument Logger).
#[local] Abbreviation optsT := (storeOptions (DBTX := DBTX) (W := W) (Tracer := Tracer)
  (Instrument := Instrument) (Logger := Logger)).
Implicit Types (q : storeT) (s : stateT).

(** The store sends every key to one set: the primary with its replicas and
    mirrors. *)
Record servesOne (p : DBTX) (replicas mirrors : list DBTX) q s : Prop := {
  so_telemetry : telemetryOk (telemetry (ms_mesh q));
  so_duration : is_Some (storeDuration (telemetry (ms_mesh q)));
  so_heap : heap_wf (st_heap s);
  so_resolver : ms_resolver q = None;
  so_set : exists shard st, Resolve (ms_mesh q) (ms_zero q) = Ok shard /\
    replicaSetsAt (st_heap s) !! rsh_replicaSet shard = Some st /\
    set_wf (st_heap s) st (newStoreNode <$> replicas) /\
    primary st = newStoreNode p /\ writeMirrors st = Writer ∘ newStoreNode <$> mirrors;
}.

Lemma servesOne_frame p rs ms q s s' : servesOne p rs ms q s -> frame s s' -> servesOne p rs ms q s'.
Proof.
  intros [Ht Hd Hh Hr (shard & st & ? & ? & ? & ? & ?)] [[Hw Hs Hset] _ _ _ _]. split; [done|done|auto|done|].
  exists shard, st. rewrite Hs. by split_and!; auto.
Qed.

Lemma servesOne_setCalls p rs ms q s c : servesOne p rs ms q s -> servesOne p rs ms q (setCalls c s).
Proof. by intros [Ht Hd Hh Hr Hset]. Qed.

(** A heap that has more replica sets. *)
Record heapGrows (h h' : heap (readQueries DBTX) (queryStore DBTX)) : Prop := {
  hg_wf : heap_wf h -> heap_wf h';
  hg_sets l st : replicaSetsAt h !! l = Some st -> replicaSetsAt h' !! l = Some st;
  hg_targets st rs : set_wf h st rs -> set_wf h' st rs;
}.

(** The set of a configuration. *)
Lemma makeSet_runs name p (rs ms : list DBTX) s :
  heap_wf (st_heap s) ->
  runs (replicaSet ← onHeap (NewReplicaSet name (newStoreNode p) (newStoreNode <$> rs));
        onHeap (Routing.WithWriteMirrors replicaSet (Writer ∘ newStoreNode <$> ms))) s
    (fun r s' => heap_wf (st_heap s') /\ heapGrows (st_heap s) (st_heap s') /\ (exists h, s' = setHeap h s) /\
       exists st, replicaSetsAt (st_heap s') !! r = Some st /\ rs_name st = name /\
         set_wf (st_heap s') st (newStoreNode <$> rs) /\ primary st = newStoreNode p /\
         writeMirrors st = Writer ∘ newStoreNode <$> ms).
Proof.
  intros Hwf.
  destruct (NewReplicaSet_spec name (newStoreNode p) (newStoreNode <$> rs) (st_heap s) Hwf)
    as (l & h1 & Hnew & Hwf1 & _ & Hfresh & st & Hsets & Hname & Hpri & Hmir & Hset & Hold).
  apply (runs_seq _ _ _ (fun r s' => r = l /\ s' = setHeap h1 s)).
  { exists l, (setHeap h1 s). split; [|done]. unfold onHeap, zoomM. by rewrite Hnew. }
  intros ? ? [-> ->].
  destruct (WithWriteMirrors_spec l (Writer ∘ newStoreNode <$> ms) h1 st Hwf1)
    as (l' & h2 & Hrun & Hwf2 & _ & Hbal & Hfresh2 & Hsets2); [by rewrite Hsets, lookup_insert_eq|].
  exists l', (setHeap h2 s). split; [unfold onHeap, zoomM; cbn [st_heap setHeap]; by rewrite Hrun|].
  cbn [st_heap setHeap]. split_and!; [done| |by exists h2|].
  { split; [done|..].
    - intros l0 st0 H0. rewrite Hsets2, lookup_insert_ne, Hsets, lookup_insert_ne; [done|congruence|].
      intros <-. rewrite Hsets, lookup_insert_ne, H0 in Hfresh2 by congruence. done.
    - intros st0 rs0 H0%Hold. unfold set_wf in *. by rewrite Hbal. }
  rewrite Hsets2, lookup_insert_eq.
  eexists. split; [done|]. cbn [rs_name primary writeMirrors readTargets]. rewrite Hmir.
  split_and!; [done| |done|done]. unfold set_wf in *. cbn [readTargets primary]. by rewrite Hbal.
Qed.

#[local] Abbreviation builderT := (MeshBuilder (K := Z) (Tracer := Tracer) (Instrument := Instrument) (Logger := Logger)).

Lemma mapOnly (b : builderT) l :
  b_err b = None -> b_virtualShards b = [None] ->
  let b' := MapVirtualShard b 0 (Some l) in
  b_err b' = None /\ b_virtualShards b' = Some <$> [l] /\ b_hasher b' = b_hasher b /\ b_telemetry b' = b_telemetry b.
Proof. intros He Hv. unfold MapVirtualShard. by rewrite He, Hv. Qed.

(** The builder of a singleton topology. *)
Lemma oneBuilder_ok tp mp lg (l : loc) :
  metersOk gmp -> metersOk (default gmp mp) ->
  exists b, NewMeshBuilder gtp gmp 1 = Ok b /\
    let b' : builderT := MapVirtualShard
      (Builder.WithLogger (Builder.WithMeterProvider gmp (Builder.WithTracerProvider gtp
        (WithShardHasher b (Some (NewConstantShardHasher (K := Z) 0))) tp) mp) lg)
      0 (Some l) in
    b_err b' = None /\ b_virtualShards b' = Some <$> [l] /\
    b_hasher b' = Some (NewConstantShardHasher 0) /\ telemetryOk (b_telemetry b') /\
    is_Some (storeDuration (b_telemetry b')).
Proof.
  intros Hg Hm.
  destruct (openBuilder_Ok (K := Z) (Logger := Logger) gtp gmp 1 (Some (NewConstantShardHasher 0)) tp mp lg)
    as (b & Hb & He & Hh & Hv); [lia|done..|].
  exists b. split; [done|]. pose proof (openBuilder_wired (K := Z) gtp gmp b (Some (NewConstantShardHasher 0)) tp mp lg Hm) as Hw.
  destruct (mapOnly _ l He Hv) as (H1 & H2 & H3 & H4). cbv zeta. split_and!; [exact H1|exact H2| | |].
  - etrans; [exact H3|exact Hh].
  - pose proof (wired_telemetryOk _ _ _ Hw) as Hok. by rewrite <- H4 in Hok.
  - pose proof (wired_storeDuration _ _ _ Hw) as Hok. by rewrite <- H4 in Hok.
Qed.

Lemma oneBuild_runs (b : builderT) (l : loc) (h : heap (readQueries DBTX) (queryStore DBTX)) n :
  b_err b = None -> b_virtualShards b = Some <$> [l] -> b_hasher b = Some (NewConstantShardHasher 0) ->
  nameOf h l = Some n ->
  Build b h = (if isBlank n then Err (Errorf "%w: virtual shard %d" [AInt 0] [Sentinel ErrEmptyReplicaSetName])
               else Ok {| virtualShards := [l]; replicaSets := [l]; hasher := NewConstantShardHasher 0;
                          telemetry := b_telemetry b |}, h).
Proof.
  intros He Hv Hh Hn. destruct (isBlank n) eqn:Hb.
  - unfold Build. rewrite He, Hv, Hh. rewrite bool_decide_eq_false_2 by done.
    cbn [imap fmap list_fmap foldM buildShard]. unfold mbind, stE_bind.
    rewrite (Name_live _ _ _ Hn), Hb. done.
  - rewrite (Build_ok h b [l] (NewConstantShardHasher 0)); [done..|].
    split; [intros p ->%list_elem_of_singleton; by exists n|].
    by intros p q m ->%list_elem_of_singleton ->%list_elem_of_singleton.
Qed.

(** What the store is after its topology was built. *)
Definition openedOne (c : singletonConfig (DBTX := DBTX)) (options : optsT) s (store : Store DBTX W Tracer Instrument Logger) s' : Prop :=
  exists p q, sc_primary c = Some p /\ store = OneStore.initializeGroups ErrorType DebugEnabled q options /\
    servesOne p (omap id (sc_replicas c)) (omap id (sc_mirrors c)) q s' /\ st_calls s' = st_calls s /\
    heapGrows (st_heap s) (st_heap s').

Lemma finishOne_runs (options : optsT) (l : loc) st p (rs ms : list DBTX) name s :
  metersOk gmp -> metersOk (default gmp (OneStore.so_meterProvider options)) ->
  heap_wf (st_heap s) -> replicaSetsAt (st_heap s) !! l = Some st -> rs_name st = name ->
  set_wf (st_heap s) st (newStoreNode <$> rs) -> primary st = newStoreNode p ->
  writeMirrors st = Writer ∘ newStoreNode <$> ms ->
  let m := builder ← lift (NewMeshBuilder gtp gmp 1);
    mesh ← onHeap (Build (MapVirtualShard
      (Builder.WithLogger (Builder.WithMeterProvider gmp (Builder.WithTracerProvider gtp
        (WithShardHasher builder (Some (NewConstantShardHasher (K := Z) 0)))
        (OneStore.so_tracerProvider options)) (OneStore.so_meterProvider options)) (OneStore.so_logger options))
      0 (Some l)));
    id ← allocId;
    mret (OneStore.initializeGroups ErrorType DebugEnabled (oneMeshStore id mesh) options) in
  if isBlank name
  then m s = (Err (Errorf "%w: virtual shard %d" [AInt 0] [Sentinel ErrEmptyReplicaSetName]), s)
  else runs m s (fun store s' => exists q, store = OneStore.initializeGroups ErrorType DebugEnabled q options /\
    servesOne p rs ms q s' /\ st_calls s' = st_calls s /\ st_heap s' = st_heap s).
Proof.
  intros Hg Hm Hwf Hst Hname Hset Hpri Hmir m. unfold m.
  destruct (oneBuilder_ok (OneStore.so_tracerProvider options) (OneStore.so_meterProvider options)
    (OneStore.so_logger options) l Hg Hm) as (b & Hb & He & Hv & Hh & Htel & Hdur). cbv zeta in He, Hv, Hh, Htel, Hdur.
  assert (nameOf (st_heap s) l = Some name) as Hn by (unfold nameOf; by rewrite Hst, <- Hname).
  pose proof (oneBuild_runs _ l _ name He Hv Hh Hn) as Hbuild.
  destruct (isBlank name).
  - rewrite (stE_bind_Ok _ _ s b s) by (unfold lift; by rewrite Hb).
    unfold mbind at 1, stE_bind at 1. unfold onHeap at 1, zoomM. rewrite Hbuild. by destruct s.
  - apply (runs_seq _ _ _ (fun x s' => x = b /\ s' = s)); [exists b, s; unfold lift; by rewrite Hb|].
    intros ? ? [-> ->].
    apply (runs_seq _ _ _ (fun x s' => s' = s /\ virtualShards x = [l] /\ hasher x = NewConstantShardHasher 0 /\
      telemetryOk (telemetry x) /\ is_Some (storeDuration (telemetry x)))).
    { eexists _, s. split; [unfold onHeap, zoomM; rewrite Hbuild; by destruct s|]. by split_and!. }
    intros mesh ? (-> & Hvs & Hhash & Hok & Hdur').
    apply (runs_seq _ _ _ (fun id s' => s' = setBatchers (st_batchers s) (Pos.succ (st_next s)) s)); [by eexists _, _|].
    intros id ? ->. apply runs_ret. eexists. split_and!; [done| |done|done]. split; [done..|].
    exists {| rsh_virtualShardIndex := 0; rsh_replicaSet := l |}, st. split_and!; [|done..].
    unfold Resolve. cbn [ms_mesh oneMeshStore ms_zero]. by rewrite Hhash, Hvs.
Qed.

(** NewStore fails with the first fault, or opens. *)
Lemma singleton_buildStore_spec c (options : optsT) s :
  metersOk gmp -> metersOk (default gmp (OneStore.so_meterProvider options)) -> heap_wf (st_heap s) ->
  match singletonFault c with
  | Some e => exists s', OneStore.singleton_buildStore ErrorType DebugEnabled gtp gmp (Ok c) options s = (Err e, s') /\
      st_calls s' = st_calls s
  | None => runs (OneStore.singleton_buildStore ErrorType DebugEnabled gtp gmp (Ok c) options) s
      (fun store s' => openedOne c options s store s')
  end.
Proof.
  intros Hg Hm Hwf. unfold singletonFault, OneStore.singleton_buildStore, openedOne, runs. fold (singletonName c).
  rewrite (stE_bind_Ok _ _ s c s) by done. rewrite !requireAll_spec.
  destruct (sc_primary c) as [p|]; [|by exists s].
  destruct (firstNil (sc_replicas c)) as [i|]; [by exists s|].
  destruct (firstNil (sc_mirrors c)) as [i|]; [by exists s|].
  destruct (makeSet_runs (singletonName c) p (omap id (sc_replicas c)) (omap id (sc_mirrors c)) s Hwf)
    as (l & s1 & Hmake & Hwf1 & Hgrow & (h & ->) & st & Hst & Hname & Hset & Hpri & Hmir).
  pose proof (finishOne_runs options l st p _ _ _ _ Hg Hm Hwf1 Hst Hname Hset Hpri Hmir) as Hfin.
  cbv zeta in Hfin.
  apply stE_bind_inv in Hmake as (l0 & s0 & Hnew & Hwith).
  assert (forall A (k : loc -> storeM A), (p ← lift (Ok p); rs ← lift (Ok (omap id (sc_replicas c)));
    ms ← lift (Ok (omap id (sc_mirrors c)));
    r ← onHeap (NewReplicaSet (singletonName c) (newStoreNode p) (newStoreNode <$> rs));
    r ← onHeap (Routing.WithWriteMirrors r (Writer ∘ newStoreNode <$> ms)); k r) s = k l (setHeap h s)) as Hrun.
  { intros A k. rewrite (stE_bind_Ok _ _ s p s), (stE_bind_Ok _ _ s (omap id (sc_replicas c)) s),
      (stE_bind_Ok _ _ s (omap id (sc_mirrors c)) s) by done.
    by rewrite (stE_bind_Ok _ _ _ _ _ Hnew), (stE_bind_Ok _ _ _ _ _ Hwith). }
  destruct (isBlank (singletonName c)).
  - eexists. split; [etrans; [apply Hrun|exact Hfin]|done].
  - destruct Hfin as (store & s' & Hend & q & -> & Hserve & Hc & Hheap).
    eexists _, s'. split; [etrans; [apply Hrun|exact Hend]|]. exists p, q. by rewrite Hheap.
Qed.

End Open.
