(* ===== verification/OneSettings.v ===== *)
(** * OneSettings: what the settings queries mean

    A model of a query group is its two operations as functions of an abstract
    state ([settingsModel]), and a group [implements] a model when each of its
    methods returns what the model returns and keeps a relation between the
    abstract state and the real one. The generated group implements the model
    whose state is the calls made so far ([tableModel]); the telemetry store
    around a group implements what the group implements. For the store of one
    database they give a map from keys to values, repeated on the mirrors. *)

From S2P Require Import Prelude Errors GoStrings Hasher Balancer Routing Telemetry Builder Topology OpenMesh Tasks.
From S2P Require Import StoreQueries Store StoreBuild StoreLemmas StoreRefine StoreOpen StoreSpans OneStore OneRefine.

#[local] Open Scope Z_scope.

(** ** The meaning of the statements *)

Abbreviation settingTable := (gmap string string).
Abbreviation settingResult := (option ApplicationSetting * option error)%type.

Definition isSetting (r : row) (x : ApplicationSetting) : Prop :=
  forall d, r [DText; DText] d = ((Key x, (Value x, tt)), None).

(** [settings calls db] is the content of application_settings as the handle [db]
    sees it after the calls. Handles are of different databases, or of a
    transaction, which sees a table of its own and whose writes nobody else
    sees; the key is the primary key. *)
Class SettingsTable (DBTX : Type) `{!Driver DBTX} := {
  settings : list (dbCall DBTX) -> DBTX -> settingTable;
  settings_other calls c db : callDB c <> db -> settings (calls ++ [c]) db = settings calls db;
  settings_upsert calls ctx db k v :
    isSetting (drv_QueryRow calls ctx db upsertSetting [VText k; VText v]) (MkSetting k v) /\
    settings (calls ++ [CallQueryRow db upsertSetting [VText k; VText v]]) db = <[k := v]> (settings calls db);
  settings_get calls ctx db k :
    let r := drv_QueryRow calls ctx db getSetting [VText k] in
    settings (calls ++ [CallQueryRow db getSetting [VText k]]) db = settings calls db /\
    match settings calls db !! k with
    | Some v => isSetting r (MkSetting k v)
    | None => isNoRows r
    end;
}.

Lemma scanSetting_row r x : isSetting r x -> scanSetting r = (x, None).
Proof. intros H. unfold scanSetting. rewrite H. by destruct x. Qed.

Lemma scanSetting_noRows r : isNoRows r -> (scanSetting r).2 = Some (StdError SqlErrNoRows).
Proof.
  intros H. unfold scanSetting. specialize (H [DText; DText] (EmptyString, (EmptyString, tt))).
  destruct (r _ _) as [[k [v []]] err]. exact H.
Qed.

(** ** Models *)

Inductive settingOp :=
  | OpGetSetting (primary : bool) (key : string)
  | OpUpsertSetting (arg : UpsertSettingParams).

(** An operation with the transaction of its options. *)
Abbreviation txOp DBTX := (option DBTX * settingOp)%type.

Definition settingsModel (Σ Op : Type) : Type := Σ -> Op -> settingResult * Σ.

Definition getResult (t : settingTable) (key : string) : settingResult :=
  match t !! key with
  | Some v => (Some (MkSetting key v), None)
  | None => (None, Some (StdError SqlErrNoRows))
  end.
Definition settingUpserted (arg : UpsertSettingParams) : settingResult :=
  (Some (MkSetting (usp_Key arg) (usp_Value arg)), None).

Fixpoint modelOps {Σ Op} (M : settingsModel Σ Op) (σ : Σ) (ops : list Op) : list settingResult * Σ :=
  match ops with
  | [] => ([], σ)
  | op :: ops =>
      let '(r, σ) := M σ op in
      let '(rs, σ) := modelOps M σ ops in
      (r :: rs, σ)
  end.

(** The specification: one map. *)
Definition specSettings : settingsModel settingTable settingOp := fun t op =>
  match op with
  | OpGetSetting _ key => (getResult t key, t)
  | OpUpsertSetting arg => (settingUpserted arg, <[usp_Key arg := usp_Value arg]> t)
  end.

(** The calls of one operation on a primary with its mirrors. *)
Definition opCalls {DBTX} (p : DBTX) (mirrors : list DBTX) (op : settingOp) : list (dbCall DBTX) :=
  match op with
  | OpGetSetting _ key => [CallQueryRow p getSetting [VText key]]
  | OpUpsertSetting arg =>
      (fun d => CallQueryRow d upsertSetting [VText (usp_Key arg); VText (usp_Value arg)]) <$> p :: mirrors
  end.

(** In a transaction an operation works on the transaction alone. *)
Definition txCalls {DBTX} (p : DBTX) (mirrors : list DBTX) (x : txOp DBTX) : list (dbCall DBTX) :=
  match x.1 with
  | None => opCalls p mirrors x.2
  | Some tx => opCalls tx [] x.2
  end.

Section Models.
Context {DBTX : Type} `{!Driver DBTX} `{!SettingsTable DBTX} {RT : Runtime}.
Context {W Tracer Instrument Logger : Type}.
Context (ErrorType : error -> KeyValue) (DebugEnabled : Logger -> bool).
#[local] Abbreviation stateT := (storeState DBTX Tracer Instrument Logger).
#[local] Abbreviation appM := (stE (stateT * W) error).
#[local] Abbreviation groupT := (Settings DBTX W Tracer Instrument Logger).
#[local] Abbreviation storeT := (meshStore DBTX Z Tracer Instrument Logger).
Implicit Types (q : storeT) (s : stateT) (g : groupT) (x y : stateT * W).

(** The group's results are those of the calls made so far. *)
Definition tableModel (p : DBTX) (mirrors : list DBTX) : settingsModel (list (dbCall DBTX)) (txOp DBTX) := fun calls (x : txOp DBTX) =>
  (match x.2 with
   | OpGetSetting _ key => getResult (settings calls (default p x.1)) key
   | OpUpsertSetting arg => settingUpserted arg
   end, calls ++ txCalls p mirrors x).

Definition readOptions (primary : bool) : list (QueryOption DBTX) := if primary then [ReadFromPrimary] else [].
Definition txOptions (tx : option DBTX) : list (QueryOption DBTX) := if tx is Some _ then [WithTx tx] else [].

Definition execSetting g (ctx : Context) (op : settingOp) : appM settingResult :=
  match op with
  | OpGetSetting primary key => Settings_GetSetting g ctx key (readOptions primary)
  | OpUpsertSetting arg => Settings_UpsertSetting g ctx (Some arg) []
  end.

Definition execTx g (ctx : Context) (x : txOp DBTX) : appM settingResult :=
  match x.2 with
  | OpGetSetting primary key => Settings_GetSetting g ctx key (readOptions primary ++ txOptions x.1)
  | OpUpsertSetting arg => Settings_UpsertSetting g ctx (Some arg) (txOptions x.1)
  end.

Fixpoint execAll {Op} (exec : Op -> appM settingResult) (ops : list Op) : appM (list settingResult) :=
  match ops with
  | [] => mret []
  | op :: ops => r ← exec op; rs ← execAll exec ops; mret (r :: rs)
  end.

Definition execSettings g (ctx : Context) : list settingOp -> appM (list settingResult) := execAll (execSetting g ctx).

(** Operations outside of transactions. *)
Lemma execSettings_tx g ctx ops : execSettings g ctx ops = execAll (execTx g ctx) (pair None <$> ops).
Proof.
  unfold execSettings. induction ops as [|op ops IH]; [done|]. cbn [execAll fmap list_fmap]. rewrite IH. by destruct op as [[]|].
Qed.

(** Reads that see the primary: every read when there are no replicas. *)
Definition allowed (replicas : list DBTX) (op : settingOp) : Prop :=
  match op with OpGetSetting false _ => replicas = [] | _ => True end.
Definition allowedTx (replicas : list DBTX) (x : txOp DBTX) : Prop := x.1 = None -> allowed replicas x.2.

(** [g] does what [M] does, and loses no store execution. *)
Definition implements {Σ} (ok : txOp DBTX -> Prop) (M : settingsModel Σ (txOp DBTX)) (R : Σ -> stateT * W -> Prop) g : Prop :=
  forall σ x ctx op, R σ x -> ok op ->
  runs (execTx g ctx op) x (fun r y => r = (M σ op).1 /\ R (M σ op).2 y /\ kept x.1 y.1).

Lemma implements_ops {Σ} ok (M : settingsModel Σ (txOp DBTX)) R g ctx ops σ x :
  implements ok M R g -> R σ x -> Forall ok ops ->
  runs (execAll (execTx g ctx) ops) x (fun rs y => rs = (modelOps M σ ops).1 /\ R (modelOps M σ ops).2 y).
Proof.
  intros Hg HR Hops. revert σ x HR. induction Hops as [|op ops Hop _ IH]; intros σ x HR; cbn [execAll modelOps].
  { by apply runs_ret. }
  eapply runs_seq; [by apply Hg|]. intros r y (-> & Hy & _). destruct (M σ op) as [r σ'].
  eapply runs_seq; [by apply (IH σ')|]. intros rs z (-> & Hz). destruct (modelOps M σ' ops) as [rs σ2].
  by apply runs_ret.
Qed.

(** Code of the store keeps the application's state. *)
Lemma onStore_runs {A} (m : stE stateT error A) x (Q : A -> stateT -> Prop) :
  runs m x.1 Q -> runs (onStore (W := W) m) x (fun a y => Q a y.1 /\ y.2 = x.2).
Proof. intros (a & s & Hm & HQ). exists a, (s, x.2). unfold onStore, zoomM. by rewrite Hm. Qed.

(** *** The queries *)

Lemma get_runs calls ctx (d : DBTX) key :
  runs (runTask (readQueries_GetSetting (newReadQueries (New d)) ctx key)) calls
    (fun r c => r = getResult (settings calls d) key /\ c = calls ++ [CallQueryRow d getSetting [VText key]]).
Proof.
  apply bindTask_runs, bindTask_runs, dbAnswer_runs. cbn [rq_main newReadQueries db New].
  destruct (settings_get calls ctx d key) as [_ Hr]. unfold getResult.
  destruct (settings calls d !! key) as [v|].
  - rewrite (scanSetting_row _ _ Hr). by apply runs_ret, runs_ret.
  - pose proof (scanSetting_noRows _ Hr) as E. destruct (scanSetting _) as [i err]. cbn in E. subst err.
    by apply runs_ret, runs_ret.
Qed.

Lemma upsertOn_runs calls ctx (d : DBTX) arg :
  runs (runTask (Queries_UpsertSetting (New d) ctx arg)) calls
    (fun r c => r = settingUpserted arg /\ c = calls ++ opCalls d [] (OpUpsertSetting arg)).
Proof.
  apply bindTask_runs, dbAnswer_runs. cbn [db New].
  destruct (settings_upsert calls ctx d (usp_Key arg) (usp_Value arg)) as [Hr _].
  rewrite (scanSetting_row _ _ Hr). by apply runs_ret.
Qed.

Lemma upsertMirrors_runs calls ctx arg (ms : list DBTX) :
  runs (runTask (mirrorLoop (New <$> ms) (fun m => '(_, err) ← Queries_UpsertSetting m ctx arg; mret err))) calls
    (fun err c => err = None /\ c = calls ++ ((fun d => CallQueryRow d upsertSetting
      [VText (usp_Key arg); VText (usp_Value arg)]) <$> ms)).
Proof.
  revert calls. induction ms as [|m ms IH]; intros calls.
  { apply runs_ret. by rewrite app_nil_r. }
  apply bindTask_runs, bindTask_runs. eapply runs_mono; [apply upsertOn_runs|]. intros r c [-> ->].
  apply runs_ret. eapply runs_mono; [apply IH|]. intros err c [-> ->]. split; [done|]. by rewrite <- app_assoc.
Qed.

Lemma upsertSettings_runs calls ctx (p : DBTX) ms arg :
  runs (runTask (writeQueries_UpsertSetting (MkWriteQueries (New p) (New <$> ms)) ctx arg)) calls
    (fun r c => r = settingUpserted arg /\ c = calls ++ opCalls p ms (OpUpsertSetting arg)).
Proof.
  apply bindTask_runs. eapply runs_mono; [apply upsertOn_runs|]. intros r c [-> ->].
  apply bindTask_runs. eapply runs_mono; [apply upsertMirrors_runs|]. intros err c [-> ->].
  apply runs_ret. split; [done|]. by rewrite <- app_assoc.
Qed.

(** *** The generated group *)

(** The store of one database after the calls, with a state of the application. *)
Definition openAt q (p : DBTX) (replicas mirrors : list DBTX) (w : W) (calls : list (dbCall DBTX)) x : Prop :=
  servesOne p replicas mirrors q x.1 /\ st_calls x.1 = calls /\ x.2 = w.

Lemma readTarget_primary (primary' : bool) (tx : option DBTX) (st : ReplicaSet (readQueries DBTX) (queryStore DBTX)) (p : DBTX) rs target key :
  allowedTx rs (tx, OpGetSetting primary' key) -> primary st = newStoreNode p ->
  readTarget (applyQueryOptions (readOptions primary' ++ txOptions tx)) st (newStoreNode <$> rs) target ->
  target = newReadQueries (New (default p tx)).
Proof.
  intros Hok Hp. destruct tx as [tx|]; [by destruct primary'|]. specialize (Hok eq_refl).
  destruct primary'; cbn [readOptions txOptions app].
  - unfold readTarget. cbn [applyQueryOptions foldl ReadFromPrimary qo_tx qo_primary]. by intros ->; rewrite Hp.
  - cbn in Hok. subst rs. unfold readTarget. cbn. rewrite Hp. by intros ->%list_elem_of_singleton.
Qed.

Lemma txCalls_get (p : DBTX) ms tx primary' key :
  txCalls p ms (tx, OpGetSetting primary' key) = [CallQueryRow (default p tx) getSetting [VText key]].
Proof. by destruct tx. Qed.

Lemma GetSetting_runs q p rs ms ctx tx primary' key s :
  servesOne p rs ms q s -> allowedTx rs (tx, OpGetSetting primary' key) ->
  runs (GetSetting ErrorType DebugEnabled q ctx key (readOptions primary' ++ txOptions tx)) s (fun r s' =>
    r = getResult (settings (st_calls s) (default p tx)) key /\ servesOne p rs ms q s' /\
    st_calls s' = st_calls s ++ txCalls p ms (tx, OpGetSetting primary' key)).
Proof.
  intros Hserve Hok. destruct (Hserve) as [Ht _ Hwf Hres (shard & st & Hsh & Hst & Hset & Hpri & Hmir)].
  unfold GetSetting. eapply routedRead_runs; [done|done|by unfold shardKeyOf; rewrite Hres|done..|].
  intros target ctx' s1 H1 Htgt. rewrite (readTarget_primary _ _ _ _ _ _ _ Hok Hpri Htgt), txCalls_get.
  eapply runs_mono; [apply onDB_runs, get_runs|]. intros r s2 (c & -> & -> & ->). split; [done|]. intros s3 H3.
  rewrite (fr_calls _ _ H1) in *. split; [done|]. split; [|exact (fr_calls _ _ H3)].
  eapply servesOne_frame; [|exact H3]. apply servesOne_setCalls. by eapply servesOne_frame.
Qed.

(** The writer of an upsert. *)
Lemma upsertTarget (tx : option DBTX) (st : ReplicaSet (readQueries DBTX) (queryStore DBTX)) p ms arg :
  primary st = newStoreNode p -> writeMirrors st = Writer ∘ newStoreNode <$> ms ->
  exists d ds, writeTarget (applyQueryOptions (txOptions tx)) st = MkWriteQueries (New d) (New <$> ds) /\
    opCalls d ds (OpUpsertSetting arg) = txCalls p ms (tx, OpUpsertSetting arg).
Proof.
  intros Hp Hm. destruct tx as [tx|]; [by exists tx, []|]. exists p, ms. split; [|done]. by apply writeTarget_databases.
Qed.

Lemma UpsertSetting_runs q p rs ms ctx tx arg s :
  servesOne p rs ms q s ->
  runs (UpsertSetting ErrorType DebugEnabled q ctx (Some arg) (txOptions tx)) s (fun r s' =>
    r = settingUpserted arg /\ servesOne p rs ms q s' /\
    st_calls s' = st_calls s ++ txCalls p ms (tx, OpUpsertSetting arg)).
Proof.
  intros Hserve. destruct (Hserve) as [Ht _ Hwf Hres (shard & st & Hsh & Hst & Hset & Hpri & Hmir)].
  unfold UpsertSetting. eapply routedWrite_runs; [done|by unfold shardKeyOf; rewrite Hres|done..|].
  intros ctx' s1 H1. destruct (upsertTarget tx st p ms arg Hpri Hmir) as (d & ds & -> & <-).
  apply runs_bind. eexists _, _. split; [reflexivity|].
  eapply runs_mono; [apply onDB_runs, upsertSettings_runs|]. intros r s2 (c & -> & -> & ->). split; [done|]. intros s3 H3.
  rewrite (fr_calls _ _ H1) in *. split; [done|]. split; [|exact (fr_calls _ _ H3)].
  eapply servesOne_frame; [|exact H3]. apply servesOne_setCalls. by eapply servesOne_frame.
Qed.

Lemma grouped_implements q p rs ms w :
  implements (allowedTx rs) (tableModel p ms) (openAt q p rs ms w) (groupedSettings ErrorType DebugEnabled q).
Proof.
  intros calls x ctx [tx [primary' key|arg]] (Hserve & <- & <-) Hok; unfold execTx; cbn [fst snd].
  - eapply runs_mono; [apply (onStore_runs _ x), runs_always; [by eapply GetSetting_runs|]|].
    + apply routedRead_kept. intros. apply onDB_kept.
    + intros r y [((-> & Hy & Hc) & Hk) Hw]. split; [done|]. split; [|done]. by split_and!.
  - eapply runs_mono; [apply (onStore_runs _ x), runs_always; [by eapply UpsertSetting_runs|]|].
    + apply routedWrite_kept. intros target ctx'. apply always_bind; [apply _|apply always_lift, _|intros].
      apply onDB_kept.
    + intros r y [((-> & Hy & Hc) & Hk) Hw]. split; [done|]. split; [|done]. by split_and!.
Qed.

(** *** The telemetry store around a group *)

Lemma withStoreSpan_runs {A} q ctx name kind (call : Context -> appM (A * option error)) x (Q : A * option error -> stateT * W -> Prop) :
  telemetryOk (telemetry (ms_mesh q)) -> is_Some (storeDuration (telemetry (ms_mesh q))) ->
  (forall ctx' s1, frame x.1 s1 -> kept x.1 s1 -> runs (call ctx') (s1, x.2) (fun r y =>
     kept s1 y.1 /\ forall s3, frame y.1 s3 -> kept y.1 s3 -> Q r (s3, y.2))) ->
  runs (withStoreSpan ErrorType DebugEnabled q ctx name kind call) x Q.
Proof.
  intros Ht Hd Hcall. unfold withStoreSpan.
  eapply runs_seq; [exact (onStore_runs _ x _ (startStore_runs q ctx "Settings" name kind x.1 Ht Hd))|].
  intros [ctx' sp] [s1 w1] [(H1 & Hlive & Hk1) Hw]. cbn [fst snd] in *. subst w1.
  apply deferred_runs. eapply runs_mono; [by apply Hcall|]. intros r y [Hk HQ].
  eapply runs_mono; [apply (onStore_runs _ y), runs_always; [apply endStore_runs|apply endStore_kept]|].
  - by eapply storeSpanLive_kept.
  - intros ? [s3 w3] [(H3 & Hk3) Hw]. cbn [fst snd] in *. subst w3. by apply HQ.
Qed.

Lemma telemetry_implements {Σ} ok (M : settingsModel Σ (txOp DBTX)) R q g :
  telemetryOk (telemetry (ms_mesh q)) -> is_Some (storeDuration (telemetry (ms_mesh q))) ->
  (forall σ x s, R σ x -> frame x.1 s -> R σ (s, x.2)) ->
  implements ok M R g -> implements ok M R (telemetrySettingsStore ErrorType DebugEnabled q g).
Proof.
  intros Ht Hd HR Hg σ x ctx op Hx Hok.
  assert (Hcall : forall ctx' s1, frame x.1 s1 -> kept x.1 s1 -> runs (execTx g ctx' op) (s1, x.2)
    (fun r y => kept s1 y.1 /\ forall s3, frame y.1 s3 -> kept y.1 s3 ->
       r = (M σ op).1 /\ R (M σ op).2 (s3, y.2) /\ kept x.1 (s3, y.2).1)).
  { intros ctx' s1 H1 Hk1. eapply runs_mono; [apply (Hg σ (s1, x.2) ctx' op); [by apply HR|done]|].
    intros r y (Hr & Hy & Hk). split; [done|]. intros s3 H3 Hk3. split_and!; [done|by apply HR|].
    etrans; [exact Hk1|]. by etrans. }
  destruct op as [tx [primary' key|arg]]; unfold execTx; cbn [fst snd telemetrySettingsStore Settings_GetSetting Settings_UpsertSetting];
    by apply withStoreSpan_runs.
Qed.

Lemma openAt_frame q p rs ms w calls x s :
  openAt q p rs ms w calls x -> frame x.1 s -> openAt q p rs ms w calls (s, x.2).
Proof.
  intros (Hs & Hc & Hw) Hf. split_and!; [by eapply servesOne_frame| |done]. cbn. by rewrite (fr_calls _ _ Hf).
Qed.

End Models.

(** ** The tables of the databases *)

Section Tables.
Context {DBTX : Type} `{!EqDecision DBTX} `{!Driver DBTX} `{!SettingsTable DBTX}.
Implicit Types (calls : list (dbCall DBTX)) (p db : DBTX).

Lemma settings_upserts calls k v (ds : list DBTX) db :
  settings (calls ++ ((fun d => CallQueryRow d upsertSetting [VText k; VText v]) <$> ds)) db =
  if bool_decide (db ∈ ds) then <[k := v]> (settings calls db) else settings calls db.
Proof.
  revert calls. induction ds as [|d ds IH]; intros calls; [cbn; by rewrite app_nil_r|].
  cbn [fmap list_fmap]. rewrite cons_middle, app_assoc, IH.
  destruct (decide (db = d)) as [->|Hne].
  - rewrite (bool_decide_eq_true_2 (d ∈ d :: ds)) by left.
    destruct (settings_upsert calls (MkContext None None None) d k v) as [_ ->].
    case_bool_decide; [apply insert_insert_eq|done].
  - rewrite settings_other by done. by rewrite (bool_decide_ext (db ∈ d :: ds) (db ∈ ds)) by set_solver.
Qed.

(** An operation works on the primary and the mirrors, and on nothing else. *)
Lemma settings_opCalls calls p ms op db :
  settings (calls ++ opCalls p ms op) db =
  if bool_decide (db ∈ p :: ms) then (specSettings (settings calls db) op).2 else settings calls db.
Proof.
  destruct op as [primary key|arg]; cbn [opCalls specSettings snd]; [|apply settings_upserts].
  assert (settings (calls ++ [CallQueryRow p getSetting [VText key]]) db = settings calls db) as ->.
  { destruct (decide (p = db)) as [<-|Hne]; [|by apply settings_other].
    apply (settings_get calls (MkContext None None None) p key). }
  by case_bool_decide.
Qed.

(** The model on the calls is the specification on the primary's table, and the
    mirrors' tables take the same writes. *)
Lemma tableModel_spec p ms calls ops :
  let '(rs, calls') := modelOps (tableModel p ms) calls (pair None <$> ops) in
  rs = (modelOps specSettings (settings calls p) ops).1 /\
  forall db, settings calls' db =
    if bool_decide (db ∈ p :: ms) then (modelOps specSettings (settings calls db) ops).2 else settings calls db.
Proof.
  revert calls. induction ops as [|op ops IH]; intros calls; cbn [modelOps fmap list_fmap].
  { split; [done|]. intros db. by case_bool_decide. }
  unfold tableModel at 1. cbn [fst snd txCalls from_option]. specialize (IH (calls ++ opCalls p ms op)).
  destruct (modelOps (tableModel p ms) (calls ++ opCalls p ms op) _) as [rs calls'].
  destruct IH as [-> Htables]. rewrite settings_opCalls, bool_decide_eq_true_2 by left.
  split.
  - destruct op as [primary key|arg]; cbn [specSettings fst snd]; by destruct (modelOps specSettings _ ops).
  - intros db. rewrite Htables, settings_opCalls. case_bool_decide; [|done].
    destruct (specSettings (settings calls db) op) as [r t] eqn:E. cbn [snd].
    by destruct (modelOps specSettings t ops).
Qed.

End Tables.

(** ** Opening and using the store *)

Section Opened.
Context {DBTX : Type} `{!EqDecision DBTX} `{!Driver DBTX} `{!SettingsTable DBTX} {RT : Runtime}.
Context {W Tracer Instrument Logger : Type}.
Context (ErrorType : error -> KeyValue) (DebugEnabled : Logger -> bool).
Context (gtp : TracerProvider Tracer) (gmp : MeterProvider Instrument).
#[local] Abbreviation stateT := (storeState DBTX Tracer Instrument Logger).
#[local] Abbreviation storeT := (meshStore DBTX Z Tracer Instrument Logger).
#[local] Abbreviation groupT := (Settings DBTX W Tracer Instrument Logger).
#[local] Abbreviation optionT := (StoreOption (DBTX := DBTX) (W := W) (Tracer := Tracer)
  (Instrument := Instrument) (Logger := Logger)).
Implicit Types (q : storeT) (s : stateT) (c : singletonConfig (DBTX := DBTX)).

(** The options that are applied, and the first fault of opening. *)
Definition appliedOptions (options : list (option optionT)) :=
  foldl (fun o f => f o) (OneStore.StoreOptions None None None None) (omap id options).

Definition openFault c (options : list (option optionT)) : option error :=
  match firstNil options with
  | Some i => Some (Errorf "pgmesh: store option %d is nil" [AInt (Z.of_nat i)] [])
  | None => singletonFault c
  end.

Lemma applyStoreOptions_spec (options : list (option optionT)) :
  OneStore.applyStoreOptions options =
  match firstNil options with
  | Some i => Err (Errorf "pgmesh: store option %d is nil" [AInt (Z.of_nat i)] [])
  | None => Ok (appliedOptions options)
  end.
Proof. apply (foldO_firstNil _ (fun o f => f o) options 0). Qed.

#[local] Abbreviation open c options :=
  (OneStore.NewStore (Some (OneStore.singleton_buildStore ErrorType DebugEnabled gtp gmp (Ok c))) options).

(** NewStore: the first fault, or a store on the configured databases. *)
Lemma NewStore_runs c (options : list (option optionT)) s :
  metersOk gmp -> metersOk (default gmp (OneStore.so_meterProvider (appliedOptions options))) -> heap_wf (st_heap s) ->
  match openFault c options with
  | Some e => exists s', open c options s = (Err e, s') /\ st_calls s' = st_calls s
  | None => runs (open c options) s (openedOne ErrorType DebugEnabled c (appliedOptions options) s)
  end.
Proof.
  intros Hg Hm Hwf. unfold openFault, OneStore.NewStore, runs. rewrite applyStoreOptions_spec.
  destruct (firstNil options) as [i|]; [by exists s|].
  rewrite (stE_bind_Ok _ _ s (appliedOptions options) s) by done.
  by apply (singleton_buildStore_spec ErrorType DebugEnabled gtp gmp c (appliedOptions options) s).
Qed.

(** A factory turns a group that implements one model into a group that
    implements another. *)
Lemma opened_implements {Σ} (R : Σ -> stateT * W -> Prop) ok M create q (options : OneStore.storeOptions) :
  OneStore.so_factories_Settings options = Some create ->
  telemetryOk (telemetry (ms_mesh q)) -> is_Some (storeDuration (telemetry (ms_mesh q))) ->
  (forall σ x s, R σ x -> frame x.1 s -> R σ (s, x.2)) ->
  implements ok M R (create (groupedSettings ErrorType DebugEnabled q)) ->
  implements ok M R (Store_Settings (OneStore.initializeGroups ErrorType DebugEnabled q options)).
Proof. intros Hf Ht Hd HR Hg. cbn. rewrite Hf. by apply telemetry_implements. Qed.

(** C14: The store of one database, from opening to its queries. NewStore with a
    singleton topology fails with the first fault - a nil option, no primary, a
    nil replica, a nil mirror, a blank name, in this order - and calls no
    database. Otherwise it opens, and any sequence of settings queries, read
    from the primary or with no replicas, returns what a map from keys to values
    returns that starts as the primary's table: a missing key is sql.ErrNoRows,
    an upsert returns its row. Afterwards the tables of the primary and of every
    mirror have taken every write, and no other database has changed. *)
Theorem one_store_correct c (options : list (option optionT)) ctx ops w s :
  metersOk gmp -> metersOk (default gmp (OneStore.so_meterProvider (appliedOptions options))) -> heap_wf (st_heap s) ->
  OneStore.so_factories_Settings (appliedOptions options) = None ->
  let mirrors := omap id (sc_mirrors c) in
  match openFault c options, sc_primary c with
  | Some e, _ => exists s', open c options s = (Err e, s') /\ st_calls s' = st_calls s
  | None, None => False
  | None, Some p =>
      exists store s1, open c options s = (Ok store, s1) /\ st_calls s1 = st_calls s /\
      (Forall (allowed (omap id (sc_replicas c))) ops ->
       exists s2, execSettings (Store_Settings store) ctx ops (s1, w) =
           (Ok (modelOps specSettings (settings (st_calls s) p) ops).1, (s2, w)) /\
         forall db, settings (st_calls s2) db =
           if bool_decide (db ∈ p :: mirrors) then (modelOps specSettings (settings (st_calls s) db) ops).2
           else settings (st_calls s) db)
  end.
Proof.
  intros Hg Hm Hwf Hfac mirrors. pose proof (NewStore_runs c options s Hg Hm Hwf) as Hopen.
  destruct (openFault c options) as [e|] eqn:Hfault; [done|].
  destruct Hopen as (store & s1 & Hopen & p & q & Hp & -> & Hserve & Hc & _). rewrite Hp.
  eexists _, s1. split; [exact Hopen|]. split; [done|]. intros Hops. cbn. rewrite Hfac.
  assert (Hops' : Forall (allowedTx (omap id (sc_replicas c))) (pair None <$> ops)).
  { apply Forall_fmap. eapply Forall_impl; [exact Hops|]. by intros op H _. }
  rewrite execSettings_tx. pose proof (implements_ops _ _ _ _ ctx _ _ (s1, w)
    (grouped_implements ErrorType DebugEnabled q p _ mirrors w) (conj Hserve (conj eq_refl eq_refl)) Hops')
    as (rs & [s2 w2] & Hrun & -> & Hs & Hc2 & Hw). cbn [fst snd] in *. subst w2.
  pose proof (tableModel_spec p mirrors (st_calls s1) ops) as Hspec.
  destruct (modelOps (tableModel p mirrors) (st_calls s1) _) as [rs calls'] eqn:E. cbn [fst snd] in *.
  destruct Hspec as [-> Htables]. rewrite Hc in *. exists s2. split; [done|]. by rewrite Hc2.
Qed.

End Opened.
