(* ===== verification/SettingsDriver.v ===== *)
(** * SettingsDriver: settings databases in memory

    A driver that answers the two settings statements from the calls made
    before, one table per handle, and a state to open stores in. It satisfies
    [SettingsTable], so the hypotheses about databases can hold. *)

From S2P Require Import Prelude Errors Routing Telemetry Builder OpenMesh Tasks.
From S2P Require Import StoreQueries Store StoreBuild StoreLemmas StoreRefine OneStore OneRefine OneSettings.

#[local] Open Scope Z_scope.

Definition settingRow (x : ApplicationSetting) : row := fun ts =>
  match ts return dests ts -> dests ts * option error with
  | [DText; DText] => fun _ => ((Key x, (Value x, tt)), None)
  | _ => fun d => (d, Some (ErrorText "scan"))
  end.
Definition noSetting : row := fun ts d => (d, Some (StdError SqlErrNoRows)).

(** The effect of a statement on the table it runs on, and its row. *)
Definition runSetting (t : settingTable) (sql : string) (args : list value) : settingTable * row :=
  match args with
  | [VText k; VText v] =>
      if bool_decide (sql = upsertSetting) then (<[k := v]> t, settingRow (MkSetting k v)) else (t, noSetting)
  | [VText k] =>
      if bool_decide (sql = getSetting)
      then (t, match t !! k with Some v => settingRow (MkSetting k v) | None => noSetting end)
      else (t, noSetting)
  | _ => (t, noSetting)
  end.

Definition applySetting (db : nat) (t : settingTable) (c : dbCall nat) : settingTable :=
  match c with
  | CallQueryRow d sql args => if bool_decide (d = db) then (runSetting t sql args).1 else t
  | _ => t
  end.

Definition memorySettings (calls : list (dbCall nat)) (db : nat) : settingTable :=
  foldl (applySetting db) ∅ calls.

#[export] Instance settingsDriver : Driver nat := {|
  drv_QueryRow calls _ db sql args := (runSetting (memorySettings calls db) sql args).2;
  drv_Query calls _ db sql args := inl (ErrorText "statement");
  drv_CopyFrom calls _ db _ _ rows := (Z.of_nat (length rows), None);
|}.

Lemma memorySettings_row calls sql args db :
  memorySettings (calls ++ [CallQueryRow db sql args]) db = (runSetting (memorySettings calls db) sql args).1.
Proof. unfold memorySettings. rewrite foldl_app. cbn. by rewrite bool_decide_eq_true_2. Qed.

#[export] Instance settingsTable : SettingsTable nat.
Proof.
  refine {| settings := memorySettings |}.
  - intros calls c db Hne. unfold memorySettings. rewrite foldl_app. cbn. destruct c; try done. cbn in *.
    by rewrite bool_decide_eq_false_2.
  - intros calls ctx db k v. rewrite memorySettings_row. unfold runSetting. rewrite !bool_decide_eq_true_2 by done.
    split; [|done]. cbn. rewrite bool_decide_eq_true_2 by done. by intros d.
  - intros calls ctx db k r. unfold r. rewrite memorySettings_row. cbn [drv_QueryRow settingsDriver]. unfold runSetting.
    rewrite !bool_decide_eq_true_2 by done. split; [done|]. cbn [snd].
    destruct (memorySettings calls db !! k); by intros d.
Defined.

Module OneSample.
#[export] Instance runtime : Runtime :=
  {| clock n := Z.of_nat n; schedules _ := []; pendingOrder _ m := elements m; pendingOrder_all _ m := reflexivity _;
     backgroundMoves _ := []; deadline := None; selectDone _ := true |}.

Definition state0 : storeState nat nat string unit := StoreState emptyHeap sampleState ∅ [] 0 ∅ 1%positive.
Definition debug (_ : unit) : bool := true.

(** Database 1 with replica 3 and mirror 2. *)
Definition config : singletonConfig (DBTX := nat) := SingletonConfig "settings" (Some 1%nat) [Some 3%nat] [Some 2%nat].
Definition noOptions : list (option (StoreOption (DBTX := nat) (W := unit) (Tracer := nat) (Instrument := string) (Logger := unit))) :=
  [Some (OneStore.WithLogger (Some tt))].
Definition ops : list settingOp :=
  [OpGetSetting true "region"; OpUpsertSetting (MkUpsertSettingParams "region" "eu"); OpGetSetting true "region"].
End OneSample.

#[local] Existing Instance OneSample.runtime.

Lemma one_store_correct_witness :
  exists store s1 s2, OneStore.NewStore (Some (OneStore.singleton_buildStore sampleErrorType OneSample.debug
        sampleTracers sampleMeters (Ok OneSample.config))) OneSample.noOptions OneSample.state0 = (Ok store, s1) /\
    execSettings (Store_Settings store) sampleContext OneSample.ops (s1, tt) =
      (Ok [(None, Some (StdError SqlErrNoRows)); (Some (MkSetting "region" "eu"), None);
           (Some (MkSetting "region" "eu"), None)], (s2, tt)) /\
    memorySettings (st_calls s2) 2%nat = {["region" := "eu"]} /\ memorySettings (st_calls s2) 3%nat = ∅.
Proof.
  destruct (one_store_correct sampleErrorType OneSample.debug sampleTracers sampleMeters OneSample.config
    OneSample.noOptions sampleContext OneSample.ops tt OneSample.state0
    OpenMesh.Sample.meters_ok OpenMesh.Sample.meters_ok emptyHeap_wf eq_refl)
    as (store & s1 & Hopen & Hcalls & Hrun).
  destruct (Hrun ltac:(repeat constructor)) as (s2 & Hops & Htables).
  exists store, s1, s2. split; [exact Hopen|]. split; [exact Hops|].
  split; [exact (Htables 2%nat)|exact (Htables 3%nat)].
Defined.
