(* ===== verification/CacheAside.v ===== *)
(** * CacheAside: a cache in front of a query group (examples/06-cache-aside)

    The example program wraps the Settings group of the store of one database
    with a process-local cache. Its code runs on the store's state together with
    its own world: the cache and what the program prints. The mutex of the cache
    is for concurrent callers; calls are one after the other here.

    The wrapped group implements a model of its own ([cacheModel]), inside and
    outside of transactions. Outside of transactions the cache stays part of the
    primary's table and the model returns what the table returns; a row that is
    upserted in a transaction is in the cache at once. *)

From S2P Require Import Prelude Errors GoStrings Hasher Balancer Routing Telemetry Builder Topology OpenMesh Tasks.
From S2P Require Import StoreQueries Store StoreBuild StoreLemmas StoreRefine StoreOpen StoreSpans OneStore OneRefine OneSettings SettingsDriver.

#[local] Open Scope Z_scope.

(** ** The program *)

(** [Printed format value] is [fmt.Printf(format, value)], with the format as it
    is written in the source; [PoolClosed] is the deferred Close of the pool. *)
Inductive event := Printed (format : string) (value : string) | PoolClosed.

Record world := World { cw_values : gmap string ApplicationSetting; cw_events : list event }.

Definition newSettingCache : gmap string ApplicationSetting := ∅.

Section Program.
Context {DBTX : Type} `{!Driver DBTX} {RT : Runtime}.
Context {Tracer Instrument Logger : Type}.
Context (ErrorType : error -> KeyValue) (DebugEnabled : Logger -> bool).
Context (gtp : TracerProvider Tracer) (gmp : MeterProvider Instrument).
#[local] Abbreviation stateT := (storeState DBTX Tracer Instrument Logger).
#[local] Abbreviation appM := (stE (stateT * world) error).
#[local] Abbreviation groupT := (Settings DBTX world Tracer Instrument Logger).
#[local] Abbreviation settingM := (appM (option ApplicationSetting * option error)).

Definition onWorld {A} (f : world -> A * world) : appM A := fun s =>
  let '(a, w) := f s.2 in (Ok a, (s.1, w)).

Definition settingCache_get (key : string) : appM (option ApplicationSetting) :=
  onWorld (fun w => (cw_values w !! key, w)).

Definition settingCache_put (setting : option ApplicationSetting) : appM unit :=
  match setting with
  | None => mret tt
  | Some setting => onWorld (fun w => (tt, World (<[Key setting := setting]> (cw_values w)) (cw_events w)))
  end.

Definition Printf (format value : string) : appM unit :=
  onWorld (fun w => (tt, World (cw_values w) (cw_events w ++ [Printed format value]))).

Definition hitFormat : string := "cache hit for %q\n".
Definition missFormat : string := "cache miss for %q\n".

Definition cachedSettings_GetSetting (s : groupT) (ctx : Context) (key : string)
    (options : list (QueryOption DBTX)) : settingM :=
  match options with
  | _ :: _ => Settings_GetSetting s ctx key options
  | [] =>
      cached ← settingCache_get key;
      match cached with
      | Some setting => _ ← Printf hitFormat key; mret (Some setting, None)
      | None =>
          _ ← Printf missFormat key;
          '(setting, err) ← Settings_GetSetting s ctx key [];
          _ ← match err with None => settingCache_put setting | Some _ => mret tt end;
          mret (setting, err)
      end
  end.

Definition cachedSettings_UpsertSetting (s : groupT) (ctx : Context) (arg : option UpsertSettingParams)
    (options : list (QueryOption DBTX)) : settingM :=
  '(setting, err) ← Settings_UpsertSetting s ctx arg options;
  _ ← match err with None => settingCache_put setting | Some _ => mret tt end;
  mret (setting, err).

Definition cachedSettings (internal : groupT) : groupT := {|
  Settings_GetSetting := cachedSettings_GetSetting internal;
  Settings_UpsertSetting := cachedSettings_UpsertSetting internal |}.

(** [run] after the environment variable was read: the pool of pgx is an
    argument, and so is its Ping. A returned error is a value. *)
Definition openStore (pool : DBTX)
    : appM (error + OneStore.Store DBTX world Tracer Instrument Logger) := fun s =>
  match OneStore.NewStore (Some (OneStore.singleton_buildStore ErrorType DebugEnabled gtp gmp
          (Singleton (Some pool) [Some (WithDatabaseName "settings")])))
        [Some (OneStore.WithSettingsFactory (Some cachedSettings))] s.1 with
  | (Ok store, s1) => (Ok (inr store), (s1, s.2))
  | (Err e, s1) => (Ok (inl (Errorf "create store: %w" [] [e])), (s1, s.2))
  | (Panic, s1) => (Panic, (s1, s.2))
  end.

(** [for range 2]. *)
Fixpoint printDeployment (n : nat) (settings : groupT) (ctx : Context) : appM (option error) :=
  match n with
  | O => mret None
  | S n =>
      '(setting, getErr) ← Settings_GetSetting settings ctx "deployment_name" [];
      match getErr with
      | Some e => mret (Some (Errorf "get setting: %w" [] [e]))
      | None =>
          setting ← lift (panic_if_none setting);
          _ ← Printf "deployment: %s\n" (Value setting);
          printDeployment n settings ctx
      end
  end.

Definition useStore (settings : groupT) (ctx : Context) : appM (option error) :=
  err ← printDeployment 2 settings ctx;
  match err with
  | Some e => mret (Some e)
  | None =>
      '(updated, err) ← Settings_UpsertSetting settings ctx
        (Some (MkUpsertSettingParams "deployment_name" "pgmesh cache-aside example")) [];
      match err with
      | Some e => mret (Some (Errorf "update setting: %w" [] [e]))
      | None =>
          updated ← lift (panic_if_none updated);
          '(setting, err) ← Settings_GetSetting settings ctx (Key updated) [];
          match err with
          | Some e => mret (Some (Errorf "get updated setting: %w" [] [e]))
          | None =>
              setting ← lift (panic_if_none setting);
              _ ← Printf "updated deployment: %s\n" (Value setting);
              mret None
          end
      end
  end.

(** The pool is closed when the body ends or panics, once it was opened. *)
Definition closing {A} (m : appM A) : appM A := fun s =>
  let '(o, (s1, w)) := m s in (o, (s1, World (cw_values w) (cw_events w ++ [PoolClosed]))).

Definition run (dsn : string) (pgxpool_New : string -> error + DBTX) (Ping : DBTX -> option error)
    (ctx : Context) : appM (option error) :=
  if bool_decide (dsn = "") then mret (Some (ErrorText "CACHE_DATABASE_DSN is required"))
  else
    match pgxpool_New dsn with
    | inl err => mret (Some (Errorf "open database: %w" [] [err]))
    | inr pool =>
        closing (
          match Ping pool with
          | Some pingErr => mret (Some (Errorf "ping database: %w" [] [pingErr]))
          | None =>
              _ ← onWorld (fun w => (tt, World newSettingCache (cw_events w)));
              opened ← openStore pool;
              match opened with
              | inl err => mret (Some err)
              | inr store => useStore (Store_Settings store) ctx
              end
          end)
    end.

End Program.

(** ** The model of the wrapped group *)

Section Model.
Context {DBTX Σ : Type} (M : settingsModel Σ (txOp DBTX)).

Definition noteResult (r : settingResult) (w : world) : world :=
  match r with
  | (Some x, None) => World (<[Key x := x]> (cw_values w)) (cw_events w)
  | _ => w
  end.
Definition noteEvent (e : event) (w : world) : world := World (cw_values w) (cw_events w ++ [e]).

(** The key of a read without options. *)
Definition plainRead (x : txOp DBTX) : option string :=
  match x with
  | (None, OpGetSetting false key) => Some key
  | _ => None
  end.

(** Reads with options pass by the cache; every upsert puts its row there. *)
Definition cacheModel : settingsModel (Σ * world) (txOp DBTX) := fun '(σ, w) x =>
  match plainRead x, x.2 with
  | Some key, _ =>
      match cw_values w !! key with
      | Some setting => ((Some setting, None), (σ, noteEvent (Printed hitFormat key) w))
      | None => let '(r, σ) := M σ x in (r, (σ, noteResult r (noteEvent (Printed missFormat key) w)))
      end
  | None, OpGetSetting _ _ => let '(r, σ) := M σ x in (r, (σ, w))
  | None, OpUpsertSetting _ => let '(r, σ) := M σ x in (r, (σ, noteResult r w))
  end.

End Model.

Section Implements.
Context {DBTX : Type} `{!EqDecision DBTX} `{!Driver DBTX} {RT : Runtime}.
Context {Tracer Instrument Logger : Type}.
#[local] Abbreviation stateT := (storeState DBTX Tracer Instrument Logger).
#[local] Abbreviation groupT := (Settings DBTX world Tracer Instrument Logger).

(** A relation on the store's state beside the world. *)
Definition beside {Σ} (R : Σ -> stateT -> Prop) (σw : Σ * world) (x : stateT * world) : Prop :=
  R σw.1 x.1 /\ x.2 = σw.2.

Lemma note_runs (setting : option ApplicationSetting) (err : option error) (x : stateT * world) :
  runs (_ ← match err with None => settingCache_put setting | Some _ => mret tt end; mret (setting, err)) x
    (fun r y => r = (setting, err) /\ y = (x.1, noteResult (setting, err) x.2)).
Proof. destruct x as [s w], err as [e|], setting as [y|]; by eexists _, _. Qed.

(** The wrapper implements the cached model of what it wraps, whatever that is. *)
Lemma cached_implements {Σ} ok (M : settingsModel Σ (txOp DBTX)) R (g : groupT) :
  (forall w, implements ok M (fun σ x => R σ x.1 /\ x.2 = w) g) ->
  implements ok (cacheModel M) (beside R) (cachedSettings g).
Proof.
  intros Hg [σ w] [s w'] ctx op [HR Hw] Hok. cbn [fst snd] in *. subst w'.
  assert (Hthen : forall w1, runs (execTx g ctx op) (s, w1) (fun r y =>
    r = (M σ op).1 /\ (R (M σ op).2 y.1 /\ y.2 = w1) /\ kept s y.1)) by (intros w1; by apply (Hg w1)).
  unfold cacheModel. destruct (plainRead op) as [key|] eqn:Hplain.
  { destruct op as [[tx|] [[|] key'|arg]]; try done. injection Hplain as ->. unfold execTx.
    cbn [fst snd readOptions txOptions app cachedSettings Settings_GetSetting]. unfold cachedSettings_GetSetting.
    apply runs_bind. eexists _, _. split; [reflexivity|]. cbn [fst snd]. destruct (cw_values w !! key) as [x|].
    { eexists _, _. split; [reflexivity|]. by split_and!. }
    apply runs_bind. eexists _, _. split; [reflexivity|]. cbn [fst snd].
    eapply runs_seq; [apply Hthen|]. intros [setting err] [s1 w1] (Hr & [Hy Hw1] & Hk). cbn [fst snd] in *. subst w1.
    eapply runs_mono; [apply note_runs|]. intros r y [-> ->]. destruct (M σ _) as [r σ']. cbn in *. subst r. by split_and!. }
  destruct op as [tx [primary key|arg]]; cbn [fst snd].
  - assert (Hby : execTx (cachedSettings g) ctx (tx, OpGetSetting primary key) = execTx g ctx (tx, OpGetSetting primary key))
      by (by destruct tx, primary). rewrite Hby. eapply runs_mono; [apply (Hthen w)|]. intros r [s1 w1] (-> & [Hy Hw1] & Hk).
    cbn [fst snd] in *. subst w1. by destruct (M σ _) as [r σ'].
  - change (execTx (cachedSettings g) ctx (tx, OpUpsertSetting arg)) with
      ('(setting, err) ← execTx g ctx (tx, OpUpsertSetting arg);
       _ ← match err with None => settingCache_put setting | Some _ => mret tt end; mret (setting, err)).
    eapply runs_seq; [apply (Hthen w)|]. intros [setting err] [s1 w1] (Hr & [Hy Hw1] & Hk). cbn [fst snd] in *. subst w1.
    eapply runs_mono; [apply note_runs|]. intros r y [-> ->]. destruct (M σ _) as [r σ']. cbn in *. subst r. by split_and!.
Qed.

End Implements.

(** ** What the cached model returns *)

(** The tables the handles see. *)
Section Spec.
Context {DBTX : Type} `{!EqDecision DBTX} (p : DBTX) (mirrors : list DBTX).
#[local] Abbreviation tables := (DBTX -> settingTable).

(** The handles an upsert writes to. *)
Definition written (tx : option DBTX) : list DBTX := match tx with Some d => [d] | None => p :: mirrors end.



End Spec.


Section Trace.
Context {DBTX : Type} `{!EqDecision DBTX} `{!Driver DBTX} `{!SettingsTable DBTX}.
#[local] Abbreviation tables := (DBTX -> settingTable).

Lemma settings_txCalls calls p ms (x : txOp DBTX) db :
  settings (calls ++ txCalls p ms x) db =
  match x with
  | (tx, OpUpsertSetting arg) =>
      if bool_decide (db ∈ written p ms tx) then <[usp_Key arg := usp_Value arg]> (settings calls db) else settings calls db
  | _ => settings calls db
  end.
Proof.
  destruct x as [[tx|] [primary key|arg]]; cbn [txCalls fst snd]; rewrite settings_opCalls; cbn [specSettings snd written];
    try done; by case_bool_decide.
Qed.








End Trace.

(** ** The store with the cache *)

Section Cached.
Context {DBTX : Type} `{!EqDecision DBTX} `{!Driver DBTX} `{!SettingsTable DBTX} {RT : Runtime}.
Context {Tracer Instrument Logger : Type}.
Context (ErrorType : error -> KeyValue) (DebugEnabled : Logger -> bool).
Context (gtp : TracerProvider Tracer) (gmp : MeterProvider Instrument).
#[local] Abbreviation stateT := (storeState DBTX Tracer Instrument Logger).
#[local] Abbreviation storeT := (meshStore DBTX Z Tracer Instrument Logger).
#[local] Abbreviation groupT := (Settings DBTX world Tracer Instrument Logger).
#[local] Abbreviation optionT := (StoreOption (DBTX := DBTX) (W := world) (Tracer := Tracer)
  (Instrument := Instrument) (Logger := Logger)).
Implicit Types (q : storeT) (s : stateT) (w : world) (g : groupT).

#[local] Abbreviation open c options :=
  (OneStore.NewStore (Some (OneStore.singleton_buildStore ErrorType DebugEnabled gtp gmp (Ok c))) options).

(** The store of one database between operations, beside the calls made. *)
Definition servedAt q (p : DBTX) (replicas mirrors : list DBTX) (calls : list (dbCall DBTX)) s : Prop :=
  servesOne p replicas mirrors q s /\ st_calls s = calls.

Lemma cachedStore_implements q p rs ms (options : OneStore.storeOptions) s :
  OneStore.so_factories_Settings options = Some cachedSettings -> servesOne p rs ms q s ->
  implements (allowedTx rs) (cacheModel (tableModel p ms)) (beside (servedAt q p rs ms))
    (Store_Settings (OneStore.initializeGroups ErrorType DebugEnabled q options)).
Proof.
  intros Hf Hserve. apply (opened_implements _ _ _ _ _ cachedSettings); [done|apply Hserve|apply Hserve| |].
  - intros [calls w] x s' [[Hx Hc] Hw] Hfr. split; [|done]. split; [by eapply servesOne_frame|].
    cbn. by rewrite (fr_calls _ _ Hfr).
  - apply cached_implements. intros w calls x ctx op [[Hx Hc] Hw] Hok.
    eapply runs_mono; [apply (grouped_implements ErrorType DebugEnabled q p rs ms w calls x ctx op)|]; [by split|done|].
    intros r y (-> & (Hy & Hc' & Hw') & Hk). by split_and!.
Qed.


(** *** The whole program *)

#[local] Abbreviation deployment := "deployment_name".
#[local] Abbreviation example := "pgmesh cache-aside example".

(** The keys read and the lines printed when the deployment is [v]. *)
Definition deploymentEvents (v : string) : list event :=
  [Printed missFormat deployment; Printed "deployment: %s\n" v;
   Printed hitFormat deployment; Printed "deployment: %s\n" v;
   Printed hitFormat deployment; Printed "updated deployment: %s\n" example].

(** What the program does with a store whose table is [t]: its error, its lines
    and its table afterwards. *)
Definition deploymentResult (t : settingTable) : option error * list event * settingTable :=
  match t !! deployment with
  | None => (Some (Errorf "get setting: %w" [] [StdError SqlErrNoRows]), [Printed missFormat deployment], t)
  | Some v => (None, deploymentEvents v, <[deployment := example]> t)
  end.

Lemma printf_runs {A} format value (k : unit -> stE (stateT * world) error A) s w Q :
  runs (k tt) (s, noteEvent (Printed format value) w) Q -> runs (Printf format value ≫= k) (s, w) Q.
Proof. intros H. apply runs_bind. by eexists _, _. Qed.

Lemma liftSome_runs {A B} (a : A) (k : A -> stE (stateT * world) error B) x Q :
  runs (k a) x Q -> runs (lift (panic_if_none (Some a)) ≫= k) x Q.
Proof. intros H. apply runs_bind. by eexists _, _. Qed.

Section Use.
Context g q (p : DBTX) (ctx : Context).
Context (Hg : implements (allowedTx (@nil DBTX)) (cacheModel (tableModel p [])) (beside (servedAt q p [] [])) g).

Lemma cached_get k s w :
  servesOne p [] [] q s ->
  let t := settings (st_calls s) p in
  runs (Settings_GetSetting g ctx k []) (s, w) (fun r y => exists s', servesOne p [] [] q s' /\ settings (st_calls s') p = t /\
    match cw_values w !! k with
    | Some x => r = (Some x, None) /\ y = (s', noteEvent (Printed hitFormat k) w)
    | None => r = getResult t k /\ y = (s', noteResult (getResult t k) (noteEvent (Printed missFormat k) w))
    end).
Proof.
  intros Hs t. eapply runs_mono; [by apply (Hg (st_calls s, w) (s, w) ctx (None, OpGetSetting false k))|].
  intros r [s' w'] (-> & Hy & _). exists s'. revert Hy. unfold cacheModel. cbn [plainRead].
  pose proof (settings_txCalls (st_calls s) p [] (None, OpGetSetting false k) p) as Ht.
  destruct (cw_values w !! k) as [x|]; cbn [tableModel fst snd]; intros [[Hs' Hc] Hw]; cbn [fst snd] in *; subst w'; rewrite Hc;
    by split_and!.
Qed.

Lemma cached_upsert arg s w :
  servesOne p [] [] q s ->
  runs (Settings_UpsertSetting g ctx (Some arg) []) (s, w) (fun r y => exists s', servesOne p [] [] q s' /\
    settings (st_calls s') p = <[usp_Key arg := usp_Value arg]> (settings (st_calls s) p) /\
    r = settingUpserted arg /\ y = (s', noteResult (settingUpserted arg) w)).
Proof.
  intros Hs. eapply runs_mono; [by apply (Hg (st_calls s, w) (s, w) ctx (None, OpUpsertSetting arg))|].
  intros r [s' w'] (-> & Hy & _). exists s'. revert Hy. unfold cacheModel. cbn [plainRead snd].
  pose proof (settings_txCalls (st_calls s) p [] (None, OpUpsertSetting arg) p) as Ht. cbn [written] in Ht.
  rewrite bool_decide_eq_true_2 in Ht by left. cbn [tableModel fst snd].
  intros [[Hs' Hc] Hw]; cbn [fst snd] in *. subst w'. rewrite Hc. by split_and!.
Qed.

Lemma useStore_runs s w :
  servesOne p [] [] q s -> cw_values w = ∅ ->
  runs (useStore g ctx) (s, w) (fun err y =>
    let '(e, events, t) := deploymentResult (settings (st_calls s) p) in
    err = e /\ cw_events y.2 = cw_events w ++ events /\ settings (st_calls y.1) p = t).
Proof.
  intros Hs Hempty. destruct w as [values events]. cbn in Hempty. subst values.
  unfold useStore, deploymentResult. apply runs_bind. cbn [printDeployment].
  eapply runs_seq; [by apply cached_get|]. intros r y (s1 & Hs1 & Ht1 & H). cbn [cw_values] in H.
  rewrite lookup_empty in H. destruct H as [-> ->]. unfold getResult.
  destruct (settings (st_calls s) p !! deployment) as [v|]; [|by apply runs_ret, runs_ret].
  apply liftSome_runs, printf_runs. cbn [Value noteResult noteEvent cw_values cw_events Key].
  eapply runs_seq; [by apply cached_get|]. intros r y (s2 & Hs2 & Ht2 & H). cbn [noteEvent noteResult settingUpserted cw_values cw_events Key usp_Key usp_Value] in H.
  rewrite lookup_insert_eq in H. destruct H as [-> ->]. apply liftSome_runs, printf_runs, runs_ret.
  cbn [Value noteEvent cw_values cw_events].
  eapply runs_seq; [by apply cached_upsert|]. intros r y (s3 & Hs3 & Ht3 & -> & ->).
  apply liftSome_runs. cbn [settingUpserted noteResult cw_values cw_events Key usp_Key usp_Value] in *.
  eapply runs_seq; [by apply cached_get|]. intros r y (s4 & Hs4 & Ht4 & H). cbn [noteEvent noteResult settingUpserted cw_values cw_events Key usp_Key usp_Value] in H.
  rewrite lookup_insert_eq in H. destruct H as [-> ->]. apply liftSome_runs, printf_runs, runs_ret.
  cbn [noteEvent cw_events fst snd Value]. rewrite Ht4, Ht3, Ht2, Ht1. by rewrite <- !app_assoc.
Qed.
End Use.


#[local] Abbreviation factoryOptions := [Some (OneStore.WithSettingsFactory (DBTX := DBTX) (W := world) (Tracer := Tracer)
  (Instrument := Instrument) (Logger := Logger) (Some cachedSettings))].

Lemma openCached_runs pool s w :
  metersOk gmp -> heap_wf (st_heap s) ->
  runs (openStore ErrorType DebugEnabled gtp gmp pool) (s, w) (fun r y => exists q s1,
    r = inr (OneStore.initializeGroups ErrorType DebugEnabled q (appliedOptions factoryOptions)) /\ y = (s1, w) /\
    servesOne pool [] [] q s1 /\ st_calls s1 = st_calls s).
Proof.
  intros Hg Hwf.
  pose proof (NewStore_runs ErrorType DebugEnabled gtp gmp (SingletonConfig "settings" (Some pool) [] []) factoryOptions s Hg Hg Hwf) as H.
  destruct (openFault _ _) eqn:Hfault; [by vm_compute in Hfault|].
  destruct H as (store & s1 & Hopen & p & q & [= <-] & -> & Hserve & Hc & _).
  eexists _, _. split; [unfold openStore; cbn [fst snd]|by exists q, s1].
  change (Singleton (Some pool) [Some (WithDatabaseName "settings")]) with (Ok (E := error) (SingletonConfig "settings" (Some pool) [] [])).
  by rewrite Hopen.
Qed.

(** C16: The example program, from its environment to its output. Without a DSN
    it fails and does nothing; an error of the pool or of its ping is wrapped
    and returned. Otherwise it opens the store over the pool and prints exactly
    the lines of [deploymentResult]: a miss for the first read, hits for the
    second and for the read after the upsert, with the deployment read before
    and the value written after; a database without the deployment gives the
    miss and the wrapped sql.ErrNoRows. It never panics, the table has the new
    deployment if and only if the program succeeded, and the pool is closed once, last. *)
Theorem cache_program_correct dsn pgxpool_New Ping ctx s w :
  metersOk gmp -> heap_wf (st_heap s) ->
  exists err s2 w2, run ErrorType DebugEnabled gtp gmp dsn pgxpool_New Ping ctx (s, w) = (Ok err, (s2, w2)) /\
  if bool_decide (dsn = "") then err = Some (ErrorText "CACHE_DATABASE_DSN is required") /\ s2 = s /\ w2 = w
  else match pgxpool_New dsn with
  | inl e => err = Some (Errorf "open database: %w" [] [e]) /\ s2 = s /\ w2 = w
  | inr pool =>
      match Ping pool with
      | Some e => err = Some (Errorf "ping database: %w" [] [e]) /\ s2 = s /\ cw_events w2 = cw_events w ++ [PoolClosed]
      | None =>
          let '(e, events, t) := deploymentResult (settings (st_calls s) pool) in
          err = e /\ cw_events w2 = cw_events w ++ events ++ [PoolClosed] /\ settings (st_calls s2) pool = t
      end
  end.
Proof.
  intros Hg Hwf. unfold run. case_bool_decide; [by eexists _, s, w|].
  destruct (pgxpool_New dsn) as [e|pool]; [by eexists _, s, w|].
  destruct (Ping pool) as [e|]; [by eexists _, s, _|].
  match goal with |- exists err s2 w2, closing ?m _ = _ /\ _ => assert (Hrun : runs m (s, w) (fun err y =>
    let '(e, events, t) := deploymentResult (settings (st_calls s) pool) in
    err = e /\ cw_events y.2 = cw_events w ++ events /\ settings (st_calls y.1) pool = t)) end.
  { apply runs_bind. eexists _, _. split; [reflexivity|]. cbn [fst snd].
    eapply runs_seq; [by apply openCached_runs|]. intros r y (q & s1 & -> & -> & Hserve & Hc). rewrite <- Hc.
    eapply runs_mono; [apply (useStore_runs _ q pool); [|exact Hserve|done]|by intros r y H'].
    by eapply (cachedStore_implements q pool [] []). }
  destruct Hrun as (err & [s2 w2] & Hrun & Hres). eexists err, s2, _. unfold closing. rewrite Hrun. split; [done|].
  destruct (deploymentResult _) as [[e events] t]. destruct Hres as (-> & He & Ht). cbn [fst snd cw_events] in *.
  split_and!; [done| |done]. rewrite He. by rewrite <- app_assoc.
Qed.

End Cached.

(** ** Concrete runs *)

#[local] Existing Instance OneSample.runtime.

Module CacheSample.
Definition world0 : world := World ∅ [].
Definition config : singletonConfig (DBTX := nat) := SingletonConfig "" (Some 1%nat) [] [Some 2%nat].
Definition options : list (option (StoreOption (DBTX := nat) (W := world) (Tracer := nat) (Instrument := string) (Logger := unit))) :=
  [Some (OneStore.WithSettingsFactory (Some cachedSettings))].

Definition open := OneStore.NewStore (Some (OneStore.singleton_buildStore sampleErrorType OneSample.debug
  sampleTracers sampleMeters (Ok config))) options OneSample.state0.

(** A database that has the deployment. *)
Definition deployed : storeState nat nat string unit :=
  setCalls [CallQueryRow 1%nat upsertSetting [VText "deployment_name"; VText "staging"]] OneSample.state0.
End CacheSample.


Lemma cache_program_correct_witness :
  exists s2 w2, run sampleErrorType OneSample.debug sampleTracers sampleMeters "postgres://settings"
      (fun _ => inr 1%nat) (fun _ => None) sampleContext (CacheSample.deployed, CacheSample.world0) = (Ok None, (s2, w2)) /\
    cw_events w2 = deploymentEvents "staging" ++ [PoolClosed].
Proof.
  destruct (cache_program_correct sampleErrorType OneSample.debug sampleTracers sampleMeters "postgres://settings"
    (fun _ => inr 1%nat) (fun _ => None) sampleContext CacheSample.deployed CacheSample.world0
    OpenMesh.Sample.meters_ok emptyHeap_wf) as (err & s2 & w2 & Hrun & -> & Hevents & _).
  exists s2, w2. split; [exact Hrun|exact Hevents].
Defined.

(** A write in a transaction is cached before the transaction commits: a plain
    read returns the row although only the transaction was called and the
    primary's table does not have it. *)
Definition transactionRead : option (settingResult * list nat * option string) :=
  match CacheSample.open with
  | (Ok store, s1) =>
      match (_ ← Settings_UpsertSetting (Store_Settings store) sampleContext
               (Some (MkUpsertSettingParams "region" "draft")) [WithTx (Some 9%nat)];
             Settings_GetSetting (Store_Settings store) sampleContext "region" []) (s1, CacheSample.world0) with
      | (Ok r, (s2, _)) => Some (r, callDB <$> st_calls s2, memorySettings (st_calls s2) 1%nat !! "region")
      | _ => None
      end
  | _ => None
  end.

Example transaction_row_cached :
  transactionRead = Some ((Some (MkSetting "region" "draft"), None), [9%nat], None).
Proof. vm_compute. reflexivity. Qed.
