(* ===== verification/Programs.v ===== *)
(** * Programs: what the example programs have in common (examples/)

    The example programs open pools, build a generated store over them, run a
    few queries and print. Their code runs on the store's state together with a
    world of their own. What pgx and the environment answer is the class
    [Platform]; what a program asks of them is recorded as events. A Go error a
    function returns as its last value is the [Err] of the monad.

    The second half is the logic the programs are verified with: [gives] is a
    postcondition of every outcome, and a pool registry opens each DSN once and
    closes what it opened. *)

From stdpp Require Import sorting.
From S2P Require Import Prelude Errors Telemetry Routing Tasks StoreQueries Store StoreLemmas.

#[local] Open Scope Z_scope.

(** What the environment and pgx answer in a run. A pool or a transaction is a
    handle the store can query; [pgxpool_New], [Ping], [Begin], [Commit] and
    [Rollback] are pgx's. Go leaves the order of a range over a map open:
    [rangeOrder] is the order of a run. *)
Class Platform (DBTX : Type) := {
  os_Getenv : string -> string;
  pgxpool_New : string -> error + DBTX;
  pool_Ping : DBTX -> option error;
  pool_Begin : DBTX -> error + DBTX;
  tx_Commit : DBTX -> option error;
  tx_Rollback : DBTX -> option error;
  rangeOrder : gmap string DBTX -> list DBTX;
  rangeOrder_all m : rangeOrder m ≡ₚ (map_to_list m).*2;
}.

(** What a program asks of the platform. [Printed] is [fmt.Printf] and [Logged]
    is [log.Printf], with the format as it is written in the source. *)
Inductive event {DBTX : Type} :=
  | PoolOpened (pool : DBTX)
  | PoolClosed (pool : DBTX)
  | TxBegun (pool tx : DBTX)
  | TxCommit (tx : DBTX)
  | TxRollback (tx : DBTX)
  | Printed (format : string) (args : list arg)
  | Logged (format : string) (err : error).
Arguments event : clear implicits.

(** The pools of the registry by DSN, and the events so far. *)
Record world {DBTX : Type} := World { byDSN : gmap string DBTX; events : list (event DBTX) }.
Arguments world : clear implicits.
Arguments World {DBTX} byDSN events.

Section Programs.
Context {DBTX : Type} `{!Platform DBTX}.
Context {Tracer Instrument Logger : Type}.
#[local] Abbreviation stateT := (storeState DBTX Tracer Instrument Logger).
#[local] Abbreviation storeM := (stE stateT error).
#[local] Abbreviation appM := (stE (stateT * world DBTX) error).

(** Code of the store inside the program. *)
Definition inStore {A} (m : storeM A) : appM A := zoomM fst (fun s x => (s, x.2)) m.

Definition note (e : event DBTX) : appM unit := fun '(s, w) =>
  (Ok tt, (s, World (byDSN w) (events w ++ [e]))).

(** [if err != nil { return ..., fmt.Errorf(format, err) }]. *)
Definition wrapErr {A} (format : string) (m : appM A) : appM A := fun s =>
  match m s with
  | (Err e, s) => (Err (Errorf format [] [e]), s)
  | r => r
  end.

(** The result of a query: its error is returned with the format around it. *)
Definition checkedAs {A} (wrap : error -> error) (m : appM (A * option error)) : appM A :=
  '(a, err) ← m;
  match err with
  | Some e => throw (wrap e)
  | None => mret a
  end.
Definition checked {A} (format : string) (m : appM (A * option error)) : appM A :=
  checkedAs (fun e => Errorf format [] [e]) m.

(** [defer cleanup()]: it runs when the body returns, with an error or without,
    and when it panics. *)
Definition deferring {A} (cleanup : appM unit) (body : appM A) : appM A := fun s =>
  let '(o, s) := body s in
  match cleanup s with
  | (Ok _, s) => (o, s)
  | (Err e, s) => (Err e, s)
  | (Panic, s) => (Panic, s)
  end.

(** A pool that is opened and pinged; one that does not answer is closed. *)
Definition connect (newFormat pingFormat : string) (args : list arg) (dsn : string) : appM DBTX :=
  match pgxpool_New dsn with
  | inl err => throw (Errorf newFormat args [err])
  | inr pool =>
      _ ← note (PoolOpened pool);
      match pool_Ping pool with
      | Some err => _ ← note (PoolClosed pool); throw (Errorf pingFormat args [err])
      | None => mret pool
      end
  end.

(** [openPool] of the programs that name their DSNs by environment variables. *)
Definition openPool (environment : string) : appM DBTX :=
  let dsn := os_Getenv environment in
  if bool_decide (dsn = "") then throw (Errorf "%s is required" [AStr environment] [])
  else connect "open %s: %w" "ping %s: %w" [AStr environment] dsn.

(** Code that handles the error of a call. *)
Definition handling {A} (handler : error -> appM A) (m : appM A) : appM A := fun s =>
  match m s with
  | (Err e, s) => handler e s
  | r => r
  end.

(** The values of the variables [names]; one that is not set is an error. *)
Definition environmentValues (missing : string -> error) (names : list string) : result (list string) :=
  foldO (fun values '(index, name) =>
    let value := os_Getenv name in
    if bool_decide (value = "") then Err (missing name)
    else Ok (<[index := value]> values)) (replicate (length names) "") (imap pair names).

(** A pool registry opens a DSN once. *)
Definition registryNew : appM unit := fun '(s, w) => (Ok tt, (s, World ∅ (events w))).
Definition registered (dsn : string) : appM (option DBTX) := fun x => (Ok (byDSN x.2 !! dsn), x).
Definition register (dsn : string) (pool : DBTX) : appM unit := fun '(s, w) =>
  (Ok tt, (s, World (<[dsn := pool]> (byDSN w)) (events w))).

Definition registryOpen (newFormat pingFormat : string) (dsn : string) : appM DBTX :=
  known ← registered dsn;
  match known with
  | Some pool => mret pool
  | None =>
      pool ← connect newFormat pingFormat [] dsn;
      _ ← register dsn pool;
      mret pool
  end.

Definition registryClose : appM unit := fun '(s, w) =>
  (Ok tt, (s, World (byDSN w) (events w ++ (PoolClosed <$> rangeOrder (byDSN w))))).

(** ** Postconditions *)

Definition gives {S A} (m : stE S error A) (s : S) (Q : result A -> S -> Prop) : Prop := Q (m s).1 (m s).2.

Section Rules.
Context {S : Type}.

Lemma gives_mono {A} (m : stE S error A) s (P Q : result A -> S -> Prop) :
  gives m s P -> (forall o s', P o s' -> Q o s') -> gives m s Q.
Proof. intros HP H. by apply H. Qed.

Lemma gives_runs {A} (m : stE S error A) s (Q : result A -> S -> Prop) :
  runs m s (fun a s' => Q (Ok a) s') -> gives m s Q.
Proof. intros (a & s' & E & HQ). unfold gives. by rewrite E. Qed.

(** A postcondition as the result of a run. *)
Lemma gives_run {A T} (m : stE (S * T) error A) x (P : result A -> S -> T -> Prop) :
  gives m x (fun o y => P o y.1 y.2) -> exists o s t, m x = (o, (s, t)) /\ P o s t.
Proof. unfold gives. destruct (m x) as [o [s t]]. intros H. by exists o, s, t. Qed.

Lemma gives_throw {A} e s (Q : result A -> S -> Prop) : Q (Err e) s -> gives (throw e) s Q.
Proof. done. Qed.

Lemma gives_ret {A} (a : A) s (Q : result A -> S -> Prop) : Q (Ok a) s -> gives (mret a) s Q.
Proof. done. Qed.

(** What follows a computation that returned; errors and panics pass. *)
Definition andThen {A B} (k : A -> stE S error B) (Q : result B -> S -> Prop) (o : result A) (s : S) : Prop :=
  match o with
  | Ok a => gives (k a) s Q
  | Err e => Q (Err e) s
  | Panic => Q Panic s
  end.

Lemma gives_bind {A B} (m : stE S error A) (k : A -> stE S error B) s Q :
  gives m s (andThen k Q) -> gives (m ≫= k) s Q.
Proof. unfold gives, mbind, stE_bind, andThen. by destruct (m s) as [[a|e|] s']. Qed.

Lemma gives_assoc {A B C} (m : stE S error A) (k : A -> stE S error B) (h : B -> stE S error C) s Q :
  gives (m ≫= fun a => k a ≫= h) s Q -> gives ((m ≫= k) ≫= h) s Q.
Proof. unfold gives, mbind, stE_bind. by destruct (m s) as [[a|e|] s']. Qed.

Lemma gives_seq {A B} (m : stE S error A) (k : A -> stE S error B) s P Q :
  runs m s P -> (forall a s', P a s' -> gives (k a) s' Q) -> gives (m ≫= k) s Q.
Proof. intros H Hk. apply gives_bind, gives_runs. eapply runs_mono; [exact H|]. intros a s'. apply Hk. Qed.
End Rules.

Implicit Types (s : stateT) (w : world DBTX).

Definition noted w (es : list (event DBTX)) : world DBTX := World (byDSN w) (events w ++ es).

Lemma noted_nil w : noted w [] = w.
Proof. destruct w. unfold noted. cbn. by rewrite app_nil_r. Qed.

Lemma noted_noted w e1 e2 : noted (noted w e1) e2 = noted w (e1 ++ e2).
Proof. unfold noted. cbn. by rewrite app_assoc. Qed.

Lemma gives_note {A} e (k : unit -> appM A) s w Q :
  gives (k tt) (s, noted w [e]) Q -> gives (note e ≫= k) (s, w) Q.
Proof. intros H. by apply gives_bind. Qed.

Lemma gives_inStore {A} (m : storeM A) s w (Q : result A -> stateT * world DBTX -> Prop) :
  gives m s (fun o s' => Q o (s', w)) -> gives (inStore m) (s, w) Q.
Proof. unfold gives, inStore, zoomM. cbn. by destruct (m s). Qed.

Lemma gives_last e s w Q : Q (Ok tt) (s, noted w [e]) -> gives (note e) (s, w) Q.
Proof. done. Qed.

Lemma inStore_runs {A} (m : storeM A) s w (Q : A -> stateT * world DBTX -> Prop) :
  runs m s (fun a s' => Q a (s', w)) -> runs (inStore m) (s, w) Q.
Proof. intros (a & s' & E & H). exists a, (s', w). split; [|done]. unfold inStore, zoomM. cbn. by rewrite E. Qed.

Lemma gives_wrapErr {A} format (m : appM A) x (Q : result A -> stateT * world DBTX -> Prop) :
  gives m x (fun o y => Q (match o with Err e => Err (Errorf format [] [e]) | _ => o end) y) ->
  gives (wrapErr format m) x Q.
Proof. unfold gives, wrapErr. by destruct (m x) as [[a|e|] y]. Qed.

(** A query that returns is either an error of the program or its value. *)
Lemma gives_checkedAs {A B} wrap (m : appM (A * option error)) (k : A -> appM B) x Q :
  runs m x (fun r y => match r.2 with
                       | Some e => Q (Err (wrap e)) y
                       | None => gives (k r.1) y Q
                       end) ->
  gives (checkedAs wrap m ≫= k) x Q.
Proof.
  intros H. apply gives_bind, gives_bind, gives_runs. eapply runs_mono; [exact H|]. by intros [a [e|]] y Hr.
Qed.

Lemma gives_checked {A B} format (m : appM (A * option error)) (k : A -> appM B) x Q :
  runs m x (fun r y => match r.2 with
                       | Some e => Q (Err (Errorf format [] [e])) y
                       | None => gives (k r.1) y Q
                       end) ->
  gives (checked format m ≫= k) x Q.
Proof. apply gives_checkedAs. Qed.

Lemma gives_deferring {A} (cleanup : appM unit) (body : appM A) x (Q : result A -> stateT * world DBTX -> Prop) :
  gives body x (fun o y => runs cleanup y (fun _ z => Q o z)) -> gives (deferring cleanup body) x Q.
Proof.
  unfold gives, deferring. destruct (body x) as [o y]. cbn. intros (a & z & E & H). by rewrite E.
Qed.

(** ** Connecting *)

(** Why a DSN cannot be used. *)
Definition poolFault (newFormat pingFormat : string) (args : list arg) (dsn : string) : option error :=
  match pgxpool_New dsn with
  | inl err => Some (Errorf newFormat args [err])
  | inr pool => (fun err => Errorf pingFormat args [err]) <$> pool_Ping pool
  end.

(** What connecting notes, when it works and when it does not. *)
Definition faultEvents (dsn : string) : list (event DBTX) :=
  match pgxpool_New dsn with
  | inl _ => []
  | inr pool => [PoolOpened pool; PoolClosed pool]
  end.

Lemma connect_gives newFormat pingFormat args dsn s w :
  gives (connect newFormat pingFormat args dsn) (s, w) (fun o x =>
    match poolFault newFormat pingFormat args dsn with
    | Some e => o = Err e /\ x = (s, noted w (faultEvents dsn))
    | None => exists pool, pgxpool_New dsn = inr pool /\ o = Ok pool /\ x = (s, noted w [PoolOpened pool])
    end).
Proof.
  unfold connect, poolFault, faultEvents. destruct (pgxpool_New dsn) as [e|pool].
  { apply gives_throw. by rewrite noted_nil. }
  apply gives_note. destruct (pool_Ping pool) as [e|].
  - apply gives_note, gives_throw. by rewrite noted_noted.
  - apply gives_ret. by exists pool.
Qed.

Definition poolAt (dsn : string) : option DBTX :=
  match pgxpool_New dsn with inr pool => Some pool | inl _ => None end.

Lemma works_pool newFormat pingFormat args dsn :
  poolFault newFormat pingFormat args dsn = None -> exists pool, pgxpool_New dsn = inr pool /\ poolAt dsn = Some pool.
Proof. unfold poolFault, poolAt. destruct (pgxpool_New dsn) as [e|pool]; [done|]. by exists pool. Qed.

(** The pool of a variable, why there is none, and what is noted then. *)
Definition poolFor (environment : string) : option DBTX := poolAt (os_Getenv environment).

Definition variableFault (environment : string) : option error :=
  if bool_decide (os_Getenv environment = "") then Some (Errorf "%s is required" [AStr environment] [])
  else poolFault "open %s: %w" "ping %s: %w" [AStr environment] (os_Getenv environment).

Definition variableEvents (environment : string) : list (event DBTX) :=
  if bool_decide (os_Getenv environment = "") then [] else faultEvents (os_Getenv environment).

Lemma openPool_gives environment s w :
  gives (openPool environment) (s, w) (fun o x =>
    match variableFault environment with
    | Some e => o = Err e /\ x = (s, noted w (variableEvents environment))
    | None => exists pool, poolFor environment = Some pool /\ o = Ok pool /\ x = (s, noted w [PoolOpened pool])
    end).
Proof.
  unfold openPool, variableFault, variableEvents, poolFor, poolAt. case_bool_decide.
  { apply gives_throw. by rewrite noted_nil. }
  eapply gives_mono; [apply connect_gives|]. intros o x. destruct (poolFault _ _ _ _); [done|].
  intros (pool & -> & H'). by exists pool.
Qed.

Lemma gives_handling {A} (handler : error -> appM A) (m : appM A) x (Q : result A -> stateT * world DBTX -> Prop) :
  gives m x (fun o y => match o with Err e => gives (handler e) y Q | _ => Q o y end) -> gives (handling handler m) x Q.
Proof. unfold gives, handling. by destruct (m x) as [[a|e|] y]. Qed.

(** ** The environment *)

Definition unset (name : string) : bool := bool_decide (os_Getenv name = "").

Lemma environmentValues_from missing (pre : list string) names :
  foldO (E := error) (fun values '(index, name) =>
    let value := os_Getenv name in
    if bool_decide (value = "") then Err (missing name)
    else Ok (<[index := value]> values)) (pre ++ replicate (length names) "") (imap (fun i n => ((length pre + i)%nat, n)) names) =
  match List.find unset names with
  | Some name => Err (missing name)
  | None => Ok (pre ++ (os_Getenv <$> names))
  end.
Proof.
  revert pre. induction names as [|name names IH]; intros pre; [done|].
  rewrite imap_cons. cbn [foldO List.find fmap list_fmap length replicate]. rewrite Nat.add_0_r.
  change (unset name) with (bool_decide (os_Getenv name = "")). destruct (bool_decide _); [done|].
  cbn [mbind outcome_bind]. rewrite insert_app_r_alt, Nat.sub_diag by done. cbn [insert list_insert].
  specialize (IH (pre ++ [os_Getenv name])). rewrite length_app, <- !app_assoc in IH. cbn [app length] in IH.
  rewrite <- IH. f_equal. apply imap_ext. intros i x _. cbn. f_equal. lia.
Qed.

(** The first variable that is not set is the error. *)
Lemma environmentValues_spec missing names :
  environmentValues missing names = match List.find unset names with
                                    | Some name => Err (missing name)
                                    | None => Ok (os_Getenv <$> names)
                                    end.
Proof. apply (environmentValues_from missing []). Qed.

(** ** The registry *)

(** The pools of a list of DSNs, each opened once. *)
Definition poolsOf (dsns : list string) : list DBTX := omap poolAt (dedupe dsns).

Section Registry.
Context (newFormat pingFormat : string).
#[local] Abbreviation fault := (poolFault newFormat pingFormat []).

(** The world after the DSNs of [done] were opened from [w0]. *)
Record registry (done : list string) (w0 w : world DBTX) : Prop := {
  reg_pools dsn : byDSN w !! dsn = if bool_decide (dsn ∈ done) then poolAt dsn else None;
  reg_works : Forall (fun dsn => fault dsn = None) done;
  reg_events : events w = events w0 ++ (PoolOpened <$> poolsOf done);
}.

Lemma registry_new (w : world DBTX) : byDSN w = ∅ -> registry [] w w.
Proof. intros E. split; [|done|by rewrite app_nil_r]. intros dsn. by rewrite E, lookup_empty. Qed.

Lemma poolsOf_snoc done dsn pool :
  poolAt dsn = Some pool ->
  poolsOf (done ++ [dsn]) = if bool_decide (dsn ∈ done) then poolsOf done else poolsOf done ++ [pool].
Proof.
  intros E. unfold poolsOf. rewrite dedupe_snoc. case_bool_decide as H.
  - by rewrite decide_True by by apply dedupe_elem.
  - rewrite decide_False by by rewrite dedupe_elem. rewrite omap_app. cbn. by rewrite E.
Qed.

(** Opening the next DSN. *)
Lemma gives_open {A} done dsn (k : DBTX -> appM A) s w0 w Q :
  registry done w0 w ->
  match fault dsn with
  | Some e => Q (Err e) (s, noted w (faultEvents dsn))
  | None => forall pool w', poolAt dsn = Some pool -> registry (done ++ [dsn]) w0 w' -> gives (k pool) (s, w') Q
  end ->
  gives (registryOpen newFormat pingFormat dsn ≫= k) (s, w) Q.
Proof.
  intros [Hp Hw He] H. apply gives_bind, gives_bind, gives_runs. specialize (Hp dsn) as Hd.
  exists (byDSN w !! dsn), (s, w). split; [done|]. cbn [andThen]. rewrite Forall_forall in Hw.
  case_bool_decide as Hin; rewrite Hd.
  - rewrite (Hw dsn Hin) in H. destruct (works_pool _ _ _ dsn (Hw dsn Hin)) as (pool & _ & E). rewrite E. apply gives_ret.
    apply (H pool w); [done|]. split.
    + intros d. by rewrite Hp, (bool_decide_ext (d ∈ done ++ [dsn]) (d ∈ done)) by set_solver.
    + apply Forall_app. split; [by apply Forall_forall|]. constructor; [auto|constructor].
    + by rewrite He, (poolsOf_snoc _ _ _ E), bool_decide_eq_true_2.
  - apply gives_bind. eapply gives_mono; [apply connect_gives|]. intros o x Hx.
    destruct (fault dsn) as [e|] eqn:Hf; [by destruct Hx as [-> ->]|]. destruct Hx as (pool & E & -> & ->).
    assert (Hat : poolAt dsn = Some pool) by (unfold poolAt; by rewrite E).
    cbn [andThen]. apply (gives_seq _ _ _ (fun _ x => x = (s, World (<[dsn := pool]> (byDSN w)) (events w ++ [PoolOpened pool]))));
      [by eexists tt, _|]. intros _ ? ->. apply gives_ret, H; [done|]. split.
    + intros d. cbn. destruct (decide (dsn = d)) as [<-|Hne].
      * by rewrite lookup_insert_eq, bool_decide_eq_true_2 by set_solver.
      * by rewrite lookup_insert_ne, Hp, (bool_decide_ext (d ∈ done ++ [dsn]) (d ∈ done)) by set_solver.
    + apply Forall_app. split; [by apply Forall_forall|]. by constructor.
    + cbn. by rewrite He, (poolsOf_snoc _ _ _ Hat), bool_decide_eq_false_2, fmap_app, app_assoc.
Qed.

(** The first DSN of a list that cannot be used, and the DSNs before it. *)
Fixpoint openFault (done dsns : list string) : option (list string * string * error) :=
  match dsns with
  | [] => None
  | dsn :: dsns =>
      match fault dsn with
      | Some e => Some (done, dsn, e)
      | None => openFault (done ++ [dsn]) dsns
      end
  end.

(** What opening DSNs one after the other ends with: the first that cannot be used
    is an error, after those before it were opened, in a state with [I]; else it
    goes on. *)
Definition openPost {A} (done dsns : list string) (w0 : world DBTX) (I : stateT -> Prop) (Q : result A -> stateT * world DBTX -> Prop)
    (o : result A) (x : stateT * world DBTX) : Prop :=
  match openFault done dsns with
  | Some (before, dsn, e) => o = Err e /\ I x.1 /\ exists w1, registry before w0 w1 /\ x.2 = noted w1 (faultEvents dsn)
  | None => Q o x
  end.

Lemma gives_opened {A} done (m : appM A) I w0 x Q : gives m x Q -> gives m x (openPost done [] w0 I Q).
Proof. done. Qed.

Lemma gives_next {A} done dsn dsns (k : DBTX -> appM A) s w0 w (I : stateT -> Prop) Q :
  registry done w0 w -> I s ->
  (forall pool w', poolAt dsn = Some pool -> registry (done ++ [dsn]) w0 w' ->
     gives (k pool) (s, w') (openPost (done ++ [dsn]) dsns w0 I Q)) ->
  gives (registryOpen newFormat pingFormat dsn ≫= k) (s, w) (openPost done (dsn :: dsns) w0 I Q).
Proof.
  intros Hreg HI H. eapply gives_open; [exact Hreg|]. unfold openPost in *. cbn [openFault].
  destruct (fault dsn) as [e|]; [|exact H]. split; [done|]. split; [done|]. by exists w.
Qed.

(** Closing the registry closes each of its pools once. *)
Lemma registry_pools done w0 w : registry done w0 w -> rangeOrder (byDSN w) ≡ₚ poolsOf done.
Proof.
  intros [Hp _ _]. rewrite rangeOrder_all.
  assert (map_to_list (byDSN w) ≡ₚ omap (fun d => pair d <$> poolAt d) (dedupe done)) as ->.
  - apply NoDup_Permutation; [apply NoDup_map_to_list|..].
    + pose proof (dedupe_NoDup done) as Hnd. induction Hnd as [|d ds Hd _ IH]; [constructor|].
      cbn. destruct (poolAt d) as [pool|]; [|done]. cbn. constructor; [|done].
      intros (d' & Hd' & E)%list_elem_of_omap. destruct (poolAt d'); [|done]. by injection E as -> _.
    + intros [d pool]. rewrite elem_of_map_to_list, Hp, list_elem_of_omap. split.
      * case_bool_decide as Hd; [|done]. intros E. exists d. rewrite dedupe_elem, E. done.
      * intros (d' & Hd' & E). rewrite dedupe_elem in Hd'. destruct (poolAt d') eqn:E'; [|done]. injection E as -> <-.
        by rewrite bool_decide_eq_true_2.
  - unfold poolsOf. induction (dedupe done) as [|d ds IH]; [done|]. cbn. destruct (poolAt d); cbn; by rewrite IH.
Qed.

Lemma registryClose_runs done w0 w es s :
  registry done w0 w ->
  runs registryClose (s, noted w es) (fun _ x => exists closes, closes ≡ₚ poolsOf done /\ x.1 = s /\
    events x.2 = events w0 ++ (PoolOpened <$> poolsOf done) ++ es ++ (PoolClosed <$> closes)).
Proof.
  intros H. eexists tt, _. split; [done|]. eexists. split_and!; [by eapply registry_pools|done|].
  cbn. by rewrite (reg_events _ _ _ H), <- !app_assoc.
Qed.

End Registry.
End Programs.
