(* ===== verification/ProgramStore.v ===== *)
(** * ProgramStore: queries of a sharded store inside a program

    What a query does to the driver is a function of the calls made before:
    [writeOn] for a write on a database and its mirrors, [readOn] for a read.
    The lemmas say that the queries of an opened store are these functions on the
    databases their key is routed to, or on the transaction of their options,
    and that the store still serves its routes afterwards; the example programs
    are verified on top of them. The context a query hands to the driver carries
    its span, so it is not the program's. *)

From S2P Require Import Prelude Errors GoStrings Hasher Balancer Routing Telemetry CopyBatch Builder Topology OpenMesh Tasks StoreQueries Store StoreOps StoreAsync StoreBuild StoreLemmas StoreRefine StoreOpen Programs.

#[local] Open Scope Z_scope.

Section Queries.
Context {DBTX : Type} `{!Driver DBTX}.
Context {A : Type} (scan : row -> A * option error).
#[local] Abbreviation callsT := (list (dbCall DBTX)).
Implicit Types (calls : callsT).

(** A statement that answers with one row. *)
Definition rowAs (ctx : Context) (sql : string) (args : list value) (d : DBTX) calls : option A * option error :=
  let '(i, err) := scan (drv_QueryRow calls ctx d sql args) in (Some i, err).

(** The mirrors in order, up to the first error that is not a missing row. *)
Fixpoint mirrorsAs (ctx : Context) (sql : string) (args : list value) (ms : list DBTX) calls : option error * callsT :=
  match ms with
  | [] => (None, calls)
  | d :: ms =>
      let calls' := calls ++ [CallQueryRow d sql args] in
      match (rowAs ctx sql args d calls).2 with
      | Some e => if errorsIsStd e SqlErrNoRows then mirrorsAs ctx sql args ms calls' else (Some e, calls')
      | None => mirrorsAs ctx sql args ms calls'
      end
  end.

(** A write: the primary, and after its success the mirrors. *)
Definition writeAs (ctx : Context) (sql : string) (args : list value) (p : DBTX) (ms : list DBTX) calls
    : (option A * option error) * callsT :=
  let calls' := calls ++ [CallQueryRow p sql args] in
  match rowAs ctx sql args p calls with
  | (_, Some e) => ((None, Some e), calls')
  | (a, None) => let '(err, calls') := mirrorsAs ctx sql args ms calls' in ((a, err), calls')
  end.

Definition readAs (ctx : Context) (sql : string) (args : list value) (d : DBTX) calls
    : (option A * option error) * callsT :=
  (match rowAs ctx sql args d calls with
   | (_, Some e) => (None, Some e)
   | (a, None) => (a, None)
   end, calls ++ [CallQueryRow d sql args]).

(** A write that succeeded has a value to show. *)
Lemma writeAs_some ctx sql args p ms calls a : (writeAs ctx sql args p ms calls).1 = (a, None) -> is_Some a.
Proof.
  unfold writeAs, rowAs. destruct (scan _) as [x [e|]]; [done|]. destruct (mirrorsAs _ _ _ _ _) as [err calls'].
  intros [= <- _]. by eexists.
Qed.

Lemma readAs_some ctx sql args d calls a : (readAs ctx sql args d calls).1 = (a, None) -> is_Some a.
Proof. unfold readAs, rowAs. destruct (scan _) as [x [e|]]; [done|]. intros [= <-]. by eexists. Qed.

(** The wrappers of the queries. *)
Section Wrappers.
Context (ctx : Context) (sql : string) (args : list value).
Context (query : Queries DBTX -> task callsT (option A * option error)).
Context (Hquery : forall d calls, runTask (query (New d)) calls =
  (Ok (rowAs ctx sql args d calls), calls ++ [CallQueryRow d sql args])).

Lemma mirrorLoop_on ms calls :
  runs (runTask (mirrorLoop (New <$> ms) (fun m => '(_, err) ← query m; mret err))) calls
    (fun err c => (err, c) = mirrorsAs ctx sql args ms calls).
Proof using Hquery.
  revert calls. induction ms as [|d ms IH]; intros calls; [by apply runs_ret|].
  cbn [mirrorLoop fmap list_fmap mirrorsAs]. apply bindTask_runs, bindTask_runs. eexists _, _. split; [apply Hquery|].
  destruct (rowAs ctx sql args d calls) as [a err]. apply runs_ret. cbn [snd].
  destruct err as [e|]; [destruct (errorsIsStd e SqlErrNoRows)|]; [apply IH|by apply runs_ret|apply IH].
Qed.

Lemma writer_on p ms calls :
  runs (runTask ('(rv0, err) ← query (New p);
    match err with
    | Some e => mret (None, Some e)
    | None =>
        mirrorErr ← mirrorLoop (New <$> ms) (fun m => '(_, err) ← query m; mret err);
        mret (rv0, mirrorErr)
    end)) calls (fun r c => (r, c) = writeAs ctx sql args p ms calls).
Proof using Hquery.
  apply bindTask_runs. eexists _, _. split; [apply Hquery|]. unfold writeAs.
  destruct (rowAs ctx sql args p calls) as [a [e|]]; [by apply runs_ret|].
  apply bindTask_runs. eapply runs_mono; [apply mirrorLoop_on|]. intros err c <-. by apply runs_ret.
Qed.

Lemma reader_on d calls :
  runs (runTask ('(rv0, err) ← query (New d);
    match err with Some e => mret (None, Some e) | None => mret (rv0, None) end)) calls
    (fun r c => (r, c) = readAs ctx sql args d calls).
Proof using Hquery.
  apply bindTask_runs. eexists _, _. split; [apply Hquery|]. unfold readAs.
  by destruct (rowAs ctx sql args d calls) as [a [e|]]; apply runs_ret.
Qed.
End Wrappers.

Lemma row_query ctx sql args d calls :
  runTask (r ← db_QueryRow ctx (db (New d)) sql args; let '(i, err) := scan r in mret (Some i, err)) calls =
  (Ok (rowAs ctx sql args d calls), calls ++ [CallQueryRow d sql args]).
Proof. unfold rowAs. cbn. by destruct (scan _) as [i err]. Qed.

Definition countOn (ctx : Context) (tenant : Z) (d : DBTX) calls : (Z * option error) * callsT :=
  (match scanCount (drv_QueryRow calls ctx d countAccounts [VInt64 tenant]) with
   | (_, Some e) => (0, Some e)
   | (n, None) => (n, None)
   end, calls ++ [CallQueryRow d countAccounts [VInt64 tenant]]).

Lemma count_query ctx tenant d calls :
  runs (runTask (readQueries_CountAccounts (newReadQueries (New d)) ctx tenant)) calls
    (fun r c => (r, c) = countOn ctx tenant d calls).
Proof.
  apply bindTask_runs, bindTask_runs. eexists _, _. split; [reflexivity|]. apply runs_ret. unfold countOn.
  cbn. destruct (scanCount _) as [n [e|]]; by apply runs_ret.
Qed.

End Queries.

(** The accounts. *)
Abbreviation rowAt := (rowAs scanAccount).
Abbreviation mirrorsOn := (mirrorsAs scanAccount).
Abbreviation writeOn := (writeAs scanAccount).
Abbreviation readOn := (readAs scanAccount).

(** ** Inside the store *)

Definition upsertValues (arg : UpsertAccountT) : list value :=
  [VInt64 (ust_ID arg); VInt64 (tk_TenantID (ust_TenantKey arg)); VText (ust_DisplayName arg)].
Definition updateValues (arg : UpdateAccountNameT) : list value :=
  [VInt64 (tk_TenantID (uat_TenantKey arg)); VInt64 (uat_ID arg); VText (uat_DisplayName arg)].
Definition getValues (arg : GetAccountT) : list value :=
  [VInt64 (tk_TenantID (gat_TenantKey arg)); VInt64 (gat_ID arg)].

Section Served.
Context {DBTX : Type} `{!Driver DBTX} {RT : Runtime}.
Context {K Tracer Instrument Logger : Type}.
Context (ErrorType : error -> KeyValue) (DebugEnabled : Logger -> bool).
Context (names : list string) (primaryDB : string -> DBTX).
Context (route : TenantKey -> string) (mirrors : string -> list string).
#[local] Abbreviation stateT := (storeState DBTX Tracer Instrument Logger).
#[local] Abbreviation storeT := (meshStore DBTX K Tracer Instrument Logger).
#[local] Abbreviation served := (serves names primaryDB route mirrors).
Implicit Types (q : storeT) (s : stateT).

(** What a query changes besides the driver's calls: telemetry and tickets. *)
Definition moved s s' : Prop := frame (setCalls (st_calls s') s) s'.

Lemma frame_setCalls c s s' : frame s s' -> frame (setCalls c s) (setCalls c s').
Proof. by intros []. Qed.

Lemma moved_trans s1 s2 s3 : moved s1 s2 -> moved s2 s3 -> moved s1 s3.
Proof. unfold moved. intros H1 H2. etrans; [|exact H2]. by apply (frame_setCalls (st_calls s3)) in H1. Qed.

Lemma serves_moved q s s' : served q s -> moved s s' -> served q s'.
Proof. intros Hs Hm. eapply serves_frame; [|exact Hm]. by apply serves_setCalls. Qed.

(** Where a write for [key] goes. *)
Definition writtenTo (opts : list (QueryOption DBTX)) (key : TenantKey) : DBTX * list DBTX :=
  match qo_tx (applyQueryOptions opts) with
  | Some tx => (tx, [])
  | None => (primaryDB (route key), primaryDB <$> mirrors (route key))
  end.

Lemma inServed_runs {A} (t : task (list (dbCall DBTX)) A) s s1 (f : list (dbCall DBTX) -> A * list (dbCall DBTX)) :
  frame s s1 ->
  runs (runTask t) (st_calls s1) (fun r c => (r, c) = f (st_calls s1)) ->
  runs (runTask (onDB t)) s1 (fun r s2 => st_spans s2 = st_spans s1 /\
    forall s3, frame s2 s3 -> moved s s3 /\ (r, st_calls s3) = f (st_calls s)).
Proof.
  intros H1 Ht. eapply runs_mono; [by apply onDB_runs|]. intros r s2 (c & -> & Hc).
  split; [done|]. intros s3 H3. split.
  - unfold moved. rewrite (fr_calls _ _ H3). etrans; [|exact H3]. by apply frame_setCalls.
  - rewrite (fr_calls _ _ H3). cbn. by rewrite Hc, (fr_calls _ _ H1).
Qed.

Lemma routedWrite_on sn qn q ctx key opts sql args (run : writeQueries DBTX -> Context -> task _ (option Account * option error)) s :
  served q s -> resolved q key ->
  (forall ctx' p ms calls, runs (runTask (run (MkWriteQueries (New p) (New <$> ms)) ctx')) calls
     (fun r c => (r, c) = writeOn ctx' sql args p ms calls)) ->
  runs (routedWrite ErrorType DebugEnabled None sn qn q ctx (Some key) opts (fun target ctx => runTask (onDB (run target ctx)))) s
    (fun r s' => moved s s' /\ exists ctx', (r, st_calls s') =
       writeOn ctx' sql args (writtenTo opts key).1 (writtenTo opts key).2 (st_calls s)).
Proof.
  intros Hs [k Hk]%resolved_key Hrun. destruct (srv_route _ _ _ _ _ _ Hs key k Hk)
    as (_ & _ & shard & st & rs & Hr & Hp & Hset & Hpr & Hmi).
  eapply routedWrite_runs; [apply Hs|done..|]. intros ctx' s1 H1.
  assert (Ht : writeTarget (applyQueryOptions opts) st =
    MkWriteQueries (New (writtenTo opts key).1) (New <$> (writtenTo opts key).2)).
  { unfold writtenTo. destruct (qo_tx (applyQueryOptions opts)) as [tx|] eqn:Htx.
    - unfold writeTarget. by rewrite Htx.
    - cbn [fst snd]. rewrite (writeTarget_databases st (primaryDB (route key)) (primaryDB <$> mirrors (route key))); [|done| |done].
      + done.
      + by rewrite Hmi, <- list_fmap_compose. }
  rewrite Ht. eapply runs_mono.
  { apply (inServed_runs _ s s1 (writeOn ctx' sql args (writtenTo opts key).1 (writtenTo opts key).2)); [done..|apply Hrun]. }
  intros r s2 [Hsp H]. split; [done|]. intros s3 [H3 E]%H. split; [done|]. by exists ctx'.
Qed.

Lemma UpsertAccount_on q ctx arg opts s :
  served q s -> resolved q (ust_TenantKey arg) ->
  runs (UpsertAccount ErrorType DebugEnabled q ctx (Some arg) opts) s (fun r s' => moved s s' /\ exists ctx',
    (r, st_calls s') = writeOn ctx' upsertAccount (upsertValues arg) (writtenTo opts (ust_TenantKey arg)).1
      (writtenTo opts (ust_TenantKey arg)).2 (st_calls s)).
Proof.
  intros Hs Hkey. apply (routedWrite_on "Accounts" "UpsertAccount" q ctx (ust_TenantKey arg) opts upsertAccount (upsertValues arg)
    (fun target ctx => writeQueries_UpsertAccount target ctx (UpsertAccountT_sqlcParams arg))); [done..|].
  intros ctx' p ms calls. apply (writer_on scanAccount ctx' _ _ (fun m => Queries_UpsertAccount m ctx' (UpsertAccountT_sqlcParams arg))).
  intros d calls'. apply row_query.
Qed.

Lemma UpdateAccountName_on q ctx arg opts s :
  served q s -> resolved q (uat_TenantKey arg) ->
  runs (UpdateAccountName ErrorType DebugEnabled q ctx (Some arg) opts) s (fun r s' => moved s s' /\ exists ctx',
    (r, st_calls s') = writeOn ctx' updateAccountName (updateValues arg) (writtenTo opts (uat_TenantKey arg)).1
      (writtenTo opts (uat_TenantKey arg)).2 (st_calls s)).
Proof.
  intros Hs Hkey. apply (routedWrite_on "Accounts" "UpdateAccountName" q ctx (uat_TenantKey arg) opts updateAccountName (updateValues arg)
    (fun target ctx => writeQueries_UpdateAccountName target ctx (UpdateAccountNameT_sqlcParams arg))); [done..|].
  intros ctx' p ms calls. apply (writer_on scanAccount ctx' _ _ (fun m => Queries_UpdateAccountName m ctx' (UpdateAccountNameT_sqlcParams arg))).
  intros d calls'. apply row_query.
Qed.

(** A read from the primary. *)
Lemma GetAccount_primary q ctx arg s :
  served q s -> resolved q (gat_TenantKey arg) ->
  runs (GetAccount ErrorType DebugEnabled q ctx (Some arg) [ReadFromPrimary]) s (fun r s' => moved s s' /\ exists ctx',
    (r, st_calls s') = readOn ctx' getAccount (getValues arg) (primaryDB (route (gat_TenantKey arg))) (st_calls s)).
Proof.
  intros Hs [k Hk]%resolved_key. destruct (srv_route _ _ _ _ _ _ Hs (gat_TenantKey arg) k Hk)
    as (_ & _ & shard & st & rs & Hr & Hp & Hset & Hpr & Hmi).
  eapply (routedRead_runs ErrorType DebugEnabled None); [apply Hs|apply Hs|exact Hk|done..|]. intros target ctx' s1 H1 Htgt.
  cbn in Htgt. subst target. rewrite Hpr. eapply runs_mono.
  { apply (inServed_runs _ s s1 (readOn ctx' getAccount (getValues arg) (primaryDB (route (gat_TenantKey arg))))); [done..|].
    apply (reader_on scanAccount ctx' _ _ (fun m => Queries_GetAccount m ctx' (GetAccountT_sqlcParams arg))).
    intros d calls'. apply row_query. }
  intros r s2 [Hsp H]. split; [done|]. intros s3 [H3 E]%H. split; [done|]. by exists ctx'.
Qed.

Lemma CountAccounts_primary q ctx tenant s :
  served q s -> resolved q (MkTenantKey tenant) ->
  runs (CountAccounts ErrorType DebugEnabled q ctx (Some (MkCountAccountsT (MkTenantKey tenant))) [ReadFromPrimary]) s
    (fun r s' => moved s s' /\ exists ctx',
      (r, st_calls s') = countOn ctx' tenant (primaryDB (route (MkTenantKey tenant))) (st_calls s)).
Proof.
  intros Hs [k Hk]%resolved_key. destruct (srv_route _ _ _ _ _ _ Hs (MkTenantKey tenant) k Hk)
    as (_ & _ & shard & st & rs & Hr & Hp & Hset & Hpr & Hmi).
  eapply (routedRead_runs ErrorType DebugEnabled 0); [apply Hs|apply Hs|exact Hk|done..|]. intros target ctx' s1 H1 Htgt.
  cbn in Htgt. subst target. rewrite Hpr. apply runs_bind. eexists _, s1. split; [reflexivity|]. eapply runs_mono.
  { apply (inServed_runs _ s s1 (countOn ctx' tenant (primaryDB (route (MkTenantKey tenant))))); [done..|]. apply count_query. }
  intros r s2 [Hsp H]. split; [done|]. intros s3 [H3 E]%H. split; [done|]. by exists ctx'.
Qed.

End Served.

(** ** Steps of a program *)

Section Steps.
Context {DBTX : Type} `{!Driver DBTX} `{!Platform DBTX}.
Context {Tracer Instrument Logger : Type}.
#[local] Abbreviation stateT := (storeState DBTX Tracer Instrument Logger).
#[local] Abbreviation appM := (stE (stateT * world DBTX) error).
#[local] Abbreviation callsT := (list (dbCall DBTX)).
Implicit Types (s : stateT) (w : world DBTX).

Definition keyOfAccount (a : Account) : GetAccountT := MkGetAccountT (MkTenantKey (TenantID a)) (ID a).

(** What the rest of a program does: its outcome, the driver's calls afterwards
    and what it notes. *)
Definition conduct : Type := result unit -> callsT -> list (event DBTX) -> Prop.

(** A query that answers [r] under some context: its error ends the program,
    else its value is used. *)
Definition step {A} (format : string) (r : Context -> (option A * option error) * callsT)
    (k : A -> callsT -> conduct) : conduct := fun o calls' es =>
  exists c, match r c with
  | ((_, Some e), calls) => o = Err (Errorf format [] [e]) /\ calls' = calls /\ es = []
  | ((Some a, None), calls) => k a calls o calls' es
  | ((None, None), _) => False
  end.

Definition printing (e : event DBTX) (k : conduct) : conduct := fun o calls' es =>
  exists rest, es = e :: rest /\ k o calls' rest.

Definition ending (calls : callsT) : conduct := fun o calls' es => o = Ok tt /\ calls' = calls /\ es = [].

Definition returns (k : conduct) : Prop := forall o calls es, k o calls es -> o <> Panic.

Lemma ending_returns calls : returns (ending calls).
Proof. by intros o calls' es [-> _]. Qed.

Lemma printing_returns e k : returns k -> returns (printing e k).
Proof. intros H o calls es (rest & _ & Hk). by eapply H. Qed.

Lemma step_returns {A} format r (k : A -> callsT -> conduct) : (forall a calls, returns (k a calls)) -> returns (step format r k).
Proof. intros Hk o calls' es [c H]. destruct (r c) as [[[a|] [e|]] calls]; [by destruct H as [-> _]|by eapply Hk|by destruct H as [-> _]|done]. Qed.

(** The rest of a program, from the world [w], behaves as [k]. *)
Definition behaves (k : conduct) w (o : result unit) (x : stateT * world DBTX) : Prop :=
  exists es, k o (st_calls x.1) es /\ x.2 = noted w es.

Lemma gives_step {A} (m : appM (option A * option error)) format s w r (k : option A -> appM unit)
    (f : A -> callsT -> conduct) :
  runs m (s, w) (fun a x => x.2 = w /\ moved s x.1 /\ exists c, (a, st_calls x.1) = r c) ->
  (forall c a, (r c).1 = (a, None) -> is_Some a) ->
  (forall a s', moved s s' -> gives (k (Some a)) (s', w) (behaves (f a (st_calls s')) w)) ->
  gives (checked format m ≫= k) (s, w) (behaves (step format r f) w).
Proof.
  intros Hm Hsome Hk. apply gives_checked. eapply runs_mono; [exact Hm|]. intros [a err] [s' w'] (Hw & HI & c & Hr).
  cbn [snd fst] in Hw, HI |- *. subst w'. specialize (Hsome c a). destruct err as [e|].
  - exists []. rewrite noted_nil. split; [|done]. exists c. rewrite <- Hr. by destruct a.
  - rewrite <- Hr in Hsome. destruct (Hsome eq_refl) as [a' ->]. eapply gives_mono; [by apply Hk|].
    intros o x (es & H & Hx). exists es. split; [|done]. exists c. by rewrite <- Hr.
Qed.

(** A query of any result that answers as [R] says. *)
Definition query {A} (wrap : error -> error) (R : A * option error -> callsT -> Prop) (k : A -> callsT -> conduct)
    : conduct := fun o calls' es =>
  exists a err calls, R (a, err) calls /\
  match err with
  | Some e => o = Err (wrap e) /\ calls' = calls /\ es = []
  | None => k a calls o calls' es
  end.

Lemma query_returns {A} wrap R (k : A -> callsT -> conduct) : (forall a calls, returns (k a calls)) -> returns (query wrap R k).
Proof. intros Hk o calls' es (a & [e|] & calls & _ & H); [by destruct H as [-> _]|by eapply Hk]. Qed.

Lemma gives_query {A} (m : appM (A * option error)) wrap s w (R : A * option error -> callsT -> Prop) (k : A -> appM unit)
    (f : A -> callsT -> conduct) (I : stateT -> Prop) :
  runs m (s, w) (fun a x => x.2 = w /\ I x.1 /\ R a (st_calls x.1)) ->
  (forall a s', I s' -> R (a, None) (st_calls s') -> gives (k a) (s', w) (behaves (f a (st_calls s')) w)) ->
  gives (checkedAs wrap m ≫= k) (s, w) (behaves (query wrap R f) w).
Proof.
  intros Hm Hk. apply gives_checkedAs. eapply runs_mono; [exact Hm|]. intros [a err] [s' w'] (Hw & HI & HR).
  cbn [snd fst] in *. subst w'. destruct err as [e|].
  - exists []. rewrite noted_nil. split; [|done]. by exists a, (Some e), (st_calls s').
  - eapply gives_mono; [by apply Hk|]. intros o x (es & H & Hx). exists es. split; [|done]. by exists a, None, (st_calls s').
Qed.

(** Several things noted before the rest. *)
Definition printingAll (events : list (event DBTX)) (k : conduct) : conduct := fun o calls' es =>
  exists rest, es = events ++ rest /\ k o calls' rest.

Lemma printingAll_returns events k : returns k -> returns (printingAll events k).
Proof. intros H o calls es (rest & _ & Hk). by eapply H. Qed.

(** The last thing a program notes. *)
Lemma gives_print e s w : gives (note e) (s, w) (behaves (printing e (ending (st_calls s))) w).
Proof. apply gives_last. exists [e]. split; [|done]. by exists []. Qed.

Lemma gives_printing e s w (m : unit -> appM unit) k :
  gives (m tt) (s, noted w [e]) (behaves k (noted w [e])) -> gives (note e ≫= m) (s, w) (behaves (printing e k) w).
Proof.
  intros H. apply gives_note. eapply gives_mono; [exact H|]. intros o x (es & Hk & Hw). exists (e :: es).
  split; [by exists es|]. by rewrite Hw, noted_noted.
Qed.

Lemma gives_deref {A} (a : A) x (k : A -> appM unit) Q : gives (k a) x Q -> gives (lift (panic_if_none (Some a)) ≫= k) x Q.
Proof. intros H. by apply gives_bind. Qed.

(** A query of the store in the program. *)
Lemma query_runs {A} (m : stE stateT error A) s w (r : Context -> A * callsT) :
  runs m s (fun a s' => moved s s' /\ exists c, (a, st_calls s') = r c) ->
  runs (inStore m) (s, w) (fun a x => x.2 = w /\ moved s x.1 /\ exists c, (a, st_calls x.1) = r c).
Proof. intros H. apply inStore_runs. eapply runs_mono; [exact H|]. by intros a s' [Hm Hr]. Qed.

(** The pools are closed after whatever the program did with them. *)
Lemma closingAt_gives {A} (cleanup : appM unit) (body : appM A) (k : result A -> stateT -> list (event DBTX) -> Prop) closes s w :
  (forall s' w', runs cleanup (s', w') (fun _ x => x = (s', noted w' closes))) ->
  gives body (s, w) (fun o x => exists es, k o x.1 es /\ x.2 = noted w es) ->
  gives (deferring cleanup body) (s, w) (fun o x => exists es, k o x.1 es /\ events x.2 = events w ++ es ++ closes).
Proof.
  intros Hc Hb. apply gives_deferring. eapply gives_mono; [exact Hb|]. intros o [s' w'] (es & Hk & Hw). cbn [fst snd] in *.
  subst w'. eapply runs_mono; [apply Hc|]. intros _ x ->. exists es. split; [done|]. cbn. by rewrite <- app_assoc.
Qed.

Lemma closing_gives {A} (cleanup : appM unit) (body : appM A) (k : result A -> callsT -> list (event DBTX) -> Prop) closes s w :
  (forall s' w', runs cleanup (s', w') (fun _ x => x = (s', noted w' closes))) ->
  gives body (s, w) (fun o x => exists es, k o (st_calls x.1) es /\ x.2 = noted w es) ->
  gives (deferring cleanup body) (s, w) (fun o x => exists es, k o (st_calls x.1) es /\ events x.2 = events w ++ es ++ closes).
Proof. apply (closingAt_gives cleanup body (fun o s' => k o (st_calls s'))). Qed.

End Steps.
