(* ===== verification/TwoShards.v ===== *)
(** * TwoShards: the topology of the multi-shard examples

    Examples 03, 05 and 07 spread 128 virtual shards over two replica sets, half
    of them each. This file has that topology, shows that it can be opened, and
    what an opened store of it is: which sets it has, which set a tenant is on,
    and which database a read from a primary asks. *)

From S2P Require Import Prelude Errors GoStrings Hasher Balancer Routing Telemetry CopyBatch Builder Topology OpenMesh Tasks StoreQueries Store StoreOps StoreAsync StoreBuild StoreLemmas StoreRefine StoreOpen StoreFanout StoreLookup Programs ProgramStore.

#[local] Open Scope Z_scope.

(** ** Names and primaries of an opened store *)

Lemma dedupe_firstOccurrences {B} `{!EqDecision B} (f : loc -> B) (pre l : list loc) :
  (forall x y, x ∈ pre ++ l -> y ∈ pre ++ l -> f x = f y -> x = y) ->
  foldl (fun acc x => if decide (x ∈ acc) then acc else acc ++ [x]) (f <$> pre) (f <$> l) =
  (f <$> pre) ++ (f <$> firstOccurrences (list_to_set pre) l).
Proof.
  revert pre. induction l as [|x l IH]; intros pre Hinj; [by rewrite app_nil_r|].
  cbn [fmap list_fmap foldl firstOccurrences]. case_bool_decide as Hx.
  - rewrite elem_of_list_to_set in Hx. rewrite decide_True by by apply list_elem_of_fmap_2.
    apply IH. intros y z Hy Hz. apply Hinj; set_solver.
  - rewrite elem_of_list_to_set in Hx. rewrite decide_False.
    2:{ intros (y & E & Hy)%list_elem_of_fmap. apply Hinj in E; [by subst|set_solver..]. }
    specialize (IH (pre ++ [x])). rewrite fmap_app in IH. cbn [fmap list_fmap] in IH. rewrite IH.
    + rewrite <- app_assoc. cbn [app fmap list_fmap]. do 3 f_equal.
      rewrite list_to_set_app_L. cbn [list_to_set]. f_equal. set_solver.
    + intros y z Hy Hz. apply Hinj; set_solver.
Qed.

Section Opened.
Context {DBTX : Type} `{!Driver DBTX} {RT : Runtime}.
Context {K Tracer Instrument Logger : Type}.
#[local] Abbreviation stateT := (storeState DBTX Tracer Instrument Logger).
#[local] Abbreviation storeT := (meshStore DBTX K Tracer Instrument Logger).
Implicit Types (q : storeT) (s : stateT).
Context (count : Z) (hash : ShardHasher K) (ms : list shardMapping) (primaryDB : string -> DBTX).

Lemma placed_heap q s s' : placed count hash ms primaryDB q s -> heapLe (st_heap s) (st_heap s') -> placed count hash ms primaryDB q s'.
Proof. intros (Hh & Hc & H) [_ E _]. split; [exact Hh|]. split; [exact Hc|]. intros i p Hp. rewrite E. by apply H. Qed.

(** The sets of the mesh, in the order in which the virtual shards name them. *)
Lemma setNames_placed q s :
  storeWf q s -> placed count hash ms primaryDB q s ->
  setNames q s = dedupe ((fun i => routeName ms (Z.of_nat i)) <$> seq 0 (Z.to_nat count)).
Proof.
  intros [_ _ [Hsets [Hnames Hinj]]] (_ & Hc & Hp). unfold setNames. rewrite Hsets.
  set (f := fun p => default "" (nameOf (st_heap s) p)).
  pose proof (dedupe_firstOccurrences f [] (virtualShards (ms_mesh q))) as H. cbn [fmap list_fmap app list_to_set] in H.
  etrans; [symmetry; apply H|].
  { intros x y Hx Hy. unfold f. destruct (Hnames x Hx) as (n & Hn & _). destruct (Hnames y Hy) as (m & Hm & _).
    rewrite Hn, Hm. cbn. intros ->. by eapply Hinj. }
  unfold dedupe. f_equal. apply list_eq. intros i. rewrite !list_lookup_fmap.
  destruct (virtualShards (ms_mesh q) !! i) as [p|] eqn:Hi.
  - destruct (Hp i p Hi) as (st & Hst & Hn & _). rewrite lookup_seq_lt by (apply lookup_lt_Some in Hi; lia).
    cbn. unfold f, nameOf. rewrite Hst. cbn. by rewrite Hn.
  - rewrite lookup_seq_ge; [done|]. apply lookup_ge_None in Hi. lia.
Qed.

(** The set a key is on. *)
Lemma setNameOf_placed q s key :
  storeWf q s -> placed count hash ms primaryDB q s -> routable q key -> 0 <= hash (keyOf q key) ->
  setNameOf q s key = routeName ms (hash (keyOf q key)).
Proof.
  intros Hwf (Hi & Hc & Hp) Hkey Hpos. destruct (shardOf_spec q s key Hwf Hkey) as (Hr & _ & Hname).
  unfold Resolve in Hr. rewrite Hi in Hr.
  destruct (Z.leb_spec (Z.of_nat (length (virtualShards (ms_mesh q)))) (hash (keyOf q key))); [done|].
  destruct (virtualShards (ms_mesh q) !! Z.to_nat (hash (keyOf q key))) as [p|] eqn:E; [|done].
  injection Hr as Hr. destruct (Hp _ _ E) as (st & Hst & Hn & _). unfold setNamed, nameOf in Hname.
  rewrite <- Hr in Hname. cbn in Hname. rewrite Hst in Hname. injection Hname as <-. by rewrite Hn, Z2Nat.id.
Qed.

(** A read from a primary asks the database of its set. *)
Lemma readable_primary q s p target :
  storeWf q s -> placed count hash ms primaryDB q s -> p ∈ ReplicaSets (ms_mesh q) ->
  readable (applyQueryOptions [ReadFromPrimary]) s p target ->
  target = newReadQueries (New (primaryDB (default "" (nameOf (st_heap s) p)))).
Proof.
  intros [_ _ [Hsets _]] (_ & _ & Hp) Hin (st & rs & Hst & _ & ->). rewrite Hsets in Hin.
  apply firstOccurrences_elem in Hin as [Hin _]. apply list_elem_of_lookup_1 in Hin as [i Hi].
  destruct (Hp i p Hi) as (st' & Hst' & _ & Hpri). rewrite Hst in Hst'. injection Hst' as <-.
  unfold nameOf. rewrite Hst. cbn. by rewrite Hpri.
Qed.

End Opened.

(** ** The topology *)

(** [tenantResolver.TenantKey]: it panics on a negative tenant. *)
Definition tenantResolver (key : TenantKey) : option Z :=
  if tk_TenantID key <? 0 then None else Some (u64 (tk_TenantID key)).

Definition virtualShardCount : Z := 128.

Abbreviation hash := (moduloShardHasher_Hash uint64 128).

(** The ranges of the two sets. *)
Definition lowShards : list Z := (fun k => Z.of_nat k) <$> seq 0 64.
Definition highShards : list Z := (fun k => 64 + Z.of_nat k) <$> seq 0 64.

Definition mappings : list shardMapping :=
  [ShardMapping "shard-0" lowShards []; ShardMapping "shard-1" highShards []].

Lemma ranges : VirtualShardRange 0 64 = Ok lowShards /\ VirtualShardRange 64 virtualShardCount = Ok highShards.
Proof. split; vm_compute; reflexivity. Qed.

Section Topology.
Context {DBTX : Type} {Tracer Instrument Logger : Type}.
Context (gmp : MeterProvider Instrument).
Context (p0 p1 : DBTX).

Definition sets (replicas0 replicas1 : list DBTX) : list (shardDatabase (DBTX := DBTX)) :=
  [ShardDatabase "shard-0" (Some p0) (Some <$> replicas0); ShardDatabase "shard-1" (Some p1) (Some <$> replicas1)].
Definition primaryDB (n : string) : DBTX := if bool_decide (n = "shard-0") then p0 else p1.

#[local] Abbreviation optsT := (storeOptions (DBTX := DBTX) (Tracer := Tracer) (Instrument := Instrument) (Logger := Logger)).

(** Options that set no provider. *)
Definition plainOptions (lg : option Logger) (copies : option CopyBatchConfig) : optsT :=
  StoreOptions None None lg None None copies.

Lemma hash_range key k : tenantResolver key = Some k -> 0 <= hash k < 128.
Proof.
  unfold tenantResolver. destruct (Z.ltb_spec (tk_TenantID key) 0); [done|]. intros [= <-].
  unfold moduloShardHasher_Hash. assert (0 <= u64 (tk_TenantID key)) by (apply wrap_u_range; lia).
  destruct (Z.ltb_spec (u64 (tk_TenantID key)) 0); [lia|]. apply Z.mod_pos_bound. lia.
Qed.

Lemma twoShards_openable replicas0 replicas1 lg copies :
  configInts (shardedConfig 128 (sets replicas0 replicas1) mappings (plainOptions lg copies)) ->
  validConfig (shardedConfig 128 (sets replicas0 replicas1) mappings (plainOptions lg copies)) ->
  metersOk gmp -> Validate (batchConfigOf (plainOptions lg copies)) = None ->
  openable gmp 128 hash tenantResolver (sets replicas0 replicas1) mappings (plainOptions lg copies) primaryDB.
Proof.
  intros Hints Hv Hm Hb. split; [done|done| | |exact hash_range|exact Hm|exact Hm|exact Hb].
  - assert (H : forall l : list DBTX, Forall is_Some (Some <$> l)) by (intros l; apply Forall_fmap, Forall_true; by eexists).
    repeat constructor; try (by eexists); apply H.
  - intros set Hset. unfold sets in Hset. rewrite !elem_of_cons in Hset. by destruct Hset as [->|[->|[]%elem_of_nil]].
Qed.

Lemma twoShards_config_ints replicas0 replicas1 lg copies :
  configInts (shardedConfig 128 (sets replicas0 replicas1) mappings (plainOptions lg copies)).
Proof.
  split; [simpl; lia|]. assert (H : Forall (fun i => 0 <= i) lowShards /\ Forall (fun i => 0 <= i) highShards).
  { split; apply Forall_forall; intros i (k & -> & Hk%elem_of_seq)%list_elem_of_fmap; lia. }
  destruct H as [H1 H2]. change (Forall (fun i => 0 <= i) (lowShards ++ highShards ++ [])).
  rewrite app_nil_r. by apply Forall_app.
Qed.
End Topology.

(** Without replicas, and with one replica each. *)
Lemma valid_primaries {DBTX Tracer Instrument Logger} (p0 p1 : DBTX) (lg : option Logger) copies :
  validConfig (shardedConfig 128 (sets p0 p1 [] []) mappings
    (plainOptions (Tracer := Tracer) (Instrument := Instrument) lg copies)).
Proof.
  apply (validateMeshConfig_inv (R := readQueries DBTX) (W := queryStore DBTX) _
    (fun _ _ => inl (ErrorText "")) hash); [apply twoShards_config_ints| |vm_compute; reflexivity]. repeat constructor.
Qed.

Lemma valid_replicas {DBTX Tracer Instrument Logger} (p0 r0 p1 r1 : DBTX) (lg : option Logger) copies :
  validConfig (shardedConfig 128 (sets p0 p1 [r0] [r1]) mappings
    (plainOptions (Tracer := Tracer) (Instrument := Instrument) lg copies)).
Proof.
  apply (validateMeshConfig_inv (R := readQueries DBTX) (W := queryStore DBTX) _
    (fun _ _ => inl (ErrorText "")) hash); [apply twoShards_config_ints| |vm_compute; reflexivity]. repeat constructor.
Qed.

(** ** An opened store *)

Section TwoShards.
Context {DBTX : Type} `{!Driver DBTX} {RT : Runtime}.
Context {Tracer Instrument Logger : Type}.
Context (ErrorType : error -> KeyValue) (DebugEnabled : Logger -> bool).
Context (gtp : TracerProvider Tracer) (gmp : MeterProvider Instrument).
#[local] Abbreviation stateT := (storeState DBTX Tracer Instrument Logger).
#[local] Abbreviation storeT := (meshStore DBTX Z Tracer Instrument Logger).
Implicit Types (q : storeT) (s : stateT).
Context (p0 p1 : DBTX).

(** The store over the primaries [p0] and [p1]. *)
Record onTwoShards q s : Prop := {
  ts_wf : storeWf q s;
  ts_resolver : ms_resolver q = Some tenantResolver;
  ts_serves : serves ["shard-0"; "shard-1"] (primaryDB p0 p1) (keyRoute hash tenantResolver mappings) (mirrorsOf mappings) q s;
  ts_placed : placed 128 hash mappings (primaryDB p0 p1) q s;
}.

Lemma opened_onTwoShards replicas0 replicas1 options q store s s' :
  openedStore ErrorType DebugEnabled 128 hash tenantResolver (sets p0 p1 replicas0 replicas1) mappings options
    (primaryDB p0 p1) q store s s' -> onTwoShards q s'.
Proof.
  intros H. pose proof (openedStore_wf _ _ _ _ _ _ _ _ _ _ _ _ _ H) as Hwf.
  destruct H as (_ & _ & Hres & Hserve & _ & _ & _ & Hp). by split.
Qed.

(** Opening it in a program: each of examples 03, 05 and 07 writes this call, with
    its own replicas and options. *)
#[local] Abbreviation appM := (stE (stateT * world DBTX) error).
#[local] Abbreviation storeI := (Store (DBTX := DBTX) (Tracer := Tracer) (Instrument := Instrument) (Logger := Logger)).
#[local] Abbreviation plain := (plainOptions (DBTX := DBTX) (Tracer := Tracer) (Instrument := Instrument) (Logger := Logger)).
#[local] Abbreviation optionI := (StoreOption (DBTX := DBTX) (Tracer := Tracer) (Instrument := Instrument) (Logger := Logger)).

Definition openTwoShards (format : string) (shard0 : DBTX) (replicas0 : list (option DBTX)) (shard1 : DBTX)
    (replicas1 : list (option DBTX)) (storeOptions : list (option optionI)) : appM storeI :=
  hasher ← lift (NewModuloShardHasher uint64 virtualShardCount);
  low ← lift (VirtualShardRange 0 64);
  high ← lift (VirtualShardRange 64 virtualShardCount);
  wrapErr format (inStore
    (NewStore (Some (fun options => '(_, store) ← sharded_buildStore ErrorType DebugEnabled gtp gmp 0
        (Sharded virtualShardCount (Some hasher) (Some tenantResolver)
          [ Some (WithReplicaSet "shard-0" (Some shard0) replicas0);
            Some (WithReplicaSet "shard-1" (Some shard1) replicas1);
            Some (WithVirtualShardMapping "shard-0" low []);
            Some (WithVirtualShardMapping "shard-1" high []) ]) options;
      mret store)) storeOptions)).

Lemma twoShards_topology replicas0 replicas1 :
  Sharded virtualShardCount (Some hash) (Some tenantResolver)
    [ Some (WithReplicaSet "shard-0" (Some p0) (Some <$> replicas0)); Some (WithReplicaSet "shard-1" (Some p1) (Some <$> replicas1));
      Some (WithVirtualShardMapping "shard-0" lowShards []); Some (WithVirtualShardMapping "shard-1" highShards []) ] =
  Ok (topology 128 hash tenantResolver (sets p0 p1 replicas0 replicas1) mappings).
Proof. reflexivity. Qed.

Lemma twoShards_opens replicas0 replicas1 opts lg copies s :
  applyStoreOptions opts = Ok (plain lg copies) -> Validate (batchConfigOf (plain lg copies)) = None ->
  validConfig (shardedConfig 128 (sets p0 p1 replicas0 replicas1) mappings (plain lg copies)) ->
  metersOk gmp -> heap_wf (st_heap s) -> batchersWf s ->
  runs (openStore ErrorType DebugEnabled gtp gmp 128 hash tenantResolver (sets p0 p1 replicas0 replicas1) mappings 0 opts) s
    (fun store s1 => exists q, openedStore ErrorType DebugEnabled 128 hash tenantResolver (sets p0 p1 replicas0 replicas1) mappings
       (plain lg copies) (primaryDB p0 p1) q store s s1).
Proof.
  intros Happ Hbatch Hv Hm. apply openStore_runs; [done|]. by apply twoShards_openable; [apply twoShards_config_ints|..].
Qed.

Lemma openTwoShards_gives {A} format replicas0 replicas1 opts lg copies s w (k : storeI -> appM A) Q :
  applyStoreOptions opts = Ok (plain lg copies) -> Validate (batchConfigOf (plain lg copies)) = None ->
  validConfig (shardedConfig 128 (sets p0 p1 replicas0 replicas1) mappings (plain lg copies)) ->
  metersOk gmp -> heap_wf (st_heap s) -> batchersWf s ->
  (forall q store s1, openedStore ErrorType DebugEnabled 128 hash tenantResolver (sets p0 p1 replicas0 replicas1) mappings
       (plain lg copies) (primaryDB p0 p1) q store s s1 -> gives (k store) (s1, w) Q) ->
  gives (openTwoShards format p0 (Some <$> replicas0) p1 (Some <$> replicas1) opts ≫= k) (s, w) Q.
Proof.
  intros Happ Hbatch Hv Hm Hh Hb Hk. apply gives_bind. unfold openTwoShards. rewrite (proj1 ranges), (proj2 ranges).
  apply (gives_seq _ _ _ (fun h x => h = hash /\ x = (s, w))); [by eexists _, _|]. intros ? ? [-> ->].
  apply (gives_seq _ _ _ (fun l x => l = lowShards /\ x = (s, w))); [by eexists _, _|]. intros ? ? [-> ->].
  apply (gives_seq _ _ _ (fun l x => l = highShards /\ x = (s, w))); [by eexists _, _|]. intros ? ? [-> ->].
  rewrite twoShards_topology. apply gives_wrapErr, gives_inStore, gives_runs.
  pose proof (twoShards_opens replicas0 replicas1 opts lg copies s Happ Hbatch Hv Hm Hh Hb) as Hopen.
  rewrite <- openStore_unfold. eapply runs_mono; [exact Hopen|]. intros store s1 (q & H). cbn [andThen]. by apply (Hk q).
Qed.

Lemma storeWf_moved q s s' : storeWf q s -> moved s s' -> storeWf q s'.
Proof.
  intros [Ht Hh [Hs Hb]] Hm. apply (storeWf_frame q (setCalls (st_calls s') s)); [|exact Hm]. split; [exact Ht|exact Hh|]. split; [exact Hs|exact Hb].
Qed.

Lemma onTwoShards_moved q s s' : onTwoShards q s -> moved s s' -> onTwoShards q s'.
Proof.
  intros [H1 H2 H3 H4] Hm. split; [by eapply storeWf_moved|done|by eapply serves_moved|].
  eapply placed_heap; [exact H4|]. exact (fr_heap _ _ Hm).
Qed.

(** A query of several shards keeps what the next such query needs. *)
Record placedOnTwo q s : Prop := {
  po_wf : storeWf q s;
  po_resolver : ms_resolver q = Some tenantResolver;
  po_placed : placed 128 hash mappings (primaryDB p0 p1) q s;
}.

Lemma onTwoShards_placed q s : onTwoShards q s -> placedOnTwo q s.
Proof. by intros []. Qed.

Lemma placedOnTwo_kept q s s' : placedOnTwo q s -> storeKept q s s' -> placedOnTwo q s'.
Proof. intros [H1 H2 H3] [Hwf Hle]. split; [done|done|by eapply placed_heap]. Qed.

Lemma setNames_two q s : placedOnTwo q s -> setNames q s = ["shard-0"; "shard-1"].
Proof. intros [Hwf _ Hp]. rewrite (setNames_placed _ _ _ _ _ _ Hwf Hp). vm_compute. reflexivity. Qed.

Definition tenantSet (tenant : Z) : string := routeName mappings (hash (u64 tenant)).

Lemma tenant_resolves q tenant :
  ms_resolver q = Some tenantResolver -> 0 <= tenant -> shardKeyOf q (Some (MkTenantKey tenant)) = Ok (u64 tenant).
Proof.
  intros Hq Ht. unfold shardKeyOf. rewrite Hq. cbn [tk_TenantID]. unfold tenantResolver. cbn [tk_TenantID].
  cbn. by destruct (Z.ltb_spec tenant 0); [lia|].
Qed.

Lemma tenant_routable q s tenant :
  placedOnTwo q s -> 0 <= tenant -> routable q (MkTenantKey tenant) /\ setNameOf q s (MkTenantKey tenant) = tenantSet tenant.
Proof.
  intros [Hwf Hq Hp] Ht. pose proof (tenant_resolves q tenant Hq Ht) as Hk.
  assert (Hres : resolved q (MkTenantKey tenant)) by (unfold resolved; by rewrite Hk).
  assert (Hkey : keyOf q (MkTenantKey tenant) = u64 tenant) by (pose proof (resolved_keyOf _ _ Hres) as E; rewrite Hk in E; by injection E).
  assert (Hr : 0 <= hash (u64 tenant) < 128).
  { apply (hash_range (MkTenantKey tenant)). unfold tenantResolver. cbn [tk_TenantID]. by destruct (Z.ltb_spec tenant 0); [lia|]. }
  assert (Hroute : routable q (MkTenantKey tenant)).
  { split; [exact Hres|]. rewrite Hkey. destruct Hp as (Hh & Hc & _). unfold Resolve. rewrite Hh.
    destruct (Z.leb_spec (Z.of_nat (length (virtualShards (ms_mesh q)))) (hash (u64 tenant))); [lia|].
    destruct (lookup_lt_is_Some_2 (virtualShards (ms_mesh q)) (Z.to_nat (hash (u64 tenant)))) as [p E]; [lia|].
    rewrite E. by eexists. }
  split; [exact Hroute|]. rewrite (setNameOf_placed _ _ _ _ q s _ Hwf Hp Hroute); [by rewrite Hkey|rewrite Hkey; apply Hr].
Qed.

Lemma tenant_route tenant : 0 <= tenant -> keyRoute hash tenantResolver mappings (MkTenantKey tenant) = tenantSet tenant.
Proof. intros H. unfold keyRoute, tenantResolver. cbn [tk_TenantID]. by destruct (Z.ltb_spec tenant 0); [lia|]. Qed.

(** A write for a tenant is on the primary of its set. *)
Lemma upsert_tenant q ctx tenant id name s :
  ms_resolver q = Some tenantResolver ->
  serves ["shard-0"; "shard-1"] (primaryDB p0 p1) (keyRoute hash tenantResolver mappings) (mirrorsOf mappings) q s ->
  0 <= tenant -> mirrorsOf mappings (tenantSet tenant) = [] ->
  runs (UpsertAccount ErrorType DebugEnabled q ctx (Some (MkUpsertAccountT (MkTenantKey tenant) id name)) []) s
    (fun r s' => moved s s' /\ exists c, (r, st_calls s') =
      writeOn c upsertAccount [VInt64 id; VInt64 tenant; VText name] (primaryDB p0 p1 (tenantSet tenant)) [] (st_calls s)).
Proof.
  intros Hres Hs Ht Hm. eapply runs_mono; [apply (UpsertAccount_on ErrorType DebugEnabled _ _ _ _ q ctx (MkUpsertAccountT (MkTenantKey tenant) id name) [] s Hs)|].
  { unfold resolved. cbn [ust_TenantKey]. by rewrite (tenant_resolves q tenant Hres Ht). }
  intros r s' (Hmv & c & Hr). split; [done|]. exists c. etrans; [exact Hr|].
  unfold writtenTo. cbn [ust_TenantKey fst snd qo_tx applyQueryOptions]. cbn. by rewrite tenant_route, Hm by done.
Qed.

(** The sets of the tenants of the examples. *)
Lemma tenants : tenantSet 20 = "shard-0" /\ tenantSet 100 = "shard-1" /\
  mirrorsOf mappings (tenantSet 20) = [] /\ mirrorsOf mappings (tenantSet 100) = [].
Proof. split_and!; vm_compute; reflexivity. Qed.

(** The answers of all sets when the primaries are asked. *)
Lemma Forall3_names {A B} (P : loc -> A -> B -> Prop) (P' : string -> A -> B -> Prop) (f : loc -> string) xs l k :
  Forall3 P xs l k -> (forall x a b, x ∈ xs -> P x a b -> P' (f x) a b) -> Forall3 P' (f <$> xs) l k.
Proof.
  induction 1 as [|x y z xs ys zs H _ IH]; intros HP; [constructor|]. cbn. constructor; [by apply HP; [left|]|].
  apply IH. intros x' a b Hx. apply HP. by right.
Qed.

End TwoShards.
