(* ===== verification/MirrorsProgram.v ===== *)
(** * MirrorsProgram: mirrored writes and a transaction (examples/04-mirrors-and-transactions)

    The program opens two shards whose writes are mirrored to future shards,
    writes an account through the store, and updates it in a transaction it
    begins on the pool of the tenant's shard. *)

From S2P Require Import Prelude Errors GoStrings Hasher Balancer Routing Telemetry CopyBatch Builder Topology OpenMesh Tasks StoreQueries Store StoreOps StoreAsync StoreBuild StoreLemmas StoreRefine MemoryDriver StoreOpen Programs ProgramStore.

#[local] Open Scope Z_scope.

(** ** The program *)

Definition shard0Name : string := "shard-0".
Definition shard1Name : string := "shard-1".
Definition futureShard0Name : string := "future-shard-0".
Definition futureShard1Name : string := "future-shard-1".
Definition virtualShardCount : Z := 2.

Record config := Config {
  shard0Primary : string; shard0Replica : string; shard0Future : string;
  shard1Primary : string; shard1Replica : string; shard1Future : string;
}.

(** [tenantResolver.TenantKey]: it panics on a negative tenant. *)
Definition tenantResolver (key : TenantKey) : option Z :=
  if tk_TenantID key <? 0 then None else Some (u64 (tk_TenantID key)).

Definition primaryDSN (c : config) (shardName : string) : result string :=
  if bool_decide (shardName = shard0Name) then Ok (shard0Primary c)
  else if bool_decide (shardName = shard1Name) then Ok (shard1Primary c)
  else Err (Errorf "unknown primary shard %q" [AStr shardName] []).

Definition environment : list string :=
  ["ADV_SHARD0_PRIMARY_DSN"; "ADV_SHARD0_REPLICA_DSN"; "ADV_SHARD0_MIRROR_DSN";
   "ADV_SHARD1_PRIMARY_DSN"; "ADV_SHARD1_REPLICA_DSN"; "ADV_SHARD1_MIRROR_DSN"].

Section Program.
Context {DBTX : Type} `{!Driver DBTX} `{!Platform DBTX} {RT : Runtime}.
Context {Tracer Instrument Logger : Type}.
Context (ErrorType : error -> KeyValue) (DebugEnabled : Logger -> bool).
Context (gtp : TracerProvider Tracer) (gmp : MeterProvider Instrument).
#[local] Abbreviation stateT := (storeState DBTX Tracer Instrument Logger).
#[local] Abbreviation appM := (stE (stateT * world DBTX) error).
#[local] Abbreviation storeI := (Store (DBTX := DBTX) (Tracer := Tracer) (Instrument := Instrument) (Logger := Logger)).
#[local] Abbreviation accountsI := (Accounts (DBTX := DBTX) (Tracer := Tracer) (Instrument := Instrument) (Logger := Logger)).

Definition requiredEnvironment (names : list string) : result (list string) :=
  environmentValues (fun name => Errorf "%s is required" [AStr name] []) names.

Definition loadConfig : result config :=
  values ← requiredEnvironment environment;
  match values with
  | [v0; v1; v2; v3; v4; v5] => Ok (Config v0 v1 v2 v3 v4 v5)
  | _ => Panic
  end.

Definition newPoolRegistry : appM unit := registryNew.

Definition poolRegistry_close : appM unit := registryClose.

Definition poolRegistry_open (dsn : string) : appM DBTX := registryOpen "open node: %w" "ping node: %w" dsn.

Definition poolRegistry_pool (dsn : string) : appM DBTX :=
  known ← registered dsn;
  match known with
  | Some pool => mret pool
  | None => throw (ErrorText "pool for DSN is not registered")
  end.

Definition createStore (cfg : config) : appM storeI :=
  p0 ← poolRegistry_open (shard0Primary cfg);
  r0 ← poolRegistry_open (shard0Replica cfg);
  f0 ← poolRegistry_open (shard0Future cfg);
  p1 ← poolRegistry_open (shard1Primary cfg);
  r1 ← poolRegistry_open (shard1Replica cfg);
  f1 ← poolRegistry_open (shard1Future cfg);
  hasher ← lift (NewModuloShardHasher uint64 virtualShardCount);
  wrapErr "create store: %w" (inStore
    (NewStore (Some (fun options => '(_, store) ← sharded_buildStore ErrorType DebugEnabled gtp gmp 0
        (Sharded virtualShardCount (Some hasher) (Some tenantResolver)
          [ Some (WithReplicaSet shard0Name (Some p0) [Some r0]);
            Some (WithReplicaSet shard1Name (Some p1) [Some r1]);
            Some (WithReplicaSet futureShard0Name (Some f0) []);
            Some (WithReplicaSet futureShard1Name (Some f1) []);
            Some (WithVirtualShardMapping shard0Name [0] [futureShard0Name]);
            Some (WithVirtualShardMapping shard1Name [1] [futureShard1Name]) ]) options;
      mret store)) [])).

Definition dualWriteToFutureShard (accounts : accountsI) (ctx : Context) (tenantID accountID : Z) : appM unit :=
  _ ← checked "dual-write account: %w" (inStore (Accounts_UpsertAccount accounts ctx
    (Some (MkUpsertAccountT (MkTenantKey tenantID) accountID "mirrored write")) []));
  mret tt.

(** The deferred function of [updateInTransaction]. [committed] is set by the
    last statement before the only return without an error, so the transaction
    is rolled back unless the body returned one. *)
Definition rollback (tx : DBTX) : appM unit :=
  _ ← note (TxRollback tx);
  match tx_Rollback tx with
  | Some rollbackErr => note (Logged "rollback transaction: %v" rollbackErr)
  | None => mret tt
  end.

Definition unlessCommitted {A} (tx : DBTX) (body : appM A) : appM A := fun x =>
  match body x with
  | (Ok a, y) => (Ok a, y)
  | (o, y) =>
      match rollback tx y with
      | (Ok _, z) => (o, z)
      | (Err e, z) => (Err e, z)
      | (Panic, z) => (Panic, z)
      end
  end.

Definition updateInTransaction (cfg : config) (accounts : accountsI) (ctx : Context) (tenantID accountID : Z)
    : appM (option Account) :=
  key ← lift (panic_if_none (tenantResolver (MkTenantKey tenantID)));
  let shardName := if key mod virtualShardCount =? 1 then shard1Name else shard0Name in
  dsn ← lift (primaryDSN cfg shardName);
  pool ← poolRegistry_pool dsn;
  match pool_Begin pool with
  | inl err => throw (Errorf "begin transaction: %w" [] [err])
  | inr tx =>
      _ ← note (TxBegun pool tx);
      unlessCommitted tx (
        updated ← checked "transactional update: %w" (inStore (Accounts_UpdateAccountName accounts ctx
          (Some (MkUpdateAccountNameT (MkTenantKey tenantID) accountID "transactional update")) [WithTx (Some tx)]));
        _ ← note (TxCommit tx);
        match tx_Commit tx with
        | Some err => throw (Errorf "commit transaction: %w" [] [err])
        | None => mret updated
        end)
  end.

Definition run (ctx : Context) : appM unit :=
  cfg ← lift loadConfig;
  _ ← newPoolRegistry;
  deferring poolRegistry_close (
    store ← createStore cfg;
    let accounts := Store_Accounts store in
    _ ← dualWriteToFutureShard accounts ctx 42 4001;
    updated ← updateInTransaction cfg accounts ctx 42 4001;
    updated ← lift (panic_if_none updated);
    note (Printed "account %d: %s\n" [AInt (ID updated); AStr (DisplayName updated)])).

End Program.

(** ** The topology *)

Section Topology.
Context {DBTX : Type} {Tracer Instrument Logger : Type}.
Context (gmp : MeterProvider Instrument).
Context (p0 r0 f0 p1 r1 f1 : DBTX).

Definition sets : list (shardDatabase (DBTX := DBTX)) :=
  [ShardDatabase shard0Name (Some p0) [Some r0]; ShardDatabase shard1Name (Some p1) [Some r1];
   ShardDatabase futureShard0Name (Some f0) []; ShardDatabase futureShard1Name (Some f1) []].
Definition mappings : list shardMapping :=
  [ShardMapping shard0Name [0] [futureShard0Name]; ShardMapping shard1Name [1] [futureShard1Name]].
Definition primaryDB (n : string) : DBTX :=
  if bool_decide (n = shard0Name) then p0 else if bool_decide (n = shard1Name) then p1
  else if bool_decide (n = futureShard0Name) then f0 else f1.
Definition noStoreOptions : storeOptions (DBTX := DBTX) (Tracer := Tracer) (Instrument := Instrument) (Logger := Logger) :=
  StoreOptions None None None None None None.

Lemma mirrors_openable :
  metersOk gmp ->
  openable gmp 2 (moduloShardHasher_Hash uint64 2) tenantResolver sets mappings noStoreOptions primaryDB.
Proof.
  intros Hm. assert (Hints : configInts (shardedConfig 2 sets mappings noStoreOptions)).
  { split; [simpl; lia|]. repeat constructor; lia. }
  split; [done| | | | |exact Hm|exact Hm|done].
  - apply (validateMeshConfig_inv (R := readQueries DBTX) (W := queryStore DBTX) _
      (shardedOpener (topologyNodes sets)) (moduloShardHasher_Hash uint64 2) Hints).
    + repeat constructor.
    + vm_compute. reflexivity.
  - repeat constructor; by eexists.
  - intros set Hset. unfold sets in Hset. rewrite !elem_of_cons in Hset.
    by destruct Hset as [->|[->|[->|[->|[]%elem_of_nil]]]].
  - intros key k. unfold tenantResolver. destruct (Z.ltb_spec (tk_TenantID key) 0); [done|]. intros [= <-].
    unfold moduloShardHasher_Hash. assert (0 <= u64 (tk_TenantID key)) by (apply wrap_u_range; lia).
    destruct (Z.ltb_spec (u64 (tk_TenantID key)) 0); [lia|]. apply Z.mod_pos_bound. lia.
Qed.

Lemma mirrors_topology :
  Sharded virtualShardCount (Some (moduloShardHasher_Hash uint64 2)) (Some tenantResolver)
    [ Some (WithReplicaSet shard0Name (Some p0) [Some r0]); Some (WithReplicaSet shard1Name (Some p1) [Some r1]);
      Some (WithReplicaSet futureShard0Name (Some f0) []); Some (WithReplicaSet futureShard1Name (Some f1) []);
      Some (WithVirtualShardMapping shard0Name [0] [futureShard0Name]);
      Some (WithVirtualShardMapping shard1Name [1] [futureShard1Name]) ] =
  Ok (topology 2 (moduloShardHasher_Hash uint64 2) tenantResolver sets mappings).
Proof. reflexivity. Qed.
End Topology.

(** ** What the program does *)

Section Spec.
Context {DBTX : Type} `{!Driver DBTX} `{!Platform DBTX} {RT : Runtime}.
Context {Tracer Instrument Logger : Type}.
Context (ErrorType : error -> KeyValue) (DebugEnabled : Logger -> bool).
Context (gtp : TracerProvider Tracer) (gmp : MeterProvider Instrument).
#[local] Abbreviation stateT := (storeState DBTX Tracer Instrument Logger).
#[local] Abbreviation appM := (stE (stateT * world DBTX) error).
#[local] Abbreviation storeI := (Store (DBTX := DBTX) (Tracer := Tracer) (Instrument := Instrument) (Logger := Logger)).
#[local] Abbreviation fault := (openFault "open node: %w" "ping node: %w").
#[local] Abbreviation registryOf := (registry "open node: %w" "ping node: %w").
Implicit Types (s : stateT) (w : world DBTX).

Definition dualArg : UpsertAccountT := MkUpsertAccountT (MkTenantKey 42) 4001 "mirrored write".
Definition updateArg : UpdateAccountNameT := MkUpdateAccountNameT (MkTenantKey 42) 4001 "transactional update".

(** Rolling back, and what the log says of it. *)
Definition rollbackEvents (tx : DBTX) : list (event DBTX) :=
  TxRollback tx :: match tx_Rollback tx with
                   | Some e => [Logged "rollback transaction: %v" e]
                   | None => []
                   end.

(** The work between opening and closing the pools: its outcome, the driver's
    calls and the events. [c1] and [c2] are the contexts of the two queries. *)
Definition work (c1 c2 : Context) (primary future : DBTX) (calls : list (dbCall DBTX))
    : result unit * list (dbCall DBTX) * list (event DBTX) :=
  let '((_, err), calls) := writeOn c1 upsertAccount (upsertValues dualArg) primary [future] calls in
  match err, pool_Begin primary with
  | Some e, _ => (Err (Errorf "dual-write account: %w" [] [e]), calls, [])
  | None, inl e => (Err (Errorf "begin transaction: %w" [] [e]), calls, [])
  | None, inr tx =>
      let '((a, err), calls) := writeOn c2 updateAccountName (updateValues updateArg) tx [] calls in
      match err, tx_Commit tx with
      | Some e, _ =>
          (Err (Errorf "transactional update: %w" [] [e]), calls, TxBegun primary tx :: rollbackEvents tx)
      | None, Some e =>
          (Err (Errorf "commit transaction: %w" [] [e]), calls, TxBegun primary tx :: TxCommit tx :: rollbackEvents tx)
      | None, None => (Ok tt, calls, TxBegun primary tx :: TxCommit tx ::
          match a with
          | Some a => [Printed "account %d: %s\n" [AInt (ID a); AStr (DisplayName a)]]
          | None => []
          end)
      end
  end.

Definition configured : config :=
  Config (os_Getenv "ADV_SHARD0_PRIMARY_DSN") (os_Getenv "ADV_SHARD0_REPLICA_DSN") (os_Getenv "ADV_SHARD0_MIRROR_DSN")
    (os_Getenv "ADV_SHARD1_PRIMARY_DSN") (os_Getenv "ADV_SHARD1_REPLICA_DSN") (os_Getenv "ADV_SHARD1_MIRROR_DSN").

Lemma mirrors_loadConfig :
  loadConfig = match List.find unset environment with
               | Some name => Err (Errorf "%s is required" [AStr name] [])
               | None => Ok configured
               end.
Proof. unfold loadConfig, requiredEnvironment. rewrite environmentValues_spec. by destruct (List.find unset environment). Qed.

(** The DSNs in the order in which they are opened. *)
Definition dsnsOf (c : config) : list string :=
  [shard0Primary c; shard0Replica c; shard0Future c; shard1Primary c; shard1Replica c; shard1Future c].

#[local] Abbreviation opened p0 r0 f0 p1 r1 f1 := (openedStore ErrorType DebugEnabled 2 (moduloShardHasher_Hash uint64 2)
  tenantResolver (sets p0 r0 f0 p1 r1 f1) mappings noStoreOptions (primaryDB p0 f0 p1 f1)).

#[local] Abbreviation openMirrors p0 r0 f0 p1 r1 f1 := (openStore ErrorType DebugEnabled gtp gmp 2
  (moduloShardHasher_Hash uint64 2) tenantResolver (sets p0 r0 f0 p1 r1 f1) mappings 0 []).

Lemma mirrors_opens p0 r0 f0 p1 r1 f1 s :
  metersOk gmp -> heap_wf (st_heap s) -> batchersWf s ->
  runs (openMirrors p0 r0 f0 p1 r1 f1) s (fun store s1 => exists q, opened p0 r0 f0 p1 r1 f1 q store s s1).
Proof. intros Hm. apply (openStore_runs _ _ _ _ _ _ _ _ _ noStoreOptions); [done|by apply mirrors_openable]. Qed.

Lemma createStore_gives c s w :
  metersOk gmp -> heap_wf (st_heap s) -> batchersWf s -> byDSN w = ∅ ->
  gives (createStore ErrorType DebugEnabled gtp gmp c) (s, w)
    (openPost "open node: %w" "ping node: %w" [] (dsnsOf c) w (eq s) (fun o x =>
      exists p0 r0 f0 p1 r1 f1 q store s1 w1, o = Ok store /\ x = (s1, w1) /\ registryOf (dsnsOf c) w w1 /\
        opened p0 r0 f0 p1 r1 f1 q store s s1 /\ poolAt (shard0Primary c) = Some p0 /\ poolAt (shard0Future c) = Some f0)).
Proof.
  intros Hm Hh Hb Hw. pose proof (registry_new "open node: %w" "ping node: %w" w Hw) as Hreg.
  unfold createStore, dsnsOf, poolRegistry_open.
  eapply gives_next; [exact Hreg|done|]. clear Hreg. intros p0 w1 Hp0 Hreg.
  eapply gives_next; [exact Hreg|done|]. clear Hreg. intros r0 w2 _ Hreg.
  eapply gives_next; [exact Hreg|done|]. clear Hreg. intros f0 w3 Hf0 Hreg.
  eapply gives_next; [exact Hreg|done|]. clear Hreg. intros p1 w4 _ Hreg.
  eapply gives_next; [exact Hreg|done|]. clear Hreg. intros r1 w5 _ Hreg.
  eapply gives_next; [exact Hreg|done|]. clear Hreg. intros f1 w6 _ Hreg. apply gives_opened.
  apply (gives_seq _ _ _ (fun h x => h = moduloShardHasher_Hash uint64 2 /\ x = (s, w6))); [by eexists _, _|].
  intros ? ? [-> ->]. rewrite mirrors_topology. apply gives_wrapErr, gives_inStore, gives_runs.
  pose proof (mirrors_opens p0 r0 f0 p1 r1 f1 s Hm Hh Hb) as Hopen.
  rewrite <- openStore_unfold.
  eapply runs_mono; [exact Hopen|].
  intros store s1 (q & H). exists p0, r0, f0, p1, r1, f1, q, store, s1, w6. by split_and!.
Qed.
(** The queries on the opened store. *)
#[local] Abbreviation served p0 r0 f0 p1 r1 f1 := (serves (sd_name <$> sets p0 r0 f0 p1 r1 f1) (primaryDB p0 f0 p1 f1)
  (keyRoute (moduloShardHasher_Hash uint64 2) tenantResolver mappings) (mirrorsOf mappings)).

Lemma rollback_runs tx s w : runs (rollback tx) (s, w) (fun _ x => x = (s, noted w (rollbackEvents tx))).
Proof.
  unfold rollback, rollbackEvents. apply runs_bind. eexists tt, _. split; [done|].
  destruct (tx_Rollback tx); [|by eexists tt, _]. eexists tt, _. split; [done|].
  cbn. unfold noted. cbn. by rewrite <- app_assoc.
Qed.

Lemma gives_unlessCommitted {A} tx (body : appM A) x Q :
  gives body x (fun o y => match o with
                           | Ok a => Q (Ok a) y
                           | _ => Q o (y.1, noted y.2 (rollbackEvents tx))
                           end) ->
  gives (unlessCommitted tx body) x Q.
Proof.
  unfold gives, unlessCommitted. destruct (body x) as [[a|e|] [s w]]; cbn; [done|..];
    destruct (rollback_runs tx s w) as (u & z & -> & ->); done.
Qed.

Section Opened.
Context (p0 r0 f0 p1 r1 f1 : DBTX) (q : meshStore DBTX Z Tracer Instrument Logger) (store : storeI) (s0 s1 : stateT).
Context (Hop : opened p0 r0 f0 p1 r1 f1 q store s0 s1).
Context (c : config) (w0 w : world DBTX) (Hreg : registryOf (dsnsOf c) w0 w).
Context (Hp0 : poolAt (shard0Primary c) = Some p0).

Lemma dual_gives {A} ctx (k : unit -> appM A) Q :
  (forall c1 s2, served p0 r0 f0 p1 r1 f1 q s2 ->
     let '((_, err), calls) := writeOn c1 upsertAccount (upsertValues dualArg) p0 [f0] (st_calls s1) in
     st_calls s2 = calls ->
     match err with
     | Some e => Q (Err (Errorf "dual-write account: %w" [] [e])) (s2, w)
     | None => gives (k tt) (s2, w) Q
     end) ->
  gives (dualWriteToFutureShard (Store_Accounts store) ctx 42 4001 ≫= k) (s1, w) Q.
Proof using Hop.
  intros H. destruct Hop as (-> & _ & Hres & Hserve & _).
  assert (Hkey : resolved q (MkTenantKey 42)) by (eapply resolver_resolves; [exact Hres|by eexists]).
  apply gives_bind, gives_checked, inStore_runs.
  eapply runs_mono; [apply (UpsertAccount_on ErrorType DebugEnabled _ _ _ _ q ctx dualArg [] s1 Hserve Hkey)|].
  intros r s2 [Hm [c1 Hr]]. specialize (H c1 s2 (serves_moved _ _ _ _ _ _ _ Hserve Hm)).
  change (writtenTo _ _ _ _ _) with (p0, [f0]) in Hr. cbn [fst snd] in Hr. rewrite <- Hr in H.
  destruct r as [a [e|]]; specialize (H eq_refl); [exact H|]. by apply gives_ret.
Qed.

(** The transaction, once the pool of the shard is known. *)
Lemma update_gives ctx (k : option Account -> appM unit) s2 Q :
  served p0 r0 f0 p1 r1 f1 q s2 ->
  match pool_Begin p0 with
  | inl e => Q (Err (Errorf "begin transaction: %w" [] [e])) (s2, w)
  | inr tx => forall c2 s3,
      let '((a, err), calls) := writeOn c2 updateAccountName (updateValues updateArg) tx [] (st_calls s2) in
      st_calls s3 = calls ->
      match err, tx_Commit tx with
      | Some e, _ => Q (Err (Errorf "transactional update: %w" [] [e])) (s3, noted w (TxBegun p0 tx :: rollbackEvents tx))
      | None, Some e => Q (Err (Errorf "commit transaction: %w" [] [e]))
          (s3, noted w (TxBegun p0 tx :: TxCommit tx :: rollbackEvents tx))
      | None, None => gives (k a) (s3, noted w [TxBegun p0 tx; TxCommit tx]) Q
      end
  end ->
  gives (updateInTransaction c (Store_Accounts store) ctx 42 4001 ≫= k) (s2, w) Q.
Proof using Hop Hreg Hp0.
  intros Hs2 H. destruct Hop as (-> & _ & Hres & _ & _).
  assert (Hkey : resolved q (MkTenantKey 42)) by (eapply resolver_resolves; [exact Hres|by eexists]).
  apply gives_bind. unfold updateInTransaction.
  apply (gives_seq _ _ _ (fun key x => key = 42 /\ x = (s2, w))); [by eexists _, _|]. intros ? ? [-> ->].
  apply (gives_seq _ _ _ (fun dsn x => dsn = shard0Primary c /\ x = (s2, w))); [by eexists _, _|]. intros ? ? [-> ->].
  apply (gives_seq _ _ _ (fun pool x => pool = p0 /\ x = (s2, w))).
  { unfold poolRegistry_pool. apply runs_bind. eexists _, _. split; [done|]. cbn [snd].
    rewrite (reg_pools _ _ _ _ _ Hreg), bool_decide_eq_true_2, Hp0 by by left. by apply runs_ret. }
  intros ? ? [-> ->]. destruct (pool_Begin p0) as [e|tx]; [exact H|].
  apply gives_note, gives_unlessCommitted, gives_checked, inStore_runs.
  eapply runs_mono; [apply (UpdateAccountName_on ErrorType DebugEnabled _ _ _ _ q ctx updateArg [WithTx (Some tx)] s2 Hs2 Hkey)|].
  intros r s3 [_ [c2 Hr]]. specialize (H c2 s3). change (writtenTo _ _ _ _ _) with (tx, @nil DBTX) in Hr. cbn [fst snd] in Hr.
  rewrite <- Hr in H. destruct r as [a [e|]]; specialize (H eq_refl); [cbn; by rewrite noted_noted|].
  apply gives_note. destruct (tx_Commit tx) as [e|].
  - apply gives_throw. cbn. by rewrite !noted_noted.
  - apply gives_ret. cbn [andThen]. by rewrite noted_noted.
Qed.

End Opened.

Lemma work_returns c1 c2 p f calls o calls' body : work c1 c2 p f calls = (o, calls', body) -> o <> Panic.
Proof.
  unfold work. destruct (writeOn c1 _ _ _ _ _) as [[a [e|]] calls1]; [by intros [= <- _ _]|].
  destruct (pool_Begin p) as [e|tx]; [by intros [= <- _ _]|]. destruct (writeOn c2 _ _ _ _ _) as [[b [e|]] calls2];
    [by intros [= <- _ _]|]. by destruct (tx_Commit tx); intros [= <- _ _].
Qed.

(** The work was done from the world [w] after the pools were opened. *)
Definition worked s w (o : result unit) (x : stateT * world DBTX) : Prop :=
  exists p0 f0 c1 c2 w1 body, poolAt (shard0Primary configured) = Some p0 /\ poolAt (shard0Future configured) = Some f0 /\
    registryOf (dsnsOf configured) w w1 /\ x.2 = noted w1 body /\ work c1 c2 p0 f0 (st_calls s) = (o, st_calls x.1, body).

(** The body of [run]: opening, and the work on the opened store. *)
Lemma body_gives ctx s w :
  metersOk gmp -> heap_wf (st_heap s) -> batchersWf s -> byDSN w = ∅ ->
  gives (store ← createStore ErrorType DebugEnabled gtp gmp configured;
         _ ← dualWriteToFutureShard (Store_Accounts store) ctx 42 4001;
         updated ← updateInTransaction configured (Store_Accounts store) ctx 42 4001;
         updated ← lift (panic_if_none updated);
         note (Printed "account %d: %s\n" [AInt (ID updated); AStr (DisplayName updated)])) (s, w)
    (openPost "open node: %w" "ping node: %w" [] (dsnsOf configured) w (eq s) (worked s w)).
Proof.
  intros Hm Hh Hb Hw. apply gives_bind. eapply gives_mono; [by apply createStore_gives|]. unfold openPost.
  intros o x. destruct (fault [] (dsnsOf configured)) as [[[before dsn] e]|]; [by intros [-> H]|].
  intros (p0 & r0 & f0 & p1 & r1 & f1 & q & store & s1 & w1 & -> & -> & Hreg & Hop & Hp0 & Hf0). cbn [andThen].
  assert (Hc : st_calls s1 = st_calls s) by apply Hop.
  assert (Hwork : forall c1 c2 s2 o body, work c1 c2 p0 f0 (st_calls s) = (o, st_calls s2, body) -> worked s w o (s2, noted w1 body)).
  { intros c1 c2 s2 o body Ho. exists p0, f0, c1, c2, w1, body. by split_and!. }
  eapply dual_gives; [exact Hop|]. intros c1 s2 Hs2. rewrite Hc. specialize (Hwork c1).
  destruct (writeOn c1 _ _ _ _ _) as [[a err] calls] eqn:E1. intros Hc2. unfold work in Hwork. rewrite E1 in Hwork.
  destruct err as [e|]; [rewrite <- (noted_nil w1); apply (Hwork c1); by rewrite Hc2|].
  eapply update_gives; [exact Hop|exact Hreg|exact Hp0|exact Hs2|]. destruct (pool_Begin p0) as [e|tx] eqn:Eb.
  { rewrite <- (noted_nil w1). apply (Hwork c1). by rewrite Hc2. }
  intros c2 s3. specialize (Hwork c2 s3). rewrite Hc2.
  pose proof (writeAs_some scanAccount c2 updateAccountName (updateValues updateArg) tx [] calls) as Hsome.
  destruct (writeOn c2 _ _ _ _ _) as [[b err] calls'] eqn:E2. intros Hc3. rewrite <- Hc3 in Hwork.
  destruct err as [e|]; [by apply Hwork|]. destruct (tx_Commit tx) as [e|]; [by apply Hwork|].
  destruct (Hsome b eq_refl) as [a' ->].
  apply (gives_seq _ _ _ (fun u x => u = a' /\ x = (s3, noted w1 [TxBegun p0 tx; TxCommit tx]))); [by eexists _, _|].
  intros ? ? [-> ->]. apply gives_last. rewrite noted_noted. by apply Hwork.
Qed.

(** C17: The mirrors example, from its environment to its output, for any
    answers of pgx and of the databases. A variable that is not set is the
    error, the first one in order, and nothing happens. Otherwise the DSNs are
    opened in order, each once; the first that does not open or answer is the
    error, its pool is closed and no query runs. Otherwise the account is
    written on the pool of the first shard and then on the pool of its future
    shard, by two calls with the same arguments; after an error of either the
    program stops. Then a transaction begins on the pool of the first shard and
    the update runs in it and on no mirror; the transaction is committed, and
    rolled back when the update or the commit fails, a failing rollback being
    logged. The account is printed if and only if the program succeeds. In every
    case all the pools that were opened are closed, each once and last, and the
    program does not panic. *)
Theorem mirrors_program_correct ctx s w :
  metersOk gmp -> heap_wf (st_heap s) -> batchersWf s ->
  exists o s' w', run ErrorType DebugEnabled gtp gmp ctx (s, w) = (o, (s', w')) /\ o <> Panic /\
  match List.find unset environment with
  | Some name => o = Err (Errorf "%s is required" [AStr name] []) /\ s' = s /\ w' = w
  | None =>
      let dsns := os_Getenv <$> environment in
      match fault [] dsns with
      | Some (before, dsn, e) => o = Err e /\ s' = s /\ exists closes, closes ≡ₚ poolsOf before /\
          events w' = events w ++ (PoolOpened <$> poolsOf before) ++ faultEvents dsn ++ (PoolClosed <$> closes)
      | None => exists p0 f0 c1 c2 body closes, poolAt (shard0Primary configured) = Some p0 /\
          poolAt (shard0Future configured) = Some f0 /\ closes ≡ₚ poolsOf dsns /\
          work c1 c2 p0 f0 (st_calls s) = (o, st_calls s', body) /\
          events w' = events w ++ (PoolOpened <$> poolsOf dsns) ++ body ++ (PoolClosed <$> closes)
      end
  end.
Proof.
  intros Hm Hh Hb. change (os_Getenv <$> environment) with (dsnsOf configured).
  enough (gives (run ErrorType DebugEnabled gtp gmp ctx) (s, w) (fun o x => o <> Panic /\
    match List.find unset environment with
    | Some name => o = Err (Errorf "%s is required" [AStr name] []) /\ x.1 = s /\ x.2 = w
    | None => 
        match fault [] (dsnsOf configured) with
        | Some (before, dsn, e) => o = Err e /\ x.1 = s /\ exists closes, closes ≡ₚ poolsOf before /\
            events x.2 = events w ++ (PoolOpened <$> poolsOf before) ++ faultEvents dsn ++ (PoolClosed <$> closes)
        | None => exists p0 f0 c1 c2 body closes, poolAt (shard0Primary configured) = Some p0 /\
            poolAt (shard0Future configured) = Some f0 /\ closes ≡ₚ poolsOf (dsnsOf configured) /\
            work c1 c2 p0 f0 (st_calls s) = (o, st_calls x.1, body) /\
            events x.2 = events w ++ (PoolOpened <$> poolsOf (dsnsOf configured)) ++ body ++ (PoolClosed <$> closes)
        end
    end)) as H.
  { unfold gives in H. destruct (run _ _ _ _ _ _) as [o [s' w']]. by exists o, s', w'. }
  unfold run. rewrite mirrors_loadConfig. destruct (List.find unset environment) as [name|]; [done|].
  apply (gives_seq _ _ _ (fun c x => c = configured /\ x = (s, w))); [by eexists _, _|]. intros ? ? [-> ->].
  apply (gives_seq _ _ _ (fun _ x => x = (s, World ∅ (events w)))); [by eexists tt, _|]. intros _ ? ->.
  apply gives_deferring. eapply gives_mono; [by apply body_gives|]. unfold openPost. intros o [s1 w1].
  destruct (fault [] (dsnsOf configured)) as [[[before dsn] e]|].
  - intros (-> & Hs & w2 & Hreg & Hw). cbn [fst snd] in Hs, Hw. subst s1 w1. eapply runs_mono; [by apply (registryClose_runs "open node: %w" "ping node: %w" before (World ∅ (events w)))|].
    intros _ x (closes & Hcl & Hx & He). split_and!; [done..|]. by exists closes.
  - intros (p0 & f0 & c1 & c2 & w2 & body & Hp0 & Hf0 & Hreg & Hw & Hwork). cbn [fst snd] in *. subst w1.
    eapply runs_mono; [by apply (registryClose_runs "open node: %w" "ping node: %w" (dsnsOf configured) (World ∅ (events w)))|].
    intros _ x (closes & Hcl & Hx & He). rewrite <- Hx in Hwork. split; [by eapply work_returns|].
    by exists p0, f0, c1, c2, body, closes.
Qed.

End Spec.

(** ** A run *)

#[local] Existing Instance StoreSample.runtime.

Module MirrorsSample.
(** Every variable names the database of its number; the transaction is the
    handle 9, which has the account when the program starts. *)
#[export] Instance platform : Platform nat := {|
  os_Getenv name := "postgres://" +:+ name;
  pgxpool_New dsn :=
    if bool_decide (dsn = "postgres://ADV_SHARD0_PRIMARY_DSN") then inr 1%nat
    else if bool_decide (dsn = "postgres://ADV_SHARD0_MIRROR_DSN") then inr 2%nat else inr 3%nat;
  pool_Ping _ := None;
  pool_Begin _ := inr 9%nat;
  tx_Commit _ := None;
  tx_Rollback _ := None;
  rangeOrder m := (map_to_list m).*2;
  rangeOrder_all m := reflexivity _ |}.

Definition state : storeState nat nat string unit :=
  setCalls [CallQueryRow 9%nat upsertAccount (upsertArgs (MkAccount 4001 42 "before"))] StoreSample.state0.
End MirrorsSample.
#[local] Existing Instance MirrorsSample.platform.

Lemma mirrors_program_correct_witness :
  exists s' w', run sampleErrorType StoreSample.debug sampleTracers sampleMeters sampleContext
      (MirrorsSample.state, World ∅ []) = (Ok tt, (s', w')) /\
    callDB <$> st_calls s' = [9; 1; 2; 9]%nat /\
    exists closes, closes ≡ₚ [1; 3; 2; 3; 3; 3]%nat /\
      events w' = (PoolOpened <$> [1; 3; 2; 3; 3; 3]%nat) ++ [TxBegun 1%nat 9%nat; TxCommit 9%nat;
        Printed "account %d: %s\n" [AInt 4001; AStr "transactional update"]] ++ (PoolClosed <$> closes).
Proof.
  destruct (mirrors_program_correct sampleErrorType StoreSample.debug sampleTracers sampleMeters sampleContext
    MirrorsSample.state (World ∅ []) Sample.meters_ok emptyHeap_wf) as (o & s' & w' & Hrun & _ & H).
  { intros l [b Hb]. discriminate Hb. }
  change (List.find unset environment) with (@None string) in H. cbv beta iota zeta in H.
  destruct (openFault "open node: %w" "ping node: %w" [] (os_Getenv <$> environment)) as [[[before dsn] e]|] eqn:Ef in H; [by vm_compute in Ef|].
  destruct H as (p0 & f0 & c1 & c2 & body & closes & Hp0 & Hf0 & Hcl & Hwork & He).
  injection Hp0 as <-. injection Hf0 as <-.
  pose proof (f_equal (fun x => x.1.1) Hwork) as Ho. pose proof (f_equal (fun x => callDB <$> x.1.2) Hwork) as Hc.
  pose proof (f_equal snd Hwork) as Hbody. cbn [fst snd] in Ho, Hc, Hbody.
  assert (o = Ok tt) as -> by (rewrite <- Ho; vm_compute; reflexivity).
  exists s', w'. split; [exact Hrun|]. split; [rewrite <- Hc; vm_compute; reflexivity|].
  exists closes. split; [exact Hcl|]. rewrite He, <- Hbody. vm_compute. reflexivity.
Defined.
