(* ===== verification/FanoutProgram.v ===== *)
(** * FanoutProgram: queries of several shards (examples/07-multi-shard-queries)

    The program spreads 128 virtual shards over two databases, writes an account
    on each, looks both up in one call and lists all accounts. *)

From S2P Require Import Prelude Errors GoStrings Hasher Balancer Routing Telemetry CopyBatch Builder Topology OpenMesh Tasks StoreQueries Store StoreOps StoreAsync StoreBuild StoreLemmas StoreRefine MemoryDriver StoreOpen StoreFanout StoreCopy StoreLookup Programs ProgramStore TwoShards.

#[local] Open Scope Z_scope.

(** ** The program *)

Section Program.
Context {DBTX : Type} `{!Driver DBTX} `{!Platform DBTX} {RT : Runtime}.
Context {Tracer Instrument Logger : Type}.
Context (ErrorType : error -> KeyValue) (DebugEnabled : Logger -> bool).
Context (gtp : TracerProvider Tracer) (gmp : MeterProvider Instrument).
#[local] Abbreviation stateT := (storeState DBTX Tracer Instrument Logger).
#[local] Abbreviation appM := (stE (stateT * world DBTX) error).
#[local] Abbreviation storeI := (Store (DBTX := DBTX) (Tracer := Tracer) (Instrument := Instrument) (Logger := Logger)).
#[local] Abbreviation accountsI := (Accounts (DBTX := DBTX) (Tracer := Tracer) (Instrument := Instrument) (Logger := Logger)).

(** The loop over [seed]. *)
Fixpoint seedAccounts (accounts : accountsI) (ctx : Context) (seed : list UpsertAccountT) : appM unit :=
  match seed with
  | [] => mret tt
  | account :: seed =>
      _ ← checkedAs (fun e => Errorf "seed account %d: %w" [AInt (ust_ID account)] [e])
            (inStore (Accounts_UpsertAccount accounts ctx (Some account) []));
      seedAccounts accounts ctx seed
  end.

(** The loop over the grouped accounts. *)
Fixpoint printGrouped (index : nat) (grouped : list (option Account)) : appM unit :=
  match grouped with
  | [] => mret tt
  | account :: grouped =>
      account ← lift (panic_if_none account);
      _ ← note (Printed "grouped result %d: tenant=%d name=%q\n"
            [AInt (Z.of_nat index); AInt (TenantID account); AStr (DisplayName account)]);
      printGrouped (S index) grouped
  end.

Definition newStore (shard0 shard1 : DBTX) : appM storeI :=
  openTwoShards ErrorType DebugEnabled gtp gmp "create store: %w" shard0 [] shard1 [] [].

(** The queries; [base] is the time the program starts at, in nanoseconds. *)
Definition queries (accounts : accountsI) (ctx : Context) (baseID : Z) : appM unit :=
  let first := MkUpsertAccountT (MkTenantKey 20) baseID "account on shard zero" in
  let second := MkUpsertAccountT (MkTenantKey 100) (wrap_s 64 (baseID + 1)) "account on shard one" in
  _ ← seedAccounts accounts ctx [first; second];
  grouped ← checked "group account lookup by shard: %w" (inStore (Accounts_ListAccountsByIDs accounts ctx
    [Some (MkListAccountsByIDsT (ust_TenantKey second) (ust_ID second));
     Some (MkListAccountsByIDsT (ust_TenantKey first) (ust_ID first))] [ReadFromPrimary]));
  _ ← printGrouped 0 grouped;
  all ← checked "scatter account list: %w" (inStore (Accounts_ListAllAccounts accounts ctx [ReadFromPrimary]));
  note (Printed "scatter query returned %d total accounts\n" [AInt (Z.of_nat (length all))]).

Definition run (ctx : Context) : appM unit :=
  shard0 ← openPool "MULTI_SHARD0_DSN";
  deferring (note (PoolClosed shard0)) (
    shard1 ← openPool "MULTI_SHARD1_DSN";
    deferring (note (PoolClosed shard1)) (
      store ← newStore shard0 shard1;
      now ← inStore timeNow;
      queries (Store_Accounts store) ctx (wrap_s 64 now))).

End Program.

(** ** What the program does *)

Section Spec.
Context {DBTX : Type} `{!Driver DBTX} `{!Platform DBTX} {RT : Runtime}.
Context {Tracer Instrument Logger : Type}.
Context (ErrorType : error -> KeyValue) (DebugEnabled : Logger -> bool).
Context (gtp : TracerProvider Tracer) (gmp : MeterProvider Instrument).
#[local] Abbreviation stateT := (storeState DBTX Tracer Instrument Logger).
#[local] Abbreviation appM := (stE (stateT * world DBTX) error).
#[local] Abbreviation storeI := (Store (DBTX := DBTX) (Tracer := Tracer) (Instrument := Instrument) (Logger := Logger)).
#[local] Abbreviation storeT := (meshStore DBTX Z Tracer Instrument Logger).
#[local] Abbreviation callsT := (list (dbCall DBTX)).
Implicit Types (s : stateT) (w : world DBTX) (q : storeT).

Section Work.
Context (p0 p1 : DBTX) (base next : Z).

(** A seeded account goes to the primary of its set. *)
Definition seeding (tenant id : Z) (name : string) (d : DBTX) (calls : callsT) (k : callsT -> conduct) : conduct :=
  query (fun e => Errorf "seed account %d: %w" [AInt id] [e])
    (fun r calls' => exists c, (r, calls') = writeOn c upsertAccount [VInt64 id; VInt64 tenant; VText name] d [] calls)
    (fun _ => k).

(** The sets that are asked and their keys, and the keys in the order given. *)
Definition plan : list (string * list Z) := [("shard-0", [base]); ("shard-1", [next])].
Definition requests : list (string * Z) := [("shard-1", next); ("shard-0", base)].

(** One call to the primary of each set, in some order. *)
Definition grouping (calls : callsT) (r : list (option Account) * option error) (calls' : callsT) : Prop :=
  exists asked results, history calls' ≡ₚ history calls ++ concat asked /\
    Forall3 (fun part l result => askedMany listAccountsByIDs [VInt64Array part.2]
      (newReadQueries (New (primaryDB p0 p1 part.1))) result l) plan asked results /\
    r = lookupAnswer requests plan results.

Definition scattering (calls : callsT) (r : list (option Account) * option error) (calls' : callsT) : Prop :=
  exists asked results, history calls' ≡ₚ history calls ++ concat asked /\
    Forall3 (fun n l result => askedMany listAllAccounts [] (newReadQueries (New (primaryDB p0 p1 n))) result l)
      ["shard-0"; "shard-1"] asked results /\
    r = joinResults [] (fun results => concat (fst <$> results)) "query ListAllAccounts on replica set %q: %w"
          ["shard-0"; "shard-1"] results.

Definition groupedEvents (rows : list (option Account)) : list (event DBTX) :=
  imap (fun i a => Printed "grouped result %d: tenant=%d name=%q\n"
    [AInt (Z.of_nat i); AInt (TenantID a); AStr (DisplayName a)]) (omap id rows).

Definition fanoutWork (calls : callsT) : conduct :=
  seeding 20 base "account on shard zero" p0 calls (fun calls =>
  seeding 100 next "account on shard one" p1 calls (fun calls =>
  query (fun e => Errorf "group account lookup by shard: %w" [] [e]) (grouping calls) (fun grouped calls =>
  printingAll (groupedEvents grouped) (
  query (fun e => Errorf "scatter account list: %w" [] [e]) (scattering calls) (fun all calls =>
  printing (Printed "scatter query returned %d total accounts\n" [AInt (Z.of_nat (length all))]) (ending calls)))))).

Lemma fanoutWork_returns calls : returns (fanoutWork calls).
Proof.
  do 3 (apply query_returns; intros). apply printingAll_returns, query_returns. intros.
  apply printing_returns, ending_returns.
Qed.

End Work.

(** ** The queries *)

(** A lookup that succeeds has no nil row. *)
Lemma lookupAnswer_some reqs parts results rows :
  lookupAnswer reqs parts results = (rows, None) -> rows = Some <$> omap id rows.
Proof.
  unfold lookupAnswer. destruct (errorsJoin _); [done|]. destruct (errorsJoin _); [done|]. intros [= <-].
  unfold mergeRows. induction reqs as [|[n k] reqs IH]; [done|]. cbn. rewrite omap_app, fmap_app, <- IH. f_equal.
  clear. induction (default [] _) as [|[a|] l IH]; [done|..]; rewrite filter_cons; destruct (decide _) as [H|]; try done.
  cbn. by f_equal.
Qed.

Lemma printGrouped_gives (m : unit -> appM unit) k index accounts s w :
  let es := imap (fun i a => Printed "grouped result %d: tenant=%d name=%q\n"
    [AInt (Z.of_nat (index + i)); AInt (TenantID a); AStr (DisplayName a)]) accounts in
  gives (m tt) (s, noted w es) (behaves k (noted w es)) ->
  gives (printGrouped index (Some <$> accounts) ≫= m) (s, w) (behaves (printingAll es k) w).
Proof.
  revert index w. induction accounts as [|a accounts IH]; intros index w es H; cbn [printGrouped fmap list_fmap].
  - rewrite (noted_nil w : noted w es = w) in H. apply gives_bind, gives_ret. eapply gives_mono; [exact H|].
    intros o x (rest & Hk & Hx). exists rest. split; [by exists rest|done].
  - apply gives_assoc, gives_deref, gives_assoc, gives_note.
    specialize (IH (S index) (noted w [Printed "grouped result %d: tenant=%d name=%q\n"
      [AInt (Z.of_nat index); AInt (TenantID a); AStr (DisplayName a)]])).
    assert (Ees : es = Printed "grouped result %d: tenant=%d name=%q\n"
      [AInt (Z.of_nat index); AInt (TenantID a); AStr (DisplayName a)] :: imap (fun i a => Printed "grouped result %d: tenant=%d name=%q\n"
      [AInt (Z.of_nat (S index + i)); AInt (TenantID a); AStr (DisplayName a)]) accounts).
    { unfold es. rewrite imap_cons, Nat.add_0_r. f_equal. apply imap_ext. intros i b _. cbn. do 3 f_equal. lia. }
    rewrite Ees in H |- *. clear Ees. cbv zeta in IH. rewrite noted_noted in IH. specialize (IH H).
    eapply gives_mono; [exact IH|]. intros o x (es' & (rest & -> & Hk) & Hx). rewrite noted_noted in Hx.
    eexists. split; [|exact Hx]. by exists rest.
Qed.

Section Queries.
Context (p0 p1 : DBTX) (q : storeT).

Lemma upsert_two ctx tenant id name s w :
  onTwoShards p0 p1 q s -> 0 <= tenant -> mirrorsOf mappings (tenantSet tenant) = [] ->
  runs (inStore (UpsertAccount ErrorType DebugEnabled q ctx (Some (MkUpsertAccountT (MkTenantKey tenant) id name)) []))
    (s, w) (fun r x => x.2 = w /\ onTwoShards p0 p1 q x.1 /\ exists c, (r, st_calls x.1) =
      writeOn c upsertAccount [VInt64 id; VInt64 tenant; VText name] (primaryDB p0 p1 (tenantSet tenant)) [] (st_calls s)).
Proof.
  intros Hq Ht Hm. apply inStore_runs. eapply runs_mono;
    [by apply (upsert_tenant ErrorType DebugEnabled p0 p1 q ctx tenant id name s (ts_resolver _ _ _ _ Hq) (ts_serves _ _ _ _ Hq))|].
  intros r s' [Hmv Hr]. split; [done|]. split; [by eapply onTwoShards_moved|done].
Qed.

Lemma readableAt_primary s n target :
  placedOnTwo p0 p1 q s -> readableAt q s (applyQueryOptions [ReadFromPrimary]) n target ->
  target = newReadQueries (New (primaryDB p0 p1 n)).
Proof.
  intros [Hwf _ Hp] (p & Hin & Hname & Hread). rewrite (readable_primary _ _ _ _ _ _ _ _ Hwf Hp Hin Hread).
  unfold setNamed in Hname. by rewrite Hname.
Qed.

Lemma lookup_two ctx base next s w :
  onTwoShards p0 p1 q s ->
  runs (inStore (ListAccountsByIDs ErrorType DebugEnabled q ctx
      [Some (MkListAccountsByIDsT (MkTenantKey 100) next); Some (MkListAccountsByIDsT (MkTenantKey 20) base)] [ReadFromPrimary]))
    (s, w) (fun r x => x.2 = w /\ placedOnTwo p0 p1 q x.1 /\ grouping p0 p1 base next (st_calls s) r (st_calls x.1)).
Proof.
  intros Hq%onTwoShards_placed. apply inStore_runs.
  destruct (tenant_routable p0 p1 q s 100 Hq ltac:(lia)) as [Hr1 Hs1].
  destruct (tenant_routable p0 p1 q s 20 Hq ltac:(lia)) as [Hr0 Hs0].
  destruct tenants as (E0 & E1 & _). rewrite E0 in Hs0. rewrite E1 in Hs1.
  pose (items := [MkListAccountsByIDsT (MkTenantKey 100) next; MkListAccountsByIDsT (MkTenantKey 20) base]).
  assert (Hplan : lookupPlan q s items = plan base next).
  { unfold lookupPlan. rewrite (setNames_two p0 p1 q s Hq). unfold planOf, partOf, lookupSet, items, keysPlan.
    cbn. rewrite Hs0, Hs1. reflexivity. }
  assert (Hreq : lookupRequests q s items = requests base next).
  { unfold lookupRequests, lookupSet, items. cbn. rewrite Hs0, Hs1. reflexivity. }
  eapply runs_mono; [apply (ListAccountsByIDs_runs ErrorType DebugEnabled q s ctx items); [apply Hq|by repeat apply Forall_cons_2]|].
  intros r s' [Hk Hl]. split; [done|]. split; [by eapply placedOnTwo_kept|].
  unfold lookedUp in Hl. rewrite Hplan, Hreq in Hl. cbn [qo_tx applyQueryOptions isSome andb] in Hl.
  destruct Hl as (asked & results & Hh & Hall & Hr & _). exists asked, results. split_and!; [done| |done].
  eapply Forall3_impl; [exact Hall|]. intros part l result (target & Hread & Ha). by rewrite <- (readableAt_primary _ _ _ Hq Hread).
Qed.

Lemma list_two ctx s w :
  placedOnTwo p0 p1 q s ->
  runs (inStore (ListAllAccounts ErrorType DebugEnabled q ctx [ReadFromPrimary])) (s, w)
    (fun r x => x.2 = w /\ placedOnTwo p0 p1 q x.1 /\ scattering p0 p1 (st_calls s) r (st_calls x.1)).
Proof.
  intros Hq. apply inStore_runs.
  eapply runs_mono; [apply (ListAllAccounts_runs ErrorType DebugEnabled q s ctx); apply Hq|].
  intros r s' [Hk Hl]. split; [done|]. split; [by eapply placedOnTwo_kept|].
  unfold listedAll in Hl. cbn [qo_tx applyQueryOptions isSome] in Hl. rewrite (setNames_two p0 p1 q s Hq) in Hl.
  destruct Hl as (asked & results & Hh & Hall & Hr). exists asked, results. split_and!; [done| |done].
  rewrite <- (setNames_two p0 p1 q s Hq). eapply Forall3_names; [exact Hall|]. intros p l result Hp (target & Hread & Ha).
  by rewrite <- (readable_primary _ _ _ _ _ _ _ _ (po_wf _ _ _ _ Hq) (po_placed _ _ _ _ Hq) Hp Hread).
Qed.

(** The queries on the opened store. *)
Lemma queries_gives ctx base s w :
  onTwoShards p0 p1 q s ->
  gives (queries (groupedAccounts ErrorType DebugEnabled q) ctx base) (s, w)
    (behaves (fanoutWork p0 p1 base (wrap_s 64 (base + 1)) (st_calls s)) w).
Proof.
  intros Hq. destruct tenants as (E0 & E1 & M0 & M1). unfold queries, seedAccounts. cbv zeta.
  pose proof (upsert_two ctx 20 base "account on shard zero" s w Hq ltac:(lia) M0) as H0. rewrite E0 in H0.
  apply gives_assoc. eapply gives_query; [exact H0|]. intros a0 s0 Hq0 _. apply gives_assoc.
  pose proof (upsert_two ctx 100 (wrap_s 64 (base + 1)) "account on shard one" s0 w Hq0 ltac:(lia) M1) as H1. rewrite E1 in H1.
  eapply gives_query; [exact H1|]. intros a1 s1 Hq1 _. apply gives_bind, gives_ret. cbn [andThen].
  eapply gives_query; [by apply lookup_two|]. intros grouped s2 Hq2 (asked & results & _ & _ & Hrows).
  symmetry in Hrows. apply lookupAnswer_some in Hrows. rewrite Hrows at 1.
  apply printGrouped_gives.
  eapply gives_query; [by apply list_two|]. intros all s3 _ _. apply gives_print.
Qed.

End Queries.
(** C18: The multi-shard example, from its environment to its output, for any
    answers of pgx and of the databases and whatever the order in which the
    goroutines of its queries run. A variable that is not set, or a pool that
    does not open or answer, is the error, the first shard's before the
    second's, and no query runs. Otherwise the account of tenant 20 is written
    on the first shard and that of tenant 100 on the second; then each shard is
    asked once for the account it has, and once for all its accounts, in any
    order between the two. The rows of the lookup are printed in the order in
    which their keys were given and none is nil; the last line has the number
    of all rows. The first error ends the program under the name of its step.
    Then the pools are closed, each once, the second shard's first. The program
    does not panic. *)
Theorem fanout_program_correct ctx s w :
  metersOk gmp -> heap_wf (st_heap s) -> batchersWf s ->
  exists o s' w', run ErrorType DebugEnabled gtp gmp ctx (s, w) = (o, (s', w')) /\ o <> Panic /\
  match variableFault "MULTI_SHARD0_DSN", variableFault "MULTI_SHARD1_DSN" with
  | Some e, _ => o = Err e /\ st_calls s' = st_calls s /\ events w' = events w ++ variableEvents "MULTI_SHARD0_DSN"
  | None, Some e => o = Err e /\ st_calls s' = st_calls s /\ exists p0, poolFor "MULTI_SHARD0_DSN" = Some p0 /\
      events w' = events w ++ [PoolOpened p0] ++ variableEvents "MULTI_SHARD1_DSN" ++ [PoolClosed p0]
  | None, None => exists p0 p1 base es, poolFor "MULTI_SHARD0_DSN" = Some p0 /\ poolFor "MULTI_SHARD1_DSN" = Some p1 /\
      fanoutWork p0 p1 base (wrap_s 64 (base + 1)) (st_calls s) o (st_calls s') es /\
      events w' = events w ++ [PoolOpened p0; PoolOpened p1] ++ es ++ [PoolClosed p1; PoolClosed p0]
  end.
Proof.
  intros Hm Hh Hb. apply gives_run. unfold run.
  apply gives_bind. eapply gives_mono; [apply openPool_gives|].
  intros o x. destruct (variableFault "MULTI_SHARD0_DSN") as [e|]; [by intros [-> ->]|]. intros (p0 & Hp0 & -> & ->).
  cbn [andThen]. apply gives_deferring, gives_bind. eapply gives_mono; [apply openPool_gives|].
  intros o x. destruct (variableFault "MULTI_SHARD1_DSN") as [e|].
  { intros [-> ->]. eexists tt, _. split; [done|]. split; [done|]. split; [done|]. split; [done|].
    exists p0. split; [done|]. cbn. by rewrite <- !app_assoc. }
  intros (p1 & Hp1 & -> & ->). cbn [andThen]. rewrite noted_noted.
  eapply gives_mono; [apply (closing_gives _ _ (fun o calls es => exists base,
    fanoutWork p0 p1 base (wrap_s 64 (base + 1)) (st_calls s) o calls es) [PoolClosed p1]); [by eexists tt, _|]|].
  { apply (openTwoShards_gives ErrorType DebugEnabled gtp gmp p0 p1 "create store: %w" [] [] [] None None);
      [done|done|apply valid_primaries|done..|].
    intros q store s1 Hop. pose proof (opened_onTwoShards _ _ _ _ _ _ _ _ _ _ _ Hop) as Hq. destruct Hop as (-> & <- & _).
    apply (gives_seq _ _ _ (fun _ x => x.2 = noted w ([PoolOpened p0] ++ [PoolOpened p1]) /\ onTwoShards p0 p1 q x.1 /\
      st_calls x.1 = st_calls s1)); [|intros now [s2 w2] (Hw & Hq2 & Hc); cbn [fst snd] in *; subst w2; rewrite <- Hc].
    { eexists _, _. split; [reflexivity|]. split; [done|]. split; [|done]. eapply onTwoShards_moved; [exact Hq|]. by split. }
    eapply gives_mono; [by apply queries_gives|]. intros o x (es & Hk & Hx). exists es. split; [|done]. by eexists. }
  intros o [s' w'] (es & (base & Hk) & He). cbn [fst snd] in Hk, He. eexists tt, _. split; [done|].
  split; [exact (fanoutWork_returns _ _ _ _ _ _ _ _ Hk)|]. exists p0, p1, base, es. split_and!; [done..|].
  cbn [snd]. cbn. rewrite He. cbn [noted events]. by rewrite <- !app_assoc.
Qed.

End Spec.

(** ** A run *)

#[local] Existing Instance StoreSample.runtime.

Module FanoutProgramSample.
(** The databases 1 and 2 have no account when the program starts. *)
#[export] Instance platform : Platform nat := {|
  os_Getenv name := name;
  pgxpool_New dsn := if bool_decide (dsn = "MULTI_SHARD0_DSN") then inr 1%nat else inr 2%nat;
  pool_Ping _ := None;
  pool_Begin _ := inl (ErrorText "no transactions");
  tx_Commit _ := None;
  tx_Rollback _ := None;
  rangeOrder m := (map_to_list m).*2;
  rangeOrder_all m := reflexivity _ |}.
End FanoutProgramSample.
#[local] Existing Instance FanoutProgramSample.platform.

Lemma fanout_program_correct_witness :
  exists s' w', run sampleErrorType StoreSample.debug sampleTracers sampleMeters sampleContext
      (StoreSample.state0, World ∅ []) = (Ok tt, (s', w')) /\
    events w' = [PoolOpened 1%nat; PoolOpened 2%nat;
      Printed "grouped result %d: tenant=%d name=%q\n" [AInt 0; AInt 100; AStr "account on shard one"];
      Printed "grouped result %d: tenant=%d name=%q\n" [AInt 1; AInt 20; AStr "account on shard zero"];
      Printed "scatter query returned %d total accounts\n" [AInt 2]; PoolClosed 2%nat; PoolClosed 1%nat].
Proof.
  destruct (fanout_program_correct sampleErrorType StoreSample.debug sampleTracers sampleMeters sampleContext
    StoreSample.state0 (World ∅ []) Sample.meters_ok emptyHeap_wf) as (o & s' & w' & Hrun & _ & _).
  { intros l [b Hb]. discriminate Hb. }
  assert (H : (fun r => (r.1, events r.2.2)) (run sampleErrorType StoreSample.debug sampleTracers sampleMeters sampleContext
      (StoreSample.state0, World ∅ [])) = (Ok tt, [PoolOpened 1%nat; PoolOpened 2%nat;
      Printed "grouped result %d: tenant=%d name=%q\n" [AInt 0; AInt 100; AStr "account on shard one"];
      Printed "grouped result %d: tenant=%d name=%q\n" [AInt 1; AInt 20; AStr "account on shard zero"];
      Printed "scatter query returned %d total accounts\n" [AInt 2]; PoolClosed 2%nat; PoolClosed 1%nat]))
    by (vm_compute; reflexivity).
  rewrite Hrun in H. cbn [fst snd] in H. injection H as Ho He. exists s', w'. rewrite <- Ho. split; [exact Hrun|exact He].
Defined.
