(* ===== verification/SingletonStore.v ===== *)
(** * SingletonStore: the sharded package's store over one database

    [Singleton] of examples/internal/sharded opens a store with one replica set:
    every tenant is on it. The lemmas say what opening it gives, that it serves
    the one route every key has, and which database a plain read asks. *)

From S2P Require Import Prelude Errors GoStrings Hasher Balancer Routing Telemetry CopyBatch Builder Topology OpenMesh Tasks StoreQueries Store StoreOps StoreAsync StoreBuild StoreLemmas StoreRefine StoreOpen OneStore OneRefine Programs ProgramStore.

#[local] Open Scope Z_scope.

Section Singleton.
Context {DBTX : Type} `{!Driver DBTX} {RT : Runtime}.
Context {Tracer Instrument Logger : Type}.
Context (ErrorType : error -> KeyValue) (DebugEnabled : Logger -> bool).
Context (gtp : TracerProvider Tracer) (gmp : MeterProvider Instrument).
#[local] Abbreviation stateT := (storeState DBTX Tracer Instrument Logger).
#[local] Abbreviation storeT := (meshStore DBTX Z Tracer Instrument Logger).
#[local] Abbreviation optsT := (StoreBuild.storeOptions (DBTX := DBTX) (Tracer := Tracer) (Instrument := Instrument)
  (Logger := Logger)).
#[local] Abbreviation storeI := (StoreBuild.Store (DBTX := DBTX) (Tracer := Tracer) (Instrument := Instrument) (Logger := Logger)).
Implicit Types (q : storeT) (s : stateT).

(** The store [store] over the primary [p], its replicas and its mirrors. *)
Definition openedSingleton (options : optsT) p replicas mirrors q (store : storeI) s s' : Prop :=
  store = StoreBuild.initializeGroups ErrorType DebugEnabled q options /\
  servesOne p replicas mirrors q s' /\ st_calls s' = st_calls s.

Lemma singleton_opens c (options : optsT) p s :
  metersOk gmp -> metersOk (default gmp (StoreBuild.so_meterProvider options)) ->
  Validate (batchConfigOf options) = None -> heap_wf (st_heap s) -> batchersWf s ->
  sc_primary c = Some p -> singletonFault c = None ->
  runs (StoreBuild.singleton_buildStore ErrorType DebugEnabled gtp gmp (Ok c) options) s
    (fun r s' => openedSingleton options p (omap id (sc_replicas c)) (omap id (sc_mirrors c)) r.1 r.2 s s').
Proof.
  intros Hg Hm Hv Hwf Hb Hp Hfault. unfold singletonFault in Hfault. rewrite Hp in Hfault.
  destruct (firstNil (sc_replicas c)) as [i|] eqn:Hr; [done|]. destruct (firstNil (sc_mirrors c)) as [i|] eqn:Hmi; [done|].
  destruct (isBlank (singletonName c)) eqn:Hblank; [done|].
  unfold StoreBuild.singleton_buildStore. apply runs_bind. exists c, s. split; [done|]. fold (singletonName c).
  rewrite Hp, !requireAll_spec, Hr, Hmi. do 3 (apply runs_bind; eexists _, _; split; [reflexivity|]; cbn beta).
  destruct (makeSet_runs (singletonName c) p (omap id (sc_replicas c)) (omap id (sc_mirrors c)) s Hwf)
    as (l & s1 & Hmake & Hwf1 & _ & (h & ->) & st & Hst & Hname & Hset & Hpri & Hmir).
  apply stE_bind_inv in Hmake as (l0 & s0 & Hnew & Hwith).
  apply runs_bind. exists l0, s0. split; [exact Hnew|]. apply runs_bind. exists l, (setHeap h s). split; [exact Hwith|].
  destruct (oneBuilder_ok gtp gmp (StoreBuild.so_tracerProvider options) (StoreBuild.so_meterProvider options)
    (StoreBuild.so_logger options) l Hg Hm) as (b & Hbd & He & Hvs & Hh & Htel & Hdur). cbv zeta in He, Hvs, Hh, Htel, Hdur.
  assert (nameOf h l = Some (singletonName c)) as Hn by (unfold nameOf; cbn in Hst; by rewrite Hst, <- Hname).
  pose proof (oneBuild_runs _ l _ _ He Hvs Hh Hn) as Hbuild. rewrite Hblank in Hbuild.
  apply (runs_seq _ _ _ (fun x s' => x = b /\ s' = setHeap h s)); [exists b, (setHeap h s); unfold lift; by rewrite Hbd|].
  intros ? ? [-> ->].
  apply (runs_seq _ _ _ (fun x s' => s' = setHeap h s /\ virtualShards x = [l] /\ replicaSets x = [l] /\
    hasher x = NewConstantShardHasher 0 /\ telemetryOk (telemetry x) /\ is_Some (storeDuration (telemetry x)))).
  { eexists _, (setHeap h s). split; [unfold onHeap, zoomM; cbn [st_heap setHeap]; by rewrite Hbuild|]. by split_and!. }
  intros mesh ? (-> & Hsh & Hsets & Hhash & Hok & Hd).
  eapply runs_mono; [apply (finishStore_runs ErrorType DebugEnabled mesh None 0 options (setHeap h s)); [exact Hok|exact Hv|exact Hb|..]|].
  { unfold ReplicaSets. rewrite Hsets. split; [intros x ->%list_elem_of_singleton; by exists (singletonName c)|].
    by intros x y n ->%list_elem_of_singleton ->%list_elem_of_singleton. }
  { unfold ReplicaSets. rewrite Hsets. apply NoDup_singleton. }
  intros [q store] s2 (id & cab & -> & -> & _ & Hbf). split; [done|].
  split; [|by rewrite (bf_calls _ _ _ _ _ Hbf)]. pose proof (bf_heap _ _ _ _ _ Hbf) as Hheap.
  cbn [fst]. split; rewrite ?Hheap; cbn [ms_mesh ms_zero]; [done..|].
  exists {| rsh_virtualShardIndex := 0; rsh_replicaSet := l |}, st. split_and!; [|done..].
  unfold Resolve. by rewrite Hhash, Hsh.
Qed.

(** Every key has the one route. *)
Lemma singleton_serves p replicas q s (name : string) :
  servesOne p replicas [] q s -> serves [name] (fun _ => p) (fun _ => name) (fun _ => []) q s.
Proof.
  intros [Ht _ Hwf Hres (shard & st & Hr & Hst & Hset & Hpri & Hmir)]. split; [done..|]. intros key k Hk.
  unfold shardKeyOf in Hk. rewrite Hres in Hk. injection Hk as <-. split; [by left|]. split; [set_solver|].
  by exists shard, st, (newStoreNode <$> replicas).
Qed.

Lemma singleton_resolved p replicas mirrors q s key : servesOne p replicas mirrors q s -> resolved q key.
Proof. intros H. unfold resolved, shardKeyOf. by rewrite (so_resolver _ _ _ _ _ H). Qed.

(** The databases a plain read may ask. *)
Definition readDatabases (p : DBTX) (replicas : list DBTX) : list DBTX :=
  match replicas with [] => [p] | _ => replicas end.

Lemma readTargets_databases p replicas (target : readQueries DBTX) :
  target ∈ (nt_value <$> readTargetsOf (newStoreNode p) (newStoreNode <$> replicas)) ->
  exists d, d ∈ readDatabases p replicas /\ target = newReadQueries (New d).
Proof.
  destruct replicas as [|r rs]; [intros ->%list_elem_of_singleton; exists p; by split; [left|]|].
  unfold readTargetsOf, readDatabases. intros (t & -> & (i & n & -> & Hn)%elem_of_lookup_imap)%list_elem_of_fmap.
  change (newStoreNode r :: (newStoreNode <$> rs)) with (newStoreNode <$> (r :: rs)) in Hn. rewrite list_lookup_fmap in Hn. destruct ((r :: rs) !! i) as [d|] eqn:Hd; [|done].
  injection Hn as <-. exists d. split; [by eapply list_elem_of_lookup_2|done].
Qed.

Lemma GetAccount_reader p replicas mirrors q ctx arg s :
  servesOne p replicas mirrors q s ->
  runs (GetAccount ErrorType DebugEnabled q ctx (Some arg) []) s (fun r s' => moved s s' /\
    exists ctx' d, d ∈ readDatabases p replicas /\ (r, st_calls s') = readOn ctx' getAccount (getValues arg) d (st_calls s)).
Proof.
  intros Hserve. destruct (Hserve) as [Ht _ Hwf Hres (shard & st & Hsh & Hst & Hset & Hpri & Hmir)].
  eapply (routedRead_runs ErrorType DebugEnabled None); [done|done|by unfold shardKeyOf; rewrite Hres|done..|].
  intros target ctx' s1 H1 Htgt. unfold readTarget in Htgt. cbn in Htgt. rewrite Hpri in Htgt.
  apply readTargets_databases in Htgt as (d & Hd & ->).
  eapply runs_mono; [apply (inServed_runs _ s s1 (readOn ctx' getAccount (getValues arg) d)); [exact H1|]|].
  { apply (reader_on scanAccount ctx' _ _ (fun m => Queries_GetAccount m ctx' (GetAccountT_sqlcParams arg))).
    intros d' calls'. apply row_query. }
  intros r s2 [Hsp H]. split; [done|]. intros s3 [H3 E]%H. split; [done|]. by exists ctx', d.
Qed.

Lemma servesOne_moved p replicas mirrors q s s' :
  servesOne p replicas mirrors q s -> moved s s' -> servesOne p replicas mirrors q s'.
Proof. intros Hs Hm. eapply servesOne_frame; [|exact Hm]. by apply servesOne_setCalls. Qed.

(** A write and a strong read are on the primary. *)
Lemma UpsertAccount_singleton p replicas q ctx arg s :
  servesOne p replicas [] q s ->
  runs (UpsertAccount ErrorType DebugEnabled q ctx (Some arg) []) s (fun r s' => moved s s' /\
    exists ctx', (r, st_calls s') = writeOn ctx' upsertAccount (upsertValues arg) p [] (st_calls s)).
Proof.
  intros Hs. apply (UpsertAccount_on ErrorType DebugEnabled ["accounts"] (fun _ => p) (fun _ => "accounts") (fun _ => []) q ctx arg []);
    [by eapply singleton_serves|by eapply singleton_resolved].
Qed.

Lemma GetAccount_singleton p replicas q ctx arg s :
  servesOne p replicas [] q s ->
  runs (GetAccount ErrorType DebugEnabled q ctx (Some arg) [ReadFromPrimary]) s (fun r s' => moved s s' /\
    exists ctx', (r, st_calls s') = readOn ctx' getAccount (getValues arg) p (st_calls s)).
Proof.
  intros Hs. apply (GetAccount_primary ErrorType DebugEnabled ["accounts"] (fun _ => p) (fun _ => "accounts") (fun _ => []) q ctx arg);
    [by eapply singleton_serves|by eapply singleton_resolved].
Qed.

(** The queries of the settings package on such a store. *)
Lemma GetSetting_on p mirrors q ctx key s :
  servesOne p [] mirrors q s ->
  runs (GetSetting ErrorType DebugEnabled q ctx key []) s (fun r s' => moved s s' /\ exists ctx',
    (r, st_calls s') = readAs scanSetting ctx' getSetting [VText key] p (st_calls s)).
Proof.
  intros Hserve. destruct (Hserve) as [Ht _ Hwf Hres (shard & st & Hsh & Hst & Hset & Hpri & Hmir)].
  eapply (routedRead_runs ErrorType DebugEnabled None); [done|done|by unfold shardKeyOf; rewrite Hres|done..|].
  intros target ctx' s1 H1 Htgt. unfold readTarget in Htgt. cbn in Htgt. rewrite Hpri in Htgt.
  apply list_elem_of_singleton in Htgt as ->.
  eapply runs_mono; [apply (inServed_runs _ s s1 (readAs scanSetting ctx' getSetting [VText key] p)); [exact H1|]|].
  { apply (reader_on scanSetting ctx' _ _ (fun m => Queries_GetSetting m ctx' key)). intros d calls. apply row_query. }
  intros r s2 [Hsp H]. split; [done|]. intros s3 [H3 E]%H. split; [done|]. by exists ctx'.
Qed.

Lemma UpsertSetting_on p replicas mirrors q ctx arg s :
  servesOne p replicas mirrors q s ->
  runs (UpsertSetting ErrorType DebugEnabled q ctx (Some arg) []) s (fun r s' => moved s s' /\ exists ctx',
    (r, st_calls s') = writeAs scanSetting ctx' upsertSetting [VText (OneStore.usp_Key arg); VText (OneStore.usp_Value arg)]
      p mirrors (st_calls s)).
Proof.
  intros Hserve. destruct (Hserve) as [Ht _ Hwf Hres (shard & st & Hsh & Hst & Hset & Hpri & Hmir)].
  eapply (routedWrite_runs ErrorType DebugEnabled None); [done|by unfold shardKeyOf; rewrite Hres|done..|].
  intros ctx' s1 H1. rewrite (writeTarget_databases st p mirrors) by done.
  apply runs_bind. eexists _, _. split; [reflexivity|].
  eapply runs_mono; [apply (inServed_runs _ s s1 (writeAs scanSetting ctx' upsertSetting
    [VText (OneStore.usp_Key arg); VText (OneStore.usp_Value arg)] p mirrors)); [exact H1|]|].
  { apply (writer_on scanSetting ctx' _ _ (fun m => Queries_UpsertSetting m ctx' arg)). intros d calls. apply row_query. }
  intros r s2 [Hsp H]. split; [done|]. intros s3 [H3 E]%H. split; [done|]. by exists ctx'.
Qed.

(** A store serves its routes when another one is opened beside it. *)
Lemma serves_grown names primaryDB route mirrors q s s' :
  serves names primaryDB route mirrors q s -> heapGrows (st_heap s) (st_heap s') -> serves names primaryDB route mirrors q s'.
Proof.
  intros [Ht Hh Hr] [Hwf Hsets Hset]. split; [done|auto|]. intros key k Hk.
  destruct (Hr key k Hk) as (Hin & Hm & shard & st & rs & ? & Hp & Hst & ? & ?).
  split_and!; [done..|]. exists shard, st, rs. by split_and!; auto.
Qed.

End Singleton.
