(* ===== verification/ReadWriteProgram.v ===== *)
(** * ReadWriteProgram: one database and a read replica (examples/01-single-database, examples/02-read-write-split)

    Both programs open a singleton topology of the sharded package: the first
    over one pool, the second over a primary and a replica. They write an
    account and read it back. *)

From S2P Require Import Prelude Errors GoStrings Hasher Balancer Routing Telemetry CopyBatch Builder Topology OpenMesh Tasks StoreQueries Store StoreOps StoreAsync StoreBuild StoreLemmas StoreRefine MemoryDriver StoreOpen OneStore OneRefine Programs ProgramStore SingletonStore.

#[local] Open Scope Z_scope.

(** ** The programs *)

Section Program.
Context {DBTX : Type} `{!Driver DBTX} `{!Platform DBTX} {RT : Runtime}.
Context {Tracer Instrument Logger : Type}.
Context (ErrorType : error -> KeyValue) (DebugEnabled : Logger -> bool).
Context (gtp : TracerProvider Tracer) (gmp : MeterProvider Instrument).
#[local] Abbreviation stateT := (storeState DBTX Tracer Instrument Logger).
#[local] Abbreviation appM := (stE (stateT * world DBTX) error).
#[local] Abbreviation storeI := (StoreBuild.Store (DBTX := DBTX) (Tracer := Tracer) (Instrument := Instrument) (Logger := Logger)).
#[local] Abbreviation accountsI := (StoreBuild.Accounts (DBTX := DBTX) (Tracer := Tracer) (Instrument := Instrument) (Logger := Logger)).

Definition newSingletonStore (c : result (singletonConfig (DBTX := DBTX))) : appM storeI :=
  inStore (StoreBuild.NewStore (Some (fun options =>
    '(_, store) ← StoreBuild.singleton_buildStore ErrorType DebugEnabled gtp gmp c options; mret store)) []).

(** *** 02-read-write-split *)

Record databasePools := DatabasePools { dp_primary : DBTX; dp_replica : DBTX }.

Definition openDatabasePools : appM databasePools :=
  primary ← openPool "RW_PRIMARY_DSN";
  replica ← handling (fun err => _ ← note (PoolClosed primary); throw err) (openPool "RW_REPLICA_DSN");
  mret (DatabasePools primary replica).

Definition databasePools_close (p : databasePools) : appM unit :=
  _ ← note (PoolClosed (dp_replica p)); note (PoolClosed (dp_primary p)).

Definition newAccountsStore (pools : databasePools) : appM storeI :=
  newSingletonStore (Singleton (Some (dp_primary pools))
    [Some (WithDatabaseName "accounts"); Some (WithReadReplicas [Some (dp_replica pools)])]).

Definition writeAccount (accounts : accountsI) (ctx : Context) : appM (option Account) :=
  checked "write primary: %w" (inStore (Accounts_UpsertAccount accounts ctx
    (Some (MkUpsertAccountT (MkTenantKey 42) 2001 "primary write")) [])).

Definition accountKey (account : option Account) : result GetAccountT :=
  account ← panic_if_none account; mret (MkGetAccountT (MkTenantKey (TenantID account)) (ID account)).

Definition printPrimaryRead (accounts : accountsI) (ctx : Context) (account : option Account) : appM unit :=
  key ← lift (accountKey account);
  strong ← checked "read primary: %w" (inStore (Accounts_GetAccount accounts ctx (Some key) [ReadFromPrimary]));
  strong ← lift (panic_if_none strong);
  note (Printed "strong read: %s\n" [AStr (DisplayName strong)]).

Definition printReplicaRead (accounts : accountsI) (ctx : Context) (account : option Account) : appM unit :=
  key ← lift (accountKey account);
  replicaCopy ← checked "read replica (check replication and lag): %w"
    (inStore (Accounts_GetAccount accounts ctx (Some key) []));
  replicaCopy ← lift (panic_if_none replicaCopy);
  note (Printed "replica read: %s\n" [AStr (DisplayName replicaCopy)]).

Definition run (ctx : Context) : appM unit :=
  pools ← openDatabasePools;
  deferring (databasePools_close pools) (
    store ← newAccountsStore pools;
    let accounts := Store_Accounts store in
    account ← writeAccount accounts ctx;
    _ ← printPrimaryRead accounts ctx account;
    printReplicaRead accounts ctx account).

(** *** 01-single-database *)

Definition openDatabase : appM DBTX :=
  let dsn := os_Getenv "SINGLE_DATABASE_DSN" in
  if bool_decide (dsn = "") then throw (ErrorText "SINGLE_DATABASE_DSN is required")
  else connect "open database: %w" "ping database: %w" [] dsn.

Definition createAccount (accounts : accountsI) (ctx : Context) : appM (option Account) :=
  checked "upsert account: %w" (inStore (Accounts_UpsertAccount accounts ctx
    (Some (MkUpsertAccountT (MkTenantKey 42) 1001 "single database")) [])).

Definition loadAndPrintAccount (accounts : accountsI) (ctx : Context) (account : option Account) : appM unit :=
  key ← lift (accountKey account);
  loaded ← checked "get account: %w" (inStore (Accounts_GetAccount accounts ctx (Some key) []));
  loaded ← lift (panic_if_none loaded);
  note (Printed "account %d: %s\n" [AInt (ID loaded); AStr (DisplayName loaded)]).

Definition runSingle (ctx : Context) : appM unit :=
  pool ← openDatabase;
  deferring (note (PoolClosed pool)) (
    queries ← newSingletonStore (Singleton (Some pool) [Some (WithDatabaseName "accounts")]);
    let accounts := Store_Accounts queries in
    account ← createAccount accounts ctx;
    loadAndPrintAccount accounts ctx account).

End Program.

(** ** What the programs do *)

Section Spec.
Context {DBTX : Type} `{!Driver DBTX} `{!Platform DBTX} {RT : Runtime}.
Context {Tracer Instrument Logger : Type}.
Context (ErrorType : error -> KeyValue) (DebugEnabled : Logger -> bool).
Context (gtp : TracerProvider Tracer) (gmp : MeterProvider Instrument).
#[local] Abbreviation stateT := (storeState DBTX Tracer Instrument Logger).
#[local] Abbreviation appM := (stE (stateT * world DBTX) error).
#[local] Abbreviation storeI := (StoreBuild.Store (DBTX := DBTX) (Tracer := Tracer) (Instrument := Instrument) (Logger := Logger)).
#[local] Abbreviation callsT := (list (dbCall DBTX)).
#[local] Abbreviation storeT := (meshStore DBTX Z Tracer Instrument Logger).
Implicit Types (s : stateT) (w : world DBTX) (q : storeT).

(** The write on the primary [p], the strong read on it and the plain read on
    the replica [r]. *)
Definition readWriteWork (p r : DBTX) (calls : callsT) : conduct :=
  step "write primary: %w" (fun c => writeOn c upsertAccount [VInt64 2001; VInt64 42; VText "primary write"] p [] calls)
    (fun account calls =>
  step "read primary: %w" (fun c => readOn c getAccount (getValues (keyOfAccount account)) p calls) (fun strong calls =>
  printing (Printed "strong read: %s\n" [AStr (DisplayName strong)]) (
  step "read replica (check replication and lag): %w"
    (fun c => readOn c getAccount (getValues (keyOfAccount account)) r calls) (fun replicaCopy calls =>
  printing (Printed "replica read: %s\n" [AStr (DisplayName replicaCopy)]) (ending calls))))).

Definition singleWork (p : DBTX) (calls : callsT) : conduct :=
  step "upsert account: %w" (fun c => writeOn c upsertAccount [VInt64 1001; VInt64 42; VText "single database"] p [] calls)
    (fun account calls =>
  step "get account: %w" (fun c => readOn c getAccount (getValues (keyOfAccount account)) p calls) (fun loaded calls =>
  printing (Printed "account %d: %s\n" [AInt (ID loaded); AStr (DisplayName loaded)]) (ending calls))).

Lemma works_return p r calls : returns (readWriteWork p r calls) /\ returns (singleWork p calls).
Proof. split; repeat (apply step_returns; intros) || apply printing_returns || apply ending_returns. Qed.

(** Opening the store of a program. *)
Lemma newSingletonStore_gives c p s w (k : storeI -> appM unit) Q :
  metersOk gmp -> heap_wf (st_heap s) -> batchersWf s -> sc_primary c = Some p -> singletonFault c = None ->
  (forall q s1, servesOne p (omap id (sc_replicas c)) (omap id (sc_mirrors c)) q s1 -> st_calls s1 = st_calls s ->
     gives (k (StoreBuild.initializeGroups ErrorType DebugEnabled q (StoreBuild.StoreOptions None None None None None None))) (s1, w) Q) ->
  gives (newSingletonStore ErrorType DebugEnabled gtp gmp (Ok c) ≫= k) (s, w) Q.
Proof.
  intros Hm Hh Hb Hp Hfault Hk.
  apply (gives_seq _ _ _ (fun store x => exists q s1, store = StoreBuild.initializeGroups ErrorType DebugEnabled q
    (StoreBuild.StoreOptions None None None None None None) /\ servesOne p (omap id (sc_replicas c)) (omap id (sc_mirrors c)) q s1 /\
    st_calls s1 = st_calls s /\ x = (s1, w))).
  - apply inStore_runs. unfold StoreBuild.NewStore. apply runs_bind. eexists _, s. split; [reflexivity|].
    eapply runs_seq; [by apply (singleton_opens ErrorType DebugEnabled gtp gmp c _ p)|].
    intros [q store] s1 (Hst & Hs & Hc). cbn [fst snd] in *. subst store. apply runs_ret. by exists q, s1.
  - intros ? ? (q & s1 & -> & Hs & Hc & ->). by apply Hk.
Qed.

(** What follows the opening of the pools. *)
Lemma readWrite_gives p r ctx s w :
  metersOk gmp -> heap_wf (st_heap s) -> batchersWf s ->
  gives (store ← newAccountsStore ErrorType DebugEnabled gtp gmp (DatabasePools p r);
         account ← writeAccount (Store_Accounts store) ctx;
         _ ← printPrimaryRead (Store_Accounts store) ctx account;
         printReplicaRead (Store_Accounts store) ctx account) (s, w) (behaves (readWriteWork p r (st_calls s)) w).
Proof.
  intros Hm Hh Hb. unfold newAccountsStore.
  change (Singleton _ _) with (Ok (E := error) (SingletonConfig "accounts" (Some p) [Some r] [])).
  eapply newSingletonStore_gives; [done..|]. intros q s1 Hs <-.
  apply (gives_step _ _ _ _ (fun c => writeOn c upsertAccount [VInt64 2001; VInt64 42; VText "primary write"] p [] (st_calls s1)));
    [by apply query_runs; eapply UpsertAccount_singleton|intros c; apply writeAs_some|].
  intros a s2 Hs2%(servesOne_moved _ _ _ _ _ _ Hs). apply gives_assoc.
  apply (gives_deref (A := GetAccountT) (keyOfAccount a)), gives_assoc.
  apply (gives_step _ _ _ _ (fun c => readOn c getAccount (getValues (keyOfAccount a)) p (st_calls s2)));
    [by apply query_runs; eapply GetAccount_singleton|intros c; apply readAs_some|].
  intros strong s3 Hs3%(servesOne_moved _ _ _ _ _ _ Hs2). apply gives_assoc, gives_deref, gives_printing.
  apply (gives_deref (A := GetAccountT) (keyOfAccount a)).
  apply (gives_step _ _ _ _ (fun c => readOn c getAccount (getValues (keyOfAccount a)) r (st_calls s3)));
    [|intros c; apply readAs_some|].
  { apply query_runs. eapply runs_mono; [by apply (GetAccount_reader ErrorType DebugEnabled p [r] [])|].
    intros x s4 (Hmv & c & d & ->%list_elem_of_singleton & Hr). split; [done|]. by exists c. }
  intros replicaCopy s4 _. apply gives_deref, gives_print.
Qed.

Lemma single_gives p ctx s w :
  metersOk gmp -> heap_wf (st_heap s) -> batchersWf s ->
  gives (queries ← newSingletonStore ErrorType DebugEnabled gtp gmp (Singleton (Some p) [Some (WithDatabaseName "accounts")]);
         account ← createAccount (Store_Accounts queries) ctx;
         loadAndPrintAccount (Store_Accounts queries) ctx account) (s, w) (behaves (singleWork p (st_calls s)) w).
Proof.
  intros Hm Hh Hb.
  change (Singleton _ _) with (Ok (E := error) (SingletonConfig "accounts" (Some p) [] [])).
  eapply newSingletonStore_gives; [done..|]. intros q s1 Hs <-.
  apply (gives_step _ _ _ _ (fun c => writeOn c upsertAccount [VInt64 1001; VInt64 42; VText "single database"] p [] (st_calls s1)));
    [by apply query_runs; eapply UpsertAccount_singleton|intros c; apply writeAs_some|].
  intros a s2 Hs2%(servesOne_moved _ _ _ _ _ _ Hs). apply (gives_deref (A := GetAccountT) (keyOfAccount a)).
  apply (gives_step _ _ _ _ (fun c => readOn c getAccount (getValues (keyOfAccount a)) p (st_calls s2)));
    [|intros c; apply readAs_some|].
  { apply query_runs. eapply runs_mono; [by apply (GetAccount_reader ErrorType DebugEnabled p [] [])|].
    intros x s3 (Hmv & c & d & ->%list_elem_of_singleton & Hr). split; [done|]. by exists c. }
  intros loaded s3 _. apply gives_deref, gives_print.
Qed.

(** The read-write-split example, from its environment to its output, for any
    answers of pgx and of the databases. A variable that is not set, or a pool
    that does not open or answer, is the error, the primary's before the
    replica's, and no query runs; the primary's pool is closed when the
    replica's fails. Otherwise the account is written on the primary, read back
    from the primary and then from the replica, each by one call; the first
    error ends the program under the name of its step, and each read is printed
    when it succeeds. Then the pools are closed, each once, the replica's first.
    The program does not panic. *)
Theorem read_write_program_correct ctx s w :
  metersOk gmp -> heap_wf (st_heap s) -> batchersWf s ->
  exists o s' w', run ErrorType DebugEnabled gtp gmp ctx (s, w) = (o, (s', w')) /\ o <> Panic /\
  match variableFault "RW_PRIMARY_DSN", variableFault "RW_REPLICA_DSN" with
  | Some e, _ => o = Err e /\ st_calls s' = st_calls s /\ events w' = events w ++ variableEvents "RW_PRIMARY_DSN"
  | None, Some e => o = Err e /\ st_calls s' = st_calls s /\ exists p, poolFor "RW_PRIMARY_DSN" = Some p /\
      events w' = events w ++ [PoolOpened p] ++ variableEvents "RW_REPLICA_DSN" ++ [PoolClosed p]
  | None, None => exists p r es, poolFor "RW_PRIMARY_DSN" = Some p /\ poolFor "RW_REPLICA_DSN" = Some r /\
      readWriteWork p r (st_calls s) o (st_calls s') es /\
      events w' = events w ++ [PoolOpened p; PoolOpened r] ++ es ++ [PoolClosed r; PoolClosed p]
  end.
Proof.
  intros Hm Hh Hb.
  enough (gives (run ErrorType DebugEnabled gtp gmp ctx) (s, w) (fun o x => o <> Panic /\
    match variableFault "RW_PRIMARY_DSN", variableFault "RW_REPLICA_DSN" with
    | Some e, _ => o = Err e /\ st_calls x.1 = st_calls s /\ events x.2 = events w ++ variableEvents "RW_PRIMARY_DSN"
    | None, Some e => o = Err e /\ st_calls x.1 = st_calls s /\ exists p, poolFor "RW_PRIMARY_DSN" = Some p /\
        events x.2 = events w ++ [PoolOpened p] ++ variableEvents "RW_REPLICA_DSN" ++ [PoolClosed p]
    | None, None => exists p r es, poolFor "RW_PRIMARY_DSN" = Some p /\ poolFor "RW_REPLICA_DSN" = Some r /\
        readWriteWork p r (st_calls s) o (st_calls x.1) es /\
        events x.2 = events w ++ [PoolOpened p; PoolOpened r] ++ es ++ [PoolClosed r; PoolClosed p]
    end)) as H.
  { unfold gives in H. destruct (run _ _ _ _ _ _) as [o [s' w']]. by exists o, s', w'. }
  unfold run, openDatabasePools. apply gives_assoc, gives_bind. eapply gives_mono; [apply openPool_gives|].
  intros o x. destruct (variableFault "RW_PRIMARY_DSN") as [e|]; [by intros [-> ->]|]. intros (p & Hp & -> & ->).
  cbn [andThen]. apply gives_assoc, gives_bind, gives_handling. eapply gives_mono; [apply openPool_gives|].
  intros o x. destruct (variableFault "RW_REPLICA_DSN") as [e|].
  { intros [-> ->]. apply gives_note, gives_throw. split; [done|]. split; [done|]. split; [done|].
    exists p. split; [done|]. cbn. by rewrite <- !app_assoc. }
  intros (r & Hr & -> & ->). cbn [andThen]. rewrite noted_noted.
  apply (gives_seq _ _ _ (fun pools x => pools = DatabasePools p r /\ x = (s, noted w ([PoolOpened p] ++ [PoolOpened r]))));
    [by eexists _, _|]. intros ? ? [-> ->].
  eapply gives_mono; [apply (closing_gives _ _ (readWriteWork p r (st_calls s)) [PoolClosed r; PoolClosed p]); [|apply (readWrite_gives p r ctx s _ Hm Hh Hb)]|].
  { intros s' w'. eexists tt, _. split; [done|]. cbn. unfold noted. cbn. by rewrite <- app_assoc. }
  intros o [s' w'] (es & Hk & He). split; [exact (proj1 (works_return p r _) _ _ _ Hk)|]. exists p, r, es. split_and!; [done..|].
  rewrite He. cbn. by rewrite <- !app_assoc.
Qed.

(** The single-database example. *)
Theorem single_program_correct ctx s w :
  metersOk gmp -> heap_wf (st_heap s) -> batchersWf s ->
  let dsn := os_Getenv "SINGLE_DATABASE_DSN" in
  gives (runSingle ErrorType DebugEnabled gtp gmp ctx) (s, w) (fun o x => o <> Panic /\
    if bool_decide (dsn = "") then o = Err (ErrorText "SINGLE_DATABASE_DSN is required") /\ x = (s, w)
    else match poolFault "open database: %w" "ping database: %w" [] dsn with
    | Some e => o = Err e /\ x = (s, noted w (faultEvents dsn))
    | None => exists p es, poolAt dsn = Some p /\ singleWork p (st_calls s) o (st_calls x.1) es /\
        events x.2 = events w ++ [PoolOpened p] ++ es ++ [PoolClosed p]
    end).
Proof.
  intros Hm Hh Hb dsn. unfold runSingle, openDatabase. fold dsn. case_bool_decide; [done|].
  apply gives_bind. eapply gives_mono; [apply connect_gives|]. intros o x. unfold poolAt.
  destruct (poolFault _ _ _ _) as [e|]; [by intros [-> ->]|]. intros (p & -> & -> & ->). cbn [andThen].
  eapply gives_mono; [apply (closing_gives _ _ (singleWork p (st_calls s)) [PoolClosed p]); [|apply (single_gives p ctx s _ Hm Hh Hb)]|].
  { intros s' w'. by eexists tt, _. }
  intros o [s' w'] (es & Hk & He). split; [exact (proj2 (works_return p p _) _ _ _ Hk)|]. exists p, es. split_and!; [done..|].
  rewrite He. cbn. by rewrite <- !app_assoc.
Qed.

End Spec.

(** ** A run *)

#[local] Existing Instance StoreSample.runtime.

Module ReadWriteSample.
(** The replica 2 has an older name. *)
#[export] Instance platform : Platform nat := {|
  os_Getenv name := name;
  pgxpool_New dsn := if bool_decide (dsn = "RW_PRIMARY_DSN") then inr 1%nat else inr 2%nat;
  pool_Ping _ := None;
  pool_Begin _ := inl (ErrorText "no transactions");
  tx_Commit _ := None;
  tx_Rollback _ := None;
  rangeOrder m := (map_to_list m).*2;
  rangeOrder_all m := reflexivity _ |}.

Definition state : storeState nat nat string unit :=
  setCalls [CallQueryRow 2%nat upsertAccount (upsertArgs (MkAccount 2001 42 "replicated"))] StoreSample.state0.
End ReadWriteSample.
#[local] Existing Instance ReadWriteSample.platform.

Lemma read_write_program_correct_witness :
  exists s' w', run sampleErrorType StoreSample.debug sampleTracers sampleMeters sampleContext
      (ReadWriteSample.state, World ∅ []) = (Ok tt, (s', w')) /\
    events w' = [PoolOpened 1%nat; PoolOpened 2%nat; Printed "strong read: %s\n" [AStr "primary write"];
      Printed "replica read: %s\n" [AStr "replicated"]; PoolClosed 2%nat; PoolClosed 1%nat].
Proof.
  destruct (read_write_program_correct sampleErrorType StoreSample.debug sampleTracers sampleMeters sampleContext
    ReadWriteSample.state (World ∅ []) Sample.meters_ok emptyHeap_wf) as (o & s' & w' & Hrun & _ & H).
  { intros l [b Hb]. discriminate Hb. }
  destruct H as (p & r & es & Hp & Hr & Hwork & He). injection Hp as <-. injection Hr as <-.
  vm_compute in Hwork. destruct Hwork as (c1 & c2 & rest & -> & c3 & rest' & -> & -> & _ & ->).
  exists s', w'. split; [exact Hrun|exact He].
Defined.
