(* ===== verification/ShardedProgram.v ===== *)
(** * ShardedProgram: two stores (examples/03-sharded-read-write)

    The program opens the sharded accounts store on two shards with a replica
    each and the unsharded settings store beside it, over the pools of one
    registry. It writes an account, reads it and its tenant's count back from the
    primary, and writes and reads a setting. *)

From S2P Require Import Prelude Errors GoStrings Hasher Balancer Routing Telemetry CopyBatch Builder Topology OpenMesh Tasks StoreQueries Store StoreOps StoreAsync StoreBuild StoreLemmas StoreRefine StoreRouted MemoryDriver StoreOpen StoreFanout OneStore OneRefine OneSettings SettingsDriver Programs ProgramStore TwoShards SingletonStore.

#[local] Open Scope Z_scope.

(** ** The program *)

Record config := Config {
  shard0Primary : string; shard0Replica : string;
  shard1Primary : string; shard1Replica : string;
  settingsDSN : string;
}.

Definition environment : list string :=
  ["SHARD0_PRIMARY_DSN"; "SHARD0_REPLICA_DSN"; "SHARD1_PRIMARY_DSN"; "SHARD1_REPLICA_DSN"; "SETTINGS_DSN"].

Section Program.
Context {DBTX : Type} `{!Driver DBTX} `{!Platform DBTX} {RT : Runtime}.
Context {Tracer Instrument Logger : Type}.
Context (ErrorType : error -> KeyValue) (DebugEnabled : Logger -> bool).
Context (gtp : TracerProvider Tracer) (gmp : MeterProvider Instrument).
(** The debug logger of the program, a [slog.New]. *)
Context (debugLogger : Logger).
#[local] Abbreviation stateT := (storeState DBTX Tracer Instrument Logger).
#[local] Abbreviation appM := (stE (stateT * world DBTX) error).
#[local] Abbreviation accountStore := (StoreBuild.Store (DBTX := DBTX) (Tracer := Tracer) (Instrument := Instrument) (Logger := Logger)).
#[local] Abbreviation accountsI := (StoreBuild.Accounts (DBTX := DBTX) (Tracer := Tracer) (Instrument := Instrument) (Logger := Logger)).
#[local] Abbreviation reportsI := (StoreBuild.Reports (DBTX := DBTX) (Tracer := Tracer) (Instrument := Instrument) (Logger := Logger)).
#[local] Abbreviation settingsStore := (OneStore.Store DBTX (world DBTX) Tracer Instrument Logger).
#[local] Abbreviation settingsI := (OneStore.Settings DBTX (world DBTX) Tracer Instrument Logger).

Definition loadConfig : result config :=
  values ← environmentValues (fun name => ErrorText (name +:+ " is required")) environment;
  match values with
  | [v0; v1; v2; v3; v4] => Ok (Config v0 v1 v2 v3 v4)
  | _ => Panic
  end.

Definition poolRegistry_open (dsn : string) : appM DBTX := registryOpen "open database: %w" "ping database: %w" dsn.

Definition newAccountQueries (cfg : config) : appM accountStore :=
  p0 ← poolRegistry_open (shard0Primary cfg);
  r0 ← poolRegistry_open (shard0Replica cfg);
  p1 ← poolRegistry_open (shard1Primary cfg);
  r1 ← poolRegistry_open (shard1Replica cfg);
  openTwoShards ErrorType DebugEnabled gtp gmp "create account store: %w" p0 [Some r0] p1 [Some r1]
    [Some (StoreBuild.WithLogger (Some debugLogger))].

Definition newSettingsStore (dsn : string) : appM settingsStore :=
  pool ← poolRegistry_open dsn;
  inStore (OneStore.NewStore (Some (OneStore.singleton_buildStore ErrorType DebugEnabled gtp gmp
    (Singleton (Some pool) [Some (WithDatabaseName "settings")]))) []).

Definition exerciseStores (ctx : Context) (accounts : accountsI) (reports : reportsI) (settings : settingsI) : appM unit :=
  account ← checked "routed write: %w" (inStore (Accounts_UpsertAccount accounts ctx
    (Some (MkUpsertAccountT (MkTenantKey 100) 3001 "shard one")) []));
  account ← lift (panic_if_none account);
  account ← checked "routed primary read: %w" (inStore (Accounts_GetAccount accounts ctx
    (Some (MkGetAccountT (MkTenantKey (TenantID account)) (ID account))) [ReadFromPrimary]));
  account ← lift (panic_if_none account);
  _ ← note (Printed "tenant %d account: %s\n" [AInt (TenantID account); AStr (DisplayName account)]);
  count ← checked "count tenant accounts: %w" (inStore (Reports_CountAccounts reports ctx
    (Some (MkCountAccountsT (MkTenantKey (TenantID account)))) [ReadFromPrimary]));
  _ ← note (Printed "tenant %d account count: %d\n" [AInt (TenantID account); AInt count]);
  _ ← checked "unsharded setting write: %w" (Settings_UpsertSetting settings ctx
    (Some (OneStore.MkUpsertSettingParams "deployment_name" "pgmesh example")) []);
  setting ← checked "unsharded setting read: %w" (Settings_GetSetting settings ctx "deployment_name" []);
  setting ← lift (panic_if_none setting);
  note (Printed "deployment: %s\n" [AStr (OneStore.Value setting)]).

Definition run (ctx : Context) : appM unit :=
  cfg ← lift loadConfig;
  _ ← registryNew;
  deferring registryClose (
    accounts ← newAccountQueries cfg;
    settings ← newSettingsStore (settingsDSN cfg);
    exerciseStores ctx (Store_Accounts accounts) (Store_Reports accounts) (Store_Settings settings)).

End Program.

(** ** What the program does *)

Section Spec.
Context {DBTX : Type} `{!Driver DBTX} `{!Platform DBTX} {RT : Runtime}.
Context {Tracer Instrument Logger : Type}.
Context (ErrorType : error -> KeyValue) (DebugEnabled : Logger -> bool).
Context (gtp : TracerProvider Tracer) (gmp : MeterProvider Instrument) (debugLogger : Logger).
#[local] Abbreviation stateT := (storeState DBTX Tracer Instrument Logger).
#[local] Abbreviation appM := (stE (stateT * world DBTX) error).
#[local] Abbreviation storeT := (meshStore DBTX Z Tracer Instrument Logger).
#[local] Abbreviation callsT := (list (dbCall DBTX)).
#[local] Abbreviation fault := (openFault "open database: %w" "ping database: %w").
#[local] Abbreviation registryOf := (registry "open database: %w" "ping database: %w").
Implicit Types (s : stateT) (w : world DBTX) (q : storeT).

Definition configured : config :=
  Config (os_Getenv "SHARD0_PRIMARY_DSN") (os_Getenv "SHARD0_REPLICA_DSN") (os_Getenv "SHARD1_PRIMARY_DSN")
    (os_Getenv "SHARD1_REPLICA_DSN") (os_Getenv "SETTINGS_DSN").

Lemma sharded_loadConfig :
  loadConfig = match List.find unset environment with
               | Some name => Err (ErrorText (name +:+ " is required"))
               | None => Ok configured
               end.
Proof. unfold loadConfig. rewrite environmentValues_spec. by destruct (List.find unset environment). Qed.

Definition dsnsOf (c : config) : list string :=
  [shard0Primary c; shard0Replica c; shard1Primary c; shard1Replica c; settingsDSN c].

(** A query for a tenant is on the primary of the tenant's set; for a negative
    tenant the resolver panics. *)
Definition onTenant (p0 p1 : DBTX) (tenant : Z) (calls : callsT) (k : DBTX -> conduct) : conduct :=
  if tenant <? 0 then fun o calls' es => o = Panic /\ calls' = calls /\ es = []
  else k (primaryDB p0 p1 (tenantSet tenant)).

(** The setting is written and read on its database. *)
Definition settingWork (d : DBTX) (calls : callsT) : conduct :=
  step "unsharded setting write: %w" (fun c => writeAs OneStore.scanSetting c OneStore.upsertSetting
      [VText "deployment_name"; VText "pgmesh example"] d [] calls) (fun _ calls =>
  step "unsharded setting read: %w" (fun c => readAs OneStore.scanSetting c OneStore.getSetting
      [VText "deployment_name"] d calls) (fun setting calls =>
  printing (Printed "deployment: %s\n" [AStr (OneStore.Value setting)]) (ending calls))).

(** The work on the primaries [p0] and [p1] and the settings database [d]. *)
Definition shardedWork (p0 p1 d : DBTX) (calls : callsT) : conduct :=
  step "routed write: %w" (fun c => writeOn c upsertAccount [VInt64 3001; VInt64 100; VText "shard one"] p1 [] calls)
    (fun account calls => onTenant p0 p1 (TenantID account) calls (fun p =>
  step "routed primary read: %w" (fun c => readOn c getAccount (getValues (keyOfAccount account)) p calls)
    (fun account calls =>
  printing (Printed "tenant %d account: %s\n" [AInt (TenantID account); AStr (DisplayName account)]) (
  onTenant p0 p1 (TenantID account) calls (fun p =>
  query (fun e => Errorf "count tenant accounts: %w" [] [e])
    (fun r calls' => exists c, (r, calls') = countOn c (TenantID account) p calls) (fun count calls =>
  printing (Printed "tenant %d account count: %d\n" [AInt (TenantID account); AInt count]) (
  settingWork d calls))))))).

(** ** The stores *)

Section Opened.
Context (p0 p1 d : DBTX) (qa qs : storeT).

(** The accounts store [qa] and the settings store [qs]. *)
Record onBoth s : Prop := {
  ob_resolver : ms_resolver qa = Some tenantResolver;
  ob_accounts : serves ["shard-0"; "shard-1"] (primaryDB p0 p1) (keyRoute hash tenantResolver mappings) (mirrorsOf mappings) qa s;
  ob_settings : servesOne d [] [] qs s;
}.

Lemma onBoth_moved s s' : onBoth s -> moved s s' -> onBoth s'.
Proof. intros [H1 H2 H3] Hm. split; [done|by eapply serves_moved|by eapply servesOne_moved]. Qed.

Lemma tenant_resolved s tenant : onBoth s -> 0 <= tenant -> resolved qa (MkTenantKey tenant).
Proof. intros H Ht. unfold resolved. by rewrite (tenant_resolves qa tenant (ob_resolver _ H) Ht). Qed.

(** A routed query in the program. *)
Lemma tenant_gives {A} tenant (m : stE stateT error (A * option error)) format (k : A -> appM unit) (f : DBTX -> conduct) s w :
  onBoth s ->
  (shardKeyOf qa (Some (MkTenantKey tenant)) = Panic -> exists s', m s = (Panic, s') /\ st_calls s' = st_calls s) ->
  (0 <= tenant -> gives (checked format (inStore m) ≫= k) (s, w) (behaves (f (primaryDB p0 p1 (tenantSet tenant))) w)) ->
  gives (checked format (inStore m) ≫= k) (s, w) (behaves (onTenant p0 p1 tenant (st_calls s) f) w).
Proof.
  intros Hs Hpanic Hk. unfold onTenant. destruct (Z.ltb_spec tenant 0) as [Hneg|Hpos]; [|by apply Hk].
  destruct Hpanic as (s' & Hm & Hc).
  { unfold shardKeyOf. rewrite (ob_resolver _ Hs). unfold tenantResolver. cbn. by destruct (Z.ltb_spec tenant 0); [|lia]. }
  apply gives_bind, gives_bind. unfold gives, inStore, zoomM. cbn [fst]. rewrite Hm. cbn [fst snd andThen].
  exists []. by rewrite noted_nil.
Qed.

(** The setting, at the end. *)
Lemma settings_gives ctx s w :
  onBoth s ->
  gives (_ ← checked "unsharded setting write: %w" (Settings_UpsertSetting (groupedSettings ErrorType DebugEnabled qs) ctx
           (Some (OneStore.MkUpsertSettingParams "deployment_name" "pgmesh example")) []);
         setting ← checked "unsharded setting read: %w" (Settings_GetSetting (groupedSettings ErrorType DebugEnabled qs) ctx "deployment_name" []);
         setting ← lift (panic_if_none setting);
         note (Printed "deployment: %s\n" [AStr (OneStore.Value setting)])) (s, w) (behaves (settingWork d (st_calls s)) w).
Proof.
  intros Hs. apply (gives_step _ _ _ _ (fun c => writeAs OneStore.scanSetting c OneStore.upsertSetting
    [VText "deployment_name"; VText "pgmesh example"] d [] (st_calls s))); [apply query_runs|intros c; apply writeAs_some|].
  { apply (UpsertSetting_on ErrorType DebugEnabled d [] [] qs ctx (OneStore.MkUpsertSettingParams "deployment_name" "pgmesh example") s), Hs. }
  intros a s1 Hs1%(onBoth_moved _ _ Hs). apply (gives_step _ _ _ _ (fun c => readAs OneStore.scanSetting c OneStore.getSetting
    [VText "deployment_name"] d (st_calls s1))); [apply query_runs|intros c; apply readAs_some|].
  { apply (GetSetting_on ErrorType DebugEnabled d [] qs ctx "deployment_name" s1), Hs1. }
  intros b s2 _. apply gives_deref, gives_print.
Qed.

Lemma exercise_gives ctx s w :
  onBoth s ->
  gives (exerciseStores ctx (StoreBuild.groupedAccounts ErrorType DebugEnabled qa) (groupedReports ErrorType DebugEnabled qa)
    (groupedSettings ErrorType DebugEnabled qs)) (s, w) (behaves (shardedWork p0 p1 d (st_calls s)) w).
Proof.
  intros Hs. unfold exerciseStores.
  apply (gives_step _ _ _ _ (fun c => writeOn c upsertAccount [VInt64 3001; VInt64 100; VText "shard one"] p1 [] (st_calls s)));
    [apply query_runs|intros c; apply writeAs_some|].
  { destruct tenants as (_ & E1 & _ & M1). change p1 with (primaryDB p0 p1 "shard-1"). rewrite <- E1.
    by apply upsert_tenant; [apply Hs|apply Hs|lia|]. }
  intros a s1 Hs1%(onBoth_moved _ _ Hs). apply gives_deref.
  apply tenant_gives; [done|by apply routedRead_panics, Hs1|]. intros Ht.
  apply (gives_step _ _ _ _ (fun c => readOn c getAccount (getValues (keyOfAccount a)) (primaryDB p0 p1 (tenantSet (TenantID a))) (st_calls s1)));
    [apply query_runs; rewrite <- tenant_route by done|intros c; apply readAs_some|].
  { apply (GetAccount_primary ErrorType DebugEnabled _ _ _ _ qa ctx (keyOfAccount a) s1 (ob_accounts _ Hs1)).
    by apply (tenant_resolved s1). }
  intros b s2 Hs2%(onBoth_moved _ _ Hs1). apply gives_deref, gives_printing.
  apply tenant_gives; [done|by apply routedRead_panics, Hs2|]. intros Hb.
  eapply (gives_query _ _ _ _ _ _ _ onBoth).
  { apply inStore_runs. eapply runs_mono; [apply (CountAccounts_primary ErrorType DebugEnabled _ _ _ _ qa ctx (TenantID b) s2 (ob_accounts _ Hs2));
      by apply (tenant_resolved s2)|]. intros r s3 (Hm & c & Hr). split; [done|].
    split; [by eapply onBoth_moved|]. exists c. rewrite <- (tenant_route (TenantID b)) by done. exact Hr. }
  intros count s3 Hs3 _. apply gives_printing, settings_gives, Hs3.
Qed.

End Opened.

(** Opening the settings store. *)
Lemma newSettings_runs (d : DBTX) s :
  metersOk gmp -> heap_wf (st_heap s) ->
  runs (OneStore.NewStore (W := world DBTX) (Some (OneStore.singleton_buildStore ErrorType DebugEnabled gtp gmp
      (Singleton (Some d) [Some (WithDatabaseName "settings")]))) []) s (fun store s1 => exists qs,
    Store_Settings store = groupedSettings ErrorType DebugEnabled qs /\ servesOne d [] [] qs s1 /\
    st_calls s1 = st_calls s /\ heapGrows (st_heap s) (st_heap s1)).
Proof.
  intros Hm Hh.
  pose proof (NewStore_runs (W := world DBTX) ErrorType DebugEnabled gtp gmp (SingletonConfig "settings" (Some d) [] []) [] s Hm Hm Hh) as H.
  destruct (OneSettings.openFault _ _) eqn:Hf; [by vm_compute in Hf|].
  change (Singleton (Some d) [Some (WithDatabaseName "settings")]) with (Ok (E := error) (SingletonConfig "settings" (Some d) [] [])).
  eapply runs_mono; [exact H|]. intros store s1 (p & qs & [= <-] & -> & Hserve & Hc & Hg). exists qs. by split_and!.
Qed.

(** The program once both stores are open. *)
Definition exercised (c : config) s w (o : result unit) (x : stateT * world DBTX) : Prop :=
  exists p0 p1 d w1 es, poolAt (shard0Primary c) = Some p0 /\ poolAt (shard1Primary c) = Some p1 /\
    poolAt (settingsDSN c) = Some d /\ registryOf (dsnsOf c) w w1 /\
    shardedWork p0 p1 d (st_calls s) o (st_calls x.1) es /\ x.2 = noted w1 es.

Lemma stores_gives c ctx s w :
  metersOk gmp -> heap_wf (st_heap s) -> batchersWf s -> byDSN w = ∅ ->
  gives (accounts ← newAccountQueries ErrorType DebugEnabled gtp gmp debugLogger c;
         settings ← newSettingsStore ErrorType DebugEnabled gtp gmp (settingsDSN c);
         exerciseStores ctx (Store_Accounts accounts) (Store_Reports accounts) (Store_Settings settings)) (s, w)
    (openPost "open database: %w" "ping database: %w" [] (dsnsOf c) w (fun s' => st_calls s' = st_calls s) (exercised c s w)).
Proof.
  intros Hm Hh Hb Hw. pose proof (registry_new "open database: %w" "ping database: %w" w Hw) as Hreg.
  unfold newAccountQueries, newSettingsStore, dsnsOf, poolRegistry_open.
  apply gives_assoc. eapply gives_next; [exact Hreg|done|]. clear Hreg. intros p0 w1 Hp0 Hreg.
  apply gives_assoc. eapply gives_next; [exact Hreg|done|]. clear Hreg. intros r0 w2 _ Hreg.
  apply gives_assoc. eapply gives_next; [exact Hreg|done|]. clear Hreg. intros p1 w3 Hp1 Hreg.
  apply gives_assoc. eapply gives_next; [exact Hreg|done|]. clear Hreg. intros r1 w4 _ Hreg.
  apply (openTwoShards_gives ErrorType DebugEnabled gtp gmp p0 p1 "create account store: %w" [r0] [r1]
    [Some (StoreBuild.WithLogger (Some debugLogger))] (Some debugLogger) None); [done|done|apply valid_replicas|done..|].
  intros qa store s1 Hop. pose proof (opened_onTwoShards _ _ _ _ _ _ _ _ _ _ _ Hop) as Hqa. destruct Hop as (-> & Hc1 & _).
  apply gives_assoc. eapply gives_next; [exact Hreg|exact Hc1|]. clear Hreg. intros d w5 Hd Hreg. apply gives_opened.
  apply (gives_seq _ _ _ (fun st x => x.2 = w5 /\ exists qs, Store_Settings st = groupedSettings ErrorType DebugEnabled qs /\
    onBoth p0 p1 d qa qs x.1 /\ st_calls x.1 = st_calls s)).
  - apply inStore_runs. eapply runs_mono; [apply newSettings_runs; [done|apply Hqa]|].
    intros st s2 (qs & Hst & Hserve & Hc2 & Hgrow). split; [done|]. exists qs. split; [done|]. split; [|cbn; congruence].
    split; [apply Hqa|by eapply serves_grown; [apply Hqa|]|done].
  - intros st [s2 w'] (Hw2 & qs & -> & Hs2 & Hc2). cbn [fst snd] in *. subst w'.
    eapply gives_mono; [by apply exercise_gives|]. intros o x (es & Hk & Hx). rewrite Hc2 in Hk.
    exists p0, p1, d, w5, es. by split_and!.
Qed.

(** C19: The example with two stores, from its environment to its output, for any
    answers of pgx and of the databases. A variable that is not set is the
    error, the first one in order, and nothing happens. Otherwise the DSNs are
    opened in order, each once, the last after the accounts store was opened;
    the first that does not open or answer is the error, its pool is closed and
    no query runs. Otherwise the account is written on the second shard, and
    read back and counted on the primary of the shard of the tenant that the
    database answered with; then the setting is written and read on the settings
    database, which opening it beside the accounts store does not disturb. The
    first error ends the program under the name of its step. The program panics
    only where a database answers with an account of a negative tenant. In every
    case all the pools that were opened are closed, each once and last. *)
Theorem sharded_program_correct ctx s w :
  metersOk gmp -> heap_wf (st_heap s) -> batchersWf s ->
  exists o s' w', run ErrorType DebugEnabled gtp gmp debugLogger ctx (s, w) = (o, (s', w')) /\
  match List.find unset environment with
  | Some name => o = Err (ErrorText (name +:+ " is required")) /\ s' = s /\ w' = w
  | None =>
      let dsns := os_Getenv <$> environment in
      match fault [] dsns with
      | Some (before, dsn, e) => o = Err e /\ st_calls s' = st_calls s /\ exists closes, closes ≡ₚ poolsOf before /\
          events w' = events w ++ (PoolOpened <$> poolsOf before) ++ faultEvents dsn ++ (PoolClosed <$> closes)
      | None => exists p0 p1 d es closes, poolAt (os_Getenv "SHARD0_PRIMARY_DSN") = Some p0 /\
          poolAt (os_Getenv "SHARD1_PRIMARY_DSN") = Some p1 /\ poolAt (os_Getenv "SETTINGS_DSN") = Some d /\
          closes ≡ₚ poolsOf dsns /\ shardedWork p0 p1 d (st_calls s) o (st_calls s') es /\
          events w' = events w ++ (PoolOpened <$> poolsOf dsns) ++ es ++ (PoolClosed <$> closes)
      end
  end.
Proof.
  intros Hm Hh Hb. change (os_Getenv <$> environment) with (dsnsOf configured). apply gives_run.
  unfold run. rewrite sharded_loadConfig. destruct (List.find unset environment) as [name|]; [by destruct w|].
  apply (gives_seq _ _ _ (fun c x => c = configured /\ x = (s, w))); [by eexists _, _|]. intros ? ? [-> ->].
  apply (gives_seq _ _ _ (fun _ x => x = (s, World ∅ (events w)))); [by eexists tt, _|]. intros _ ? ->.
  apply gives_deferring. eapply gives_mono; [by apply stores_gives|]. unfold openPost. intros o [s1 w1]. cbv zeta.
  destruct (fault [] (dsnsOf configured)) as [[[before dsn] e]|].
  - intros (-> & Hs & w2 & Hreg & Hw). cbn [fst snd] in *. subst w1.
    eapply runs_mono; [by apply (registryClose_runs "open database: %w" "ping database: %w" before (World ∅ (events w)))|].
    intros _ x (closes & Hcl & Hx & He). rewrite Hx. split_and!; [done..|]. by exists closes.
  - intros (p0 & p1 & d & w2 & es & Hp0 & Hp1 & Hd & Hreg & Hk & Hw). cbn [fst snd] in *. subst w1.
    eapply runs_mono; [by apply (registryClose_runs "open database: %w" "ping database: %w" (dsnsOf configured) (World ∅ (events w)))|].
    intros _ x (closes & Hcl & Hx & He). rewrite <- Hx in Hk. by exists p0, p1, d, es, closes.
Qed.

End Spec.

(** ** A run *)

Module ShardedSample.
(** Databases with the tables of both packages. *)
#[export] Instance driver : Driver nat := {|
  drv_QueryRow calls ctx db sql args :=
    if bool_decide (sql ∈ [OneStore.getSetting; OneStore.upsertSetting])
    then @drv_QueryRow _ settingsDriver calls ctx db sql args else @drv_QueryRow _ memoryDriver calls ctx db sql args;
  drv_Query := @drv_Query _ memoryDriver;
  drv_CopyFrom := @drv_CopyFrom _ memoryDriver;
|}.

(** The settings are on the first shard's primary. *)
#[export] Instance platform : Platform nat := {|
  os_Getenv name := if bool_decide (name = "SETTINGS_DSN") then "SHARD0_PRIMARY_DSN" else name;
  pgxpool_New dsn :=
    if bool_decide (dsn = "SHARD0_PRIMARY_DSN") then inr 1%nat
    else if bool_decide (dsn = "SHARD1_PRIMARY_DSN") then inr 2%nat else inr 3%nat;
  pool_Ping _ := None;
  pool_Begin _ := inl (ErrorText "no transactions");
  tx_Commit _ := None;
  tx_Rollback _ := None;
  rangeOrder m := (map_to_list m).*2;
  rangeOrder_all m := reflexivity _ |}.
End ShardedSample.
#[local] Existing Instances StoreSample.runtime ShardedSample.driver ShardedSample.platform.

Lemma sharded_program_correct_witness :
  exists s' w', run sampleErrorType StoreSample.debug sampleTracers sampleMeters tt sampleContext
      (StoreSample.state0, World ∅ []) = (Ok tt, (s', w')) /\
    events w' = (PoolOpened <$> [1; 3; 2; 3]%nat) ++ [Printed "tenant %d account: %s\n" [AInt 100; AStr "shard one"];
      Printed "tenant %d account count: %d\n" [AInt 100; AInt 1]; Printed "deployment: %s\n" [AStr "pgmesh example"]] ++
      (PoolClosed <$> [3; 2; 3; 1]%nat).
Proof.
  destruct (sharded_program_correct sampleErrorType StoreSample.debug sampleTracers sampleMeters tt sampleContext
    StoreSample.state0 (World ∅ []) Sample.meters_ok emptyHeap_wf) as (o & s' & w' & Hrun & _).
  { intros l [b Hb]. discriminate Hb. }
  assert (H : (fun r => (r.1, events r.2.2)) (run sampleErrorType StoreSample.debug sampleTracers sampleMeters tt sampleContext
      (StoreSample.state0, World ∅ [])) = (Ok tt, (PoolOpened <$> [1; 3; 2; 3]%nat) ++
      [Printed "tenant %d account: %s\n" [AInt 100; AStr "shard one"];
       Printed "tenant %d account count: %d\n" [AInt 100; AInt 1]; Printed "deployment: %s\n" [AStr "pgmesh example"]] ++
      (PoolClosed <$> [3; 2; 3; 1]%nat))) by (vm_compute; reflexivity).
  rewrite Hrun in H. cbn [fst snd] in H. injection H as Ho He. exists s', w'. rewrite <- Ho. split; [exact Hrun|exact He].
Defined.
