(* ===== verification/AsyncRuns.v ===== *)
(** * AsyncRuns: a store at work between the steps of a program

    [copying] is what holds of a store whose copy batchers run in the
    background: every batcher is in a state it can reach, has accepted the
    submissions it was handed, and the calls to the databases are those of the
    copies its record has. The lemmas show that every move keeps it, that
    [settle] leaves nothing to run, and what waits and flushes return. *)

From S2P Require Import Prelude Errors Hasher Routing Telemetry Future CopyBatch CopyBatchInv CopyBatchSteps CopyBatchRuns CopyBatchMoves Builder Topology Tasks StoreQueries Store StoreOps StoreAsync StoreBuild StoreLemmas StoreRefine StoreOpen StoreFanout StoreCopy StoreSubmit Programs ProgramStore.

#[local] Open Scope Z_scope.

Section Async.
Context {DBTX : Type} `{!Driver DBTX} {RT : Runtime}.
Context {K Tracer Instrument Logger : Type}.
Context (ErrorType : error -> KeyValue) (DebugEnabled : Logger -> bool).
#[local] Abbreviation stateT := (storeState DBTX Tracer Instrument Logger).
#[local] Abbreviation storeM := (stE stateT error).
#[local] Abbreviation storeT := (meshStore DBTX K Tracer Instrument Logger).
#[local] Abbreviation refT := (batcherRef (DBTX := DBTX) (Tracer := Tracer) (Instrument := Instrument)
  (Logger := Logger)).
#[local] Abbreviation worldT := (CopyBatch.world (T := CopyAccountsParams) (Ctx := Context)).
#[local] Abbreviation batchT := (copyBatch (T := CopyAccountsParams) (Ctx := Context)).
#[local] Abbreviation entries := (list (list (dbCall DBTX) * dbCall DBTX)).
#[local] Abbreviation historyOf := (fun x : stateT => history (st_calls x)).
#[local] Abbreviation batchersOf q := (cab_batchers (ms_copyAccountsBatch q)).
Implicit Types (q : storeT) (s : stateT) (w : worldT) (ref : refT).

(** ** One COPY *)

(** A copied batch and its outcome, by the calls its COPY made. *)
Definition copiedTo (target : writeQueries DBTX) (x : batchT * option error) (l : entries) : Prop :=
  exists ctx r, copyRun ctx (rows x.1) target r l /\ x.2 = copyError x.1 r.1 r.2.

Lemma does_moved {A B} (m : storeM A) (k : A -> task stateT B) s0 (Q : A -> Prop) (P : B -> entries -> Prop) :
  (forall s, runs m s (fun a s' => frame s s' /\ Q a)) ->
  (forall a, Q a -> does historyOf (moved s0) P (k a)) ->
  does historyOf (moved s0) P (act m ≫= k).
Proof.
  intros Hm Hk. apply (does_bind _ _ (fun a l => l = [] /\ Q a)); [|intros a l [-> HQ]; by apply Hk].
  apply does_act. intros s Hs.
  destruct (Hm s) as (a & s' & E & Hf & HQ). exists a, s', []. rewrite app_nil_r. split_and!; [done| | |done..].
  - apply (moved_trans s0 s s' Hs). unfold moved. rewrite (fr_calls _ _ Hf). by destruct s.
  - by rewrite (fr_calls _ _ Hf).
Qed.

Lemma copyBatchFunc_runs q ref ctx rws s :
  telemetryOk (telemetry (ms_mesh q)) ->
  runs (runTask (copyBatchFunc ErrorType DebugEnabled q ref ctx rws)) s (fun r s' => moved s s' /\
    exists l ctx', history (st_calls s') = history (st_calls s) ++ l /\ copyRun ctx' rws (qs_write (Target (br_route ref))) r l).
Proof.
  intros Ht. eapply runs_mono; [apply (runs_task historyOf (moved s)
    (fun r l => exists ctx', copyRun ctx' rws (qs_write (Target (br_route ref))) r l))|].
  - unfold copyBatchFunc. apply (does_moved _ _ _ (fun _ => True)).
    { intros s1. eapply runs_mono; [apply timeNow_runs|]. by intros. }
    intros now _. apply (does_moved _ _ _ (fun r => physicalOk r.2)).
    { intros s1. eapply runs_mono; [apply (onTel_runs _ _ (fun r => physicalOk r.2))|by intros ? ? []].
      destruct Ht. by apply startPhysicalQuerySpan_runs. }
    intros [queryCtx physical] Hph. eapply does_bind.
    { apply (does_zoom st_calls setCalls (fun _ _ => eq_refl) history); [|apply writeQueries_copy_does].
      intros s1 calls Hm. unfold moved in *. cbn. destruct Hm. by split. }
    intros r l Hl. apply (does_moved _ _ _ (fun _ => True)).
    { intros s1. eapply runs_mono; [by apply endPhysical_runs|]. by intros. }
    intros _ _. exists queryCtx. by rewrite app_nil_r.
  - unfold moved. by destruct s.
  - intros r s' (Hm & l & Hc & ctx' & Hr). split; [done|]. by exists l, ctx'.
Qed.

(** Reading and stepping a batcher. *)
Lemma onBatcher_read {A} p (f : worldT -> A) w s :
  st_batchers s !! p = Some w -> runs (onBatcher p (fun w => mret (f w, w))) s (fun a s' => a = f w /\ s' = s).
Proof.
  intros Hw. exists (f w), s. split; [|done]. unfold onBatcher. rewrite Hw. cbn. rewrite insert_id by done. by destruct s.
Qed.

Definition withWorld (p : loc) w s : stateT := setBatchers (<[p := w]> (st_batchers s)) (st_next s) s.

Lemma onBatcher_step {A} p (f : worldT -> result (A * worldT)) w a w' s :
  st_batchers s !! p = Some w -> f w = Ok (a, w') ->
  runs (onBatcher p f) s (fun a' s' => a' = a /\ s' = withWorld p w' s).
Proof. intros Hw Hf. exists a, (withWorld p w' s). split; [|done]. unfold onBatcher. by rewrite Hw, Hf. Qed.

(** States that differ in telemetry, calls and the batcher at [p], which has become [w]. *)
Record stepped (p : loc) w s s' : Prop := {
  sp_heap : heapLe (st_heap s) (st_heap s');
  sp_live id : spanLive id s -> spanLive id s';
  sp_batchers : st_batchers s' = <[p := w]> (st_batchers s);
}.

Lemma withWorld_stepped p w s : stepped p w s (withWorld p w s).
Proof. by split. Qed.

Lemma observers_runs ref (seen : list (nat * Context * CopyBatchObservation)) s :
  observes ref ->
  runs (foldM (fun _ '(_, _, observation) => onTel (br_observer ref observation)) tt seen) s
    (fun _ s' => frame s s').
Proof.
  intros Hobs. revert s. induction seen as [|[[o ctx] observation] seen IH]; intros s; [by apply runs_ret|]. cbn [foldM].
  eapply runs_seq; [apply (onTel_runs _ _ (fun _ => True)), Hobs|]. intros [] s1 [_ H1].
  eapply runs_mono; [apply IH|]. intros ? s2 H2. by transitivity s1.
Qed.

Lemma moved_frame s s1 s' : moved s s1 -> frame s1 s' -> moved s s'.
Proof. intros Hm Hf. apply (moved_trans s s1 s' Hm). unfold moved. rewrite (fr_calls _ _ Hf). by destruct s1. Qed.

(** A goroutine in its COPY call. *)
Lemma runBatchCopy_runs q ref i w b t s :
  telemetryOk (telemetry (ms_mesh q)) -> observes ref ->
  st_batchers s !! br_batcher ref = Some w -> running w !! i = Some (GCopy b t) ->
  runs (runBatchCopy ErrorType DebugEnabled q ref i) s (fun done s' => done = true /\ exists l r w',
    copyReturns w i r.1 r.2 = Some w' /\ copiedTo (qs_write (Target (br_route ref))) (b, copyError b r.1 r.2) l /\
    stepped (br_batcher ref) w' s s' /\ history (st_calls s') = history (st_calls s) ++ l).
Proof.
  intros Ht Hobs Hw Hi. unfold runBatchCopy. eapply runs_seq; [by apply (onBatcher_read _ (fun w => running w !! i) w s)|].
  intros ? ? [-> ->]. rewrite Hi. eapply runs_seq; [by apply copyBatchFunc_runs|].
  intros [count err] s1 (Hm1 & l & ctx' & Hc1 & Hrun).
  assert (Hw1 : st_batchers s1 !! br_batcher ref = Some w) by (rewrite (fr_batchers _ _ Hm1); exact Hw).
  destruct (copyReturns w i count err) as [w'|] eqn:Hcr; [|unfold copyReturns in Hcr; by rewrite Hi in Hcr].
  eapply runs_seq.
  { eapply onBatcher_step; [exact Hw1|]. rewrite Hcr. reflexivity. }
  intros seen ? [-> ->]. eapply runs_seq; [by apply observers_runs|]. intros ? s2 Hf. apply runs_ret.
  split; [done|]. exists l, (count, err), w'. split; [done|].
  split; [by exists ctx', (count, err)|]. split.
  - destruct Hm1 as [Hh _ Hb _ Hl], Hf as [Hh2 _ Hb2 _ Hl2]. split; [by etrans|intros id Hid; by apply Hl2, Hl|]. cbn in Hb, Hb2. by rewrite Hb2, Hb.
  - rewrite (fr_calls _ _ Hf). exact Hc1.
Qed.

(** The calls of one more copy. *)
Lemma asked_more (names : list string) (asked : string -> list entries) n l :
  NoDup names -> n ∈ names ->
  concat ((fun m => concat (if decide (m = n) then asked n ++ [l] else asked m)) <$> names) ≡ₚ
  concat ((fun n => concat (asked n)) <$> names) ++ l.
Proof.
  induction 1 as [|m ns Hm Hnd IH]; intros Hin; [by apply elem_of_nil in Hin|].
  cbn. destruct (decide (m = n)) as [->|Hne].
  - assert ((fun m => concat (if decide (m = n) then asked n ++ [l] else asked m)) <$> ns = (fun n => concat (asked n)) <$> ns) as ->.
    { apply list_fmap_ext. intros i k Hk. cbn. rewrite decide_False; [done|]. intros ->. apply Hm.
      by eapply list_elem_of_lookup_2. }
    rewrite concat_app. cbn. rewrite app_nil_r, <- !app_assoc. f_equiv. apply Permutation_app_comm.
  - apply elem_of_cons in Hin as [->|Hin]; [done|]. rewrite (IH Hin). by rewrite app_assoc.
Qed.

(** One row is one part. *)
Lemma planOf_one {X} (nameFor : X -> string) ns x :
  NoDup ns -> nameFor x ∈ ns -> planOf nameFor ns [x] = [(nameFor x, [x])].
Proof.
  assert (Hcons : forall n ns, planOf nameFor (n :: ns) [x] =
    if decide (nameFor x = n) then (n, [x]) :: planOf nameFor ns [x] else planOf nameFor ns [x]).
  { intros n ns'. unfold planOf. rewrite fmap_cons, filter_cons.
    assert (partOf nameFor [x] n = if decide (nameFor x = n) then [x] else []) as -> by done. cbn [snd].
    destruct (decide (nameFor x = n)); [by rewrite decide_True|]. rewrite decide_False; [done|by intros H]. }
  assert (Hskip : forall ns, nameFor x ∉ ns -> planOf nameFor ns [x] = []).
  { clear ns. induction ns as [|n ns IH]; [done|]. intros [Hn Hns]%not_elem_of_cons.
    rewrite Hcons, decide_False by done. by apply IH. }
  induction 1 as [|n ns Hn _ IH]; intros Hin; [by apply elem_of_nil in Hin|]. rewrite Hcons.
  destruct (decide (nameFor x = n)) as [<-|Hne]; [by rewrite Hskip|]. apply IH. by apply elem_of_cons in Hin as [?|?].
Qed.

(** ** A store whose batchers work *)

Section Working.
Context (c : CopyBatchConfig) q (names : list string) (target : string -> writeQueries DBTX).

(** The batchers of the store are those of [names], each its own. *)
Record refsFor : Prop := {
  rf_names : NoDup names;
  rf_set n : n ∈ names -> is_Some (batchersOf q !! n);
  rf_ref n ref : batchersOf q !! n = Some ref ->
    n ∈ names /\ qs_write (Target (br_route ref)) = target n /\ observes ref;
  rf_distinct n m (r1 r2 : refT) : batchersOf q !! n = Some r1 -> batchersOf q !! m = Some r2 ->
    br_batcher r1 = br_batcher r2 -> n = m;
}.
Context (refs : refsFor).

(** The submissions of each batcher, and the calls of each of its copies. *)
#[local] Abbreviation submissionsT := (string -> list (nat * bool * list CopyAccountsParams)).
Context (calls0 : list (dbCall DBTX)).

Record batcherAt (acc : submissionsT) (asked : string -> list entries) s n ref w : Prop := {
  ba_world : st_batchers s !! br_batcher ref = Some w;
  ba_reachable : reachable withoutCancel c [Some 0%nat] w;
  ba_accepted : accepted (hist w) = acc n;
  ba_copied : Forall2 (copiedTo (target n)) (CopyBatch.copied (hist w)) (asked n);
}.

Record copying (acc : submissionsT) (asked : string -> list entries) s : Prop := {
  cp_wf : storeWf q s;
  cp_batcher n ref : batchersOf q !! n = Some ref -> exists w, batcherAt acc asked s n ref w;
  cp_calls : history (st_calls s) ≡ₚ history calls0 ++ concat ((fun n => concat (asked n)) <$> names);
}.

Definition stands (acc : submissionsT) s : Prop := exists asked, copying acc asked s.

(** What a state keeps of an earlier one. *)
Record later s s' : Prop := {
  lt_heap : heapLe (st_heap s) (st_heap s');
  lt_live id : spanLive id s -> spanLive id s';
  lt_world p w : st_batchers s !! p = Some w -> exists w', st_batchers s' !! p = Some w' /\ laterWorld w w';
}.

#[export] Instance later_refl : Reflexive later.
Proof. intros s. split; [done..|]. intros p w H. by exists w. Qed.
#[export] Instance later_trans : Transitive later.
Proof.
  intros s1 s2 s3 [H1 L1 W1] [H2 L2 W2]. split; [by etrans|auto|]. intros p w H.
  destruct (W1 p w H) as (w2 & E2 & L). destruct (W2 p w2 E2) as (w3 & E3 & L'). exists w3. split; [done|by etrans].
Qed.

Lemma frame_later s s' : frame s s' -> later s s'.
Proof. intros [Hh _ Hb _ Hl]. split; [done..|]. intros p w H. exists w. by rewrite Hb. Qed.

Lemma stands_frame acc s s' : stands acc s -> frame s s' -> stands acc s'.
Proof.
  intros [asked [Hwf Hb Hc]] Hf. exists asked. split; [by eapply storeWf_frame| |by rewrite (fr_calls _ _ Hf)].
  intros n ref Href. destruct (Hb n ref Href) as (w & [Hw ? ? ?]). exists w. split; [|done..]. by rewrite (fr_batchers _ _ Hf).
Qed.

(** A batcher that stepped, with the calls of its copy if it copied. *)
Lemma stepped_stands acc acc' asked n ref w w' l s s' :
  copying acc asked s -> batchersOf q !! n = Some ref -> st_batchers s !! br_batcher ref = Some w ->
  reachable withoutCancel c [Some 0%nat] w' -> laterWorld w w' ->
  accepted (hist w') = acc' n -> (forall m, m <> n -> acc' m = acc m) ->
  stepped (br_batcher ref) w' s s' -> history (st_calls s') = history (st_calls s) ++ l ->
  (l = [] /\ CopyBatch.copied (hist w') = CopyBatch.copied (hist w) \/
   exists x, CopyBatch.copied (hist w') = CopyBatch.copied (hist w) ++ [x] /\ copiedTo (target n) x l) ->
  stands acc' s' /\ later s s'.
Proof using refs.
  intros [Hwf Hb Hc] Href Hw Hr Hl Hacc Hother Hst Hcalls Hcopied. destruct (rf_ref refs n ref Href) as (Hn & _).
  destruct (Hb n ref Href) as (w0 & [Hw0 _ _ Hasked]). rewrite Hw in Hw0. injection Hw0 as <-.
  assert (Hwf' : storeWf q s').
  { apply (storeWf_frame q (setBatchers (st_batchers s') (st_next s') (setCalls (st_calls s') s))); [|by destruct Hst].
    destruct Hwf as [? ? [? ?]]. by split. }
  pose proof (sp_batchers _ _ _ _ Hst) as Hbs.
  split.
  2:{ destruct Hst as [Hh Hlive _]. split; [done..|]. intros p w1 Hp. rewrite Hbs.
      destruct (decide (p = br_batcher ref)) as [->|Hne]; [|exists w1; by rewrite lookup_insert_ne].
      exists w'. rewrite lookup_insert_eq. split; [done|]. congruence. }
  assert (Hothers : forall asked' : string -> list entries, (forall m, m <> n -> asked' m = asked m) ->
    Forall2 (copiedTo (target n)) (CopyBatch.copied (hist w')) (asked' n) ->
    forall m r, batchersOf q !! m = Some r -> exists w1, batcherAt acc' asked' s' m r w1).
  { intros asked' Hm Hn' m r Hmr. destruct (decide (m = n)) as [->|Hne].
    - assert (r = ref) as -> by congruence. exists w'. split; [by rewrite Hbs, lookup_insert_eq|done..].
    - destruct (Hb m r Hmr) as (w1 & [? ? ? ?]). exists w1. split; [|done|by rewrite Hother|by rewrite Hm].
      rewrite Hbs, lookup_insert_ne; [done|]. intros E. apply Hne. by apply (rf_distinct refs m n r ref). }
  destruct Hcopied as [[-> Hcp]|(x & Hcp & Hx)].
  - exists asked. split; [done|apply Hothers; [done|by rewrite Hcp]|]. by rewrite Hcalls, app_nil_r.
  - exists (fun m => if decide (m = n) then asked n ++ [l] else asked m). split; [done| |].
    + apply Hothers; [intros m Hm; by rewrite decide_False|]. rewrite decide_True by done. rewrite Hcp.
      apply Forall2_app; [done|]. by constructor.
    + by rewrite Hcalls, Hc, asked_more, app_assoc by (done || apply (rf_names refs)).
Qed.

(** ** Moves *)

(** A move of the batcher of [n]: the others stay, and it was made exactly when
    it is possible. *)
Definition madeMove acc s ref w (m : move) (made : bool) s' : Prop :=
  stands acc s' /\ later s s' /\
  (forall p, p <> br_batcher ref -> st_batchers s' !! p = st_batchers s !! p) /\
  exists w' outcome, st_batchers s' !! br_batcher ref = Some w' /\
    if made then exec withoutCancel w (moveEvent m outcome) = Some (Ok w')
    else w' = w /\ exec withoutCancel w (moveEvent m outcome) = None.

(** The move was an event of the batcher. *)
Lemma moved_by acc asked n ref w w' m outcome l s s' :
  copying acc asked s -> batchersOf q !! n = Some ref -> st_batchers s !! br_batcher ref = Some w ->
  exec withoutCancel w (moveEvent m outcome) = Some (Ok w') ->
  stepped (br_batcher ref) w' s s' -> history (st_calls s') = history (st_calls s) ++ l ->
  match m with
  | MCopy i => exists b t, running w !! i = Some (GCopy b t) /\ copiedTo (target n) (b, copyError b outcome.1 outcome.2) l
  | _ => l = []
  end -> madeMove acc s ref w m true s'.
Proof using refs.
  intros Hs Href Hw He Hst Hcalls Hcopy. destruct (cp_batcher _ _ _ Hs n ref Href) as (w0 & [Hw0 Hr Hacc _]). rewrite Hw in Hw0. injection Hw0 as <-.
  pose proof (exec_recorded _ _ _ _ (reachable_good _ _ _ _ Hr) He) as Hrec.
  assert (Hr' : reachable withoutCancel c [Some 0%nat] w') by (eapply reach_step; [exact Hr|by eexists]).
  pose proof (exec_later _ _ _ _ (reachable_good _ _ _ _ Hr) He) as Hl.
  assert (Hboth : accepted (hist w') = accepted (hist w) /\
    (l = [] /\ CopyBatch.copied (hist w') = CopyBatch.copied (hist w) \/
     exists x, CopyBatch.copied (hist w') = CopyBatch.copied (hist w) ++ [x] /\ copiedTo (target n) x l)).
  { destruct m; cbn [moveEvent recorded] in Hrec; try (by destruct Hrec as [-> ->]; split; [|left]).
    destruct Hrec as (-> & b & t & Hi & ->), Hcopy as (b' & t' & Hi' & Hc). rewrite Hi in Hi'. injection Hi' as <- <-.
    split; [done|]. right. by eexists. }
  destruct Hboth as [Hsame Hcop].
  destruct (stepped_stands acc acc asked n ref w w' l s s' Hs Href Hw Hr' Hl) as [Hstands Hlater]; [congruence|done..|].
  pose proof (sp_batchers _ _ _ _ Hst) as Hbs.
  split; [done|]. split; [done|]. split; [intros p Hp; by rewrite Hbs, lookup_insert_ne|].
  exists w', outcome. by rewrite Hbs, lookup_insert_eq.
Qed.

Lemma makeMove_runs acc n ref w m s :
  stands acc s -> batchersOf q !! n = Some ref -> st_batchers s !! br_batcher ref = Some w ->
  runs (makeMove ErrorType DebugEnabled q ref m) s (fun made s' => madeMove acc s ref w m made s').
Proof using refs.
  intros [asked Hs] Href Hw. destruct (rf_ref refs n ref Href) as (_ & Htarget & Hobs).
  assert (Hidle : forall outcome, exec withoutCancel w (moveEvent m outcome) = None -> madeMove acc s ref w m false s).
  { intros outcome He. split; [by exists asked|]. split; [done|]. split; [done|]. exists w, outcome. by split. }
  destruct (cp_batcher _ _ _ Hs n ref Href) as (w0 & [Hw0 Hr _ _]). rewrite Hw in Hw0. injection Hw0 as <-.
  assert (Hstep : match m with MCopy _ => False | _ => True end ->
    runs (onBatcher (br_batcher ref) (fun w => match exec withoutCancel w (moveEvent m (0, None)) with
        | Some r => w' ← r; mret (true, w') | None => mret (false, w) end)) s
      (fun made s' => madeMove acc s ref w m made s')).
  { intros Hm. destruct (exec withoutCancel w (moveEvent m (0, None))) as [o|] eqn:He.
    - destruct (exec_good withoutCancel w _ o (reachable_good _ _ _ _ Hr) He) as (w' & -> & _).
      eapply runs_mono; [eapply onBatcher_step; [exact Hw|by rewrite He]|]. intros ? ? [-> ->].
      apply (moved_by acc asked n ref w w' m (0, None) [] s); try done; [by rewrite app_nil_r|].
      by destruct m.
    - eapply runs_mono; [eapply onBatcher_step; [exact Hw|by rewrite He]|]. intros ? ? [-> ->].
      unfold withWorld. rewrite insert_id by done. destruct s. by apply (Hidle (0, None)). }
  destruct m; cbn [makeMove]; try (by apply Hstep). clear Hstep.
  destruct (running w !! i) as [[b|b t|err todo completed]|] eqn:Hi.
  2:{ eapply runs_mono; [by eapply runBatchCopy_runs; [apply Hs|..]|].
      intros ? s' (-> & l & r & w' & Hcr & Hc & Hst & Hcalls). rewrite Htarget in Hc.
      eapply (moved_by acc asked n ref w w' (MCopy i) r l s); try done; [cbn; by rewrite Hcr|]. by exists b, t. }
  all: unfold runBatchCopy; (eapply runs_seq; [by apply (onBatcher_read _ (fun w => running w !! i) w s)|]);
    intros ? ? [-> ->]; rewrite Hi; apply runs_ret; apply (Hidle (0, None)); cbn; unfold copyReturns; by rewrite Hi.
Qed.

(** What happens in the background. *)
Lemma background_runs acc s :
  stands acc s -> runs (background ErrorType DebugEnabled q) s (fun _ s' => stands acc s' /\ later s s').
Proof using refs.
  intros Hs. unfold background. apply (runs_seq _ _ _ (fun _ s' => frame s s')); [eexists _, _; split; [reflexivity|by split]|].
  intros moves s1 H1. assert (Hs1 : stands acc s1) by by eapply stands_frame.
  apply (runs_mono _ _ (fun _ s' => stands acc s' /\ later s1 s')).
  2:{ intros ? s' [? ?]. split; [done|]. etrans; [by apply frame_later|done]. }
  clear Hs H1 s. revert s1 Hs1. induction moves as [|[n m] moves IH]; intros s Hs; [by apply runs_ret|]. cbn [foldM].
  destruct (batchersOf q !! n) as [ref|] eqn:Href; [|eapply runs_seq; [by apply (runs_ret tt s (fun _ s' => s' = s))|];
    intros [] ? ->; by apply IH].
  destruct Hs as [asked Hs]. destruct (cp_batcher _ _ _ Hs n ref Href) as (w & [Hw _ _ _]).
  eapply (runs_seq _ _ _ (fun _ s' => stands acc s' /\ later s s')).
  { eapply runs_seq; [apply (makeMove_runs acc n ref w m s); [by exists asked|done..]|].
    intros made s1 (? & ? & _). by apply runs_ret. }
  intros [] s1 [Hs1 H1]. eapply runs_mono; [by apply IH|]. intros ? s2 [? ?]. split; [done|by etrans].
Qed.

(** ** Waiting *)

Lemma settleBatcher_runs acc n ref fuel w s :
  stands acc s -> batchersOf q !! n = Some ref -> st_batchers s !! br_batcher ref = Some w -> (weight w <= fuel)%nat ->
  runs (settleBatcher ErrorType DebugEnabled q ref fuel) s (fun _ s' => stands acc s' /\ later s s' /\
    (forall p, p <> br_batcher ref -> st_batchers s' !! p = st_batchers s !! p) /\
    exists w', st_batchers s' !! br_batcher ref = Some w' /\ quiescent w').
Proof using refs.
  revert w s. induction fuel as [|fuel IH]; intros w s Hs Href Hw Hfuel.
  all: assert (Hg : good w) by (destruct Hs as [asked Hs]; destruct (cp_batcher _ _ _ Hs n ref Href) as (w0 & [Hw0 Hr _ _]);
    rewrite Hw in Hw0; injection Hw0 as <-; by eapply reachable_good).
  all: destruct (nextMove w) as [m|] eqn:Hm.
  1: { destruct (nextMove_enabled withoutCancel w m (0, None) Hg Hm) as [Hint [o He]].
    destruct (exec_good _ _ _ _ Hg He) as (w' & -> & _). pose proof (internal_weight _ _ _ _ Hg Hint He). lia. }
  1: apply runs_ret; split_and!; [done..|]; exists w; split; [done|by apply nextMove_None].
  all: cbn [settleBatcher]; (eapply runs_seq; [by apply (onBatcher_read _ nextMove w s)|]); intros ? ? [-> ->]; rewrite Hm.
  2: apply runs_ret; split_and!; [done..|]; exists w; split; [done|by apply nextMove_None].
  eapply runs_seq; [by apply (makeMove_runs acc n ref w m s)|].
  intros made s1 (Hs1 & Hl1 & Ho1 & w1 & outcome & Hw1 & Hmade).
  destruct (nextMove_enabled withoutCancel w m outcome Hg Hm) as [Hint [o He]].
  destruct made; [|by destruct Hmade as [_ Hno]; rewrite He in Hno].
  pose proof (internal_weight _ _ _ _ Hg Hint Hmade) as Hlt.
  eapply runs_mono; [apply (IH w1 s1); [done..|lia]|].
  intros ? s2 (Hs2 & Hl2 & Ho2 & w2 & Hw2 & Hq). split; [done|]. split; [by etrans|]. split; [|by exists w2].
  intros p Hp. by rewrite Ho2, Ho1.
Qed.

(** Nothing is left to run. *)
Definition settled s : Prop := forall n ref, batchersOf q !! n = Some ref ->
  exists w, st_batchers s !! br_batcher ref = Some w /\ quiescent w.

Lemma settleAll_runs acc (l : list (string * refT)) s :
  stands acc s -> NoDup (fst <$> l) -> (forall n ref, (n, ref) ∈ l -> batchersOf q !! n = Some ref) ->
  runs (foldM (fun _ '(_, ref) =>
    fuel ← onBatcher (br_batcher ref) (fun w => mret (weight w, w));
    settleBatcher ErrorType DebugEnabled q ref fuel) tt l) s (fun _ s' => stands acc s' /\ later s s' /\
    (forall p, (forall n ref, (n, ref) ∈ l -> br_batcher ref <> p) -> st_batchers s' !! p = st_batchers s !! p) /\
    forall n ref, (n, ref) ∈ l -> exists w, st_batchers s' !! br_batcher ref = Some w /\ quiescent w).
Proof using refs.
  revert s. induction l as [|[n ref] l IH]; intros s Hs Hnd Hl.
  { apply runs_ret. split_and!; [done..|]. by intros ? ? ?%elem_of_nil. }
  cbn [fmap list_fmap fst] in Hnd. apply NoDup_cons in Hnd as [Hn Hnd]. cbn [foldM].
  pose proof (Hl n ref ltac:(left)) as Href. assert (exists w, st_batchers s !! br_batcher ref = Some w) as [w Hw].
  { destruct Hs as [asked Hs]. destruct (cp_batcher _ _ _ Hs n ref Href) as (w & [? _ _ _]). by exists w. }
  eapply (runs_seq _ _ _ (fun _ s' => stands acc s' /\ later s s' /\
    (forall p, p <> br_batcher ref -> st_batchers s' !! p = st_batchers s !! p) /\
    exists w', st_batchers s' !! br_batcher ref = Some w' /\ quiescent w')).
  { eapply runs_seq; [by apply (onBatcher_read _ weight w s)|]. intros ? ? [-> ->].
    by apply (settleBatcher_runs acc n ref (weight w) w s). }
  intros [] s1 (Hs1 & Hl1 & Ho1 & w1 & Hw1 & Hq1).
  eapply runs_mono; [apply (IH s1 Hs1 Hnd); intros m r Hr; apply Hl; by right|].
  intros ? s2 (Hs2 & Hl2 & Ho2 & Hq2). split; [done|]. split; [by etrans|]. split.
  - intros p Hp. rewrite Ho2, Ho1; [done| |].
    + intros ->. by apply (Hp n ref ltac:(left)).
    + intros m r Hr. by apply (Hp m r); right.
  - intros m r [[= -> ->]|Hr]%elem_of_cons; [|by apply (Hq2 m)].
    exists w1. split; [|done]. rewrite Ho2; [done|]. intros k r' Hk E.
    assert (k = n) as -> by (apply (rf_distinct refs k n r' ref); [apply Hl; by right|done|done]).
    apply Hn. by apply (list_elem_of_fmap_2 fst) in Hk.
Qed.

Lemma settle_runs acc s :
  stands acc s -> runs (settle ErrorType DebugEnabled q) s (fun _ s' => stands acc s' /\ later s s' /\ settled s').
Proof using refs.
  intros Hs. eapply runs_mono; [apply (settleAll_runs acc _ s Hs); [apply NoDup_fst_map_to_list|]|].
  { intros n ref. apply elem_of_map_to_list. }
  intros ? s' (H1 & H2 & _ & H4). split; [done|]. split; [done|]. intros n ref Href. apply (H4 n). by apply elem_of_map_to_list.
Qed.

(** A future that is resolved when nothing is left to run, and then stays. *)
Record awaitable {A} (acc : submissionsT) (view : stateT -> Future A) s : Prop := {
  aw_stays s1 s2 : later s s1 -> later s1 s2 -> f_done (view s1) = true -> view s2 = view s1;
  aw_settled s1 : later s s1 -> stands acc s1 -> settled s1 -> f_done (view s1) = true;
}.

(** What Await returns: the future's result, or the error its context has then. *)
Definition awaited {A} (ctxErr : nat -> option error) (zero : A) (view : stateT -> Future A) (r : A * option error) s : Prop :=
  (f_done (view s) = true /\ r = (f_value (view s), f_err (view s))) \/
  exists e, ctxErr (st_ticks s) = Some e /\ r = (zero, Some e).

Lemma awaitFuture_runs {A} acc ctxErr (zero : A) view s :
  stands acc s -> awaitable acc view s ->
  runs (awaitFuture ErrorType DebugEnabled q ctxErr zero view) s (fun r s' =>
    stands acc s' /\ later s s' /\ awaited ctxErr zero view r s').
Proof using refs.
  intros Hs [Hstays Hsettled]. unfold awaitFuture.
  eapply runs_seq; [by apply background_runs|]. intros [] s1 [Hs1 L1].
  apply (runs_seq _ _ _ (fun a s' => a = s1 /\ s' = s1)); [by exists s1, s1|]. intros ? ? [-> ->].
  eapply runs_seq; [by apply background_runs|]. intros [] s2 [Hs2 L2].
  apply (runs_seq _ _ _ (fun a s' => a = s2 /\ s' = s2)); [by exists s2, s2|]. intros ? ? [-> ->].
  assert (L12 : later s s2) by by etrans. unfold Await at 1.
  destruct (f_done (view s1)) eqn:D1.
  { pose proof (Hstays s1 s2 L1 L2 D1) as E. apply runs_ret. split_and!; [done..|]. left. by rewrite E. }
  destruct (ctxErr (st_ticks s2)) as [e|] eqn:He; destruct (f_done (view s2)) eqn:D2.
  - destruct (selectDone _); apply runs_ret; (split_and!; [done..|]); [by left|]. right. by exists e.
  - apply runs_ret. split_and!; [done..|]. right. by exists e.
  - apply runs_ret. split_and!; [done..|]. by left.
  - eapply runs_seq; [by apply settle_runs|]. intros [] s3 (Hs3 & L3 & Hset).
    assert (L13 : later s s3) by by etrans.
    apply (runs_seq _ _ _ (fun a s' => a = s3 /\ s' = s3)); [by exists s3, s3|]. intros ? ? [-> ->].
    pose proof (Hsettled s3 L13 Hs3 Hset) as D3. unfold Await. rewrite D3.
    eexists _, s3. split; [reflexivity|]. split_and!; [done..|]. by left.
Qed.

(** ** Flushing *)

(** A flush that was started: its batcher, and that it waits once for every
    submission so far that was not resolved. *)
Definition flushing (acc : submissionsT) s (x : string * loc * nat) : Prop :=
  exists n ref w fl, x = (n, br_batcher ref, fl.1) /\ batchersOf q !! n = Some ref /\
    st_batchers s !! br_batcher ref = Some w /\ flushes w !! fl.1 = Some fl.2 /\ NoDup (fl_barrier fl.2) /\
    forall r, r ∈ (fun y => y.1.1) <$> acc n -> CopyBatchRuns.resolved w r \/ r ∈ fl_barrier fl.2.

Lemma resolved_later w w' r : laterWorld w w' -> CopyBatchRuns.resolved w r -> CopyBatchRuns.resolved w' r.
Proof. intros L (rq & Hl & Hd). destruct (lw_done _ _ L r rq Hl Hd) as (rq' & Hl' & E). exists rq'. by rewrite E. Qed.

Lemma flushing_later acc s s' x : later s s' -> flushing acc s x -> flushing acc s' x.
Proof.
  intros L (n & ref & w & [i fl] & -> & Href & Hw & Hi & Hnd & Hall). destruct (lt_world _ _ L _ _ Hw) as (w' & Hw' & Lw).
  destruct (lw_flush _ _ Lw i fl Hi) as (fl' & Hi' & Hb & _). cbn [snd] in *. exists n, ref, w', (i, fl').
  split_and!; [done..|cbn [snd]; by rewrite Hb|]. intros r Hr. cbn [snd]. rewrite Hb. destruct (Hall r Hr); [left; by eapply resolved_later|by right].
Qed.

Lemma startFlush_runs acc n ref s :
  stands acc s -> batchersOf q !! n = Some ref ->
  runs (startFlush ref) s (fun i s' => stands acc s' /\ later s s' /\ flushing acc s' (n, br_batcher ref, i)).
Proof using refs.
  intros [asked Hs] Href. destruct (cp_batcher _ _ _ Hs n ref Href) as (w & [Hw Hr Hacc Hask]).
  eapply runs_seq; [by apply (onBatcher_read _ (fun w => pending (bt w)) w s)|]. intros ? ? [-> ->].
  set (order := pendingOrder (st_ticks s) (pending (bt w))). set (s1 := setTicks (S (st_ticks s)) s).
  apply (runs_seq _ _ _ (fun o s' => o = order /\ s' = s1)); [by exists order, s1|]. intros ? ? [-> ->].
  assert (Hf1 : frame s s1) by by split. assert (Hs1 : copying acc asked s1).
  { destruct Hs as [Hwf Hb Hc]. split; [by eapply storeWf_frame| |done]. intros m r Hm.
    destruct (Hb m r Hm) as (w1 & [? ? ? ?]). by exists w1. }
  pose proof (reachable_good _ _ _ _ Hr) as Hg.
  assert (He : exec withoutCancel w (EvFlushAsync order) = Some (FlushAsync w order)).
  { cbn. by rewrite bool_decide_eq_true_2 by apply pendingOrder_all. }
  destruct (exec_good _ _ _ _ Hg He) as (w' & Hf & _). rewrite Hf in He.
  pose proof (exec_later _ _ _ _ Hg He) as Lw. destruct (exec_recorded _ _ _ _ Hg He) as [Ha Hc].
  destruct (exec_stable withoutCancel w _ w' Hg He) as [_ Hfl]. cbn in Hfl.
  eapply runs_mono; [eapply (onBatcher_step _ _ w); [exact Hw|by rewrite Hf]|]. intros ? ? [-> ->].
  destruct (stepped_stands acc acc asked n ref w w' [] s1 (withWorld (br_batcher ref) w' s1)) as [Hst Hl];
    try done; [by eapply reach_step; [exact Hr|by eexists]|congruence|by rewrite app_nil_r|by left|].
  split; [done|]. split; [etrans; [by apply frame_later|done]|].
  exists n, ref, w', (length (flushes w), Flusher order order [] (newFuture tt)). split_and!; [done..| | | |].
  - apply lookup_insert_eq.
  - cbn [fst snd]. by rewrite Hfl, lookup_app_r, Nat.sub_diag.
  - cbn [snd fl_barrier]. unfold order. rewrite pendingOrder_all. apply NoDup_elements.
  - intros r Hin. cbn [snd fl_barrier]. rewrite <- Hacc in Hin. apply (inv_accepted _ _ (g_inv _ Hg)) in Hin as [rq Hrq].
    destruct (f_done (rq_result rq)) eqn:Hd; [left; eapply resolved_later; [exact Lw|by exists rq]|]. right.
    unfold order. rewrite pendingOrder_all. apply elem_of_elements. by eapply (inv_unresolved _ _ (g_inv _ Hg)).
Qed.

Lemma flushSet_runs acc done p n s :
  stands acc s -> setNamed s p n -> n ∈ names -> Forall (flushing acc s) done ->
  runs (flushSet ErrorType DebugEnabled q done p) s (fun flushed s' => stands acc s' /\ later s s' /\
    fst ∘ fst <$> flushed = (fst ∘ fst <$> done) ++ [n] /\ Forall (flushing acc s') flushed).
Proof using refs.
  intros Hs Hn Hin Hdone. unfold flushSet. eapply runs_seq; [by apply background_runs|]. intros [] s1 [Hs1 L1].
  eapply runs_seq; [apply (setNamed_name s1 p n)|].
  { unfold setNamed, nameOf in *. by rewrite (hle_sets _ _ (lt_heap _ _ L1)). }
  intros ? ? [-> ->]. destruct (rf_set refs n Hin) as [ref Href]. rewrite Href.
  eapply runs_seq; [by apply startFlush_runs|]. intros i s2 (Hs2 & L2 & Hfl). apply runs_ret.
  split; [done|]. split; [by etrans|]. split; [by rewrite fmap_app|]. apply Forall_app. split; [|by constructor].
  eapply Forall_impl; [exact Hdone|]. intros x. apply flushing_later. by etrans.
Qed.

Lemma startFlushes_runs acc s :
  stands acc s -> setNames q s = names ->
  runs (startFlushes ErrorType DebugEnabled q) s (fun flushed s' => stands acc s' /\ later s s' /\
    fst ∘ fst <$> flushed = names /\ Forall (flushing acc s') flushed).
Proof using refs.
  intros Hs Hnames. unfold startFlushes. rewrite <- Hnames. unfold setNames. fold (namesOf s (ReplicaSets (ms_mesh q))).
  assert (Hall : namesOf s (ReplicaSets (ms_mesh q)) ⊆ names) by (unfold namesOf; fold (setNames q s); by rewrite Hnames).
  assert (Hlive : Forall (fun p => is_Some (nameOf (st_heap s) p)) (ReplicaSets (ms_mesh q))).
  { apply Forall_forall. intros p. destruct Hs as [asked Hs]. apply (replicaSets_named q s p), Hs. }
  assert (Hdone : Forall (flushing acc s) []) by done. clear Hnames. revert Hdone Hall Hlive.
  change (namesOf s (ReplicaSets (ms_mesh q))) with ((fst ∘ fst <$> ([] : list (string * loc * nat))) ++ namesOf s (ReplicaSets (ms_mesh q))).
  generalize ([] : list (string * loc * nat)) as done. revert s Hs. generalize (ReplicaSets (ms_mesh q)) as ps.
  induction ps as [|p ps IH]; intros s Hs done Hdone Hall Hlive.
  { apply runs_ret. split_and!; [done..| |done]. by rewrite app_nil_r. }
  apply Forall_cons in Hlive as [[n Hn] Hlive]. cbn [foldM]. assert (Hcons : namesOf s (p :: ps) = n :: namesOf s ps) by (cbn; by rewrite Hn).
  rewrite Hcons in *. eapply runs_seq; [apply (flushSet_runs acc done p n s); [done|done|set_solver|done]|].
  intros flushed s1 (Hs1 & L1 & Hnm & Hfl).
  assert (Hsame : namesOf s1 ps = namesOf s ps /\ forall p, nameOf (st_heap s1) p = nameOf (st_heap s) p).
  { unfold namesOf, nameOf. by rewrite (hle_sets _ _ (lt_heap _ _ L1)). }
  destruct Hsame as [Hsame Hname]. eapply runs_mono; [apply (IH s1 Hs1 flushed Hfl)|].
  - rewrite Hnm, Hsame. set_solver.
  - eapply Forall_impl; [exact Hlive|]. intros p'. by rewrite Hname.
  - intros flushed' s2 (Hs2 & L2 & Hn2 & Hfl2). split; [done|]. split; [by etrans|]. split; [|done].
    by rewrite Hn2, Hnm, Hsame, <- app_assoc.
Qed.

(** *** Waiting for flushes *)

(** A batcher whose submissions are all resolved. *)
Definition finishedAt s n : Prop := forall ref w,
  batchersOf q !! n = Some ref -> st_batchers s !! br_batcher ref = Some w -> allResolved w.

Lemma batcher_at acc n ref w s :
  stands acc s -> batchersOf q !! n = Some ref -> st_batchers s !! br_batcher ref = Some w ->
  reachable withoutCancel c [Some 0%nat] w /\ good w /\ accepted (hist w) = acc n.
Proof.
  intros [asked Hs] Href Hw. destruct (cp_batcher _ _ _ Hs n ref Href) as (w0 & [Hw0 Hr Ha _]).
  rewrite Hw in Hw0. injection Hw0 as <-. split_and!; [done|by eapply reachable_good|done].
Qed.

(** What was resolved stays resolved, and nothing was submitted since. *)
Lemma finishedAt_later acc s s' n : stands acc s -> stands acc s' -> later s s' -> finishedAt s n -> finishedAt s' n.
Proof.
  intros Hs Hs' L Hf ref w' Href Hw' r rq' Hl'. destruct (Hs) as [asked Hc].
  destruct (cp_batcher _ _ _ Hc n ref Href) as (w & [Hw _ _ _]). destruct (lt_world _ _ L _ _ Hw) as (w1 & Hw1 & Lw).
  rewrite Hw' in Hw1. injection Hw1 as <-.
  destruct (batcher_at _ _ _ _ _ Hs Href Hw) as (_ & Hg & Ha). destruct (batcher_at _ _ _ _ _ Hs' Href Hw') as (_ & Hg' & Ha').
  assert (is_Some (requests w !! r)) as [rq Hl].
  { apply (inv_accepted _ _ (g_inv _ Hg)). rewrite Ha, <- Ha'. apply (inv_accepted _ _ (g_inv _ Hg')). by eexists. }
  pose proof (Hf ref w Href Hw r rq Hl) as Hd. destruct (lw_done _ _ Lw r rq Hl Hd) as (rq1 & Hl1 & E). congruence.
Qed.

(** A set that was flushed with an error or without: everything submitted to it
    is resolved, and the error joins those of the submissions waited for. *)
Definition flushedAt s n (err : option error) : Prop := finishedAt s n /\ exists ref w rs,
  batchersOf q !! n = Some ref /\ st_batchers s !! br_batcher ref = Some w /\ NoDup rs /\
  Forall (CopyBatchRuns.resolved w) rs /\ err = errorsJoin (omap (resultErr w) rs).

Lemma flushedAt_later acc s s' n err :
  stands acc s -> stands acc s' -> later s s' -> flushedAt s n err -> flushedAt s' n err.
Proof.
  intros Hs Hs' L (Hf & ref & w & rs & Href & Hw & Hnd & Hrs & ->). split; [by apply (finishedAt_later acc s s')|].
  destruct (lt_world _ _ L _ _ Hw) as (w' & Hw' & Lw). exists ref, w', rs. split_and!; [done..| |].
  - eapply Forall_impl; [exact Hrs|]. intros r. by apply resolved_later.
  - f_equal. clear Hnd. induction Hrs as [|r rs (rq & Hl & Hd) _ IH]; [done|]. cbn. rewrite IH.
    destruct (lw_done _ _ Lw r rq Hl Hd) as (rq' & Hl' & E). unfold resultErr. rewrite Hl, Hl'. cbn. by rewrite E.
Qed.

Lemma flush_awaitable acc n p i s : flushing acc s (n, p, i) -> awaitable acc (flushView p i) s.
Proof.
  intros (n' & ref & w & [j fl] & [= <- -> ->] & Href & Hw & Hi & _ & _). cbn [fst snd] in *. split.
  - intros s1 s2 _ L. unfold flushView. destruct (st_batchers s1 !! br_batcher ref) as [w1|] eqn:E1; [|done]. cbn.
    destruct (flushes w1 !! j) as [fl1|] eqn:F1; [|done]. intros Hd. destruct (lt_world _ _ L _ _ E1) as (w2 & -> & Lw). cbn.
    destruct (lw_flush _ _ Lw j fl1 F1) as (fl2 & -> & _ & E). by apply E.
  - intros s1 L _ Hset. destruct (lt_world _ _ L _ _ Hw) as (w1 & Hw1 & Lw). destruct (lw_flush _ _ Lw j fl Hi) as (fl1 & F1 & _).
    destruct (Hset n ref Href) as (w1' & Hw1' & Hq). rewrite Hw1 in Hw1'. injection Hw1' as <-.
    unfold flushView. rewrite Hw1. cbn. rewrite F1. apply (q_flushes _ Hq). by eapply list_elem_of_lookup_2.
Qed.

(** A flush that is done. *)
Lemma flush_finished acc n p i s :
  stands acc s -> flushing acc s (n, p, i) -> f_done (flushView p i s) = true -> flushedAt s n (f_err (flushView p i s)).
Proof.
  intros Hs (n' & ref & w & [j fl] & [= <- -> ->] & Href & Hw & Hi & Hnd & Hall) Hd. cbn [fst snd] in *.
  destruct (batcher_at _ _ _ _ _ Hs Href Hw) as (Hr & Hg & Ha).
  pose proof (reachable_flushes _ _ _ _ Hr) as Hok. unfold flushesOk in Hok.
  destruct (Forall_lookup_1 _ _ _ _ Hok Hi) as (done & Hbar & Hres & Herr & Hdone).
  unfold flushView in *. rewrite Hw in *. cbn in *. rewrite Hi in *. destruct (Hdone Hd) as [Ht Hf].
  rewrite Ht, app_nil_r in Hbar. subst done. split.
  - intros ref' w' Href' Hw' r rq Hl. simplify_eq.
    assert (Hin : r ∈ (fun y => y.1.1) <$> acc n) by (rewrite <- Ha; apply (inv_accepted _ _ (g_inv _ Hg)); by eexists).
    destruct (Hall r Hin) as [(rq' & Hl' & Hd')|Hb]; [congruence|]. destruct (Hres r Hb) as (rq' & Hl' & Hd'). congruence.
  - exists ref, w, (fl_barrier fl). split_and!; [done..|by apply Forall_forall|]. rewrite Hf. cbn. by rewrite Herr.
Qed.

Definition flushFailed (n : string) (e : error) : error :=
  Errorf "flush CopyAccounts on replica set %q: %w" [AStr n] [e].

(** The errors of the flushes of [ns], in order: one for each flush that failed.
    The waits end early, after a flush that failed or in the midst of one, when
    the context has an error then. *)
Inductive flushErrors (flushed : string -> option error -> Prop) (ctxErr : option error) : list string -> list error -> Prop :=
  | flush_none : flushErrors flushed ctxErr [] []
  | flush_set n err ns es : flushed n err -> flushErrors flushed ctxErr ns es ->
      flushErrors flushed ctxErr (n :: ns) (option_list (flushFailed n <$> err) ++ es)
  | flush_stopped n e ns : flushed n (Some e) -> ctxErr <> None -> flushErrors flushed ctxErr (n :: ns) [flushFailed n e]
  | flush_context n e ns : ctxErr = Some e -> flushErrors flushed ctxErr (n :: ns) [flushFailed n e].

Lemma flushErrors_mono (P Q : string -> option error -> Prop) ctxErr ns es :
  (forall n err, n ∈ ns -> P n err -> Q n err) -> flushErrors P ctxErr ns es -> flushErrors Q ctxErr ns es.
Proof.
  intros HPQ. induction 1 as [|n err ns es Hn _ IH|n e ns Hn Hc|n e ns Hc].
  - constructor.
  - constructor; [apply HPQ; [left|done]|]. apply IH. intros m err' Hm. apply HPQ. by right.
  - constructor; [apply HPQ; [left|done]|done].
  - by constructor.
Qed.

(** Without an error every set was flushed. *)
Lemma flushErrors_nil (P : string -> option error -> Prop) ctxErr ns es :
  flushErrors P ctxErr ns es -> es = [] -> forall n, n ∈ ns -> P n None.
Proof.
  induction 1 as [|n err ns es Hn _ IH|n e ns Hn Hc|n e ns Hc]; [by intros _ ? ?%elem_of_nil| |done..].
  destruct err; [done|]. cbn. intros Hes m [->|Hm]%elem_of_cons; [done|by apply IH].
Qed.

Lemma awaitFlushes_runs acc ctxErr errs flushed s :
  stands acc s -> Forall (flushing acc s) flushed ->
  runs (awaitFlushes ErrorType DebugEnabled q ctxErr errs flushed) s (fun r s' => stands acc s' /\ later s s' /\
    exists es, r = errorsJoin (errs ++ es) /\ flushErrors (flushedAt s') (ctxErr (st_ticks s')) (fst ∘ fst <$> flushed) es).
Proof using refs.
  revert errs s. induction flushed as [|[[n p] i] flushed IH]; intros errs s Hs Hfl; cbn [awaitFlushes].
  { apply runs_ret. split_and!; [done..|]. exists []. rewrite app_nil_r. by split; [|constructor]. }
  apply Forall_cons in Hfl as [Hf Hfl].
  eapply runs_seq; [by apply (awaitFuture_runs acc ctxErr tt (flushView p i) s Hs), (flush_awaitable acc n)|].
  intros [u err] s1 (Hs1 & L1 & Hr). pose proof (flushing_later _ _ _ _ L1 Hf) as Hf1.
  assert (Hfl1 : Forall (flushing acc s1) flushed) by (eapply Forall_impl; [exact Hfl|]; intros x; by apply flushing_later).
  assert (Hrest : forall errs' (a : option error), errs' = errs ++ option_list (flushFailed n <$> a) -> flushedAt s1 n a ->
    runs (awaitFlushes ErrorType DebugEnabled q ctxErr errs' flushed) s1 (fun r s' => stands acc s' /\ later s s' /\
      exists es, r = errorsJoin (errs ++ es) /\
        flushErrors (flushedAt s') (ctxErr (st_ticks s')) (n :: (fst ∘ fst <$> flushed)) es)).
  { intros errs' a -> Ha. eapply runs_mono; [by apply IH|]. intros r s2 (Hs2 & L2 & es & -> & Hes).
    split; [done|]. split; [by etrans|]. eexists. rewrite <- app_assoc. split; [done|].
    constructor; [by apply (flushedAt_later acc s1)|done]. }
  assert (Hstop : forall e, err = Some e -> (ctxErr (st_ticks s1) = Some e \/ flushedAt s1 n (Some e)) ->
    runs (s ← get_state; if isSome (ctxErr (st_ticks s)) then mret (errorsJoin (errs ++ [flushFailed n e]))
      else awaitFlushes ErrorType DebugEnabled q ctxErr (errs ++ [flushFailed n e]) flushed) s1
      (fun r s' => stands acc s' /\ later s s' /\ exists es, r = errorsJoin (errs ++ es) /\
        flushErrors (flushedAt s') (ctxErr (st_ticks s')) (n :: (fst ∘ fst <$> flushed)) es)).
  { intros e -> He. apply (runs_seq _ _ _ (fun a s' => a = s1 /\ s' = s1)); [by exists s1, s1|]. intros ? ? [-> ->].
    destruct (ctxErr (st_ticks s1)) as [e'|] eqn:Hc; cbn [isSome].
    - apply runs_ret. split_and!; [done..|]. exists [flushFailed n e]. split; [done|]. rewrite Hc.
      destruct He as [[= ->]|He]; [by apply flush_context|by apply flush_stopped].
    - destruct He as [?|He]; [done|]. by apply (Hrest _ (Some e)). }
  destruct Hr as [[Hd [= _ ->]]|(e & Ht & [= _ ->])]; [|by apply Hstop; [|left]].
  pose proof (flush_finished acc n p i s1 Hs1 Hf1 Hd) as Ha. destruct (f_err (flushView p i s1)) as [e|].
  - by apply Hstop; [|right].
  - apply (Hrest _ None); [by rewrite app_nil_r|done].
Qed.

Lemma FlushCopyAccounts_runs acc ctxErr s :
  stands acc s -> setNames q s = names ->
  runs (FlushCopyAccounts ErrorType DebugEnabled q ctxErr) s (fun r s' => stands acc s' /\ later s s' /\
    exists es, r = errorsJoin es /\ flushErrors (flushedAt s') (ctxErr (st_ticks s')) names es).
Proof using refs.
  intros Hs Hnames. unfold FlushCopyAccounts. eapply runs_seq; [by apply startFlushes_runs|].
  intros flushed s1 (Hs1 & L1 & <- & Hfl). eapply runs_mono; [by apply awaitFlushes_runs|].
  intros r s2 (Hs2 & L2 & Hr). split; [done|]. split; [by etrans|done].
Qed.

(** *** Futures of one row *)

(** The source of a future for [row], submitted to the batcher of [n] as [r]. *)
Definition oneCopy (acc : submissionsT) (source : asyncSource) n (r : nat) (row : CopyAccountsParams) : Prop :=
  exists ref, source = AsyncParts [(n, br_batcher ref, SRequest r)] /\ batchersOf q !! n = Some ref /\
    (r, true, [row]) ∈ acc n.

(** How the submission [r] to the batcher of [n] ended. *)
Definition outcomeAt s n (r : nat) (err : option error) : Prop := exists ref w rq, batchersOf q !! n = Some ref /\
  st_batchers s !! br_batcher ref = Some w /\ requests w !! r = Some rq /\
  f_done (rq_result rq) = true /\ f_err (rq_result rq) = err.

Lemma outcomeAt_later s s' n r err : later s s' -> outcomeAt s n r err -> outcomeAt s' n r err.
Proof.
  intros L (ref & w & rq & Href & Hw & Hl & Hd & He). destruct (lt_world _ _ L _ _ Hw) as (w' & Hw' & Lw).
  destruct (lw_done _ _ Lw r rq Hl Hd) as (rq' & Hl' & E). exists ref, w', rq'. by rewrite E.
Qed.

(** The error of a future with one part that failed. *)
Definition partFailed (n : string) (e : error) : error :=
  Joined [Errorf "query CopyAccounts on replica set %q: %w" [AStr n] [e]].

(** The request of a future in a state. *)
Lemma oneCopy_at acc source n r row s :
  stands acc s -> oneCopy acc source n r row -> exists ref w rq, batchersOf q !! n = Some ref /\
    st_batchers s !! br_batcher ref = Some w /\ good w /\ requests w !! r = Some rq /\ rowCount rq = 1 /\
    asyncView source s = if f_done (rq_result rq)
      then let r := combineParts [(n, (f_value (rq_result rq), f_err (rq_result rq)))] in MkFuture true r.1 r.2
      else newFuture 0.
Proof.
  intros Hs (ref & -> & Href & Hin). assert (exists w, st_batchers s !! br_batcher ref = Some w) as [w Hw].
  { destruct Hs as [asked Hs]. destruct (cp_batcher _ _ _ Hs n ref Href) as (w & [? _ _ _]). by exists w. }
  destruct (batcher_at _ _ _ _ _ Hs Href Hw) as (_ & Hg & Ha).
  destruct (proj2 (inv_accepted _ _ (g_inv _ Hg) r)) as [rq Hl].
  { rewrite Ha. by apply (list_elem_of_fmap_2 (fun x => x.1.1)) in Hin. }
  exists ref, w, rq. split_and!; [done..| |].
  - by rewrite (inv_rowCount _ _ (g_inv _ Hg) r true [row] rq ltac:(by rewrite Ha) Hl).
  - unfold asyncView, asyncResult. cbn [mapM partResult]. rewrite Hw. cbn. rewrite Hl. cbn.
    destruct (f_done (rq_result rq)); [|done]. cbn [fmap option_fmap option_map mbind option_bind mret option_ret].
    by destruct (combineParts _).
Qed.

Lemma oneCopy_awaitable acc source n r row s :
  stands acc s -> oneCopy acc source n r row -> awaitable acc (asyncView source) s.
Proof.
  intros Hs Hone. split.
  - destruct Hone as (ref & -> & _ & _). intros s1 s2 _ L. unfold asyncView, asyncResult. cbn [mapM partResult].
    destruct (st_batchers s1 !! br_batcher ref) as [w1|] eqn:E1; [|done]. cbn.
    destruct (requests w1 !! r) as [rq1|] eqn:R1; [|done]. cbn. destruct (f_done (rq_result rq1)) eqn:D1; [|done]. intros _.
    destruct (lt_world _ _ L _ _ E1) as (w2 & -> & Lw). cbn. destruct (lw_done _ _ Lw r rq1 R1 D1) as (rq2 & -> & E).
    cbn. by rewrite E, D1.
  - intros s1 _ Hs1 Hset. destruct (oneCopy_at _ _ _ _ _ _ Hs1 Hone) as (ref & w & rq & Href & Hw & _ & Hl & _ & ->).
    destruct (Hset n ref Href) as (w' & Hw' & Hq). rewrite Hw in Hw'. injection Hw' as <-. by rewrite (q_resolved _ Hq r rq Hl).
Qed.

(** The waits and the end of a future with span [id]. *)
Definition awaitedIn (f : asyncFuture (DBTX := DBTX) (Tracer := Tracer) (Instrument := Instrument) (Logger := Logger)) (id : nat) : Prop :=
  af_finish f = [endLogical ErrorType DebugEnabled id] /\
  af_await f = fun ctxErr => awaitFuture ErrorType DebugEnabled q ctxErr 0 (asyncView (af_source f)).

Lemma Future_Await_runs acc ctxErr f id n r row s :
  stands acc s -> (forall t, ctxErr t = None) -> oneCopy acc (af_source f) n r row ->
  awaitedIn f id -> spanLive id s ->
  runs (Future_Await ctxErr f) s (fun result s' => stands acc s' /\ later s s' /\
    match result.2 with
    | None => result.1 = 1 /\ outcomeAt s' n r None
    | Some e => exists e', e = partFailed n e' /\ outcomeAt s' n r (Some e')
    end).
Proof using refs.
  intros Hs Hctx Hone [Hfin Haw] Hid. unfold Future_Await. rewrite Haw.
  eapply runs_seq; [by apply (awaitFuture_runs acc), (oneCopy_awaitable acc _ n r row)|].
  intros [count err] s1 (Hs1 & L1 & Hr). destruct Hr as [[Hd Hr]|(e & Ht & _)]; [|by rewrite Hctx in Ht].
  destruct (oneCopy_at _ _ _ _ _ _ Hs1 Hone) as (ref & w & rq & Href & Hw & Hg & Hl & Hrows & Hview).
  apply (runs_seq _ _ _ (fun _ s' => frame s1 s')).
  { unfold awaitAsync. apply (runs_seq _ _ _ (fun a s' => a = s1 /\ s' = s1)); [by exists s1, s1|]. intros ? ? [-> ->].
    unfold asyncView in Hd. destruct (asyncResult s1 (af_source f)) as [[v e]|]; [|done]. rewrite Hfin.
    apply (runs_seq _ _ _ (fun _ s' => frame s1 s')); [|intros ? s2 H2; by apply runs_ret].
    eapply runs_seq; [apply (endLogical_runs _ _ id), (lt_live _ _ L1 id Hid)|]. intros ? s2 H2. by apply runs_ret. }
  intros ? s2 H2. pose proof (frame_later _ _ H2) as L2. apply runs_ret.
  split; [by eapply stands_frame|]. split; [by etrans|]. rewrite Hview in Hd, Hr.
  destruct (f_done (rq_result rq)) eqn:Hdone; [|done]. rewrite Hr. cbn [fst snd f_value f_err].
  unfold combineParts. cbn [foldl]. destruct (f_err (rq_result rq)) as [e|] eqn:He.
  - cbn. exists e. split; [done|]. apply (outcomeAt_later s1); [done|]. by exists ref, w, rq.
  - assert (Hval : f_value (rq_result rq) = 1).
    { pose proof (inv_result _ _ (g_inv _ Hg) r rq Hl Hdone) as Hres. rewrite Hres in He |- *. cbn in He |- *.
      apply errorsJoin_None in He. by rewrite He. }
    cbn. rewrite Hval. split; [done|]. apply (outcomeAt_later s1); [done|]. by exists ref, w, rq.
Qed.

(** A submission of one row. *)
Definition submitTo (acc : submissionsT) n r (row : CopyAccountsParams) : submissionsT :=
  fun m => if decide (m = n) then acc n ++ [(r, true, [row])] else acc m.

Lemma submit_runs acc ctx row n s :
  stands acc s -> setNames q s = names -> cab_enabled (ms_copyAccountsBatch q) = true -> ctx_err ctx = None ->
  routable q (cat_TenantKey row) -> setNameOf q s (cat_TenantKey row) = n ->
  runs (CopyAccountsAsync ErrorType DebugEnabled q ctx [Some row]) s (fun f s' => exists id r,
    stands (submitTo acc n r (CopyAccountsT_sqlcParams row)) s' /\ later s s' /\
    oneCopy (submitTo acc n r (CopyAccountsT_sqlcParams row)) (af_source f) n r (CopyAccountsT_sqlcParams row) /\
    awaitedIn f id /\ spanLive id s' /\ r ∉ fst ∘ fst <$> acc n).
Proof using refs.
  intros [asked Hs] Hnames Hen Hctx Hkey Hn. pose proof (cp_wf _ _ _ Hs) as Hwf.
  assert (Hready : batchersReady c q s).
  { split; [|apply (rf_distinct refs)]. intros m. rewrite Hnames. intros [ref Href]%(rf_set refs).
    destruct (cp_batcher _ _ _ Hs m ref Href) as (w & [? ? _ _]). by exists ref, w. }
  eapply runs_mono; [apply (CopyAccountsAsync_runs ErrorType DebugEnabled c q s ctx [row] Hwf Hready); by constructor|].
  intros f s' (id & [Htr Hpost] & Hfin). rewrite Hctx in Hpost. destruct Hpost as (parts & Hsrc & Hdel & Hothers & _).
  assert (Hplan : copyPlan q s [row] = [(n, [row])]).
  { unfold copyPlan. rewrite planOf_one; [by unfold rowSet; rewrite Hn|by apply setNames_NoDup|by apply setNameOf_elem]. }
  rewrite Hplan in Hdel, Hothers. apply Forall2_cons_inv_l in Hdel as (x & parts' & Hdel & Hnil & ->).
  apply Forall2_nil_inv_l in Hnil as ->. destruct Hdel as (ref & w & w' & Href & -> & Hw & Hw' & Hacc & Hcop & Hlat & Hr).
  cbn [fst snd fmap list_fmap] in *. rewrite Hen in Hacc. set (r := nextRequest w) in *. exists id, r.
  destruct (cp_batcher _ _ _ Hs n ref Href) as (w0 & [Hw0 Hreach Ha _]). rewrite Hw in Hw0. injection Hw0 as <-.
  assert (Hst : stepped (br_batcher ref) w' s s').
  { destruct Htr as [_ Hh Hl _]. split; [done..|]. apply map_eq. intros p. destruct (decide (p = br_batcher ref)) as [->|Hne].
    - by rewrite lookup_insert_eq.
    - rewrite lookup_insert_ne by done. apply Hothers. intros m r' ->%list_elem_of_singleton Hm. congruence. }
  destruct (stepped_stands acc (submitTo acc n r (CopyAccountsT_sqlcParams row)) asked n ref w w' [] s s') as [Hstands Hlater]; try done.
  - unfold submitTo. rewrite decide_True by done. by rewrite Hacc, Ha.
  - intros m Hm. unfold submitTo. by rewrite decide_False.
  - by rewrite (tra_calls _ _ _ Htr), app_nil_r.
  - by left.
  - split; [done|]. split; [done|]. split; [|split; [done|split; [apply (tra_span _ _ _ Htr)|]]].
    2:{ pose proof (g_inv _ (reachable_good _ _ _ _ Hreach)) as Hinv. rewrite <- Ha. intros Hin.
        destruct (proj2 (inv_accepted _ _ Hinv r) Hin) as [rq Hl]. pose proof (inv_fresh _ _ Hinv r rq Hl). unfold r in *. lia. }
    exists ref. split; [done|]. split; [done|]. unfold submitTo. rewrite decide_True by done.
    apply elem_of_app. right. by left.
Qed.

End Working.
End Async.
