(* ===== verification/AsyncProgram.v ===== *)
(** * AsyncProgram: asynchronous copies (examples/05-async-copy-batching)

    The program opens the sharded accounts store with copy batching, submits
    three rows for two shards, flushes with a deadline, and awaits the three
    futures. The batchers' goroutines run between its steps and while it waits. *)

From S2P Require Import Prelude Errors GoStrings Hasher Balancer Routing Telemetry Future CopyBatch CopyBatchInv CopyBatchSteps CopyBatchRuns CopyBatchMoves Builder Topology OpenMesh Tasks StoreQueries Store StoreOps StoreAsync StoreBuild StoreLemmas StoreRefine MemoryDriver StoreOpen StoreFanout StoreCopy StoreSubmit Programs ProgramStore TwoShards AsyncRuns.

#[local] Open Scope Z_scope.

(** ** The program *)

(** [context.WithTimeout]: the error of the context at a tick. *)
Definition WithTimeout {RT : Runtime} (ctx : Context) (tick : nat) : option error :=
  match ctx_err ctx, deadline with
  | Some e, _ => Some e
  | None, Some d => if (d <=? tick)%nat then Some (StdError ContextDeadlineExceeded) else None
  | None, None => None
  end.

Definition batching : CopyBatchConfig := MkConfig 100 (3600 * 1000000000) DefaultCopyBatchMaxConcurrentBatches.

Section Program.
Context {DBTX : Type} `{!Driver DBTX} `{!Platform DBTX} {RT : Runtime}.
Context {Tracer Instrument Logger : Type}.
Context (ErrorType : error -> KeyValue) (DebugEnabled : Logger -> bool).
Context (gtp : TracerProvider Tracer) (gmp : MeterProvider Instrument).
#[local] Abbreviation stateT := (storeState DBTX Tracer Instrument Logger).
#[local] Abbreviation appM := (stE (stateT * world DBTX) error).
#[local] Abbreviation storeI := (Store (DBTX := DBTX) (Tracer := Tracer) (Instrument := Instrument) (Logger := Logger)).
#[local] Abbreviation futureT := (asyncFuture (DBTX := DBTX) (Tracer := Tracer) (Instrument := Instrument) (Logger := Logger)).

Definition newStore (shard0 shard1 : DBTX) : appM storeI :=
  openTwoShards ErrorType DebugEnabled gtp gmp "create store: %w" shard0 [] shard1 []
    [Some (WithCopyAccountsBatching batching)].

(** The rows; [baseID] is the time the program starts at, in nanoseconds. *)
Definition submissions (baseID : Z) : list CopyAccountsT :=
  [ MkCopyAccountsT (MkTenantKey 20) baseID "first shard-zero submission";
    MkCopyAccountsT (MkTenantKey 21) (wrap_s 64 (baseID + 1)) "second shard-zero submission";
    MkCopyAccountsT (MkTenantKey 100) (wrap_s 64 (baseID + 2)) "shard-one submission" ].

(** The list of futures: one call for each row. *)
Fixpoint submitAll (store : storeI) (ctx : Context) (rows : list CopyAccountsT) : appM (list futureT) :=
  match rows with
  | [] => mret []
  | row :: rows =>
      _ ← inStore (Store_Background store);
      future ← inStore (Accounts_CopyAccountsAsync (Store_Accounts store) ctx [Some row]);
      futures ← submitAll store ctx rows;
      mret (future :: futures)
  end.

(** The loop over the futures. *)
Fixpoint awaitAll (ctx : Context) (index : nat) (total : Z) (futures : list futureT) : appM Z :=
  match futures with
  | [] => mret total
  | future :: futures =>
      count ← checkedAs (fun e => Errorf "await account copy %d: %w" [AInt (Z.of_nat index)] [e])
        (inStore (Future_Await (fun _ => ctx_err ctx) future));
      awaitAll ctx (S index) (s64 (total + count)) futures
  end.

Definition copies (store : storeI) (ctx : Context) (baseID : Z) : appM unit :=
  futures ← submitAll store ctx (submissions baseID);
  _ ← checked "flush account copies: %w"
    (err ← inStore (Accounts_FlushCopyAccounts (Store_Accounts store) (WithTimeout ctx)); mret (tt, err));
  total ← awaitAll ctx 0 0 futures;
  note (Printed "asynchronous COPY wrote %d accounts\n" [AInt total]).

Definition run (ctx : Context) : appM unit :=
  shard0 ← openPool "ASYNC_COPY_SHARD0_DSN";
  deferring (note (PoolClosed shard0)) (
    shard1 ← openPool "ASYNC_COPY_SHARD1_DSN";
    deferring (note (PoolClosed shard1)) (
      store ← newStore shard0 shard1;
      now ← inStore timeNow;
      copies store ctx (wrap_s 64 now))).

End Program.

(** ** What the program does *)

Section Spec.
Context {DBTX : Type} `{!Driver DBTX} `{!Platform DBTX} {RT : Runtime}.
#[local] Abbreviation callsT := (list (dbCall DBTX)).
#[local] Abbreviation entries := (list (list (dbCall DBTX) * dbCall DBTX)).

(** A COPY: its rows and its error. A count that is not that of the rows is an
    error. *)
#[local] Abbreviation copyT := (list CopyAccountsParams * option error)%type.

Definition copyFailure (rws : list CopyAccountsParams) (r : Z * option error) : option error :=
  match r with
  | (_, Some e) => Some e
  | (count, None) =>
      if count =? Z.of_nat (length rws) then None
      else Some (Errorf "%w: got %d, want %d" [AInt count; AInt (Z.of_nat (length rws))]
                   [Sentinel ErrCopyBatchCountMismatch])
  end.

(** The copy made one call to [d], answered from the calls before it. *)
Definition copiedOn (d : DBTX) (copy : copyT) (l : entries) : Prop :=
  exists hist ctx, l = [(hist, copyCall copy.1 (New d))] /\
    copy.2 = copyFailure copy.1 (copyAnswer ctx copy.1 hist (New d)).

Definition copiedRowsOf (l : list copyT) : list CopyAccountsParams := concat (fst <$> l).
Definition someFailed (l : list copyT) : Prop := exists copy, copy ∈ l /\ copy.2 <> None.

(** The rows as they are submitted, and the shard of each. *)
Definition submitted (base : Z) : list CopyAccountsParams := CopyAccountsT_sqlcParams <$> submissions base.
Definition shardOf (index : nat) : string := if (index <? 2)%nat then "shard-0" else "shard-1".

(** The rows of each shard. *)
Definition rowsOn (base : Z) (shard : string) : list CopyAccountsParams :=
  if bool_decide (shard = "shard-0") then take 2 (submitted base) else drop 2 (submitted base).

Section Work.
Context (p0 p1 : DBTX) (base : Z).
#[local] Abbreviation shards := ["shard-0"; "shard-1"].

Section Copies.
Context (copiesOf : string -> list copyT).

(** Every row of the shard was copied once. *)
Definition allCopied (shard : string) : Prop := copiedRowsOf (copiesOf shard) ≡ₚ rowsOn base shard.

(** The COPY that held the row ended with this error, or without one. *)
Definition rowEnded (shard : string) (x : CopyAccountsParams) (err : option error) : Prop :=
  exists copy, copy ∈ copiesOf shard /\ x ∈ copy.1 /\ copy.2 = err.

(** A flush of a shard that ended: its rows are copied, and its error joins those
    of the rows it waited for, each the error of the COPY that held the row. *)
Definition flushedShard (shard : string) (err : option error) : Prop :=
  allCopied shard /\ exists xs errs, NoDup xs /\ Forall2 (rowEnded shard) xs errs /\
    err = errorsJoin ((fun e => Joined [e]) <$> omap id errs).

(** The error of the future of row [index], when the COPY that held it failed with [cause]. *)
Definition awaitFailed (index : nat) (cause : error) : error :=
  Errorf "await account copy %d: %w" [AInt (Z.of_nat index)] [partFailed (shardOf index) (Joined [cause])].

(** How the program ends: with the copied rows printed; with the error of the
    flush, where [timeout] is the error its context has by then; or with the
    error of the first row whose COPY failed. *)
Definition asyncEnd (timeout : option error) (o : result unit) (es : list (event DBTX)) : Prop :=
  match o with
  | Ok _ => es = [Printed "asynchronous COPY wrote %d accounts\n" [AInt 3]] /\
      Forall (fun n => allCopied n /\ ~ someFailed (copiesOf n)) shards
  | Err e => es = [] /\
      ((exists errs cause, flushErrors flushedShard timeout shards errs /\ errorsJoin errs = Some cause /\
          e = Errorf "flush account copies: %w" [] [cause]) \/
       (Forall allCopied shards /\ exists index x cause, submitted base !! index = Some x /\
          rowEnded (shardOf index) x (Some cause) /\ e = awaitFailed index cause /\
          forall j y, (j < index)%nat -> submitted base !! j = Some y -> rowEnded (shardOf j) y None))
  | Panic => False
  end.

End Copies.

Definition asyncWork (calls : callsT) (timeout : option error) : result unit -> callsT -> list (event DBTX) -> Prop := fun o calls' es =>
  exists (copiesOf : string -> list copyT) (asked : string -> list entries),
    history calls' ≡ₚ history calls ++ concat ((fun n => concat (asked n)) <$> shards) /\
    Forall (fun n => Forall2 (copiedOn (primaryDB p0 p1 n)) (copiesOf n) (asked n) /\
      copiedRowsOf (copiesOf n) ⊆+ rowsOn base n) shards /\
    asyncEnd copiesOf timeout o es.

End Work.
End Spec.

(** ** The opened store *)

Lemma mirrorsOf_none n : mirrorsOf mappings n = [].
Proof.
  unfold mirrorsOf. destruct (list_find _ mappings) as [[i m]|] eqn:E; [|done].
  apply list_find_Some in E as (Hi & _). apply list_elem_of_lookup_2 in Hi. unfold mappings in Hi.
  rewrite !elem_of_cons in Hi. by destruct Hi as [->|[->|[]%elem_of_nil]].
Qed.

Section Proofs.
Context {DBTX : Type} `{!Driver DBTX} `{!Platform DBTX} {RT : Runtime}.
Context {Tracer Instrument Logger : Type}.
Context (ErrorType : error -> KeyValue) (DebugEnabled : Logger -> bool).
Context (gtp : TracerProvider Tracer) (gmp : MeterProvider Instrument).
#[local] Abbreviation stateT := (storeState DBTX Tracer Instrument Logger).
#[local] Abbreviation appM := (stE (stateT * world DBTX) error).
#[local] Abbreviation storeI := (Store (DBTX := DBTX) (Tracer := Tracer) (Instrument := Instrument) (Logger := Logger)).
#[local] Abbreviation storeT := (meshStore DBTX Z Tracer Instrument Logger).
#[local] Abbreviation futureT := (asyncFuture (DBTX := DBTX) (Tracer := Tracer) (Instrument := Instrument) (Logger := Logger)).
#[local] Abbreviation entries := (list (list (dbCall DBTX) * dbCall DBTX)).
#[local] Abbreviation batchersOf q := (cab_batchers (ms_copyAccountsBatch q)).
Implicit Types (s : stateT) (q : storeT).

Section Copies.
Context (p0 p1 : DBTX).
#[local] Abbreviation names := ["shard-0"; "shard-1"].

(** Writes to a set go to its primary. *)
Definition primaryOf (n : string) : writeQueries DBTX := newWriteQueries (New (primaryDB p0 p1 n)) [].

(** The set at [p] has its primary and no mirrors. *)
Lemma set_target q s p st :
  onTwoShards p0 p1 q s -> p ∈ ReplicaSets (ms_mesh q) -> replicaSetsAt (st_heap s) !! p = Some st ->
  qs_write (Target (routeOf st (selectWrite st))) = primaryOf (rs_name st).
Proof.
  intros [Hwf Hres [_ _ Hroute] (Hh & Hcount & Hplaced)] Hp Hst.
  rewrite (shp_sets _ _ (sw_shape _ _ Hwf)) in Hp. apply firstOccurrences_elem in Hp as [Hp _].
  apply list_elem_of_lookup_1 in Hp as [i Hi]. destruct (Hplaced i p Hi) as (st' & Hst' & _ & Hpri).
  rewrite Hst in Hst'. injection Hst' as <-. pose proof (lookup_lt_Some _ _ _ Hi) as Hlt.
  assert (Hkey : u64 (Z.of_nat i) = Z.of_nat i) by (apply wrap_u_id; unfold in_u; lia).
  destruct (Hroute (MkTenantKey (Z.of_nat i)) (Z.of_nat i)) as (_ & _ & shard & st2 & rs & Hshard & Hst2 & _ & _ & Hmir).
  { rewrite (tenant_resolves q (Z.of_nat i) Hres ltac:(lia)). by rewrite Hkey. }
  assert (Hhash : hash (Z.of_nat i) = Z.of_nat i).
  { unfold moduloShardHasher_Hash. destruct (Z.ltb_spec (Z.of_nat i) 0); [lia|]. rewrite Z.mod_small by lia. done. }
  unfold Resolve in Hshard. rewrite Hh, Hhash, Hcount in Hshard. destruct (Z.leb_spec 128 (Z.of_nat i)); [lia|].
  rewrite Nat2Z.id, Hi in Hshard. cbn in Hshard. injection Hshard as <-. cbn in Hst2. rewrite Hst in Hst2. injection Hst2 as <-.
  rewrite mirrorsOf_none in Hmir. cbn. rewrite Hpri, Hmir. done.
Qed.

Lemma opened_working lg q store s s1 :
  openedStore ErrorType DebugEnabled 128 hash tenantResolver (sets p0 p1 [] []) mappings (plainOptions lg (Some batching))
    (primaryDB p0 p1) q store s s1 ->
  refsFor q names primaryOf /\ stands batching q names primaryOf (st_calls s1) (fun _ => []) s1.
Proof.
  intros Hop. pose proof (opened_onTwoShards _ _ _ _ _ _ _ _ _ _ _ Hop) as Hq.
  pose proof (setNames_two p0 p1 q s1 (onTwoShards_placed _ _ _ _ Hq)) as Hnames.
  destruct Hop as (_ & _ & _ & _ & _ & _ & Hb & _). change (batchConfigOf (plainOptions lg (Some batching))) with batching in Hb.
  assert (Hat : forall n ref, batchersOf q !! n = Some ref -> n ∈ names /\ qs_write (Target (br_route ref)) = primaryOf n /\
    observes ref /\ exists b, NewCopyBatcher batching true [Some 0%nat] = Ok b /\ st_batchers s1 !! br_batcher ref = Some (initial b)).
  { intros n ref Href. destruct (bf_named _ _ _ _ _ Hb n ref Href) as (p & Hp & Hn).
    destruct (bf_sets _ _ _ _ _ Hb p n Hp Hn) as (ref' & Href' & st & b & Hst & Hr & Hobs & Hnew & Hw).
    rewrite Href in Href'. injection Href' as <-. assert (rs_name st = n) as <-.
    { unfold setNamed, nameOf in Hn. rewrite Hst in Hn. by injection Hn. }
    split; [|split; [rewrite Hr; by apply (set_target q s1 p st)|split; [done|by exists b]]].
    rewrite <- Hnames. unfold setNames. apply list_elem_of_fmap. exists p. split; [|done]. unfold nameOf. by rewrite Hst. }
  split.
  - split.
    + apply (bool_decide_unpack _). vm_compute. exact I.
    + intros n. rewrite <- Hnames. intros (p & -> & Hp)%list_elem_of_fmap.
      destruct (replicaSet_live q s1 p (ts_wf _ _ _ _ Hq) Hp) as (st & rs & _ & _ & Hn).
      destruct (bf_sets _ _ _ _ _ Hb p _ Hp Hn) as (ref & Href & _). unfold setNamed in Hn. rewrite Hn. by exists ref.
    + intros n ref Href. destruct (Hat n ref Href) as (? & ? & ? & _). by split_and!.
    + apply (bf_distinct _ _ _ _ _ Hb).
  - exists (fun _ => []). split; [apply Hq| |by rewrite app_nil_r].
    intros n ref (_ & _ & _ & b & Hnew & Hw)%Hat. exists (initial b). split; [done|by apply reach_new|done|constructor].
Qed.

(** ** What the record of the batchers says of the copies *)

Section Record.
Context q (refs : refsFor q names primaryOf) (calls0 : list (dbCall DBTX)).
#[local] Abbreviation submissionsT := (string -> list (nat * bool * list CopyAccountsParams)).
#[local] Abbreviation standing := (stands batching q names primaryOf calls0).
#[local] Abbreviation worldT := (CopyBatch.world (T := CopyAccountsParams) (Ctx := Context)).

Definition copyList (w : worldT) : list (list CopyAccountsParams * option error) :=
  (fun x => (rows x.1, x.2)) <$> CopyBatch.copied (hist w).

Lemma copiedTo_On n x l :
  copiedTo (primaryOf n) x l -> copiedOn (primaryDB p0 p1 n) (rows x.1, x.2) l.
Proof.
  intros (ctx & r & (hist & rest & -> & Hr) & Hx). exists hist, ctx. cbn [fst snd wq_main primaryOf newWriteQueries] in *.
  rewrite Hx. unfold copyFailure, copyError.
  destruct (copyAnswer ctx (rows x.1) hist (New (primaryDB p0 p1 n))) as [count [e|]]; cbn [wq_mirrors mirrorRun] in Hr.
  - by destruct Hr as [-> ->].
  - destruct Hr as (<- & -> & ->). done.
Qed.

Lemma copyList_rows (w : worldT) : copiedRowsOf (copyList w) = copiedRows w.
Proof. unfold copiedRowsOf, copyList, copiedRows, flat. by rewrite <- list_fmap_compose. Qed.

(** The copies of the batcher of a set. *)
Definition copiesAt s (n : string) : list (list CopyAccountsParams * option error) :=
  match batchersOf q !! n ≫= fun ref => st_batchers s !! br_batcher ref with
  | Some w => copyList w
  | None => []
  end.

Lemma copiesAt_at s n ref (w : worldT) :
  batchersOf q !! n = Some ref -> st_batchers s !! br_batcher ref = Some w -> copiesAt s n = copyList w.
Proof. intros Href Hw. unfold copiesAt. rewrite Href. cbn. by rewrite Hw. Qed.

(** The submissions of the program. *)
Definition allSubmitted (base : Z) (r0 r1 r2 : nat) (acc : submissionsT) : Prop := exists x0 x1 x2,
  submitted base = [x0; x1; x2] /\ r0 <> r1 /\
  acc "shard-0" = [(r0, true, [x0]); (r1, true, [x1])] /\ acc "shard-1" = [(r2, true, [x2])].

(** The submission of a row: the tenants of the first shard differ. *)
Definition submitterOf (r0 r1 r2 : nat) (row : CopyAccountsParams) : nat :=
  if cap_TenantID row =? 20 then r0 else if cap_TenantID row =? 21 then r1 else r2.

Section Outcomes.
Context (base : Z) (r0 r1 r2 : nat) (acc : submissionsT) (Hsub : allSubmitted base r0 r1 r2 acc).
Context s (Hs : standing acc s).
#[local] Abbreviation owner := (submitterOf r0 r1 r2).

Lemma submitted_owner n ref w :
  n ∈ names -> batchersOf q !! n = Some ref -> st_batchers s !! br_batcher ref = Some w ->
  good w /\ ownerOk owner w /\ acceptedRows w = rowsOn base n.
Proof using Hsub Hs.
  intros Hn Href Hw. destruct Hsub as (x0 & x1 & x2 & Hrows & _ & H0 & H1). injection Hrows as <- <- <-.
  destruct (batcher_at _ _ _ _ _ _ _ _ _ _ Hs Href Hw) as (_ & Hg & Ha). split; [done|].
  unfold ownerOk, acceptedRows. rewrite Ha. rewrite !elem_of_cons in Hn.
  destruct Hn as [->|[->|[]%elem_of_nil]]; rewrite ?H0, ?H1; (split; [|done]); intros id co rws.
  - intros [[= -> -> ->]|[[= -> -> ->]|[]%elem_of_nil]%elem_of_cons]%elem_of_cons; by constructor.
  - intros [= -> -> ->]%list_elem_of_singleton. by constructor.
Qed.

(** A submission is that of one row. *)
Lemma submission_row n x : n ∈ names -> x ∈ acc n ->
  exists row, x = (owner row, true, [row]) /\ filter (fun y => owner y = owner row) (rowsOn base n) = [row].
Proof using Hsub.
  intros Hn Hx. destruct Hsub as (x0 & x1 & x2 & Hrows & Hne & H0 & H1).
  assert (Ho : r0 = owner x0 /\ r1 = owner x1 /\ r2 = owner x2) by (by injection Hrows as <- <- <-).
  destruct Ho as (E0 & E1 & E2). unfold rowsOn. rewrite Hrows. rewrite !elem_of_cons in Hn.
  destruct Hn as [->|[->|[]%elem_of_nil]]; rewrite ?H0, ?H1, !elem_of_cons in Hx; cbn [take drop].
  - rewrite bool_decide_eq_true_2 by done. destruct Hx as [->|[->|[]%elem_of_nil]].
    + exists x0. rewrite <- E0. split; [done|]. by rewrite filter_cons_True, filter_cons_False by congruence.
    + exists x1. rewrite <- E1. split; [done|]. by rewrite filter_cons_False, filter_cons_True by congruence.
  - rewrite bool_decide_eq_false_2 by done. destruct Hx as [->|[]%elem_of_nil].
    exists x2. rewrite <- E2. split; [done|]. by rewrite filter_cons_True by congruence.
Qed.

(** The error of a submission is that of the COPY that held its row. *)
Lemma outcome_row n row err : n ∈ names -> (owner row, true, [row]) ∈ acc n ->
  outcomeAt q s n (owner row) err ->
  exists e, rowEnded (copiesAt s) n row e /\ err = errorsJoin (option_list e).
Proof using Hsub Hs.
  intros Hn Hrow (ref & w & rq & Href & Hw & Hl & Hd & <-).
  destruct (submitted_owner n ref w Hn Href Hw) as (Hg & Ho & Hr).
  destruct (submission_row n _ Hn Hrow) as (row' & [= _ <-] & Hone). rewrite <- Hr in Hone.
  destruct (one_row_outcome w owner _ rq row Hg Ho Hone Hl Hd) as (b & e & Hb & Hx & ->). exists e. split; [|done].
  exists (rows b, e). split; [|done]. rewrite (copiesAt_at s n ref w Href Hw). apply list_elem_of_fmap. by exists (b, e).
Qed.

Lemma finished_copied n : n ∈ names -> finishedAt q s n -> allCopied base (copiesAt s) n.
Proof using Hsub Hs refs.
  intros Hn Hf. destruct (rf_set _ _ _ refs n Hn) as [ref Href]. destruct (Hs) as [asked Hc].
  destruct (cp_batcher _ _ _ _ _ _ _ _ Hc n ref Href) as (w & [Hw _ _ _]).
  destruct (submitted_owner n ref w Hn Href Hw) as (Hg & Ho & Hr). unfold allCopied.
  rewrite (copiesAt_at s n ref w Href Hw), copyList_rows, <- Hr. symmetry. by apply (resolved_copied w owner), (Hf ref).
Qed.

(** The rows a flush waited for. *)
Lemma waited_rows n ref w rs : n ∈ names -> batchersOf q !! n = Some ref -> st_batchers s !! br_batcher ref = Some w ->
  Forall (CopyBatchRuns.resolved w) rs ->
  exists xs errs, rs = owner <$> xs /\ Forall2 (rowEnded (copiesAt s) n) xs errs /\
    omap (resultErr w) rs = (fun e => Joined [e]) <$> omap id errs.
Proof using Hsub Hs.
  intros Hn Href Hw. destruct (batcher_at _ _ _ _ _ _ _ _ _ _ Hs Href Hw) as (_ & Hg & Ha).
  induction 1 as [|r rs (rq & Hl & Hd) _ (xs & errs & -> & Hends & Herrs)]; [by exists [], []|].
  assert (Hin : r ∈ (fun y => y.1.1) <$> acc n) by (rewrite <- Ha; apply (inv_accepted _ _ (g_inv _ Hg)); by eexists).
  apply list_elem_of_fmap in Hin as (y & -> & Hy). destruct (submission_row n y Hn Hy) as (row & -> & _). cbn [fst] in *.
  destruct (outcome_row n row (f_err (rq_result rq)) Hn Hy) as (e & He & Hr); [by exists ref, w, rq|].
  exists (row :: xs), (e :: errs). split; [done|]. split; [by constructor|]. cbn. unfold resultErr at 1. rewrite Hl. cbn.
  rewrite Hr, Herrs. by destruct e.
Qed.

Lemma flushed_shard n err : n ∈ names -> flushedAt q s n err -> flushedShard base (copiesAt s) n err.
Proof using Hsub Hs refs.
  intros Hn (Hf & ref & w & rs & Href & Hw & Hnd & Hrs & ->). split; [by apply finished_copied|].
  destruct (waited_rows n ref w rs Hn Href Hw Hrs) as (xs & errs & -> & Hends & ->). exists xs, errs.
  split; [by eapply NoDup_fmap_1|done].
Qed.

(** When all submissions to a set succeeded, none of its copies failed. *)
Lemma succeeded_none n : n ∈ names -> (forall x, x ∈ acc n -> outcomeAt q s n x.1.1 None) -> ~ someFailed (copiesAt s n).
Proof using Hsub Hs refs.
  intros Hn Hall (copy & Hcopy & Hne). destruct (rf_set _ _ _ refs n Hn) as [ref Href]. destruct (Hs) as [asked Hc].
  destruct (cp_batcher _ _ _ _ _ _ _ _ Hc n ref Href) as (w & [Hw _ Ha _]).
  destruct (submitted_owner n ref w Hn Href Hw) as (Hg & Ho & _). rewrite (copiesAt_at s n ref w Href Hw) in Hcopy.
  apply list_elem_of_fmap in Hcopy as (x & -> & Hx).
  assert (Hok : Forall (fun x => x.2 = None) (CopyBatch.copied (hist w))).
  { apply (succeeded_copies w owner Hg Ho). intros r rq Hl.
    assert (Hin : r ∈ (fun x => x.1.1) <$> accepted (hist w)) by (apply (inv_accepted _ _ (g_inv _ Hg)); by eexists).
    rewrite Ha in Hin. apply list_elem_of_fmap in Hin as (y & -> & Hy).
    destruct (Hall y Hy) as (ref' & w' & rq' & Href' & Hw' & Hl' & Hd & He). simplify_eq. done. }
  rewrite Forall_forall in Hok. by apply Hne, Hok.
Qed.

End Outcomes.

Definition allFinished s : Prop := forall n, n ∈ names -> finishedAt q s n.

(** What the calls were, given how the program ended. *)
Lemma standing_work base r0 r1 r2 acc s timeout o es :
  allSubmitted base r0 r1 r2 acc -> standing acc s -> asyncEnd base (copiesAt s) timeout o es ->
  asyncWork p0 p1 base calls0 timeout o (st_calls s) es.
Proof using refs.
  intros Hsub Hs Hend. destruct (Hs) as [asked Hc]. exists (copiesAt s), asked.
  split; [apply (cp_calls _ _ _ _ _ _ _ _ Hc)|]. split; [|done]. apply Forall_forall. intros n Hn.
  destruct (rf_set _ _ _ refs n Hn) as [ref Href]. destruct (cp_batcher _ _ _ _ _ _ _ _ Hc n ref Href) as (w & [Hw _ _ Hask]).
  destruct (submitted_owner base r0 r1 r2 acc Hsub s Hs n ref w Hn Href Hw) as (Hg & _ & Hr).
  rewrite (copiesAt_at s n ref w Href Hw). split.
  - apply Forall2_fmap_l. eapply Forall2_impl; [exact Hask|]. intros x l. apply copiedTo_On.
  - rewrite copyList_rows, <- Hr. by apply copied_submseteq.
Qed.

(** ** The steps of the program *)

(** The store that was opened. *)
Definition storeOf : storeI :=
  MkStore (groupedAccounts ErrorType DebugEnabled q) (groupedReports ErrorType DebugEnabled q)
    (background ErrorType DebugEnabled q).

Record atWork (acc : submissionsT) s : Prop := {
  aw_stands : standing acc s;
  aw_placed : placedOnTwo p0 p1 q s;
}.

Lemma atWork_later acc acc' s s' : atWork acc s -> standing acc' s' -> later s s' -> atWork acc' s'.
Proof.
  intros [_ Hp] Hs' L. split; [done|]. apply (placedOnTwo_kept p0 p1 q s s' Hp). split; [|apply L].
  destruct Hs' as [asked Hs']. apply Hs'.
Qed.

Lemma oneCopy_more (acc : submissionsT) source n r row m r' row' :
  oneCopy q acc source n r row -> oneCopy q (submitTo acc m r' row') source n r row.
Proof.
  intros (ref & -> & Href & Hin). exists ref. split; [done|]. split; [done|]. unfold submitTo.
  destruct (decide (n = m)) as [->|]; [|done]. apply elem_of_app. by left.
Qed.

Context (enabled : cab_enabled (ms_copyAccountsBatch q) = true).
Context (ctx : Context) (live : ctx_err ctx = None).

Lemma submitAll_gives {A} acc row rows s w (k : list futureT -> appM A) Q :
  let n := tenantSet (tk_TenantID (cat_TenantKey row)) in
  let acc' r := submitTo acc n r (CopyAccountsT_sqlcParams row) in
  atWork acc s -> 0 <= tk_TenantID (cat_TenantKey row) ->
  (forall f id r s', atWork (acc' r) s' -> later s s' -> oneCopy q (acc' r) (af_source f) n r (CopyAccountsT_sqlcParams row) ->
     awaitedIn ErrorType DebugEnabled q f id -> spanLive id s' -> r ∉ fst ∘ fst <$> acc n ->
     gives (submitAll storeOf ctx rows ≫= fun fs => k (f :: fs)) (s', w) Q) ->
  gives (submitAll storeOf ctx (row :: rows) ≫= k) (s, w) Q.
Proof using refs enabled live.
  intros n acc' Hs Ht Hk. cbn [submitAll]. apply gives_assoc.
  apply (gives_seq _ _ _ (fun _ x => x.2 = w /\ atWork acc x.1 /\ later s x.1)).
  { apply inStore_runs. eapply runs_mono; [apply (background_runs ErrorType DebugEnabled batching q names primaryOf refs calls0), Hs|].
    intros ? s1 [Hs1 L1]. split; [done|]. split; [by eapply atWork_later|done]. }
  intros [] [s1 w1] (Hw & Hs1 & L1). cbn [fst snd] in *. subst w1. apply gives_assoc.
  destruct (tenant_routable p0 p1 q s1 _ (aw_placed _ _ Hs1) Ht) as [Hroute Hset].
  apply (gives_seq _ _ _ (fun f x => x.2 = w /\ exists id r, atWork (acc' r) x.1 /\ later s1 x.1 /\
    oneCopy q (acc' r) (af_source f) n r (CopyAccountsT_sqlcParams row) /\ awaitedIn ErrorType DebugEnabled q f id /\ spanLive id x.1 /\
    r ∉ fst ∘ fst <$> acc n)).
  { apply inStore_runs. cbn [storeOf Store_Accounts groupedAccounts Accounts_CopyAccountsAsync].
    eapply runs_mono; [apply (submit_runs ErrorType DebugEnabled batching q names primaryOf refs calls0 acc ctx row n s1)|].
    - apply Hs1.
    - by apply (setNames_two p0 p1), Hs1.
    - done.
    - done.
    - by destruct (cat_TenantKey row).
    - by destruct (cat_TenantKey row).
    - intros f s2 (id & r & H1 & L2 & H). split; [done|]. exists id, r. split; [by eapply atWork_later|]. by destruct H as (? & ? & ? & ?). }
  intros f [s2 w2] (Hw & id & r & Hs2 & L2 & Hone & Haw & Hlive & Hnew). cbn [fst snd] in *. subst w2.
  apply gives_assoc. eapply gives_mono; [|by intros o x H; exact H].
  apply (Hk f id r s2 Hs2); [by etrans|done..].
Qed.

Lemma awaitAll_gives {A} acc f id n r row fs index total s w (k : Z -> appM A) Q :
  atWork acc s -> oneCopy q acc (af_source f) n r row -> awaitedIn ErrorType DebugEnabled q f id -> spanLive id s ->
  (forall e s', atWork acc s' -> later s s' -> outcomeAt q s' n r (Some e) ->
     Q (Err (Errorf "await account copy %d: %w" [AInt (Z.of_nat index)] [partFailed n e])) (s', w)) ->
  (forall s', atWork acc s' -> later s s' -> outcomeAt q s' n r None ->
     gives (awaitAll ctx (S index) (s64 (total + 1)) fs ≫= k) (s', w) Q) ->
  gives (awaitAll ctx index total (f :: fs) ≫= k) (s, w) Q.
Proof using refs live.
  intros Hs Hone Haw Hlive Herr Hok. cbn [awaitAll]. apply gives_assoc, gives_checkedAs, inStore_runs.
  eapply runs_mono; [apply (Future_Await_runs ErrorType DebugEnabled batching q names primaryOf refs calls0 acc
    (fun _ => ctx_err ctx) f id n r row s); [apply Hs|done..]|].
  intros [count err] s1 (Hs1 & L1 & Hr). cbn [fst snd] in *. assert (H1 : atWork acc s1) by by eapply atWork_later.
  destruct err as [e|]; [destruct Hr as (e' & -> & Hr); by apply Herr|]. destruct Hr as [-> Hsucc]. by apply Hok.
Qed.

(** What the end of the program says, from what is known of the batchers. *)
Definition asyncAfter (base : Z) w (o : result unit) (x : stateT * world DBTX) : Prop :=
  exists es, asyncWork p0 p1 base calls0 (WithTimeout ctx (st_ticks x.1)) o (st_calls x.1) es /\ x.2 = noted w es.

Section Ends.
Context (base : Z) (r0 r1 r2 : nat) (acc : submissionsT) (Hsub : allSubmitted base r0 r1 r2 acc).
#[local] Abbreviation owner := (submitterOf r0 r1 r2).

Lemma flush_after errs cause s w :
  atWork acc s -> flushErrors (flushedAt q s) (WithTimeout ctx (st_ticks s)) names errs -> errorsJoin errs = Some cause ->
  asyncAfter base w (Err (Errorf "flush account copies: %w" [] [cause])) (s, w).
Proof using refs Hsub.
  intros [Hs _] Herrs Hcause. exists []. split; [|by rewrite noted_nil]. apply (standing_work base r0 r1 r2 acc); [done..|].
  split; [done|]. left. exists errs, cause. split; [|done]. eapply flushErrors_mono; [|exact Herrs].
  intros n err Hn. by apply (flushed_shard base r0 r1 r2 acc).
Qed.

(** The submission of a row. *)
Lemma submission_at index x : submitted base !! index = Some x ->
  shardOf index ∈ names /\ (owner x, true, [x]) ∈ acc (shardOf index).
Proof using Hsub.
  destruct Hsub as (x0 & x1 & x2 & Hrows & _ & H0 & H1). pose proof Hrows as E. injection E as <- <- <-. rewrite Hrows.
  destruct index as [|[|[|index]]]; intros [= <-]; cbn [shardOf Nat.ltb Nat.leb]; rewrite ?H0, ?H1; split; rewrite !elem_of_cons; auto.
Qed.

Lemma submission_index n y : n ∈ names -> y ∈ acc n ->
  exists index x, (index < 3)%nat /\ n = shardOf index /\ y = (owner x, true, [x]) /\ submitted base !! index = Some x.
Proof using Hsub.
  destruct Hsub as (x0 & x1 & x2 & Hrows & _ & H0 & H1). pose proof Hrows as E. injection E as <- <- <-.
  rewrite Hrows, !elem_of_cons. intros [->|[->|[]%elem_of_nil]]; rewrite ?H0, ?H1, !elem_of_cons.
  - intros [->|[->|[]%elem_of_nil]]; [exists 0%nat|exists 1%nat];
      (eexists; split; [lia|]; split; [done|]; split; [|reflexivity]; reflexivity).
  - intros [->|[]%elem_of_nil]. exists 2%nat. eexists. split; [lia|]. split; [done|]. split; [|reflexivity]. reflexivity.
Qed.

Lemma ended_row index x err s : atWork acc s -> submitted base !! index = Some x ->
  outcomeAt q s (shardOf index) (owner x) err ->
  exists e, rowEnded (copiesAt s) (shardOf index) x e /\ err = errorsJoin (option_list e).
Proof using Hsub.
  intros [Hs _] Hx. destruct (submission_at index x Hx) as [Hn Hin]. by apply (outcome_row base r0 r1 r2 acc).
Qed.

Lemma all_copied s : atWork acc s -> allFinished s -> Forall (allCopied base (copiesAt s)) names.
Proof using Hsub refs.
  intros [Hs _] Hfin. apply Forall_forall. intros n Hn. by apply (finished_copied base r0 r1 r2 acc), Hfin.
Qed.

(** The rows before [index] succeeded, and the one at [index] failed. *)
Definition succeededTo s (index : nat) : Prop :=
  forall j y, (j < index)%nat -> submitted base !! j = Some y -> outcomeAt q s (shardOf j) (owner y) None.

Lemma succeededTo_later s s' index : later s s' -> succeededTo s index -> succeededTo s' index.
Proof. intros L H j y Hj Hy. eapply outcomeAt_later; [exact L|]. by apply H. Qed.

Lemma succeededTo_S s index x : succeededTo s index -> submitted base !! index = Some x ->
  outcomeAt q s (shardOf index) (owner x) None -> succeededTo s (S index).
Proof.
  intros H Hx Ho j y Hj Hy. destruct (decide (j = index)) as [->|Hne]; [|apply H; [lia|done]].
  rewrite Hx in Hy. by injection Hy as <-.
Qed.

Lemma await_after index x e s w :
  atWork acc s -> allFinished s -> submitted base !! index = Some x ->
  outcomeAt q s (shardOf index) (owner x) (Some e) -> succeededTo s index ->
  asyncAfter base w (Err (Errorf "await account copy %d: %w" [AInt (Z.of_nat index)] [partFailed (shardOf index) e])) (s, w).
Proof using refs Hsub.
  intros Hs Hfin Hx Hout Hbefore. exists []. split; [|by rewrite noted_nil].
  apply (standing_work base r0 r1 r2 acc); [done|apply Hs|]. split; [done|]. right. split; [by apply all_copied|].
  destruct (ended_row index x _ s Hs Hx Hout) as ([cause|] & He & Hcause); [|done]. injection Hcause as ->.
  exists index, x, cause. split_and!; [done..|]. intros j y Hj Hy.
  destruct (ended_row j y None s Hs Hy (Hbefore j y Hj Hy)) as ([e'|] & He' & Hnone); [done|]. exact He'.
Qed.

Lemma success_after s w : atWork acc s -> allFinished s -> succeededTo s 3 ->
  asyncAfter base w (Ok tt) (s, noted w [Printed "asynchronous COPY wrote %d accounts\n" [AInt 3]]).
Proof using refs Hsub.
  intros Hs Hfin Hall. eexists. split; [|reflexivity]. apply (standing_work base r0 r1 r2 acc); [done|apply Hs|]. split; [done|].
  pose proof (all_copied s Hs Hfin) as Hcop. rewrite Forall_forall in Hcop. apply Forall_forall. intros n Hn.
  split; [by apply Hcop|]. apply (succeeded_none base r0 r1 r2 acc Hsub s (aw_stands _ _ Hs) n Hn).
  intros y Hy. destruct (submission_index n y Hn Hy) as (index & x & Hi & -> & -> & Hx). by apply (Hall index x).
Qed.

(** The futures from [index] on, once everything is flushed. *)
Lemma awaited_gives index fs s w :
  atWork acc s -> allFinished s -> succeededTo s index -> (index + length fs = 3)%nat ->
  (forall j f, fs !! j = Some f -> exists x id, submitted base !! (index + j)%nat = Some x /\
     oneCopy q acc (af_source f) (shardOf (index + j)) (owner x) x /\ awaitedIn ErrorType DebugEnabled q f id /\ spanLive id s) ->
  gives (total ← awaitAll ctx index (Z.of_nat index) fs; note (Printed "asynchronous COPY wrote %d accounts\n" [AInt total])) (s, w)
    (asyncAfter base w).
Proof using refs Hsub live.
  revert index s. induction fs as [|f fs IH]; intros index s Hs Hfin Hbefore Hlen Hfs.
  { cbn [length] in Hlen. assert (index = 3%nat) as -> by lia. cbn [awaitAll]. apply gives_bind, gives_ret. cbn [andThen].
    apply gives_last. by apply success_after. }
  destruct (Hfs 0%nat f eq_refl) as (x & id & Hx & Hone & Haw & Hlive). rewrite Nat.add_0_r in Hx, Hone.
  assert (Hkeep : forall s', atWork acc s' -> later s s' -> allFinished s').
  { intros s' Hs' L n Hn. apply (finishedAt_later _ _ _ _ _ acc s s' n (aw_stands _ _ Hs) (aw_stands _ _ Hs') L), Hfin, Hn. }
  eapply (awaitAll_gives acc f id (shardOf index) (owner x) x); [done..| |].
  - intros e s' Hs' L Hout. apply (await_after index x e s' w); [done|by apply Hkeep|done..|by apply (succeededTo_later s)].
  - intros s' Hs' L Hout. replace (s64 (Z.of_nat index + 1)) with (Z.of_nat (S index)).
    2:{ rewrite wrap_s_id; [lia|done|]. unfold in_s. change (2 ^ (64 - 1)) with 9223372036854775808.
        cbn [length] in Hlen. lia. }
    apply IH; [done|by apply Hkeep| |cbn [length] in Hlen; lia|].
    + apply (succeededTo_S s' index x); [by apply (succeededTo_later s)|done..].
    + intros j g Hg. destruct (Hfs (S j) g Hg) as (y & id' & H1 & H2 & H3 & H4). rewrite <- plus_n_Sm in *.
      exists y, id'. split_and!; [done..|by apply (lt_live _ _ L)].
Qed.

End Ends.

Lemma copies_gives base s w :
  atWork (fun _ => []) s -> gives (copies storeOf ctx base) (s, w) (asyncAfter base w).
Proof using refs enabled live.
  intros Hs. unfold copies. unfold submissions at 1. destruct tenants as (E0 & E2 & _).
  assert (E1 : tenantSet 21 = "shard-0") by (vm_compute; reflexivity).
  apply (submitAll_gives _ _ _ _ _ _ _ Hs); [done|]. cbn [cat_TenantKey tk_TenantID]. rewrite E0.
  intros f0 id0 r0 s0 H0 T0 O0 A0 L0 _.
  apply (submitAll_gives _ _ _ _ _ _ _ H0); [done|]. cbn [cat_TenantKey tk_TenantID]. rewrite E1.
  intros f1 id1 r1 s1 H1 T1 O1 A1 L1 N1.
  apply (submitAll_gives _ _ _ _ _ _ _ H1); [done|]. cbn [cat_TenantKey tk_TenantID]. rewrite E2.
  intros f2 id2 r2 s2 H2 T2 O2 A2 L2 _.
  cbn [submitAll]. apply gives_bind, gives_ret. cbn [andThen].
  set (acc := submitTo _ "shard-1" r2 _) in *.
  assert (Hsub : allSubmitted base r0 r1 r2 acc).
  { eexists _, _, _. split; [reflexivity|]. split; [|by split]. intros ->. apply N1. left. }
  apply gives_checked. apply (runs_seq _ _ _ (fun r x => x.2 = w /\ atWork acc x.1 /\ later s2 x.1 /\
    exists es, r = errorsJoin es /\ flushErrors (flushedAt q x.1) (WithTimeout ctx (st_ticks x.1)) names es)).
  { apply inStore_runs. cbn [storeOf Store_Accounts groupedAccounts Accounts_FlushCopyAccounts].
    eapply runs_mono; [apply (FlushCopyAccounts_runs ErrorType DebugEnabled batching q names primaryOf refs calls0 acc (WithTimeout ctx) s2);
      [apply H2|by apply (setNames_two p0 p1), H2]|].
    intros r s3 (H3 & T3 & Hr). split; [done|]. split; [by eapply atWork_later|]. by split. }
  intros r [s3 w3] (Hw & H3 & T3 & es & -> & Hes). cbn [fst snd] in *. subst w3. apply runs_ret. cbn [fst snd].
  destruct (errorsJoin es) as [cause|] eqn:Hcause; [by apply (flush_after base r0 r1 r2 acc Hsub es)|].
  apply errorsJoin_None in Hcause.
  apply (awaited_gives base r0 r1 r2 acc Hsub 0); [done| |intros j y Hj; lia|done|].
  { intros n Hn. by apply (flushErrors_nil _ _ _ _ Hes Hcause). }
  intros [|[|[|j]]] f; intros [= <-]; eexists _, _; (split; [reflexivity|]); (split; [|split; [done|]]).
  - apply oneCopy_more, oneCopy_more, O0.
  - apply (lt_live _ _ T3), (lt_live _ _ T2), (lt_live _ _ T1), L0.
  - apply oneCopy_more, O1.
  - apply (lt_live _ _ T3), (lt_live _ _ T2), L1.
  - exact O2.
  - apply (lt_live _ _ T3), L2.
Qed.

End Record.
End Copies.

Lemma asyncWork_returns p0 p1 base calls timeout o calls' es : asyncWork p0 p1 base calls timeout o calls' es -> o <> Panic.
Proof. intros (copiesOf & asked & _ & _ & H) ->. exact H. Qed.

(** C20: The asynchronous copy example, from its environment to its output, for
    any answers of pgx and of the databases, whatever the copy batchers'
    goroutines and timers do between the steps of the program and while it
    waits, and whenever the flush's deadline passes. A variable that is not set,
    or a pool that does not open or answer, is the error, the first shard's
    before the second's, and no row is copied. Otherwise the calls are COPY
    operations, the first two rows on the first shard and the third on the
    second, and no row is copied twice. The program ends in one of three ways.
    It prints that it wrote three accounts and succeeds; then every row was
    copied once and no COPY failed. Or it returns the error of the flush: it
    joins, shard by shard in order, the errors of the COPYs that held rows the
    flush waited for; the last shard named may be one whose flush was left at
    the deadline, with the deadline's error in place of a COPY's, and shards are
    left out after it only when the deadline has passed by the end of the
    program. A shard whose flush was not left has all its rows copied once. Or
    it returns the error of the first row whose COPY failed, with its number,
    its shard and the error of that COPY, and every row was copied once. Then
    the pools are closed, each once, the second shard's first. The program does
    not panic, and does not wait for ever. *)
Theorem async_program_correct ctx s w :
  metersOk gmp -> heap_wf (st_heap s) -> batchersWf s -> ctx_err ctx = None ->
  exists o s' w', run ErrorType DebugEnabled gtp gmp ctx (s, w) = (o, (s', w')) /\ o <> Panic /\
  match variableFault "ASYNC_COPY_SHARD0_DSN", variableFault "ASYNC_COPY_SHARD1_DSN" with
  | Some e, _ => o = Err e /\ st_calls s' = st_calls s /\ events w' = events w ++ variableEvents "ASYNC_COPY_SHARD0_DSN"
  | None, Some e => o = Err e /\ st_calls s' = st_calls s /\ exists p0, poolFor "ASYNC_COPY_SHARD0_DSN" = Some p0 /\
      events w' = events w ++ [PoolOpened p0] ++ variableEvents "ASYNC_COPY_SHARD1_DSN" ++ [PoolClosed p0]
  | None, None => exists p0 p1 base es, poolFor "ASYNC_COPY_SHARD0_DSN" = Some p0 /\ poolFor "ASYNC_COPY_SHARD1_DSN" = Some p1 /\
      asyncWork p0 p1 base (st_calls s) (WithTimeout ctx (st_ticks s')) o (st_calls s') es /\
      events w' = events w ++ [PoolOpened p0; PoolOpened p1] ++ es ++ [PoolClosed p1; PoolClosed p0]
  end.
Proof.
  intros Hm Hh Hb Hctx. apply gives_run. unfold run.
  apply gives_bind. eapply gives_mono; [apply openPool_gives|].
  intros o x. destruct (variableFault "ASYNC_COPY_SHARD0_DSN") as [e|]; [by intros [-> ->]|]. intros (p0 & Hp0 & -> & ->).
  cbn [andThen]. apply gives_deferring, gives_bind. eapply gives_mono; [apply openPool_gives|].
  intros o x. destruct (variableFault "ASYNC_COPY_SHARD1_DSN") as [e|].
  { intros [-> ->]. eexists tt, _. split; [done|]. split; [done|]. split; [done|]. split; [done|].
    exists p0. split; [done|]. cbn. by rewrite <- !app_assoc. }
  intros (p1 & Hp1 & -> & ->). cbn [andThen]. rewrite noted_noted.
  eapply gives_mono; [apply (closingAt_gives _ _ (fun o s' es => exists base,
    asyncWork p0 p1 base (st_calls s) (WithTimeout ctx (st_ticks s')) o (st_calls s') es) [PoolClosed p1]); [by eexists tt, _|]|].
  { apply (openTwoShards_gives ErrorType DebugEnabled gtp gmp p0 p1 "create store: %w" [] [] _ None (Some batching));
      [done|done|apply valid_primaries|done..|].
    intros q store s1 Hop. pose proof (opened_onTwoShards _ _ _ _ _ _ _ _ _ _ _ Hop) as Hq.
    destruct (opened_working p0 p1 None q store s s1 Hop) as [Hrefs Hstands]. destruct Hop as (-> & <- & _ & _ & _ & Hen & _).
    apply (gives_seq _ _ _ (fun _ x => x.2 = noted w ([PoolOpened p0] ++ [PoolOpened p1]) /\ frame s1 x.1)).
    { eexists _, _. split; [reflexivity|]. split; [done|]. by split. }
    intros now [s2 w2] [Hw Hf]. cbn [fst snd] in *. subst w2.
    assert (Hs2 : atWork p0 p1 q (st_calls s1) (fun _ => []) s2).
    { split; [by eapply stands_frame|]. apply (placedOnTwo_kept p0 p1 q s1 s2 (onTwoShards_placed _ _ _ _ Hq)).
      split; [|apply Hf]. eapply storeWf_frame; [|exact Hf]. apply Hq. }
    eapply gives_mono; [exact (copies_gives p0 p1 q Hrefs (st_calls s1) Hen ctx Hctx (wrap_s 64 now) s2 _ Hs2)|].
    intros o x (es & Hk & Hx). exists es. split; [|done]. by eexists. }
  intros o [s' w'] (es & (base & Hk) & He). cbn [fst snd] in Hk, He. eexists tt, _. split; [done|].
  split; [exact (asyncWork_returns _ _ _ _ _ _ _ _ Hk)|]. exists p0, p1, base, es. split_and!; [done..|].
  cbn [snd]. cbn. rewrite He. cbn [noted events]. by rewrite <- !app_assoc.
Qed.

End Proofs.

(** ** A run *)

Module AsyncProgramSample.
(** The databases 1 and 2 have no account when the program starts. *)
#[export] Instance platform : Platform nat := {|
  os_Getenv name := name;
  pgxpool_New dsn := if bool_decide (dsn = "ASYNC_COPY_SHARD0_DSN") then inr 1%nat else inr 2%nat;
  pool_Ping _ := None;
  pool_Begin _ := inl (ErrorText "no transactions");
  tx_Commit _ := None;
  tx_Rollback _ := None;
  rangeOrder m := (map_to_list m).*2;
  rangeOrder_all m := reflexivity _ |}.

(** Whenever it can, the first shard's timer fires and its batch starts; its COPY
    and the rest are left to the waits. *)
#[export] Instance runtime : Runtime := {|
  clock n := Z.of_nat n;
  schedules _ := [];
  pendingOrder _ m := elements m;
  pendingOrder_all _ m := reflexivity _;
  backgroundMoves _ := [("shard-0", MTimer 0); ("shard-0", MExpired 0); ("shard-0", MStart 0)];
  deadline := Some 1000%nat;
  selectDone _ := true |}.
End AsyncProgramSample.
#[local] Existing Instance AsyncProgramSample.platform.
#[local] Existing Instance AsyncProgramSample.runtime.

Lemma async_program_correct_witness :
  exists s' w', run sampleErrorType StoreSample.debug sampleTracers sampleMeters sampleContext
      (StoreSample.state0, World ∅ []) = (Ok tt, (s', w')) /\
    events w' = [PoolOpened 1%nat; PoolOpened 2%nat;
      Printed "asynchronous COPY wrote %d accounts\n" [AInt 3]; PoolClosed 2%nat; PoolClosed 1%nat].
Proof.
  destruct (async_program_correct sampleErrorType StoreSample.debug sampleTracers sampleMeters sampleContext
    StoreSample.state0 (World ∅ []) Sample.meters_ok emptyHeap_wf) as (o & s' & w' & Hrun & _ & _).
  { intros l [b Hb]. discriminate Hb. }
  { reflexivity. }
  assert (H : (fun r => (r.1, events r.2.2)) (run sampleErrorType StoreSample.debug sampleTracers sampleMeters sampleContext
      (StoreSample.state0, World ∅ [])) = (Ok tt, [PoolOpened 1%nat; PoolOpened 2%nat;
      Printed "asynchronous COPY wrote %d accounts\n" [AInt 3]; PoolClosed 2%nat; PoolClosed 1%nat])) by (vm_compute; reflexivity).
  rewrite Hrun in H. cbn [fst snd] in H. injection H as Ho He. exists s', w'. rewrite <- Ho. split; [exact Hrun|exact He].
Defined.

(** The copies of that run: the timer split the rows of the first shard. *)
Example early_timer_copies :
  (fun r => (fun c => match c with CallCopyFrom d _ _ rows => (d, length rows) | _ => (0%nat, 0%nat) end) <$> st_calls r.2.1)
    (run sampleErrorType StoreSample.debug sampleTracers sampleMeters sampleContext (StoreSample.state0, World ∅ [])) =
  [(2, 1); (1, 1); (1, 1)]%nat.
Proof. vm_compute. reflexivity. Qed.
