(* ===== verification/Plugin.v ===== *)
(** * Plugin: the data the generator works on

    The messages of the sqlc plugin SDK that the generator reads (protobuf
    records: a nil message reads as its zero value, so a pointer is an
    [option] only where the code compares it with nil), the generator's own
    options and type overrides (options.go, postgresql_type.go), and the two
    places where Go leaves an order open: [sort.Slice] and map iteration. *)

From S2P Require Import Prelude Errors GoStrings Unicode.
From Stdlib Require Import String.

#[local] Open Scope string_scope.

(** ** sqlc's messages *)

Record Identifier := MkIdentifier { id_catalog : string; id_schema : string; id_name : string }.

Record Column := MkColumn {
  col_name : string;
  col_not_null : bool;
  col_is_array : bool;
  col_is_named_param : bool;
  col_table : option Identifier;
  col_type : option Identifier;
  col_is_sqlc_slice : bool;
  col_embed_table : option Identifier;
  col_original_name : string;
  col_unsigned : bool;
  col_array_dims : Z;   (* int32 *)
}.

Record QueryParam := MkQueryParam { par_number : Z; par_column : Column }.

Record Query := MkQuery {
  q_text : string;
  q_name : string;
  q_cmd : string;
  q_columns : list Column;
  q_params : list QueryParam;
  q_comments : list string;
  q_insert_into_table : option Identifier;
}.

Record Table := MkTable { tbl_rel : Identifier; tbl_columns : list Column }.

Record Schema := MkSchema {
  sch_name : string;
  sch_tables : list Table;
  sch_enums : list string;             (* the enums' names *)
  sch_composite_types : list string;   (* the composite types' names *)
}.

Record Catalog := MkCatalog { cat_default_schema : string; cat_schemas : list Schema }.

Record GenerateRequest := MkRequest {
  req_engine : string;
  req_codegen_out : string;
  req_catalog : Catalog;
  req_queries : list Query;
}.

#[export] Instance Identifier_eq_dec : EqDecision Identifier.
Proof. solve_decision. Defined.
#[export] Instance Column_eq_dec : EqDecision Column.
Proof. solve_decision. Defined.

(** ** The generator's options *)

(** The [go_type] of an override: a specifier string or its parts. *)
Record goTypeSpec := MkGoType {
  gt_path : string;
  gt_pkg : string;
  gt_name : string;
  gt_pointer : bool;
  gt_slice : bool;
  gt_spec : string;
}.

Record override := MkOverride {
  ov_GoType : goTypeSpec;
  ov_DBType : string;
  ov_Nullable : bool;
  ov_Unsigned : bool;
  ov_Column : string;
  typeName : string;
  importPath : string;
  ov_importAlias : string;
  ov_columnName : string;
  tableCatalog : string;
  tableSchema : string;
  tableName : string;
}.

Record options := MkOptions {
  OutputFileName : string;
  PackageName : string;
  InternalImportPath : string;
  InternalImportAlias : string;
  ExportSQLCTypes : bool;
  ConstructorName : string;
  IgnoreMirrorError : bool;
  StoreInterfaceName : string;
  RuntimeImportPath : string;
  ResolverInterfaceName : string;
  ShardedConstructor : string;
  SQLPackage : string;
  QueryParameterLimit : option Z;   (* *int32 *)
  EmitParamsStructPointers : bool;
  EmitResultStructPointers : bool;
  EmitPointersForNullTypes : bool;
  EmitPointersForNullEnumType : option bool;
  EmitExactTableNames : bool;
  EmitJSONTags : bool;
  Rename : gmap string string;
  Overrides : list override;
}.

(** ** Orders Go leaves open *)

(** Go's [<] on strings: bytewise. *)
Definition strLess (a b : string) : bool :=
  match String.compare a b with Lt => true | _ => false end.

(** [sort.Slice]: some permutation in which no later element is less than an
    earlier one. *)
Class GoSort := {
  sortSlice : forall {A}, (A -> A -> bool) -> list A -> list A;
  sortSlice_perm : forall A (less : A -> A -> bool) l, sortSlice less l ≡ₚ l;
  sortSlice_sorted : forall A (less : A -> A -> bool) l,
    (forall x y, less x y = true -> less y x = false) ->
    (forall x y z, less y x = false -> less z y = false -> less z x = false) ->
    StronglySorted (fun x y => less y x = false) (sortSlice less l);
}.

(** [range] over a map: every entry once, in some order. *)
Class GoMapOrder := {
  rangeMap : forall {V}, gmap string V -> list (string * V);
  rangeMap_perm : forall V (m : gmap string V), rangeMap m ≡ₚ map_to_list m;
}.

(** *** Instances to evaluate with *)

Section InsertionSort.
Context {A : Type} (less : A -> A -> bool).

Fixpoint insertSorted (x : A) (l : list A) : list A :=
  match l with
  | [] => [x]
  | y :: l' => if less x y then x :: l else y :: insertSorted x l'
  end.

Definition insertionSort (l : list A) : list A := fold_left (fun acc x => insertSorted x acc) l [].

Lemma insertSorted_perm x l : insertSorted x l ≡ₚ x :: l.
Proof.
  induction l as [|y l IH]; simpl; [done|]. destruct (less x y); [done|].
  rewrite IH. constructor.
Qed.

Lemma insertionSort_perm l : insertionSort l ≡ₚ l.
Proof.
  unfold insertionSort. rewrite <- (app_nil_r l) at 2. generalize (@nil A).
  induction l as [|x l IH]; intros acc; simpl; [done|].
  rewrite IH, insertSorted_perm. by rewrite Permutation_middle.
Qed.

Hypothesis less_asym : forall x y, less x y = true -> less y x = false.
Hypothesis less_trans : forall x y z, less y x = false -> less z y = false -> less z x = false.

Lemma insertSorted_sorted x l :
  StronglySorted (fun x y => less y x = false) l ->
  StronglySorted (fun x y => less y x = false) (insertSorted x l).
Proof.
  induction 1 as [|y l Hl IH Hy]; simpl; [repeat constructor|].
  destruct (less x y) eqn:E.
  - constructor; [by constructor|]. constructor; [by apply less_asym|].
    eapply Forall_impl; [exact Hy|]. intros z Hz. simpl in *.
    by apply (less_trans x y z); [apply less_asym|].
  - constructor; [done|]. rewrite insertSorted_perm. by constructor.
Qed.

Lemma insertionSort_sorted l : StronglySorted (fun x y => less y x = false) (insertionSort l).
Proof.
  unfold insertionSort.
  assert (forall acc, StronglySorted (fun x y => less y x = false) acc ->
    StronglySorted (fun x y => less y x = false)
      (fold_left (fun acc x => insertSorted x acc) l acc)) as H; [|apply H; constructor].
  induction l as [|x l IH]; intros acc Hacc; simpl; [done|].
  by apply IH, insertSorted_sorted.
Qed.
End InsertionSort.

(** Insertion sort, which is what [sort.Slice] runs on short slices. *)
Definition insertionGoSort : GoSort := {|
  sortSlice A less l := insertionSort less l;
  sortSlice_perm A less l := insertionSort_perm less l;
  sortSlice_sorted A less l Ha Ht := insertionSort_sorted less Ha Ht l |}.

Definition listMapOrder : GoMapOrder := {|
  rangeMap V m := map_to_list m;
  rangeMap_perm V m := reflexivity _ |}.

(** ** Sorting by a string key *)

Lemma strLess_asym a b : strLess a b = true -> strLess b a = false.
Proof. unfold strLess. rewrite (String.compare_antisym b a). by destruct (String.compare a b). Qed.

Lemma strLess_total a b : strLess a b = false -> strLess b a = false -> a = b.
Proof.
  unfold strLess. rewrite (String.compare_antisym b a).
  destruct (String.compare a b) eqn:E; try done. by apply String.compare_eq_iff in E.
Qed.

Lemma compare_not_gt_trans x y z :
  String.compare x y <> Gt -> String.compare y z <> Gt -> String.compare x z <> Gt.
Proof.
  revert y z. induction x as [|a x IH]; intros [|b y] [|c z]; cbn; try done.
  unfold Ascii.compare.
  destruct (N.compare_spec (Ascii.N_of_ascii a) (Ascii.N_of_ascii b)) as [E1|E1|E1];
    destruct (N.compare_spec (Ascii.N_of_ascii b) (Ascii.N_of_ascii c)) as [E2|E2|E2];
    destruct (N.compare_spec (Ascii.N_of_ascii a) (Ascii.N_of_ascii c)) as [E3|E3|E3];
    try done; try lia. apply IH.
Qed.

Lemma strLess_negtrans x y z : strLess y x = false -> strLess z y = false -> strLess z x = false.
Proof.
  unfold strLess. rewrite (String.compare_antisym y x), (String.compare_antisym z y), (String.compare_antisym z x).
  pose proof (compare_not_gt_trans x y z) as H.
  destruct (String.compare x y), (String.compare y z), (String.compare x z); cbn in *; try done;
    intros; exfalso; by apply H.
Qed.

Section SortByKey.
Context `{!GoSort} {A : Type} (key : A -> string).

Definition sortByKey (l : list A) : list A := sortSlice (fun a b => strLess (key a) (key b)) l.

Lemma sortByKey_perm l : sortByKey l ≡ₚ l.
Proof. apply sortSlice_perm. Qed.

Lemma sortByKey_sorted l : StronglySorted (fun a b => strLess (key b) (key a) = false) (sortByKey l).
Proof.
  apply sortSlice_sorted; intros; [by apply strLess_asym|by eapply strLess_negtrans].
Qed.

(** With distinct keys there is one sorted order. *)
Lemma sorted_unique l1 l2 :
  StronglySorted (fun a b => strLess (key b) (key a) = false) l1 ->
  StronglySorted (fun a b => strLess (key b) (key a) = false) l2 ->
  l1 ≡ₚ l2 -> NoDup (key <$> l1) -> l1 = l2.
Proof.
  intros H1. revert l2. induction H1 as [|x l1 Hl1 IH Hx]; intros l2 H2 Hp Hnd.
  { by apply Permutation_nil_l in Hp. }
  destruct H2 as [|y l2 Hl2 Hy]; [by symmetry in Hp; apply Permutation_nil_cons in Hp|].
  cbn in Hnd. apply NoDup_cons in Hnd as [Hnotin Hnd].
  assert (x = y) as ->.
  { assert (x ∈ y :: l2) as Hxin by (rewrite <- Hp; left).
    assert (y ∈ x :: l1) as Hyin by (rewrite Hp; left).
    apply elem_of_cons in Hxin as [->|Hxin]; [done|].
    apply elem_of_cons in Hyin as [->|Hyin]; [done|]. exfalso. apply Hnotin.
    rewrite Forall_forall in Hx. rewrite Forall_forall in Hy.
    rewrite (strLess_total (key x) (key y)); [by apply list_elem_of_fmap_2| |].
    - by apply Hy.
    - by apply Hx. }
  f_equal. apply IH; [done| |done]. by apply Permutation_cons_inv in Hp.
Qed.

End SortByKey.
