(* ===== verification/SqlRelations.v ===== *)
(** * SqlRelations: the relations a SQL text names (sqlcplugin/sql_relations.go)

    A byte tokenizer that skips comments, string literals and dollar-quoted
    strings, and a scan of the tokens for the identifier after FROM, INTO, JOIN
    or UPDATE. A position in the text is the suffix that starts there, so an
    index loop is a function on suffixes. *)

From S2P Require Import Prelude GoStrings Unicode Plugin.
From Stdlib Require Import Ascii String.

#[local] Open Scope string_scope.
#[local] Open Scope Z_scope.

Record sqlRelationToken := Token { tk_value : string; identifier : bool; quoted : bool }.

(** ** Bytes *)

Definition isSQLSpace (value : ascii) : bool :=
  let c := byteZ value in
  (c =? 32) || (c =? 9) || (c =? 10) || (c =? 13) || (c =? 12).

Definition isSQLIdentifierStart (value : ascii) : bool :=
  let c := byteZ value in (c =? 95) || inRange 97 122 c || inRange 65 90 c.

Definition isSQLIdentifierPart (value : ascii) : bool :=
  isSQLIdentifierStart value || inRange 48 57 (byteZ value) || (byteZ value =? 36).

Definition isSQLDollarTagPart (value : ascii) : bool :=
  isSQLIdentifierStart value || inRange 48 57 (byteZ value).

(** ** Skipping *)

Fixpoint skipSQLLineComment (s : string) : string :=
  match s with
  | String a s' => if Ascii.eqb a "010" then s else skipSQLLineComment s'
  | EmptyString => s
  end.

Fixpoint skipSQLBlockComment (depth : nat) (s : string) : string :=
  match depth, s with
  | O, _ | _, EmptyString => s
  | S outer, String a s' =>
      match s' with
      | String b s'' =>
          if Ascii.eqb a "/" && Ascii.eqb b "*" then skipSQLBlockComment (S depth) s''
          else if Ascii.eqb a "*" && Ascii.eqb b "/" then skipSQLBlockComment outer s''
          else skipSQLBlockComment depth s'
      | EmptyString => skipSQLBlockComment depth s'
      end
  end.

Fixpoint skipSQLSingleQuotedString (s : string) : string :=
  match s with
  | EmptyString => s
  | String a s' =>
      if negb (Ascii.eqb a "'") then skipSQLSingleQuotedString s'
      else match s' with
           | String b s'' => if Ascii.eqb b "'" then skipSQLSingleQuotedString s'' else s'
           | EmptyString => s'
           end
  end.

(** The double quote. *)
Definition dquote : ascii := "034".

Fixpoint readSQLQuotedIdentifier (s : string) : string * string :=
  match s with
  | EmptyString => ("", s)
  | String a s' =>
      if negb (Ascii.eqb a dquote) then
        let '(value, rest) := readSQLQuotedIdentifier s' in (String a value, rest)
      else match s' with
           | String b s'' =>
               if Ascii.eqb b dquote then
                 let '(value, rest) := readSQLQuotedIdentifier s'' in (String dquote value, rest)
               else ("", s')
           | EmptyString => ("", s')
           end
  end.

(** The bytes of a prefix that satisfies [p], and the rest. *)
Fixpoint spanBytes (p : ascii -> bool) (s : string) : string * string :=
  match s with
  | String a s' =>
      if p a then let '(w, rest) := spanBytes p s' in (String a w, rest) else ("", s)
  | EmptyString => ("", s)
  end.

(** [skipSQLDollarQuotedString] at a dollar sign; [s] is what follows it. *)
Definition skipSQLDollarQuotedString (s : string) : option string :=
  let '(tag, rest) := spanBytes isSQLDollarTagPart s in
  match rest with
  | String a body =>
      if Ascii.eqb a "$" then
        let delimiter := String "$" (tag +:+ "$") in
        match Index body delimiter with
        | Some closing => Some (dropBytes (closing + length delimiter) body)
        | None => Some ""
        end
      else None
  | EmptyString => None
  end.

Section Tables.
Context `{UT : !UnicodeTables}.

(** One turn of the tokenizer: the token it emits and where it goes on. *)
Definition nextToken (a : ascii) (s : string) : option sqlRelationToken * string :=
  if isSQLSpace a then (None, s)
  else if HasPrefix (String a s) "--" then (None, skipSQLLineComment (dropBytes 1 s))
  else if HasPrefix (String a s) "/*" then (None, skipSQLBlockComment 1 (dropBytes 1 s))
  else if Ascii.eqb a "'" then (None, skipSQLSingleQuotedString s)
  else if Ascii.eqb a dquote then
    let '(value, rest) := readSQLQuotedIdentifier s in (Some (Token value true true), rest)
  else if Ascii.eqb a "$" then
    match skipSQLDollarQuotedString s with
    | Some rest => (None, rest)
    | None => (None, s)
    end
  else if isSQLIdentifierStart a then
    let '(w, rest) := spanBytes isSQLIdentifierPart s in
    (Some (Token (ToLower (String a w)) true false), rest)
  else
    ((if Ascii.eqb a "." || Ascii.eqb a "(" then Some (Token (String a "") false false) else None), s).

(** The loop; every turn moves forward, so the length is enough fuel. *)
Fixpoint tokenizeAux (fuel : nat) (s : string) : list sqlRelationToken :=
  match s, fuel with
  | EmptyString, _ | _, O => []
  | String a s', S fuel =>
      let '(token, rest) := nextToken a s' in
      option_list token ++ tokenizeAux fuel rest
  end.

Definition tokenizeSQLRelations (sql : string) : list sqlRelationToken :=
  tokenizeAux (length sql) sql.

(** ** The scan *)

Definition isKeyword (t : sqlRelationToken) : bool :=
  identifier t && negb (quoted t) &&
  bool_decide (tk_value t ∈ ["from"; "into"; "join"; "update"]).

Definition isModifier (t : sqlRelationToken) : bool :=
  identifier t && negb (quoted t) && bool_decide (tk_value t ∈ ["lateral"; "only"]).

Fixpoint skipModifiers (ts : list sqlRelationToken) : list sqlRelationToken :=
  match ts with
  | t :: ts' => if isModifier t then skipModifiers ts' else ts
  | [] => []
  end.

(** The dotted parts after the first one; at most [n] of them. *)
Fixpoint moreParts (n : nat) (ts : list sqlRelationToken) : list string :=
  match n, ts with
  | S n, dot :: t :: ts =>
      if bool_decide (tk_value dot = ".") && identifier t then tk_value t :: moreParts n ts else []
  | _, _ => []
  end.

Definition identifierOf (parts : list string) : list Identifier :=
  match parts with
  | [name] => [MkIdentifier "" "" name]
  | [schema; name] => [MkIdentifier "" schema name]
  | [catalog; schema; name] => [MkIdentifier catalog schema name]
  | _ => []
  end.

Definition relationAt (ts : list sqlRelationToken) : list Identifier :=
  match skipModifiers ts with
  | t :: ts => if identifier t then identifierOf (tk_value t :: moreParts 2 ts) else []
  | [] => []
  end.

Fixpoint scanRelations (ts : list sqlRelationToken) : list Identifier :=
  match ts with
  | [] => []
  | t :: ts => (if isKeyword t then relationAt ts else []) ++ scanRelations ts
  end.

Definition queryRelationIdentifiers (sql : string) : list Identifier :=
  scanRelations (tokenizeSQLRelations sql).

(** ** The tokenizer terminates *)

Lemma skipLine_length s : (length (skipSQLLineComment s) <= length s)%nat.
Proof. induction s as [|a s IH]; simpl; [done|]. destruct (Ascii.eqb a "010"); simpl; lia. Qed.

Lemma string_ind2 (P : string -> Prop) :
  P "" -> (forall a, P (String a "")) -> (forall a b s, P s -> P (String b s) -> P (String a (String b s))) ->
  forall s, P s.
Proof.
  intros Hnil Hone Htwo s. enough (Hs : P s /\ forall a, P (String a s)) by apply Hs.
  induction s as [|b s [IH1 IH2]]; [by split|]. split; [apply IH2|]. intros a. by apply Htwo.
Qed.

Lemma skipBlock_length depth s : (length (skipSQLBlockComment depth s) <= length s)%nat.
Proof.
  revert depth. induction s as [|a|a b s IH1 IH2] using string_ind2; intros [|depth]; simpl; try done; try lia.
  destruct (Ascii.eqb a "/" && Ascii.eqb b "*"); [specialize (IH1 (S (S depth))); lia|].
  destruct (Ascii.eqb a "*" && Ascii.eqb b "/"); [specialize (IH1 depth); lia|].
  specialize (IH2 (S depth)). simpl in IH2. lia.
Qed.

Lemma skipQuote_length s : (length (skipSQLSingleQuotedString s) <= length s)%nat.
Proof.
  induction s as [|a|a b s IH1 IH2] using string_ind2; simpl; try done.
  - destruct (negb _); simpl; lia.
  - destruct (Ascii.eqb a "'"); simpl in *; [destruct (Ascii.eqb b "'"); simpl; lia|lia].
Qed.

Lemma readQuoted_length s : (length (readSQLQuotedIdentifier s).2 <= length s)%nat.
Proof.
  induction s as [|a|a b s IH1 IH2] using string_ind2; simpl; try done.
  - destruct (negb _); simpl; lia.
  - destruct (Ascii.eqb a dquote); simpl in *.
    + destruct (Ascii.eqb b dquote); simpl in *; [|lia].
      destruct (readSQLQuotedIdentifier s); simpl in *; lia.
    + destruct (negb (Ascii.eqb b dquote)); simpl in *.
      * destruct (readSQLQuotedIdentifier s); simpl in *; lia.
      * destruct s as [|c s]; simpl in *; [lia|]. destruct (Ascii.eqb c dquote); simpl in *; [|lia].
        destruct (readSQLQuotedIdentifier s); simpl in *; lia.
Qed.

Lemma spanBytes_length p s : (length (spanBytes p s).2 <= length s)%nat.
Proof.
  induction s as [|a s IH]; simpl; [done|]. destruct (p a); simpl; [|lia].
  destruct (spanBytes p s); simpl in *; lia.
Qed.

Lemma dropBytes_length n s : (length (dropBytes n s) <= length s)%nat.
Proof. revert s. induction n as [|n IH]; intros [|a s]; simpl; try done. specialize (IH s). lia. Qed.

Lemma skipDollar_length s rest :
  skipSQLDollarQuotedString s = Some rest -> (length rest <= length s)%nat.
Proof.
  unfold skipSQLDollarQuotedString. pose proof (spanBytes_length isSQLDollarTagPart s) as Hs.
  destruct (spanBytes isSQLDollarTagPart s) as [tag [|a body]]; [done|]. simpl in Hs.
  destruct (Ascii.eqb a "$"); [|done].
  destruct (Index body _) as [i|]; intros [= <-]; [|simpl; lia].
  etrans; [apply dropBytes_length|lia].
Qed.

Lemma nextToken_length a s : (length (nextToken a s).2 <= length s)%nat.
Proof.
  unfold nextToken. pose proof (dropBytes_length 1 s) as Hd.
  destruct (isSQLSpace a); [done|].
  destruct (HasPrefix (String a s) "--"); [cbn [snd]; pose proof (skipLine_length (dropBytes 1 s)); lia|].
  destruct (HasPrefix (String a s) "/*"); [cbn [snd]; pose proof (skipBlock_length 1 (dropBytes 1 s)); lia|].
  destruct (Ascii.eqb a "'"); [apply skipQuote_length|].
  destruct (Ascii.eqb a dquote).
  { pose proof (readQuoted_length s). by destruct (readSQLQuotedIdentifier s). }
  destruct (Ascii.eqb a "$").
  { destruct (skipSQLDollarQuotedString s) eqn:E; [by eapply skipDollar_length|done]. }
  destruct (isSQLIdentifierStart a); [|done].
  pose proof (spanBytes_length isSQLIdentifierPart s). by destruct (spanBytes isSQLIdentifierPart s).
Qed.

(** More fuel changes nothing. *)
Lemma tokenizeAux_fuel fuel s : (length s <= fuel)%nat -> tokenizeAux fuel s = tokenizeSQLRelations s.
Proof.
  unfold tokenizeSQLRelations. remember (length s) as n eqn:Hn. revert fuel s Hn.
  induction (lt_wf n) as [n _ IH]. intros fuel s -> Hf.
  destruct s as [|a s]; [by destruct fuel|]. simpl in Hf. destruct fuel as [|fuel]; [lia|].
  cbn [tokenizeAux length String.length]. pose proof (nextToken_length a s) as Hlen.
  destruct (nextToken a s) as [token rest]. simpl in Hlen. f_equal.
  rewrite (IH (length rest)) with (fuel := fuel) by (simpl; lia).
  symmetry. apply (IH (length rest)); simpl; lia.
Qed.

(** The tokenizer, one turn at a time. *)
Lemma tokenize_cons a s :
  tokenizeSQLRelations (String a s) =
  (option_list (nextToken a s).1 ++ tokenizeSQLRelations (nextToken a s).2)%list.
Proof.
  unfold tokenizeSQLRelations at 1. cbn [tokenizeAux length String.length].
  pose proof (nextToken_length a s) as Hlen. destruct (nextToken a s) as [token rest]. simpl in *.
  by rewrite tokenizeAux_fuel.
Qed.

End Tables.

(** ** Texts the tokenizer reads *)

(** Quoting doubles the quote inside. *)
Fixpoint double (q : ascii) (s : string) : string :=
  match s with
  | EmptyString => ""
  | String a s => if Ascii.eqb a q then String q (String q (double q s)) else String a (double q s)
  end.

Definition quoteIdent (v : string) : string := String dquote (double dquote v +:+ String dquote "").
Definition quoteLiteral (v : string) : string := String "'" (double "'" v +:+ String "'" "").

(** The text does not go on with byte [c]. *)
Definition notNext (c : ascii) (s : string) : Prop :=
  match s with String a _ => Ascii.eqb a c = false | EmptyString => True end.

(** Bodies of block comments: plain bytes and nested comments. *)
Inductive commentBody : string -> Prop :=
  | cb_nil : commentBody ""
  | cb_byte a s : Ascii.eqb a "/" = false -> Ascii.eqb a "*" = false -> commentBody s ->
      commentBody (String a s)
  | cb_nested s t : commentBody s -> commentBody t ->
      commentBody ("/*" +:+ s +:+ "*/" +:+ t).

Fixpoint allBytes (p : ascii -> bool) (s : string) : bool :=
  match s with EmptyString => true | String a s => p a && allBytes p s end.

Lemma readQuoted_double v rest :
  notNext dquote rest ->
  readSQLQuotedIdentifier (double dquote v +:+ String dquote rest) = (v, rest).
Proof.
  intros Hr. induction v as [|a v IH]; cbn [double].
  - rewrite app_nil_string. cbn [readSQLQuotedIdentifier]. rewrite Ascii.eqb_refl.
    destruct rest as [|b rest]; [done|]. cbn in Hr. cbn [negb]. by rewrite Hr.
  - destruct (Ascii.eqb a dquote) eqn:E; rewrite !app_cons_string; cbn [readSQLQuotedIdentifier].
    + rewrite Ascii.eqb_refl. cbn [negb]. rewrite IH. apply Ascii.eqb_eq in E. by rewrite E.
    + rewrite E. cbn [negb]. by rewrite IH.
Qed.

Lemma skipQuote_double v rest :
  notNext "'" rest -> skipSQLSingleQuotedString (double "'" v +:+ String "'" rest) = rest.
Proof.
  intros Hr. induction v as [|a v IH]; cbn [double].
  - rewrite app_nil_string. cbn [skipSQLSingleQuotedString]. rewrite Ascii.eqb_refl.
    destruct rest as [|b rest]; [done|]. cbn in Hr. cbn [negb]. by rewrite Hr.
  - destruct (Ascii.eqb a "'") eqn:E; rewrite !app_cons_string; cbn [skipSQLSingleQuotedString].
    + by rewrite Ascii.eqb_refl.
    + by rewrite E.
Qed.

Lemma skipLine_body c rest :
  hasByte "010" c = false -> skipSQLLineComment (c +:+ String "010" rest) = String "010" rest.
Proof.
  induction c as [|a c IH]; cbn [hasByte].
  - rewrite app_nil_string. cbn [skipSQLLineComment]. by rewrite Ascii.eqb_refl.
  - intros [E Hc]%orb_false_iff. rewrite app_cons_string. cbn [skipSQLLineComment]. rewrite E. by apply IH.
Qed.

Lemma skipBlock_body c depth rest :
  commentBody c -> skipSQLBlockComment (S depth) (c +:+ rest) = skipSQLBlockComment (S depth) rest.
Proof.
  intros Hc. revert depth rest.
  induction Hc as [|a s Ha Hb Hs IH|s t Hs IHs Ht IHt]; intros depth rest; [done|..].
  - change (String a s +:+ rest) with (String a (s +:+ rest)). cbn [skipSQLBlockComment].
    rewrite Ha, Hb. cbn [andb]. destruct (s +:+ rest) eqn:E; rewrite <- (IH depth rest), E; done.
  - change (("/*" +:+ s +:+ "*/" +:+ t) +:+ rest) with
      (String "/" (String "*" ((s +:+ "*/" +:+ t) +:+ rest))).
    cbn [skipSQLBlockComment]. rewrite !Ascii.eqb_refl. cbn [andb].
    rewrite app_string_assoc, IHs.
    change (("*/" +:+ t) +:+ rest) with (String "*" (String "/" (t +:+ rest))).
    cbn [skipSQLBlockComment]. rewrite !Ascii.eqb_refl. cbn -[skipSQLBlockComment].
    apply IHt.
Qed.

Lemma spanBytes_all p w rest :
  allBytes p w = true -> (match rest with String a _ => p a = false | EmptyString => True end) ->
  spanBytes p (w +:+ rest) = (w, rest).
Proof.
  intros Hw Hr. induction w as [|a w IH]; cbn [allBytes] in Hw.
  - rewrite app_nil_string. destruct rest as [|a rest]; cbn [spanBytes]; [done|]. by rewrite Hr.
  - apply andb_true_iff in Hw as [Ha Hw]. rewrite app_cons_string. cbn [spanBytes].
    rewrite Ha. by rewrite IH.
Qed.

Lemma dropBytes_app a b : dropBytes (length a) (a +:+ b) = b.
Proof. induction a as [|x a IH]; [done|exact IH]. Qed.

Lemma dropBytes_plus n m s : dropBytes (n + m) s = dropBytes m (dropBytes n s).
Proof. revert s. induction n as [|n IH]; intros [|a s]; [done..| |apply IH]. by destruct m. Qed.

Section Claims.
Context `{UT : !UnicodeTables}.

(** A quoted identifier is one token. *)
Lemma quoted_identifier_tokens v rest :
  notNext dquote rest ->
  tokenizeSQLRelations (quoteIdent v +:+ rest) =
  Token v true true :: tokenizeSQLRelations rest.
Proof.
  intros Hr. unfold quoteIdent.
  change (String dquote (double dquote v +:+ String dquote "") +:+ rest)
    with (String dquote ((double dquote v +:+ String dquote "") +:+ rest)).
  rewrite tokenize_cons, app_string_assoc.
  change (String dquote "" +:+ rest) with (String dquote rest).
  assert (Hn : forall X, nextToken dquote X =
    let '(value, rest) := readSQLQuotedIdentifier X in (Some (Token value true true), rest)) by reflexivity.
  by rewrite Hn, readQuoted_double.
Qed.

(** Quoting a name and tokenizing it gives the name back: whatever bytes
    it holds (quotes, dots, keywords, comment markers), a double-quoted
    identifier is one quoted token whose value is the name, and the text after
    it is read as if it stood alone. *)
Theorem quoted_identifier_roundtrip v rest :
  notNext dquote rest ->
  readSQLQuotedIdentifier (double dquote v +:+ String dquote rest) = (v, rest) /\
  tokenizeSQLRelations (quoteIdent v +:+ rest) =
  Token v true true :: tokenizeSQLRelations rest.
Proof. intros Hr. split; [by apply readQuoted_double|by apply quoted_identifier_tokens]. Qed.

(** Comments and literals contribute no tokens: a line comment, a block
    comment with properly nested comments inside, a single-quoted literal with
    doubled quotes, and a dollar-quoted string (whatever its tag and body) are
    skipped entirely, so relation names inside them are never found. *)
Theorem comments_and_literals_skipped rest :
  (forall c, hasByte "010" c = false ->
     tokenizeSQLRelations ("--" +:+ c +:+ String "010" rest) = tokenizeSQLRelations rest) /\
  (forall c, commentBody c ->
     tokenizeSQLRelations ("/*" +:+ c +:+ "*/" +:+ rest) = tokenizeSQLRelations rest) /\
  (forall v, notNext "'" rest ->
     tokenizeSQLRelations (quoteLiteral v +:+ rest) = tokenizeSQLRelations rest) /\
  (forall tag body, allBytes isSQLDollarTagPart tag = true ->
     let delimiter := String "$" (tag +:+ "$") in
     Index (body +:+ delimiter +:+ rest) delimiter = Some (length body) ->
     tokenizeSQLRelations (delimiter +:+ body +:+ delimiter +:+ rest) = tokenizeSQLRelations rest).
Proof.
  split_and!.
  - intros c Hc.
    change (tokenizeSQLRelations (String "-" (String "-" (c +:+ String "010" rest))) =
      tokenizeSQLRelations rest).
    rewrite tokenize_cons.
    assert (Hn : forall X, nextToken "-" (String "-" X) = (None, skipSQLLineComment X))
      by (intros []; reflexivity).
    rewrite Hn, skipLine_body by done. cbn [option_list fst snd app]. rewrite tokenize_cons.
    assert (Hs : nextToken "010" rest = (None, rest)) by reflexivity. by rewrite Hs.
  - intros c Hc.
    change (tokenizeSQLRelations (String "/" (String "*" (c +:+ "*/" +:+ rest))) =
      tokenizeSQLRelations rest).
    rewrite tokenize_cons.
    assert (Hn : forall X, nextToken "/" (String "*" X) = (None, skipSQLBlockComment 1 X))
      by (intros []; reflexivity).
    rewrite Hn, skipBlock_body by done. by destruct rest.
  - intros v Hr.
    assert (Hq : quoteLiteral v +:+ rest = String "'" (double "'" v +:+ String "'" rest)).
    { unfold quoteLiteral. rewrite app_cons_string, app_string_assoc. done. }
    rewrite Hq, tokenize_cons.
    assert (Hn : forall X, nextToken "'" X = (None, skipSQLSingleQuotedString X)) by reflexivity.
    by rewrite Hn, skipQuote_double.
  - intros tag body Htag delimiter Hidx.
    change (delimiter +:+ body +:+ delimiter +:+ rest) with
      (String "$" ((tag +:+ "$") +:+ body +:+ delimiter +:+ rest)).
    rewrite tokenize_cons.
    assert (Hskip : skipSQLDollarQuotedString ((tag +:+ "$") +:+ body +:+ delimiter +:+ rest) = Some rest).
    { unfold skipSQLDollarQuotedString. rewrite app_string_assoc.
      rewrite spanBytes_all by done.
      change (match Index (body +:+ delimiter +:+ rest) delimiter with
        | Some closing => Some (dropBytes (closing + length delimiter) (body +:+ delimiter +:+ rest))
        | None => Some "" end = Some rest).
      rewrite Hidx. f_equal. by rewrite dropBytes_plus, !dropBytes_app. }
    assert (Hn : forall X, nextToken "$" X =
      match skipSQLDollarQuotedString X with Some rest => (None, rest) | None => (None, X) end)
      by reflexivity.
    by rewrite Hn, Hskip.
Qed.

(** An unquoted word followed by a space is one lower-cased token. *)
Lemma word_token a w rest :
  isSQLIdentifierStart a = true -> allBytes isSQLIdentifierPart w = true ->
  tokenizeSQLRelations (String a w +:+ " " +:+ rest) =
  Token (ToLower (String a w)) true false :: tokenizeSQLRelations rest.
Proof.
  intros Ha Hw. change (String a w +:+ " " +:+ rest) with (String a (w +:+ String " " rest)).
  rewrite tokenize_cons.
  assert (Hn : nextToken a (w +:+ String " " rest) =
    (Some (Token (ToLower (String a w)) true false), String " " rest)).
  { assert (Hz : byteZ a = 95 \/ 97 <= byteZ a <= 122 \/ 65 <= byteZ a <= 90).
    { revert Ha. unfold isSQLIdentifierStart, inRange. lia. }
    assert (Hne : forall c, ~ (byteZ c = 95 \/ 97 <= byteZ c <= 122 \/ 65 <= byteZ c <= 90) ->
      Ascii.eqb a c = false).
    { intros c Hc. apply Ascii.eqb_neq. intros ->. by apply Hc. }
    assert (Hsp : isSQLSpace a = false) by (unfold isSQLSpace; lia).
    assert (Hp : forall b t, (byteZ b <> 95 /\ ~ 97 <= byteZ b <= 122 /\ ~ 65 <= byteZ b <= 90) ->
      HasPrefix (String a (w +:+ String " " rest)) (String b t) = false).
    { intros b t Hb. unfold HasPrefix. cbn [String.prefix]. destruct (ascii_dec b a) as [->|]; [lia|done]. }
    unfold nextToken. rewrite Hsp, !Hp, !Hne, Ha by (vm_compute; intuition discriminate).
    by rewrite spanBytes_all. }
  rewrite Hn. cbn [option_list fst snd app]. rewrite tokenize_cons.
  assert (Hs : nextToken " " rest = (None, rest)) by reflexivity. by rewrite Hs.
Qed.

(** The relation after FROM, INTO, JOIN or UPDATE is found whatever its
    name. For a keyword in any letter case followed by a schema and a name,
    both quoted, the identifier reported first is exactly that schema and name,
    and the rest of the text contributes exactly its own relations. *)
Theorem relation_found a w schema name rest :
  isSQLIdentifierStart a = true -> allBytes isSQLIdentifierPart w = true ->
  ToLower (String a w) ∈ ["from"; "into"; "join"; "update"] -> notNext dquote rest ->
  (match tokenizeSQLRelations rest with t :: _ => tk_value t <> "." | [] => True end) ->
  queryRelationIdentifiers
    (String a w +:+ " " +:+ quoteIdent schema +:+ "." +:+ quoteIdent name +:+ rest) =
  MkIdentifier "" schema name :: queryRelationIdentifiers rest.
Proof.
  intros Ha Hw Hkw Hr Hdot. unfold queryRelationIdentifiers.
  rewrite word_token by done. rewrite quoted_identifier_tokens by done.
  change ("." +:+ quoteIdent name +:+ rest) with (String "." (quoteIdent name +:+ rest)).
  rewrite tokenize_cons.
  assert (Hn : forall X, nextToken "." X = (Some (Token "." false false), X)) by reflexivity.
  rewrite Hn. cbn [fst snd]. rewrite quoted_identifier_tokens by done.
  change (option_list (Some (Token "." false false))) with [Token "." false false].
  cbn [app scanRelations]. unfold isKeyword at 1. cbn [identifier quoted tk_value negb andb].
  rewrite bool_decide_eq_true_2 by done.
  assert (Hrel : relationAt (Token schema true true :: Token "." false false ::
    Token name true true :: tokenizeSQLRelations rest) = [MkIdentifier "" schema name]).
  { unfold relationAt. cbn -[tokenizeSQLRelations].
    destruct (tokenizeSQLRelations rest) as [|t [|u ts]]; [done|done|]. cbn.
    rewrite (bool_decide_eq_false_2 (tk_value t = ".")) by done. done. }
  by rewrite Hrel.
Qed.

End Claims.

(** ** Concrete texts *)

Lemma quoted_identifier_roundtrip_witness :
  readSQLQuotedIdentifier (double dquote "a.b" +:+ String dquote " x") = ("a.b", " x") /\
  tokenizeSQLRelations (UT := asciiTables) (quoteIdent "a.b" +:+ " x") =
  Token "a.b" true true :: tokenizeSQLRelations (UT := asciiTables) " x".
Proof. apply (quoted_identifier_roundtrip (UT := asciiTables) "a.b" " x"). reflexivity. Defined.

Lemma comments_and_literals_skipped_witness :
  tokenizeSQLRelations (UT := asciiTables) ("/*" +:+ ("/*" +:+ "from x" +:+ "*/" +:+ "") +:+ "*/" +:+ " y") =
  tokenizeSQLRelations (UT := asciiTables) " y".
Proof.
  apply (comments_and_literals_skipped (UT := asciiTables) " y").
  apply cb_nested; [|constructor]. repeat (apply cb_byte; [reflexivity|reflexivity|]). constructor.
Defined.

Lemma relation_found_witness :
  queryRelationIdentifiers (UT := asciiTables)
    (String "F" "rom" +:+ " " +:+ quoteIdent "app" +:+ "." +:+ quoteIdent "from" +:+ " where id = $1") =
  MkIdentifier "" "app" "from" :: queryRelationIdentifiers (UT := asciiTables) " where id = $1".
Proof.
  apply (relation_found (UT := asciiTables) "F" "rom" "app" "from" " where id = $1").
  - reflexivity.
  - reflexivity.
  - vm_compute. left.
  - reflexivity.
  - vm_compute. discriminate.
Defined.
