(* ===== verification/Naming.v ===== *)
(** * Naming: Go names from SQL names (sqlcplugin/naming.go) *)

From S2P Require Import Prelude Errors GoStrings Unicode Plugin.
From Stdlib Require Import Ascii String.

#[local] Open Scope string_scope.
#[local] Open Scope Z_scope.

Section Naming.
Context `{UT : !UnicodeTables}.

(** [fmt.Sprintf("%d", z)]. *)
Fixpoint digitsAux (fuel : nat) (z : Z) (acc : string) : string :=
  match fuel with
  | O => acc
  | S fuel =>
      let acc := String (byteOf (48 + z mod 10)) acc in
      if z / 10 =? 0 then acc else digitsAux fuel (z / 10) acc
  end.
Definition itoa (z : Z) : string :=
  let n := Z.abs z in
  let digits := digitsAux (S (Z.to_nat (Z.log2 n))) n "" in
  if z <? 0 then String "-" digits else digits.

Definition columnName (column : Column) (pos : nat) : string :=
  if bool_decide (col_name column <> "") then col_name column
  else "column_" +:+ itoa (Z.of_nat pos + 1).

Definition onFirst (f : Z -> Z) (rs : list Z) : list Z :=
  match rs with [] => [] | r :: rs => f r :: rs end.

Definition title (s : string) : string :=
  if bool_decide (s = "") then s else ofRunes (onFirst runeToUpper (runes s)).

Definition lowerTitle (s : string) : string :=
  if bool_decide (s = "") then s else ofRunes (onFirst runeToLower (runes s)).

Definition argNamePart (idx : nat) (part : string) : string :=
  if (idx =? 0)%nat then ToLower part
  else if EqualFold part "id" then "ID"
  else title part.

Definition argName (name : string) : string :=
  Join (imap argNamePart (splitByte "_" name)) "".

Definition paramName (param : QueryParam) : string :=
  if bool_decide (col_name (par_column param) <> "") then argName (col_name (par_column param))
  else "dollar_" +:+ itoa (par_number param).

(** The loop of [splitIdentifier]: [current] holds the runes written so far. *)
Fixpoint splitIdentifierAux (rs current : list Z) : list string :=
  match rs with
  | [] => if bool_decide (current <> []) then [ofRunes current] else []
  | r :: rs =>
      if IsLetter r || IsDigit r then splitIdentifierAux rs (current ++ [r])
      else if bool_decide (current <> []) then ofRunes current :: splitIdentifierAux rs []
      else splitIdentifierAux rs current
  end%list.
Definition splitIdentifier (name : string) : list string := splitIdentifierAux (runes name) [].

(** utf8.DecodeRuneInString, the rune only. *)
Definition firstRune (s : string) : Z :=
  match decodeRune s with Some (r, _, _) => r | None => RuneError end.

Definition structNamePart (part : string) : string :=
  let lower := ToLower part in
  if EqualFold lower "id" then "ID" else title lower.

Definition structName (name : string) (opts : options) : string :=
  let replacement := default "" (Rename opts !! name) in
  if bool_decide (replacement <> "") then replacement
  else
    let result := Join (structNamePart <$> splitIdentifier name) "" in
    if IsDigit (firstRune result) then "_" +:+ result else result.

(** [before] is the rune before [rs], when there is one. *)
Fixpoint snakeRunes (before : option Z) (rs : list Z) : list Z :=
  match rs with
  | [] => []
  | current :: rest =>
      let nextIsLower := match rest with next :: _ => IsLower next | [] => false end in
      let separate :=
        match before with
        | Some previous =>
            IsUpper current &&
            (IsLower previous || IsDigit previous || (IsUpper previous && nextIsLower))
        | None => false
        end in
      (if separate then [95; runeToLower current] else [runeToLower current]) ++
      snakeRunes (Some current) rest
  end%list.
Definition snakeCaseIdentifier (name : string) : string := ofRunes (snakeRunes None (runes name)).

Definition goKeywordList : list string :=
  ["break"; "default"; "func"; "interface"; "select"; "case"; "defer"; "go"; "map"; "struct";
   "chan"; "else"; "goto"; "package"; "switch"; "const"; "fallthrough"; "if"; "range"; "type";
   "continue"; "for"; "import"; "return"; "var"].
Definition goKeywords (name : string) : bool := bool_decide (name ∈ goKeywordList).

Definition escape (name : string) : string :=
  if goKeywords name then name +:+ "_" else name.

(** *** path/filepath on a system whose separator is a slash *)

Definition lastPart (s : string) : string := List.last (splitByte "/" s) "".

Fixpoint dropLeadingSlashes (s : list ascii) : list ascii :=
  match s with
  | a :: s' => if Ascii.eqb a "/" then dropLeadingSlashes s' else s
  | [] => []
  end.
Definition trimSlashes (s : string) : string :=
  string_of_list_ascii (rev (dropLeadingSlashes (rev (list_ascii_of_string s)))).

Definition Base (path : string) : string :=
  if bool_decide (path = "") then "."
  else
    let base := lastPart (trimSlashes path) in
    if bool_decide (base = "") then "/" else base.

(** One element of a path after the elements kept so far, the last one first. *)
Definition cleanStep (rooted : bool) (kept : list string) (part : string) : list string :=
  if bool_decide (part = "") || bool_decide (part = ".") then kept
  else if bool_decide (part = "..") then
    match kept with
    | last :: before =>
        if bool_decide (last = "..") then part :: kept else before
    | [] => if rooted then [] else [part]
    end
  else part :: kept.

Definition Clean (path : string) : string :=
  let rooted := HasPrefix path "/" in
  let kept := rev (fold_left (cleanStep rooted) (splitByte "/" path) []) in
  if rooted then "/" +:+ Join kept "/"
  else match kept with [] => "." | _ => Join kept "/" end.

Definition Dir (path : string) : string :=
  Clean (match removelast (splitByte "/" path) with
         | [] => ""
         | parts => Join parts "/" +:+ "/"
         end).

(** filepath.Ext: from the last dot of the last element. *)
Definition Ext (path : string) : string :=
  match splitByte "." (lastPart path) with
  | (_ :: _ :: _) as parts => "." +:+ List.last parts ""
  | _ => ""
  end.

Definition importPackageRune (r : Z) : Z :=
  if IsLetter r || IsDigit r || (r =? 95) then runeToLower r else 95.

(** [strings.Map] for a mapping that drops no rune. *)
Definition mapRunes (f : Z -> Z) (s : string) : string := ofRunes (f <$> runes s).

Definition isDigits (s : string) : bool :=
  forallb IsDigit (runes s) && bool_decide (s <> "").

Definition packageNameForImport (path : string) : string :=
  let base := TrimSuffix (TrimPrefix (Base path) "go-") "-go" in
  if HasPrefix base "v" && (1 <? String.length base)%nat && isDigits (dropBytes 1 base) then
    mapRunes importPackageRune (TrimSuffix (TrimPrefix (Base (Dir path)) "go-") "-go")
  else mapRunes importPackageRune base.

(** [validRouteIdentifier] (query.go): a letter or underscore, then letters,
    digits and underscores. *)
Definition identRune (r : Z) : bool := IsLetter r || (r =? 95).
Definition validRouteIdentifier (value : string) : bool :=
  match runes value with
  | [] => false
  | r :: rs => identRune r && forallb (fun r => identRune r || IsDigit r) rs
  end.

End Naming.

(** ** Properties *)

Section Properties.
Context `{UT : !UnicodeTables} `{UL : !UnicodeLaws UT}.

Definition wordRune (r : Z) : bool := IsLetter r || IsDigit r.

Lemma wordRune_scalar r : wordRune r = true -> scalar r = true.
Proof.
  unfold wordRune. intros [H|H]%orb_true_iff.
  - by apply law_letter_scalar.
  - by apply law_digit_scalar.
Qed.

Lemma wordRune_upper r : wordRune r = true -> wordRune (runeToUpper r) = true.
Proof.
  unfold wordRune. intros [H|H]%orb_true_iff.
  - by rewrite law_upper_letter.
  - by rewrite law_upper_digit, H, orb_true_r.
Qed.

Lemma wordRune_lower r : wordRune r = true -> wordRune (runeToLower r) = true.
Proof.
  unfold wordRune. intros [H|H]%orb_true_iff.
  - by rewrite law_lower_letter.
  - by rewrite law_lower_digit, H, orb_true_r.
Qed.

Lemma words_scalar rs :
  Forall (fun r => wordRune r = true) rs -> Forall (fun r => scalar r = true) rs.
Proof. intros H. eapply Forall_impl; [exact H|]. intros r. apply wordRune_scalar. Qed.

(** A word: letters and digits, not starting with a lower-case ASCII letter. *)
Definition isWord (s : string) : Prop :=
  exists r rs, s = ofRunes (r :: rs) /\ Forall (fun r => wordRune r = true) (r :: rs) /\
    asciiLower r = false.

Lemma structNamePart_word rs :
  rs <> [] -> Forall (fun r => wordRune r = true) rs -> isWord (structNamePart (ofRunes rs)).
Proof.
  intros Hne Hrs. unfold structNamePart.
  assert (ToLower (ofRunes rs) = ofRunes (runeToLower <$> rs)) as ->.
  { unfold ToLower. by rewrite runes_ofRunes by by apply words_scalar. }
  destruct (EqualFold _ _); [by exists 73, [68]; repeat constructor|].
  destruct rs as [|r rs]; [done|]. apply Forall_cons in Hrs as [Hr Hrs].
  assert (Forall (fun r => wordRune r = true) (runeToLower <$> (r :: rs))) as Hlow.
  { apply Forall_fmap, Forall_cons. split; [by apply wordRune_lower|].
    eapply Forall_impl; [exact Hrs|]. intros x. apply wordRune_lower. }
  unfold title. rewrite bool_decide_eq_false_2.
  2:{ cbn. pose proof (encodeRune_nonempty (runeToLower r)).
      destruct (encodeRune (runeToLower r)); done. }
  rewrite runes_ofRunes by by apply words_scalar. cbn [fmap list_fmap onFirst].
  apply Forall_cons in Hlow as [Hl Hlow].
  exists (runeToUpper (runeToLower r)), (runeToLower <$> rs). split_and!; [done| |].
  - constructor; [by apply wordRune_upper|done].
  - apply law_upper_not_lower.
Qed.

Lemma splitIdentifierAux_words rs current :
  Forall (fun r => wordRune r = true) current ->
  Forall (fun p => exists rs, p = ofRunes rs /\ rs <> [] /\ Forall (fun r => wordRune r = true) rs)
    (splitIdentifierAux rs current).
Proof.
  revert current. induction rs as [|r rs IH]; intros current Hc; simpl.
  - case_bool_decide; [|constructor]. repeat constructor. by exists current.
  - destruct (IsLetter r || IsDigit r) eqn:E.
    + apply IH. apply Forall_app. split; [done|]. by repeat constructor.
    + case_bool_decide; [|by apply IH]. constructor; [by exists current|]. by apply IH.
Qed.

Lemma splitIdentifierAux_nil rs current :
  splitIdentifierAux rs current = [] <-> current = [] /\ existsb wordRune rs = false.
Proof.
  revert current. induction rs as [|r rs IH]; intros current; simpl.
  - case_bool_decide; naive_solver.
  - unfold wordRune at 1. destruct (IsLetter r || IsDigit r); simpl.
    + rewrite IH. split; [|naive_solver]. intros [H _]. by destruct current.
    + case_bool_decide; [naive_solver|]. by rewrite IH.
Qed.

Lemma Join_empty_cons s l : Join (s :: l) "" = s +:+ Join l "".
Proof. unfold Join. destruct l; cbn; [by rewrite app_string_nil_r|done]. Qed.

Lemma join_words l :
  l <> [] -> Forall isWord l -> isWord (Join l "").
Proof.
  intros Hne Hl. destruct l as [|s l]; [done|]. clear Hne.
  apply Forall_cons in Hl as [(r & rs & -> & Hrs & Hr) Hl].
  assert (exists rs', Join l "" = ofRunes rs' /\ Forall (fun r => wordRune r = true) rs')
    as (rs' & Hj & Hrs').
  { clear -Hl. induction Hl as [|s l (r & rs & -> & Hrs & _) _ (rs' & Hj & Hrs')].
    - by exists [].
    - exists ((r :: rs) ++ rs')%list. rewrite Join_empty_cons, Hj, ofRunes_app.
      split; [done|]. by apply Forall_app. }
  rewrite Join_empty_cons, Hj, <- ofRunes_app. exists r, (rs ++ rs')%list.
  split_and!; [done| |done]. by apply (Forall_app _ (r :: rs) rs').
Qed.

(** What an unrenamed name becomes: nothing, a word, or an underscore and a word. *)
Lemma structName_shape name opts :
  default "" (Rename opts !! name) = "" ->
  if existsb wordRune (runes name) then
    exists w, isWord w /\ structName name opts = (if IsDigit (firstRune w) then "_" else "") +:+ w
  else structName name opts = "".
Proof.
  intros Hren. unfold structName. rewrite Hren, bool_decide_eq_false_2 by naive_solver.
  destruct (existsb wordRune (runes name)) eqn:E.
  - exists (Join (structNamePart <$> splitIdentifier name) ""). split.
    + apply join_words.
      * unfold splitIdentifier. intros Hn%fmap_nil_inv%splitIdentifierAux_nil. destruct Hn as [_ Hn]. by rewrite E in Hn.
      * apply Forall_fmap. eapply Forall_impl; [by apply splitIdentifierAux_words|].
        intros p (rs & -> & Hne & Hrs). by apply structNamePart_word.
    + by destruct (IsDigit _).
  - unfold splitIdentifier.
    rewrite (proj2 (splitIdentifierAux_nil (runes name) [])) by done. cbn zeta.
    change (Join (structNamePart <$> []) "") with "". change (firstRune "") with RuneError.
    destruct (IsDigit RuneError) eqn:D; [|done]. by apply law_digit_scalar in D.
Qed.

Lemma word_runes r rs :
  Forall (fun r => wordRune r = true) (r :: rs) -> runes (ofRunes (r :: rs)) = r :: rs.
Proof. intros H. by apply runes_ofRunes, words_scalar. Qed.

Lemma firstRune_runes s : firstRune s = match runes s with r :: _ => r | [] => RuneError end.
Proof.
  unfold firstRune, runes. rewrite runesOf_step.
  by destruct (decodeRune s) as [[[??]?]|].
Qed.

Lemma wordRune_ident r : wordRune r = true -> identRune r || IsDigit r = true.
Proof. unfold wordRune, identRune. by destruct (IsLetter r), (IsDigit r), (r =? 95). Qed.

(** The runes of a name [structName] makes: an identifier that starts with an
    upper-case letter, a caseless letter or an underscore. *)
Definition exportedRunes (rs : list Z) : Prop :=
  exists r rs', rs = r :: rs' /\ identRune r = true /\ asciiLower r = false /\
    scalar r = true /\
    Forall (fun r => identRune r || IsDigit r = true) rs' /\ Forall (fun r => scalar r = true) rs'.

Lemma structName_runes name opts :
  default "" (Rename opts !! name) = "" -> existsb wordRune (runes name) = true ->
  exists rs, structName name opts = ofRunes rs /\ exportedRunes rs.
Proof.
  intros Hren Hw. pose proof (structName_shape name opts Hren) as Hs. rewrite Hw in Hs.
  destruct Hs as (w & (r & rs & -> & Hrs & Hr) & ->).
  rewrite firstRune_runes, word_runes by done.
  pose proof Hrs as [Hr' Hrs']%Forall_cons. destruct (IsDigit r) eqn:D.
  - exists (95 :: r :: rs). split; [done|]. exists 95, (r :: rs).
    split_and!; [done..| |by apply words_scalar].
    eapply Forall_impl; [exact Hrs|]. intros x. apply wordRune_ident.
  - exists (r :: rs). split; [done|]. exists r, rs. split_and!; [done| |done| | |].
    + unfold wordRune in Hr'. rewrite D, orb_false_r in Hr'. unfold identRune. by rewrite Hr'.
    + by apply wordRune_scalar.
    + eapply Forall_impl; [exact Hrs'|]. intros x. apply wordRune_ident.
    + by apply words_scalar.
Qed.

Lemma identRune_lower r : identRune r = true -> identRune (runeToLower r) = true.
Proof.
  unfold identRune. intros [H|H%Z.eqb_eq]%orb_true_iff; [|by subst].
  by rewrite law_lower_letter.
Qed.

Lemma valid_ofRunes r rs :
  identRune r = true -> scalar r = true ->
  Forall (fun r => identRune r || IsDigit r = true) rs -> Forall (fun r => scalar r = true) rs ->
  validRouteIdentifier (ofRunes (r :: rs)) = true.
Proof.
  intros Hr Hsr Hrs Hsrs. unfold validRouteIdentifier.
  rewrite runes_ofRunes by by constructor. rewrite Hr. cbn.
  apply forallb_forall. rewrite Forall_forall in Hrs. intros x Hx. by apply Hrs, list_elem_of_In.
Qed.

(** Every keyword starts with a lower-case letter, and none ends in an underscore. *)
Lemma keyword_lower s : goKeywords s = true -> asciiLower (firstRune s) = true.
Proof.
  unfold goKeywords. intros H%bool_decide_eq_true. unfold goKeywordList in H.
  repeat (apply elem_of_cons in H as [->|H]; [done|]). by apply elem_of_nil in H.
Qed.

Lemma escape_not_keyword s : goKeywords (escape s) = false.
Proof.
  unfold escape. destruct (goKeywords s) eqn:E; [|done].
  unfold goKeywords in E. apply bool_decide_eq_true in E. unfold goKeywordList in E.
  repeat (apply elem_of_cons in E as [->|E]; [by vm_compute|]). by apply elem_of_nil in E.
Qed.

Lemma runes_app_ascii s a :
  wellFormed s -> byteZ a < 128 -> runes (s +:+ String a "") = (runes s ++ [byteZ a])%list.
Proof.
  intros Hs Ha. unfold runes. rewrite runesOf_app, runesOf_ascii by done.
  rewrite fmap_app. done.
Qed.

Lemma escape_valid r rs :
  identRune r = true -> scalar r = true ->
  Forall (fun r => identRune r || IsDigit r = true) rs -> Forall (fun r => scalar r = true) rs ->
  validRouteIdentifier (escape (ofRunes (r :: rs))) = true.
Proof.
  intros Hr Hsr Hrs Hsrs. unfold escape. destruct (goKeywords _); [|by apply valid_ofRunes].
  assert (ofRunes (r :: rs) +:+ "_" = ofRunes (r :: (rs ++ [95]))) as ->.
  { change "_" with (ofRunes [95]). by rewrite <- ofRunes_app. }
  apply valid_ofRunes; [done..| |]; apply Forall_app; split; try done; by repeat constructor.
Qed.

(** Identifiers for SQL names. A name the user has not renamed that holds
    a letter or a digit becomes a valid Go identifier that is no keyword and
    does not start with a lower-case ASCII letter, and the parameter name made
    from it is a valid identifier that is no keyword either; a name without
    any becomes the empty string. *)
Theorem struct_name_valid name opts :
  default "" (Rename opts !! name) = "" ->
  if existsb wordRune (runes name) then
    validRouteIdentifier (structName name opts) = true /\
    goKeywords (structName name opts) = false /\
    asciiLower (firstRune (structName name opts)) = false /\
    validRouteIdentifier (escape (lowerTitle (structName name opts))) = true /\
    goKeywords (escape (lowerTitle (structName name opts))) = false
  else structName name opts = "".
Proof.
  intros Hren. destruct (existsb wordRune (runes name)) eqn:E.
  2:{ pose proof (structName_shape name opts Hren) as H. by rewrite E in H. }
  destruct (structName_runes name opts Hren E) as (rs & -> & r & rs' & -> & Hr & Hl & Hs & Hrs & Hss).
  assert (runes (ofRunes (r :: rs')) = r :: rs') as Hrunes by (by apply runes_ofRunes; constructor).
  assert (asciiLower (firstRune (ofRunes (r :: rs'))) = false) as Hfirst
    by (by rewrite firstRune_runes, Hrunes).
  split_and!; [by apply valid_ofRunes| |done| |apply escape_not_keyword].
  - apply not_true_is_false. intros Hk%keyword_lower. by rewrite Hfirst in Hk.
  - unfold lowerTitle. rewrite bool_decide_eq_false_2.
    2:{ intros Hn. by rewrite Hn in Hrunes. }
    rewrite Hrunes. apply escape_valid; [by apply identRune_lower| |done|done].
    unfold identRune in Hr. apply orb_true_iff in Hr as [Hr|Hr%Z.eqb_eq]; [|by subst].
    by apply law_letter_scalar, law_lower_letter.
Qed.

End Properties.

Definition sampleOptions : options := {|
  OutputFileName := "store_querier.go"; PackageName := "db"; InternalImportPath := "";
  InternalImportAlias := ""; ExportSQLCTypes := false; ConstructorName := "NewStore";
  IgnoreMirrorError := false; StoreInterfaceName := "Store";
  RuntimeImportPath := "github.com/sundayfun/pgmesh"; ResolverInterfaceName := "ShardResolver";
  ShardedConstructor := "Sharded"; SQLPackage := "pgx/v5"; QueryParameterLimit := Some 1;
  EmitParamsStructPointers := false; EmitResultStructPointers := false;
  EmitPointersForNullTypes := false; EmitPointersForNullEnumType := None;
  EmitExactTableNames := false; EmitJSONTags := false; Rename := ∅; Overrides := [] |}.

#[local] Existing Instance asciiTables.

Example naming_samples :
  structName "user_id" sampleOptions = "UserID" /\ structName "2fa_code" sampleOptions = "_2faCode" /\
  argName "shard_id_no" = "shardIDNo" /\ snakeCaseIdentifier "HTTPServer2Go" = "http_server2_go" /\
  escape (lowerTitle "Type") = "type_" /\
  packageNameForImport "github.com/jackc/pgx/v5" = "pgx" /\
  packageNameForImport "github.com/pgvector/pgvector-go" = "pgvector" /\
  Clean "/a/./b/../../../c//" = "/c" /\ Ext "store.v2.go" = ".go".
Proof. by vm_compute. Qed.

Lemma struct_name_valid_witness :
  validRouteIdentifier (structName "2fa_code" sampleOptions) = true /\
  goKeywords (structName "2fa_code" sampleOptions) = false /\
  asciiLower (firstRune (structName "2fa_code" sampleOptions)) = false /\
  validRouteIdentifier (escape (lowerTitle (structName "2fa_code" sampleOptions))) = true /\
  goKeywords (escape (lowerTitle (structName "2fa_code" sampleOptions))) = false.
Proof. exact (struct_name_valid "2fa_code" sampleOptions eq_refl). Defined.

(** ** Decimal numbers are printed injectively *)

Fixpoint undigits (s : string) (v : Z) : Z :=
  match s with
  | EmptyString => v
  | String a s => undigits s (v * 10 + (byteZ a - 48))
  end.

Lemma digitsAux_value fuel z acc :
  0 <= z < 10 ^ Z.of_nat fuel -> (0 < fuel)%nat -> undigits (digitsAux fuel z acc) 0 = undigits acc z.
Proof.
  revert z acc. induction fuel as [|fuel IH]; intros z acc Hz Hf; [lia|]. cbn [digitsAux].
  assert (byteZ (byteOf (48 + z mod 10)) - 48 = z mod 10) as Hd.
  { rewrite byteZ_byteOf; [lia|]. pose proof (Z.mod_pos_bound z 10). lia. }
  destruct (z / 10 =? 0) eqn:E.
  - cbn [undigits]. rewrite Hd. f_equal. apply Z.eqb_eq in E. Z.div_mod_to_equations. lia.
  - apply Z.eqb_neq in E. rewrite Nat2Z.inj_succ, Z.pow_succ_r in Hz by lia.
    assert (fuel <> O) as Hf0. { intros ->. apply E. apply Z.div_small. cbn in Hz. lia. }
    rewrite IH; [|split; [apply Z.div_pos; lia|apply Z.div_lt_upper_bound; lia]|lia].
    cbn [undigits]. rewrite Hd. f_equal. rewrite Z.mul_comm. symmetry. apply Z.div_mod. lia.
Qed.

Lemma itoa_value z : 0 <= z -> undigits (itoa z) 0 = z.
Proof.
  intros Hz. unfold itoa. replace (z <? 0) with false by lia. rewrite Z.abs_eq by lia.
  apply digitsAux_value; [|lia]. split; [done|]. rewrite Nat2Z.inj_succ, Z2Nat.id by apply Z.log2_nonneg.
  destruct (Z.eq_dec z 0) as [->|Hne]; [cbn; lia|].
  pose proof (Z.log2_spec z) as [_ Hl]; [lia|]. eapply Z.lt_le_trans; [exact Hl|].
  apply Z.pow_le_mono_l. split; [lia|lia].
Qed.

Lemma itoa_inj z1 z2 : 0 <= z1 -> 0 <= z2 -> itoa z1 = itoa z2 -> z1 = z2.
Proof. intros H1 H2 E. rewrite <- (itoa_value z1), <- (itoa_value z2) by done. by rewrite E. Qed.

Lemma app_string_inj_r a s t : a +:+ s = a +:+ t -> s = t.
Proof. induction a as [|x a IH]; [done|]. rewrite !app_cons_string. intros [= E]. by apply IH. Qed.

(** ** Numbered names *)

(** The names a repeated base gets: itself, then [base_2], [base_3], ... *)
Definition numbered (base : string) (suffix : nat) : string :=
  if (0 <? suffix)%nat then base +:+ ("_" +:+ itoa (Z.of_nat suffix)) else base.

(** A base with no underscore after its first byte. *)
Definition plainBase (s : string) : Prop := exists a t, s = String a t /\ hasByte "_" t = false.

Lemma numbered_inj b1 s1 b2 s2 :
  plainBase b1 -> plainBase b2 -> numbered b1 s1 = numbered b2 s2 -> b1 = b2 /\ s1 = s2.
Proof.
  intros (a1 & t1 & -> & H1) (a2 & t2 & -> & H2). unfold numbered.
  destruct s1 as [|s1], s2 as [|s2]; cbn [Nat.ltb Nat.leb]; rewrite ?app_cons_string.
  - by intros [= -> ->].
  - intros [= _ E]. by apply app_sep_absent in E.
  - intros [= _ E]. symmetry in E. by apply app_sep_absent in E.
  - intros [= -> E]. apply app_sep_inj in E as [-> E]; [|done..].
    apply itoa_inj in E; [|lia..]. split; [done|lia].
Qed.

Lemma structName_base `{UT : !UnicodeTables} `{UL : !UnicodeLaws UT} name opts :
  default "" (Rename opts !! name) = "" -> existsb wordRune (runes name) = true ->
  plainBase (structName name opts).
Proof.
  intros Hren Hw. pose proof (structName_shape name opts Hren) as Hs. rewrite Hw in Hs.
  destruct Hs as (w & (r & rs & -> & Hrs & _) & ->).
  assert (hasByte "_" (ofRunes (r :: rs)) = false) as Hb.
  { apply wellFormed_hasByte; [|done|].
    - unfold wellFormed. rewrite word_runes by done. eapply Forall_impl; [exact Hrs|].
      intros x Hx%wordRune_scalar ->. done.
    - rewrite word_runes by done. eapply Forall_impl; [exact Hrs|]. intros x Hx ->.
      by vm_compute in Hx. }
  destruct (IsDigit _).
  - by exists "_"%char, (ofRunes (r :: rs)).
  - rewrite app_nil_string. destruct (ofRunes (r :: rs)) as [|a t] eqn:E.
    + pose proof (word_runes r rs Hrs) as Hr. by rewrite E in Hr.
    + exists a, t. split; [done|]. cbn in Hb. by apply orb_false_iff in Hb as [_ ?].
Qed.
