(* ===== verification/Annotations.v ===== *)
(** * Annotations: the comment annotations of a query (sqlcplugin/query.go)

    [classifyQuery] reads the kind, the optional shard route and the store
    group of a query from the comments sqlc hands over, or from the query's
    text, and checks their order. A slice expression that could be out of
    range is a [Panic]. *)

From S2P Require Import Prelude Errors GoStrings Unicode Plugin Naming.
From Stdlib Require Import Ascii String.

#[local] Open Scope string_scope.

Inductive queryKind := queryKindRead | queryKindWrite.

#[export] Instance queryKind_eq_dec : EqDecision queryKind.
Proof. solve_decision. Defined.

Definition kindString (k : queryKind) : string :=
  match k with queryKindRead => "read" | queryKindWrite => "write" end.

Record routeAnnotation := MkRouteAnnotation { ra_name : string; ra_operands : list string }.

#[export] Instance routeAnnotation_eq_dec : EqDecision routeAnnotation.
Proof. solve_decision. Defined.

Definition shardAnnotationPrefix : string := "shard:".
Definition storeAnnotationPrefix : string := "store:".
Definition allShardsRouteName : string := "all".

(** The slice expressions [s[n:]] and [s[i:j]]. *)
Definition sliceFrom (n : nat) (s : string) : result string :=
  if (String.length s <? n)%nat then Panic else Ok (dropBytes n s).
Definition slice (i j : nat) (s : string) : result string :=
  if (j <? i)%nat || (String.length s <? j)%nat then Panic
  else Ok (takeBytes (j - i) (dropBytes i s)).

Section Annotations.
Context `{UT : !UnicodeTables}.

Definition normalizeComment (comment : string) : string :=
  let comment := TrimSpace comment in
  let comment := TrimPrefix comment "--" in
  let comment := TrimPrefix comment "//" in
  let comment := TrimSpace comment in
  let comment :=
    if HasPrefix comment "/*" && HasSuffix comment "*/"
    then TrimSuffix (TrimPrefix comment "/*") "*/" else comment in
  TrimSpace comment.

Definition annotationPrefix (comment : string) : string :=
  let lower := ToLower (normalizeComment comment) in
  if HasPrefix lower shardAnnotationPrefix then shardAnnotationPrefix
  else if HasPrefix lower storeAnnotationPrefix then storeAnnotationPrefix
  else "".

Definition isNameLine (line : string) : bool := HasPrefix (ToLower (TrimSpace line)) "-- name:".

Definition queryKindFromComment (queryName comment : string) : result queryKind :=
  let comment := normalizeComment comment in
  if negb (HasPrefix (ToLower comment) "kind:") then
    Err (Errorf "query %s first comment must be kind annotation; add -- kind: read or -- kind: write before other comments"
      [AStr queryName] [])
  else
    rest ← sliceFrom (String.length "kind:") comment;
    let value := TrimSpace rest in
    let lower := ToLower value in
    if bool_decide (lower = kindString queryKindRead) then mret queryKindRead
    else if bool_decide (lower = kindString queryKindWrite) then mret queryKindWrite
    else Err (Errorf "query %s has invalid kind annotation %q; expected read or write"
      [AStr queryName; AStr value] []).

(** The loop over the operands; [seen] are the operands so far. *)
Fixpoint parseOperands (queryName : string) (seen parts : list string) : result (list string) :=
  match parts with
  | [] => mret seen
  | part :: parts =>
      let operand := TrimSpace part in
      if negb (validRouteIdentifier operand) then
        Err (Errorf "query %s has invalid shard operand %q" [AStr queryName; AStr operand] [])
      else if bool_decide (operand ∈ seen) then
        Err (Errorf "query %s repeats shard operand %q" [AStr queryName; AStr operand] [])
      else parseOperands queryName (seen ++ [operand])%list parts
  end.

Definition parseShardAnnotation (queryName comment : string) : result routeAnnotation :=
  rest ← sliceFrom (String.length "shard:") (normalizeComment comment);
  let value := TrimSpace rest in
  match Index value "(" with
  | Some (S _ as open) =>
      if negb (HasSuffix value ")") then
        Err (Errorf "query %s has malformed shard annotation %q; expected route(parameter, ...)"
          [AStr queryName; AStr value] [])
      else
        before ← slice 0 open value;
        let name := TrimSpace before in
        if negb (validRouteIdentifier name) then
          Err (Errorf "query %s has invalid shard route name %q" [AStr queryName; AStr name] [])
        else
          inner ← slice (open + 1) (String.length value - 1) value;
          let body := TrimSpace inner in
          if bool_decide (body = "") then mret (MkRouteAnnotation name [])
          else
            operands ← parseOperands queryName [] (splitByte "," body);
            mret (MkRouteAnnotation name operands)
  | _ =>
      Err (Errorf "query %s has malformed shard annotation %q; expected route(parameter, ...)"
        [AStr queryName; AStr value] [])
  end.

Definition parseStoreAnnotation (queryName comment : string) : result string :=
  rest ← sliceFrom (String.length storeAnnotationPrefix) (normalizeComment comment);
  let value := TrimSpace rest in
  if negb (validRouteIdentifier value) || goKeywords value || negb (IsUpper (firstRune value)) then
    Err (Errorf "query %s has invalid store annotation %q; expected an exported Go identifier"
      [AStr queryName; AStr value] [])
  else mret value.

(** The loop over text lines in [queryComments]. *)
Fixpoint leadingComments (lines : list string) : list string :=
  match lines with
  | [] => []
  | rawLine :: lines =>
      let line := TrimSpace rawLine in
      if bool_decide (line = "") || HasPrefix (ToLower line) "-- name:" then leadingComments lines
      else if HasPrefix line "--" then line :: leadingComments lines
      else []
  end.

Definition queryComments (query : Query) : list string :=
  match q_comments query with
  | (_ :: _) as comments => comments
  | [] => leadingComments (splitByte "010" (q_text query))
  end.

Definition shardOrderError (name : string) : error :=
  Errorf "query %s shard annotation must immediately follow its kind annotation" [AStr name] [].
Definition storeOrderError (name : string) : error :=
  Errorf "query %s store annotation must immediately follow its kind or shard annotation"
    [AStr name] [].

(** The loop that refuses annotations after the place for them. *)
Fixpoint noMoreAnnotations (name : string) (comments : list string) : result unit :=
  match comments with
  | [] => mret tt
  | comment :: comments =>
      if bool_decide (annotationPrefix comment = shardAnnotationPrefix) then Err (shardOrderError name)
      else if bool_decide (annotationPrefix comment = storeAnnotationPrefix) then
        Err (storeOrderError name)
      else noMoreAnnotations name comments
  end.

(** The lines after the first sqlc name annotation. *)
Fixpoint afterNameLine (lines : list string) : option (list string) :=
  match lines with
  | [] => None
  | line :: lines => if isNameLine line then Some lines else afterNameLine lines
  end.

(** Skip the line at the front when it is a [--] comment with this annotation. *)
Definition skipAnnotation (prefix : string) (lines : list string) : list string :=
  match lines with
  | line :: rest =>
      if bool_decide (annotationPrefix line = prefix) && HasPrefix (TrimSpace line) "--"
      then rest else lines
  | [] => []
  end.

Definition validateRawAnnotationOrder (query : Query) : result unit :=
  match afterNameLine (splitByte "010" (q_text query)) with
  | None => mret tt
  | Some lines =>
      let misplaced :=
        Err (Errorf "query %s kind annotation must immediately follow its sqlc name annotation"
          [AStr (q_name query)] []) in
      match lines with
      | [] => misplaced
      | line :: rest =>
          if negb (HasPrefix (ToLower (normalizeComment line)) "kind:") ||
             negb (HasPrefix (TrimSpace line) "--")
          then misplaced
          else
            noMoreAnnotations (q_name query)
              (skipAnnotation storeAnnotationPrefix (skipAnnotation shardAnnotationPrefix rest))
      end
  end.

Definition classifyQuery (query : Query) : result (queryKind * option routeAnnotation * string) :=
  _ ← validateRawAnnotationOrder query;
  match queryComments query with
  | [] =>
      Err (Errorf "query %s is missing required kind annotation; add -- kind: read or -- kind: write immediately after -- name"
        [AStr (q_name query)] [])
  | first :: comments =>
      kind ← queryKindFromComment (q_name query) first;
      '(route, comments) ←
        match comments with
        | comment :: rest =>
            if bool_decide (annotationPrefix comment = shardAnnotationPrefix) then
              route ← parseShardAnnotation (q_name query) comment;
              mret (Some route, rest)
            else mret (None, comments)
        | [] => mret (None, [])
        end;
      '(store, comments) ←
        match comments with
        | comment :: rest =>
            if bool_decide (annotationPrefix comment = storeAnnotationPrefix) then
              store ← parseStoreAnnotation (q_name query) comment;
              mret (store, rest)
            else mret ("", comments)
        | [] => mret ("", [])
        end;
      _ ← noMoreAnnotations (q_name query) comments;
      if bool_decide (store = "") then
        Err (Errorf "query %s is missing required store annotation; add -- store: ExportedGroup immediately after its optional shard annotation"
          [AStr (q_name query)] [])
      else mret (kind, route, store)
  end.

End Annotations.

(** ** What an accepted query looks like *)

Section Sound.
Context `{UT : !UnicodeTables}.

Definition exportedIdentifier (s : string) : Prop :=
  validRouteIdentifier s = true /\ goKeywords s = false /\ IsUpper (firstRune s) = true.

(** A route as a shard annotation may declare it. *)
Definition routeWf (r : routeAnnotation) : Prop :=
  validRouteIdentifier (ra_name r) = true /\ NoDup (ra_operands r) /\
  Forall (fun o => validRouteIdentifier o = true) (ra_operands r).

Definition countPrefix (p : string) (comments : list string) : nat :=
  Datatypes.length (filter (fun c => annotationPrefix c = p) comments).

Ltac ascii_word :=
  cbn [hasByte]; rewrite ?orb_true_iff, ?Ascii.eqb_eq; intros H; by decompose [or] H; subst.

Lemma ascii_prefix_shard a : hasByte a shardAnnotationPrefix = true -> (byteZ a < 128)%Z.
Proof. unfold shardAnnotationPrefix. ascii_word. Qed.
Lemma ascii_prefix_store a : hasByte a storeAnnotationPrefix = true -> (byteZ a < 128)%Z.
Proof. unfold storeAnnotationPrefix. ascii_word. Qed.
Lemma ascii_prefix_kind a : hasByte a "kind:" = true -> (byteZ a < 128)%Z.
Proof. ascii_word. Qed.

(** Behind a recognized prefix the slice is in range, although the prefix was
    looked for in the lower-case comment and the comment itself is sliced. *)
Lemma sliceFrom_lower s p :
  (forall a, hasByte a p = true -> (byteZ a < 128)%Z) -> HasPrefix (ToLower s) p = true ->
  sliceFrom (String.length p) s = Ok (dropBytes (String.length p) s).
Proof.
  intros Hp H. apply ToLower_prefix_length in H; [|done]. unfold sliceFrom.
  by replace (String.length s <? String.length p)%nat with false by (symmetry; apply Nat.ltb_ge; lia).
Qed.

Lemma shard_prefix_lower c :
  annotationPrefix c = shardAnnotationPrefix ->
  HasPrefix (ToLower (normalizeComment c)) shardAnnotationPrefix = true.
Proof.
  unfold annotationPrefix. intros H. by repeat (break_match_hyp H; try discriminate H).
Qed.

Lemma store_prefix_lower c :
  annotationPrefix c = storeAnnotationPrefix ->
  HasPrefix (ToLower (normalizeComment c)) storeAnnotationPrefix = true.
Proof.
  unfold annotationPrefix. intros H. by repeat (break_match_hyp H; try discriminate H).
Qed.

Lemma parseOperands_sound qn seen parts :
  parseOperands qn seen parts <> Panic /\
  forall ops, parseOperands qn seen parts = Ok ops ->
    NoDup seen -> Forall (fun o => validRouteIdentifier o = true) seen ->
    NoDup ops /\ Forall (fun o => validRouteIdentifier o = true) ops.
Proof.
  revert seen. induction parts as [|p parts IH]; intros seen; simpl.
  - split; [done|]. intros ops [= <-]. done.
  - destruct (validRouteIdentifier (TrimSpace p)) eqn:V; simpl; [|done].
    case_bool_decide as Hin; [done|]. destruct (IH (seen ++ [TrimSpace p])%list) as [IH1 IH2].
    split; [done|]. intros ops Hops Hnd Hall. apply (IH2 ops Hops).
    + apply NoDup_app. split_and!; [done| |apply NoDup_singleton].
      intros x Hx ->%list_elem_of_singleton. done.
    + apply Forall_app. by repeat constructor.
Qed.

Lemma slice_ok i j s :
  (i <= j)%nat -> (j <= String.length s)%nat -> slice i j s = Ok (takeBytes (j - i) (dropBytes i s)).
Proof.
  intros Hi Hj. unfold slice.
  by replace ((j <? i)%nat || (String.length s <? j)%nat) with false
    by (symmetry; apply orb_false_iff; split; apply Nat.ltb_ge; lia).
Qed.

(** The parentheses of a shard annotation are in order. *)
Lemma parens_in_order value open :
  Index value "(" = Some open -> HasSuffix value ")" = true ->
  (open + 1 <= String.length value - 1)%nat /\ (1 <= String.length value)%nat.
Proof.
  intros (a & b & Hv & Ha & _)%Index_byte (c & Hc)%HasSuffix_app.
  assert (b <> "") as Hb.
  { intros ->. rewrite Hv in Hc. by apply app_string_snoc_inj in Hc as [_ ?]. }
  subst open value. rewrite length_app_string. cbn [String.length].
  destruct b; [done|]. cbn [String.length]. lia.
Qed.

Lemma parseShardAnnotation_sound qn c :
  annotationPrefix c = shardAnnotationPrefix ->
  parseShardAnnotation qn c <> Panic /\
  forall r, parseShardAnnotation qn c = Ok r -> routeWf r.
Proof.
  intros Hc%shard_prefix_lower. unfold parseShardAnnotation.
  change (String.length "shard:") with (String.length shardAnnotationPrefix).
  rewrite (sliceFrom_lower _ _ ascii_prefix_shard Hc). cbn [mbind outcome_bind].
  generalize (TrimSpace (dropBytes (String.length shardAnnotationPrefix) (normalizeComment c))).
  intros value. destruct (Index value "(") as [[|open]|] eqn:Ho; [done| |done].
  destruct (HasSuffix value ")") eqn:Hs; cbn [negb]; [|done].
  destruct (parens_in_order _ _ Ho Hs) as [Hle H1].
  rewrite !(slice_ok 0 (S open)) by lia. cbn [mbind outcome_bind].
  match goal with |- context [validRouteIdentifier ?n] =>
    destruct (validRouteIdentifier n) eqn:Hname end; cbn [negb]; [|done].
  rewrite !(slice_ok (S open + 1) (String.length value - 1)) by lia. cbn [mbind outcome_bind]. case_bool_decide as Hbody.
  - split; [done|]. intros r [= <-]. by repeat constructor.
  - match goal with |- context [parseOperands qn [] ?ps] =>
      destruct (parseOperands_sound qn [] ps) as [Hp1 Hp2]; destruct (parseOperands qn [] ps) as [ops| |] end;
      [|done..].
    split; [done|]. intros r [= <-]. destruct (Hp2 ops eq_refl) as [Hnd Hall]; [constructor..|].
    by repeat split.
Qed.

Lemma parseStoreAnnotation_sound qn c :
  annotationPrefix c = storeAnnotationPrefix ->
  parseStoreAnnotation qn c <> Panic /\
  forall s, parseStoreAnnotation qn c = Ok s -> exportedIdentifier s.
Proof.
  intros Hc%store_prefix_lower. unfold parseStoreAnnotation.
  rewrite (sliceFrom_lower _ _ ascii_prefix_store Hc). cbn [mbind outcome_bind].
  generalize (TrimSpace (dropBytes (String.length storeAnnotationPrefix) (normalizeComment c))).
  intros value. destruct (validRouteIdentifier value) eqn:V; [|done].
  destruct (goKeywords value) eqn:G; [done|]. destruct (IsUpper (firstRune value)) eqn:U; [|done].
  split; [done|]. by intros s [= <-].
Qed.

Lemma queryKindFromComment_sound qn c :
  queryKindFromComment qn c <> Panic /\
  forall kind, queryKindFromComment qn c = Ok kind ->
    HasPrefix (ToLower (normalizeComment c)) "kind:" = true /\
    ToLower (TrimSpace (dropBytes (String.length "kind:") (normalizeComment c))) = kindString kind.
Proof.
  unfold queryKindFromComment.
  destruct (HasPrefix (ToLower (normalizeComment c)) "kind:") eqn:E; cbn [negb]; [|done].
  rewrite (sliceFrom_lower _ _ ascii_prefix_kind E). cbn [mbind outcome_bind].
  repeat case_bool_decide; split; try done; by intros kind [= <-].
Qed.

Lemma noMoreAnnotations_sound name comments :
  noMoreAnnotations name comments <> Panic /\
  (noMoreAnnotations name comments = Ok tt ->
   countPrefix shardAnnotationPrefix comments = 0%nat /\
   countPrefix storeAnnotationPrefix comments = 0%nat).
Proof.
  unfold countPrefix. induction comments as [|c comments [IH1 IH2]]; [done|]. cbn [noMoreAnnotations].
  case_bool_decide as H1; [done|]. case_bool_decide as H2; [done|]. split; [done|].
  intros [Hs Ht]%IH2. rewrite !filter_cons_False by done. done.
Qed.

Lemma validateRawAnnotationOrder_total query : validateRawAnnotationOrder query <> Panic.
Proof.
  unfold validateRawAnnotationOrder. destruct (afterNameLine _) as [[|line rest]|]; [done| |done].
  cbn zeta. destruct (_ || _); [done|]. apply noMoreAnnotations_sound.
Qed.

Lemma countPrefix_cons p c comments :
  countPrefix p (c :: comments) =
    ((if bool_decide (annotationPrefix c = p) then 1 else 0) + countPrefix p comments)%nat.
Proof.
  unfold countPrefix. case_bool_decide.
  - by rewrite filter_cons_True.
  - by rewrite filter_cons_False.
Qed.

(** The annotations between the kind and the rest of the comments. *)
Definition shardTurn (name : string) (comments : list string) : result (option routeAnnotation * list string) :=
  match comments with
  | comment :: rest =>
      if bool_decide (annotationPrefix comment = shardAnnotationPrefix) then
        route ← parseShardAnnotation name comment;
        mret (Some route, rest)
      else mret (None, comments)
  | [] => mret (None, [])
  end.

Definition storeTurn (name : string) (comments : list string) : result (string * list string) :=
  match comments with
  | comment :: rest =>
      if bool_decide (annotationPrefix comment = storeAnnotationPrefix) then
        store ← parseStoreAnnotation name comment;
        mret (store, rest)
      else mret ("", comments)
  | [] => mret ("", [])
  end.

Lemma shardTurn_sound name comments :
  shardTurn name comments <> Panic /\
  forall route rest, shardTurn name comments = Ok (route, rest) ->
    (forall r, route = Some r -> routeWf r) /\
    countPrefix shardAnnotationPrefix comments =
      ((if route is Some _ then 1 else 0) + countPrefix shardAnnotationPrefix rest)%nat /\
    countPrefix storeAnnotationPrefix comments = countPrefix storeAnnotationPrefix rest.
Proof.
  destruct comments as [|c rest]; cbn [shardTurn].
  { split; [done|]. intros route rest [= <- <-]. done. }
  rewrite !countPrefix_cons. case_bool_decide as Hc.
  - destruct (parseShardAnnotation_sound name c Hc) as [H1 H2].
    destruct (parseShardAnnotation name c) as [r| |]; [|done..]. split; [done|].
    intros route rest' [= <- <-]. split_and!; [|done|].
    + intros r' [= <-]. by apply H2.
    + rewrite Hc. by rewrite bool_decide_eq_false_2.
  - split; [done|]. intros route rest' [= <- <-]. split; [done|].
    rewrite !countPrefix_cons. by rewrite (bool_decide_eq_false_2 _ Hc).
Qed.

Lemma storeTurn_sound name comments :
  storeTurn name comments <> Panic /\
  forall store rest, storeTurn name comments = Ok (store, rest) ->
    (store = "" \/ exportedIdentifier store) /\
    (countPrefix storeAnnotationPrefix comments =
      (if bool_decide (store = "") then 0 else 1) + countPrefix storeAnnotationPrefix rest)%nat /\
    countPrefix shardAnnotationPrefix comments = countPrefix shardAnnotationPrefix rest.
Proof.
  destruct comments as [|c rest]; cbn [storeTurn].
  { split; [done|]. intros store rest [= <- <-]. split; [by left|done]. }
  rewrite !countPrefix_cons. case_bool_decide as Hc.
  - destruct (parseStoreAnnotation_sound name c Hc) as [H1 H2].
    destruct (parseStoreAnnotation name c) as [s| |]; [|done..]. split; [done|].
    intros store rest' [= <- <-]. specialize (H2 s eq_refl). split_and!; [by right| |].
    + rewrite bool_decide_eq_false_2; [done|]. intros ->. by destruct H2.
    + rewrite Hc. by rewrite bool_decide_eq_false_2.
  - split; [done|]. intros store rest' [= <- <-]. split; [by left|].
    rewrite !countPrefix_cons. by rewrite (bool_decide_eq_false_2 _ Hc).
Qed.

Lemma classifyQuery_sound query :
  classifyQuery query <> Panic /\
  forall kind route store, classifyQuery query = Ok (kind, route, store) ->
    exportedIdentifier store /\
    (forall r, route = Some r -> routeWf r) /\
    exists first rest, queryComments query = first :: rest /\
      HasPrefix (ToLower (normalizeComment first)) "kind:" = true /\
      ToLower (TrimSpace (dropBytes (String.length "kind:") (normalizeComment first))) = kindString kind /\
      countPrefix shardAnnotationPrefix rest = (if route is Some _ then 1 else 0)%nat /\
      countPrefix storeAnnotationPrefix rest = 1%nat.
Proof.
  unfold classifyQuery. fold (shardTurn (q_name query)). fold (storeTurn (q_name query)).
  pose proof (validateRawAnnotationOrder_total query) as Hraw.
  destruct (validateRawAnnotationOrder query) as [[]| |]; [|done..].
  cbn [mbind outcome_bind]. destruct (queryComments query) as [|first comments]; [done|].
  destruct (queryKindFromComment_sound (q_name query) first) as [Hk1 Hk2].
  destruct (queryKindFromComment _ _) as [kind| |]; [|done..]. cbn [mbind outcome_bind].
  change (match comments with [] => _ | _ => _ end) with (shardTurn (q_name query) comments).
  destruct (shardTurn_sound (q_name query) comments) as [Hs1 Hs2].
  destruct (shardTurn _ _) as [[route rest]| |]; [|done..]. cbn [mbind outcome_bind].
  change (match rest with [] => _ | _ => _ end) with (storeTurn (q_name query) rest).
  destruct (storeTurn_sound (q_name query) rest) as [Ht1 Ht2].
  destruct (storeTurn _ _) as [[store rest2]| |]; [|done..]. cbn [mbind outcome_bind].
  destruct (noMoreAnnotations_sound (q_name query) rest2) as [Hn1 Hn2].
  destruct (noMoreAnnotations _ _) as [[]| |]; [|done..]. cbn [mbind outcome_bind].
  case_bool_decide as Hstore; [done|]. split; [done|].
  intros kind' route' store' [= <- <- <-].
  destruct (Hs2 _ _ eq_refl) as (Hwf & Hc1 & Hc2), (Ht2 _ _ eq_refl) as ([?|Hex] & Hc3 & Hc4); [done|].
  destruct (Hn2 eq_refl) as [Hc5 Hc6], (Hk2 _ eq_refl) as [Hkind1 Hkind2].
  split_and!; [done..|]. exists first, comments. split_and!; [done..| |].
  - rewrite Hc1, Hc4, Hc5. by destruct route.
  - rewrite Hc2, Hc3, Hc6. by rewrite bool_decide_eq_false_2.
Qed.

(** C32: Soundness of query classification. Reading a query's annotations
    never panics (no slice is out of range, whatever lower-casing does to the
    length of the comment). An accepted query starts with its kind; its store
    is an exported identifier that is no keyword; a route has a valid name and
    distinct valid operands; and there is exactly one store annotation and at
    most one shard annotation in all its comments, the one that was read. *)
Theorem classify_sound query :
  classifyQuery query <> Panic /\
  forall kind route store, classifyQuery query = Ok (kind, route, store) ->
    exportedIdentifier store /\
    (forall r, route = Some r -> routeWf r) /\
    exists first rest, queryComments query = first :: rest /\
      HasPrefix (ToLower (normalizeComment first)) "kind:" = true /\
      ToLower (TrimSpace (dropBytes (String.length "kind:") (normalizeComment first))) = kindString kind /\
      countPrefix shardAnnotationPrefix rest = (if route is Some _ then 1 else 0)%nat /\
      countPrefix storeAnnotationPrefix rest = 1%nat.
Proof. apply classifyQuery_sound. Qed.

End Sound.

(** ** Printing annotations and reading them back *)

Section RoundTrip.
Context `{UT : !UnicodeTables} `{UL : !UnicodeLaws UT}.

Definition printRoute (r : routeAnnotation) : string :=
  ra_name r +:+ ("(" +:+ (Join (ra_operands r) ", " +:+ ")")).

Definition annotationLines (kind : queryKind) (route : option routeAnnotation) (store : string) : list string :=
  (("-- kind: " +:+ kindString kind) ::
   match route with Some r => ["-- shard: " +:+ printRoute r] | None => [] end ++
   ["-- store: " +:+ store])%list.

Lemma identRune_props r :
  identRune r || IsDigit r = true -> r <> RuneError /\ IsSpace r = false /\
  (r < 128 -> (48 <= r <= 57) \/ (65 <= r <= 90) \/ r = 95 \/ (97 <= r <= 122))%Z.
Proof.
  unfold identRune. intros H. rewrite !orb_true_iff, Z.eqb_eq in H. destruct H as [[H| ->]|H].
  - pose proof (law_letter_scalar r H) as Hs. pose proof (law_letter_not_space r H).
    split_and!; [|done|]; [by intros ->|]. intros Hr. unfold IsLetter, asciiUpper, asciiLower, inRange in H.
    replace (r <? 128)%Z with true in H by lia. lia.
  - split_and!; [done..|lia].
  - pose proof (law_digit_scalar r H) as Hs. pose proof (law_digit_not_space r H).
    split_and!; [|done|]; [by intros ->|]. intros Hr. unfold IsDigit, inRange in H.
    replace (r <? 128)%Z with true in H by lia. lia.
Qed.

Lemma valid_runes s :
  validRouteIdentifier s = true ->
  runes s <> [] /\ Forall (fun r => identRune r || IsDigit r = true) (runes s).
Proof.
  unfold validRouteIdentifier. destruct (runes s) as [|r rs]; [done|].
  rewrite andb_true_iff, forallb_forall. intros [Hr Hrs]. split; [done|].
  constructor; [by rewrite Hr|]. apply Forall_forall. intros x Hx. by apply Hrs, list_elem_of_In.
Qed.

Lemma valid_tight s : validRouteIdentifier s = true -> tight s.
Proof.
  intros [Hne Hall]%valid_runes.
  assert (wellFormed s) as Hwf.
  { unfold wellFormed. eapply Forall_impl; [exact Hall|]. intros r Hr. by apply identRune_props. }
  split; [done|]. unfold runes in *. destruct (runesOf s) as [|x l] eqn:E; [done|].
  destruct (last (x :: l)) as [y|] eqn:L; [|by apply last_None in L].
  exists x, l, y. split_and!; [done..| |].
  - cbn in Hall. apply Forall_cons in Hall as [Hx _]. by apply identRune_props in Hx as (_ & ? & _).
  - apply last_Some in L as [l' Hl']. rewrite Hl' in Hall. rewrite fmap_app in Hall.
    apply Forall_app in Hall as [_ Hy]. cbn in Hy. apply Forall_cons in Hy as [Hy _].
    by apply identRune_props in Hy as (_ & ? & _).
Qed.

(** An identifier holds no ASCII byte but letters, digits and underscores. *)
Lemma valid_no_byte c s :
  validRouteIdentifier s = true -> (byteZ c < 48)%Z -> hasByte c s = false.
Proof.
  intros Hv Hc. pose proof (valid_tight s Hv) as [Hwf _]. apply valid_runes in Hv as [_ Hall].
  apply wellFormed_hasByte; [done|lia|]. eapply Forall_impl; [exact Hall|].
  intros r (_ & _ & Hr)%identRune_props ->. pose proof (byteZ_range c). lia.
Qed.

Ltac concrete_tight :=
  split; [by repeat constructor|]; do 3 eexists; split_and!; [reflexivity..|done|done].

Lemma normalize_line x :
  tight x -> HasPrefix x "/*" = false -> normalizeComment ("-- " +:+ x) = x.
Proof.
  intros Hx Hp. unfold normalizeComment.
  assert (tight ("-- " +:+ x)) as Ht.
  { apply (tight_surround "--" " " x); [concrete_tight|by repeat constructor|done]. }
  rewrite (TrimSpace_tight _ Ht). cbn zeta.
  assert (TrimPrefix ("-- " +:+ x) "--" = String " " x) as ->.
  { unfold TrimPrefix. by replace (HasPrefix ("-- " +:+ x) "--") with true by by destruct x. }
  assert (TrimPrefix (String " " x) "//" = String " " x) as -> by done.
  rewrite TrimSpace_space, (TrimSpace_tight _ Hx), Hp. cbn [andb]. by apply TrimSpace_tight.
Qed.

(** Lower-casing an ASCII word at the front. *)
Lemma ToLower_front a s : (byteZ a < 128)%Z -> ToLower (String a s) = encodeRune (runeToLower (byteZ a)) +:+ ToLower s.
Proof. intros Ha. unfold ToLower, runes. by rewrite runesOf_ascii. Qed.

Ltac lower_front :=
  rewrite ?app_cons_string; rewrite !ToLower_front by done; cbn [byteZ];
  unfold HasPrefix; cbn.

Lemma shard_line_prefix x :
  normalizeComment ("-- shard: " +:+ x) = "shard: " +:+ x ->
  annotationPrefix ("-- shard: " +:+ x) = shardAnnotationPrefix.
Proof.
  intros H. unfold annotationPrefix. rewrite H.
  assert (HasPrefix (ToLower ("shard: " +:+ x)) shardAnnotationPrefix = true) as ->; [|done].
  rewrite ?app_cons_string. rewrite !ToLower_front by done. by destruct (ToLower _).
Qed.

Lemma store_line_prefix x :
  normalizeComment ("-- store: " +:+ x) = "store: " +:+ x ->
  annotationPrefix ("-- store: " +:+ x) = storeAnnotationPrefix.
Proof.
  intros H. unfold annotationPrefix. rewrite H. rewrite ?app_cons_string.
  rewrite !ToLower_front by done. by destruct (ToLower _).
Qed.

Lemma store_line_normal s :
  tight s -> normalizeComment ("-- store: " +:+ s) = "store: " +:+ s.
Proof.
  intros Hs. apply (normalize_line ("store: " +:+ s)); [|done].
  apply (tight_surround "store:" " " s); [concrete_tight|by repeat constructor|done].
Qed.

Lemma shard_line_normal s :
  tight s -> normalizeComment ("-- shard: " +:+ s) = "shard: " +:+ s.
Proof.
  intros Hs. apply (normalize_line ("shard: " +:+ s)); [|done].
  apply (tight_surround "shard:" " " s); [concrete_tight|by repeat constructor|done].
Qed.

Lemma parse_store_line qn s :
  exportedIdentifier s -> parseStoreAnnotation qn ("-- store: " +:+ s) = Ok s.
Proof.
  intros (Hv & Hk & Hu). pose proof (valid_tight s Hv) as Hs. unfold parseStoreAnnotation.
  rewrite store_line_normal by done.
  assert (sliceFrom (String.length storeAnnotationPrefix) ("store: " +:+ s) = Ok (String " " s)) as ->.
  { done. }
  cbn [mbind outcome_bind]. rewrite TrimSpace_space, (TrimSpace_tight _ Hs), Hv, Hk, Hu. done.
Qed.

Lemma Join_comma o o2 os : Join (o :: o2 :: os) ", " = o +:+ String "," (String " " (Join (o2 :: os) ", ")).
Proof. done. Qed.

Lemma splitByte_operands o os :
  Forall (fun o => hasByte "," o = false) (o :: os) ->
  splitByte "," (Join (o :: os) ", ") = o :: (String " " <$> os).
Proof.
  revert o. induction os as [|o2 os IH]; intros o [Ho Hos]%Forall_cons; [by apply splitByte_none|].
  rewrite Join_comma, splitByte_app by done. f_equal. cbn [splitByte].
  change (Ascii.eqb " " ",") with false. cbn iota. by rewrite IH.
Qed.

Lemma tight_Join o os : Forall tight (o :: os) -> tight (Join (o :: os) ", ").
Proof.
  revert o. induction os as [|o2 os IH]; intros o [Ho Hos]%Forall_cons; [done|].
  rewrite Join_comma. apply (tight_surround o ", "); [done|by repeat constructor|by apply IH].
Qed.

Lemma tight_nonempty s : tight s -> s <> "".
Proof. by intros (_ & x & l & y & E & _) ->. Qed.

Lemma parseOperands_ok qn seen parts :
  NoDup (seen ++ (TrimSpace <$> parts)) ->
  Forall (fun p => validRouteIdentifier (TrimSpace p) = true) parts ->
  parseOperands qn seen parts = Ok (seen ++ (TrimSpace <$> parts))%list.
Proof.
  revert seen. induction parts as [|p parts IH]; intros seen Hnd Hall; cbn.
  { by rewrite app_nil_r. }
  apply Forall_cons in Hall as [Hp Hall]. rewrite Hp. cbn [negb].
  rewrite bool_decide_eq_false_2.
  - rewrite IH; [by rewrite <- app_assoc| |done]. by rewrite <- app_assoc.
  - intros Hin. apply NoDup_app in Hnd as (_ & Hd & _). apply (Hd _ Hin). cbn. left.
Qed.

Lemma route_tight r : routeWf r -> tight (printRoute r).
Proof.
  intros (Hname & _ & Hops). unfold printRoute. apply tight_app; [by apply valid_tight|].
  apply (tight_surround "("); [concrete_tight| |concrete_tight].
  destruct (ra_operands r) as [|o os]; [constructor|]. apply tight_Join.
  eapply Forall_impl; [exact Hops|]. intros x. apply valid_tight.
Qed.

Lemma operands_back qn ops :
  NoDup ops -> Forall (fun o => validRouteIdentifier o = true) ops -> ops <> [] ->
  parseOperands qn [] (splitByte "," (Join ops ", ")) = Ok ops.
Proof.
  intros Hnd Hops Hne. destruct ops as [|o os]; [done|].
  rewrite splitByte_operands.
  2:{ eapply Forall_impl; [exact Hops|]. intros x Hx. by apply valid_no_byte. }
  assert (TrimSpace <$> (o :: (String " " <$> os)) = o :: os) as Htrim.
  { cbn. apply Forall_cons in Hops as [Ho Hos]. rewrite (TrimSpace_tight o) by by apply valid_tight.
    f_equal. rewrite <- list_fmap_compose. rewrite <- (list_fmap_id os) at 2.
    apply Forall_fmap_ext. eapply Forall_impl; [exact Hos|]. intros x Hx.
    change (TrimSpace (String " " x) = x). rewrite TrimSpace_space. by apply TrimSpace_tight, valid_tight. }
  rewrite parseOperands_ok; rewrite ?app_nil_l, ?Htrim; [done..|].
  rewrite <- Htrim in Hops. by apply Forall_fmap in Hops.
Qed.

Lemma parse_shard_line qn r :
  routeWf r -> parseShardAnnotation qn ("-- shard: " +:+ printRoute r) = Ok r.
Proof.
  intros Hr. pose proof (route_tight r Hr) as Ht. unfold parseShardAnnotation.
  rewrite shard_line_normal by done.
  assert (sliceFrom (String.length "shard:") ("shard: " +:+ printRoute r) = Ok (String " " (printRoute r)))
    as -> by done.
  cbn [mbind outcome_bind]. rewrite TrimSpace_space, (TrimSpace_tight _ Ht).
  destruct r as [name ops]. destruct Hr as (Hname & Hnd & Hops). unfold printRoute in *. cbn [ra_name ra_operands] in *.
  set (J := Join ops ", "). pose proof (valid_tight name Hname) as Htn.
  change ("(" +:+ (J +:+ ")")) with (String "(" (J +:+ ")")).
  rewrite (Index_byte_app "(" name) by (by apply valid_no_byte).
  destruct (String.length name) as [|n] eqn:Hlen.
  { apply tight_nonempty in Htn. by destruct name. }
  rewrite <- Hlen.
  assert (HasSuffix (name +:+ String "(" (J +:+ ")")) ")" = true) as ->.
  { apply HasSuffix_app. exists (name +:+ String "(" J). by rewrite app_string_assoc. }
  cbn [negb]. rewrite (slice_ok 0 (String.length name)); [|lia|rewrite length_app_string; lia].
  cbn [mbind outcome_bind dropBytes]. rewrite Nat.sub_0_r, takeBytes_app.
  rewrite (TrimSpace_tight _ Htn), Hname. cbn [negb].
  assert (String.length (name +:+ String "(" (J +:+ ")")) = String.length name + 2 + String.length J)%nat as HL.
  { rewrite length_app_string. cbn [String.length]. rewrite length_app_string. cbn. lia. }
  rewrite slice_ok by lia. rewrite HL. cbn [mbind outcome_bind].
  replace (_ + _ - 1 - _)%nat with (String.length J) by lia.
  assert (dropBytes (String.length name + 1) (name +:+ String "(" (J +:+ ")")) = J +:+ ")") as ->.
  { change (String "(" (J +:+ ")")) with ("(" +:+ (J +:+ ")")). rewrite <- app_string_assoc.
    rewrite <- (dropBytes_length_app (name +:+ "(") (J +:+ ")")) at 2. by rewrite length_app_string. }
  rewrite takeBytes_app. subst J. destruct ops as [|o os]; [done|].
  assert (tight (Join (o :: os) ", ")) as HJ.
  { apply tight_Join. eapply Forall_impl; [exact Hops|]. intros x. apply valid_tight. }
  rewrite (TrimSpace_tight _ HJ), bool_decide_eq_false_2 by by apply tight_nonempty.
  by rewrite operands_back.
Qed.

(** A printed line: how the line scanners see it. *)
Definition printedLine (l : string) : Prop :=
  TrimSpace l = l /\ l <> "" /\ HasPrefix (ToLower l) "-- name:" = false /\
  HasPrefix l "--" = true /\ hasByte "010" l = false.

Lemma tight_printed w s :
  tight s -> hasByte "010" s = false -> In w ["kind:"; "shard:"; "store:"] ->
  printedLine ("-- " +:+ (w +:+ (" " +:+ s))).
Proof.
  intros Ht Hs Hw. assert (tight w /\ hasByte "010" w = false) as [Htw Hsw].
  { repeat destruct Hw as [<-|Hw]; [split; [concrete_tight|done]..|done]. }
  assert (tight ("-- " +:+ (w +:+ (" " +:+ s)))) as Hl.
  { apply (tight_surround "--" " "); [concrete_tight|by repeat constructor|].
    apply (tight_surround w " " s); [done|by repeat constructor|done]. }
  split_and!.
  - by apply TrimSpace_tight.
  - by apply tight_nonempty.
  - repeat destruct Hw as [<-|Hw]; [..|done];
      rewrite ?app_cons_string, ?app_nil_string; rewrite !ToLower_front by done; by destruct (ToLower s).
  - by destruct w.
  - by rewrite !hasByte_app, Hsw, Hs.
Qed.

Lemma route_no_newline r : routeWf r -> hasByte "010" (printRoute r) = false.
Proof.
  intros (Hname & _ & Hops). unfold printRoute. rewrite !hasByte_app, (valid_no_byte "010") by done.
  cbn [orb]. rewrite (orb_false_r (hasByte "010" _)).
  destruct (ra_operands r) as [|o os]; [done|]. revert o Hops.
  induction os as [|o2 os IH]; intros o [Ho Hos]%Forall_cons; [by apply valid_no_byte|].
  rewrite Join_comma, hasByte_app, (valid_no_byte "010" o) by done.
  exact (IH o2 Hos).
Qed.

Lemma annotationLines_printed kind route store :
  exportedIdentifier store -> (forall r, route = Some r -> routeWf r) ->
  Forall printedLine (annotationLines kind route store).
Proof.
  intros (Hv & _ & _) Hroute. unfold annotationLines. constructor.
  { destruct kind;
      [apply (tight_printed "kind:" "read")|apply (tight_printed "kind:" "write")];
      first [concrete_tight|done|by left]. }
  apply Forall_app. split.
  - destruct route as [r|]; constructor; [|constructor].
    apply (tight_printed "shard:"); [by apply route_tight, Hroute|by apply route_no_newline, Hroute|].
    right; by left.
  - constructor; [|constructor]. apply (tight_printed "store:"); [by apply valid_tight|by apply valid_no_byte|].
    right; right; by left.
Qed.

Lemma leadingComments_printed ls body :
  Forall printedLine ls -> leadingComments (ls ++ body) = (ls ++ leadingComments body)%list.
Proof.
  induction 1 as [|l ls (Ht & Hne & Hname & Hc & _) _ IH]; [done|]. cbn.
  rewrite Ht, Hname, Hc, bool_decide_eq_false_2, IH by done. done.
Qed.

Lemma leadingComments_plain body :
  Forall (fun l => wellFormed l /\ annotationPrefix l = "") body ->
  Forall (fun c => annotationPrefix c = "") (leadingComments body).
Proof.
  induction 1 as [|l body [Hwf Hp] _ IH]; cbn; [constructor|].
  destruct (_ || _); [done|]. destruct (HasPrefix _ _); constructor; [|done].
  rewrite <- Hp. unfold annotationPrefix, normalizeComment. by rewrite TrimSpace_idem.
Qed.

Lemma noMoreAnnotations_plain name comments :
  Forall (fun c => annotationPrefix c = "") comments -> noMoreAnnotations name comments = Ok tt.
Proof.
  induction 1 as [|c comments Hc _ IH]; [done|]. cbn. rewrite Hc.
  by rewrite !bool_decide_eq_false_2 by done.
Qed.

Lemma dropSpace_app l1 x l2 :
  IsSpace x.1 = false -> dropSpace (l1 ++ x :: l2) = (dropSpace l1 ++ x :: l2)%list.
Proof.
  intros Hx. induction l1 as [|[r bs] l1 IH]; [by apply dropSpace_id|]. cbn.
  by destruct (IsSpace r).
Qed.

Lemma TrimSpace_tight_app p t : tight p -> exists t', TrimSpace (p +:+ t) = p +:+ t'.
Proof.
  intros (Hp & x & l & y & E & Hl & Hx & Hy).
  exists (runeBytes (rev (dropSpace (rev (runesOf t))))). unfold TrimSpace.
  rewrite runesOf_app, E by done. rewrite <- app_comm_cons, (dropSpace_id x) by done.
  rewrite app_comm_cons, rev_app_distr.
  apply last_Some in Hl as [l0 Hl0]. rewrite Hl0, rev_app_distr.
  change (rev [y] ++ rev l0)%list with (y :: rev l0).
  rewrite dropSpace_app, rev_app_distr by done. cbn [rev]. rewrite rev_involutive, <- Hl0, <- E.
  by rewrite runeBytes_app, runesOf_bytes.
Qed.

Lemma name_line x :
  isNameLine ("-- name: " +:+ x) = true /\
  TrimSpace ("-- name: " +:+ x) <> "".
Proof.
  destruct (TrimSpace_tight_app "-- name:" (String " " x)) as [t' Ht]; [concrete_tight|].
  change ("-- name:" +:+ String " " x) with ("-- name: " +:+ x) in Ht.
  unfold isNameLine. rewrite Ht. split; [|done].
  rewrite ?app_cons_string, ?app_nil_string. rewrite !ToLower_front by done. by destruct (ToLower t').
Qed.

Lemma classify_comments name kind route store more :
  exportedIdentifier store -> (forall r, route = Some r -> routeWf r) ->
  Forall (fun c => annotationPrefix c = "") more ->
  queryKindFromComment name ("-- kind: " +:+ kindString kind) = Ok kind /\
  noMoreAnnotations name more = Ok tt /\ store <> "" /\
  annotationPrefix ("-- store: " +:+ store) = storeAnnotationPrefix /\
  parseStoreAnnotation name ("-- store: " +:+ store) = Ok store /\
  (forall r, route = Some r ->
     annotationPrefix ("-- shard: " +:+ printRoute r) = shardAnnotationPrefix /\
     parseShardAnnotation name ("-- shard: " +:+ printRoute r) = Ok r).
Proof.
  intros Hstore Hroute Hmore. pose proof Hstore as (Hv & _ & _). split_and!.
  - by destruct kind.
  - by apply noMoreAnnotations_plain.
  - by apply tight_nonempty, valid_tight.
  - by apply store_line_prefix, store_line_normal, valid_tight.
  - by apply parse_store_line.
  - intros r Hr. split; [by apply shard_line_prefix, shard_line_normal, route_tight, Hroute|].
    by apply parse_shard_line, Hroute.
Qed.

Lemma raw_order_ok query kind route store body :
  exportedIdentifier store -> (forall r, route = Some r -> routeWf r) ->
  Forall (fun l => annotationPrefix l = "") body ->
  afterNameLine (splitByte "010" (q_text query)) = Some (annotationLines kind route store ++ body)%list ->
  validateRawAnnotationOrder query = Ok tt.
Proof.
  intros Hstore Hroute Hbody Hlines. unfold validateRawAnnotationOrder. rewrite Hlines.
  destruct (classify_comments (q_name query) kind route store body Hstore Hroute Hbody)
    as (_ & Hmore & _ & Hst & _ & Hsh).
  pose proof (annotationLines_printed kind route store Hstore Hroute) as Hpr.
  unfold annotationLines in *. rewrite <- app_comm_cons. cbn zeta.
  assert (HasPrefix (ToLower (normalizeComment ("-- kind: " +:+ kindString kind))) "kind:" = true) as ->
    by by destruct kind.
  apply Forall_cons in Hpr as [(Ht & _ & _ & Hc & _) Hpr]. rewrite Ht, Hc. cbn [negb orb].
  destruct route as [r|]; cbn [app] in *.
  - apply Forall_cons in Hpr as [(Ht1 & _ & _ & Hc1 & _) [(Ht2 & _ & _ & Hc2 & _) _]%Forall_cons].
    destruct (Hsh r eq_refl) as [Hp _]. unfold skipAnnotation at 2. rewrite Hp, Ht1, Hc1.
    rewrite bool_decide_eq_true_2 by done. cbn [andb]. unfold skipAnnotation.
    by rewrite Hst, Ht2, Hc2, bool_decide_eq_true_2.
  - apply Forall_cons in Hpr as [(Ht2 & _ & _ & Hc2 & _) _].
    unfold skipAnnotation at 2. rewrite Hst, bool_decide_eq_false_2 by done. cbn [andb].
    unfold skipAnnotation. by rewrite Hst, Ht2, Hc2, bool_decide_eq_true_2.
Qed.

(** The text of a query: its sqlc name line, its annotations, its statement. *)
Definition annotatedText (query : Query) (kind : queryKind) (route : option routeAnnotation)
    (store : string) (body : list string) : string :=
  Join (("-- name: " +:+ (q_name query +:+ (" " +:+ q_cmd query))) ::
        annotationLines kind route store ++ body)%list (String "010" "").

Lemma annotatedText_lines query kind route store body :
  exportedIdentifier store -> (forall r, route = Some r -> routeWf r) ->
  hasByte "010" (q_name query) = false -> hasByte "010" (q_cmd query) = false ->
  Forall (fun l => hasByte "010" l = false) body ->
  splitByte "010" (annotatedText query kind route store body) =
    (("-- name: " +:+ (q_name query +:+ (" " +:+ q_cmd query))) ::
     annotationLines kind route store ++ body)%list.
Proof.
  intros Hstore Hroute Hname Hcmd Hbody. apply splitByte_Join; [done|].
  constructor; [by rewrite !hasByte_app, Hname, Hcmd|]. apply Forall_app. split; [|done].
  eapply Forall_impl; [by apply annotationLines_printed|]. by intros l (_ & _ & _ & _ & Hl).
Qed.

(** C31: Round trip of annotations. A query whose text is its sqlc name line,
    the printed annotations for a kind, an optional well-formed route and an
    exported store, and a statement in valid UTF-8 without further annotations
    is classified as exactly that kind, route and store, whether the comments
    come from sqlc or are read from the text. *)
Theorem classify_roundtrip query kind route store body more :
  exportedIdentifier store -> (forall r, route = Some r -> routeWf r) ->
  hasByte "010" (q_name query) = false -> hasByte "010" (q_cmd query) = false ->
  Forall (fun l => hasByte "010" l = false /\ wellFormed l /\ annotationPrefix l = "") body ->
  Forall (fun c => annotationPrefix c = "") more ->
  q_text query = annotatedText query kind route store body ->
  q_comments query = [] \/ q_comments query = (annotationLines kind route store ++ more)%list ->
  classifyQuery query = Ok (kind, route, store).
Proof.
  intros Hstore Hroute Hname Hcmd Hbody Hmore Htext Hcomments.
  assert (Forall (fun l => hasByte "010" l = false) body) as Hnl
    by (eapply Forall_impl; [exact Hbody|]; naive_solver).
  assert (Forall (fun l => wellFormed l /\ annotationPrefix l = "") body) as Hwf
    by (eapply Forall_impl; [exact Hbody|]; naive_solver).
  pose proof (annotatedText_lines query kind route store body Hstore Hroute Hname Hcmd Hnl) as Hlines.
  rewrite <- Htext in Hlines.
  destruct (name_line (q_name query +:+ (" " +:+ q_cmd query))) as [Hnameline Hne].
  assert (exists rest, queryComments query = (annotationLines kind route store ++ rest)%list /\
    Forall (fun c => annotationPrefix c = "") rest) as (rest & Hqc & Hrest).
  { unfold queryComments. destruct Hcomments as [->| ->].
    - exists (leadingComments body). split; [|by apply leadingComments_plain].
      rewrite Hlines. cbn [leadingComments]. unfold isNameLine in Hnameline.
      rewrite Hnameline, orb_true_r. by apply leadingComments_printed, annotationLines_printed.
    - exists more. split; [reflexivity|exact Hmore]. }
  unfold classifyQuery. rewrite (raw_order_ok query kind route store body); [|done|done| |].
  2:{ eapply Forall_impl; [exact Hwf|]. naive_solver. }
  2:{ rewrite Hlines. cbn [afterNameLine]. by rewrite Hnameline. }
  cbn [mbind outcome_bind]. rewrite Hqc. unfold annotationLines. rewrite <- app_comm_cons.
  destruct (classify_comments (q_name query) kind route store rest Hstore Hroute Hrest)
    as (Hkind & Hnm & Hs & Hst & Hpst & Hsh).
  rewrite Hkind. cbn [mbind outcome_bind]. destruct route as [r|]; cbn [app].
  - destruct (Hsh r eq_refl) as [Hp Hpr]. rewrite Hp, bool_decide_eq_true_2, Hpr by done.
    cbn [mbind outcome_bind mret outcome_ret]. rewrite Hst, bool_decide_eq_true_2, Hpst by done.
    cbn [mbind outcome_bind mret outcome_ret]. rewrite Hnm. cbn [mbind outcome_bind].
    by rewrite bool_decide_eq_false_2.
  - rewrite Hst, bool_decide_eq_false_2 by done.
    cbn [mbind outcome_bind mret outcome_ret]. rewrite Hst, bool_decide_eq_true_2, Hpst by done.
    cbn [mbind outcome_bind mret outcome_ret]. rewrite Hnm. cbn [mbind outcome_bind].
    by rewrite bool_decide_eq_false_2.
Qed.

End RoundTrip.

(** ** Witnesses *)

Module AnnotationSample.
#[local] Existing Instance asciiTables.

Definition route := MkRouteAnnotation "user_route" ["tenant_id"; "user_id"].
Definition body := ["SELECT * FROM users"; "-- by tenant"; "WHERE id = ANY($1)"].
Definition comments := annotationLines queryKindRead (Some route) "Users".

Definition query : Query := {|
  q_text := annotatedText {| q_text := ""; q_name := "ListUsers"; q_cmd := ":many"; q_columns := [];
    q_params := []; q_comments := []; q_insert_into_table := None |}
    queryKindRead (Some route) "Users" body;
  q_name := "ListUsers"; q_cmd := ":many"; q_columns := []; q_params := []; q_comments := [];
  q_insert_into_table := None |}.

Example annotation_lines :
  comments = ["-- kind: read"; "-- shard: user_route(tenant_id, user_id)"; "-- store: Users"].
Proof. by vm_compute. Qed.

Lemma route_wf : routeWf route.
Proof. split; [done|]. split; [by apply (bool_decide_unpack _); vm_compute|by repeat constructor]. Qed.

Lemma classify_roundtrip_witness :
  classifyQuery query = Ok (queryKindRead, Some route, "Users").
Proof.
  apply (classify_roundtrip query queryKindRead (Some route) "Users" body []).
  - split; [|split]; by vm_compute.
  - intros r [= <-]. apply route_wf.
  - by vm_compute.
  - by vm_compute.
  - repeat constructor; by vm_compute.
  - constructor.
  - reflexivity.
  - by left.
Defined.

Lemma classify_sound_witness : exportedIdentifier "Users" /\ routeWf route.
Proof.
  destruct (proj2 (classify_sound query) queryKindRead (Some route) "Users") as (Hs & Hr & _).
  - by vm_compute.
  - split; [exact Hs|by apply Hr].
Defined.

End AnnotationSample.
