(* ===== verification/Imports.v ===== *)
(** * Imports: names and imports of generated code
    (sqlcplugin/imports.go, and the name helpers of emission.go and aliases.go) *)

From S2P Require Import Prelude Errors GoStrings Unicode Plugin Naming.
From Stdlib Require Import Ascii String.

#[local] Open Scope string_scope.

Record importSpec := MkImportSpec { imp_name : string; imp_path : string }.

#[export] Instance importSpec_eq_dec : EqDecision importSpec.
Proof. solve_decision. Defined.

(** *** Constants of plugin.go *)

Definition defaultContext : string := "context".
Definition defaultErrorsPackage : string := "errors".
Definition defaultFMT : string := "fmt".
Definition defaultReflect : string := "reflect".
Definition defaultSync : string := "sync".
Definition defaultMetricAlias : string := "metric".
Definition defaultRuntimeAlias : string := "pgmesh".
Definition defaultPGXAlias : string := "pgx".
Definition defaultSlogAlias : string := "slog".
Definition defaultTraceAlias : string := "trace".
Definition defaultSlog : string := "log/slog".
Definition defaultMetric : string := "go.opentelemetry.io/otel/metric".
Definition defaultTrace : string := "go.opentelemetry.io/otel/trace".
Definition defaultSQLQualifier : string := "sql".
Definition defaultDatabaseSQL : string := "database/sql".
Definition defaultPGXPackage : string := "github.com/jackc/pgx/v5".

(** *** Qualified names *)

Definition internalQualifier (opts : options) : string :=
  if bool_decide (InternalImportAlias opts <> "") then InternalImportAlias opts else "internal".

Definition targetName (opts : options) (name : string) : string :=
  if bool_decide (InternalImportPath opts = "") then name
  else internalQualifier opts +:+ ("." +:+ name).

Definition importAlias (alias : string) : string :=
  if bool_decide (alias = "") || bool_decide (alias = "internal") then "" else alias.

Definition exportedSQLCType (opts : options) (typ : string) : string :=
  if negb (ExportSQLCTypes opts) then typ
  else ReplaceAll typ (internalQualifier opts +:+ ".") "".

(** The generated names of a store group and of a copy query (query.go). *)
Definition storeReaderInterfaceName (group : string) : string := group +:+ "Reader".
Definition storeWriterInterfaceName (group : string) : string := group +:+ "Writer".
Definition storeFactoryOptionName (group : string) : string := "With" +:+ (group +:+ "Factory").
Definition storeTelemetryTypeName (group : string) : string := "telemetry" +:+ (group +:+ "Store").
Definition copyBatchOptionName (query : string) : string := "With" +:+ (query +:+ "Batching").
Definition copyAsyncMethodName (query : string) : string := query +:+ "Async".
Definition copyFlushMethodName (query : string) : string := "Flush" +:+ query.

(** *** The import set *)

(** [importSet.byPath]. *)
Definition importSet : Type := gmap string importSpec.

Definition newImportSet : importSet := ∅.

Definition addNamed (name path : string) (s : importSet) : importSet :=
  if bool_decide (path = "") then s else <[path := MkImportSpec name path]> s.

Definition add (path : string) (s : importSet) : importSet := addNamed "" path s.

Definition typeUsesQualifier (typ qualifier : string) : bool :=
  Contains typ (qualifier +:+ ".") || Contains typ ("*" +:+ (qualifier +:+ ".")) ||
  Contains typ ("[]" +:+ (qualifier +:+ ".")).

Definition knownSelectorImports : list (string * string) :=
  [("driver", "database/sql/driver"); (defaultContext, defaultContext);
   ("json", "encoding/json"); ("net", "net"); ("netip", "net/netip");
   (defaultSQLQualifier, defaultDatabaseSQL); ("time", "time");
   ("uuid", "github.com/google/uuid"); ("pgconn", "github.com/jackc/pgx/v5/pgconn");
   ("pgtype", "github.com/jackc/pgx/v5/pgtype");
   ("pgvector", "github.com/pgvector/pgvector-go"); ("pqtype", "github.com/sqlc-dev/pqtype")].

(** The paths are distinct, so the order the map is ranged over does not matter. *)
Definition addForType (typ : string) (s : importSet) : importSet :=
  fold_left (fun s '(qualifier, path) =>
    if typeUsesQualifier typ qualifier then add path s else s) knownSelectorImports s.

Definition importLess (a b : importSpec) : bool :=
  if bool_decide (imp_path a = imp_path b) then strLess (imp_name a) (imp_name b)
  else strLess (imp_path a) (imp_path b).

Definition sorted `{!GoSort} `{!GoMapOrder} (s : importSet) : list importSpec :=
  sortSlice importLess (snd <$> rangeMap s).

Definition usedImports `{UT : !UnicodeTables} (imports : list importSpec) (body : string) : list importSpec :=
  filter (fun imp =>
    Contains body
      ((if bool_decide (imp_name imp = "") then packageNameForImport (imp_path imp) else imp_name imp)
       +:+ ".") = true) imports.

(** ** The default alias of the internal package *)

(** The default alias. The documentation gives [internal_import_alias] the
    default [internal], and without an alias generated code does name the
    package [internal]. The import itself is then written without an alias and
    kept only if the code mentions the last part of the path: for any path
    whose package is not named [internal] in the generated text the import is
    dropped and the names that use it are undefined. *)
Theorem default_alias_import_dropped `{UT : !UnicodeTables} `{!GoSort} `{!GoMapOrder} opts name body :
  InternalImportPath opts <> "" -> InternalImportAlias opts = "" ->
  Contains body (packageNameForImport (InternalImportPath opts) +:+ ".") = false ->
  targetName opts name = "internal." +:+ name /\
  usedImports (sorted (addNamed (importAlias (InternalImportAlias opts)) (InternalImportPath opts) newImportSet))
    body = [].
Proof.
  intros Hpath Halias Hbody. unfold targetName, internalQualifier. rewrite Halias.
  rewrite !bool_decide_eq_false_2 by (done || by intros ?). split; [done|].
  unfold addNamed, newImportSet. rewrite bool_decide_eq_false_2 by done.
  assert (forall l : list importSpec, l ≡ₚ [MkImportSpec "" (InternalImportPath opts)] -> usedImports l body = [])
    as Huse.
  { intros l ->%Permutation_singleton_r. unfold usedImports. rewrite filter_cons_False; [done|].
    cbn [imp_name imp_path]. rewrite bool_decide_eq_true_2, Hbody by done. done. }
  apply Huse. unfold sorted. rewrite sortSlice_perm, rangeMap_perm.
  change (snd <$> map_to_list (<[InternalImportPath opts := MkImportSpec "" (InternalImportPath opts)]> (∅ : gmap string importSpec))
    ≡ₚ [MkImportSpec "" (InternalImportPath opts)]).
  rewrite insert_empty, map_to_list_singleton. done.
Qed.

Module ImportSample.
#[local] Existing Instances asciiTables insertionGoSort listMapOrder.

Definition opts : options := {|
  OutputFileName := "store_querier.go"; PackageName := "store"; InternalImportPath := "example.com/app/db";
  InternalImportAlias := ""; ExportSQLCTypes := false; ConstructorName := "NewStore";
  IgnoreMirrorError := false; StoreInterfaceName := "Store";
  RuntimeImportPath := "github.com/sundayfun/pgmesh"; ResolverInterfaceName := "ShardResolver";
  ShardedConstructor := "Sharded"; SQLPackage := "pgx/v5"; QueryParameterLimit := Some 1%Z;
  EmitParamsStructPointers := false; EmitResultStructPointers := false;
  EmitPointersForNullTypes := false; EmitPointersForNullEnumType := None;
  EmitExactTableNames := false; EmitJSONTags := false; Rename := ∅; Overrides := [] |}.

Lemma default_alias_import_dropped_witness :
  targetName opts "Queries" = "internal.Queries" /\
  usedImports (sorted (addNamed (importAlias "") "example.com/app/db" newImportSet))
    "target *internal.Queries" = [].
Proof.
  apply (default_alias_import_dropped opts "Queries" "target *internal.Queries"); [done|done|by vm_compute].
Defined.

End ImportSample.
