(* ===== verification/PostgresTypes.v ===== *)
(** * PostgresTypes: the Go type of a column (sqlcplugin/postgresql_type.go)

    [goType] looks for a column override, then for any override, then for the
    built-in mapping. Overrides are parsed from the options; a column override
    names its column by a pattern. go/parser is not part of the repository:
    its expression parser is the argument [ParseExpr], and [astExpr] is the
    shape of the syntax tree that the code looks at. *)

From S2P Require Import Prelude Errors GoStrings Unicode Plugin Naming Imports.
From Stdlib Require Import Ascii String.

#[local] Open Scope string_scope.
#[local] Open Scope Z_scope.

Definition goTypeBool : string := "bool".
Definition goTypeInt64 : string := "int64".
Definition goTypeString : string := "string".
Definition emptyInterfaceType : string := "interface{}".

Definition oneOf (s : string) (l : list string) : bool := bool_decide (s ∈ l).

(** [strings.Repeat] panics on a negative count. *)
Fixpoint repeatString (n : nat) (s : string) : string :=
  match n with O => "" | S n => s +:+ repeatString n s end.
Definition Repeat (s : string) (count : Z) : result string :=
  if count <? 0 then Panic else Ok (repeatString (Z.to_nat count) s).

Definition orElse (s fallback : string) : string :=
  if bool_decide (s = "") then fallback else s.

Definition sameTableName (l r : option Identifier) (defaultSchema : string) : bool :=
  match l, r with
  | Some l, Some r =>
      bool_decide (id_catalog l = id_catalog r) &&
      bool_decide (orElse (id_schema l) defaultSchema = orElse (id_schema r) defaultSchema) &&
      bool_decide (id_name l = id_name r)
  | _, _ => false
  end.

Definition dataType (identifier : option Identifier) : string :=
  match identifier with
  | None => ""
  | Some identifier =>
      if bool_decide (id_schema identifier <> "")
      then id_schema identifier +:+ ("." +:+ id_name identifier) else id_name identifier
  end.

Definition dbTypesEqual (configured actual defaultSchema : string) : bool :=
  bool_decide (configured = actual) ||
  (negb (Contains actual ".") && bool_decide (defaultSchema <> "") &&
   bool_decide (configured = defaultSchema +:+ ("." +:+ actual))).

(** *** Qualifiers *)

(** The pointer and slice markers at the front of a type, and what they are of. *)
Fixpoint typePrefixAux (fuel : nat) (typ : string) : string * string :=
  match fuel with
  | O => ("", typ)
  | S fuel =>
      if HasPrefix typ "[]" then
        let '(p, base) := typePrefixAux fuel (dropBytes 2 typ) in ("[]" +:+ p, base)
      else if HasPrefix typ "*" then
        let '(p, base) := typePrefixAux fuel (dropBytes 1 typ) in ("*" +:+ p, base)
      else ("", typ)
  end.
Definition typePrefix (typ : string) : string * string := typePrefixAux (String.length typ) typ.

Definition typeQualifier (typ : string) : string :=
  let '(before, _, ok) := Cut (typePrefix typ).2 "." in
  if ok then before else "".

(** The names of Go's universe scope (types.Universe). *)
Definition universe : list string :=
  ["any"; "bool"; "byte"; "comparable"; "complex64"; "complex128"; "error"; "float32"; "float64";
   "int"; "int8"; "int16"; "int32"; "int64"; "rune"; "string"; "uint"; "uint8"; "uint16"; "uint32";
   "uint64"; "uintptr"; "true"; "false"; "iota"; "nil"; "append"; "cap"; "clear"; "close"; "complex";
   "copy"; "delete"; "imag"; "len"; "make"; "max"; "min"; "new"; "panic"; "print"; "println"; "real";
   "recover"].

Definition overrideType (opts : options) (o : override) : string :=
  let typ := typeName o in
  if bool_decide (InternalImportPath opts = "") || bool_decide (importPath o <> "") ||
     bool_decide (typeQualifier typ <> "") then typ
  else
    let '(prefix, base) := typePrefix typ in
    if bool_decide (base = emptyInterfaceType) || oneOf base universe then typ
    else prefix +:+ targetName opts base.

(** *** Column patterns *)

(** What the pattern's regular expression is made of. *)
Inductive patternAtom := Lit (r : Z) | AnyRune | AnyRunes.

(** The loop of [compileMatchPattern]; the regular expression is the sequence of
    its atoms between [^] and [$]. *)
Fixpoint compileRunes (escaped : bool) (rs : list Z) : result (list patternAtom) :=
  match rs with
  | [] =>
      if escaped then Err (ErrorText "unterminated escape at end of pattern") else mret []
  | char :: rs =>
      if escaped then
        if (char =? 42) || (char =? 63) || (char =? 92) then
          rest ← compileRunes false rs; mret (Lit char :: rest)
        else Err (Errorf "invalid escaped character %q" [AInt char] [])
      else if char =? 92 then compileRunes true rs
      else
        rest ← compileRunes false rs;
        mret ((if char =? 42 then AnyRunes else if char =? 63 then AnyRune else Lit char) :: rest)
  end.
Definition compileMatchPattern (pattern : string) : result (list patternAtom) :=
  compileRunes false (runes pattern).

(** Matching the whole text: a dot matches any rune but a newline. *)
Fixpoint matchAtoms (p : list patternAtom) (rs : list Z) : bool :=
  match p with
  | [] => match rs with [] => true | _ => false end
  | Lit c :: p => match rs with r :: rs => (r =? c) && matchAtoms p rs | [] => false end
  | AnyRune :: p => match rs with r :: rs => negb (r =? 10) && matchAtoms p rs | [] => false end
  | AnyRunes :: p =>
      (fix star (rs : list Z) : bool :=
         matchAtoms p rs ||
         match rs with r :: rs => negb (r =? 10) && star rs | [] => false end) rs
  end.

Definition matchPattern (pattern value : string) : bool :=
  match compileMatchPattern pattern with
  | Ok compiled => matchAtoms compiled (runes value)
  | _ => false
  end.

Definition matchesColumn (o : override) (column : Column) (defaultSchema : string) : bool :=
  if bool_decide (ov_DBType o <> "") then
    let columnType := dataType (col_type column) in
    let notNull := col_not_null column || col_is_array column in
    dbTypesEqual (ov_DBType o) columnType defaultSchema &&
    negb (Bool.eqb (ov_Nullable o) notNull) && Bool.eqb (ov_Unsigned o) (col_unsigned column)
  else if bool_decide (ov_Column o = "") then false
  else
    match col_table column with
    | None => false
    | Some table =>
        let schema := orElse (id_schema table) defaultSchema in
        let name := orElse (col_original_name column) (col_name column) in
        if bool_decide (tableCatalog o <> "") && negb (matchPattern (tableCatalog o) (id_catalog table))
        then false
        else
          matchPattern (tableSchema o) schema && matchPattern (tableName o) (id_name table) &&
          matchPattern (ov_columnName o) name
    end.

(** *** The built-in mapping *)

Definition nullableType (notNullType pointerType pgxType : string) (notNull emitPointersForNull : bool) : string :=
  if notNull then notNullType else if emitPointersForNull then pointerType else pgxType.

Definition nullableStdlibType (notNullType pointerType nullType : string) (notNull emitPointersForNull : bool) : string :=
  if notNull then notNullType else if emitPointersForNull then pointerType else nullType.

Definition skippedSchema (name : string) : bool :=
  bool_decide (name = "pg_catalog") || bool_decide (name = "information_schema").

Section Types.
Context `{UT : !UnicodeTables} (catalog : Catalog) (opts : options).

(** The loops over the schemas, their enums and their composite types. *)
Fixpoint customInSchemas (schemas : list Schema) (schemaName typName : string)
    (notNull emitPointersForNull emitPointersForNullEnums : bool) : string :=
  match schemas with
  | [] => emptyInterfaceType
  | schema :: schemas =>
      if bool_decide (sch_name schema <> schemaName) || skippedSchema (sch_name schema) then
        customInSchemas schemas schemaName typName notNull emitPointersForNull emitPointersForNullEnums
      else if oneOf typName (sch_enums schema) then
        let name :=
          if bool_decide (schemaName <> cat_default_schema catalog)
          then schemaName +:+ ("_" +:+ typName) else typName in
        let name := structName name opts in
        if notNull then targetName opts name
        else if emitPointersForNullEnums then "*" +:+ targetName opts name
        else targetName opts ("Null" +:+ name)
      else if oneOf typName (sch_composite_types schema) then
        nullableStdlibType goTypeString "*string" "sql.NullString" notNull emitPointersForNull
      else
        customInSchemas schemas schemaName typName notNull emitPointersForNull emitPointersForNullEnums
  end.

Definition customPostgresType (columnType : string)
    (notNull emitPointersForNull emitPointersForNullEnums : bool) : string :=
  let search schemaName typName :=
    customInSchemas (cat_schemas catalog) schemaName typName
      notNull emitPointersForNull emitPointersForNullEnums in
  match splitByte "." columnType with
  | [typName] => search (cat_default_schema catalog) typName
  | [schemaName; typName] => search schemaName typName
  | [_; schemaName; typName] => search schemaName typName
  | _ => emptyInterfaceType
  end.

Definition postgresType (column : Column) : string :=
  let t := dataType (col_type column) in
  let notNull := col_not_null column || col_is_array column in
  let emit := EmitPointersForNullTypes opts in
  let emitEnums := default emit (EmitPointersForNullEnumType opts) in
  if oneOf t ["serial"; "serial4"; "pg_catalog.serial4"; "integer"; "int"; "int4"; "pg_catalog.int4"] then
    nullableType "int32" "*int32" "pgtype.Int4" notNull emit
  else if oneOf t ["bigserial"; "serial8"; "pg_catalog.serial8"; "bigint"; "int8"; "pg_catalog.int8"] then
    nullableType goTypeInt64 "*int64" "pgtype.Int8" notNull emit
  else if oneOf t ["smallserial"; "serial2"; "pg_catalog.serial2"; "smallint"; "int2"; "pg_catalog.int2"] then
    nullableType "int16" "*int16" "pgtype.Int2" notNull emit
  else if oneOf t ["float"; "double precision"; "float8"; "pg_catalog.float8"] then
    nullableType "float64" "*float64" "pgtype.Float8" notNull emit
  else if oneOf t ["real"; "float4"; "pg_catalog.float4"] then
    nullableType "float32" "*float32" "pgtype.Float4" notNull emit
  else if oneOf t ["boolean"; goTypeBool; "pg_catalog.bool"] then
    nullableType goTypeBool "*bool" "pgtype.Bool" notNull emit
  else if oneOf t ["text"; "pg_catalog.varchar"; "pg_catalog.bpchar"; "varchar"; goTypeString; "citext"; "name"] then
    nullableType goTypeString "*string" "pgtype.Text" notNull emit
  else if oneOf t ["bytea"; "blob"; "pg_catalog.bytea"] then "[]byte"
  else if oneOf t ["json"; "pg_catalog.json"; "jsonb"; "pg_catalog.jsonb"] then "[]byte"
  else if oneOf t ["date"] then "pgtype.Date"
  else if oneOf t ["pg_catalog.time"] then "pgtype.Time"
  else if oneOf t ["pg_catalog.timetz"] then
    nullableStdlibType "time.Time" "*time.Time" "sql.NullTime" notNull emit
  else if oneOf t ["pg_catalog.timestamp"; "timestamp"] then "pgtype.Timestamp"
  else if oneOf t ["pg_catalog.timestamptz"; "timestamptz"] then "pgtype.Timestamptz"
  else if oneOf t ["uuid"] then "pgtype.UUID"
  else if oneOf t ["numeric"; "pg_catalog.numeric"; "money"] then "pgtype.Numeric"
  else if oneOf t ["inet"] then (if notNull then "netip.Addr" else "*netip.Addr")
  else if oneOf t ["cidr"] then (if notNull then "netip.Prefix" else "*netip.Prefix")
  else if oneOf t ["macaddr"; "macaddr8"] then "net.HardwareAddr"
  else if oneOf t ["ltree"; "lquery"; "ltxtquery"] then
    nullableType goTypeString "*string" "pgtype.Text" notNull emit
  else if oneOf t ["interval"; "pg_catalog.interval"] then "pgtype.Interval"
  else if oneOf t ["daterange"] then "pgtype.Range[pgtype.Date]"
  else if oneOf t ["datemultirange"] then "pgtype.Multirange[pgtype.Range[pgtype.Date]]"
  else if oneOf t ["tsrange"] then "pgtype.Range[pgtype.Timestamp]"
  else if oneOf t ["tsmultirange"] then "pgtype.Multirange[pgtype.Range[pgtype.Timestamp]]"
  else if oneOf t ["tstzrange"] then "pgtype.Range[pgtype.Timestamptz]"
  else if oneOf t ["tstzmultirange"] then "pgtype.Multirange[pgtype.Range[pgtype.Timestamptz]]"
  else if oneOf t ["numrange"] then "pgtype.Range[pgtype.Numeric]"
  else if oneOf t ["nummultirange"] then "pgtype.Multirange[pgtype.Range[pgtype.Numeric]]"
  else if oneOf t ["int4range"] then "pgtype.Range[pgtype.Int4]"
  else if oneOf t ["int4multirange"] then "pgtype.Multirange[pgtype.Range[pgtype.Int4]]"
  else if oneOf t ["int8range"] then "pgtype.Range[pgtype.Int8]"
  else if oneOf t ["int8multirange"] then "pgtype.Multirange[pgtype.Range[pgtype.Int8]]"
  else if oneOf t ["hstore"] then "pgtype.Hstore"
  else if oneOf t ["bit"; "varbit"; "pg_catalog.bit"; "pg_catalog.varbit"] then "pgtype.Bits"
  else if oneOf t ["cid"; "oid"] then "pgtype.Uint32"
  else if oneOf t ["tid"] then "pgtype.TID"
  else if oneOf t ["xid"] then "pgtype.Uint32"
  else if oneOf t ["xid8"] then "pgtype.Uint64"
  else if oneOf t ["box"] then "pgtype.Box"
  else if oneOf t ["circle"] then "pgtype.Circle"
  else if oneOf t ["line"] then "pgtype.Line"
  else if oneOf t ["lseg"] then "pgtype.Lseg"
  else if oneOf t ["path"] then "pgtype.Path"
  else if oneOf t ["point"] then "pgtype.Point"
  else if oneOf t ["polygon"] then "pgtype.Polygon"
  else if oneOf t ["vector"] then (if emit then "*pgvector.Vector" else "pgvector.Vector")
  else if oneOf t ["void"; "any"] then emptyInterfaceType
  else customPostgresType t notNull emit emitEnums.

(** [goInnerType] is [postgresType]. *)
Definition goInnerType (column : Column) : string := postgresType column.

(** The slice or array markers of a column around its element type. *)
Definition wrapColumnType (column : Column) (typ : string) : result string :=
  if col_is_sqlc_slice column then mret ("[]" +:+ typ)
  else if col_is_array column then
    prefix ← Repeat "[]" (col_array_dims column);
    mret (prefix +:+ typ)
  else mret typ.

Definition goType (column : Column) : result string :=
  let defaultSchema := cat_default_schema catalog in
  match find (fun o => negb (bool_decide (ov_Column o = "")) && matchesColumn o column defaultSchema)
          (Overrides opts) with
  | Some o =>
      let typ := overrideType opts o in
      mret (if col_is_sqlc_slice column then "[]" +:+ typ else typ)
  | None =>
      match find (fun o => matchesColumn o column defaultSchema) (Overrides opts) with
      | Some o => wrapColumnType column (overrideType opts o)
      | None => wrapColumnType column (goInnerType column)
      end
  end.

Definition addImportsForType (typ : string) (imports : importSet) : importSet :=
  fold_left (fun imports o =>
    if bool_decide (importPath o = "") then imports
    else
      let qualifier := typeQualifier (typeName o) in
      if bool_decide (qualifier = "") || negb (typeUsesQualifier typ qualifier) then imports
      else addNamed (ov_importAlias o) (importPath o) imports)
    (Overrides opts) (addForType typ imports).

End Types.

(** *** Parsing overrides *)

Record parsedGoType := MkParsed { pg_typeName : string; pg_importPath : string; pg_importAlias : string }.

(** [strings.LastIndex] of a one-byte string. *)
Fixpoint lastIndexByte (c : ascii) (s : string) : option nat :=
  match s with
  | EmptyString => None
  | String a s =>
      match lastIndexByte c s with
      | Some i => Some (S i)
      | None => if Ascii.eqb a c then Some O else None
      end
  end.

(** The typed basic types of go/types. *)
Definition basicTypes : list string :=
  ["bool"; "int"; "int8"; "int16"; "int32"; "int64"; "uint"; "uint8"; "uint16"; "uint32"; "uint64";
   "uintptr"; "float32"; "float64"; "complex64"; "complex128"; "string"].

Definition parseGoTypeSpec (spec : string) : result parsedGoType :=
  match lastIndexByte "." spec, lastIndexByte "/" spec with
  | None, None =>
      if oneOf spec basicTypes then mret (MkParsed spec "" "")
      else Err (Errorf "go_type specifier %q is not a Go basic type" [AStr spec] [])
  | None, Some _ => Err (Errorf "go_type specifier %q must use package.type format" [AStr spec] [])
  | Some lastDot, lastSlash =>
      let typ := dropBytes (match lastSlash with Some i => S i | None => O end) spec in
      let typ := TrimSuffix (TrimPrefix typ "go-") "-go" in
      let path := takeBytes lastDot spec in
      if HasPrefix spec "*" then mret (MkParsed ("*" +:+ TrimPrefix typ "*") (TrimPrefix path "*") "")
      else mret (MkParsed typ path "")
  end.

(** The syntax trees of go/ast, as far as [validTypeExpression] looks. A field
    list that may be nil is an [option]; a field is its type. *)
Inductive astExpr :=
  | Ident
  | InterfaceType (methods : option (list astExpr))
  | MapType (key value : astExpr)
  | ChanType (value : astExpr)
  | FuncType (typeParams params results : option (list astExpr))
  | StructType (fields : option (list astExpr))
  | SelectorExpr (x : astExpr)
  | StarExpr (x : astExpr)
  | ArrayType (elt : astExpr)
  | IndexExpr (x index : astExpr)
  | IndexListExpr (x : astExpr) (indices : list astExpr)
  | ParenExpr (x : astExpr)
  | OtherExpr.

Fixpoint validTypeExpression (e : astExpr) : bool :=
  let validTypeFields fields :=
    match fields with None => true | Some l => forallb validTypeExpression l end in
  match e with
  | Ident => true
  | InterfaceType methods => validTypeFields methods
  | MapType key value => validTypeExpression key && validTypeExpression value
  | ChanType value => validTypeExpression value
  | FuncType typeParams params results =>
      validTypeFields typeParams && validTypeFields params && validTypeFields results
  | StructType fields => validTypeFields fields
  | SelectorExpr x => match x with Ident => true | _ => false end
  | StarExpr x => validTypeExpression x
  | ArrayType elt => validTypeExpression elt
  | IndexExpr x index => validTypeExpression x && validTypeExpression index
  | IndexListExpr x indices => validTypeExpression x && forallb validTypeExpression indices
  | ParenExpr x => validTypeExpression x
  | OtherExpr => false
  end.

Section Overrides.
Context `{UT : !UnicodeTables} (ParseExpr : string -> option astExpr).

Definition goTypeSpec_parse (g : goTypeSpec) : result parsedGoType :=
  if bool_decide (gt_spec g <> "") then parseGoTypeSpec (gt_spec g)
  else if bool_decide (gt_name g = "") then Err (ErrorText "go_type must specify a nonempty type")
  else if bool_decide (gt_path g = "") && bool_decide (gt_pkg g <> "") then
    Err (ErrorText "go_type package requires an import path")
  else
    let pkg :=
      if bool_decide (gt_pkg g = "") && bool_decide (gt_path g <> "")
      then packageNameForImport (gt_path g) else gt_pkg g in
    let typ := if bool_decide (pkg <> "") then pkg +:+ ("." +:+ gt_name g) else gt_name g in
    let alias :=
      if bool_decide (pkg <> "") && bool_decide (gt_pkg g <> "") &&
         bool_decide (gt_pkg g <> packageNameForImport (gt_path g))
      then gt_pkg g else "" in
    let typ := if gt_pointer g then "*" +:+ typ else typ in
    let typ := if gt_slice g then "[]" +:+ typ else typ in
    mret (MkParsed typ (gt_path g) alias).

(** [validateIdentifier] and [validateImportPath] (options.go). *)
Definition validateIdentifier (option value : string) (exported : bool) : result unit :=
  if negb (validRouteIdentifier value) || goKeywords value then
    Err (Errorf "%s %q must be a valid Go identifier" [AStr option; AStr value] [])
  else if exported && negb (IsUpper (firstRune value)) then
    Err (Errorf "%s %q must be an exported Go identifier" [AStr option; AStr value] [])
  else mret tt.

Definition validateImportPath (option path : string) : result unit :=
  if bool_decide (path = "") || bool_decide (TrimSpace path <> path) ||
     hasByte "034" path || hasByte "\" path ||
     existsb (fun r => IsSpace r || IsControl r) (runes path) then
    Err (Errorf "%s %q is invalid" [AStr option; AStr path] [])
  else mret tt.

Definition validateParsedGoType (parsed : parsedGoType) : result unit :=
  if bool_decide (pg_typeName parsed = "") then Err (ErrorText "override go_type must not be empty")
  else
    _ ← (if bool_decide (pg_importAlias parsed <> "")
         then validateIdentifier "go_type package" (pg_importAlias parsed) false else mret tt);
    _ ← (if bool_decide (pg_importPath parsed <> "")
         then validateImportPath "go_type import" (pg_importPath parsed) else mret tt);
    _ ← match ParseExpr (pg_typeName parsed) with
        | Some expression =>
            if validTypeExpression expression then mret tt
            else Err (Errorf "go_type %q is not a valid Go type" [AStr (pg_typeName parsed)] [])
        | None => Err (Errorf "go_type %q is not a valid Go type" [AStr (pg_typeName parsed)] [])
        end;
    if bool_decide (pg_importPath parsed <> "") then
      let qualifier := typeQualifier (pg_typeName parsed) in
      if bool_decide (qualifier <> "") then validateIdentifier "go_type package" qualifier false
      else mret tt
    else mret tt.

(** The loop that compiles the patterns of a column override. *)
Fixpoint checkPatterns (column : string) (patterns : list string) : result unit :=
  match patterns with
  | [] => mret tt
  | pattern :: patterns =>
      if bool_decide (pattern = "") then checkPatterns column patterns
      else
        match compileMatchPattern pattern with
        | Ok _ => checkPatterns column patterns
        | Err e => Err (Errorf "invalid column override %q: %w" [AStr column] [e])
        | Panic => Panic
        end
  end.

Definition parseColumn (defaultSchema : string) (o : override) : result override :=
  let defaultSchema := if bool_decide (defaultSchema = "") then "public" else defaultSchema in
  let finish catalog schema table column :=
    _ ← checkPatterns (ov_Column o) [catalog; schema; table; column];
    mret {| ov_GoType := ov_GoType o; ov_DBType := ov_DBType o; ov_Nullable := ov_Nullable o;
      ov_Unsigned := ov_Unsigned o; ov_Column := ov_Column o; typeName := typeName o;
      importPath := importPath o; ov_importAlias := ov_importAlias o; ov_columnName := column;
      tableCatalog := catalog; tableSchema := schema; tableName := table |} in
  match splitByte "." (ov_Column o) with
  | [table; column] => finish (tableCatalog o) defaultSchema table column
  | [schema; table; column] => finish (tableCatalog o) schema table column
  | [catalog; schema; table; column] => finish catalog schema table column
  | _ => Err (Errorf "invalid column override %q" [AStr (ov_Column o)] [])
  end.

Definition override_parse (defaultSchema : string) (o : override) : result override :=
  let dbType := TrimSpace (ov_DBType o) in
  let column := TrimSpace (ov_Column o) in
  if bool_decide (dbType = "") && bool_decide (column = "") then
    Err (ErrorText "override must specify db_type or column")
  else if bool_decide (dbType <> "") && bool_decide (column <> "") then
    Err (ErrorText "override cannot specify both db_type and column")
  else
    parsed ← goTypeSpec_parse (ov_GoType o);
    _ ← validateParsedGoType parsed;
    let o := {| ov_GoType := ov_GoType o; ov_DBType := dbType; ov_Nullable := ov_Nullable o;
      ov_Unsigned := ov_Unsigned o; ov_Column := column; typeName := pg_typeName parsed;
      importPath := pg_importPath parsed; ov_importAlias := pg_importAlias parsed;
      ov_columnName := ov_columnName o; tableCatalog := tableCatalog o;
      tableSchema := tableSchema o; tableName := tableName o |} in
    if bool_decide (column <> "") then parseColumn defaultSchema o else mret o.

End Overrides.

(** ** Column overrides name exactly their column *)

Section ColumnOverride.
Context `{UT : !UnicodeTables} (ParseExpr : string -> option astExpr).

(** A name without pattern characters, dots or spaces at its ends. *)
Definition plainName (s : string) : Prop :=
  tight s /\ hasByte "." s = false /\
  Forall (fun r => r <> 42 /\ r <> 63 /\ r <> 92) (runes s).

Lemma compile_plain rs :
  Forall (fun r => r <> 42 /\ r <> 63 /\ r <> 92) rs -> compileRunes false rs = Ok (Lit <$> rs).
Proof.
  induction 1 as [|r rs (H1 & H2 & H3) _ IH]; [done|]. cbn.
  replace (r =? 92) with false by lia. replace (r =? 42) with false by lia.
  replace (r =? 63) with false by lia. by rewrite IH.
Qed.

Lemma matchAtoms_lits rs vs : matchAtoms (Lit <$> rs) vs = bool_decide (vs = rs).
Proof.
  revert vs. induction rs as [|r rs IH]; intros [|v vs]; cbn; try done.
  rewrite IH. destruct (v =? r) eqn:E; cbn.
  - apply Z.eqb_eq in E as ->. repeat case_bool_decide; naive_solver.
  - symmetry. apply bool_decide_eq_false. apply Z.eqb_neq in E. naive_solver.
Qed.

Lemma matchPattern_plain p v : plainName p -> matchPattern p v = bool_decide (v = p).
Proof.
  intros ((Hwf & _) & _ & Hp). unfold matchPattern, compileMatchPattern. rewrite compile_plain by done.
  rewrite matchAtoms_lits. apply bool_decide_ext. split; [|by intros ->].
  intros E. symmetry. by apply runes_inj.
Qed.

Lemma checkPatterns_plain c ps :
  Forall (fun p => p = "" \/ plainName p) ps -> checkPatterns c ps = Ok tt.
Proof.
  induction 1 as [|p ps Hp _ IH]; [done|]. cbn. case_bool_decide; [done|].
  destruct Hp as [?|(_ & _ & Hp)]; [done|].
  unfold compileMatchPattern. by rewrite compile_plain.
Qed.

(** The parts of a column override: an optional schema, the table, the column. *)
Definition columnSpec (schema : option string) (table column : string) : string :=
  Join (match schema with Some s => [s; table; column] | None => [table; column] end) ".".

Lemma columnSpec_split schema table column :
  (forall s, schema = Some s -> plainName s) -> plainName table -> plainName column ->
  splitByte "." (columnSpec schema table column) =
    match schema with Some s => [s; table; column] | None => [table; column] end /\
  tight (columnSpec schema table column).
Proof.
  intros Hs (Ht & Htb & _) (Hc & Hcb & _). unfold columnSpec.
  assert (tight (table +:+ ("." +:+ column))) as Htc.
  { apply tight_surround; [done|by repeat constructor|done]. }
  destruct schema as [s|].
  - destruct (Hs s eq_refl) as (Hst & Hsb & _). split.
    + apply splitByte_Join; [done|]. by repeat constructor.
    + apply (tight_surround s "."); [done|by repeat constructor|done].
  - split; [|done]. apply splitByte_Join; [done|]. by repeat constructor.
Qed.

(** C33: Column overrides. An override for [schema.table.column], or for
    [table.column] in the default schema, written with plain names, that parses
    without an error applies to exactly the columns whose table, schema
    (the default one when the table names none) and original name are the
    named ones; pattern matching never widens or narrows plain names. *)
Theorem column_override_exact defaultSchema o o' schema table column c :
  plainName defaultSchema -> (forall s, schema = Some s -> plainName s) ->
  plainName table -> plainName column -> tableCatalog o = "" ->
  ov_Column o = columnSpec schema table column ->
  override_parse ParseExpr defaultSchema o = Ok o' ->
  matchesColumn o' c defaultSchema = true <->
  exists t, col_table c = Some t /\
    orElse (id_schema t) defaultSchema = default defaultSchema schema /\
    id_name t = table /\ orElse (col_original_name c) (col_name c) = column.
Proof.
  intros Hds Hs Ht Hc Hcat Hcol Hparse.
  destruct (columnSpec_split schema table column Hs Ht Hc) as [Hsplit Htight].
  assert (defaultSchema <> "") as Hds0.
  { intros ->. destruct Hds as ((_ & x & l & y & E & _) & _). done. }
  unfold override_parse in Hparse. rewrite Hcol, (TrimSpace_tight _ Htight) in Hparse.
  rewrite (bool_decide_eq_false_2 (columnSpec schema table column = "")) in Hparse.
  2:{ destruct Htight as (_ & x & l & y & E & _). by intros H; rewrite H in E. }
  rewrite (bool_decide_eq_true_2 (columnSpec schema table column <> "")) in Hparse.
  2:{ destruct Htight as (_ & x & l & y & E & _). by intros H; rewrite H in E. }
  rewrite andb_false_r, andb_true_r in Hparse. case_bool_decide as Hdb; [done|].
  destruct (goTypeSpec_parse (ov_GoType o)) as [parsed| |]; [|done..]. cbn [mbind outcome_bind] in Hparse.
  destruct (validateParsedGoType ParseExpr parsed) as [[]| |]; [|done..].
  cbn [mbind outcome_bind] in Hparse. unfold parseColumn in Hparse.
  cbn [ov_Column tableCatalog] in Hparse. rewrite Hsplit, Hcat in Hparse.
  rewrite (bool_decide_eq_false_2 (defaultSchema = "")) in Hparse by done.
  assert (plainName (default defaultSchema schema)) as Hschema
    by (destruct schema as [s|]; [by apply Hs|done]).
  assert (tableCatalog o' = "" /\ tableSchema o' = default defaultSchema schema /\ tableName o' = table /\
    ov_columnName o' = column /\ ov_DBType o' = "" /\ ov_Column o' = columnSpec schema table column)
    as (E1 & E2 & E3 & E4 & E5 & E6).
  { destruct schema as [s|]; (rewrite checkPatterns_plain in Hparse; [by injection Hparse as <-|]);
      repeat (apply Forall_cons; split; [first [by left|by right]|]); by apply Forall_nil. }
  unfold matchesColumn. rewrite E1, E2, E3, E4, E5, E6, bool_decide_eq_false_2 by (by intros ?).
  rewrite bool_decide_eq_false_2.
  2:{ destruct Htight as (_ & x & l & y & E & _). by intros H; rewrite H in E. }
  destruct (col_table c) as [t|]; [|naive_solver].
  cbn [andb].
  rewrite !matchPattern_plain by done. rewrite !andb_true_iff, !bool_decide_eq_true. naive_solver.
Qed.

End ColumnOverride.

Module OverrideSample.
#[local] Existing Instance asciiTables.

Definition parse (s : string) : option astExpr := Some (SelectorExpr Ident).
Definition override0 : override := {|
  ov_GoType := MkGoType "github.com/google/uuid" "" "UUID" false false ""; ov_DBType := "";
  ov_Nullable := false; ov_Unsigned := false; ov_Column := "public.users.id"; typeName := "";
  importPath := ""; ov_importAlias := ""; ov_columnName := ""; tableCatalog := "";
  tableSchema := ""; tableName := "" |}.
Definition override1 : override := {|
  ov_GoType := ov_GoType override0; ov_DBType := ""; ov_Nullable := false; ov_Unsigned := false;
  ov_Column := "public.users.id"; typeName := "uuid.UUID"; importPath := "github.com/google/uuid";
  ov_importAlias := ""; ov_columnName := "id"; tableCatalog := ""; tableSchema := "public";
  tableName := "users" |}.
Definition usersId : Column := {|
  col_name := "id"; col_not_null := true; col_is_array := false; col_is_named_param := false;
  col_table := Some (MkIdentifier "" "" "users"); col_type := Some (MkIdentifier "" "" "uuid");
  col_is_sqlc_slice := false; col_embed_table := None; col_original_name := "";
  col_unsigned := false; col_array_dims := 0 |}.

Lemma column_override_exact_witness :
  override_parse parse "public" override0 = Ok override1 /\
  matchesColumn override1 usersId "public" = true.
Proof.
  split; [by vm_compute|].
  apply (column_override_exact parse "public" override0 override1 (Some "public") "users" "id" usersId).
  - repeat split; [by repeat constructor|do 3 eexists; split_and!; reflexivity|by repeat constructor].
  - intros s [= <-].
    repeat split; [by repeat constructor|do 3 eexists; split_and!; reflexivity|by repeat constructor].
  - repeat split; [by repeat constructor|do 3 eexists; split_and!; reflexivity|by repeat constructor].
  - repeat split; [by repeat constructor|do 3 eexists; split_and!; reflexivity|by repeat constructor].
  - reflexivity.
  - reflexivity.
  - by vm_compute.
  - by exists (MkIdentifier "" "" "users").
Defined.

End OverrideSample.
