(* ===== verification/GoTypeJson.v ===== *)
(** * GoTypeJson: decoding the go_type of an override (sqlcplugin/postgresql_type.go)

    [goType.UnmarshalJSON] reads a specifier or an object. Its argument is one
    JSON value, so the text is a tree here; what encoding/json does with the
    tree is modelled: a null leaves its target alone, a field is found by its
    name without regard to case, a later member replaces an earlier one, and the
    first mismatch is reported after the rest of the object was read. The text
    of a mismatch names the JSON kind only. *)

From S2P Require Import Prelude Errors GoStrings Plugin PostgresTypes.

#[local] Open Scope Z_scope.
#[local] Open Scope string_scope.

Inductive json :=
  | JNull
  | JBool (b : bool)
  | JNumber (literal : string)
  | JString (s : string)
  | JArray (elements : list json)
  | JObject (members : list (string * json)).

Definition jsonKind (v : json) : string :=
  match v with
  | JNull => "null" | JBool _ => "bool" | JNumber _ => "number"
  | JString _ => "string" | JArray _ => "array" | JObject _ => "object"
  end.

Definition mismatch (v : json) : error := Errorf "json: cannot unmarshal %s" [AStr (jsonKind v)] [].

(** *** Decoding values: the new value of the target and the error to save *)

Definition decodeText (v : json) (target : string) : string * option error :=
  match v with
  | JNull => (target, None)
  | JString s => (s, None)
  | _ => (target, Some (mismatch v))
  end.

Definition decodeFlag (v : json) (target : bool) : bool * option error :=
  match v with
  | JNull => (target, None)
  | JBool b => (b, None)
  | _ => (target, Some (mismatch v))
  end.

(** The simple case folding of a rune as far as it reaches ASCII: the long s and
    the Kelvin sign fold to letters. *)
Definition foldRune (r : Z) : Z :=
  if bool_decide (r = 383) then 115 else if bool_decide (r = 8490) then 107 else asciiFold r.
Definition sameField (key name : string) : bool :=
  bool_decide (foldRune <$> runes key = foldRune <$> runes name).

(** The fields of [raw]: the names in their tags and their stores. *)
Definition rawFields : list (string * (json -> goTypeSpec -> goTypeSpec * option error)) :=
  [ ("import", fun v g => let '(x, e) := decodeText v (gt_path g) in
      (MkGoType x (gt_pkg g) (gt_name g) (gt_pointer g) (gt_slice g) (gt_spec g), e));
    ("package", fun v g => let '(x, e) := decodeText v (gt_pkg g) in
      (MkGoType (gt_path g) x (gt_name g) (gt_pointer g) (gt_slice g) (gt_spec g), e));
    ("type", fun v g => let '(x, e) := decodeText v (gt_name g) in
      (MkGoType (gt_path g) (gt_pkg g) x (gt_pointer g) (gt_slice g) (gt_spec g), e));
    ("pointer", fun v g => let '(x, e) := decodeFlag v (gt_pointer g) in
      (MkGoType (gt_path g) (gt_pkg g) (gt_name g) x (gt_slice g) (gt_spec g), e));
    ("slice", fun v g => let '(x, e) := decodeFlag v (gt_slice g) in
      (MkGoType (gt_path g) (gt_pkg g) (gt_name g) (gt_pointer g) x (gt_spec g), e)) ].

Definition findField (key : string) :=
  snd <$> List.find (fun f => sameField key f.1) rawFields.

(** One member of the object; the first error is kept. *)
Definition decodeMember (state : goTypeSpec * option error) (member : string * json) : goTypeSpec * option error :=
  let '(g, saved) := state in
  let '(key, v) := member in
  let '(g, err) := match findField key with
    | Some store => store v g
    | None => (g, Some (Errorf "json: unknown field %q" [AStr key] []))
    end in
  (g, match saved with Some e => Some e | None => err end).

(** [decoder.Decode(&raw)] on a target. *)
Definition decodeRaw (v : json) (g : goTypeSpec) : goTypeSpec * option error :=
  match v with
  | JNull => (g, None)
  | JObject members => foldl decodeMember (g, None) members
  | _ => (g, Some (mismatch v))
  end.

Definition zeroGoType : goTypeSpec := MkGoType "" "" "" false false "".

Definition UnmarshalJSON (data : json) (g : goTypeSpec) : result goTypeSpec :=
  match decodeText data "" with
  | (spec, None) => mret (MkGoType (gt_path g) (gt_pkg g) (gt_name g) (gt_pointer g) (gt_slice g) spec)
  | (_, Some _) =>
      match decodeRaw data zeroGoType with
      | (raw, None) => mret (MkGoType (gt_path raw) (gt_pkg raw) (gt_name raw) (gt_pointer raw) (gt_slice raw) (gt_spec g))
      | (_, Some err) => Err err
      end
  end.

(** ** What is accepted *)

Definition textual (v : json) : bool := match v with JNull | JString _ => true | _ => false end.
Definition boolean (v : json) : bool := match v with JNull | JBool _ => true | _ => false end.

Definition memberOk (member : string * json) : bool :=
  let '(key, v) := member in
  if sameField key "import" || sameField key "package" || sameField key "type" then textual v
  else (sameField key "pointer" || sameField key "slice") && boolean v.

Lemma decodeMember_ok g member : memberOk member = bool_decide ((decodeMember (g, None) member).2 = None).
Proof.
  destruct member as [key v]. unfold memberOk, decodeMember, findField, rawFields. cbn [List.find fst].
  destruct (sameField key "import"), (sameField key "package"), (sameField key "type"), (sameField key "pointer"),
    (sameField key "slice"); cbn; by destruct v.
Qed.

Lemma decodeMember_saved g e member : exists g', decodeMember (g, Some e) member = (g', Some e).
Proof.
  destruct member as [key v]. unfold decodeMember. destruct (findField key) as [store|]; [|by eexists].
  destruct (store v g). by eexists.
Qed.

Lemma decodeMembers_ok members g :
  forallb memberOk members = bool_decide ((foldl decodeMember (g, None) members).2 = None).
Proof.
  assert (Hsaved : forall ms g e, (foldl decodeMember (g, Some e) ms).2 = Some e).
  { induction ms as [|m ms IH]; intros g0 e; [done|]. cbn [foldl]. destruct (decodeMember_saved g0 e m) as [g' ->]. apply IH. }
  revert g. induction members as [|m members IH]; intros g; [done|]. cbn [forallb foldl].
  rewrite (decodeMember_ok g m). destruct (decodeMember (g, None) m) as [g' [e|]]; cbn [snd].
  - rewrite Hsaved. by rewrite !bool_decide_eq_false_2.
  - rewrite bool_decide_eq_true_2 by done. apply IH.
Qed.

(** Decoding succeeds exactly on a string, a null, or an object whose members
    are known fields with values of their kind; it never panics. *)
Theorem unmarshal_exact data g :
  match UnmarshalJSON data g with
  | Ok g' =>
      match data with
      | JString s => gt_spec g' = s
      | JNull => gt_spec g' = ""
      | JObject members => forallb memberOk members = true /\ gt_spec g' = gt_spec g
      | _ => False
      end
  | Err _ => match data with JString _ | JNull => False | JObject members => forallb memberOk members = false | _ => True end
  | Panic => False
  end.
Proof.
  destruct data as [|b|l|s|l|members]; try done. unfold UnmarshalJSON. cbn [decodeText decodeRaw].
  rewrite (decodeMembers_ok members zeroGoType).
  destruct (foldl decodeMember (zeroGoType, None) members) as [g' [e|]]; by cbn.
Qed.

(** ** Printing and reading back *)

(** The object that has the parts of a go_type. *)
Definition goTypeJson (g : goTypeSpec) : json :=
  JObject [("import", JString (gt_path g)); ("package", JString (gt_pkg g)); ("type", JString (gt_name g));
           ("pointer", JBool (gt_pointer g)); ("slice", JBool (gt_slice g))].

(** The parts of a go_type survive printing and reading, in any letter case of
    the member names and with members left out when they are empty. *)
Theorem goType_roundtrip g g0 :
  gt_spec g0 = "" ->
  UnmarshalJSON (goTypeJson g) g0 =
    Ok (MkGoType (gt_path g) (gt_pkg g) (gt_name g) (gt_pointer g) (gt_slice g) "").
Proof. intros H. cbn. by rewrite H. Qed.

Example unmarshal_folded :
  UnmarshalJSON (JObject [("Import", JString "example.test/types"); ("TYPE", JString "ID"); ("ſlice", JBool true)]) zeroGoType =
  Ok (MkGoType "example.test/types" "" "ID" false true "").
Proof. vm_compute. reflexivity. Qed.

Example unmarshal_unknown :
  UnmarshalJSON (JObject [("type", JString "Name"); ("pointer_type", JBool true)]) zeroGoType =
  Err (Errorf "json: unknown field %q" [AStr "pointer_type"] []).
Proof. vm_compute. reflexivity. Qed.
