(* ===== verification/Queries.v ===== *)
(** * Queries: generated queries and their parameters and results
    (sqlcplugin/query.go)

    The specifications the generator builds for sqlc's queries, up to the
    shard routing of [Routes]. The English singular forms come from
    github.com/jinzhu/inflection, the argument [Singular]. *)

From S2P Require Import Prelude Errors GoStrings Unicode Plugin SqlRelations Naming Annotations.
From S2P Require Import Imports PostgresTypes.
From Stdlib Require Import Ascii String.

#[local] Open Scope string_scope.

(** *** Constants of plugin.go *)

Definition cmdOne : string := ":one".
Definition cmdMany : string := ":many".
Definition cmdExec : string := ":exec".
Definition cmdExecRows : string := ":execrows".
Definition cmdCopyFrom : string := ":copyfrom".
Definition resultErrorName : string := "error".
Definition defaultArgumentName : string := "arg".

(** *** Data *)

Record goField := MkField { fld_name : string; fld_dbName : string; fld_typ : string; fld_column : option Column }.
Record goStruct := MkStruct { str_table : option Identifier; str_name : string; str_fields : list goField }.
Record argument := MkArgument { arg_name : string; arg_typ : string }.
Record goColumn := MkGoColumn { gc_id : Z; gc_column : Column }.

#[export] Instance argument_eq_dec : EqDecision argument.
Proof. solve_decision. Defined.

Record queryValue := MkValue {
  qv_emit : bool;
  qv_emitPointer : bool;
  qv_name : string;
  qv_dbName : string;
  qv_structType : option goStruct;
  qv_typ : string;
  qv_column : option Column;
}.

Definition emptyValue : queryValue := MkValue false false "" "" None "" None.

Record routeOperand := MkOperand {
  op_name : string;
  op_typ : string;
  op_expression : string;
  op_dbName : string;
  op_fieldName : string;
  op_external : bool;
}.

Record shardRoute := MkRoute {
  rt_name : string;
  rt_methodName : string;
  rt_queryName : string;
  rt_operands : list routeOperand;
}.

Record shardArgWrapper := MkWrapper {
  wr_name : string;
  wr_shardKeyType : string;
  wr_fields : list goField;
  wr_sqlcArg : queryValue;
  wr_sqlcFieldExpressions : gmap string string;
}.

Record groupedManyResultKeyAccess := MkAccess {
  ka_nullable : bool;
  ka_pointer : bool;
  ka_valid : bool;
  ka_valueField : string;
}.

Record groupedManySpec := MkGroupedMany {
  gm_parameterDBName : string;
  gm_parameterField : string;
  gm_lookupDBName : string;
  gm_lookupField : string;
  gm_lookupExpression : string;
  gm_elementType : string;
  gm_resultKeyField : string;
  gm_resultIsStruct : bool;
  gm_resultKeyAccess : groupedManyResultKeyAccess;
  gm_itemIsPointer : bool;
}.

Inductive shardMode :=
  | shardModeNone
  | shardModeRouted
  | shardModeAll
  | shardModeGroupedCopy
  | shardModeGroupedMany.

#[export] Instance shardMode_eq_dec : EqDecision shardMode.
Proof. solve_decision. Defined.

Record storeParamAlias := MkParamAlias { pa_name : string; pa_target : string }.

Record generatedQuery := MkGenerated {
  methodName : string;
  command : string;
  kind : queryKind;
  gq_arg : queryValue;
  gq_ret : queryValue;
  params : list argument;
  storeParams : list argument;
  callArgs : list string;
  results : list string;
  gq_route : option shardRoute;
  gq_shardMode : shardMode;
  store : string;
  gq_storeParamAlias : option storeParamAlias;
  gq_shardArgs : option shardArgWrapper;
  gq_groupedMany : option groupedManySpec;
}.

(** *** Signatures *)

Definition argumentNames (params : list argument) : list string := arg_name <$> params.

Definition paramsSignature (params : list argument) : string :=
  Join ((fun p => arg_name p +:+ (" " +:+ arg_typ p)) <$> params) ", ".

Definition storeParamsSignature (params : list argument) : string :=
  let signature := paramsSignature params in
  (if bool_decide (signature <> "") then signature +:+ ", " else signature) +:+
  "storeOptions ...QueryOption".

Definition resultsSignature (results : list string) : string :=
  match results with
  | [] => ""
  | [result] => " " +:+ result
  | _ => " (" +:+ (Join results ", " +:+ ")")
  end.

Definition lastResultIsError (results : list string) : bool :=
  bool_decide (last results = Some resultErrorName).

(** The loop of [uniqueGeneratedName] from a suffix on; [fuel] bounds the
    number of names it tries. *)
Fixpoint uniqueSuffix (fuel : nat) (preferred : string) (suffix : Z) (usedNames : gset string) : option string :=
  match fuel with
  | O => None
  | S fuel =>
      let candidate := preferred +:+ itoa suffix in
      if bool_decide (candidate ∈ usedNames) then uniqueSuffix fuel preferred (suffix + 1) usedNames
      else Some candidate
  end.

(** One more candidate than there are used names is enough. *)
Definition uniqueGeneratedName (preferred : string) (usedNames : gset string) : option string :=
  if bool_decide (preferred ∈ usedNames)
  then uniqueSuffix (S (size usedNames)) preferred 2 usedNames
  else Some preferred.

(** The loop over the results; [count] is the number of them. *)
Fixpoint nameResults (count index : nat) (results : list string) (usedNames : gset string) : option (list string) :=
  match results with
  | [] => Some []
  | result :: results =>
      let preferredName := if (2 <? count)%nat then "result" +:+ itoa (Z.of_nat index) else "result" in
      let preferredName :=
        if (index =? count - 1)%nat && bool_decide (result = resultErrorName) then "err" else preferredName in
      name ← uniqueGeneratedName preferredName usedNames;
      names ← nameResults count (S index) results ({[name]} ∪ usedNames);
      Some (name :: names)
  end.

Definition namedResultsSignature (params : list argument) (results reservedNames : list string)
    : option (string * list string * string) :=
  let usedNames := list_to_set (argumentNames params) ∪ list_to_set reservedNames : gset string in
  names ← nameResults (List.length results) 0 results usedNames;
  let parts := zip_with (fun name result => name +:+ (" " +:+ result)) names results in
  let signature := match parts with [] => "" | _ => " (" +:+ (Join parts ", " +:+ ")") end in
  let errName := if lastResultIsError results then default "" (last names) else "" in
  Some (signature, names, errName).

(** *** Query values *)

Definition isEmpty (v : queryValue) : bool :=
  bool_decide (qv_typ v = "") && bool_decide (qv_name v = "") &&
  match qv_structType v with None => true | Some _ => false end.

Definition defineType (opts : options) (v : queryValue) : string :=
  match qv_structType v with
  | Some s =>
      let typ := if bool_decide (qv_typ v = "") then targetName opts (str_name s) else qv_typ v in
      if qv_emitPointer v then "*" +:+ typ else typ
  | None => qv_typ v
  end.

Section Tables.
Context `{UT : !UnicodeTables}.

Definition pairs (opts : options) (v : queryValue) : list argument :=
  if isEmpty v then []
  else
    match qv_structType v, qv_emit v with
    | Some s, false =>
        (fun field => MkArgument (escape (lowerTitle (fld_name field))) (fld_typ field)) <$> str_fields s
    | _, _ => [MkArgument (escape (qv_name v)) (defineType opts v)]
    end.

Definition slicePair (opts : options) (v : queryValue) : argument :=
  MkArgument (escape (qv_name v)) ("[]" +:+ defineType opts v).

Definition copyBatchStateTypeName (query : string) : string := lowerTitle query +:+ "BatchState".
Definition copyBatchStateFieldName (query : string) : string := lowerTitle query +:+ "Batch".
Definition copyBatchConfigFieldName (query : string) : string := lowerTitle query.

(** *** Structs *)

Fixpoint checkIncompatible (fieldTypes : gmap string string) (fields : list goField) : result unit :=
  match fields with
  | [] => mret tt
  | field :: fields =>
      match fieldTypes !! fld_name field with
      | Some existing =>
          if bool_decide (existing <> fld_typ field) then
            Err (Errorf "named param %s has incompatible types: %s, %s"
              [AStr (fld_name field); AStr existing; AStr (fld_typ field)] [])
          else checkIncompatible (<[fld_name field := fld_typ field]> fieldTypes) fields
      | None => checkIncompatible (<[fld_name field := fld_typ field]> fieldTypes) fields
      end
  end.
Definition checkIncompatibleFieldTypes (fields : list goField) : result unit := checkIncompatible ∅ fields.

Context (catalog : Catalog) (opts : options).

(** The state of the loop in [columnsToStruct]: how often each field name was
    seen, and the suffix given to each column id. *)
Record structState := MkStructState { ss_seen : gmap string nat; ss_suffixes : gmap Z nat }.

(** One turn of the loop: the field name and the next state. *)
Definition fieldNameStep (useID : bool) (st : structState) (idx : nat) (column : goColumn)
    : string * structState :=
  let fieldName := structName (columnName (gc_column column) idx) opts in
  let count := default 0%nat (ss_seen st !! fieldName) in
  let suffix :=
    match ss_suffixes st !! gc_id column, useID with
    | Some existing, true => existing
    | _, _ => if (0 <? count)%nat && negb (col_is_named_param (gc_column column)) then S count else 0%nat
    end in
  (if (0 <? suffix)%nat then fieldName +:+ ("_" +:+ itoa (Z.of_nat suffix)) else fieldName,
   {| ss_seen := <[fieldName := S count]> (ss_seen st);
      ss_suffixes := <[gc_id column := suffix]> (ss_suffixes st) |}).

Fixpoint structFields (useID : bool) (st : structState) (idx : nat) (columns : list goColumn) : result (list goField) :=
  match columns with
  | [] => mret []
  | column :: columns =>
      let '(fieldName, st) := fieldNameStep useID st idx column in
      typ ← goType catalog opts (gc_column column);
      fields ← structFields useID st (S idx) columns;
      mret ({| fld_name := fieldName; fld_dbName := columnName (gc_column column) idx;
               fld_typ := typ; fld_column := Some (gc_column column) |} :: fields)
  end.

Definition columnsToStruct (name : string) (columns : list goColumn) (useID : bool) : result goStruct :=
  fields ← structFields useID (MkStructState ∅ ∅) 0 columns;
  _ ← checkIncompatibleFieldTypes fields;
  mret (MkStruct None name fields).

(** *** Arguments and results *)

Definition buildQueryArg (query : Query) : result queryValue :=
  limit ← panic_if_none (QueryParameterLimit opts);
  match q_params query with
  | [] => mret emptyValue
  | [param] as ps =>
      if negb (limit =? 0)%Z then
        typ ← goType catalog opts (par_column param);
        mret {| qv_emit := false; qv_emitPointer := false; qv_name := escape (paramName param);
          qv_dbName := col_name (par_column param); qv_structType := None; qv_typ := typ;
          qv_column := Some (par_column param) |}
      else
        strct ← columnsToStruct (q_name query +:+ "Params")
          ((fun p => MkGoColumn (par_number p) (par_column p)) <$> ps) false;
        mret {| qv_emit := (limit <? Z.of_nat (List.length ps))%Z || bool_decide (q_cmd query = cmdCopyFrom);
          qv_emitPointer := EmitParamsStructPointers opts; qv_name := defaultArgumentName;
          qv_dbName := ""; qv_structType := Some strct; qv_typ := ""; qv_column := None |}
  | ps =>
      strct ← columnsToStruct (q_name query +:+ "Params")
        ((fun p => MkGoColumn (par_number p) (par_column p)) <$> ps) false;
      mret {| qv_emit := (limit <? Z.of_nat (List.length ps))%Z || bool_decide (q_cmd query = cmdCopyFrom);
        qv_emitPointer := EmitParamsStructPointers opts; qv_name := defaultArgumentName;
        qv_dbName := ""; qv_structType := Some strct; qv_typ := ""; qv_column := None |}
  end.

Definition queryReturnsData (cmd : string) : bool := oneOf cmd [cmdOne; cmdMany; ":batchone"; ":batchmany"].

(** The loop of [queryColumnsMatchStruct] over fields and columns. *)
Fixpoint fieldsMatch (table : option Identifier) (idx : nat) (fields : list goField) (columns : list Column) : result bool :=
  match fields, columns with
  | field :: fields, column :: columns =>
      if bool_decide (fld_name field <> structName (columnName column idx) opts) then mret false
      else
        typ ← goType catalog opts column;
        if bool_decide (fld_typ field <> typ) then mret false
        else if negb (sameTableName (col_table column) table (cat_default_schema catalog)) then mret false
        else fieldsMatch table (S idx) fields columns
  | _, _ => mret true
  end.

Definition queryColumnsMatchStruct (columns : list Column) (strct : goStruct) : result bool :=
  if bool_decide (List.length (str_fields strct) <> List.length columns) then mret false
  else fieldsMatch (str_table strct) 0 (str_fields strct) columns.

Fixpoint findModel (columns : list Column) (structs : list goStruct) : result (option goStruct) :=
  match structs with
  | [] => mret None
  | strct :: structs =>
      matches ← queryColumnsMatchStruct columns strct;
      if matches : bool then mret (Some strct) else findModel columns structs
  end.

Definition buildQueryReturn (query : Query) (structs : list goStruct) : result queryValue :=
  if negb (queryReturnsData (q_cmd query)) then mret emptyValue
  else
    let structReturn columns :=
      model ← findModel columns structs;
      '(strct, emit) ←
        match model with
        | Some strct => mret (strct, false)
        | None =>
            strct ← columnsToStruct (q_name query +:+ "Row")
              (imap (fun idx column => MkGoColumn (Z.of_nat idx) column) columns) true;
            mret (strct, true)
        end;
      mret {| qv_emit := emit; qv_emitPointer := EmitResultStructPointers opts; qv_name := "i";
        qv_dbName := ""; qv_structType := Some strct; qv_typ := ""; qv_column := None |} in
    match q_columns query with
    | [] => mret emptyValue
    | [column] =>
        match col_embed_table column with
        | None =>
            let name := ReplaceAll (columnName column 0) "$" "_" in
            typ ← goType catalog opts column;
            mret {| qv_emit := false; qv_emitPointer := false; qv_name := escape name;
              qv_dbName := name; qv_structType := None; qv_typ := typ; qv_column := Some column |}
        | Some _ => structReturn [column]
        end
    | columns => structReturn columns
    end.

Definition resultTypes (query : Query) (ret : queryValue) : result (list string) :=
  let cmd := q_cmd query in
  if bool_decide (cmd = cmdOne) then mret [defineType opts ret; resultErrorName]
  else if bool_decide (cmd = cmdMany) then mret ["[]" +:+ defineType opts ret; resultErrorName]
  else if bool_decide (cmd = cmdExec) then mret [resultErrorName]
  else if oneOf cmd [cmdExecRows; cmdCopyFrom] then mret [goTypeInt64; resultErrorName]
  else if bool_decide (cmd = ":execresult") then mret ["pgconn.CommandTag"; resultErrorName]
  else if oneOf cmd [":batchexec"; ":batchone"; ":batchmany"] then
    mret ["*" +:+ targetName opts (q_name query +:+ "BatchResults")]
  else Err (Errorf "unsupported query command %q for %s" [AStr cmd; AStr (q_name query)] []).

(** *** Table models *)

Context (Singular : string -> string).

Definition singular (name : string) : string :=
  let lower := ToLower name in
  if oneOf lower ["campus"; "meta"; "metadata"] then name
  else if bool_decide (lower = "calories") then "calorie"
  else if bool_decide (lower = "waves") then "wave"
  else Singular name.

Fixpoint mapO {A B} (f : A -> result B) (l : list A) : result (list B) :=
  match l with
  | [] => mret []
  | a :: l => b ← f a; bs ← mapO f l; mret (b :: bs)
  end.

Definition tableField (column : Column) : result goField :=
  typ ← goType catalog opts column;
  mret {| fld_name := structName (col_name column) opts; fld_dbName := col_name column;
          fld_typ := typ; fld_column := Some column |}.

Definition tableStruct (schema : Schema) (table : Table) : result goStruct :=
  let name := id_name (tbl_rel table) in
  let name :=
    if bool_decide (sch_name schema <> cat_default_schema catalog)
    then sch_name schema +:+ ("_" +:+ name) else name in
  let name := if EmitExactTableNames opts then name else singular name in
  fields ← mapO tableField (tbl_columns table);
  mret {| str_table := Some {| id_catalog := id_catalog (tbl_rel table); id_schema := sch_name schema;
                               id_name := id_name (tbl_rel table) |};
          str_name := structName name opts; str_fields := fields |}.

Definition buildStructs `{!GoSort} : result (list goStruct) :=
  structs ← mapO (fun '(schema, table) => tableStruct schema table)
    (schema ← filter (fun s => skippedSchema (sch_name s) = false) (cat_schemas catalog);
     (fun table => (schema, table)) <$> sch_tables schema);
  mret (sortSlice (fun a b => strLess (str_name a) (str_name b)) structs).

End Tables.

(** ** Generated result names *)

Fixpoint candidates (fuel : nat) (preferred : string) (suffix : Z) : list string :=
  match fuel with
  | O => []
  | S fuel => (preferred +:+ itoa suffix) :: candidates fuel preferred (suffix + 1)
  end.

Lemma candidates_length fuel p s : List.length (candidates fuel p s) = fuel.
Proof. revert s. induction fuel as [|fuel IH]; intros s; [done|]. cbn. by rewrite IH. Qed.

Lemma candidates_elem fuel p s x :
  x ∈ candidates fuel p s -> exists i, (s <= i)%Z /\ x = p +:+ itoa i.
Proof.
  revert s. induction fuel as [|fuel IH]; intros s; cbn; [by intros ?%elem_of_nil|].
  intros [->|H]%elem_of_cons; [by exists s; split; [lia|]|].
  destruct (IH _ H) as (i & Hi & ->). exists i. split; [lia|done].
Qed.

Lemma candidates_NoDup fuel p s : (0 <= s)%Z -> NoDup (candidates fuel p s).
Proof.
  revert s. induction fuel as [|fuel IH]; intros s Hs; cbn; [constructor|].
  constructor; [|apply IH; lia]. intros (i & Hi & E)%candidates_elem.
  apply app_string_inj_r, itoa_inj in E; lia.
Qed.

Lemma uniqueSuffix_None fuel p s used :
  uniqueSuffix fuel p s used = None -> forall x, x ∈ candidates fuel p s -> x ∈ used.
Proof.
  revert s. induction fuel as [|fuel IH]; intros s; cbn; [by intros _ x ?%elem_of_nil|].
  case_bool_decide as Hin; [|done]. intros H x [->|Hx]%elem_of_cons; [done|]. by apply (IH (s + 1)%Z).
Qed.

Lemma uniqueSuffix_fresh fuel p s used name : uniqueSuffix fuel p s used = Some name -> name ∉ used.
Proof.
  revert s. induction fuel as [|fuel IH]; intros s; cbn; [done|].
  case_bool_decide as Hin; [apply IH|]. by intros [= <-].
Qed.

(** The search for a free name ends, with a free name. *)
Lemma uniqueGeneratedName_fresh p used :
  exists name, uniqueGeneratedName p used = Some name /\ name ∉ used.
Proof.
  unfold uniqueGeneratedName. case_bool_decide as Hp; [|by exists p].
  destruct (uniqueSuffix (S (size used)) p 2 used) as [name|] eqn:E.
  - exists name. split; [done|]. by eapply uniqueSuffix_fresh.
  - exfalso. pose proof (uniqueSuffix_None _ _ _ _ E) as Hall.
    assert (list_to_set (candidates (S (size used)) p 2) ⊆ used) as Hsub by set_solver.
    apply subseteq_size in Hsub. rewrite size_list_to_set in Hsub by (apply candidates_NoDup; lia).
    rewrite candidates_length in Hsub. lia.
Qed.

Lemma nameResults_fresh count index results used :
  exists names, nameResults count index results used = Some names /\
    List.length names = List.length results /\ NoDup names /\ Forall (fun n => n ∉ used) names.
Proof.
  revert index used. induction results as [|r results IH]; intros index used.
  { exists []. split_and!; [done..|constructor|constructor]. }
  cbn [nameResults]. match goal with |- context [uniqueGeneratedName ?p used] =>
    destruct (uniqueGeneratedName_fresh p used) as (name & -> & Hname) end.
  cbn [mbind option_bind].
  destruct (IH (S index) ({[name]} ∪ used)) as (names & -> & Hlen & Hnd & Hall).
  cbn [mbind option_bind]. exists (name :: names). split_and!; [done|by cbn; rewrite Hlen| |].
  - constructor; [|done]. intros Hin. rewrite Forall_forall in Hall. apply Hall in Hin. set_solver.
  - constructor; [done|]. eapply Forall_impl; [exact Hall|]. set_solver.
Qed.

(** Named results. For any parameters, results and reserved names, naming
    the results of a generated method ends and gives every result its own name,
    different from all the others and from every parameter and reserved name;
    the error name is the last of them when the last result is an error. *)
Theorem named_results_fresh ps rs reserved :
  exists signature names errName,
    namedResultsSignature ps rs reserved = Some (signature, names, errName) /\
    List.length names = List.length rs /\ NoDup names /\
    (forall n, n ∈ names -> (n ∉ argumentNames ps) /\ (n ∉ reserved)) /\
    (lastResultIsError rs = true -> last names = Some errName).
Proof.
  unfold namedResultsSignature.
  destruct (nameResults_fresh (List.length rs) 0 rs
    (list_to_set (argumentNames ps) ∪ list_to_set reserved)) as (names & -> & Hlen & Hnd & Hall).
  cbn [mbind option_bind]. do 3 eexists. split; [done|]. split_and!; [done|done| |].
  - intros n Hn. rewrite Forall_forall in Hall. apply Hall in Hn. set_solver.
  - intros Herr. rewrite Herr. unfold lastResultIsError in Herr. apply bool_decide_eq_true in Herr.
    destruct (last names) as [n|] eqn:E; [done|]. apply last_None in E as ->.
    destruct rs; [done|]. done.
Qed.

(** ** The fields of generated structs *)

Section StructFields.
Context `{UT : !UnicodeTables} `{UL : !UnicodeLaws UT} (catalog : Catalog) (opts : options).

(** A column whose name is not renamed and has a letter or a digit, and which
    is no named parameter. *)
Definition plainColumn (idx : nat) (column : goColumn) : Prop :=
  let name := columnName (gc_column column) idx in
  default "" (Rename opts !! name) = "" /\ existsb wordRune (runes name) = true /\
  col_is_named_param (gc_column column) = false.

Definition seenCount (st : structState) (base : string) : nat := default 0%nat (ss_seen st !! base).

(** A name the loop can still give: a base not seen yet, or a number not reached. *)
Definition freshName (st : structState) (name : string) : Prop :=
  exists base suffix, name = numbered base suffix /\ plainBase base /\
    (seenCount st base = 0 \/ seenCount st base < suffix)%nat.

Lemma structFields_fresh useID st idx columns fields :
  structFields catalog opts useID st idx columns = Ok fields ->
  (forall i c, columns !! i = Some c -> plainColumn (idx + i) c) ->
  useID = false \/ (NoDup (gc_id <$> columns) /\ forall c, c ∈ columns -> ss_suffixes st !! gc_id c = None) ->
  NoDup (fld_name <$> fields) /\ Forall (freshName st) (fld_name <$> fields) /\
  fld_dbName <$> fields = imap (fun i c => columnName (gc_column c) (idx + i)) columns.
Proof.
  revert st idx fields. induction columns as [|c columns IH]; intros st idx fields H Hplain Hids.
  { cbn in H. injection H as <-. split_and!; [constructor..|done]. }
  destruct (Hplain 0%nat c eq_refl) as (Hren & Hword & Hnamed). rewrite Nat.add_0_r in Hren, Hword.
  set (base := structName (columnName (gc_column c) idx) opts).
  assert (plainBase base) as Hbase by by apply structName_base.
  set (suffix := if (0 <? seenCount st base)%nat then S (seenCount st base) else 0%nat).
  set (st' := {| ss_seen := <[base := S (seenCount st base)]> (ss_seen st);
                 ss_suffixes := <[gc_id c := suffix]> (ss_suffixes st) |}).
  assert (fieldNameStep opts useID st idx c = (numbered base suffix, st')) as Hstep.
  { unfold fieldNameStep. rewrite Hnamed, andb_true_r. fold base. fold (seenCount st base).
    destruct Hids as [->|[_ Hids]].
    - destruct (ss_suffixes st !! gc_id c); done.
    - rewrite (Hids c) by (left). done. }
  cbn [structFields] in H. rewrite Hstep in H.
  destruct (goType catalog opts (gc_column c)) as [typ| |]; [|done..]. cbn [mbind outcome_bind] in H.
  destruct (structFields catalog opts useID st' (S idx) columns) as [fields'| |] eqn:E; [|done..].
  injection H as <-. destruct (IH st' (S idx) fields' E) as (Hnd & Hfresh & Hdb).
  - intros i c' Hi. replace (S idx + i)%nat with (idx + S i)%nat by lia. by apply Hplain.
  - destruct Hids as [->|[Hnd Hids]]; [by left|]. right. cbn in Hnd.
    apply NoDup_cons in Hnd as [Hnotin Hnd]. split; [done|]. intros c' Hc'. cbn.
    rewrite lookup_insert_ne; [by apply Hids; right|]. intros Heq. apply Hnotin.
    rewrite Heq. by apply list_elem_of_fmap_2.
  - assert (forall b, seenCount st' b = if decide (b = base) then S (seenCount st base) else seenCount st b)
      as Hcount.
    { intros b. unfold seenCount at 1. cbn. case_decide as Hb; [subst; by rewrite lookup_insert_eq|].
      by rewrite lookup_insert_ne. }
    cbn [fmap list_fmap fld_name fld_dbName]. split_and!.
    + constructor; [|done]. intros Hin. rewrite Forall_forall in Hfresh.
      destruct (Hfresh _ Hin) as (b & s & Hbs & Hb & Hlt).
      apply numbered_inj in Hbs as [<- <-]; [|done..]. rewrite Hcount, decide_True in Hlt by done.
      unfold suffix in Hlt. destruct (0 <? seenCount st base)%nat; lia.
    + constructor.
      * exists base, suffix. split_and!; [done..|]. unfold suffix.
        destruct (Nat.ltb_spec 0 (seenCount st base)); lia.
      * eapply Forall_impl; [exact Hfresh|]. intros n (b & s & -> & Hb & Hlt). exists b, s.
        split_and!; [done..|]. rewrite Hcount in Hlt. case_decide; [subst; lia|done].
    + cbn. rewrite Nat.add_0_r. f_equal. rewrite Hdb. apply imap_ext. intros i c' _. cbn. f_equal. lia.
Qed.

Lemma checkIncompatible_distinct types fields :
  NoDup (fld_name <$> fields) -> (forall f, f ∈ fields -> types !! fld_name f = None) ->
  checkIncompatible types fields = Ok tt.
Proof.
  revert types. induction fields as [|f fields IH]; intros types Hnd Hnone; [done|].
  cbn in *. apply NoDup_cons in Hnd as [Hnotin Hnd]. rewrite (Hnone f) by left. apply IH; [done|].
  intros f' Hf'. rewrite lookup_insert_ne; [by apply Hnone; right|]. intros Heq. apply Hnotin.
  rewrite Heq. by apply list_elem_of_fmap_2.
Qed.

(** Struct fields. For positional columns (result columns, or parameters
    that were not named) without renames, whose names hold a letter or a digit,
    [columnsToStruct] succeeds whenever every column has a type, and the fields
    keep the columns' names in order and get pairwise different Go names. *)
Theorem struct_fields_distinct name columns useID fields :
  (forall i c, columns !! i = Some c -> plainColumn i c) ->
  useID = false \/ NoDup (gc_id <$> columns) ->
  structFields catalog opts useID (MkStructState ∅ ∅) 0 columns = Ok fields ->
  columnsToStruct catalog opts name columns useID = Ok (MkStruct None name fields) /\
  NoDup (fld_name <$> fields) /\
  fld_dbName <$> fields = imap (fun i c => columnName (gc_column c) i) columns.
Proof.
  intros Hplain Hids H.
  destruct (structFields_fresh useID (MkStructState ∅ ∅) 0 columns fields H) as (Hnd & _ & Hdb).
  - done.
  - destruct Hids as [->|Hids]; [by left|right]. split; [done|]. intros c _. apply lookup_empty.
  - split_and!; [|done|done]. unfold columnsToStruct. rewrite H. cbn [mbind outcome_bind].
    unfold checkIncompatibleFieldTypes. rewrite checkIncompatible_distinct; [done|done|].
    intros f _. apply lookup_empty.
Qed.

End StructFields.

Module StructSample.
#[local] Existing Instance asciiTables.

Definition column (name : string) : Column := {|
  col_name := name; col_not_null := true; col_is_array := false; col_is_named_param := false;
  col_table := None; col_type := Some (MkIdentifier "" "" "text"); col_is_sqlc_slice := false;
  col_embed_table := None; col_original_name := ""; col_unsigned := false; col_array_dims := 0 |}.
Definition columns : list goColumn :=
  [MkGoColumn 0 (column "id"); MkGoColumn 1 (column "2nd"); MkGoColumn 2 (column "ID");
   MkGoColumn 3 (column ""); MkGoColumn 4 (column "_id")].
Definition catalog0 : Catalog := MkCatalog "public" [].
Definition field (name db : string) (c : string) : goField := MkField name db "string" (Some (column c)).
Definition fields : list goField :=
  [field "ID" "id" "id"; field "_2nd" "2nd" "2nd"; field "ID_2" "ID" "ID";
   field "Column4" "column_4" ""; field "ID_3" "_id" "_id"].

Lemma struct_fields_distinct_witness :
  columnsToStruct catalog0 sampleOptions "ListRow" columns true = Ok (MkStruct None "ListRow" fields) /\
  NoDup (fld_name <$> fields).
Proof.
  destruct (struct_fields_distinct catalog0 sampleOptions "ListRow" columns true fields) as (H1 & H2 & _).
  - intros i c Hi. do 5 (destruct i as [|i]; [injection Hi as <-; by vm_compute|]). done.
  - right. by apply (bool_decide_unpack _); vm_compute.
  - by vm_compute.
  - by split.
Defined.

End StructSample.
