(* ===== verification/Routes.v ===== *)
(** * Routes: shard routes and parameter wrappers (sqlcplugin/query.go)

    How a shard annotation is resolved against a query's parameters and the
    table models, how the store parameters of routed queries are wrapped, and
    how all queries are built. A Go loop that builds up a wrapper with its set
    of used field names threads both. *)

From S2P Require Import Prelude Errors GoStrings Unicode Plugin SqlRelations Naming Annotations.
From S2P Require Import Imports PostgresTypes Queries.
From Stdlib Require Import Ascii String.

#[local] Open Scope string_scope.

(** *** Grouped :many lookups *)

Definition splitTypeQualifier (typ : string) : string * string :=
  let '(qualifier, name, ok) := Cut typ "." in
  if ok then (qualifier, name) else ("", typ).

(** The nullable types with the type they wrap and their value field. *)
Definition nullableTypes : list (string * (string * string)) :=
  [("pgtype.Int4", ("int32", "Int32")); ("pgtype.Int8", (goTypeInt64, "Int64"));
   ("pgtype.Int2", ("int16", "Int16")); ("pgtype.Float8", ("float64", "Float64"));
   ("pgtype.Float4", ("float32", "Float32")); ("pgtype.Bool", (goTypeBool, "Bool"));
   ("pgtype.Text", (goTypeString, "String")); ("sql.NullBool", (goTypeBool, "Bool"));
   ("sql.NullByte", ("byte", "Byte")); ("sql.NullFloat64", ("float64", "Float64"));
   ("sql.NullInt16", ("int16", "Int16")); ("sql.NullInt32", ("int32", "Int32"));
   ("sql.NullInt64", (goTypeInt64, "Int64")); ("sql.NullString", (goTypeString, "String"));
   ("sql.NullTime", ("time.Time", "Time"))].

Definition nullableType_lookup (typ : string) : option (string * string) :=
  snd <$> find (fun '(name, _) => bool_decide (name = typ)) nullableTypes.

Definition groupedManyKeyAccess (resultType elementType : string) : option groupedManyResultKeyAccess :=
  if bool_decide (resultType = elementType) then Some (MkAccess false false false "")
  else if bool_decide (resultType = "*" +:+ elementType) then Some (MkAccess true true false "")
  else
    let qualified :=
      let '(resultQualifier, resultName) := splitTypeQualifier resultType in
      let '(elementQualifier, elementName) := splitTypeQualifier elementType in
      if bool_decide (resultQualifier = elementQualifier) &&
         bool_decide (resultName = "Null" +:+ elementName) && bool_decide (elementName <> "")
      then Some (MkAccess true false true elementName) else None in
    match nullableType_lookup resultType with
    | Some (element, valueField) =>
        if bool_decide (element = elementType) then Some (MkAccess true false true valueField)
        else qualified
    | None => qualified
    end.

Section Routes.
Context `{UT : !UnicodeTables} (catalog : Catalog) (opts : options) (Singular : string -> string).

Definition lookupError (queryName lookupDBName typ elementType : string) : error :=
  Errorf "query %s grouped :many result key %q has Go type %s, want %s"
    [AStr queryName; AStr lookupDBName; AStr typ; AStr elementType] [].

Definition groupedManyLookupDescription (lookupDBNames : list string) : list arg := AStr <$> lookupDBNames.

(** The loop over lookup names for a scalar result. *)
Fixpoint scalarResultKey (queryName elementType : string) (ret : queryValue) (all lookupDBNames : list string)
    : result (string * string * bool * groupedManyResultKeyAccess) :=
  match lookupDBNames with
  | [] =>
      Err (Errorf "query %s grouped :many result must expose lookup key %s; got scalar result %q"
        (AStr queryName :: groupedManyLookupDescription all ++ [AStr (qv_dbName ret)])%list [])
  | lookupDBName :: rest =>
      if bool_decide (qv_dbName ret <> lookupDBName) then
        scalarResultKey queryName elementType ret all rest
      else
        match groupedManyKeyAccess (qv_typ ret) elementType with
        | Some access => mret ("", lookupDBName, false, access)
        | None => Err (lookupError queryName lookupDBName (qv_typ ret) elementType)
        end
  end.

(** The loop over lookup names for a struct result. *)
Fixpoint structResultKey (queryName elementType : string) (fields : list goField) (all lookupDBNames : list string)
    : result (string * string * bool * groupedManyResultKeyAccess) :=
  match lookupDBNames with
  | [] =>
      Err (Errorf "query %s grouped :many result must expose exactly one field for lookup key %s"
        (AStr queryName :: groupedManyLookupDescription all) [])
  | lookupDBName :: rest =>
      match filter (fun f => fld_dbName f = lookupDBName) fields with
      | [] => structResultKey queryName elementType fields all rest
      | [match0] =>
          match groupedManyKeyAccess (fld_typ match0) elementType with
          | Some access => mret (fld_name match0, lookupDBName, true, access)
          | None => Err (lookupError queryName lookupDBName (fld_typ match0) elementType)
          end
      | _ =>
          Err (Errorf "query %s grouped :many result exposes multiple fields for lookup key %q"
            [AStr queryName; AStr lookupDBName] [])
      end
  end.

Definition groupedManyResultKey (queryName : string) (ret : queryValue) (parameterDBName elementType : string)
    : result (string * string * bool * groupedManyResultKeyAccess) :=
  let singularName := singular Singular parameterDBName in
  let lookupDBNames :=
    if bool_decide (singularName <> parameterDBName) then [parameterDBName; singularName]
    else [parameterDBName] in
  match qv_structType ret with
  | None => scalarResultKey queryName elementType ret lookupDBNames lookupDBNames
  | Some s => structResultKey queryName elementType (str_fields s) lookupDBNames lookupDBNames
  end.

(** [strings.CutPrefix]. *)
Definition CutPrefix (s prefix : string) : option string :=
  if HasPrefix s prefix then Some (dropBytes (String.length prefix) s) else None.

Definition buildGroupedManySpec (query : Query) (arg ret : queryValue) : result (option groupedManySpec) :=
  match q_params query with
  | [param] =>
      let column := par_column param in
      let isOneDimensionalArray :=
        col_is_sqlc_slice column || (col_is_array column && bool_decide (col_array_dims column = 1%Z)) in
      if negb isOneDimensionalArray then mret None
      else if bool_decide (col_name column = "") then
        Err (Errorf "query %s grouped :many list parameter must have a name so returned rows can be reordered"
          [AStr (q_name query)] [])
      else
        parameterType ← goType catalog opts column;
        let notList :=
          Err (Errorf "query %s grouped :many parameter %q has non-list Go type %s"
            [AStr (q_name query); AStr (col_name column); AStr parameterType] []) in
        match CutPrefix parameterType "[]" with
        | None => notList
        | Some elementType =>
            if bool_decide (elementType = "") then notList
            else
              parameterField ←
                match qv_structType arg with
                | None => mret (structName (col_name column) opts)
                | Some s =>
                    match str_fields s with
                    | [field] => mret (fld_name field)
                    | fields =>
                        Err (Errorf "query %s grouped :many expected one generated SQL parameter field, got %d"
                          [AStr (q_name query); AInt (Z.of_nat (List.length fields))] [])
                    end
                end;
              '(resultKeyField, lookupDBName, resultIsStruct, resultKeyAccess) ←
                groupedManyResultKey (q_name query) ret (col_name column) elementType;
              mret (Some {|
                gm_parameterDBName := col_name column;
                gm_parameterField := parameterField;
                gm_lookupDBName := lookupDBName;
                gm_lookupField :=
                  if resultIsStruct : bool then resultKeyField else structName lookupDBName opts;
                gm_lookupExpression := "";
                gm_elementType := elementType;
                gm_resultKeyField := resultKeyField;
                gm_resultIsStruct := resultIsStruct;
                gm_resultKeyAccess := resultKeyAccess;
                gm_itemIsPointer := false |})
        end
  | _ => mret None
  end.

Definition scalarizeGroupedManyRoute (route : shardRoute) (spec : groupedManySpec) : shardRoute :=
  {| rt_name := rt_name route; rt_methodName := rt_methodName route; rt_queryName := rt_queryName route;
     rt_operands :=
       (fun o =>
          if bool_decide (op_dbName o = gm_parameterDBName spec) && negb (op_external o)
          then MkOperand (op_name o) (gm_elementType spec) (op_expression o) (op_dbName o)
                 (op_fieldName o) (op_external o)
          else o) <$> rt_operands route |}.

(** *** Operands *)

Definition routeMethodPart (part : string) : string :=
  if EqualFold part "p2p" then "P2P"
  else if existsb IsUpper (runes part) then title part
  else structName part opts.

Definition routeMethodName (name : string) : string :=
  let replacement := default "" (Rename opts !! name) in
  if bool_decide (replacement <> "") then replacement
  else Join (routeMethodPart <$> splitIdentifier name) "".

Definition routeOperandForArg (arg : queryValue) (dbName : string) : option routeOperand :=
  match qv_structType arg with
  | Some s =>
      field ← find (fun f => bool_decide (fld_dbName f = dbName)) (str_fields s);
      let expression :=
        if qv_emit arg then escape (qv_name arg) +:+ ("." +:+ fld_name field)
        else escape (lowerTitle (fld_name field)) in
      Some (MkOperand (escape (lowerTitle (fld_name field))) (fld_typ field) expression dbName
              (fld_name field) false)
  | None =>
      if bool_decide (qv_dbName arg <> dbName) then None
      else
        let fieldName := structName dbName opts in
        Some (MkOperand (escape (lowerTitle fieldName)) (qv_typ arg) (escape (qv_name arg)) dbName
                fieldName false)
  end.

Definition modelsForTables (tables : list Identifier) (structs : list goStruct) : list goStruct :=
  filter (fun model =>
    existsb (fun table => sameTableName (Some table) (str_table model) (cat_default_schema catalog)) tables = true)
    structs.

Definition nonEmptyGroup (models : list goStruct) : list (list goStruct) :=
  match models with [] => [] | _ => [models] end.

Definition relatedQueryModelGroups (query : Query) (structs : list goStruct) : list (list goStruct) :=
  (match q_insert_into_table query with
   | Some table => [modelsForTables [table] structs]
   | None => []
   end ++
   nonEmptyGroup (modelsForTables (omap col_table (q_columns query)) structs) ++
   nonEmptyGroup (modelsForTables (queryRelationIdentifiers (q_text query)) structs) ++
   nonEmptyGroup (modelsForTables (omap (fun p => col_table (par_column p)) (q_params query)) structs))%list.

(** The loops over the fields of a group's models; [matched] is the field so
    far with its model. *)
Fixpoint matchFields (queryName dbName : string) (matched : option (goField * string))
    (fields : list (goField * string)) : result (option (goField * string)) :=
  match fields with
  | [] => mret matched
  | (field, model) :: fields =>
      if bool_decide (fld_dbName field <> dbName) then matchFields queryName dbName matched fields
      else
        let continue := matchFields queryName dbName (Some (field, model)) fields in
        match matched with
        | Some (m, matchedModel) =>
            if bool_decide (fld_name m <> fld_name field) || bool_decide (fld_typ m <> fld_typ field) then
              Err (Errorf "query %s shard operand %q matches incompatible fields on generated models %s and %s"
                [AStr queryName; AStr dbName; AStr matchedModel; AStr model] [])
            else continue
        | None => continue
        end
  end.

Definition modelFields (models : list goStruct) : list (goField * string) :=
  model ← models; (fun field => (field, str_name model)) <$> str_fields model.

Fixpoint fieldFromGroups (queryName dbName : string) (groups : list (list goStruct)) : result goField :=
  match groups with
  | [] =>
      Err (Errorf "query %s shard operand %q does not match a SQL parameter or a field on its generated table model"
        [AStr queryName; AStr dbName] [])
  | models :: groups =>
      matched ← matchFields queryName dbName None (modelFields models);
      match matched with
      | Some (field, _) => mret field
      | None => fieldFromGroups queryName dbName groups
      end
  end.

Definition routeOperandFieldFromModels (query : Query) (dbName : string) (structs : list goStruct) : result goField :=
  fieldFromGroups (q_name query) dbName (relatedQueryModelGroups query structs ++ [structs])%list.

(** The operand one annotated name stands for. *)
Definition resolveOperand (query : Query) (arg : queryValue) (groupedMany : option groupedManySpec)
    (structs : list goStruct) (dbName : string) : result routeOperand :=
  match routeOperandForArg arg dbName with
  | Some operand => mret operand
  | None =>
      let viaLookup :=
        match groupedMany with
        | Some gm =>
            if bool_decide (dbName = gm_lookupDBName gm) then
              o ← routeOperandForArg arg (gm_parameterDBName gm);
              Some (MkOperand (escape (lowerTitle (gm_lookupField gm))) (op_typ o) (op_expression o)
                      (op_dbName o) (gm_lookupField gm) (op_external o))
            else None
        | None => None
        end in
      match viaLookup with
      | Some operand => mret operand
      | None =>
          field ← routeOperandFieldFromModels query dbName structs;
          mret (MkOperand (escape (lowerTitle (fld_name field))) (fld_typ field) "" dbName
                  (fld_name field) true)
      end
  end.

Fixpoint resolveOperands (query : Query) (arg : queryValue) (groupedMany : option groupedManySpec)
    (structs : list goStruct) (seen : list string) (dbNames : list string) : result (list routeOperand) :=
  match dbNames with
  | [] => mret []
  | dbName :: dbNames =>
      operand ← resolveOperand query arg groupedMany structs dbName;
      if bool_decide (op_name operand ∈ seen) then
        Err (Errorf "query %s shard operands generate duplicate Go parameter %q"
          [AStr (q_name query); AStr (op_name operand)] [])
      else
        operands ← resolveOperands query arg groupedMany structs (op_name operand :: seen) dbNames;
        mret (operand :: operands)
  end.

Definition resolveShardRoute (query : Query) (arg : queryValue) (annotation : routeAnnotation)
    (groupedMany : option groupedManySpec) (structs : list goStruct) : result shardRoute :=
  let method := routeMethodName (ra_name annotation) in
  if bool_decide (method = "") then
    Err (Errorf "query %s shard route %q does not produce a Go method name"
      [AStr (q_name query); AStr (ra_name annotation)] [])
  else if negb (validRouteIdentifier method) || negb (IsUpper (firstRune method)) then
    Err (Errorf "query %s shard route %q generates non-exported or invalid resolver method %q"
      [AStr (q_name query); AStr (ra_name annotation); AStr method] [])
  else
    operands ← resolveOperands query arg groupedMany structs [] (ra_operands annotation);
    mret {| rt_name := ra_name annotation; rt_methodName := method; rt_queryName := q_name query;
            rt_operands := operands |}.

(** *** Store parameters of routed queries *)

Definition routeOperandByDBName (route : shardRoute) (dbName : string) : option routeOperand :=
  find (fun o => bool_decide (op_dbName o = dbName)) (rt_operands route).

(** The wrapper under construction: its fields, and what uses each name. *)
Record wrapping := MkWrapping { wp_fields : list goField; wp_used : gmap string string }.

(** The closure [appendField]. *)
Definition appendField (queryName : string) (w : wrapping) (name dbName typ source : string) : result wrapping :=
  match wp_used w !! name with
  | Some previous =>
      Err (Errorf "query %s shard parameter wrapper field %s conflicts between %s and %s"
        [AStr queryName; AStr name; AStr previous; AStr source] [])
  | None =>
      mret {| wp_fields := (wp_fields w ++ [MkField name dbName typ None])%list;
              wp_used := <[name := source]> (wp_used w) |}
  end.

(** One SQL parameter field: where its value comes from in the wrapper. *)
Definition wrapField (queryName : string) (route : shardRoute) (w : wrapping) (field : goField)
    : result (wrapping * string) :=
  match routeOperandByDBName route (fld_dbName field) with
  | Some operand => mret (w, "arg." +:+ (rt_methodName route +:+ ("." +:+ op_fieldName operand)))
  | None =>
      w ← appendField queryName w (fld_name field) (fld_dbName field) (fld_typ field)
            ("SQL parameter " +:+ fld_dbName field);
      mret (w, "arg." +:+ fld_name field)
  end.

Fixpoint wrapFields (queryName : string) (route : shardRoute) (w : wrapping) (fields : list goField)
    : result (wrapping * list string) :=
  match fields with
  | [] => mret (w, [])
  | field :: fields =>
      '(w, e) ← wrapField queryName route w field;
      '(w, es) ← wrapFields queryName route w fields;
      mret (w, e :: es)
  end.

Definition withShardArgs (query : generatedQuery) (route : shardRoute) (store : list argument)
    (call : list string) (wrapper : shardArgWrapper) (gm : option groupedManySpec) : generatedQuery := {|
  methodName := methodName query; command := command query; kind := kind query; gq_arg := gq_arg query;
  gq_ret := gq_ret query; params := params query; storeParams := store; callArgs := call;
  results := results query; gq_route := Some route; gq_shardMode := gq_shardMode query;
  store := Queries.store query; gq_storeParamAlias := gq_storeParamAlias query;
  gq_shardArgs := Some wrapper; gq_groupedMany := gm |}.

Definition wrapShardParameters (query : generatedQuery) (route : shardRoute) : result generatedQuery :=
  let key := rt_methodName route in
  let start := MkWrapping [] {[ key := "shard key" ]} in
  ctx ← panic_if_none (head (params query));
  let arg := gq_arg query in
  '(w, call, sqlcArg, expressions) ←
    (if isEmpty arg then mret (start, [], emptyValue, ∅)
     else if qv_emit arg then
       s ← panic_if_none (qv_structType arg);
       '(w, es) ← wrapFields (methodName query) route start (str_fields s);
       mret (w, ["arg.sqlcParams()"], arg,
             list_to_map (reverse (zip (fld_name <$> str_fields s) es)) : gmap string string)
     else
       match qv_structType arg with
       | Some s =>
           '(w, es) ← wrapFields (methodName query) route start (str_fields s);
           mret (w, es, emptyValue, ∅)
       | None =>
           match routeOperandByDBName route (qv_dbName arg) with
           | Some operand => mret (start, ["arg." +:+ (key +:+ ("." +:+ op_fieldName operand))], emptyValue, ∅)
           | None =>
               let fieldName := structName (qv_dbName arg) opts in
               let '(fieldName, dbName) :=
                 if bool_decide (fieldName = "") then (structName (qv_name arg) opts, qv_name arg)
                 else (fieldName, qv_dbName arg) in
               w ← appendField (methodName query) start fieldName dbName (defineType opts arg)
                     ("SQL parameter " +:+ qv_dbName arg);
               mret (w, ["arg." +:+ fieldName], emptyValue, ∅)
           end
       end);
  let route' := {|
    rt_name := rt_name route; rt_methodName := key; rt_queryName := rt_queryName route;
    rt_operands :=
      (fun o => MkOperand (op_name o) (op_typ o) ("arg." +:+ (key +:+ ("." +:+ op_fieldName o)))
                  (op_dbName o) (op_fieldName o) (op_external o)) <$> rt_operands route |} in
  let wrapperName := methodName query +:+ "T" in
  let wrapperType := if EmitParamsStructPointers opts then "*" +:+ wrapperName else wrapperName in
  let wrapperType :=
    if bool_decide (gq_shardMode query = shardModeGroupedCopy) then "[]" +:+ wrapperType else wrapperType in
  mret (withShardArgs query route' [ctx; MkArgument defaultArgumentName wrapperType]
          (arg_name ctx :: call)
          (MkWrapper wrapperName key (wp_fields w) sqlcArg expressions) (gq_groupedMany query)).

Definition wrapGroupedManyShardOperands (query : generatedQuery) (route : shardRoute) : result generatedQuery :=
  spec ← panic_if_none (gq_groupedMany query);
  let key := rt_methodName route in
  let start := MkWrapping [] {[ key := "shard key" ]} in
  '(w, lookupExpression) ←
    match routeOperandByDBName route (gm_parameterDBName spec) with
    | Some operand => mret (start, "item." +:+ (key +:+ ("." +:+ op_fieldName operand)))
    | None =>
        w ← appendField (methodName query) start (gm_lookupField spec) (gm_lookupDBName spec)
              (gm_elementType spec) ("SQL list parameter " +:+ gm_parameterDBName spec);
        mret (w, "item." +:+ gm_lookupField spec)
    end;
  let wrapperName := methodName query +:+ "T" in
  let pointer := EmitParamsStructPointers opts in
  let wrapperType := if pointer then "*" +:+ wrapperName else wrapperName in
  let spec' := {|
    gm_parameterDBName := gm_parameterDBName spec; gm_parameterField := gm_parameterField spec;
    gm_lookupDBName := gm_lookupDBName spec; gm_lookupField := gm_lookupField spec;
    gm_lookupExpression := lookupExpression; gm_elementType := gm_elementType spec;
    gm_resultKeyField := gm_resultKeyField spec; gm_resultIsStruct := gm_resultIsStruct spec;
    gm_resultKeyAccess := gm_resultKeyAccess spec;
    gm_itemIsPointer := if pointer then true else gm_itemIsPointer spec |} in
  ctx ← panic_if_none (head (params query));
  mret (withShardArgs query route [ctx; MkArgument defaultArgumentName ("[]" +:+ wrapperType)]
          (callArgs query) (MkWrapper wrapperName key (wp_fields w) emptyValue ∅) (Some spec')).

Definition wrapRoutedQueryParameters (queries : list generatedQuery) : result (list generatedQuery) :=
  mapO (fun query =>
    match gq_route query with
    | None => mret query
    | Some route =>
        if bool_decide (gq_shardMode query = shardModeGroupedMany)
        then wrapGroupedManyShardOperands query route
        else wrapShardParameters query route
    end) queries.

Definition aliasSQLCParams (query : generatedQuery) : generatedQuery :=
  match gq_shardArgs query, qv_structType (gq_arg query) with
  | None, Some s =>
      if bool_decide (Queries.store query = "") || negb (qv_emit (gq_arg query)) then query
      else
        let sqlcType := targetName opts (str_name s) in
        let aliasName := methodName query +:+ "T" in
        let replaced :=
          (fun p => MkArgument (arg_name p) (ReplaceAll (arg_typ p) sqlcType aliasName)) <$> storeParams query in
        if bool_decide (replaced = storeParams query) then query
        else {|
          methodName := methodName query; command := command query; kind := kind query;
          gq_arg := gq_arg query; gq_ret := gq_ret query; params := params query; storeParams := replaced;
          callArgs := callArgs query; results := results query; gq_route := gq_route query;
          gq_shardMode := gq_shardMode query; store := Queries.store query;
          gq_storeParamAlias := Some (MkParamAlias aliasName (exportedSQLCType opts sqlcType));
          gq_shardArgs := None; gq_groupedMany := gq_groupedMany query |}
  | _, _ => query
  end.

Definition aliasSQLCParamsForStore (queries : list generatedQuery) : list generatedQuery :=
  aliasSQLCParams <$> queries.

(** *** All queries *)

(** The shard part of a query: its mode, its route and its grouped lookup. *)
Definition shardPart (query : Query) (arg ret : queryValue) (structs : list goStruct)
    (results : list string) (annotation : option routeAnnotation)
    : result (shardMode * option shardRoute * option groupedManySpec) :=
  match annotation with
  | None => mret (shardModeNone, None, None)
  | Some annotation =>
      if bool_decide (ra_name annotation = allShardsRouteName) then
        if bool_decide (ra_operands annotation <> []) then
          Err (Errorf "query %s shard route %q cannot declare operands"
            [AStr (q_name query); AStr allShardsRouteName] [])
        else if oneOf (q_cmd query) [cmdMany; cmdExec; cmdExecRows] then mret (shardModeAll, None, None)
        else
          Err (Errorf "query %s uses shard: all() with unsupported command %s; expected :many, :exec, or :execrows"
            [AStr (q_name query); AStr (q_cmd query)] [])
      else if HasPrefix (q_cmd query) ":batch" then
        Err (Errorf "query %s uses %s and cannot declare shard metadata; grouped routing is supported only for :copyfrom"
          [AStr (q_name query); AStr (q_cmd query)] [])
      else
        groupedMany ←
          (if bool_decide (q_cmd query = cmdMany) then buildGroupedManySpec query arg ret else mret None);
        let mode :=
          match groupedMany with
          | Some _ => shardModeGroupedMany
          | None =>
              if bool_decide (q_cmd query = cmdCopyFrom) then shardModeGroupedCopy else shardModeRouted
          end in
        route ← resolveShardRoute query arg annotation groupedMany structs;
        let route :=
          match groupedMany with Some gm => scalarizeGroupedManyRoute route gm | None => route end in
        if negb (lastResultIsError results) then
          Err (Errorf "query %s cannot be shard-routed because its generated result has no error"
            [AStr (q_name query)] [])
        else mret (mode, Some route, groupedMany)
  end.

Definition contextArgument : argument := MkArgument "ctx" "context.Context".

Definition queryParams (query : Query) (arg : queryValue) : list argument :=
  if bool_decide (q_cmd query = cmdCopyFrom) || HasPrefix (q_cmd query) ":batch" then
    if isEmpty arg then [contextArgument] else [contextArgument; slicePair opts arg]
  else contextArgument :: pairs opts arg.

(** One turn of the loop over sqlc's queries. *)
Definition buildQuery (structs : list goStruct) (imports : importSet) (query : Query)
    : result (importSet * generatedQuery) :=
  arg ← buildQueryArg catalog opts query;
  ret ← buildQueryReturn catalog opts query structs;
  let params := queryParams query arg in
  results ← resultTypes opts query ret;
  let imports := fold_left (fun i r => addImportsForType opts r i) results imports in
  let imports := fold_left (fun i p => addImportsForType opts (arg_typ p) i) params imports in
  '(kind, annotation, store) ← classifyQuery query;
  '(mode, route, groupedMany) ← shardPart query arg ret structs results annotation;
  mret (imports, {|
    methodName := q_name query; command := q_cmd query; kind := kind; gq_arg := arg; gq_ret := ret;
    params := params; storeParams := params; callArgs := argumentNames params; results := results;
    gq_route := route; gq_shardMode := mode; store := store; gq_storeParamAlias := None;
    gq_shardArgs := None; gq_groupedMany := groupedMany |}).

Fixpoint buildEach (structs : list goStruct) (imports : importSet) (queries : list Query)
    : result (importSet * list generatedQuery) :=
  match queries with
  | [] => mret (imports, [])
  | query :: queries =>
      if bool_decide (q_name query = "") || bool_decide (q_cmd query = "") then
        buildEach structs imports queries
      else
        '(imports, q) ← buildQuery structs imports query;
        '(imports, qs) ← buildEach structs imports queries;
        mret (imports, q :: qs)
  end.

Definition buildQueries `{!GoSort} (structs : list goStruct) (imports : importSet) (queries : list Query)
    : result (importSet * list generatedQuery) :=
  '(imports, out) ← buildEach structs imports queries;
  out ← wrapRoutedQueryParameters out;
  let out := aliasSQLCParamsForStore out in
  mret (imports, sortSlice (fun a b => strLess (methodName a) (methodName b)) out).

(** The imports of the types in a query's route and wrapper. *)
Definition routeTypes (query : generatedQuery) : list string :=
  (match gq_route query with Some r => op_typ <$> rt_operands r | None => [] end ++
   match gq_shardArgs query with Some w => fld_typ <$> wr_fields w | None => [] end)%list.

Definition querySpecs `{!GoSort} (queries : list Query) : result (list generatedQuery * importSet) :=
  structs ← buildStructs catalog opts Singular;
  '(imports, out) ← buildQueries structs newImportSet queries;
  mret (out, fold_left (fun i typ => addImportsForType opts typ i) (out ≫= routeTypes) imports).

End Routes.

(** ** Wrapped parameters cover the query's parameters *)

Section Wrapping.
Context `{UT : !UnicodeTables} (opts : options).

(** Where the value of a SQL parameter field comes from. *)
Definition fieldSource (route : shardRoute) (field : goField) : string :=
  match routeOperandByDBName route (fld_dbName field) with
  | Some operand => "arg." +:+ (rt_methodName route +:+ ("." +:+ op_fieldName operand))
  | None => "arg." +:+ fld_name field
  end.

(** The fields the shard key does not provide, as the wrapper declares them. *)
Definition ownFields (route : shardRoute) (fields : list goField) : list goField :=
  (fun f => MkField (fld_name f) (fld_dbName f) (fld_typ f) None) <$>
  filter (fun f => routeOperandByDBName route (fld_dbName f) = None) fields.

Lemma ownFields_cons route f fields :
  ownFields route (f :: fields) =
    match routeOperandByDBName route (fld_dbName f) with
    | Some _ => ownFields route fields
    | None => MkField (fld_name f) (fld_dbName f) (fld_typ f) None :: ownFields route fields
    end.
Proof.
  unfold ownFields. destruct (routeOperandByDBName route (fld_dbName f)) eqn:E.
  - rewrite filter_cons_False; [done|]. by rewrite E.
  - by rewrite filter_cons_True.
Qed.

Lemma wrapFields_ok qn route w fields :
  NoDup (fld_name <$> ownFields route fields) ->
  (forall f, f ∈ ownFields route fields -> wp_used w !! fld_name f = None) ->
  exists w', wrapFields qn route w fields = Ok (w', fieldSource route <$> fields) /\
    wp_fields w' = (wp_fields w ++ ownFields route fields)%list.
Proof.
  revert w. induction fields as [|f fields IH]; intros w Hnd Hfree.
  { exists w. split; [done|]. by rewrite app_nil_r. }
  rewrite ownFields_cons in Hnd, Hfree |- *. cbn [wrapFields fmap list_fmap]. unfold wrapField, fieldSource at 1.
  destruct (routeOperandByDBName route (fld_dbName f)) as [o|] eqn:E.
  - destruct (IH w Hnd Hfree) as (w' & Hw & Hf). exists w'.
    cbn [mbind outcome_bind mret outcome_ret]. by rewrite Hw.
  - cbn [fmap list_fmap fld_name] in Hnd. apply NoDup_cons in Hnd as [Hnotin Hnd].
    assert (wp_used w !! fld_name f = None) as Hn.
    { apply (Hfree (MkField (fld_name f) (fld_dbName f) (fld_typ f) None)). left. }
    unfold appendField. rewrite Hn. cbn [mbind outcome_bind mret outcome_ret].
    destruct (IH {| wp_fields := (wp_fields w ++ [MkField (fld_name f) (fld_dbName f) (fld_typ f) None])%list;
                    wp_used := <[fld_name f := "SQL parameter " +:+ fld_dbName f]> (wp_used w) |} Hnd)
      as (w' & Hw & Hf).
    + intros f' Hf'. cbn. rewrite lookup_insert_ne; [by apply Hfree; right|]. intros Heq. apply Hnotin.
      rewrite Heq. by apply list_elem_of_fmap_2.
    + exists w'. rewrite Hw. split; [done|]. rewrite Hf. cbn. by rewrite <- app_assoc.
Qed.

Lemma wrapFields_inv qn route w fields w' es :
  wrapFields qn route w fields = Ok (w', es) ->
  NoDup (fld_name <$> ownFields route fields) /\
  (forall f, f ∈ ownFields route fields -> wp_used w !! fld_name f = None).
Proof.
  revert w es. induction fields as [|f fields IH]; intros w es H.
  { split; [constructor|]. by intros f ?%elem_of_nil. }
  rewrite ownFields_cons. cbn [wrapFields] in H. unfold wrapField in H.
  destruct (routeOperandByDBName route (fld_dbName f)) as [o|] eqn:E.
  - cbn [mbind outcome_bind mret outcome_ret] in H.
    destruct (wrapFields qn route w fields) as [[w2 es2]| |] eqn:Ew; [|done..].
    injection H as <- <-. by apply (IH w es2).
  - unfold appendField in H. destruct (wp_used w !! fld_name f) eqn:Hu; [done|].
    cbn [mbind outcome_bind mret outcome_ret] in H.
    match type of H with context [wrapFields qn route ?w1 fields] =>
      destruct (wrapFields qn route w1 fields) as [[w2 es2]| |] eqn:Ew; [|done..] end.
    injection H as <- <-. apply IH in Ew as [Hnd Hfree]. cbn [fmap list_fmap fld_name]. split.
    + constructor; [|done]. intros (f' & Hf' & Hin)%list_elem_of_fmap. specialize (Hfree f' Hin).
      cbn in Hfree. rewrite <- Hf', lookup_insert_eq in Hfree. done.
    + intros f' [->|Hin]%elem_of_cons; [done|]. specialize (Hfree f' Hin). cbn in Hfree.
      by apply lookup_insert_None in Hfree as [? _].
Qed.

(** What wrapping the fields decides, for a struct of SQL parameters. *)
Lemma wrapShardParameters_struct query route ctx rest s :
  params query = ctx :: rest -> qv_structType (gq_arg query) = Some s ->
  match wrapFields (methodName query) route (MkWrapping [] {[ rt_methodName route := "shard key" ]})
          (str_fields s) with
  | Ok (w, es) =>
      exists q t, wrapShardParameters opts query route = Ok q /\
        storeParams q = [ctx; MkArgument defaultArgumentName t] /\
        callArgs q = arg_name ctx :: (if qv_emit (gq_arg query) then ["arg.sqlcParams()"] else es) /\
        exists sw, gq_shardArgs q = Some sw /\ wr_shardKeyType sw = rt_methodName route /\
          wr_fields sw = wp_fields w /\
          (qv_emit (gq_arg query) = true ->
           wr_sqlcFieldExpressions sw = list_to_map (reverse (zip (fld_name <$> str_fields s) es)))
  | _ => is_Ok (wrapShardParameters opts query route) = false
  end.
Proof.
  intros Hps Hs.
  assert (isEmpty (gq_arg query) = false) as Hemp by (unfold isEmpty; rewrite Hs; by rewrite andb_false_r).
  unfold wrapShardParameters. cbn zeta. rewrite Hps, Hemp, Hs.
  destruct (wrapFields _ _ _ _) as [[w es]|e|] eqn:Ew; destruct (qv_emit (gq_arg query)); cbn; rewrite ?Ew;
    try done; do 2 eexists; (split; [reflexivity|]); split_and!; [done..| |done|done|];
    eexists; by split_and!.
Qed.

Lemma start_free key (own : list goField) :
  NoDup (key :: (fld_name <$> own)) <->
  NoDup (fld_name <$> own) /\
  forall f, f ∈ own -> wp_used (MkWrapping [] {[ key := "shard key" ]}) !! fld_name f = None.
Proof.
  rewrite NoDup_cons. cbn. split.
  - intros [Hnotin Hnd]. split; [done|]. intros f Hf. apply lookup_singleton_None. intros Heq.
    apply Hnotin. rewrite Heq. by apply list_elem_of_fmap_2.
  - intros [Hnd Hfree]. split; [|done]. intros (f & Heq & Hf)%list_elem_of_fmap.
    specialize (Hfree f Hf). by apply lookup_singleton_None in Hfree.
Qed.

Lemma expressions_lookup route fields f :
  NoDup (fld_name <$> fields) -> f ∈ fields ->
  (list_to_map (reverse (zip (fld_name <$> fields) (fieldSource route <$> fields))) : gmap string string)
    !! fld_name f = Some (fieldSource route f).
Proof.
  intros Hnd Hf. apply elem_of_list_to_map_1.
  - rewrite reverse_Permutation.
    change (NoDup (zip (fld_name <$> fields) (fieldSource route <$> fields)).*1).
    rewrite fst_zip; [done|]. by rewrite !length_fmap.
  - apply elem_of_reverse. rewrite zip_with_fmap_l, zip_with_fmap_r, zip_with_diag.
    apply list_elem_of_fmap. by exists f.
Qed.

(** C30: Wrapped shard parameters. For a routed query whose SQL parameters form
    a struct, wrapping succeeds exactly when the fields that the shard key does
    not provide have names that differ from each other and from the shard key.
    The wrapper then declares the shard key and exactly those fields, in order,
    and every SQL parameter gets its value from exactly one place: the operand
    of the shard key with its database name when there is one, its own wrapper
    field otherwise. *)
Theorem wrap_shard_parameters_complete query route ctx rest s :
  params query = ctx :: rest -> qv_structType (gq_arg query) = Some s ->
  let own := ownFields route (str_fields s) in
  let wrapped := wrapShardParameters opts query route in
  (is_Ok wrapped = true <-> NoDup (rt_methodName route :: (fld_name <$> own))) /\
  forall query', wrapped = Ok query' ->
    exists w t, gq_shardArgs query' = Some w /\ wr_shardKeyType w = rt_methodName route /\
      wr_fields w = own /\ storeParams query' = [ctx; MkArgument defaultArgumentName t] /\
      callArgs query' = arg_name ctx ::
        (if qv_emit (gq_arg query) then ["arg.sqlcParams()"] else fieldSource route <$> str_fields s) /\
      (qv_emit (gq_arg query) = true -> NoDup (fld_name <$> str_fields s) ->
       forall f, f ∈ str_fields s -> wr_sqlcFieldExpressions w !! fld_name f = Some (fieldSource route f)).
Proof.
  intros Hps Hs own wrapped. pose proof (wrapShardParameters_struct query route ctx rest s Hps Hs) as Hrun.
  pose proof (start_free (rt_methodName route) own) as Hstart. fold wrapped in Hrun. clearbody wrapped.
  set (start := MkWrapping [] {[ rt_methodName route := "shard key" ]}) in *.
  pose proof (wrapFields_ok (methodName query) route start (str_fields s)) as Hok. fold own in Hok.
  destruct (wrapFields (methodName query) route start (str_fields s)) as [[w es]|e|] eqn:Ew.
  - pose proof (wrapFields_inv _ _ _ _ _ _ Ew) as [Hnd Hfree].
    destruct (Hok Hnd Hfree) as (w' & [= <- ->] & Hw'). cbn in Hw'.
    destruct Hrun as (q & t & -> & Hst & Hcall & sw & H1 & H2 & H3 & H4). split.
    + split; [intros _; by apply Hstart|done].
    + intros query' [= <-]. exists sw, t. split_and!; [done|done|by rewrite H3, Hw'|done|done|].
      intros Hemit Hnames f Hf. rewrite (H4 Hemit). by apply expressions_lookup.
  - rewrite Hrun. split; [|intros q ->; done]. split; [done|].
    intros [Hnd Hfree]%Hstart. by destruct (Hok Hnd Hfree) as (w' & ? & _).
  - rewrite Hrun. split; [|intros q ->; done]. split; [done|].
    intros [Hnd Hfree]%Hstart. by destruct (Hok Hnd Hfree) as (w' & ? & _).
Qed.

End Wrapping.

Module WrapSample.
#[local] Existing Instance asciiTables.

Definition tenantField : goField := MkField "TenantID" "tenant_id" "int64" None.
Definition nameField : goField := MkField "Name" "name" "string" None.
Definition userParams : goStruct := MkStruct None "GetUserParams" [tenantField; nameField].
Definition tenantRoute : shardRoute :=
  MkRoute "tenant" "Tenant" "GetUser" [MkOperand "tenantID" "int64" "arg.TenantID" "tenant_id" "TenantID" false].
Definition userArg : queryValue := MkValue true false "arg" "" (Some userParams) "" None.
Definition query : generatedQuery := {|
  methodName := "GetUser"; command := ":one"; kind := queryKindRead; gq_arg := userArg;
  gq_ret := emptyValue; params := [contextArgument; MkArgument "arg" "GetUserParams"];
  storeParams := [contextArgument; MkArgument "arg" "GetUserParams"]; callArgs := ["ctx"; "arg"];
  results := ["User"; "error"]; gq_route := Some tenantRoute; gq_shardMode := shardModeRouted;
  store := "Users"; gq_storeParamAlias := None; gq_shardArgs := None; gq_groupedMany := None |}.

Lemma wrap_shard_parameters_complete_witness :
  is_Ok (wrapShardParameters sampleOptions query tenantRoute) = true /\
  fieldSource tenantRoute tenantField = "arg.Tenant.TenantID" /\
  fieldSource tenantRoute nameField = "arg.Name".
Proof.
  split; [|split; by vm_compute].
  apply (wrap_shard_parameters_complete sampleOptions query tenantRoute contextArgument
    [MkArgument "arg" "GetUserParams"] userParams); [reflexivity..|].
  by apply (bool_decide_unpack _); vm_compute.
Defined.

End WrapSample.
