(* ===== verification/Collect.v ===== *)
(** * Collect: resolver methods, store groups and generated declarations
    (collectShardRoutes and collectStoreGroups of sqlcplugin/query.go,
    declarations.go, and the alias check of aliases.go) *)

From S2P Require Import Prelude Errors GoStrings Unicode Plugin Naming Annotations Imports.
From S2P Require Import PostgresTypes Queries.
From Stdlib Require Import Ascii String.

#[local] Open Scope string_scope.

(** *** Routes *)

Definition operandSignature (o : routeOperand) : string * string * string :=
  (op_dbName o, op_fieldName o, op_typ o).

Definition sameRouteSignature (l r : shardRoute) : bool :=
  bool_decide (operandSignature <$> rt_operands l = operandSignature <$> rt_operands r).

Definition routeSignature (route : shardRoute) : string :=
  "(" +:+ (Join ((fun o => op_fieldName o +:+ (" " +:+ op_typ o)) <$> rt_operands route) ", " +:+ ")").

(** One turn of the loop over queries. *)
Definition addRoute (byName : gmap string shardRoute) (query : generatedQuery) : result (gmap string shardRoute) :=
  match gq_route query with
  | None => mret byName
  | Some route =>
      match byName !! rt_methodName route with
      | Some previous =>
          if bool_decide (rt_name previous <> rt_name route) then
            Err (Errorf "shard routes %s and %s generate the same resolver method %s"
              [AStr (rt_name previous); AStr (rt_name route); AStr (rt_methodName route)] [])
          else if negb (sameRouteSignature previous route) then
            Err (Errorf "shard key %s is inconsistent between queries %s and %s: expected %s, got %s"
              [AStr (rt_methodName route); AStr (rt_queryName previous); AStr (rt_queryName route);
               AStr (routeSignature previous); AStr (routeSignature route)] [])
          else mret byName
      | None => mret (<[rt_methodName route := route]> byName)
      end
  end.

Definition collectShardRoutes `{!GoSort} `{!GoMapOrder} (queries : list generatedQuery) : result (list shardRoute) :=
  byName ← foldO addRoute ∅ queries;
  mret (sortByKey rt_methodName (snd <$> rangeMap byName)).

(** *** Store groups *)

Record storeGroup := MkStoreGroup { sg_name : string; sg_queries : list generatedQuery }.

Definition addToGroup (byName : gmap string (list generatedQuery)) (query : generatedQuery) :=
  if bool_decide (store query = "") then byName
  else <[store query := (default [] (byName !! store query) ++ [query])%list]> byName.

Definition groupQueries `{!GoSort} `{!GoMapOrder} (queries : list generatedQuery) : list storeGroup :=
  sortByKey sg_name
    ((fun '(name, grouped) => MkStoreGroup name grouped) <$> rangeMap (foldl addToGroup ∅ queries)).

(** *** Declarations *)

Definition generatedOptionDeclaration : string := "generated option constructor".
Definition sqlcDeclaration : string := "sqlc declaration".

Definition fixedGeneratedDeclarations (includeSQLC : bool) : gmap string string :=
  let declarations := list_to_map [
    ("QueryOption", "generated query option"); ("ReadFromPrimary", generatedOptionDeclaration);
    ("ShardedOption", "generated sharded option"); ("Singleton", "generated singleton constructor");
    ("SingletonOption", "generated singleton option"); ("StoreOption", "generated store option");
    ("Topology", "generated topology"); ("WithDatabaseName", generatedOptionDeclaration);
    ("WithLogger", generatedOptionDeclaration); ("WithMeterProvider", generatedOptionDeclaration);
    ("WithReadReplicas", generatedOptionDeclaration); ("WithReplicaSet", generatedOptionDeclaration);
    ("WithTracerProvider", generatedOptionDeclaration); ("WithTx", generatedOptionDeclaration);
    ("WithVirtualShardMapping", generatedOptionDeclaration);
    ("WithWriteMirrors", generatedOptionDeclaration)] in
  if includeSQLC then
    <["DBTX" := sqlcDeclaration]> (<["New" := sqlcDeclaration]>
      (<["Queries" := sqlcDeclaration]> (<["Querier" := sqlcDeclaration]> declarations)))
  else declarations.

Definition generatedDeclarations (opts : options) : gmap string string :=
  <[StoreInterfaceName opts := "store interface"]>
  (<[ShardedConstructor opts := "sharded constructor"]>
  (<[ResolverInterfaceName opts := "resolver interface"]>
  (<[ConstructorName opts := "constructor"]>
    (fixedGeneratedDeclarations (bool_decide (InternalImportPath opts = "")))))).

(** Declare a name once; [format] and [args] say who declares it. *)
Definition declare (declarations : gmap string string) (format : string) (args : list arg)
    (name owner : string) : result (gmap string string) :=
  match declarations !! name with
  | Some previous => Err (Errorf format (args ++ [AStr name; AStr previous]) [])
  | None => mret (<[name := owner]> declarations)
  end.

Definition declareRoute (declarations : gmap string string) (query : generatedQuery) : result (gmap string string) :=
  match gq_route query with
  | None => mret declarations
  | Some route =>
      let owner := "shard key for route " +:+ rt_name route in
      match declarations !! rt_methodName route with
      | Some previous =>
          if bool_decide (previous = owner) then mret declarations
          else
            Err (Errorf "shard route %s generates key type %s that conflicts with %s"
              [AStr (rt_name route); AStr (rt_methodName route); AStr previous] [])
      | None => mret (<[rt_methodName route := owner]> declarations)
      end
  end.

Definition groupDeclarations (group : storeGroup) : list string :=
  [sg_name group; storeReaderInterfaceName (sg_name group); storeWriterInterfaceName (sg_name group);
   storeFactoryOptionName (sg_name group)].

Definition declareGroup (declarations : gmap string string) (group : storeGroup) : result (gmap string string) :=
  foldO (fun d name =>
    declare d "store group %s generates declaration %s that conflicts with %s" [AStr (sg_name group)]
      name ("store group " +:+ sg_name group)) declarations (groupDeclarations group).

(** The loop over the methods a copy query adds. *)
Definition checkCopyMethods (queries : list generatedQuery) (query : generatedQuery) : result unit :=
  foldO (fun _ method =>
    match find (fun candidate => bool_decide (methodName candidate = method)) queries with
    | Some candidate =>
        Err (Errorf "copy query %s generates method %s that conflicts with query %s"
          [AStr (methodName query); AStr method; AStr (methodName candidate)] [])
    | None => mret tt
    end) tt [copyAsyncMethodName (methodName query); copyFlushMethodName (methodName query)].

Definition declareQuery (queries : list generatedQuery) (declarations : gmap string string)
    (query : generatedQuery) : result (gmap string string) :=
  let name := methodName query in
  declarations ←
    (if bool_decide (command query = cmdCopyFrom) then
       _ ← checkCopyMethods queries query;
       declare declarations "copy query %s generates declaration %s that conflicts with %s" [AStr name]
         (copyBatchOptionName name) ("copy batch option for " +:+ name)
     else mret declarations);
  declarations ←
    match gq_storeParamAlias query with
    | Some alias =>
        declare declarations "query %s generates store parameter alias %s that conflicts with %s"
          [AStr name] (pa_name alias) ("store parameter alias for " +:+ name)
    | None => mret declarations
    end;
  match gq_shardArgs query with
  | Some w =>
      declare declarations "query %s generates shard parameter wrapper %s that conflicts with %s"
        [AStr name] (wr_name w) ("shard parameter wrapper for " +:+ name)
  | None => mret declarations
  end.

Definition collectStoreGroups `{!GoSort} `{!GoMapOrder} (queries : list generatedQuery) (opts : options)
    : result (list storeGroup) :=
  let groups := groupQueries queries in
  declarations ← foldO declareRoute (generatedDeclarations opts) queries;
  declarations ← foldO declareGroup declarations groups;
  _ ← foldO (declareQuery queries) declarations queries;
  mret groups.

(** *** Copy queries *)

Definition copyQueries (queries : list generatedQuery) : list generatedQuery :=
  filter (fun q => command q = cmdCopyFrom /\ store q <> "") queries.

Definition copyRowType (query : generatedQuery) : string :=
  match params query with
  | _ :: param :: _ => TrimPrefix (arg_typ param) "[]"
  | _ => ""
  end.

Definition hasShardOperations (queries : list generatedQuery) : bool :=
  existsb (fun q => negb (bool_decide (gq_shardMode q = shardModeNone))) queries.

(** *** The check of re-exported sqlc types (aliases.go) *)

(** The names a generated package declares, with what declares them; a later
    declaration of a name replaces an earlier one. *)
Definition declarationMap (opts : options) (queries : list generatedQuery) (groups : list storeGroup) : gmap string string :=
  let declarations :=
    foldl (fun d group => foldl (fun d name => <[name := "store group " +:+ sg_name group]> d) d
      (groupDeclarations group)) (generatedDeclarations opts) groups in
  foldl (fun d query =>
    let d :=
      if bool_decide (command query = cmdCopyFrom)
      then <[copyBatchOptionName (methodName query) := "copy batch option for " +:+ methodName query]> d else d in
    let d :=
      match gq_route query with
      | Some route => <[rt_methodName route := "shard key for route " +:+ rt_name route]> d
      | None => d
      end in
    let d :=
      match gq_storeParamAlias query with
      | Some alias => <[pa_name alias := "store parameter alias for " +:+ methodName query]> d
      | None => d
      end in
    match gq_shardArgs query with
    | Some w => <[wr_name w := "shard parameter wrapper for " +:+ methodName query]> d
    | None => d
    end) declarations queries.

Fixpoint checkAliases (declarations : gmap string string) (aliases : list string) : result unit :=
  match aliases with
  | [] => mret tt
  | alias :: aliases =>
      match declarations !! alias with
      | Some declaration =>
          Err (Errorf "export_sqlc_types cannot alias sqlc type %s because it conflicts with %s"
            [AStr alias; AStr declaration] [])
      | None => checkAliases declarations aliases
      end
  end.

Definition validateSQLCTypeAliases (opts : options) (queries : list generatedQuery) (groups : list storeGroup)
    (aliases : list string) : result unit :=
  match aliases with
  | [] => mret tt
  | _ => checkAliases (declarationMap opts queries groups) aliases
  end.

(** ** Resolver methods *)

Definition routesOf (queries : list generatedQuery) : list shardRoute := omap gq_route queries.

(** Two routes that can share a resolver method. *)
Definition compatible (r1 r2 : shardRoute) : Prop :=
  rt_name r1 = rt_name r2 /\
  operandSignature <$> rt_operands r1 = operandSignature <$> rt_operands r2.

#[export] Instance compatible_equiv : Equivalence compatible.
Proof.
  split.
  - done.
  - intros r1 r2 [H1 H2]. by split.
  - intros r1 r2 r3 [H1 H2] [H3 H4]. by split; etrans.
Qed.

Definition keyed (m : gmap string shardRoute) : Prop := forall k r, m !! k = Some r -> rt_methodName r = k.

Lemma addRoute_compatible m query r :
  gq_route query = Some r ->
  addRoute m query =
    match m !! rt_methodName r with
    | Some previous =>
        if bool_decide (compatible previous r) then Ok m
        else addRoute m query
    | None => Ok (<[rt_methodName r := r]> m)
    end.
Proof.
  intros Hr. unfold addRoute. rewrite Hr. destruct (m !! rt_methodName r) as [p|]; [|done].
  destruct (bool_decide (compatible p r)) eqn:Hc; [|done].
  apply bool_decide_eq_true in Hc as [Hn Hs]. rewrite bool_decide_eq_false_2 by by intros ?. unfold sameRouteSignature.
  by rewrite bool_decide_eq_true_2.
Qed.

Lemma addRoute_Ok m query m' r :
  gq_route query = Some r -> addRoute m query = Ok m' ->
  m' = m /\ (exists p, m !! rt_methodName r = Some p /\ compatible p r) \/
  m' = <[rt_methodName r := r]> m /\ m !! rt_methodName r = None.
Proof.
  intros Hr. unfold addRoute. rewrite Hr. destruct (m !! rt_methodName r) as [p|] eqn:E.
  - case_bool_decide as Hn; [done|]. destruct (sameRouteSignature p r) eqn:Hs; [|done].
    intros [= <-]. left. split; [done|]. exists p. split; [done|]. split.
    + done.
    + by apply bool_decide_eq_true in Hs.
  - intros [= <-]. by right.
Qed.

Lemma addRoutes_Ok m queries m' :
  foldO addRoute m queries = Ok m' -> keyed m ->
  keyed m' /\ m ⊆ m' /\
  (forall k r, m' !! k = Some r -> m !! k = Some r \/ r ∈ routesOf queries) /\
  (forall r, r ∈ routesOf queries -> exists r0, m' !! rt_methodName r = Some r0 /\ compatible r0 r).
Proof.
  revert m. induction queries as [|q queries IH]; intros m H Hk.
  { injection H as <-. split_and!; [done..|by left|]. by intros r ?%elem_of_nil. }
  apply foldO_cons_Ok in H as (m1 & Ha & H). unfold routesOf. cbn [omap list_omap]. fold (routesOf queries).
  destruct (gq_route q) as [r|] eqn:Hr.
  - destruct (addRoute_Ok m q m1 r Hr Ha) as [[-> (p & Hp & Hc)]|[-> Hn]].
    + destruct (IH m H Hk) as (H1 & H2 & H3 & H4). split_and!; [done..| |].
      * intros k r' Hr'. destruct (H3 k r' Hr'); [by left|]. right. by right.
      * intros r' [->|Hin]%elem_of_cons; [|by apply H4]. exists p. split; [|done].
        by eapply lookup_weaken.
    + destruct (IH (<[rt_methodName r := r]> m) H) as (H1 & H2 & H3 & H4).
      { intros k r'. destruct (decide (k = rt_methodName r)) as [->|Hne].
        - rewrite lookup_insert_eq. by intros [= <-].
        - rewrite lookup_insert_ne by done. apply Hk. }
      split_and!; [done| | |].
      * etrans; [|exact H2]. by apply insert_subseteq.
      * intros k r' Hr'. destruct (H3 k r' Hr') as [Hi|Hi]; [|right; by right].
        destruct (decide (k = rt_methodName r)) as [->|Hne].
        -- rewrite lookup_insert_eq in Hi. injection Hi as <-. right. left.
        -- rewrite lookup_insert_ne in Hi by done. by left.
      * intros r' [->|Hin]%elem_of_cons; [|by apply H4]. exists r. split; [|done].
        eapply lookup_weaken; [|exact H2]. by rewrite lookup_insert_eq.
  - unfold addRoute in Ha. rewrite Hr in Ha. injection Ha as <-. by apply IH.
Qed.

Lemma addRoutes_total m queries :
  (forall r1 r2, (r1 ∈ routesOf queries \/ exists k, m !! k = Some r1) -> r2 ∈ routesOf queries ->
     rt_methodName r1 = rt_methodName r2 -> compatible r1 r2) ->
  keyed m -> is_Ok (foldO addRoute m queries) = true.
Proof.
  revert m. induction queries as [|q queries IH]; intros m Hall Hk; [done|]. cbn [foldO].
  unfold routesOf in Hall. cbn [omap list_omap] in Hall. fold (routesOf queries) in Hall.
  destruct (gq_route q) as [r|] eqn:Hr.
  - rewrite (addRoute_compatible m q r Hr). destruct (m !! rt_methodName r) as [p|] eqn:E.
    + rewrite bool_decide_eq_true_2.
      * apply IH; [|done]. intros r1 r2 H1 H2. apply Hall; [|by right].
        destruct H1 as [H1|H1]; [left; by right|by right].
      * apply Hall; [right; by exists (rt_methodName r)|left|by apply Hk].
    + apply IH.
      * intros r1 r2 H1 H2. apply Hall; [|by right]. destruct H1 as [H1|[k H1]]; [left; by right|].
        destruct (decide (k = rt_methodName r)) as [->|Hne].
        -- rewrite lookup_insert_eq in H1. injection H1 as <-. left. left.
        -- rewrite lookup_insert_ne in H1 by done. right. by exists k.
      * intros k r'. destruct (decide (k = rt_methodName r)) as [->|Hne].
        -- rewrite lookup_insert_eq. by intros [= <-].
        -- rewrite lookup_insert_ne by done. apply Hk.
  - unfold addRoute. rewrite Hr. by apply IH.
Qed.

Lemma keyed_values_NoDup m l :
  keyed m -> l ≡ₚ map_to_list m -> NoDup (rt_methodName <$> (snd <$> l)).
Proof.
  intros Hk Hl. rewrite Hl. rewrite <- list_fmap_compose.
  rewrite (list_fmap_ext _ fst); [apply NoDup_fst_map_to_list|].
  intros i [k r] Hi. cbn. apply Hk. by apply elem_of_map_to_list, (list_elem_of_lookup_2 _ i).
Qed.

Lemma keyed_empty : keyed ∅.
Proof. intros k r. by rewrite lookup_empty. Qed.

Lemma collected_routes `{!GoMapOrder} queries m :
  foldO addRoute ∅ queries = Ok m ->
  NoDup (rt_methodName <$> (snd <$> rangeMap m)) /\
  (forall r, r ∈ (snd <$> rangeMap m) -> r ∈ routesOf queries) /\
  (forall r, r ∈ routesOf queries ->
     exists r0, r0 ∈ (snd <$> rangeMap m) /\ rt_methodName r0 = rt_methodName r /\ compatible r0 r).
Proof.
  intros Hfold. destruct (addRoutes_Ok _ _ _ Hfold keyed_empty) as (H1 & _ & H3 & H4). split_and!.
  - by eapply keyed_values_NoDup, rangeMap_perm.
  - intros r ([k r'] & -> & Hin)%list_elem_of_fmap. rewrite rangeMap_perm in Hin.
    apply elem_of_map_to_list in Hin. destruct (H3 k r' Hin) as [He|]; [|done].
    by rewrite lookup_empty in He.
  - intros r Hr. destruct (H4 r Hr) as (r0 & Hl & Hc). exists r0. split_and!; [|by apply H1|done].
    apply list_elem_of_fmap. exists (rt_methodName r, r0). split; [done|].
    rewrite rangeMap_perm. by apply elem_of_map_to_list.
Qed.

Lemma addRoutes_not_Panic m queries : foldO addRoute m queries <> Panic.
Proof.
  apply foldO_not_Panic. intros b q _. unfold addRoute. destruct (gq_route q); [|done].
  destruct (b !! _); [|done]. case_bool_decide; [done|]. by destruct (sameRouteSignature _ _).
Qed.

Lemma addRoutes_accepts queries :
  is_Ok (foldO addRoute ∅ queries) = true <->
  forall r1 r2, r1 ∈ routesOf queries -> r2 ∈ routesOf queries ->
    rt_methodName r1 = rt_methodName r2 -> compatible r1 r2.
Proof.
  split.
  - destruct (foldO addRoute ∅ queries) as [m| |] eqn:E; [|done..]. intros _ r1 r2 H1 H2 Heq.
    destruct (addRoutes_Ok _ _ _ E keyed_empty) as (_ & _ & _ & H4).
    destruct (H4 r1 H1) as (p1 & Hp1 & Hc1), (H4 r2 H2) as (p2 & Hp2 & Hc2).
    rewrite Heq, Hp2 in Hp1. injection Hp1 as ->. etrans; [symmetry; exact Hc1|exact Hc2].
  - intros Hall. apply addRoutes_total; [|apply keyed_empty]. intros r1 r2 [H1|[k H1]]; [by apply Hall|].
    by rewrite lookup_empty in H1.
Qed.

(** C29: Resolver methods. Collecting the shard routes of the queries never
    panics, and fails exactly when two queries use one resolver method for
    routes with different names or operands. Otherwise the result holds one
    route per resolver method, ordered by name, all of them routes of queries;
    every routed query has its method there with its own name and operands; and
    the result does not depend on map iteration or on the sorting algorithm. *)
Theorem collect_shard_routes_correct `{GS : !GoSort} `{MO : !GoMapOrder} queries :
  collectShardRoutes queries <> Panic /\
  (is_Ok (collectShardRoutes queries) = true <->
   forall r1 r2, r1 ∈ routesOf queries -> r2 ∈ routesOf queries ->
     rt_methodName r1 = rt_methodName r2 -> compatible r1 r2) /\
  (forall routes, collectShardRoutes queries = Ok routes ->
     NoDup (rt_methodName <$> routes) /\
     StronglySorted (fun a b => strLess (rt_methodName b) (rt_methodName a) = false) routes /\
     (forall r, r ∈ routes -> r ∈ routesOf queries) /\
     (forall r, r ∈ routesOf queries ->
        exists r0, r0 ∈ routes /\ rt_methodName r0 = rt_methodName r /\ compatible r0 r)) /\
  (forall (GS2 : GoSort) (MO2 : GoMapOrder),
     @collectShardRoutes GS2 MO2 queries = @collectShardRoutes GS MO queries).
Proof.
  unfold collectShardRoutes. pose proof (addRoutes_not_Panic ∅ queries) as Hp.
  pose proof (addRoutes_accepts queries) as Hacc.
  destruct (foldO addRoute ∅ queries) as [m|e|] eqn:E; [|by split_and!|done].
  destruct (collected_routes queries m E) as (H1 & H2 & H3).
  cbn [mbind outcome_bind mret outcome_ret]. split_and!; [done|done| |].
  - intros routes [= <-]. split_and!.
    + by rewrite sortByKey_perm.
    + apply sortByKey_sorted.
    + intros r. rewrite sortByKey_perm. apply H2.
    + intros r Hr. destruct (H3 r Hr) as (r0 & Hin & Hr0). exists r0. split; [|done].
      by rewrite sortByKey_perm.
  - intros GS2 MO2. f_equal. apply (sorted_unique rt_methodName); [apply sortByKey_sorted..| |].
    + rewrite !sortByKey_perm. by rewrite !rangeMap_perm.
    + rewrite sortByKey_perm. by destruct (@collected_routes MO2 queries m E) as (? & _).
Qed.

(** ** Declarations are made once *)

(** [d'] declares exactly [names] more than [d], each of them for the first time. *)
Definition declares (d : gmap string string) (names : list string) (d' : gmap string string) : Prop :=
  NoDup names /\ (forall n, n ∈ names -> d !! n = None) /\
  (forall n, d' !! n = None <-> d !! n = None /\ n ∉ names).

Lemma declares_nil d : declares d [] d.
Proof. split_and!; [constructor|by intros n ?%elem_of_nil|]. intros n. set_solver. Qed.

Lemma declares_app d n1 d1 n2 d2 : declares d n1 d1 -> declares d1 n2 d2 -> declares d (n1 ++ n2) d2.
Proof.
  intros (Hnd1 & Hf1 & Hd1) (Hnd2 & Hf2 & Hd2). split_and!.
  - apply NoDup_app. split_and!; [done| |done]. intros n H1 H2. apply Hf2, Hd1 in H2 as [_ H2]. done.
  - intros n [H|H]%elem_of_app; [by apply Hf1|]. by apply Hf2, Hd1 in H as [? _].
  - intros n. rewrite Hd2, Hd1, not_elem_of_app. tauto.
Qed.

Lemma declare_declares d format args name owner d' :
  declare d format args name owner = Ok d' -> declares d [name] d'.
Proof.
  unfold declare. destruct (d !! name) eqn:E; [done|]. intros [= <-]. split_and!.
  - apply NoDup_singleton.
  - by intros n ->%list_elem_of_singleton.
  - intros n. rewrite lookup_insert_None, not_elem_of_cons. pose proof (not_elem_of_nil n).
    destruct (decide (n = name)); naive_solver.
Qed.

Lemma foldO_declares {A} (f : gmap string string -> A -> result (gmap string string)) (names : A -> list string) l d d' :
  (forall d a d', f d a = Ok d' -> declares d (names a) d') ->
  foldO f d l = Ok d' -> declares d (l ≫= names) d'.
Proof.
  intros Hf. revert d. induction l as [|a l IH]; intros d H.
  { injection H as <-. apply declares_nil. }
  apply foldO_cons_Ok in H as (d1 & H1 & H2). cbn. eapply declares_app; [by apply Hf|by apply IH].
Qed.

Lemma declareGroup_declares d group d' :
  declareGroup d group = Ok d' -> declares d (groupDeclarations group) d'.
Proof.
  intros H. apply (foldO_declares _ (fun n => [n])) in H; [exact H|].
  intros d1 n d2. apply declare_declares.
Qed.

(** The declarations of one query. *)
Definition queryDeclarations (query : generatedQuery) : list string :=
  ((if bool_decide (command query = cmdCopyFrom) then [copyBatchOptionName (methodName query)] else []) ++
   match gq_storeParamAlias query with Some a => [pa_name a] | None => [] end ++
   match gq_shardArgs query with Some w => [wr_name w] | None => [] end)%list.

Definition freeMethod (queries : list generatedQuery) (method : string) : Prop :=
  forall q, q ∈ queries -> methodName q <> method.

Lemma find_free queries method :
  find (fun candidate => bool_decide (methodName candidate = method)) queries = None ->
  freeMethod queries method.
Proof.
  intros H q Hq Heq. eapply find_none in H; [|by apply list_elem_of_In].
  by apply bool_decide_eq_false in H.
Qed.

Lemma checkCopyMethods_free queries query :
  checkCopyMethods queries query = Ok tt ->
  freeMethod queries (copyAsyncMethodName (methodName query)) /\
  freeMethod queries (copyFlushMethodName (methodName query)).
Proof.
  unfold checkCopyMethods. cbn [foldO mbind outcome_bind mret outcome_ret].
  destruct (find (fun c => bool_decide (methodName c = copyAsyncMethodName (methodName query))) queries) eqn:E1; [done|].
  destruct (find (fun c => bool_decide (methodName c = copyFlushMethodName (methodName query))) queries) eqn:E2; [done|].
  intros _. split; by apply find_free.
Qed.

Lemma declareQuery_declares queries d query d' :
  declareQuery queries d query = Ok d' ->
  declares d (queryDeclarations query) d' /\
  (command query = cmdCopyFrom ->
   freeMethod queries (copyAsyncMethodName (methodName query)) /\
   freeMethod queries (copyFlushMethodName (methodName query))).
Proof.
  unfold declareQuery, queryDeclarations. intros H.
  destruct (if bool_decide (command query = cmdCopyFrom) then _ else _) as [d1| |] eqn:E1 in H; [|done..].
  cbn [mbind outcome_bind] in H.
  destruct (match gq_storeParamAlias query with Some _ => _ | None => _ end) as [d2| |] eqn:E2 in H; [|done..].
  cbn [mbind outcome_bind] in H.
  assert (declares d1 (match gq_storeParamAlias query with Some a => [pa_name a] | None => [] end) d2) as H2.
  { destruct (gq_storeParamAlias query); [by eapply declare_declares|]. injection E2 as <-. apply declares_nil. }
  assert (declares d2 (match gq_shardArgs query with Some w => [wr_name w] | None => [] end) d') as H3.
  { destruct (gq_shardArgs query); [by eapply declare_declares|]. injection H as <-. apply declares_nil. }
  pose proof (declares_app _ _ _ _ _ H2 H3) as H23. case_bool_decide as Hcopy.
  - destruct (checkCopyMethods queries query) as [[]| |] eqn:Ec; [|done..]. cbn [mbind outcome_bind] in E1.
    split; [|intros _; by apply checkCopyMethods_free]. eapply declares_app; [|exact H23].
    by eapply declare_declares.
  - injection E1 as <-. split; [|done]. exact H23.
Qed.

Lemma declareQueries_free all queries d d' :
  foldO (declareQuery all) d queries = Ok d' ->
  forall q, q ∈ queries -> command q = cmdCopyFrom ->
    freeMethod all (copyAsyncMethodName (methodName q)) /\
    freeMethod all (copyFlushMethodName (methodName q)).
Proof.
  revert d. induction queries as [|q0 queries IH]; intros d H q Hq Hcopy; [by apply elem_of_nil in Hq|].
  apply foldO_cons_Ok in H as (d1 & Hd & H). apply elem_of_cons in Hq as [->|Hq]; [|by apply (IH d1)].
  apply declareQuery_declares in Hd as [_ Hd]. by apply Hd.
Qed.

(** ** Shard key types *)

Definition routeOwner (route : shardRoute) : string := "shard key for route " +:+ rt_name route.

Lemma generated_not_route opts n route : generatedDeclarations opts !! n <> Some (routeOwner route).
Proof.
  unfold generatedDeclarations.
  repeat (rewrite lookup_insert_Some; intros [[_ H]|[_ H]]; [done|revert H]).
  unfold fixedGeneratedDeclarations, list_to_map. cbn [foldr fst snd]. intros H.
  destruct (bool_decide (InternalImportPath opts = "")); revert H;
    repeat (rewrite lookup_insert_Some; intros [[_ H]|[_ H]]; [done|revert H]);
    by rewrite lookup_empty.
Qed.

Lemma declareRoutes_spec d0 queries d :
  (forall n r, d0 !! n <> Some (routeOwner r)) ->
  foldO declareRoute d0 queries = Ok d ->
  (forall r, r ∈ routesOf queries -> d0 !! rt_methodName r = None /\ d !! rt_methodName r = Some (routeOwner r)) /\
  (forall n, d !! n = None <-> d0 !! n = None /\ n ∉ (rt_methodName <$> routesOf queries)).
Proof.
  intros Hd0 H.
  assert (forall d1, (forall n v, d1 !! n = Some v -> d0 !! n = Some v \/ d0 !! n = None /\ exists r, v = routeOwner r) ->
    (forall n, d1 !! n = None -> d0 !! n = None) -> foldO declareRoute d1 queries = Ok d ->
    (forall n v, d1 !! n = Some v -> d !! n = Some v) /\
    (forall r, r ∈ routesOf queries -> d0 !! rt_methodName r = None /\ d !! rt_methodName r = Some (routeOwner r)) /\
    (forall n, d !! n = None <-> d1 !! n = None /\ n ∉ (rt_methodName <$> routesOf queries))) as Hgen.
  2:{ apply Hgen in H; [tauto| |done]. intros n v Hn. by left. }
  clear H. induction queries as [|q queries IH]; intros d1 Hv Hn H.
  { injection H as <-. split_and!; [done|by intros r ?%elem_of_nil|]. intros n. cbn. pose proof (not_elem_of_nil n). tauto. }
  apply foldO_cons_Ok in H as (d2 & H1 & H2). unfold routesOf. cbn [omap list_omap]. fold (routesOf queries).
  unfold declareRoute in H1. destruct (gq_route q) as [r|]; [|injection H1 as <-; by apply IH].
  fold (routeOwner r) in H1. destruct (d1 !! rt_methodName r) as [p|] eqn:E.
  - case_bool_decide as Hp; [|done]. injection H1 as <-. subst p.
    destruct (IH d1 Hv Hn H2) as (I1 & I2 & I3). split_and!; [done| |].
    + intros r' [->|Hin]%elem_of_cons; [|by apply I2]. split; [|by apply I1].
      destruct (Hv _ _ E) as [He|[He _]]; [by apply Hd0 in He|done].
    + intros n. rewrite I3. cbn. rewrite not_elem_of_cons. split; [|naive_solver].
      intros [Hn1 Hn2]. split_and!; [done| |done]. intros ->. by rewrite E in Hn1.
  - injection H1 as <-. destruct (IH (<[rt_methodName r := routeOwner r]> d1)) as (I1 & I2 & I3); [| |done|].
    + intros n v Hnv. apply lookup_insert_Some in Hnv as [[<- <-]|[_ Hnv]]; [|by apply Hv].
      right. split; [by apply Hn|by exists r].
    + intros n Hnn. apply lookup_insert_None in Hnn as [Hnn _]. by apply Hn.
    + split_and!.
      * intros n v Hnv. apply I1. rewrite lookup_insert_ne; [done|]. intros <-. by rewrite E in Hnv.
      * intros r' [->|Hin]%elem_of_cons; [|by apply I2]. split; [by apply Hn|].
        apply I1. by rewrite lookup_insert_eq.
      * intros n. rewrite I3, lookup_insert_None. cbn. rewrite not_elem_of_cons. naive_solver.
Qed.

(** ** Groups partition the queries *)

Definition queriesOf (name : string) (queries : list generatedQuery) : list generatedQuery :=
  filter (fun q => store q = name) queries.

Lemma addToGroup_lookup m queries name :
  name <> "" ->
  foldl addToGroup m queries !! name =
    match queriesOf name queries with
    | [] => m !! name
    | _ => Some (default [] (m !! name) ++ queriesOf name queries)%list
    end.
Proof.
  intros Hname. revert m. induction queries as [|q queries IH]; intros m; [done|].
  cbn [foldl]. rewrite IH. clear IH. unfold addToGroup.
  destruct (decide (store q = name)) as [Heq|Hne].
  - rewrite bool_decide_eq_false_2 by by rewrite Heq.
    unfold queriesOf. rewrite filter_cons_True by done. rewrite Heq, lookup_insert_eq.
    cbn [default]. destruct (filter _ queries); cbn; [done|]. by rewrite <- app_assoc.
  - assert (queriesOf name (q :: queries) = queriesOf name queries) as ->
      by (unfold queriesOf; by rewrite filter_cons_False).
    case_bool_decide; [done|]. by rewrite lookup_insert_ne.
Qed.

Lemma addToGroup_empty m queries : foldl addToGroup m queries !! "" = m !! "".
Proof.
  revert m. induction queries as [|q queries IH]; intros m; [done|]. cbn [foldl]. rewrite IH.
  unfold addToGroup. case_bool_decide; [done|]. by rewrite lookup_insert_ne.
Qed.

Lemma groupQueries_spec `{!GoSort} `{!GoMapOrder} queries :
  NoDup (sg_name <$> groupQueries queries) /\
  StronglySorted (fun a b => strLess (sg_name b) (sg_name a) = false) (groupQueries queries) /\
  (forall g, g ∈ groupQueries queries ->
     sg_name g <> "" /\ sg_queries g = queriesOf (sg_name g) queries /\ sg_queries g <> []) /\
  (forall q, q ∈ queries -> store q <> "" -> store q ∈ (sg_name <$> groupQueries queries)).
Proof.
  set (m := foldl addToGroup ∅ queries).
  assert (forall g, g ∈ groupQueries queries <-> m !! sg_name g = Some (sg_queries g)) as Hin.
  { intros g. unfold groupQueries. rewrite sortByKey_perm, list_elem_of_fmap. fold m. split.
    - intros ([n l] & -> & Hin). rewrite rangeMap_perm in Hin. by apply elem_of_map_to_list in Hin.
    - intros Hl. exists (sg_name g, sg_queries g). split; [by destruct g|].
      rewrite rangeMap_perm. by apply elem_of_map_to_list. }
  split_and!.
  - unfold groupQueries. rewrite sortByKey_perm. rewrite <- list_fmap_compose. fold m.
    rewrite rangeMap_perm. rewrite (list_fmap_ext _ fst); [apply NoDup_fst_map_to_list|].
    by intros i [n l] _.
  - apply sortByKey_sorted.
  - intros g Hg%Hin. destruct (decide (sg_name g = "")) as [He|Hne].
    + rewrite He in Hg. unfold m in Hg. by rewrite addToGroup_empty, lookup_empty in Hg.
    + split; [done|]. unfold m in Hg. rewrite addToGroup_lookup, lookup_empty in Hg by done. cbn in Hg.
      destruct (queriesOf (sg_name g) queries); [done|]. by injection Hg as <-.
  - intros q Hq Hne. apply list_elem_of_fmap.
    exists (MkStoreGroup (store q) (queriesOf (store q) queries)). split; [done|]. apply Hin. cbn.
    unfold m. rewrite addToGroup_lookup, lookup_empty by done. cbn.
    assert (q ∈ queriesOf (store q) queries) as Hqq by by apply list_elem_of_filter.
    destruct (queriesOf (store q) queries); [by apply elem_of_nil in Hqq|done].
Qed.

(** What the accepted groups are and declare. *)
Lemma storeGroups_spec `{GS : !GoSort} `{MO : !GoMapOrder} queries opts groups :
  collectStoreGroups queries opts = Ok groups ->
  let names := ((groups ≫= groupDeclarations) ++ (queries ≫= queryDeclarations))%list in
  let keys := rt_methodName <$> routesOf queries in
  NoDup names /\
  (forall n, n ∈ names -> generatedDeclarations opts !! n = None /\ n ∉ keys) /\
  (forall n, n ∈ keys -> generatedDeclarations opts !! n = None) /\
  (forall r1 r2, r1 ∈ routesOf queries -> r2 ∈ routesOf queries ->
     rt_methodName r1 = rt_methodName r2 -> rt_name r1 = rt_name r2) /\
  (forall q, q ∈ queries -> command q = cmdCopyFrom ->
     freeMethod queries (copyAsyncMethodName (methodName q)) /\
     freeMethod queries (copyFlushMethodName (methodName q))) /\
  NoDup (sg_name <$> groups) /\
  StronglySorted (fun a b => strLess (sg_name b) (sg_name a) = false) groups /\
  (forall g, g ∈ groups -> sg_queries g = queriesOf (sg_name g) queries /\ sg_queries g <> []) /\
  (forall q, q ∈ queries -> store q <> "" -> store q ∈ (sg_name <$> groups)).
Proof.
  intros H names keys. unfold collectStoreGroups in H. cbn zeta in H.
  destruct (foldO declareRoute (generatedDeclarations opts) queries) as [d1| |] eqn:E1; [|done..].
  cbn [mbind outcome_bind] in H.
  destruct (foldO declareGroup d1 (groupQueries queries)) as [d2| |] eqn:E2; [|done..].
  cbn [mbind outcome_bind] in H.
  destruct (foldO (declareQuery queries) d2 queries) as [d3| |] eqn:E3; [|done..].
  injection H as <-.
  destruct (declareRoutes_spec _ _ _ (generated_not_route opts) E1) as [HR1 HR2].
  pose proof (foldO_declares _ groupDeclarations _ _ _ declareGroup_declares E2) as HG.
  assert (declares d2 (queries ≫= queryDeclarations) d3) as HQ.
  { eapply (foldO_declares (declareQuery queries)); [|exact E3]. intros d q d' Hq.
    by apply declareQuery_declares in Hq as [? _]. }
  destruct (declares_app _ _ _ _ _ HG HQ) as (Hnd & Hfree & _).
  destruct (groupQueries_spec queries) as (G1 & G2 & G3 & G4).
  split_and!; [done| | | | |done|done| |done].
  - intros n Hn. by apply Hfree, HR2 in Hn.
  - intros n (r & -> & Hr)%list_elem_of_fmap. by apply HR1 in Hr as [? _].
  - intros r1 r2 H1 H2 Heq. apply HR1 in H1 as [_ H1]. apply HR1 in H2 as [_ H2].
    rewrite Heq, H2 in H1. injection H1 as H1. exact (eq_sym H1).
  - intros q Hq Hcopy. by apply (declareQueries_free queries queries d2 d3 E3).
  - intros g Hg. by apply G3 in Hg as (_ & ? & ?).
Qed.

(** C28: Store groups. When the store groups are accepted, the names that are
    checked are declared once: the four names of each group, the constructors of
    batching options, and the aliases and wrappers of parameters are distinct,
    and none of them is a fixed or configured name of the package or the name of
    a shard key type; routes with one key type have one name; and neither method
    added for a copy query is the method of a query. The groups are named by the
    stores of the queries, ordered by name, and hold exactly their queries in
    order. Two kinds of names are not checked, and the claim does not speak of
    them: the methods added for two copy queries against each other
    ([copy_methods_collide]), and the types of batch states, two of which can
    have one name when a query's name starts with a lower-case letter. *)
Theorem store_groups_correct `{GS : !GoSort} `{MO : !GoMapOrder} queries opts groups :
  collectStoreGroups queries opts = Ok groups ->
  let names := ((groups ≫= groupDeclarations) ++ (queries ≫= queryDeclarations))%list in
  let keys := rt_methodName <$> routesOf queries in
  NoDup names /\
  (forall n, n ∈ names -> generatedDeclarations opts !! n = None /\ n ∉ keys) /\
  (forall n, n ∈ keys -> generatedDeclarations opts !! n = None) /\
  (forall r1 r2, r1 ∈ routesOf queries -> r2 ∈ routesOf queries ->
     rt_methodName r1 = rt_methodName r2 -> rt_name r1 = rt_name r2) /\
  (forall q, q ∈ queries -> command q = cmdCopyFrom ->
     freeMethod queries (copyAsyncMethodName (methodName q)) /\
     freeMethod queries (copyFlushMethodName (methodName q))) /\
  NoDup (sg_name <$> groups) /\
  StronglySorted (fun a b => strLess (sg_name b) (sg_name a) = false) groups /\
  (forall g, g ∈ groups -> sg_queries g = queriesOf (sg_name g) queries /\ sg_queries g <> []) /\
  (forall q, q ∈ queries -> store q <> "" -> store q ∈ (sg_name <$> groups)).
Proof. apply storeGroups_spec. Qed.

(** ** Witnesses *)

Module CollectSample.
#[local] Existing Instance insertionGoSort.
#[local] Existing Instance listMapOrder.

Definition routed (name cmd group : string) (route : option shardRoute) : generatedQuery := {|
  methodName := name; command := cmd; kind := queryKindWrite; gq_arg := emptyValue; gq_ret := emptyValue;
  params := []; storeParams := []; callArgs := []; results := ["error"]; gq_route := route;
  gq_shardMode := match route with Some _ => shardModeRouted | None => shardModeNone end;
  store := group; gq_storeParamAlias := None;
  gq_shardArgs :=
    match route with
    | Some r => Some (MkWrapper (name +:+ "T") (rt_methodName r) [] emptyValue ∅)
    | None => None
    end;
  gq_groupedMany := None |}.

Definition tenant (query : string) : shardRoute :=
  MkRoute "tenant" "Tenant" query [MkOperand "tenantID" "int64" "" "tenant_id" "TenantID" false].

Definition queries : list generatedQuery :=
  [routed "AddUser" ":exec" "Users" (Some (tenant "AddUser"));
   routed "CopyEvents" ":copyfrom" "Events" (Some (tenant "CopyEvents"));
   routed "DropUser" ":exec" "Users" (Some (tenant "DropUser"))].

Definition groups : list storeGroup :=
  [MkStoreGroup "Events" (queriesOf "Events" queries); MkStoreGroup "Users" (queriesOf "Users" queries)].

Lemma store_groups_correct_witness :
  collectStoreGroups queries sampleOptions = Ok groups /\
  NoDup ((groups ≫= groupDeclarations) ++ (queries ≫= queryDeclarations))%list.
Proof.
  assert (collectStoreGroups queries sampleOptions = Ok groups) as H by by vm_compute.
  split; [exact H|]. exact (proj1 (store_groups_correct queries sampleOptions groups H)).
Defined.

(** A collision that is not found. Two copy queries named [FlushUsers] and
    [UsersAsync] both make the generator add a method [FlushUsersAsync], the
    asynchronous copy of the first and the flush of the second. The check of
    copy methods compares only with the queries' own names, so the groups are
    accepted although the generated store declares the method twice. *)
Theorem copy_methods_collide :
  let queries := [routed "FlushUsers" ":copyfrom" "Users" None; routed "UsersAsync" ":copyfrom" "Users" None] in
  copyAsyncMethodName "FlushUsers" = copyFlushMethodName "UsersAsync" /\
  is_Ok (collectStoreGroups queries sampleOptions) = true.
Proof. split; by vm_compute. Qed.

End CollectSample.
