(* ===== verification/Options.v ===== *)
(** * Options: the options of the generator (sqlcplugin/options.go)

    [parseOptions] decodes the plugin options, fills in the defaults, checks
    them and parses the overrides. encoding/json is not part of the
    repository: the argument [Decode] is what its decoder makes of the bytes,
    an error or the options with whether the input ended after them. The
    theorems say exactly which options are accepted, and that accepted options
    give every import one name and every name one import. *)

From S2P Require Import Prelude Errors GoStrings Unicode GoFormat Plugin Naming Imports PostgresTypes Collect.
From Stdlib Require Import Ascii String.

#[local] Open Scope string_scope.
#[local] Open Scope Z_scope.

Definition defaultOutputFileName : string := "store_querier.go".
Definition defaultPackageName : string := "db".
Definition defaultSQLPackage : string := "pgx/v5".
Definition defaultStoreNew : string := "NewStore".
Definition defaultStoreInterface : string := "Store".
Definition defaultRuntimePackage : string := "github.com/sundayfun/pgmesh".
Definition defaultResolver : string := "ShardResolver".
Definition defaultShardedNew : string := "Sharded".

Section Options.
Context `{UT : !UnicodeTables}.

(** *** Defaults *)

Definition outputPackageName (req : GenerateRequest) : string :=
  if bool_decide (req_codegen_out req <> "") then
    let name := Base (req_codegen_out req) in
    if validRouteIdentifier name && negb (goKeywords name) then name else defaultPackageName
  else defaultPackageName.

Definition applyDefaults (req : GenerateRequest) (opts : options) : options := {|
  OutputFileName := orElse (OutputFileName opts) defaultOutputFileName;
  PackageName := orElse (PackageName opts) (outputPackageName req);
  InternalImportPath := InternalImportPath opts;
  InternalImportAlias := InternalImportAlias opts;
  ExportSQLCTypes := ExportSQLCTypes opts;
  ConstructorName := orElse (ConstructorName opts) defaultStoreNew;
  IgnoreMirrorError := IgnoreMirrorError opts;
  StoreInterfaceName := orElse (StoreInterfaceName opts) defaultStoreInterface;
  RuntimeImportPath := orElse (RuntimeImportPath opts) defaultRuntimePackage;
  ResolverInterfaceName := orElse (ResolverInterfaceName opts) defaultResolver;
  ShardedConstructor := orElse (ShardedConstructor opts) defaultShardedNew;
  SQLPackage := orElse (SQLPackage opts) defaultSQLPackage;
  QueryParameterLimit := Some (default 1 (QueryParameterLimit opts));
  EmitParamsStructPointers := EmitParamsStructPointers opts;
  EmitResultStructPointers := EmitResultStructPointers opts;
  EmitPointersForNullTypes := EmitPointersForNullTypes opts;
  EmitPointersForNullEnumType := EmitPointersForNullEnumType opts;
  EmitExactTableNames := EmitExactTableNames opts;
  EmitJSONTags := EmitJSONTags opts;
  Rename := Rename opts;
  Overrides := Overrides opts |}.

(** *** Validation *)

Definition validOutputFileName (name : string) : bool :=
  negb (bool_decide (Base name <> name) || (hasByte "/" name || hasByte "\" name) ||
        bool_decide (name = ".") || bool_decide (name = "..") ||
        bool_decide (Ext name <> ".go") || HasPrefix name "." || HasPrefix name "_" ||
        HasSuffix name "_test.go").

(** The imports every generated file may have: a qualifier and its path. *)
Definition fixedImports (opts : options) : list (string * string) :=
  [(defaultContext, defaultContext); (defaultErrorsPackage, defaultErrorsPackage);
   (defaultFMT, defaultFMT); (defaultMetricAlias, defaultMetric);
   (defaultRuntimeAlias, RuntimeImportPath opts); (defaultPGXAlias, defaultPGXPackage);
   (defaultSlogAlias, defaultSlog); (defaultSQLQualifier, defaultDatabaseSQL);
   (defaultTraceAlias, defaultTrace)].

Definition generatedImports (opts : options) : list (string * string) :=
  (fixedImports opts ++
   if bool_decide (InternalImportPath opts <> "")
   then [(internalQualifier opts, InternalImportPath opts)] else [])%list.

Definition validateInternalAlias (opts : options) : result unit :=
  if bool_decide (InternalImportAlias opts = "") then mret tt
  else if bool_decide (InternalImportPath opts = "") then
    Err (ErrorText "internal_import_alias requires internal_import_path")
  else
    _ ← validateIdentifier "internal_import_alias" (InternalImportAlias opts) false;
    if oneOf (InternalImportAlias opts) (fst <$> fixedImports opts) then
      Err (Errorf "internal_import_alias %q conflicts with a generated import"
        [AStr (InternalImportAlias opts)] [])
    else mret tt.

(** One turn of the loop over the generated imports. *)
Definition checkImport (importPaths : gmap string string) (imp : string * string) : result (gmap string string) :=
  let '(qualifier, path) := imp in
  match importPaths !! path with
  | Some previous =>
      if bool_decide (previous <> qualifier) then
        Err (Errorf "generated import alias %q conflicts with %q for path %q"
          [AStr qualifier; AStr previous; AStr path] [])
      else mret (<[path := qualifier]> importPaths)
  | None => mret (<[path := qualifier]> importPaths)
  end.

Definition publicNames (opts : options) : list (string * string) :=
  [("constructor", ConstructorName opts); ("store_interface", StoreInterfaceName opts);
   ("resolver_interface", ResolverInterfaceName opts); ("sharded_constructor", ShardedConstructor opts)].

(** One turn of the loop over the public names. *)
Definition checkPublicName (reservedNames : gmap string string) (seenNames : gmap string string)
    (publicName : string * string) : result (gmap string string) :=
  let '(option, value) := publicName in
  _ ← validateIdentifier option value true;
  match reservedNames !! value with
  | Some _ => Err (Errorf "%s %q conflicts with a generated declaration" [AStr option; AStr value] [])
  | None =>
      match seenNames !! value with
      | Some previous => Err (Errorf "%s %q conflicts with %s" [AStr option; AStr value; AStr previous] [])
      | None => mret (<[value := option]> seenNames)
      end
  end.

(** One turn of the loop over the renames. *)
Definition checkRename (_ : unit) (entry : string * string) : result unit :=
  let '(source, renamed) := entry in
  if bool_decide (source = "") then Err (ErrorText "rename contains an empty SQL identifier")
  else validateIdentifier ("rename[" +:+ (Quote source +:+ "]")) renamed false.

Definition validateOptions `{MO : !GoMapOrder} (opts : options) : result unit :=
  if negb (validOutputFileName (OutputFileName opts)) then
    Err (Errorf "output_file_name %q must be a visible base filename ending in .go and not _test.go"
      [AStr (OutputFileName opts)] [])
  else
    _ ← validateIdentifier "package" (PackageName opts) false;
    _ ← validateImportPath "runtime_import_path" (RuntimeImportPath opts);
    _ ← (if bool_decide (InternalImportPath opts <> "")
         then validateImportPath "internal_import_path" (InternalImportPath opts) else mret tt);
    _ ← validateInternalAlias opts;
    if ExportSQLCTypes opts && bool_decide (InternalImportPath opts = "") then
      Err (ErrorText "export_sqlc_types requires internal_import_path")
    else
      _ ← foldO checkImport ∅ (generatedImports opts);
      _ ← foldO (checkPublicName (fixedGeneratedDeclarations (bool_decide (InternalImportPath opts = ""))))
            ∅ (publicNames opts);
      foldO checkRename tt (rangeMap (Rename opts)).

(** *** Override imports *)

(** The qualifier an override's import is used with. *)
Definition overrideQualifier (o : override) : string :=
  orElse (orElse (ov_importAlias o) (typeQualifier (typeName o))) (packageNameForImport (importPath o)).

Record seenImports := MkSeen { seen : gmap string string; seenPaths : gmap string string }.

Definition seeImport (qualifier path : string) (state : seenImports) : seenImports :=
  MkSeen (<[qualifier := path]> (seen state)) (<[path := qualifier]> (seenPaths state)).

(** One turn of the loop over the overrides. *)
Definition checkOverrideImport `{MO : !GoMapOrder} (reserved : gmap string string)
    (state : seenImports) (entry : nat * override) : result seenImports :=
  let '(index, o) := entry in
  if bool_decide (importPath o = "") then mret state
  else
    let qualifier := overrideQualifier o in
    let accept :=
      match seen state !! qualifier with
      | Some path =>
          if bool_decide (path <> importPath o) then
            Err (Errorf "override %d import alias %q conflicts with override import %q"
              [AInt (Z.of_nat index); AStr qualifier; AStr path] [])
          else mret tt
      | None => mret tt
      end in
    let acceptPath :=
      match seenPaths state !! importPath o with
      | Some previousQualifier =>
          if bool_decide (previousQualifier <> qualifier) then
            Err (Errorf "override %d import %q conflicts with override alias %q"
              [AInt (Z.of_nat index); AStr (importPath o); AStr previousQualifier] [])
          else mret tt
      | None => mret tt
      end in
    _ ← match reserved !! qualifier with
        | Some path =>
            if bool_decide (path <> importPath o) then
              Err (Errorf "override %d import alias %q conflicts with generated import %q"
                [AInt (Z.of_nat index); AStr qualifier; AStr path] [])
            else mret tt
        | None => mret tt
        end;
    _ ← match find (fun '(generatedQualifier, path) =>
                bool_decide (path = importPath o) && bool_decide (generatedQualifier <> qualifier))
              (rangeMap reserved) with
        | Some (generatedQualifier, _) =>
            Err (Errorf "override %d import %q conflicts with generated alias %q"
              [AInt (Z.of_nat index); AStr (importPath o); AStr generatedQualifier] [])
        | None => mret tt
        end;
    _ ← accept;
    _ ← acceptPath;
    mret (seeImport qualifier (importPath o) state).

(** The map literal and the entry for the internal package. *)
Definition reservedImports (opts : options) : gmap string string :=
  let reserved := list_to_map (fixedImports opts) in
  if bool_decide (InternalImportPath opts <> "")
  then <[internalQualifier opts := InternalImportPath opts]> reserved else reserved.

Definition validateOverrideImports `{MO : !GoMapOrder} (opts : options) : result unit :=
  _ ← foldO (checkOverrideImport (reservedImports opts)) (MkSeen ∅ ∅) (imap pair (Overrides opts));
  mret tt.

(** *** Parsing *)

Section Parse.
Context `{MO : !GoMapOrder} (ParseExpr : string -> option astExpr).
Context (Decode : string -> result (options * bool)).

(** The loop that parses the overrides in place. *)
Fixpoint parseOverrides (defaultSchema : string) (idx : nat) (overrides : list override) : result (list override) :=
  match overrides with
  | [] => mret []
  | o :: overrides =>
      match override_parse ParseExpr defaultSchema o with
      | Ok o =>
          rest ← parseOverrides defaultSchema (S idx) overrides;
          mret (o :: rest)
      | Err e => Err (Errorf "parse override %d: %w" [AInt (Z.of_nat idx)] [e])
      | Panic => Panic
      end
  end.

Definition withOverrides (opts : options) (overrides : list override) : options := {|
  OutputFileName := OutputFileName opts; PackageName := PackageName opts;
  InternalImportPath := InternalImportPath opts; InternalImportAlias := InternalImportAlias opts;
  ExportSQLCTypes := ExportSQLCTypes opts; ConstructorName := ConstructorName opts;
  IgnoreMirrorError := IgnoreMirrorError opts; StoreInterfaceName := StoreInterfaceName opts;
  RuntimeImportPath := RuntimeImportPath opts; ResolverInterfaceName := ResolverInterfaceName opts;
  ShardedConstructor := ShardedConstructor opts; SQLPackage := SQLPackage opts;
  QueryParameterLimit := QueryParameterLimit opts;
  EmitParamsStructPointers := EmitParamsStructPointers opts;
  EmitResultStructPointers := EmitResultStructPointers opts;
  EmitPointersForNullTypes := EmitPointersForNullTypes opts;
  EmitPointersForNullEnumType := EmitPointersForNullEnumType opts;
  EmitExactTableNames := EmitExactTableNames opts; EmitJSONTags := EmitJSONTags opts;
  Rename := Rename opts; Overrides := overrides |}.

(** The zero value of the options. *)
Definition zeroOptions : options := {|
  OutputFileName := ""; PackageName := ""; InternalImportPath := ""; InternalImportAlias := "";
  ExportSQLCTypes := false; ConstructorName := ""; IgnoreMirrorError := false;
  StoreInterfaceName := ""; RuntimeImportPath := ""; ResolverInterfaceName := "";
  ShardedConstructor := ""; SQLPackage := ""; QueryParameterLimit := None;
  EmitParamsStructPointers := false; EmitResultStructPointers := false;
  EmitPointersForNullTypes := false; EmitPointersForNullEnumType := None;
  EmitExactTableNames := false; EmitJSONTags := false; Rename := ∅; Overrides := [] |}.

Definition decodeOptions (pluginOptions : string) : result options :=
  if bool_decide (pluginOptions = "") then mret zeroOptions
  else
    match Decode pluginOptions with
    | Ok (opts, atEOF) =>
        if atEOF then mret opts
        else Err (ErrorText "unmarshal plugin options: expected one JSON object")
    | Err e => Err (Errorf "unmarshal plugin options: %w" [] [e])
    | Panic => Panic
    end.

Definition parseOptions (req : GenerateRequest) (pluginOptions : string) : result options :=
  if bool_decide (req_engine req <> "postgresql") then
    Err (Errorf "engine %q is unsupported; pgmesh v1 requires postgresql" [AStr (req_engine req)] [])
  else
    opts ← decodeOptions pluginOptions;
    let opts := applyDefaults req opts in
    if default 0 (QueryParameterLimit opts) <? 0 then
      Err (ErrorText "query_parameter_limit must not be negative")
    else if bool_decide (SQLPackage opts <> defaultSQLPackage) then
      Err (Errorf "sql_package %q is unsupported; pgmesh v1 requires pgx/v5" [AStr (SQLPackage opts)] [])
    else
      _ ← validateOptions opts;
      overrides ← parseOverrides (cat_default_schema (req_catalog req)) 0 (Overrides opts);
      let opts := withOverrides opts overrides in
      _ ← validateOverrideImports opts;
      mret opts.

End Parse.
End Options.

(** ** File names *)

Lemma splitByte_shape c s : exists p ps, splitByte c s = p :: ps.
Proof.
  induction s as [|a s (p & ps & IH)]; cbn; [by eexists _, _|].
  rewrite IH. destruct (Ascii.eqb a c); by eexists _, _.
Qed.

Lemma splitByte_single c s q : splitByte c s = [q] -> s = q.
Proof.
  revert q. induction s as [|a s IH]; intros q; cbn; [by intros [= <-]|].
  destruct (splitByte_shape c s) as (p & ps & E). rewrite E in IH |- *.
  destruct (Ascii.eqb a c); [done|]. intros [= <- ->]. by rewrite (IH p).
Qed.

(** The last part follows the last separator. *)
Lemma splitByte_suffix c s p q ps :
  splitByte c s = p :: q :: ps -> exists stem, s = stem +:+ String c (List.last (q :: ps) "").
Proof.
  revert p q ps. induction s as [|a s IH]; intros p q ps; cbn [splitByte]; [done|].
  destruct (splitByte_shape c s) as (p' & ps' & E). rewrite E in IH |- *.
  destruct (Ascii.eqb_spec a c) as [->|_].
  - intros [= <- <- <-]. destruct ps' as [|q' ps']; [by exists ""; rewrite (splitByte_single _ _ _ E)|].
    destruct (IH p' q' ps' eq_refl) as [stem ->]. exists (String c stem).
    by rewrite app_cons_string.
  - intros [= <- ->]. destruct (IH p' q ps eq_refl) as [stem ->].
    exists (String a stem). by rewrite app_cons_string.
Qed.

Lemma splitByte_app_last c stem t :
  hasByte c t = false ->
  exists p q ps, splitByte c (stem +:+ String c t) = p :: q :: ps /\ List.last (q :: ps) "" = t.
Proof.
  intros Ht. induction stem as [|a stem (p & q & ps & E & Hl)].
  - exists "", t, []. rewrite app_nil_string. cbn. rewrite Ascii.eqb_refl. by rewrite splitByte_none.
  - rewrite app_cons_string. cbn [splitByte]. rewrite E.
    destruct (Ascii.eqb a c); [by exists "", p, (q :: ps)|by eexists _, q, ps].
Qed.

Lemma lastPart_plain s : hasByte "/" s = false -> lastPart s = s.
Proof. intros H. unfold lastPart. by rewrite splitByte_none. Qed.

Lemma trimSlashes_plain s : hasByte "/" s = false -> trimSlashes s = s.
Proof.
  intros H. unfold trimSlashes.
  assert (dropLeadingSlashes (rev (list_ascii_of_string s)) = rev (list_ascii_of_string s)) as ->.
  { destruct (rev (list_ascii_of_string s)) as [|a l] eqn:E; [done|]. cbn.
    destruct (Ascii.eqb_spec a "/") as [->|]; [|done]. exfalso.
    assert ("/"%char ∈ list_ascii_of_string s) as Hin.
    { rewrite <- (rev_involutive (list_ascii_of_string s)), E. cbn. apply elem_of_app. right. left. }
    clear E. induction s as [|b s IH]; cbn in *; [by apply elem_of_nil in Hin|].
    apply orb_false_iff in H as [Hb H]. apply elem_of_cons in Hin as [<-|Hin]; [by cbn in Hb|by apply IH]. }
  by rewrite rev_involutive, string_of_list_ascii_of_string.
Qed.

Lemma Base_plain s : hasByte "/" s = false -> s <> "" -> Base s = s.
Proof.
  intros H Hs. unfold Base. rewrite bool_decide_eq_false_2 by done.
  by rewrite trimSlashes_plain, lastPart_plain, bool_decide_eq_false_2.
Qed.

Lemma Ext_plain s t :
  hasByte "/" s = false -> hasByte "." t = false ->
  Ext s = "." +:+ t <-> exists stem, s = stem +:+ String "." t.
Proof.
  intros H Ht. unfold Ext. rewrite lastPart_plain by done. split.
  - destruct (splitByte "." s) as [|p [|q ps]] eqn:E; [done..|]. intros Hl.
    apply (f_equal (dropBytes 1)) in Hl. change (List.last (q :: ps) "" = t) in Hl.
    apply splitByte_suffix in E as [stem ->]. exists stem. by rewrite Hl.
  - intros [stem ->]. destruct (splitByte_app_last "." stem t Ht) as (p & q & ps & -> & Hl).
    transitivity ("." +:+ List.last (q :: ps) ""); [done|by rewrite Hl].
Qed.

(** ** What is accepted *)

Section Accepted.
Context `{UT : !UnicodeTables}.

(** A visible Go source file that is no test: no separators, no leading dot or
    underscore. *)
Definition goFileName (name : string) : Prop :=
  (exists stem, name = stem +:+ ".go") /\ hasByte "/" name = false /\ hasByte "\" name = false /\
  HasPrefix name "." = false /\ HasPrefix name "_" = false /\ HasSuffix name "_test.go" = false.

Definition identifier (name : string) : Prop := validRouteIdentifier name = true /\ goKeywords name = false.
Definition exportedIdentifier (name : string) : Prop := identifier name /\ IsUpper (firstRune name) = true.

Definition importable (path : string) : Prop :=
  path <> "" /\ TrimSpace path = path /\ hasByte "034" path = false /\ hasByte "\" path = false /\
  Forall (fun r => IsSpace r = false /\ IsControl r = false) (runes path).

(** A qualifier names one path and a path has one qualifier. *)
Definition compatible (l : list (string * string)) (imp : string * string) : Prop :=
  forall imp', imp' ∈ l -> (imp.1 = imp'.1 <-> imp.2 = imp'.2).
Definition oneToOne (l : list (string * string)) : Prop := forall imp, imp ∈ l -> compatible l imp.

Record acceptable (opts : options) : Prop := {
  acc_file : goFileName (OutputFileName opts);
  acc_package : identifier (PackageName opts);
  acc_runtime : importable (RuntimeImportPath opts);
  acc_internal : InternalImportPath opts <> "" -> importable (InternalImportPath opts);
  acc_alias : InternalImportAlias opts <> "" ->
    InternalImportPath opts <> "" /\ identifier (InternalImportAlias opts) /\
    InternalImportAlias opts ∉ (fixedImports opts).*1;
  acc_export : ExportSQLCTypes opts = true -> InternalImportPath opts <> "";
  acc_imports : oneToOne (generatedImports opts);
  acc_exported : Forall exportedIdentifier (publicNames opts).*2;
  acc_distinct : NoDup (publicNames opts).*2;
  acc_unreserved : forall name, name ∈ (publicNames opts).*2 ->
    fixedGeneratedDeclarations (bool_decide (InternalImportPath opts = "")) !! name = None;
  acc_rename : forall source renamed, Rename opts !! source = Some renamed ->
    source <> "" /\ identifier renamed;
}.

Lemma validOutputFileName_spec name : validOutputFileName name = true <-> goFileName name.
Proof.
  unfold validOutputFileName, goFileName. rewrite negb_true_iff, !orb_false_iff, !bool_decide_eq_false. split.
  - intros (((((((HB & Hs & Hb) & H1) & H2) & HE) & Hd) & Hu) & Ht). split_and!; [|done..].
    apply (Ext_plain name "go"); [done..|]. by apply dec_stable in HE.
  - intros (Hstem & Hs & Hb & Hd & Hu & Ht).
    assert (name <> "") by (destruct Hstem as [[|]]; by intros ->).
    split_and!; try done.
    + rewrite Base_plain by done. tauto.
    + by intros ->.
    + by intros ->.
    + apply (Ext_plain name "go") in Hstem; [|done..]. rewrite Hstem. tauto.
Qed.

Lemma validateIdentifier_spec option value exported :
  validateIdentifier option value exported = Ok tt <->
  identifier value /\ (exported = true -> IsUpper (firstRune value) = true).
Proof.
  unfold validateIdentifier, identifier.
  destruct (validRouteIdentifier value), (goKeywords value); cbn; try (split; [done|naive_solver]).
  destruct exported, (IsUpper (firstRune value)); cbn; split; naive_solver.
Qed.

Lemma validateImportPath_spec option path : validateImportPath option path = Ok tt <-> importable path.
Proof.
  unfold validateImportPath, importable.
  match goal with |- context [if ?b then _ else _] => destruct b eqn:E end.
  - split; [done|]. intros (Hne & Htrim & Hq & Hb & Hall).
    rewrite !orb_true_iff, !bool_decide_eq_true in E.
    destruct E as [[[[E|E]|E]|E]|E]; try done; try congruence.
    apply existsb_exists in E as (r & Hr & E). apply list_elem_of_In in Hr.
    rewrite Forall_forall in Hall. destruct (Hall r Hr) as [Hsp Hc]. by rewrite Hsp, Hc in E.
  - split; [|done]. intros _. rewrite !orb_false_iff, !bool_decide_eq_false in E.
    destruct E as ((((H1 & H2) & H3) & H4) & H5). split_and!; [done|by apply dec_stable in H2|done..|].
    apply Forall_forall. intros r Hr. rewrite <- orb_false_iff.
    destruct (IsSpace r || IsControl r) eqn:E; [|done].
    rewrite <- not_true_iff_false in H5. destruct H5. apply existsb_exists.
    exists r. by rewrite <- list_elem_of_In.
Qed.

Lemma checkImport_Ok m q p m' :
  checkImport m (q, p) = Ok m' <-> (forall q', m !! p = Some q' -> q = q') /\ m' = <[p := q]> m.
Proof.
  unfold checkImport. destruct (m !! p) as [previous|].
  - case_bool_decide as E; [split; [done|]; intros [H _]; by destruct E; rewrite (H previous)|].
    subst. cbn. split; [intros [= <-]; naive_solver|by intros [_ ->]].
  - cbn. split; [intros [= <-]; naive_solver|by intros [_ ->]].
Qed.

Lemma checkImports_Ok m l :
  (exists m', foldO checkImport m l = Ok m') <->
  (forall q p q', (q, p) ∈ l -> m !! p = Some q' -> q = q') /\
  (forall q q' p, (q, p) ∈ l -> (q', p) ∈ l -> q = q').
Proof.
  revert m. induction l as [|[q p] l IH]; intros m.
  { split; [|by eexists]. intros _. split; [by intros ??? ?%elem_of_nil|by intros ??? ?%elem_of_nil]. }
  setoid_rewrite foldO_cons_Ok. setoid_rewrite checkImport_Ok. setoid_rewrite elem_of_cons. split.
  - intros (m' & b & [Hm ->] & Hl). destruct (proj1 (IH _) (ex_intro _ m' Hl)) as [Hin Hfun].
    assert (forall q0, (q0, p) ∈ l -> q0 = q) as Hp.
    { intros q0 H0. apply (Hin q0 p q H0). by rewrite lookup_insert_eq. }
    split; [|naive_solver]. intros q0 p0 q' [[= -> ->]|H0] Hq'; [by apply Hm|].
    destruct (decide (p = p0)) as [<-|Hne]; [rewrite (Hp q0 H0); by apply Hm|].
    apply (Hin q0 p0 q' H0). by rewrite lookup_insert_ne.
  - intros [Hin Hfun]. destruct (proj2 (IH (<[p := q]> m))) as [m' Hl].
    + split; [|naive_solver]. intros q0 p0 q' H0.
      destruct (decide (p = p0)) as [<-|Hne]; [rewrite lookup_insert_eq; naive_solver|].
      rewrite lookup_insert_ne by done. naive_solver.
    + exists m', (<[p := q]> m). split; [|done]. split; [|done]. naive_solver.
Qed.

Lemma checkPublicName_Ok reserved m option value m' :
  checkPublicName reserved m (option, value) = Ok m' <->
  exportedIdentifier value /\ reserved !! value = None /\ m !! value = None /\ m' = <[value := option]> m.
Proof.
  unfold checkPublicName, exportedIdentifier.
  pose proof (validateIdentifier_spec option value true) as Hv.
  destruct (validateIdentifier option value true) as [[]| |]; cbn [mbind outcome_bind];
    [|split; [done|]; intros ([? ?] & _); by assert (_ = Ok tt) by (by apply Hv)..].
  destruct (proj1 Hv eq_refl) as [Hid Hup].
  destruct (reserved !! value); [split; [done|by intros (_ & ? & _)]|].
  destruct (m !! value); [split; [done|by intros (_ & _ & ? & _)]|].
  split; [intros [= <-]; split_and!; tauto|by intros (_ & _ & _ & ->)].
Qed.

Lemma checkPublicNames_Ok reserved m l :
  (exists m', foldO (checkPublicName reserved) m l = Ok m') <->
  Forall exportedIdentifier l.*2 /\ NoDup l.*2 /\
  (forall name, name ∈ l.*2 -> reserved !! name = None /\ m !! name = None).
Proof.
  revert m. induction l as [|[option value] l IH]; intros m.
  { split; [|by eexists]. intros _. split_and!; [constructor|constructor|by intros ? ?%elem_of_nil]. }
  setoid_rewrite foldO_cons_Ok. setoid_rewrite checkPublicName_Ok. cbn [fmap list_fmap snd].
  setoid_rewrite elem_of_cons. rewrite Forall_cons, NoDup_cons. split.
  - intros (m' & b & (Hid & Hr & Hm & ->) & Hl).
    destruct (proj1 (IH _) (ex_intro _ m' Hl)) as (Hids & Hnd & Hall).
    split_and!; [done|done| |done|].
    + intros [_ Hn]%Hall. by rewrite lookup_insert_eq in Hn.
    + intros name [->|Hn]; [done|]. destruct (Hall name Hn) as [Hr' Hm']. split; [done|].
      by apply lookup_insert_None in Hm' as [? _].
  - intros ([Hid Hids] & [Hn Hnd] & Hall). destruct (proj2 (IH (<[value := option]> m))) as [m' Hl].
    + split_and!; [done|done|]. intros name Hin. destruct (Hall name (or_intror Hin)) as [Hr' Hm'].
      split; [done|]. rewrite lookup_insert_ne; [done|by intros ->].
    + exists m', (<[value := option]> m). split; [|done]. split_and!; [done|naive_solver|naive_solver|done].
Qed.

Lemma checkRenames_Ok l :
  foldO checkRename tt l = Ok tt <->
  (forall source renamed, (source, renamed) ∈ l -> source <> "" /\ identifier renamed).
Proof.
  induction l as [|[source renamed] l IH]; [by split; [intros _ ?? ?%elem_of_nil|]|].
  rewrite foldO_cons_Ok. setoid_rewrite elem_of_cons. unfold checkRename at 1. split.
  - intros ([] & Hc & Hl). rewrite IH in Hl. case_bool_decide; [done|].
    apply validateIdentifier_spec in Hc as [Hid _]. intros ?? [[= -> ->]|?]; [done|by apply Hl].
  - intros Hall. exists tt. rewrite IH. split; [|intros a b Hin; apply Hall; by right].
    destruct (Hall source renamed) as [Hs Hid]; [by left|]. rewrite bool_decide_eq_false_2 by done.
    by apply validateIdentifier_spec.
Qed.

(** Without an alias of its own the internal package is called [internal]. *)
Lemma generatedImports_qualifiers opts :
  (InternalImportAlias opts <> "" -> InternalImportAlias opts ∉ (fixedImports opts).*1) ->
  NoDup (generatedImports opts).*1.
Proof.
  intros Ha. unfold generatedImports. rewrite fmap_app, NoDup_app. split_and!.
  - apply (bool_decide_unpack _). vm_compute. exact I.
  - intros q Hq. case_bool_decide; [|by intros ?%elem_of_nil]. cbn. intros ->%list_elem_of_singleton.
    revert Hq. unfold internalQualifier. case_bool_decide; [by apply Ha|].
    apply (bool_decide_unpack _). vm_compute. exact I.
  - case_bool_decide; [apply NoDup_singleton|constructor].
Qed.

Lemma NoDup_fst_functional (l : list (string * string)) q p p' :
  NoDup l.*1 -> (q, p) ∈ l -> (q, p') ∈ l -> p = p'.
Proof.
  intros Hnd Hp Hp'. apply elem_of_list_to_map in Hp, Hp'; [|done..]. congruence.
Qed.

Lemma oneToOne_functional l :
  NoDup l.*1 -> oneToOne l <-> (forall q q' p, (q, p) ∈ l -> (q', p) ∈ l -> q = q').
Proof.
  intros Hnd. split; [intros H q q' p Hq Hq'; by apply (H (q, p) Hq (q', p) Hq')|].
  intros H [q p] Hq [q' p'] Hq'; cbn. split; [intros <-; by eapply NoDup_fst_functional|].
  intros <-. by eapply H.
Qed.

Lemma validateInternalAlias_Ok opts :
  validateInternalAlias opts = Ok tt <->
  (InternalImportAlias opts <> "" ->
    InternalImportPath opts <> "" /\ identifier (InternalImportAlias opts) /\
    InternalImportAlias opts ∉ (fixedImports opts).*1).
Proof.
  unfold validateInternalAlias. case_bool_decide; [by split|].
  rewrite guard_Ok, bind_unit_Ok, guard_Ok, validateIdentifier_spec.
  unfold oneOf. rewrite !bool_decide_eq_false. naive_solver.
Qed.

Lemma validateOptions_Ok `{MO : !GoMapOrder} opts : validateOptions opts = Ok tt <-> acceptable opts.
Proof.
  unfold validateOptions.
  rewrite guard_Ok, !bind_unit_Ok, guard_Ok, negb_false_iff, validOutputFileName_spec,
    validateIdentifier_spec, validateImportPath_spec, validateInternalAlias_Ok, andb_false_iff, bool_decide_eq_false.
  rewrite bind_Ok.
  pose proof (generatedImports_qualifiers opts) as Hq.
  pose proof (checkImports_Ok ∅ (generatedImports opts)) as Himp.
  pose proof (checkPublicNames_Ok (fixedGeneratedDeclarations (bool_decide (InternalImportPath opts = "")))
    ∅ (publicNames opts)) as Hnames.
  split.
  - intros (Hf & [Hp _] & Hr & Hi & Ha & He & m1 & Hm1 & Hren).
    apply bind_Ok in Hren as (m2 & Hm2 & Hren). rewrite checkRenames_Ok in Hren.
    destruct (proj1 Himp (ex_intro _ m1 Hm1)) as [_ Hfun].
    destruct (proj1 Hnames (ex_intro _ m2 Hm2)) as (Hids & Hnd & Hfree).
    assert (NoDup (generatedImports opts).*1) as HndQ by (apply Hq; naive_solver).
    constructor; try done.
    + intros Hne. rewrite bool_decide_eq_true_2 in Hi by done. by apply validateImportPath_spec in Hi.
    + intros Hex. destruct He as [He|]; [congruence|done].
    + by apply oneToOne_functional.
    + intros name Hn. by destruct (Hfree name Hn).
    + intros source renamed Hs. apply Hren. by rewrite rangeMap_perm, elem_of_map_to_list.
  - intros [Hf Hp Hr Hi Ha He Himps Hids Hnd Hfree Hren].
    assert (NoDup (generatedImports opts).*1) as HndQ by (apply Hq; naive_solver).
    destruct (proj2 Himp) as [m1 Hm1].
    { split; [by intros ? ? ? _ ?%lookup_empty_Some|]. by apply (oneToOne_functional _ HndQ). }
    destruct (proj2 Hnames) as [m2 Hm2].
    { split_and!; [done..|]. intros name Hn. split; [by apply Hfree|done]. }
    split_and!; try done.
    + destruct (bool_decide_reflect (InternalImportPath opts <> "")); [|done]. apply validateImportPath_spec. by apply Hi.
    + destruct (ExportSQLCTypes opts); [right; by apply He|by left].
    + exists m1. split; [done|]. apply bind_Ok. exists m2. split; [done|]. apply checkRenames_Ok.
      intros source renamed. rewrite rangeMap_perm, elem_of_map_to_list. apply Hren.
Qed.

Lemma validateIdentifier_not_Panic option value exported : validateIdentifier option value exported <> Panic.
Proof. unfold validateIdentifier. repeat case_match; done. Qed.

Lemma validateImportPath_not_Panic option path : validateImportPath option path <> Panic.
Proof. unfold validateImportPath. repeat case_match; done. Qed.

Lemma validateOptions_not_Panic `{MO : !GoMapOrder} opts : validateOptions opts <> Panic.
Proof.
  unfold validateOptions, validateInternalAlias. destruct (negb _); [done|].
  repeat (apply bind_not_Panic;
    [try apply validateIdentifier_not_Panic; try apply validateImportPath_not_Panic|intros ? _]).
  - case_bool_decide; [apply validateImportPath_not_Panic|done].
  - repeat case_bool_decide; try done. apply bind_not_Panic; [apply validateIdentifier_not_Panic|].
    intros _ _. by destruct (oneOf _ _).
  - destruct (_ && _); [done|].
    apply bind_not_Panic; [|intros _ _; apply bind_not_Panic; [|intros _ _]]; apply foldO_not_Panic.
    + intros m [q p] _. unfold checkImport. by repeat case_match.
    + intros m [option value] _. unfold checkPublicName.
      apply bind_not_Panic; [apply validateIdentifier_not_Panic|]. intros _ _. by repeat case_match.
    + intros [] [source renamed] _. unfold checkRename.
      case_bool_decide; [done|]. apply validateIdentifier_not_Panic.
Qed.

(** ** Override imports *)

(** The imports of the overrides, with the qualifiers they are used with. *)
Definition overrideImports (overrides : list override) : list (string * string) :=
  (fun o => (overrideQualifier o, importPath o)) <$> filter (fun o => importPath o <> "") overrides.

Lemma reservedImports_lookup opts q p :
  NoDup (generatedImports opts).*1 -> reservedImports opts !! q = Some p <-> (q, p) ∈ generatedImports opts.
Proof.
  intros Hnd. rewrite elem_of_list_to_map by done.
  enough (reservedImports opts = list_to_map (generatedImports opts)) as -> by done.
  unfold reservedImports, generatedImports in *. case_bool_decide; [|by rewrite app_nil_r].
  rewrite list_to_map_snoc; [done|]. rewrite fmap_app in Hnd. apply NoDup_app in Hnd as (_ & Hd & _).
  intros Hin. apply (Hd _ Hin). left.
Qed.

(** The loop's state holds the imports of the overrides so far. *)
Definition holds (st : seenImports) (l : list (string * string)) : Prop :=
  forall q p, ((q, p) ∈ l <-> seen st !! q = Some p) /\ ((q, p) ∈ l <-> seenPaths st !! p = Some q).

Lemma holds_compatible st l q p :
  holds st l ->
  compatible l (q, p) <->
  (forall p', seen st !! q = Some p' -> p' = p) /\ (forall q', seenPaths st !! p = Some q' -> q' = q).
Proof.
  intros H. unfold compatible. split.
  - intros Hc. split.
    + intros p' Hp. destruct (H q p') as [Hin _]. destruct (Hc (q, p') (proj2 Hin Hp)). cbn in *. symmetry. tauto.
    + intros q' Hq. destruct (H q' p) as [_ Hin]. destruct (Hc (q', p) (proj2 Hin Hq)). cbn in *. symmetry. tauto.
  - intros [H1 H2] [q' p'] Hin; cbn. destruct (H q' p') as [Hs Hp].
    split; intros <-; symmetry; [by apply H1, Hs|by apply H2, Hp].
Qed.

Lemma holds_insert st l q p :
  holds st l -> compatible l (q, p) ->
  holds (seeImport q p st) (l ++ [(q, p)]).
Proof.
  intros H Hc q' p'. rewrite elem_of_app, list_elem_of_singleton. cbn [seeImport seen seenPaths].
  pose proof (Hc (q', p')) as Hc'. cbn in Hc'. rewrite !lookup_insert_Some.
  destruct (H q' p') as [H1 H2]. split; (split; [intros [Hin|[= -> ->]]; [|by left]|]).
  - destruct (decide (q = q')) as [<-|Hne]; [left; split; [done|]; tauto|right; tauto].
  - intros [[<- <-]|[Hne Hs]]; [by right|left; tauto].
  - destruct (decide (p = p')) as [<-|Hne]; [left; split; [done|]; tauto|right; tauto].
  - intros [[<- <-]|[Hne Hs]]; [by right|left; tauto].
Qed.

Lemma compatible_app l k imp : compatible (l ++ k) imp <-> compatible l imp /\ compatible k imp.
Proof. unfold compatible. setoid_rewrite elem_of_app. naive_solver. Qed.

Lemma oneToOne_snoc l imp : oneToOne l -> compatible l imp -> oneToOne (l ++ [imp]).
Proof.
  intros Hl Hc x. rewrite elem_of_app, list_elem_of_singleton, compatible_app. intros [Hx| ->].
  - split; [by apply Hl|]. intros y ->%list_elem_of_singleton. destruct (Hc x Hx). split; intros; symmetry; auto.
  - split; [done|]. by intros y ->%list_elem_of_singleton.
Qed.

Lemma compatible_reserved `{MO : !GoMapOrder} opts q p :
  NoDup (generatedImports opts).*1 ->
  compatible (generatedImports opts) (q, p) <->
  (forall path, reservedImports opts !! q = Some path -> path = p) /\
  find (fun '(generatedQualifier, path) => bool_decide (path = p) && bool_decide (generatedQualifier <> q))
    (rangeMap (reservedImports opts)) = None.
Proof.
  intros Hnd. unfold compatible. split.
  - intros Hc. split.
    + intros path Hp%reservedImports_lookup; [|done]. destruct (Hc _ Hp). cbn in *. symmetry. tauto.
    + destruct (find _ _) as [[q' p']|] eqn:E; [|done]. exfalso.
      apply find_some in E as [Hin E]. apply list_elem_of_In in Hin.
      rewrite rangeMap_perm, elem_of_map_to_list, reservedImports_lookup in Hin by done.
      rewrite andb_true_iff, !bool_decide_eq_true in E. destruct E as [-> Hne]. apply Hne.
      destruct (Hc _ Hin) as [_ H]. symmetry. by apply H.
  - intros [Hq Hf] [q' p'] Hin; cbn. rewrite <- reservedImports_lookup in Hin by done. split.
    + intros <-. symmetry. by apply Hq.
    + intros <-. apply (find_none _ _) with (x := (q', p)) in Hf.
      * rewrite andb_false_iff, !bool_decide_eq_false in Hf. destruct Hf as [Hf|Hf]; [done|].
        symmetry. by apply dec_stable.
      * apply list_elem_of_In. by rewrite rangeMap_perm, elem_of_map_to_list.
Qed.

Lemma checkOverrideImport_Ok `{MO : !GoMapOrder} opts st done index o st' :
  NoDup (generatedImports opts).*1 -> holds st done -> importPath o <> "" ->
  checkOverrideImport (reservedImports opts) st (index, o) = Ok st' <->
  compatible (generatedImports opts ++ done) (overrideQualifier o, importPath o) /\
  st' = seeImport (overrideQualifier o) (importPath o) st.
Proof.
  intros Hnd Hst Hp. unfold checkOverrideImport. rewrite bool_decide_eq_false_2 by done.
  rewrite compatible_app, compatible_reserved, (holds_compatible st done) by done.
  rewrite !bind_unit_Ok. generalize (overrideQualifier o) (importPath o). intros q p.
  assert (forall (m : option string) x e,
    match m with Some y => if bool_decide (y <> x) then Err (e y) else mret tt | None => mret tt end =
      (Ok tt : result unit) <-> (forall y, m = Some y -> y = x)) as Hmatch.
  { intros [y|] x e; [|by split]. destruct (bool_decide_reflect (y <> x)) as [Hne|Heq].
    - split; [done|]. intros H. by destruct (Hne (H y eq_refl)).
    - apply dec_stable in Heq as ->. split; [by intros _ ? [= ->]|done]. }
  rewrite (Hmatch (reservedImports opts !! q) p (fun path => Errorf _ [_; _; AStr path] [])).
  rewrite (Hmatch (seen st !! q) p (fun path => Errorf _ [_; _; AStr path] [])).
  rewrite (Hmatch (seenPaths st !! p) q (fun path => Errorf _ [_; _; AStr path] [])).
  destruct (find _ _) as [[gq path]|]; [split; [by intros (_ & ? & _)|by intros [[[_ ?] _] _]]|].
  unfold mret, outcome_ret. intuition congruence.
Qed.

Lemma checkOverrideImports_Ok `{MO : !GoMapOrder} opts entries st done :
  NoDup (generatedImports opts).*1 -> holds st done -> oneToOne (generatedImports opts ++ done) ->
  (exists st', foldO (checkOverrideImport (reservedImports opts)) st entries = Ok st') <->
  oneToOne (generatedImports opts ++ done ++ overrideImports entries.*2).
Proof.
  intros Hnd. revert st done. induction entries as [|[index o] entries IH]; intros st done Hst H1.
  { cbn. rewrite app_nil_r. by split; [|by eexists]. }
  setoid_rewrite foldO_cons_Ok. unfold overrideImports. cbn [fmap list_fmap snd].
  destruct (decide (importPath o = "")) as [Hp|Hp].
  - rewrite filter_cons_False by (by intros ?). unfold checkOverrideImport at 1.
    rewrite bool_decide_eq_true_2 by done. rewrite <- (IH st done Hst H1).
    split; [intros (st' & st1 & [= <-] & Hl); by exists st'|intros [st' Hl]; by exists st', st].
  - rewrite filter_cons_True by done. cbn [fmap list_fmap].
    setoid_rewrite (checkOverrideImport_Ok opts st done); [|done..].
    rewrite (cons_middle (overrideQualifier o, importPath o) done), (assoc_L app done).
    fold (overrideImports entries.*2). split.
    + intros (st' & st1 & [Hc ->] & Hl).
      apply (IH (seeImport (overrideQualifier o) (importPath o) st) (done ++ [(overrideQualifier o, importPath o)])%list); [| |by exists st'].
      * apply holds_insert; [done|]. by apply compatible_app in Hc as [_ ?].
      * rewrite (assoc_L app). by apply oneToOne_snoc.
    + intros Hall.
      assert (compatible (generatedImports opts ++ done) (overrideQualifier o, importPath o)) as Hc.
      { intros x Hx. apply elem_of_app in Hx. apply (Hall (overrideQualifier o, importPath o));
        rewrite !elem_of_app, ?list_elem_of_singleton; tauto. }
      destruct (proj2 (IH _ (done ++ [(overrideQualifier o, importPath o)])%list
        (holds_insert st done _ _ Hst (proj2 (proj1 (compatible_app _ _ _) Hc)))
        ltac:(rewrite (assoc_L app); by apply oneToOne_snoc))) as [st' Hl]; [done|].
      exists st'. eexists. split; [|exact Hl]. done.
Qed.
End Accepted.

(** ** Claims *)

Section Claims.
Context `{UT : !UnicodeTables} `{MO : !GoMapOrder}.

(** Options are checked exactly. Validation never panics, and it accepts
    the options whose file is a visible Go source that is no test, whose names
    are identifiers (the four public ones exported, distinct and none of the
    names generated code always declares), whose import paths can be written
    in an import, and whose generated imports give every path one name. *)
Theorem validate_options_exact opts :
  (validateOptions opts = Ok tt <-> acceptable opts) /\ validateOptions opts <> Panic.
Proof. split; [apply validateOptions_Ok|apply validateOptions_not_Panic]. Qed.

Lemma validateOverrideImports_Ok opts :
  acceptable opts ->
  validateOverrideImports opts = Ok tt <->
  oneToOne (generatedImports opts ++ overrideImports (Overrides opts)).
Proof.
  intros Hacc. unfold validateOverrideImports.
  assert (NoDup (generatedImports opts).*1) as Hnd.
  { apply generatedImports_qualifiers. intros Ha. by apply (acc_alias opts Hacc). }
  assert (oneToOne (generatedImports opts ++ [])) as H1 by (rewrite app_nil_r; by apply acc_imports).
  assert (holds (MkSeen ∅ ∅) []) as Hh.
  { intros q p. cbn. rewrite !lookup_empty. split; (split; [by intros ?%elem_of_nil|done]). }
  pose proof (checkOverrideImports_Ok opts (imap pair (Overrides opts)) _ _ Hnd Hh H1) as Hiff.
  assert ((imap pair (Overrides opts)).*2 = Overrides opts) as E.
  { rewrite fmap_imap. unfold compose. cbn. apply list_eq. intros i. rewrite list_lookup_imap.
    by destruct (Overrides opts !! i). }
  rewrite E in Hiff. cbn [app] in Hiff. rewrite <- Hiff, bind_Ok. naive_solver.
Qed.

Lemma acceptable_withOverrides opts overrides : acceptable opts -> acceptable (withOverrides opts overrides).
Proof. intros []. by constructor. Qed.

Section Parsed.
Context (ParseExpr : string -> option astExpr) (Decode : string -> result (options * bool)).

Lemma parseOverrides_Ok schema idx overrides parsed :
  parseOverrides ParseExpr schema idx overrides = Ok parsed <->
  Forall2 (fun o o' => override_parse ParseExpr schema o = Ok o') overrides parsed.
Proof.
  revert idx parsed. induction overrides as [|o overrides IH]; intros idx parsed; cbn [parseOverrides].
  { split; [intros [= <-]; constructor|by intros ->%Forall2_nil_inv_l]. }
  destruct (override_parse ParseExpr schema o) as [o'| |] eqn:E.
  - rewrite bind_Ok. setoid_rewrite IH. split.
    + intros (rest & Hrest & [= <-]). by constructor.
    + intros (p & rest & Hp & Hrest & ->)%Forall2_cons_inv_l. exists rest. split; [done|].
      rewrite E in Hp. by injection Hp as <-.
  - split; [done|]. by intros (p & rest & Hp & _)%Forall2_cons_inv_l; rewrite E in Hp.
  - split; [done|]. by intros (p & rest & Hp & _)%Forall2_cons_inv_l; rewrite E in Hp.
Qed.

Lemma compileRunes_not_Panic escaped rs : compileRunes escaped rs <> Panic.
Proof.
  revert escaped. induction rs as [|r rs IH]; intros escaped; cbn [compileRunes]; [by destruct escaped|].
  destruct escaped; [destruct (_ || _); [|done]|destruct (r =? 92); [apply IH|]];
    (apply bind_not_Panic; [apply IH|done]).
Qed.

Lemma checkPatterns_not_Panic column patterns : checkPatterns column patterns <> Panic.
Proof.
  induction patterns as [|p patterns IH]; cbn [checkPatterns]; [done|].
  case_bool_decide; [done|]. pose proof (compileRunes_not_Panic false (runes p)) as Hc.
  unfold compileMatchPattern. by destruct (compileRunes false (runes p)).
Qed.

Lemma override_parse_not_Panic schema o : override_parse ParseExpr schema o <> Panic.
Proof.
  unfold override_parse. destruct (_ && _); [done|]. destruct (_ && _); [done|].
  apply bind_not_Panic; [|intros parsed _; apply bind_not_Panic; [|intros _ _]].
  - unfold goTypeSpec_parse, parseGoTypeSpec. by repeat case_match.
  - unfold validateParsedGoType. case_bool_decide; [done|].
    repeat (apply bind_not_Panic; [|intros ? _]); repeat case_match; try done;
      (apply validateIdentifier_not_Panic || apply validateImportPath_not_Panic).
  - case_bool_decide; [|done]. unfold parseColumn.
    repeat case_match; try done; (apply bind_not_Panic; [apply checkPatterns_not_Panic|done]).
Qed.

Lemma parseOverrides_not_Panic schema idx overrides : parseOverrides ParseExpr schema idx overrides <> Panic.
Proof.
  revert idx. induction overrides as [|o overrides IH]; intros idx; cbn [parseOverrides]; [done|].
  pose proof (override_parse_not_Panic schema o) as Ho.
  destruct (override_parse ParseExpr schema o); [|done..]. by apply bind_not_Panic.
Qed.

Lemma checkOverrideImports_not_Panic reserved st entries :
  foldO (checkOverrideImport reserved) st entries <> Panic.
Proof.
  apply foldO_not_Panic. intros b [index o] _. unfold checkOverrideImport. case_bool_decide; [done|].
  repeat (apply bind_not_Panic; [|intros ? _]); repeat case_match; done.
Qed.

(** The request and the decoded options [raw] are accepted as [opts]. *)
Record parsedAs (req : GenerateRequest) (raw opts : options) : Prop := {
  pa_engine : req_engine req = "postgresql";
  pa_limit : forall limit, QueryParameterLimit raw = Some limit -> 0 <= limit;
  pa_driver : SQLPackage raw = "" \/ SQLPackage raw = defaultSQLPackage;
  pa_acceptable : acceptable (applyDefaults req raw);
  pa_overrides : Forall2 (fun o o' => override_parse ParseExpr (cat_default_schema (req_catalog req)) o = Ok o')
    (Overrides raw) (Overrides opts);
  pa_others : opts = withOverrides (applyDefaults req raw) (Overrides opts);
  pa_imports : oneToOne (generatedImports opts ++ overrideImports (Overrides opts));
}.

Lemma parseOptions_Ok req text opts :
  parseOptions ParseExpr Decode req text = Ok opts <->
  exists raw, decodeOptions Decode text = Ok raw /\ parsedAs req raw opts.
Proof.
  unfold parseOptions. case_bool_decide as He; [by split; [|intros (raw & _ & [])]|].
  rewrite bind_Ok. split.
  - intros (raw & Hraw & Hrest). exists raw. split; [done|].
    rewrite !guard_Ok, bind_unit_Ok, bind_Ok, validateOptions_Ok in Hrest.
    destruct Hrest as (Hlim & Hdrv & Hacc & overrides & Hov & Hrest).
    apply bind_unit_Ok in Hrest as [Himp [= <-]].
    rewrite validateOverrideImports_Ok in Himp by (by apply acceptable_withOverrides).
    constructor; try done; [| |by apply parseOverrides_Ok in Hov].
    + intros limit Hl. cbn in Hlim. rewrite Hl in Hlim. cbn in Hlim. lia.
    + cbn in Hdrv. unfold orElse in Hdrv. rewrite bool_decide_eq_false in Hdrv.
      apply dec_stable in Hdrv. case_bool_decide; [by left|by right].
  - intros (raw & Hraw & Hp). exists raw. split; [done|]. destruct Hp as [_ Hlim Hdrv Hacc Hov Hopts Himp].
    rewrite !guard_Ok, bind_unit_Ok, bind_Ok, validateOptions_Ok. split_and!; [| |done|].
    + cbn. destruct (QueryParameterLimit raw) as [l|]; cbn; [|done]. specialize (Hlim l eq_refl). lia.
    + cbn. unfold orElse. rewrite bool_decide_eq_false. intros Hne. apply Hne.
      case_bool_decide; [done|]. by destruct Hdrv.
    + exists (Overrides opts). rewrite parseOverrides_Ok. split; [done|].
      rewrite <- Hopts, bind_unit_Ok, validateOverrideImports_Ok; [done|].
      rewrite Hopts. by apply acceptable_withOverrides.
Qed.

Lemma parseOptions_not_Panic req text : Decode text <> Panic -> parseOptions ParseExpr Decode req text <> Panic.
Proof.
  unfold parseOptions.
  intros HD. case_bool_decide; [done|]. apply bind_not_Panic.
  - unfold decodeOptions. case_bool_decide; [done|]. by destruct (Decode text) as [[? []]| |].
  - intros raw _. destruct (_ <? 0); [done|]. case_bool_decide; [done|].
    apply bind_not_Panic; [apply validateOptions_not_Panic|intros _ _].
    apply bind_not_Panic; [apply parseOverrides_not_Panic|intros overrides _].
    apply bind_not_Panic; [|done]. apply bind_not_Panic; [apply checkOverrideImports_not_Panic|done].
Qed.

(** C38: Options are parsed exactly. A request is accepted when it is for
    PostgreSQL, its options decode to one object with a limit that is not
    negative and the supported driver, the options with their defaults are
    acceptable, every override parses, and the imports of the overrides
    together with the generated ones give every path one name and every name
    one path. The result is the options with defaults and parsed overrides.
    Nothing panics unless decoding does. *)
Theorem parse_options_exact req text opts :
  (parseOptions ParseExpr Decode req text = Ok opts <->
   exists raw, decodeOptions Decode text = Ok raw /\ parsedAs req raw opts) /\
  (Decode text <> Panic -> parseOptions ParseExpr Decode req text <> Panic).
Proof. split; [apply parseOptions_Ok|apply parseOptions_not_Panic]. Qed.
End Parsed.
End Claims.

Module OptionsSample.
#[local] Existing Instances asciiTables listMapOrder.

Definition noParse (_ : string) : option astExpr := None.
Definition parseSelector (_ : string) : option astExpr := Some (SelectorExpr Ident).
Definition request : GenerateRequest := MkRequest "postgresql" "internal/db" (MkCatalog "public" []) [].

(** Options that set one field, and an override with an import. *)
Definition exporting : options := {|
  OutputFileName := ""; PackageName := ""; InternalImportPath := "example.com/app/sqlc";
  InternalImportAlias := "sqlc"; ExportSQLCTypes := true; ConstructorName := ""; IgnoreMirrorError := false;
  StoreInterfaceName := ""; RuntimeImportPath := ""; ResolverInterfaceName := "";
  ShardedConstructor := ""; SQLPackage := ""; QueryParameterLimit := None;
  EmitParamsStructPointers := false; EmitResultStructPointers := false;
  EmitPointersForNullTypes := false; EmitPointersForNullEnumType := None;
  EmitExactTableNames := false; EmitJSONTags := false; Rename := ∅;
  Overrides := [MkOverride (MkGoType "" "" "" false false "github.com/google/uuid.UUID") "uuid" false false
                  "" "" "" "" "" "" "" ""] |}.

(** The package the request writes to gives its name; the defaults are taken. *)
Example defaults_accepted :
  (fun opts => (PackageName opts, ConstructorName opts)) <$>
    parseOptions noParse (fun _ => Panic) request "" = Ok ("db", "NewStore").
Proof. vm_compute. reflexivity. Qed.

(** Exported types need the internal import; with it the override is parsed. *)
Example override_accepted :
  (fun opts => overrideImports (Overrides opts)) <$>
    parseOptions parseSelector (fun _ => Ok (exporting, true)) request "{}" =
  Ok [("uuid", "github.com/google/uuid")].
Proof. vm_compute. reflexivity. Qed.

End OptionsSample.
