(* ===== verification/Emit.v ===== *)
(** * Emit: writers of interfaces, wrappers and shard types
    (sqlcplugin/emission.go, aliases.go)

    The writers are translated call by call: each definition is the list of
    writes its function makes, with the same formats and operands. Where a
    function indexes or dereferences, its writer is a [result]. Generated
    result names come from [namedResults]; the search behind it always finds
    names. *)

From S2P Require Import Prelude Errors GoStrings Unicode GoFormat Plugin Naming Annotations Imports.
From S2P Require Import Queries Collect.
From Stdlib Require Import Ascii String.

#[local] Open Scope string_scope.
#[local] Open Scope list_scope.

(** *** Constants of plugin.go *)

Definition defaultReadInterface : string := "readQuerier".
Definition defaultWriteInterface : string := "writeQuerier".
Definition defaultStoreType : string := "queryStore".
Definition defaultReadType : string := "readQueries".
Definition defaultWriteType : string := "writeQueries".
Definition defaultReadNew : string := "newReadQueries".
Definition defaultWriteNew : string := "newWriteQueries".
Definition defaultTargetType : string := "Queries".
Definition defaultTargetNew : string := "New".
Definition defaultReceiverName : string := "q".
Definition defaultNodeNew : string := "newStoreNode".
Definition defaultMeshStoreType : string := "meshStore".
Definition defaultGroupType : string := "groupedMeshStore".
Definition generatedHeader : string := "// Code generated by pgmesh. DO NOT EDIT.".
Definition mirrorReceiverName : string := "mirror".
Definition mirrorErrorName : string := "mirrorErr".

(** An operand is a string or an integer. *)
#[local] Coercion AStr : string >-> arg.
#[local] Arguments cons {A} & a l.
#[local] Coercion AInt : Z >-> arg.

Definition isRead (query : generatedQuery) : bool := bool_decide (kind query = queryKindRead).
Definition isWrite (query : generatedQuery) : bool := bool_decide (kind query = queryKindWrite).
Definition isCopy (query : generatedQuery) : bool := bool_decide (command query = cmdCopyFrom).
Definition notEmpty {A} (l : list A) : bool := match l with [] => false | _ => true end.

Definition queryKindConstant (k : queryKind) : string :=
  match k with queryKindWrite => "pgmesh.QueryKindWrite" | queryKindRead => "pgmesh.QueryKindRead" end.

(** [namedResultsSignature] with the receiver and the options reserved. *)
Definition namedResults (ps : list argument) (rs : list string) : string * list string * string :=
  default ("", [], "") (namedResultsSignature ps rs [defaultReceiverName; "storeOptions"]).

Definition exportedSQLCTypes (opts : options) (types : list string) : list string := exportedSQLCType opts <$> types.
Definition exportedSQLCArguments (opts : options) (arguments : list argument) : list argument :=
  (fun a => MkArgument (arg_name a) (exportedSQLCType opts (arg_typ a))) <$> arguments.

Definition writeSQLCTypeAliases (opts : options) (aliases : list string) : buffer :=
  each aliases (fun alias =>
    [Fprintf "// %s re-exports %s from the sqlc package.\n" [alias; alias];
     Fprintf "type %s = %s.%s\n\n" [alias; internalQualifier opts; alias]]).

Definition callArguments (ps : list argument) : string := Join (argumentNames ps) ", ".

Definition resultVariables (count : nat) : list string := (fun idx => "rv" +:+ itoa (Z.of_nat idx)) <$> seq 0 count.
Definition appendResultError (vars : list string) : list string := vars ++ ["err"].
(** The last of a positive number of variables is the error. *)
Definition discardVariables (count : nat) : list string := replicate (count - 1) "_" ++ ["err"].

Section Emit.
Context `{UT : !UnicodeTables}.

Definition writeSplitInterface (name : string) (queries : list generatedQuery) (k : queryKind) : buffer :=
  [Fprintf "// %s exposes generated %s queries.\n" [name; kindString k];
   Fprintf "type %s interface {\n" [name]] ++
  each queries (fun query =>
    (if negb (bool_decide (kind query = k)) then
      []
    else
      [Fprintf "\t// %s executes the generated %s query.\n" [methodName query; methodName query];
       Fprintf "\t%s(%s)%s\n" [methodName query; paramsSignature (params query); resultsSignature (results query)]])) ++
  [WriteString "}\n\n"].

Definition writeQueryInterfaces (opts : options) (queries : list generatedQuery) (groups : list storeGroup) : buffer :=
  writeSplitInterface defaultReadInterface queries queryKindRead ++
  writeSplitInterface defaultWriteInterface queries queryKindWrite ++
  [Fprintf "// %s is the topology-independent generated query API.\n" [StoreInterfaceName opts];
   Fprintf "type %s interface {\n" [StoreInterfaceName opts]] ++
  each groups (fun group =>
    [Fprintf "\t// %s returns the %s query group.\n" [sg_name group; sg_name group];
     Fprintf "\t%s() %s\n" [sg_name group; sg_name group]]) ++
  [WriteString "}\n\n";
   Fprintf "var _ %s = (\*%s)(nil)\n" [defaultReadInterface; defaultReadType];
   Fprintf "var _ %s = (\*%s)(nil)\n" [defaultWriteInterface; defaultWriteType];
   Fprintf "var _ %s = (\*%s)(nil)\n\n" [targetName opts "Querier"; defaultStoreType]].

Definition writeStoreParamAliases (queries : list generatedQuery) : buffer :=
  each queries (fun query =>
    match gq_storeParamAlias query with
    | None => []
    | Some alias =>
      [Fprintf "// %s is the store parameter type for %s.\n" [pa_name alias; methodName query];
       Fprintf "type %s = %s\n\n" [pa_name alias; pa_target alias]]
    end).

Definition writeStructField (opts : options) (name typ dbName : string) : buffer :=
  [Fprintf "\t%s %s" [name; typ]] ++
  (if EmitJSONTags opts then
    [Fprintf " `json:%q`" [dbName]]
  else []) ++
  [WriteString "\n"].

(** The struct behind a non-empty SQL argument is dereferenced. *)
Definition writeSQLCArgReconstructor (opts : options) (wrapper : shardArgWrapper) : result buffer :=
  if isEmpty (wr_sqlcArg wrapper) then mret []
  else
    structType ← panic_if_none (qv_structType (wr_sqlcArg wrapper));
    let receiverType :=
      if qv_emitPointer (wr_sqlcArg wrapper) then "*" +:+ wr_name wrapper else wr_name wrapper in
    mret (
    [Fprintf "func (arg %s) sqlcParams() %s {\n" [receiverType; defineType opts (wr_sqlcArg wrapper)];
     WriteString "\treturn "] ++
    (if qv_emitPointer (wr_sqlcArg wrapper) then
      [WriteString "&"]
    else []) ++
    [Fprintf "%s{\n" [targetName opts (str_name structType)]] ++
    each (str_fields structType) (fun field =>
      let expression := default "" (wr_sqlcFieldExpressions wrapper !! fld_name field) in
      [Fprintf "\t\t%s: %s,\n" [fld_name field; expression]]) ++
    [WriteString "\t}\n";
     WriteString "}\n\n"]).

Definition writeShardArgWrappers (opts : options) (queries : list generatedQuery) : result buffer :=
  eachM queries (fun query =>
    match gq_shardArgs query with
    | None => mret []
    | Some shardArgs =>
      reconstructor ← writeSQLCArgReconstructor opts shardArgs;
      mret (
      [Fprintf "// %s combines SQL and routing parameters for %s.\n" [wr_name shardArgs; methodName query];
       Fprintf "type %s struct {\n" [wr_name shardArgs];
       Fprintf "\t%s\n" [wr_shardKeyType shardArgs]] ++
      each (wr_fields shardArgs) (fun field =>
        writeStructField opts (fld_name field) (exportedSQLCType opts (fld_typ field)) (fld_dbName field)) ++
      [WriteString "}\n\n"] ++
      reconstructor)
    end).

Definition writeCopyBatchTypesAndOptions (queries : list generatedQuery) : buffer :=
  each queries (fun query =>
    (if negb (isCopy query) then
      []
    else
      let stateType := copyBatchStateTypeName (methodName query) in
      [Fprintf "type %s struct {\n" [stateType];
       WriteString "\tmu sync.Mutex\n";
       WriteString "\tenabled bool\n";
       Fprintf "\tbatchers map[string]*pgmesh.CopyBatcher[%s]\n" [copyRowType query];
       WriteString "}\n\n"] ++
      let optionName := copyBatchOptionName (methodName query) in
      [Fprintf "// %s enables asynchronous micro-batching for %s.\n" [optionName; methodName query];
       Fprintf "func %s(config pgmesh.CopyBatchConfig) StoreOption {\n" [optionName];
       WriteString "\tconfigured := config\n";
       Fprintf "\treturn func(options *storeOptions) { options.copyBatching.%s = &configured }\n"
         [copyBatchConfigFieldName (methodName query)];
       WriteString "}\n\n"])).

Definition writeStoreInterfaceMethod (opts : options) (query : generatedQuery) : buffer :=
  [Fprintf "\t// %s executes the generated %s query.\n" [methodName query; methodName query];
   Fprintf "\t%s(%s)%s\n"
     [methodName query; storeParamsSignature (exportedSQLCArguments opts (storeParams query)); resultsSignature (exportedSQLCTypes opts (results query))]] ++
  (if negb (isCopy query) then
    []
  else
    let params := exportedSQLCArguments opts (storeParams query) in
    [Fprintf "\t// %s accepts rows for asynchronous COPY.\n" [copyAsyncMethodName (methodName query)];
     Fprintf "\t%s(%s) *pgmesh.Future[int64]\n" [copyAsyncMethodName (methodName query); paramsSignature params];
     Fprintf "\t// %s drains asynchronous submissions accepted before its barrier.\n"
       [copyFlushMethodName (methodName query)];
     Fprintf "\t%s(ctx context.Context) error\n" [copyFlushMethodName (methodName query)]]).

Definition writeStoreGroupInterfaces (opts : options) (group : storeGroup) : buffer :=
  let reader := storeReaderInterfaceName (sg_name group) in
  let writer := storeWriterInterfaceName (sg_name group) in
  [Fprintf "// %s exposes read queries in the %s store group.\n" [reader; sg_name group];
   Fprintf "type %s interface {\n" [reader]] ++
  each (sg_queries group) (fun query =>
    (if isRead query then
      writeStoreInterfaceMethod opts query
    else [])) ++
  [WriteString "}\n\n";
   Fprintf "// %s exposes write queries in the %s store group.\n" [writer; sg_name group];
   Fprintf "type %s interface {\n" [writer]] ++
  each (sg_queries group) (fun query =>
    (if isWrite query then
      writeStoreInterfaceMethod opts query
    else [])) ++
  [WriteString "}\n\n";
   Fprintf "// %s exposes all queries in its generated store group.\n" [sg_name group];
   Fprintf "type %s interface {\n" [sg_name group];
   Fprintf "\t%s\n" [reader];
   Fprintf "\t%s\n" [writer];
   WriteString "}\n\n"].

Definition writeCopyTelemetryMethods (query : generatedQuery) (params : list argument) (wrapperType : string) : buffer :=
  let async := copyAsyncMethodName (methodName query) in
  let flush := copyFlushMethodName (methodName query) in
  [Fprintf "func (%s *%s[SK]) %s(%s) *pgmesh.Future[int64] {\n"
     [defaultReceiverName; wrapperType; async; paramsSignature params];
   Fprintf "\tctx, storeSpan := %s.store.mesh.StartStoreQuerySpan(ctx, %q, %q, %s)\n"
     [defaultReceiverName; store query; async; queryKindConstant (kind query)];
   Fprintf "\tfuture := %s.target.%s(%s)\n" [defaultReceiverName; async; Join (argumentNames params) ", "];
   WriteString "\treturn pgmesh.RunFuture(func() (int64, error) {\n";
   WriteString "\t\tcount, err := future.Await(context.Background())\n";
   WriteString "\t\tstoreSpan.End(err)\n";
   WriteString "\t\treturn count, err\n";
   WriteString "\t})\n";
   WriteString "}\n\n";
   Fprintf "func (%s *%s[SK]) %s(ctx context.Context) error {\n" [defaultReceiverName; wrapperType; flush];
   Fprintf "\treturn %s.target.%s(ctx)\n" [defaultReceiverName; flush];
   WriteString "}\n\n"].

Definition writeStoreTelemetryWrapper (opts : options) (group : storeGroup) : buffer :=
  let wrapperType := storeTelemetryTypeName (sg_name group) in
  [Fprintf "type %s[SK any] struct {\n" [wrapperType];
   Fprintf "\tstore *%s[SK]\n" [defaultMeshStoreType];
   Fprintf "\ttarget %s\n" [sg_name group];
   WriteString "}\n\n"] ++
  each (sg_queries group) (fun query =>
    let params := exportedSQLCArguments opts (storeParams query) in
    let results := exportedSQLCTypes opts (results query) in
    let traced := lastResultIsError results in
    let '(resultSignature, _, errName) :=
      if traced then namedResults params results else (resultsSignature results, [], "") in
    [Fprintf "func (%s *%s[SK]) %s(%s)%s {\n"
       [defaultReceiverName; wrapperType; methodName query; storeParamsSignature params; resultSignature]] ++
    (if traced then
      [Fprintf "\tctx, storeSpan := %s.store.mesh.StartStoreQuerySpan(ctx, %q, %q, %s)\n"
         [defaultReceiverName; store query; methodName query; queryKindConstant (kind query)];
       Fprintf "\tdefer func() { storeSpan.End(%s) }()\n" [errName]]
    else []) ++
    let args := argumentNames params ++ ["storeOptions..."] in
    [Fprintf "\treturn %s.target.%s(%s)\n" [defaultReceiverName; methodName query; Join args ", "];
     WriteString "}\n\n"] ++
    (if isCopy query then
      writeCopyTelemetryMethods query params wrapperType
    else [])).

Definition writeQueryMethodBody (opts : options) (query : generatedQuery) (mirror : bool) : buffer :=
  let args := callArguments (params query) in
  (if negb (lastResultIsError (results query)) then
    [Fprintf "\treturn %s.main.%s(%s)\n" [defaultReceiverName; methodName query; args]]
  else
    let nonErrorResults := removelast (results query) in
    (if negb (notEmpty nonErrorResults) then
      [Fprintf "\tif err := %s.main.%s(%s); err != nil {\n" [defaultReceiverName; methodName query; args];
       WriteString "\t\treturn err\n";
       WriteString "\t}\n"] ++
      (if negb mirror then
        [WriteString "\treturn nil\n"]
      else
        (if IgnoreMirrorError opts then
          [Fprintf "\t_ = %s.mirror(func(%s *%s) error {\n"
             [defaultReceiverName; mirrorReceiverName; targetName opts defaultTargetType];
           Fprintf "\t\treturn %s.%s(%s)\n" [mirrorReceiverName; methodName query; args];
           WriteString "\t})\n";
           WriteString "\treturn nil\n"]
        else
          [Fprintf "\treturn %s.mirror(func(%s *%s) error {\n"
             [defaultReceiverName; mirrorReceiverName; targetName opts defaultTargetType];
           Fprintf "\t\treturn %s.%s(%s)\n" [mirrorReceiverName; methodName query; args];
           WriteString "\t})\n"]))
    else
      let resultVars := resultVariables (List.length nonErrorResults) in
      [Fprintf "\t%s := %s.main.%s(%s)\n"
         [Join (appendResultError resultVars) ", "; defaultReceiverName; methodName query; args];
       WriteString "\tif err != nil {\n"] ++
      eachIndexed nonErrorResults (fun idx result =>
        [Fprintf "\t\tvar zero%d %s\n" [Z.of_nat idx; result]]) ++
      [WriteString "\t\treturn "] ++
      eachIndexed nonErrorResults (fun idx _ =>
        (if (0 <? idx)%nat then
          [WriteString ", "]
        else []) ++
        [Fprintf "zero%d" [Z.of_nat idx]]) ++
      [WriteString ", err\n";
       WriteString "\t}\n"] ++
      (if negb mirror then
        [Fprintf "\treturn %s, nil\n" [Join resultVars ", "]]
      else
        (if IgnoreMirrorError opts then
          [Fprintf "\t_ = %s.mirror(func(%s *%s) error {\n"
             [defaultReceiverName; mirrorReceiverName; targetName opts defaultTargetType];
           Fprintf "\t\t%s := %s.%s(%s)\n"
             [Join (discardVariables (List.length nonErrorResults + 1)) ", "; mirrorReceiverName; methodName query; args];
           WriteString "\t\treturn err\n";
           WriteString "\t})\n";
           Fprintf "\treturn %s, nil\n" [Join resultVars ", "]]
        else
          [Fprintf "\t%s := %s.mirror(func(%s *%s) error {\n"
             [mirrorErrorName; defaultReceiverName; mirrorReceiverName; targetName opts defaultTargetType];
           Fprintf "\t\t%s := %s.%s(%s)\n"
             [Join (discardVariables (List.length nonErrorResults + 1)) ", "; mirrorReceiverName; methodName query; args];
           WriteString "\t\treturn err\n";
           WriteString "\t})\n";
           Fprintf "\treturn %s, %s\n" [Join resultVars ", "; mirrorErrorName]])))).

Definition writeQueryMethods (opts : options) (receiverType : string) (queries : list generatedQuery) (k : queryKind) (mirror : bool) : buffer :=
  each queries (fun query =>
    (if negb (bool_decide (kind query = k)) then
      []
    else
      [Fprintf "// %s executes the generated %s query.\n" [methodName query; methodName query];
       Fprintf "func (%s *%s) %s(%s)%s {\n"
         [defaultReceiverName; receiverType; methodName query; paramsSignature (params query); resultsSignature (results query)]] ++
      writeQueryMethodBody opts query mirror ++
      [WriteString "}\n\n"])).

Definition writeReadQueries (opts : options) (queries : list generatedQuery) : buffer :=
  [Fprintf "// %s exposes read-only generated queries.\n" [defaultReadType];
   Fprintf "type %s struct {\n" [defaultReadType];
   Fprintf "\tmain *%s\n" [targetName opts defaultTargetType];
   WriteString "}\n\n";
   Fprintf "func %s(q *%s) *%s {\n" [defaultReadNew; targetName opts defaultTargetType; defaultReadType];
   Fprintf "\treturn &%s{main: q}\n" [defaultReadType];
   WriteString "}\n\n";
   WriteString "// WithTx returns a read wrapper that executes queries through tx.\n";
   Fprintf "func (%s *%s) WithTx(tx pgx.Tx) *%s {\n" [defaultReceiverName; defaultReadType; defaultReadType];
   Fprintf "\treturn %s(%s.main.WithTx(tx))\n" [defaultReadNew; defaultReceiverName];
   WriteString "}\n\n"] ++
  writeQueryMethods opts defaultReadType queries queryKindRead false.

Definition writeWriteQueries (opts : options) (queries : list generatedQuery) : buffer :=
  [Fprintf "// %s exposes primary-capable generated queries.\n" [defaultWriteType];
   Fprintf "type %s struct {\n" [defaultWriteType];
   Fprintf "\tmain *%s\n" [targetName opts defaultTargetType];
   Fprintf "\tmirrors []*%s\n" [targetName opts defaultTargetType];
   WriteString "}\n\n";
   Fprintf "func %s(q *%s, mirrors ...*%s) *%s {\n"
     [defaultWriteNew; targetName opts defaultTargetType; targetName opts defaultTargetType; defaultWriteType];
   Fprintf "\treturn &%s{main: q, mirrors: mirrors}\n" [defaultWriteType];
   WriteString "}\n\n";
   WriteString "// WithTx returns a write wrapper that executes queries through tx.\n";
   Fprintf "func (%s *%s) WithTx(tx pgx.Tx) *%s {\n" [defaultReceiverName; defaultWriteType; defaultWriteType];
   Fprintf "\treturn %s(%s.main.WithTx(tx))\n" [defaultWriteNew; defaultReceiverName];
   WriteString "}\n\n";
   WriteString "// WithMirrors returns a copy that also writes to the supplied mirrors.\n";
   Fprintf "func (%s *%s) WithMirrors(qs ...*%s) *%s {\n"
     [defaultReceiverName; defaultWriteType; defaultWriteType; defaultWriteType];
   Fprintf "\tvar mirrors []*%s\n" [targetName opts defaultTargetType];
   Fprintf "\tmirrors = append(mirrors, %s.mirrors...)\n" [defaultReceiverName];
   WriteString "\tfor _, mirror := range qs {\n";
   WriteString "\t\tif mirror == nil {\n";
   WriteString "\t\t\tcontinue\n";
   WriteString "\t\t}\n";
   WriteString "\t\tmirrors = append(mirrors, mirror.main)\n";
   WriteString "\t\tmirrors = append(mirrors, mirror.mirrors...)\n";
   WriteString "\t}\n";
   Fprintf "\treturn %s(%s.main, mirrors...)\n" [defaultWriteNew; defaultReceiverName];
   WriteString "}\n\n";
   Fprintf "func (%s *%s) mirror(fn func(\*%s) error) error {\n"
     [defaultReceiverName; defaultWriteType; targetName opts defaultTargetType];
   Fprintf "\tfor _, mirror := range %s.mirrors {\n" [defaultReceiverName];
   WriteString "\t\tif err := fn(mirror); err != nil {\n"] ++
  (if IgnoreMirrorError opts then
    [WriteString "\t\t\tcontinue\n"]
  else
    [WriteString "\t\t\tif errors.Is(err, sql.ErrNoRows) {\n";
     WriteString "\t\t\t\tcontinue\n";
     WriteString "\t\t\t}\n";
     WriteString "\t\t\treturn err\n"]) ++
  [WriteString "\t\t}\n";
   WriteString "\t}\n";
   WriteString "\treturn nil\n";
   WriteString "}\n\n"] ++
  writeQueryMethods opts defaultWriteType queries queryKindWrite true.

Definition writeQueryStore (opts : options) : buffer :=
  [Fprintf "type %s struct {\n" [defaultStoreType];
   Fprintf "\t*%s\n" [defaultReadType];
   Fprintf "\t*%s\n" [defaultWriteType];
   WriteString "}\n\n";
   Fprintf "func %s(q *%s, mirrors ...*%s) *%s {\n"
     ["newQueryStore"; targetName opts defaultTargetType; targetName opts defaultTargetType; defaultStoreType];
   Fprintf "\treturn &%s{\n" [defaultStoreType];
   Fprintf "\t\t%s:  %s(q),\n" [defaultReadType; defaultReadNew];
   Fprintf "\t\t%s: %s(q, mirrors...),\n" [defaultWriteType; defaultWriteNew];
   WriteString "\t}\n";
   WriteString "}\n\n";
   WriteString "// WithTx returns a store wrapper that executes queries through tx.\n";
   Fprintf "func (%s *%s) WithTx(tx pgx.Tx) *%s {\n" [defaultReceiverName; defaultStoreType; defaultStoreType];
   Fprintf "\treturn %s(%s.%s.main.WithTx(tx))\n" ["newQueryStore"; defaultReceiverName; defaultWriteType];
   WriteString "}\n\n";
   WriteString "// WithMirrors returns a copy that also writes to the supplied mirrors.\n";
   Fprintf "func (%s *%s) WithMirrors(qs ...*%s) *%s {\n"
     [defaultReceiverName; defaultStoreType; defaultStoreType; defaultStoreType];
   Fprintf "\tvar mirrors []*%s\n" [targetName opts defaultTargetType];
   Fprintf "\tmirrors = append(mirrors, %s.%s.mirrors...)\n" [defaultReceiverName; defaultWriteType];
   WriteString "\tfor _, mirror := range qs {\n";
   Fprintf "\t\tif mirror == nil || mirror.%s == nil {\n" [defaultWriteType];
   WriteString "\t\t\tcontinue\n";
   WriteString "\t\t}\n";
   Fprintf "\t\tmirrors = append(mirrors, mirror.%s.main)\n" [defaultWriteType];
   Fprintf "\t\tmirrors = append(mirrors, mirror.%s.mirrors...)\n" [defaultWriteType];
   WriteString "\t}\n";
   Fprintf "\treturn %s(%s.%s.main, mirrors...)\n" ["newQueryStore"; defaultReceiverName; defaultWriteType];
   WriteString "}\n\n"].

Definition writeQueryOptions : buffer :=
  [WriteString "type queryOptions struct {\n";
   WriteString "\tprimary bool\n";
   WriteString "\ttx pgx.Tx\n";
   WriteString "}\n\n";
   WriteString "// QueryOption customizes routing for one generated query call.\n";
   WriteString "type QueryOption func(\*queryOptions)\n\n";
   WriteString "// ReadFromPrimary routes a read query to the primary database.\n";
   WriteString "func ReadFromPrimary() QueryOption {\n";
   WriteString "\treturn func(options *queryOptions) { options.primary = true }\n";
   WriteString "}\n\n";
   WriteString "// WithTx executes a query through tx and suppresses write mirrors.\n";
   WriteString "func WithTx(tx pgx.Tx) QueryOption {\n";
   WriteString "\treturn func(options *queryOptions) { options.tx = tx }\n";
   WriteString "}\n\n";
   WriteString "func applyQueryOptions(options ...QueryOption) queryOptions {\n";
   WriteString "\tvar result queryOptions\n";
   WriteString "\tfor _, option := range options {\n";
   WriteString "\t\tif option != nil { option(&result) }\n";
   WriteString "\t}\n";
   WriteString "\treturn result\n";
   WriteString "}\n\n"].

Definition writeNodeConstructor (opts : options) : buffer :=
  [Fprintf "func %s(database %s) pgmesh.Node[*%s, *%s] {\n"
     [defaultNodeNew; targetName opts "DBTX"; defaultReadType; defaultStoreType];
   Fprintf "\tqueries := %s(database)\n" [targetName opts defaultTargetNew];
   Fprintf "\treturn pgmesh.NewNode(%s(queries), %s(queries))\n" [defaultReadNew; "newQueryStore"];
   WriteString "}\n\n"].

Definition writeShardKeyTypes (opts : options) (routes : list shardRoute) : buffer :=
  each routes (fun route =>
    [Fprintf "// %s is the shared shard key for the %q route.\n" [rt_methodName route; rt_name route];
     Fprintf "type %s struct {\n" [rt_methodName route]] ++
    each (rt_operands route) (fun operand =>
      writeStructField opts (op_fieldName operand) (exportedSQLCType opts (op_typ operand)) (op_dbName operand)) ++
    [WriteString "}\n\n"]).

Definition writeShardResolverInterface (opts : options) (routes : list shardRoute) : buffer :=
  [Fprintf "// %s resolves generated query parameters to shard keys.\n" [ResolverInterfaceName opts];
   Fprintf "type %s[SK any] interface {\n" [ResolverInterfaceName opts]] ++
  each routes (fun route =>
    [Fprintf "\t// %s resolves the %q shard route.\n" [rt_methodName route; rt_name route];
     Fprintf "\t%s(key %s) SK\n" [rt_methodName route; rt_methodName route]]) ++
  [WriteString "}\n\n"].

Definition writeImports (imports : list importSpec) : buffer :=
  (if negb (notEmpty imports) then
    []
  else
    [WriteString "import (\n"] ++
    each imports (fun imp =>
      (if bool_decide (imp_name imp <> "") then
        [Fprintf "\t%s %q\n" [imp_name imp; imp_path imp]]
      else
        [Fprintf "\t%q\n" [imp_path imp]])) ++
    [WriteString ")\n\n"]).

End Emit.
