(* ===== verification/EmitMethods.v ===== *)
(** * EmitMethods: writers of the store's query methods
    (sqlcplugin/emission.go)

    One writer per way a query is executed: routed, on all shards, grouped
    copies and grouped lookups, and the asynchronous copies. What a writer
    indexes or dereferences is taken first; a panic discards the file, so it
    does not matter how much was written before. *)

From S2P Require Import Prelude Errors GoStrings Unicode GoFormat Plugin Naming Annotations Imports.
From S2P Require Import Queries Collect Emit.
From Stdlib Require Import Ascii String.

#[local] Open Scope string_scope.
#[local] Open Scope list_scope.
#[local] Coercion AStr : string >-> arg.
#[local] Arguments cons {A} & a l.

(** A string that is read from a slice first. *)
#[local] Notation "'let!' x := y 'in' z" := (mbind (fun x : string => z) y)
  (at level 10, x name, y at level 100, z at level 200).

Section EmitMethods.
Context `{UT : !UnicodeTables}.

Definition writeInternalQuerySpanStart (storeExpr : string) (query : generatedQuery) (errName : string) : buffer :=
  [Fprintf "\tctx, querySpan := %s.mesh.StartLogicalQuerySpan(ctx, %q, %q, %s)\n"
     [storeExpr; store query; methodName query; queryKindConstant (kind query)];
   Fprintf "\tdefer func() { querySpan.End(%s) }()\n" [errName]].

Definition groupedManySQLCArgument (opts : options) (query : generatedQuery) (spec : groupedManySpec)
    (groupedArgs : string) : string :=
  match qv_structType (gq_arg query) with
  | None => groupedArgs
  | Some structType =>
      let prefix := if qv_emitPointer (gq_arg query) then "&" else "" in
      prefix +:+ (targetName opts (str_name structType) +:+
        ("{" +:+ (gm_parameterField spec +:+ (": " +:+ (groupedArgs +:+ "}")))))
  end.

Definition writeGroupedManyQueryMethod (opts : options) (query : generatedQuery) : result buffer :=
  spec ← panic_if_none (gq_groupedMany query);
  let access := gm_resultKeyAccess spec in
  let! inputName := panic_if_none (arg_name <$> storeParams query !! 1%nat) in
  route ← panic_if_none (gq_route query);
  let! firstResult := panic_if_none (head (results query)) in
  let '(resultSignature, resultNames, errName) := namedResults (storeParams query) (results query) in
  let! firstName := panic_if_none (head resultNames) in
  mret (
  let receiverType := defaultGroupType in
  let storeExpr := defaultReceiverName +:+ ".store" in
  let methodDescription :=
    "groups lookup values by physical shard and restores input-key result order" +:+
    (if ka_nullable access then "; rows with NULL lookup keys are appended" else "") in
  [Fprintf "// %s %s.\n" [methodName query; methodDescription];
   Fprintf "func (%s *%s[SK]) %s(%s)%s {\n"
     [defaultReceiverName; receiverType; methodName query; storeParamsSignature (storeParams query); resultSignature]] ++
  writeInternalQuerySpanStart storeExpr query errName ++
  [WriteString "\n";
   WriteString "\toptions := applyQueryOptions(storeOptions...)\n";
   WriteString "\ttype manyShardGroup struct {\n";
   Fprintf "\t\tshard pgmesh.ResolvedShard[*%s, *%s]\n" [defaultReadType; defaultStoreType];
   Fprintf "\t\targs []%s\n" [gm_elementType spec];
   WriteString "\t\trequested map[any]struct{}\n";
   WriteString "\t}\n";
   WriteString "\ttype manyOrderItem struct {\n";
   WriteString "\t\tshardName string\n";
   WriteString "\t\tkey any\n";
   WriteString "\t}\n";
   WriteString "\tgroupsByName := make(map[string]*manyShardGroup)\n";
   WriteString "\torderedItems := make([]manyOrderItem, 0)\n"] ++
  [Fprintf "\tfor inputIndex, item := range %s {\n" [inputName]] ++
  (if gm_itemIsPointer spec then
    [WriteString "\t\tif item == nil {\n";
     Fprintf "\t\t\t%s = fmt.Errorf(%q, inputIndex)\n"
       [errName; "route " +:+ (methodName query +:+ " input %d: shard parameter is nil")];
     Fprintf "\t\t\treturn %s\n" [Join resultNames ", "];
     WriteString "\t\t}\n"]
  else []) ++
  let lookupExpression := gm_lookupExpression spec in
  [Fprintf "\t\tlookupValue := %s\n" [lookupExpression];
   WriteString "\t\tlookupKey := any(lookupValue)\n";
   WriteString "\t\tif lookupKey != nil && !reflect.ValueOf(lookupKey).Comparable() {\n";
   Fprintf "\t\t\t%s = fmt.Errorf(%q, inputIndex, lookupKey)\n"
     [errName; "route " +:+ (methodName query +:+ " input %d: lookup key type %T is not comparable")];
   Fprintf "\t\t\treturn %s\n" [Join resultNames ", "];
   WriteString "\t\t}\n";
   WriteString "\t\tvar shardKey SK\n";
   Fprintf "\t\tif %s.resolver != nil {\n" [storeExpr];
   Fprintf "\t\t\tshardKey = %s.resolver.%s(item.%s)\n" [storeExpr; rt_methodName route; rt_methodName route];
   WriteString "\t\t}\n";
   Fprintf "\t\tshard, routeErr := %s.mesh.Resolve(shardKey)\n" [storeExpr];
   WriteString "\t\tif routeErr != nil {\n";
   Fprintf "\t\t\t%s = fmt.Errorf(%q, inputIndex, routeErr)\n"
     [errName; "route " +:+ (methodName query +:+ " input %d: %w")];
   Fprintf "\t\t\treturn %s\n" [Join resultNames ", "];
   WriteString "\t\t}\n";
   WriteString "\t\tshardGroup := groupsByName[shard.ReplicaSetName()]\n";
   WriteString "\t\tif shardGroup == nil {\n";
   Fprintf "\t\t\tshardGroup = &manyShardGroup{shard: shard, args: make([]%s, 0), requested: make(map[any]struct{})}\n"
     [gm_elementType spec];
   WriteString "\t\t\tgroupsByName[shard.ReplicaSetName()] = shardGroup\n";
   WriteString "\t\t}\n";
   WriteString "\t\tif _, exists := shardGroup.requested[lookupKey]; exists { continue }\n";
   WriteString "\t\tshardGroup.requested[lookupKey] = struct{}{}\n";
   WriteString "\t\tshardGroup.args = append(shardGroup.args, lookupValue)\n";
   WriteString "\t\torderedItems = append(orderedItems, manyOrderItem{shardName: shard.ReplicaSetName(), key: lookupKey})\n";
   WriteString "\t}\n\n";
   WriteString "\tgroups := make([]*manyShardGroup, 0, len(groupsByName))\n";
   Fprintf "\tfor _, replicaSet := range %s.mesh.ReplicaSets() {\n" [storeExpr];
   WriteString "\t\tif shardGroup := groupsByName[replicaSet.Name()]; shardGroup != nil {\n";
   WriteString "\t\t\tgroups = append(groups, shardGroup)\n";
   WriteString "\t\t}\n";
   WriteString "\t}\n";
   WriteString "\tif options.tx != nil && len(groups) > 1 {\n";
   WriteString "\t\tquerySpan.SetRoute(pgmesh.RouteModeTransaction, len(groups))\n";
   Fprintf "\t\t%s = pgmesh.ErrCrossShardTransaction\n" [errName];
   Fprintf "\t\treturn %s\n" [Join resultNames ", "];
   WriteString "\t}\n\n"] ++
  (if isRead query then
    [WriteString "\tmode := pgmesh.RouteModeRead\n";
     WriteString "\tif options.primary { mode = pgmesh.RouteModePrimary }\n"]
  else
    [WriteString "\tmode := pgmesh.RouteModePrimary\n"]) ++
  [WriteString "\tif options.tx != nil { mode = pgmesh.RouteModeTransaction }\n";
   WriteString "\tquerySpan.SetRoute(mode, len(groups))\n";
   Fprintf "\tif len(groups) == 0 { return %s }\n\n" [Join resultNames ", "];
   Fprintf "\ttype manyResult struct {\n\t\tvalue %s\n\t\terr error\n\t}\n" [firstResult];
   WriteString "\tgroupResults := make([]manyResult, len(groups))\n";
   WriteString "\tvar waitGroup sync.WaitGroup\n";
   WriteString "\tfor index, shardGroup := range groups {\n";
   WriteString "\t\twaitGroup.Go(func() {\n"] ++
  let sqlcArg := groupedManySQLCArgument opts query spec "shardGroup.args" in
  (if isRead query then
    [WriteString "\t\t\tswitch {\n";
     WriteString "\t\t\tcase options.tx != nil:\n";
     WriteString "\t\t\t\troute := shardGroup.shard.WriteRoute()\n";
     WriteString "\t\t\t\ttarget := route.Target.WithTx(options.tx)\n";
     WriteString "\t\t\t\tqueryCtx, physicalQuerySpan := querySpan.StartPhysicalQuerySpan(ctx, route.Metadata().WithoutVirtualShard(), mode)\n";
     Fprintf "\t\t\t\tgroupResults[index].value, groupResults[index].err = target.%s(queryCtx, %s)\n"
       [methodName query; sqlcArg];
     WriteString "\t\t\t\tphysicalQuerySpan.End(groupResults[index].err)\n";
     WriteString "\t\t\tcase options.primary:\n";
     WriteString "\t\t\t\troute := shardGroup.shard.WriteRoute()\n";
     WriteString "\t\t\t\tqueryCtx, physicalQuerySpan := querySpan.StartPhysicalQuerySpan(ctx, route.Metadata().WithoutVirtualShard(), mode)\n";
     Fprintf "\t\t\t\tgroupResults[index].value, groupResults[index].err = route.Target.%s(queryCtx, %s)\n"
       [methodName query; sqlcArg];
     WriteString "\t\t\t\tphysicalQuerySpan.End(groupResults[index].err)\n";
     WriteString "\t\t\tdefault:\n";
     WriteString "\t\t\t\troute := shardGroup.shard.ReadRoute()\n";
     WriteString "\t\t\t\tqueryCtx, physicalQuerySpan := querySpan.StartPhysicalQuerySpan(ctx, route.Metadata().WithoutVirtualShard(), mode)\n";
     Fprintf "\t\t\t\tgroupResults[index].value, groupResults[index].err = route.Target.%s(queryCtx, %s)\n"
       [methodName query; sqlcArg];
     WriteString "\t\t\t\tphysicalQuerySpan.End(groupResults[index].err)\n";
     WriteString "\t\t\t}\n"]
  else
    [WriteString "\t\t\troute := shardGroup.shard.WriteRoute()\n";
     WriteString "\t\t\ttarget := route.Target\n";
     WriteString "\t\t\tif options.tx != nil { target = target.WithTx(options.tx) }\n";
     WriteString "\t\t\tqueryCtx, physicalQuerySpan := querySpan.StartPhysicalQuerySpan(ctx, route.Metadata().WithoutVirtualShard(), mode)\n";
     Fprintf "\t\t\tgroupResults[index].value, groupResults[index].err = target.%s(queryCtx, %s)\n"
       [methodName query; sqlcArg];
     WriteString "\t\t\tphysicalQuerySpan.End(groupResults[index].err)\n"]) ++
  [WriteString "\t\t})\n";
   WriteString "\t}\n";
   WriteString "\twaitGroup.Wait()\n\n";
   WriteString "\tgroupErrors := make([]error, 0, len(groups))\n";
   WriteString "\tfor index, groupResult := range groupResults {\n";
   WriteString "\t\tif groupResult.err != nil {\n";
   Fprintf "\t\t\tgroupErrors = append(groupErrors, fmt.Errorf(%q, groups[index].shard.ReplicaSetName(), groupResult.err))\n"
     ["query " +:+ (methodName query +:+ " on replica set %q: %w")];
   WriteString "\t\t}\n";
   WriteString "\t}\n";
   Fprintf "\t%s = errors.Join(groupErrors...)\n" [errName];
   Fprintf "\tif %s != nil { return %s }\n\n" [errName; Join resultNames ", "]] ++
  let rowType := TrimPrefix firstResult "[]" in
  [Fprintf "\trowsByGroup := make(map[string]map[any][]%s, len(groups))\n" [rowType]] ++
  (if ka_nullable access then
    [Fprintf "\tunkeyedRows := make([]%s, 0)\n" [rowType]]
  else []) ++
  [WriteString "\tfor groupIndex, groupResult := range groupResults {\n";
   Fprintf "\t\trowsByKey := make(map[any][]%s)\n" [rowType];
   WriteString "\t\trowsByGroup[groups[groupIndex].shard.ReplicaSetName()] = rowsByKey\n";
   WriteString "\t\tfor resultIndex, row := range groupResult.value {\n"] ++
  (if gm_resultIsStruct spec && qv_emitPointer (gq_ret query) then
    [WriteString "\t\t\tif row == nil {\n";
     Fprintf "\t\t\t\tgroupErrors = append(groupErrors, fmt.Errorf(%q, groups[groupIndex].shard.ReplicaSetName(), resultIndex))\n"
       ["query " +:+ (methodName query +:+ " on replica set %q returned nil row at result %d")];
     WriteString "\t\t\t\tcontinue\n";
     WriteString "\t\t\t}\n"]
  else []) ++
  let resultKeyExpression :=
    if gm_resultIsStruct spec then "row." +:+ gm_resultKeyField spec else "row" in
  (if ka_nullable access then
    [Fprintf "\t\t\tresultLookupValue := %s\n" [resultKeyExpression]] ++
    (if ka_pointer access then [WriteString "\t\t\tif resultLookupValue == nil {\n"]
     else if ka_valid access then [WriteString "\t\t\tif !resultLookupValue.Valid {\n"]
     else []) ++
    [WriteString "\t\t\t\tunkeyedRows = append(unkeyedRows, row)\n";
     WriteString "\t\t\t\tcontinue\n";
     WriteString "\t\t\t}\n"]
  else []) ++
  let resultKeyExpression :=
    if ka_nullable access then
      if ka_pointer access then "*resultLookupValue"
      else if bool_decide (ka_valueField access <> "") then "resultLookupValue." +:+ ka_valueField access
      else "resultLookupValue"
    else resultKeyExpression in
  [Fprintf "\t\t\tresultKey := any(%s)\n" [resultKeyExpression];
   WriteString "\t\t\tif resultKey != nil && !reflect.ValueOf(resultKey).Comparable() {\n";
   Fprintf "\t\t\t\tgroupErrors = append(groupErrors, fmt.Errorf(%q, groups[groupIndex].shard.ReplicaSetName(), resultIndex, resultKey))\n"
     ["query " +:+ (methodName query +:+ " on replica set %q result %d has non-comparable lookup key type %T")];
   WriteString "\t\t\t\tcontinue\n";
   WriteString "\t\t\t}\n";
   WriteString "\t\t\tif _, requested := groups[groupIndex].requested[resultKey]; !requested {\n";
   Fprintf "\t\t\t\tgroupErrors = append(groupErrors, fmt.Errorf(%q, groups[groupIndex].shard.ReplicaSetName(), resultIndex))\n"
     ["query " +:+ (methodName query +:+ " on replica set %q result %d has an unrequested lookup key")];
   WriteString "\t\t\t\tcontinue\n";
   WriteString "\t\t\t}\n";
   WriteString "\t\t\trowsByKey[resultKey] = append(rowsByKey[resultKey], row)\n";
   WriteString "\t\t}\n";
   WriteString "\t}\n";
   Fprintf "\t%s = errors.Join(groupErrors...)\n" [errName];
   Fprintf "\tif %s != nil { return %s }\n\n" [errName; Join resultNames ", "];
   WriteString "\tfor _, orderedItem := range orderedItems {\n";
   Fprintf "\t\t%s = append(%s, rowsByGroup[orderedItem.shardName][orderedItem.key]...)\n" [firstName; firstName];
   WriteString "\t}\n"] ++
  (if ka_nullable access then
    [Fprintf "\t%s = append(%s, unkeyedRows...)\n" [firstName; firstName]]
  else []) ++
  [Fprintf "\treturn %s\n" [Join resultNames ", "];
   WriteString "}\n\n"]).

Definition writeAllShardsQueryMethod (query : generatedQuery) : result buffer :=
  let receiverType := defaultGroupType in
  let storeExpr := defaultReceiverName +:+ ".store" in
  let '(resultSignature, resultNames, errName) := namedResults (storeParams query) (results query) in
  let valueType := match results query with result :: _ :: _ => result | _ => "" end in
  let args := Join (callArgs query) ", " in
  let call target :=
    [WriteString "\t\t\tqueryCtx, physicalQuerySpan := querySpan.StartPhysicalQuerySpan(ctx, route.Metadata(), mode)\n"] ++
    (if bool_decide (valueType = "") then
      [Fprintf "\t\t\tshardResults[index].err = %s.%s(%s)\n"
         [target; methodName query; Replace1 args "ctx" "queryCtx"];
       WriteString "\t\t\tphysicalQuerySpan.End(shardResults[index].err)\n"]
    else
      [Fprintf "\t\t\tshardResults[index].value, shardResults[index].err = %s.%s(%s)\n"
         [target; methodName query; Replace1 args "ctx" "queryCtx"];
       WriteString "\t\t\tphysicalQuerySpan.End(shardResults[index].err)\n"]) in
  (* The first result's name is read only to merge values. *)
  merge ←
    (if bool_decide (valueType <> "") then
      if bool_decide (command query = cmdMany) then
        let! firstName := panic_if_none (head resultNames) in
        mret
          [WriteString "\tfor _, shardResult := range shardResults {\n";
           Fprintf "\t\t%s = append(%s, shardResult.value...)\n" [firstName; firstName];
           WriteString "\t}\n"]
      else if bool_decide (command query = cmdExecRows) then
        let! firstName := panic_if_none (head resultNames) in
        mret
          [WriteString "\tfor _, shardResult := range shardResults {\n";
           Fprintf "\t\t%s += shardResult.value\n" [firstName];
           WriteString "\t}\n"]
      else mret []
    else mret []);
  mret (
  [Fprintf "// %s executes the generated query on every physical shard.\n" [methodName query];
   Fprintf "func (%s *%s[SK]) %s(%s)%s {\n"
     [defaultReceiverName; receiverType; methodName query; storeParamsSignature (storeParams query); resultSignature]] ++
  writeInternalQuerySpanStart storeExpr query errName ++
  [WriteString "\n";
   WriteString "\toptions := applyQueryOptions(storeOptions...)\n";
   Fprintf "\treplicaSets := %s.mesh.ReplicaSets()\n" [storeExpr];
   WriteString "\tif options.tx != nil {\n";
   WriteString "\t\tquerySpan.SetRoute(pgmesh.RouteModeTransaction, len(replicaSets))\n";
   Fprintf "\t\t%s = pgmesh.ErrCrossShardTransaction\n" [errName];
   Fprintf "\t\treturn %s\n" [Join resultNames ", "];
   WriteString "\t}\n\n"] ++
  (if isRead query then
    [WriteString "\tmode := pgmesh.RouteModeRead\n";
     WriteString "\tif options.primary { mode = pgmesh.RouteModePrimary }\n"]
  else
    [WriteString "\tmode := pgmesh.RouteModePrimary\n"]) ++
  [WriteString "\tquerySpan.SetRoute(mode, len(replicaSets))\n\n"] ++
  [WriteString "\ttype shardResult struct {\n"] ++
  (if bool_decide (valueType <> "") then
    [Fprintf "\t\tvalue %s\n" [valueType]]
  else []) ++
  [WriteString "\t\terr error\n";
   WriteString "\t}\n";
   WriteString "\tshardResults := make([]shardResult, len(replicaSets))\n";
   WriteString "\tvar group sync.WaitGroup\n";
   WriteString "\tfor index, replicaSet := range replicaSets {\n";
   WriteString "\t\tgroup.Go(func() {\n"] ++
  (if isRead query then
    [WriteString "\t\t\tif options.primary {\n";
     WriteString "\t\t\t\troute := replicaSet.WriteRoute()\n";
     WriteString "\t\t\t\tqueryCtx, physicalQuerySpan := querySpan.StartPhysicalQuerySpan(ctx, route.Metadata(), mode)\n"] ++
    (if bool_decide (valueType = "") then
      [Fprintf "\t\t\t\tshardResults[index].err = route.Target.%s(%s)\n"
         [methodName query; Replace1 args "ctx" "queryCtx"]]
    else
      [Fprintf "\t\t\t\tshardResults[index].value, shardResults[index].err = route.Target.%s(%s)\n"
         [methodName query; Replace1 args "ctx" "queryCtx"]]) ++
    [WriteString "\t\t\t\tphysicalQuerySpan.End(shardResults[index].err)\n";
     WriteString "\t\t\t\treturn\n";
     WriteString "\t\t\t}\n";
     WriteString "\t\t\troute := replicaSet.ReadRoute()\n"] ++
    call "route.Target"
  else
    [WriteString "\t\t\troute := replicaSet.WriteRoute()\n"] ++
    call "route.Target") ++
  [WriteString "\t\t})\n";
   WriteString "\t}\n";
   WriteString "\tgroup.Wait()\n\n";
   WriteString "\tshardErrors := make([]error, 0, len(replicaSets))\n";
   WriteString "\tfor index, shardResult := range shardResults {\n";
   WriteString "\t\tif shardResult.err != nil {\n";
   Fprintf "\t\t\tshardErrors = append(shardErrors, fmt.Errorf(%q, replicaSets[index].Name(), shardResult.err))\n"
     ["query " +:+ (methodName query +:+ " on replica set %q: %w")];
   WriteString "\t\t}\n";
   WriteString "\t}\n";
   Fprintf "\t%s = errors.Join(shardErrors...)\n" [errName];
   Fprintf "\tif %s != nil { return %s }\n" [errName; Join resultNames ", "]] ++
  merge ++
  [Fprintf "\treturn %s\n" [Join resultNames ", "];
   WriteString "}\n\n"]).

(** How one input row becomes a row of the copy; [callArgs] is indexed when the
    wrapper has no SQL argument of its own. *)
Definition writeCopyGroupAppend (query : generatedQuery) (target item indent : string) : result buffer :=
  match gq_shardArgs query with
  | None => mret [Fprintf "%s%s = append(%s, %s)\n" [indent; target; target; item]]
  | Some shardArgs =>
      if negb (isEmpty (wr_sqlcArg shardArgs)) then
        mret [Fprintf "%s%s = append(%s, %s.sqlcParams())\n" [indent; target; target; item]]
      else
        let! callArg := panic_if_none (callArgs query !! 1%nat) in
        let expression := Replace1 callArg "arg." (item +:+ ".") in
        mret [Fprintf "%s%s = append(%s, %s)\n" [indent; target; target; expression]]
  end.

Definition writeGroupedCopyQueryMethod (query : generatedQuery) : result buffer :=
  let receiverType := defaultGroupType in
  let storeExpr := defaultReceiverName +:+ ".store" in
  let! rowsType := panic_if_none (arg_typ <$> params query !! 1%nat) in
  let! inputName := panic_if_none (arg_name <$> storeParams query !! 1%nat) in
  route ← panic_if_none (gq_route query);
  let '(resultSignature, resultNames, errName) := namedResults (storeParams query) (results query) in
  let! firstName := panic_if_none (head resultNames) in
  append ←
    match gq_shardArgs query with
    | None => mret [WriteString "\t\tshardGroup.args = append(shardGroup.args, item)\n"]
    | Some shardArgs =>
        if negb (isEmpty (wr_sqlcArg shardArgs)) then
          mret [WriteString "\t\tshardGroup.args = append(shardGroup.args, item.sqlcParams())\n"]
        else
          let! callArg := panic_if_none (callArgs query !! 1%nat) in
          let expression := Replace1 callArg "arg." "item." in
          mret [Fprintf "\t\tshardGroup.args = append(shardGroup.args, %s)\n" [expression]]
    end;
  mret (
  [Fprintf "// %s groups rows by physical shard and executes one copy per group.\n" [methodName query];
   Fprintf "func (%s *%s[SK]) %s(%s)%s {\n"
     [defaultReceiverName; receiverType; methodName query; storeParamsSignature (storeParams query); resultSignature]] ++
  writeInternalQuerySpanStart storeExpr query errName ++
  [WriteString "\n";
   WriteString "\toptions := applyQueryOptions(storeOptions...)\n";
   WriteString "\ttype copyShardGroup struct {\n";
   Fprintf "\t\tshard pgmesh.ResolvedShard[*%s, *%s]\n" [defaultReadType; defaultStoreType];
   Fprintf "\t\targs %s\n" [rowsType];
   WriteString "\t}\n";
   WriteString "\tgroupsByName := make(map[string]*copyShardGroup)\n"] ++
  [Fprintf "\tfor inputIndex, item := range %s {\n" [inputName];
   WriteString "\t\tvar shardKey SK\n";
   Fprintf "\t\tif %s.resolver != nil {\n" [storeExpr];
   Fprintf "\t\t\tshardKey = %s.resolver.%s(item.%s)\n" [storeExpr; rt_methodName route; rt_methodName route];
   WriteString "\t\t}\n";
   Fprintf "\t\tshard, routeErr := %s.mesh.Resolve(shardKey)\n" [storeExpr];
   WriteString "\t\tif routeErr != nil {\n";
   Fprintf "\t\t\t%s = fmt.Errorf(%q, inputIndex, routeErr)\n"
     [errName; "route " +:+ (methodName query +:+ " input %d: %w")];
   Fprintf "\t\t\treturn %s\n" [Join resultNames ", "];
   WriteString "\t\t}\n";
   WriteString "\t\tshardGroup := groupsByName[shard.ReplicaSetName()]\n";
   WriteString "\t\tif shardGroup == nil {\n";
   Fprintf "\t\t\tshardGroup = &copyShardGroup{shard: shard, args: make(%s, 0)}\n" [rowsType];
   WriteString "\t\t\tgroupsByName[shard.ReplicaSetName()] = shardGroup\n";
   WriteString "\t\t}\n"] ++
  append ++
  [WriteString "\t}\n\n";
   WriteString "\tgroups := make([]*copyShardGroup, 0, len(groupsByName))\n";
   Fprintf "\tfor _, replicaSet := range %s.mesh.ReplicaSets() {\n" [storeExpr];
   WriteString "\t\tif shardGroup := groupsByName[replicaSet.Name()]; shardGroup != nil {\n";
   WriteString "\t\t\tgroups = append(groups, shardGroup)\n";
   WriteString "\t\t}\n";
   WriteString "\t}\n";
   WriteString "\tif options.tx != nil && len(groups) > 1 {\n";
   WriteString "\t\tquerySpan.SetRoute(pgmesh.RouteModeTransaction, len(groups))\n";
   Fprintf "\t\t%s = pgmesh.ErrCrossShardTransaction\n" [errName];
   Fprintf "\t\treturn %s\n" [Join resultNames ", "];
   WriteString "\t}\n\n";
   WriteString "\tmode := pgmesh.RouteModePrimary\n";
   WriteString "\tif options.tx != nil {\n";
   WriteString "\t\tmode = pgmesh.RouteModeTransaction\n";
   WriteString "\t}\n";
   WriteString "\tquerySpan.SetRoute(mode, len(groups))\n";
   WriteString "\tif len(groups) == 0 { return ";
   WriteValue (Join resultNames ", ");
   WriteString " }\n\n";
   WriteString "\ttype copyResult struct {\n";
   WriteString "\t\tcount int64\n";
   WriteString "\t\terr error\n";
   WriteString "\t}\n";
   WriteString "\tcopyResults := make([]copyResult, len(groups))\n";
   WriteString "\tvar waitGroup sync.WaitGroup\n";
   WriteString "\tfor index, shardGroup := range groups {\n";
   WriteString "\t\twaitGroup.Go(func() {\n";
   WriteString "\t\t\troute := shardGroup.shard.WriteRoute()\n";
   WriteString "\t\t\ttarget := route.Target\n";
   WriteString "\t\t\tif options.tx != nil { target = target.WithTx(options.tx) }\n";
   WriteString "\t\t\tqueryCtx, physicalQuerySpan := querySpan.StartPhysicalQuerySpan(ctx, route.Metadata().WithoutVirtualShard(), mode)\n";
   Fprintf "\t\t\tcopyResults[index].count, copyResults[index].err = target.%s(queryCtx, shardGroup.args)\n"
     [methodName query];
   WriteString "\t\t\tphysicalQuerySpan.End(copyResults[index].err)\n";
   WriteString "\t\t})\n";
   WriteString "\t}\n";
   WriteString "\twaitGroup.Wait()\n\n";
   WriteString "\tcopyErrors := make([]error, 0, len(groups))\n";
   WriteString "\tfor index, copyResult := range copyResults {\n";
   WriteString "\t\tif copyResult.err != nil {\n";
   Fprintf "\t\t\tcopyErrors = append(copyErrors, fmt.Errorf(%q, groups[index].shard.ReplicaSetName(), copyResult.err))\n"
     ["query " +:+ (methodName query +:+ " on replica set %q: %w")];
   WriteString "\t\t}\n";
   WriteString "\t}\n";
   Fprintf "\t%s = errors.Join(copyErrors...)\n" [errName];
   Fprintf "\tif %s != nil { return %s }\n" [errName; Join resultNames ", "];
   WriteString "\tfor _, copyResult := range copyResults {\n";
   Fprintf "\t\t%s += copyResult.count\n" [firstName];
   WriteString "\t}\n";
   Fprintf "\treturn %s\n" [Join resultNames ", "];
   WriteString "}\n\n"]).

Definition writeAsyncCopyMethod (query : generatedQuery) : result buffer :=
  let async := copyAsyncMethodName (methodName query) in
  let stateField := copyBatchStateFieldName (methodName query) in
  let! inputName := panic_if_none (arg_name <$> storeParams query !! 1%nat) in
  let! rowsType := panic_if_none (arg_typ <$> params query !! 1%nat) in
  groups ←
    (if bool_decide (gq_shardMode query = shardModeGroupedCopy) then
      route ← panic_if_none (gq_route query);
      append ← writeCopyGroupAppend query "shardGroup.args" "item" (literal "\t\t");
      mret (
        [WriteString "\tgroupsByName := make(map[string]*asyncCopyShardGroup)\n";
         Fprintf "\tfor inputIndex, item := range %s {\n" [inputName];
         WriteString "\t\tvar shardKey SK\n";
         Fprintf "\t\tif %s.store.resolver != nil {\n" [defaultReceiverName];
         Fprintf "\t\t\tshardKey = %s.store.resolver.%s(item.%s)\n"
           [defaultReceiverName; rt_methodName route; rt_methodName route];
         WriteString "\t\t}\n";
         Fprintf "\t\tshard, routeErr := %s.store.mesh.Resolve(shardKey)\n" [defaultReceiverName];
         WriteString "\t\tif routeErr != nil {\n";
         Fprintf "\t\t\terr := fmt.Errorf(%q, inputIndex, routeErr)\n" ["route " +:+ (async +:+ " input %d: %w")];
         WriteString "\t\t\treturn finish(pgmesh.ResolvedFuture[int64](0, err))\n";
         WriteString "\t\t}\n";
         WriteString "\t\tshardGroup := groupsByName[shard.ReplicaSetName()]\n";
         WriteString "\t\tif shardGroup == nil {\n";
         Fprintf "\t\t\tshardGroup = &asyncCopyShardGroup{shard: shard, args: make(%s, 0)}\n" [rowsType];
         WriteString "\t\t\tgroupsByName[shard.ReplicaSetName()] = shardGroup\n";
         WriteString "\t\t}\n"] ++
        append ++
        [WriteString "\t}\n";
         WriteString "\tgroups := make([]*asyncCopyShardGroup, 0, len(groupsByName))\n";
         Fprintf "\tfor _, replicaSet := range %s.store.mesh.ReplicaSets() {\n" [defaultReceiverName];
         WriteString "\t\tif shardGroup := groupsByName[replicaSet.Name()]; shardGroup != nil {\n";
         WriteString "\t\t\tgroups = append(groups, shardGroup)\n";
         WriteString "\t\t}\n";
         WriteString "\t}\n";
         WriteString "\tquerySpan.SetRoute(pgmesh.RouteModePrimary, len(groups))\n"])
    else
      mret (
        [WriteString "\tvar shardKey SK\n";
         Fprintf "\tshard, routeErr := %s.store.mesh.Resolve(shardKey)\n" [defaultReceiverName];
         WriteString "\tif routeErr != nil {\n";
         WriteString "\t\treturn finish(pgmesh.ResolvedFuture[int64](0, routeErr))\n";
         WriteString "\t}\n";
         Fprintf "\tgroups := []*asyncCopyShardGroup{{shard: shard, args: %s}}\n" [inputName];
         WriteString "\tquerySpan.SetRoute(pgmesh.RouteModePrimary, 1)\n"]));
  mret (
  [Fprintf "// %s accepts rows for asynchronous COPY.\n" [async];
   Fprintf "func (%s *%s[SK]) %s(%s) *pgmesh.Future[int64] {\n"
     [defaultReceiverName; defaultGroupType; async; paramsSignature (storeParams query)];
   Fprintf "\tctx, querySpan := %s.store.mesh.StartLogicalQuerySpan(ctx, %q, %q, %s)\n"
     [defaultReceiverName; store query; async; queryKindConstant (kind query)];
   WriteString "\tfinish := func(future *pgmesh.Future[int64]) *pgmesh.Future[int64] {\n";
   WriteString "\t\treturn pgmesh.RunFuture(func() (int64, error) {\n";
   WriteString "\t\t\tcount, err := future.Await(context.Background())\n";
   WriteString "\t\t\tquerySpan.End(err)\n";
   WriteString "\t\t\treturn count, err\n";
   WriteString "\t\t})\n";
   WriteString "\t}\n\n";
   WriteString "\ttype asyncCopyShardGroup struct {\n";
   Fprintf "\t\tshard pgmesh.ResolvedShard[*%s, *%s]\n" [defaultReadType; defaultStoreType];
   Fprintf "\t\targs %s\n" [rowsType];
   WriteString "\t\tbatcher *pgmesh.CopyBatcher[";
   WriteValue (copyRowType query);
   WriteString "]\n";
   WriteString "\t}\n"] ++
  groups ++
  [WriteString "\tif len(groups) == 0 {\n";
   WriteString "\t\treturn finish(pgmesh.ResolvedFuture[int64](0, nil))\n";
   WriteString "\t}\n";
   Fprintf "\tstate := %s.store.%s\n" [defaultReceiverName; stateField];
   WriteString "\tstate.mu.Lock()\n";
   WriteString "\tif err := ctx.Err(); err != nil {\n";
   WriteString "\t\tstate.mu.Unlock()\n";
   WriteString "\t\treturn finish(pgmesh.ResolvedFuture[int64](0, err))\n";
   WriteString "\t}\n";
   WriteString "\tfor _, shardGroup := range groups {\n";
   WriteString "\t\tshardGroup.batcher = state.batchers[shardGroup.shard.ReplicaSetName()]\n";
   WriteString "\t\tif shardGroup.batcher == nil {\n";
   WriteString "\t\t\tstate.mu.Unlock()\n";
   Fprintf "\t\t\terr := fmt.Errorf(%q, shardGroup.shard.ReplicaSetName())\n"
     ["query " +:+ (async +:+ " has no copy batcher for replica set %q")];
   WriteString "\t\t\treturn finish(pgmesh.ResolvedFuture[int64](0, err))\n";
   WriteString "\t\t}\n";
   WriteString "\t}\n";
   WriteString "\tacceptedContext := context.WithoutCancel(ctx)\n";
   WriteString "\ttype asyncCopyResult struct {\n";
   WriteString "\t\tshardName string\n";
   WriteString "\t\tfuture *pgmesh.Future[int64]\n";
   WriteString "\t}\n";
   WriteString "\tasyncResults := make([]asyncCopyResult, 0, len(groups))\n";
   WriteString "\tfor _, shardGroup := range groups {\n";
   WriteString "\t\tvar future *pgmesh.Future[int64]\n";
   WriteString "\t\tif state.enabled {\n";
   WriteString "\t\t\tfuture = shardGroup.batcher.Submit(acceptedContext, shardGroup.args)\n";
   WriteString "\t\t} else {\n";
   WriteString "\t\t\tfuture = shardGroup.batcher.SubmitUnbatched(acceptedContext, shardGroup.args)\n";
   WriteString "\t\t}\n";
   WriteString "\t\tasyncResults = append(asyncResults, asyncCopyResult{shardName: shardGroup.shard.ReplicaSetName(), future: future})\n";
   WriteString "\t}\n";
   WriteString "\tstate.mu.Unlock()\n";
   WriteString "\n\tcombined := pgmesh.RunFuture(func() (int64, error) {\n";
   WriteString "\t\tvar count int64\n";
   WriteString "\t\tcopyErrors := make([]error, 0, len(asyncResults))\n";
   WriteString "\t\tfor _, asyncResult := range asyncResults {\n";
   WriteString "\t\t\tshardCount, err := asyncResult.future.Await(context.Background())\n";
   WriteString "\t\t\tif err != nil {\n";
   Fprintf "\t\t\t\tcopyErrors = append(copyErrors, fmt.Errorf(%q, asyncResult.shardName, err))\n"
     ["query " +:+ (methodName query +:+ " on replica set %q: %w")];
   WriteString "\t\t\t\tcontinue\n";
   WriteString "\t\t\t}\n";
   WriteString "\t\t\tcount += shardCount\n";
   WriteString "\t\t}\n";
   WriteString "\t\tif err := errors.Join(copyErrors...); err != nil { return 0, err }\n";
   WriteString "\t\treturn count, nil\n";
   WriteString "\t})\n";
   WriteString "\treturn finish(combined)\n";
   WriteString "}\n\n"]).

Definition writeAsyncCopyFlushMethod (query : generatedQuery) : buffer :=
  let flush := copyFlushMethodName (methodName query) in
  let stateField := copyBatchStateFieldName (methodName query) in
  [Fprintf "// %s drains asynchronous submissions accepted before its barrier.\n" [flush];
   Fprintf "func (%s *%s[SK]) %s(ctx context.Context) error {\n" [defaultReceiverName; defaultGroupType; flush];
   Fprintf "\tstate := %s.store.%s\n" [defaultReceiverName; stateField];
   WriteString "\tstate.mu.Lock()\n";
   WriteString "\ttype copyFlushResult struct {\n";
   WriteString "\t\tshardName string\n";
   WriteString "\t\tfuture *pgmesh.Future[struct{}]\n";
   WriteString "\t}\n";
   Fprintf "\tflushes := make([]copyFlushResult, 0, len(%s.store.mesh.ReplicaSets()))\n" [defaultReceiverName];
   Fprintf "\tfor _, replicaSet := range %s.store.mesh.ReplicaSets() {\n" [defaultReceiverName];
   WriteString "\t\tif batcher := state.batchers[replicaSet.Name()]; batcher != nil {\n";
   WriteString "\t\t\tflushes = append(flushes, copyFlushResult{shardName: replicaSet.Name(), future: batcher.FlushAsync()})\n";
   WriteString "\t\t}\n";
   WriteString "\t}\n";
   WriteString "\tstate.mu.Unlock()\n";
   WriteString "\tflushErrors := make([]error, 0, len(flushes))\n";
   WriteString "\tfor _, flushResult := range flushes {\n";
   WriteString "\t\tif _, err := flushResult.future.Await(ctx); err != nil {\n";
   Fprintf "\t\t\tflushErrors = append(flushErrors, fmt.Errorf(%q, flushResult.shardName, err))\n"
     ["flush " +:+ (methodName query +:+ " on replica set %q: %w")];
   WriteString "\t\t\tif ctx.Err() != nil { break }\n";
   WriteString "\t\t}\n";
   WriteString "\t}\n";
   WriteString "\treturn errors.Join(flushErrors...)\n";
   WriteString "}\n\n"].

Definition writeAsyncCopyQueryMethods (query : generatedQuery) : result buffer :=
  method ← writeAsyncCopyMethod query;
  mret (method ++ writeAsyncCopyFlushMethod query).

(** A routed query, or one that a store without shards runs on its only one. *)
Definition writeRoutedQueryMethod (query : generatedQuery) : buffer :=
  let receiverType := defaultGroupType in
  let storeExpr := defaultReceiverName +:+ ".store" in
  let traced := lastResultIsError (results query) in
  let '(resultSignature, resultNames, errName) :=
    if traced then namedResults (storeParams query) (results query)
    else (resultsSignature (results query), [], "") in
  [Fprintf "// %s executes the generated query on its target shard.\n" [methodName query];
   Fprintf "func (%s *%s[SK]) %s(%s)%s {\n"
     [defaultReceiverName; receiverType; methodName query; storeParamsSignature (storeParams query); resultSignature]] ++
  (if traced then
    [WriteString "\t// Trace the query and record its returned error.\n"] ++
    writeInternalQuerySpanStart storeExpr query errName ++
    [WriteString "\n"]
  else []) ++
  [WriteString "\t// Resolve the shard key for this topology.\n";
   WriteString "\tvar shardKey SK\n"] ++
  match gq_route query with
  | Some route =>
    [Fprintf "\tif %s.resolver != nil {\n" [storeExpr];
     Fprintf "\t\tshardKey = %s.resolver.%s(arg.%s)\n" [storeExpr; rt_methodName route; rt_methodName route];
     WriteString "\t}\n"]
  | None => []
  end ++
  (if traced then
    [Fprintf "\tshard, %s := %s.mesh.Resolve(shardKey)\n" [errName; storeExpr];
     Fprintf "\tif %s != nil {\n" [errName];
     Fprintf "\t\treturn %s\n" [Join resultNames ", "];
     WriteString "\t}\n"]
  else
    [Fprintf "\tshard, _ := %s.mesh.Resolve(shardKey)\n" [storeExpr]]) ++
  [WriteString "\n\t// Apply options that can override the default route.\n";
   WriteString "\toptions := applyQueryOptions(storeOptions...)\n"] ++
  let args := Join (callArgs query) ", " in
  (if isRead query then
    [WriteString "\n\tswitch {\n";
     WriteString "\t// Transactional reads must use their transaction.\n";
     WriteString "\tcase options.tx != nil:\n"] ++
    (if traced then
      [WriteString "\t\tquerySpan.SetRoute(pgmesh.RouteModeTransaction, 1)\n"]
    else []) ++
    [WriteString "\t\troute := shard.WriteRoute()\n";
     WriteString "\t\ttarget := route.Target.WithTx(options.tx)\n"] ++
    (if traced then
      [WriteString "\t\tctx, physicalQuerySpan := querySpan.StartPhysicalQuerySpan(ctx, route.Metadata(), pgmesh.RouteModeTransaction)\n";
       Fprintf "\t\tdefer func() { physicalQuerySpan.End(%s) }()\n" [errName]]
    else []) ++
    [Fprintf "\t\treturn target.%s(%s)\n" [methodName query; args];
     WriteString "\n\t// Explicit primary reads bypass replicas.\n";
     WriteString "\tcase options.primary:\n"] ++
    (if traced then
      [WriteString "\t\tquerySpan.SetRoute(pgmesh.RouteModePrimary, 1)\n"]
    else []) ++
    [WriteString "\t\troute := shard.WriteRoute()\n"] ++
    (if traced then
      [WriteString "\t\tctx, physicalQuerySpan := querySpan.StartPhysicalQuerySpan(ctx, route.Metadata(), pgmesh.RouteModePrimary)\n";
       Fprintf "\t\tdefer func() { physicalQuerySpan.End(%s) }()\n" [errName]]
    else []) ++
    [Fprintf "\t\treturn route.Target.%s(%s)\n" [methodName query; args];
     WriteString "\n\t// Ordinary reads use the shard's replica route.\n";
     WriteString "\tdefault:\n"] ++
    (if traced then
      [WriteString "\t\tquerySpan.SetRoute(pgmesh.RouteModeRead, 1)\n"]
    else []) ++
    [WriteString "\t\troute := shard.ReadRoute()\n"] ++
    (if traced then
      [WriteString "\t\tctx, physicalQuerySpan := querySpan.StartPhysicalQuerySpan(ctx, route.Metadata(), pgmesh.RouteModeRead)\n";
       Fprintf "\t\tdefer func() { physicalQuerySpan.End(%s) }()\n" [errName]]
    else []) ++
    [Fprintf "\t\treturn route.Target.%s(%s)\n" [methodName query; args];
     WriteString "\t}\n"]
  else
    [WriteString "\n\t// Select the primary write route, or the transaction when provided.\n";
     WriteString "\troute := shard.WriteRoute()\n";
     WriteString "\ttarget := route.Target\n"] ++
    (if traced then
      [WriteString "\tmode := pgmesh.RouteModePrimary\n"]
    else []) ++
    [WriteString "\tif options.tx != nil {\n";
     WriteString "\t\ttarget = target.WithTx(options.tx)\n"] ++
    (if traced then
      [WriteString "\t\tmode = pgmesh.RouteModeTransaction\n"]
    else []) ++
    [WriteString "\t}\n"] ++
    (if traced then
      [WriteString "\n\t// Execute the write after recording its resolved route.\n";
       WriteString "\tquerySpan.SetRoute(mode, 1)\n";
       WriteString "\tctx, physicalQuerySpan := querySpan.StartPhysicalQuerySpan(ctx, route.Metadata(), mode)\n";
       Fprintf "\tdefer func() { physicalQuerySpan.End(%s) }()\n" [errName]]
    else
      [WriteString "\n\t// Execute the write on the selected target.\n"]) ++
    [Fprintf "\treturn target.%s(%s)\n" [methodName query; args]]) ++
  [WriteString "}\n\n"].

Definition writeMeshStoreQueryMethod (opts : options) (query : generatedQuery) : result buffer :=
  match gq_shardMode query with
  | shardModeAll => writeAllShardsQueryMethod query
  | shardModeGroupedCopy => writeGroupedCopyQueryMethod query
  | shardModeGroupedMany => writeGroupedManyQueryMethod opts query
  | shardModeNone | shardModeRouted => mret (writeRoutedQueryMethod query)
  end.

End EmitMethods.
