(* ===== verification/EmitStore.v ===== *)
(** * EmitStore: writers of the store, its topologies and its groups
    (sqlcplugin/emission.go) *)

From S2P Require Import Prelude Errors GoStrings Unicode GoFormat Plugin Naming Annotations Imports.
From S2P Require Import Queries Collect Emit EmitMethods.
From Stdlib Require Import Ascii String.

#[local] Open Scope string_scope.
#[local] Open Scope list_scope.
#[local] Coercion AStr : string >-> arg.
#[local] Arguments cons {A} & a l.

(** A string that is read from a slice first. *)
#[local] Notation "'let!' x := y 'in' z" := (mbind (fun x : string => z) y)
  (at level 10, x name, y at level 100, z at level 200).

Section EmitStore.
Context `{UT : !UnicodeTables}.

Definition writeCopyBatcher (query : generatedQuery) : result buffer :=
  let! rowsType := panic_if_none (arg_typ <$> params query !! 1%nat) in
  let stateName := copyBatchStateFieldName (methodName query) in
  let configName := stateName +:+ "Config" in
  let enabledName := stateName +:+ "Enabled" in
  mret
    [Fprintf "\t%s := pgmesh.CopyBatchConfig{}\n" [configName];
     Fprintf "\t%s := false\n" [enabledName];
     Fprintf "\tif configured := options.copyBatching.%s; configured != nil {\n"
       [copyBatchConfigFieldName (methodName query)];
     Fprintf "\t\t%s = *configured\n" [configName];
     Fprintf "\t\t%s = true\n" [enabledName];
     WriteString "\t}\n";
     Fprintf "\t%s := &%s{\n" [stateName; copyBatchStateTypeName (methodName query)];
     Fprintf "\t\tenabled: %s,\n" [enabledName];
     Fprintf "\t\tbatchers: make(map[string]*pgmesh.CopyBatcher[%s]),\n" [copyRowType query];
     WriteString "\t}\n";
     Fprintf "\tfor _, replicaSet := range %s.mesh.ReplicaSets() {\n" [defaultReceiverName];
     WriteString "\t\troute := replicaSet.WriteRoute()\n";
     Fprintf "\t\tbatcher, err := pgmesh.NewCopyBatcher[%s](%s, func(ctx context.Context, rows %s) (count int64, queryErr error) {\n"
       [copyRowType query; configName; rowsType];
     Fprintf "\t\t\tqueryCtx, physicalQuerySpan := %s.mesh.StartPhysicalQuerySpan(ctx, %q, %q, pgmesh.QueryKindWrite, route.Metadata(), pgmesh.RouteModePrimary)\n"
       [defaultReceiverName; store query; methodName query];
     WriteString "\t\t\tdefer func() { physicalQuerySpan.End(queryErr) }()\n";
     Fprintf "\t\t\treturn route.Target.%s(queryCtx, rows)\n" [methodName query];
     Fprintf "\t\t}, %s.mesh.NewCopyBatchObserver(%q, %q, route.Metadata()))\n"
       [defaultReceiverName; store query; methodName query];
     WriteString "\t\tif err != nil {\n";
     Fprintf "\t\t\treturn fmt.Errorf(%q, err)\n" ["configure " +:+ (methodName query +:+ " copy batching: %w")];
     WriteString "\t\t}\n";
     Fprintf "\t\t%s.batchers[replicaSet.Name()] = batcher\n" [stateName];
     WriteString "\t}\n";
     Fprintf "\t%s.%s = %s\n" [defaultReceiverName; stateName; stateName]].

Definition writeCopyBatchInitialization (copies : list generatedQuery) : result buffer :=
  if negb (notEmpty copies) then mret []
  else
    batchers ← eachM copies writeCopyBatcher;
    mret (
    [Fprintf "func (%s *%s[SK]) initializeCopyBatchers(options storeOptions) error {\n"
       [defaultReceiverName; defaultMeshStoreType]] ++
    batchers ++
    [WriteString "\treturn nil\n";
     WriteString "}\n\n"]).

Definition writeStoreConfiguration (opts : options) (queries : list generatedQuery) (groups : list storeGroup) : result buffer :=
  let copies := copyQueries queries in
  initialization ← writeCopyBatchInitialization copies;
  mret (
  [WriteString "type storeOptions struct {\n";
   WriteString "\ttracerProvider trace.TracerProvider\n";
   WriteString "\tmeterProvider metric.MeterProvider\n";
   WriteString "\tlogger *slog.Logger\n"] ++
  (if notEmpty groups then
    [WriteString "\tfactories struct {\n"] ++
    each groups (fun group =>
      [Fprintf "\t\t%s func(%s) %s\n" [sg_name group; sg_name group; sg_name group]]) ++
    [WriteString "\t}\n"]
  else []) ++
  (if notEmpty copies then
    [WriteString "\tcopyBatching struct {\n"] ++
    each copies (fun query =>
      [Fprintf "\t\t%s *pgmesh.CopyBatchConfig\n" [copyBatchConfigFieldName (methodName query)]]) ++
    [WriteString "\t}\n"]
  else []) ++
  [WriteString "}\n\n";
   WriteString "// StoreOption customizes a generated store.\n";
   WriteString "type StoreOption func(\*storeOptions)\n\n";
   WriteString "// WithTracerProvider configures the provider used for routed query spans.\n";
   WriteString "// A nil provider uses the global OpenTelemetry tracer provider.\n";
   WriteString "func WithTracerProvider(provider trace.TracerProvider) StoreOption {\n";
   WriteString "\treturn func(options *storeOptions) { options.tracerProvider = provider }\n";
   WriteString "}\n\n";
   WriteString "// WithMeterProvider configures the provider used for routed query metrics.\n";
   WriteString "// A nil provider uses the global OpenTelemetry meter provider.\n";
   WriteString "func WithMeterProvider(provider metric.MeterProvider) StoreOption {\n";
   WriteString "\treturn func(options *storeOptions) { options.meterProvider = provider }\n";
   WriteString "}\n\n";
   WriteString "// WithLogger configures optional structured logging for routed queries.\n";
   WriteString "// A nil logger disables logging.\n";
   WriteString "func WithLogger(logger *slog.Logger) StoreOption {\n";
   WriteString "\treturn func(options *storeOptions) { options.logger = logger }\n";
   WriteString "}\n\n";
   WriteString "func applyStoreOptions(options ...StoreOption) (storeOptions, error) {\n";
   WriteString "\tvar result storeOptions\n";
   WriteString "\tfor index, option := range options {\n";
   WriteString "\t\tif option == nil {\n";
   WriteString "\t\t\treturn storeOptions{}, fmt.Errorf(\qpgmesh: store option %d is nil\q, index)\n";
   WriteString "\t\t}\n";
   WriteString "\t\toption(&result)\n";
   WriteString "\t}\n";
   WriteString "\treturn result, nil\n";
   WriteString "}\n\n";
   Fprintf "// Topology is an opaque database topology for %s.\n" [StoreInterfaceName opts];
   WriteString "type Topology interface {\n";
   Fprintf "\tbuildStore(context.Context, storeOptions) (%s, error)\n" [StoreInterfaceName opts];
   WriteString "}\n\n";
   WriteString "type singletonConfig struct {\n";
   WriteString "\tname string\n";
   Fprintf "\tprimary %s\n" [targetName opts "DBTX"];
   Fprintf "\treplicas []%s\n" [targetName opts "DBTX"];
   Fprintf "\tmirrors []%s\n" [targetName opts "DBTX"];
   WriteString "}\n\n";
   WriteString "// SingletonOption customizes a single-database topology.\n";
   WriteString "type SingletonOption func(\*singletonConfig)\n\n";
   WriteString "// WithDatabaseName identifies the database in telemetry.\n";
   WriteString "// An empty name defaults to \qdefault\q.\n";
   WriteString "func WithDatabaseName(name string) SingletonOption {\n";
   WriteString "\treturn func(config *singletonConfig) { config.name = name }\n";
   WriteString "}\n\n";
   WriteString "// WithReadReplicas appends databases used for round-robin reads.\n";
   Fprintf "func WithReadReplicas(databases ...%s) SingletonOption {\n" [targetName opts "DBTX"];
   Fprintf "\treplicas := append([]%s(nil), databases...)\n" [targetName opts "DBTX"];
   WriteString "\treturn func(config *singletonConfig) { config.replicas = append(config.replicas, replicas...) }\n";
   WriteString "}\n\n";
   WriteString "// WithWriteMirrors appends databases that synchronously receive writes.\n";
   Fprintf "func WithWriteMirrors(databases ...%s) SingletonOption {\n" [targetName opts "DBTX"];
   Fprintf "\tmirrors := append([]%s(nil), databases...)\n" [targetName opts "DBTX"];
   WriteString "\treturn func(config *singletonConfig) { config.mirrors = append(config.mirrors, mirrors...) }\n";
   WriteString "}\n\n";
   WriteString "type singletonTopology struct {\n";
   WriteString "\tconfig singletonConfig\n";
   WriteString "\terr error\n";
   WriteString "}\n\n";
   WriteString "// Singleton returns a topology with one primary database.\n";
   Fprintf "func Singleton(primary %s, options ...SingletonOption) Topology {\n" [targetName opts "DBTX"];
   WriteString "\tconfig := singletonConfig{name: \qdefault\q, primary: primary}\n";
   WriteString "\tfor index, option := range options {\n";
   WriteString "\t\tif option == nil {\n";
   WriteString "\t\t\treturn singletonTopology{err: fmt.Errorf(\qpgmesh: singleton option %d is nil\q, index)}\n";
   WriteString "\t\t}\n";
   WriteString "\t\toption(&config)\n";
   WriteString "\t}\n";
   WriteString "\treturn singletonTopology{config: config}\n";
   WriteString "}\n\n";
   Fprintf "// %s creates the generated query API from an opaque topology configuration.\n" [ConstructorName opts];
   Fprintf "func %s(ctx context.Context, topology Topology, options ...StoreOption) (%s, error) {\n"
     [ConstructorName opts; StoreInterfaceName opts];
   WriteString "\tif topology == nil {\n";
   WriteString "\t\treturn nil, fmt.Errorf(\qpgmesh: topology is nil\q)\n";
   WriteString "\t}\n";
   WriteString "\tstoreOptions, err := applyStoreOptions(options...)\n";
   WriteString "\tif err != nil { return nil, err }\n";
   WriteString "\treturn topology.buildStore(ctx, storeOptions)\n";
   WriteString "}\n\n";
   Fprintf "type %s[SK any] struct {\n" [defaultMeshStoreType];
   Fprintf "\tmesh *pgmesh.Mesh[*%s, *%s, SK]\n" [defaultReadType; defaultStoreType]] ++
  (if hasShardOperations queries then
    [Fprintf "\tresolver %s[SK]\n" [ResolverInterfaceName opts]]
  else []) ++
  each copies (fun query =>
    [Fprintf "\t%s *%s\n" [copyBatchStateFieldName (methodName query); copyBatchStateTypeName (methodName query)]]) ++
  (if notEmpty groups then
    [WriteString "\tgroups struct {\n"] ++
    each groups (fun group =>
      [Fprintf "\t\t%s %s\n" [sg_name group; sg_name group]]) ++
    [WriteString "\t}\n"]
  else []) ++
  [WriteString "}\n\n";
   Fprintf "var _ %s = (\*%s[uint8])(nil)\n\n" [StoreInterfaceName opts; defaultMeshStoreType]] ++
  initialization ++
  (if notEmpty groups then
    [Fprintf "type %s[SK any] struct {\n" [defaultGroupType];
     Fprintf "\tstore *%s[SK]\n" [defaultMeshStoreType];
     WriteString "}\n\n";
     Fprintf "func (%s *%s[SK]) initializeGroups(options storeOptions) {\n"
       [defaultReceiverName; defaultMeshStoreType]] ++
    each groups (fun group =>
      [Fprintf "\tinternal%s := &%s[SK]{store: %s}\n" [sg_name group; defaultGroupType; defaultReceiverName];
       Fprintf "\t%s.groups.%s = internal%s\n" [defaultReceiverName; sg_name group; sg_name group];
       Fprintf "\tif create%s := options.factories.%s; create%s != nil {\n"
         [sg_name group; sg_name group; sg_name group];
       Fprintf "\t\t%s.groups.%s = &%s[SK]{store: %s, target: create%s(internal%s)}\n"
         [defaultReceiverName; sg_name group; storeTelemetryTypeName (sg_name group); defaultReceiverName; sg_name group; sg_name group];
       WriteString "\t}\n"]) ++
    [WriteString "}\n\n"]
  else []) ++
  [Fprintf "func (c singletonTopology) buildStore(_ context.Context, options storeOptions) (%s, error) {\n"
     [StoreInterfaceName opts];
   WriteString "\tif c.err != nil { return nil, c.err }\n";
   WriteString "\tconfig := c.config\n";
   WriteString "\tif config.name == \q\q { config.name = \qdefault\q }\n";
   WriteString "\tif config.primary == nil {\n";
   WriteString "\t\treturn nil, fmt.Errorf(\qpgmesh: database primary is nil\q)\n";
   WriteString "\t}\n";
   WriteString "\tfor index, database := range config.replicas {\n";
   WriteString "\t\tif database == nil { return nil, fmt.Errorf(\qpgmesh: database replica %d is nil\q, index) }\n";
   WriteString "\t}\n";
   WriteString "\tfor index, database := range config.mirrors {\n";
   WriteString "\t\tif database == nil { return nil, fmt.Errorf(\qpgmesh: database mirror %d is nil\q, index) }\n";
   WriteString "\t}\n";
   Fprintf "\tprimary := %s(config.primary)\n" [defaultNodeNew];
   Fprintf "\treplicas := make([]pgmesh.Node[*%s, *%s], 0, len(config.replicas))\n"
     [defaultReadType; defaultStoreType];
   WriteString "\tfor _, database := range config.replicas {\n";
   Fprintf "\t\treplicas = append(replicas, %s(database))\n" [defaultNodeNew];
   WriteString "\t}\n";
   WriteString "\treplicaSet := pgmesh.NewReplicaSet(config.name, primary, replicas)\n";
   Fprintf "\tmirrors := make([]*%s, 0, len(config.mirrors))\n" [defaultStoreType];
   WriteString "\tfor _, database := range config.mirrors {\n";
   Fprintf "\t\tmirrors = append(mirrors, %s(database).Writer())\n" [defaultNodeNew];
   WriteString "\t}\n";
   WriteString "\treplicaSet = replicaSet.WithWriteMirrors(mirrors...)\n";
   Fprintf "\tmesh, err := pgmesh.NewMeshBuilder[*%s, *%s, uint8](1).\n" [defaultReadType; defaultStoreType];
   WriteString "\t\tWithShardHasher(pgmesh.NewConstantShardHasher[uint8](0)).\n";
   WriteString "\t\tWithTracerProvider(options.tracerProvider).\n";
   WriteString "\t\tWithMeterProvider(options.meterProvider).\n";
   WriteString "\t\tWithLogger(options.logger).\n";
   WriteString "\t\tMapVirtualShard(0, replicaSet).\n";
   WriteString "\t\tBuild()\n";
   WriteString "\tif err != nil { return nil, err }\n"] ++
  (if notEmpty groups then
    [Fprintf "\tstore := &%s[uint8]{mesh: mesh}\n" [defaultMeshStoreType]] ++
    (if notEmpty copies then
      [WriteString "\tif err := store.initializeCopyBatchers(options); err != nil { return nil, err }\n"]
    else []) ++
    [WriteString "\tstore.initializeGroups(options)\n";
     WriteString "\treturn store, nil\n"]
  else
    [Fprintf "\treturn &%s[uint8]{mesh: mesh}, nil\n" [defaultMeshStoreType]]) ++
  [WriteString "}\n\n"]).

Definition writeShardedStore (opts : options) (groups : list storeGroup) : buffer :=
  let hasCopyQueries := existsb (fun group => notEmpty (copyQueries (sg_queries group))) groups in
  [WriteString "type shardDatabase struct {\n";
   WriteString "\tname string\n";
   Fprintf "\tprimary %s\n" [targetName opts "DBTX"];
   Fprintf "\treplicas []%s\n" [targetName opts "DBTX"];
   WriteString "}\n\n";
   WriteString "type shardMapping struct {\n";
   WriteString "\tmainReplicaSet string\n";
   WriteString "\tvirtualShards []uint64\n";
   WriteString "\tmirrorReplicaSets []string\n";
   WriteString "}\n\n";
   WriteString "type shardedOptions struct {\n";
   WriteString "\treplicaSets []shardDatabase\n";
   WriteString "\tmappings []shardMapping\n";
   WriteString "}\n\n";
   WriteString "// ShardedOption customizes a sharded topology.\n";
   WriteString "type ShardedOption func(\*shardedOptions)\n\n";
   WriteString "// WithReplicaSet appends a named primary and its optional read replicas.\n";
   Fprintf "func WithReplicaSet(name string, primary %s, replicas ...%s) ShardedOption {\n"
     [targetName opts "DBTX"; targetName opts "DBTX"];
   Fprintf "\tconfiguredReplicas := append([]%s(nil), replicas...)\n" [targetName opts "DBTX"];
   WriteString "\treturn func(options *shardedOptions) {\n";
   WriteString "\t\toptions.replicaSets = append(options.replicaSets, shardDatabase{\n";
   WriteString "\t\t\tname: name, primary: primary, replicas: append([]";
   Fprintf "%s(nil), configuredReplicas...),\n" [targetName opts "DBTX"];
   WriteString "\t\t})\n";
   WriteString "\t}\n";
   WriteString "}\n\n";
   WriteString "// WithVirtualShardMapping maps virtual shards to a main replica set and optional ordered write mirrors.\n";
   WriteString "func WithVirtualShardMapping(mainReplicaSet string, virtualShards []uint64, mirrorReplicaSets ...string) ShardedOption {\n";
   WriteString "\tconfiguredVirtualShards := append([]uint64(nil), virtualShards...)\n";
   WriteString "\tconfiguredMirrors := append([]string(nil), mirrorReplicaSets...)\n";
   WriteString "\treturn func(options *shardedOptions) {\n";
   WriteString "\t\toptions.mappings = append(options.mappings, shardMapping{\n";
   WriteString "\t\t\tmainReplicaSet: mainReplicaSet,\n";
   WriteString "\t\t\tvirtualShards: append([]uint64(nil), configuredVirtualShards...),\n";
   WriteString "\t\t\tmirrorReplicaSets: append([]string(nil), configuredMirrors...),\n";
   WriteString "\t\t})\n";
   WriteString "\t}\n";
   WriteString "}\n\n";
   Fprintf "type shardedTopology[SK any] struct {\n" [];
   WriteString "\tvirtualShardCount uint64\n";
   WriteString "\tshardHasher pgmesh.ShardHasher[SK]\n";
   Fprintf "\tresolver %s[SK]\n" [ResolverInterfaceName opts];
   WriteString "\toptions shardedOptions\n";
   WriteString "\terr error\n";
   WriteString "}\n\n";
   Fprintf "// %s returns an opaque sharded topology.\n" [ShardedConstructor opts];
   Fprintf "func %s[SK any](virtualShardCount uint64, shardHasher pgmesh.ShardHasher[SK], resolver %s[SK], options ...ShardedOption) Topology {\n"
     [ShardedConstructor opts; ResolverInterfaceName opts];
   WriteString "\tvar configured shardedOptions\n";
   WriteString "\tfor index, option := range options {\n";
   WriteString "\t\tif option == nil {\n";
   WriteString "\t\t\treturn shardedTopology[SK]{err: fmt.Errorf(\qpgmesh: sharded option %d is nil\q, index)}\n";
   WriteString "\t\t}\n";
   WriteString "\t\toption(&configured)\n";
   WriteString "\t}\n";
   WriteString "\treturn shardedTopology[SK]{\n";
   WriteString "\t\tvirtualShardCount: virtualShardCount,\n";
   WriteString "\t\tshardHasher: shardHasher,\n";
   WriteString "\t\tresolver: resolver,\n";
   WriteString "\t\toptions: configured,\n";
   WriteString "\t}\n";
   WriteString "}\n\n";
   Fprintf "func (c shardedTopology[SK]) buildStore(ctx context.Context, options storeOptions) (%s, error) {\n"
     [StoreInterfaceName opts];
   WriteString "\tif c.err != nil { return nil, c.err }\n";
   WriteString "\tif c.resolver == nil {\n";
   WriteString "\t\treturn nil, fmt.Errorf(\qpgmesh: shard resolver is nil\q)\n";
   WriteString "\t}\n";
   Fprintf "\tnodes := make(map[string]%s)\n" [targetName opts "DBTX"];
   WriteString "\tmeshOptions := make([]pgmesh.OpenMeshOption, 0, len(c.options.replicaSets)+len(c.options.mappings)+3)\n";
   WriteString "\tfor setIndex, set := range c.options.replicaSets {\n";
   WriteString "\t\tprimaryDSN := fmt.Sprintf(\qpgmesh-internal://%d/primary\q, setIndex)\n";
   WriteString "\t\tnodes[primaryDSN] = set.primary\n";
   WriteString "\t\treplicaDSNs := make([]string, 0, len(set.replicas))\n";
   WriteString "\t\tfor replicaIndex, database := range set.replicas {\n";
   WriteString "\t\t\tdsn := fmt.Sprintf(\qpgmesh-internal://%d/replica/%d\q, setIndex, replicaIndex)\n";
   WriteString "\t\t\tnodes[dsn] = database\n";
   WriteString "\t\t\treplicaDSNs = append(replicaDSNs, dsn)\n";
   WriteString "\t\t}\n";
   WriteString "\t\tmeshOptions = append(meshOptions, pgmesh.WithReplicaSet(set.name, primaryDSN, replicaDSNs...))\n";
   WriteString "\t}\n";
   WriteString "\tfor _, mapping := range c.options.mappings {\n";
   WriteString "\t\tmeshOptions = append(meshOptions, pgmesh.WithVirtualShardMapping(\n";
   WriteString "\t\t\tmapping.mainReplicaSet,\n";
   WriteString "\t\t\tmapping.virtualShards,\n";
   WriteString "\t\t\tmapping.mirrorReplicaSets...,\n";
   WriteString "\t\t))\n";
   WriteString "\t}\n";
   WriteString "\tmeshOptions = append(meshOptions,\n";
   WriteString "\t\tpgmesh.WithTracerProvider(options.tracerProvider),\n";
   WriteString "\t\tpgmesh.WithMeterProvider(options.meterProvider),\n";
   WriteString "\t\tpgmesh.WithLogger(options.logger),\n";
   WriteString "\t)\n";
   WriteString "\tmesh, err := pgmesh.OpenMesh(ctx, c.virtualShardCount,\n";
   Fprintf "\t\tfunc(_ context.Context, dsn string) (pgmesh.Node[*%s, *%s], error) {\n"
     [defaultReadType; defaultStoreType];
   WriteString "\t\t\tdatabase, ok := nodes[dsn]\n";
   WriteString "\t\t\tif !ok || database == nil {\n";
   Fprintf "\t\t\t\treturn pgmesh.Node[*%s, *%s]{}, fmt.Errorf(\qpgmesh: database node %%q is nil\q, dsn)\n"
     [defaultReadType; defaultStoreType];
   WriteString "\t\t\t}\n";
   Fprintf "\t\t\treturn %s(database), nil\n" [defaultNodeNew];
   WriteString "\t\t},\n";
   WriteString "\t\tc.shardHasher,\n";
   WriteString "\t\tmeshOptions...,\n";
   WriteString "\t)\n";
   WriteString "\tif err != nil { return nil, err }\n"] ++
  (if notEmpty groups then
    [Fprintf "\tstore := &%s[SK]{mesh: mesh, resolver: c.resolver}\n" [defaultMeshStoreType]] ++
    (if hasCopyQueries then
      [WriteString "\tif err := store.initializeCopyBatchers(options); err != nil { return nil, err }\n"]
    else []) ++
    [WriteString "\tstore.initializeGroups(options)\n";
     WriteString "\treturn store, nil\n"]
  else
    [Fprintf "\treturn &%s[SK]{mesh: mesh, resolver: c.resolver}, nil\n" [defaultMeshStoreType]]) ++
  [WriteString "}\n\n"].

(** The body of the loop over a group's queries. *)
Definition writeQueryMethodsOf (opts : options) (query : generatedQuery) : result buffer :=
  method ← writeMeshStoreQueryMethod opts query;
  async ← (if isCopy query then writeAsyncCopyQueryMethods query else mret []);
  mret (method ++ async).

Definition writeStoreGroup (opts : options) (group : storeGroup) : result buffer :=
  wrappers ← writeShardArgWrappers opts (sg_queries group);
  methods ← eachM (sg_queries group) (writeQueryMethodsOf opts);
  mret (
  writeStoreParamAliases (sg_queries group) ++
  wrappers ++
  writeCopyBatchTypesAndOptions (sg_queries group) ++
  writeStoreGroupInterfaces opts group ++
  writeStoreTelemetryWrapper opts group ++
  let factoryName := storeFactoryOptionName (sg_name group) in
  [Fprintf "// %s configures an optional wrapper for the %s query group.\n" [factoryName; sg_name group];
   WriteString "// A nil factory leaves the generated query group unwrapped.\n";
   Fprintf "func %s(create%s func(%s) %s) StoreOption {\n"
     [factoryName; sg_name group; sg_name group; sg_name group];
   Fprintf "\treturn func(options *storeOptions) { options.factories.%s = create%s }\n"
     [sg_name group; sg_name group];
   WriteString "}\n\n";
   Fprintf "var _ %s = (\*%s[uint8])(nil)\n" [sg_name group; defaultGroupType];
   Fprintf "var _ %s = (\*%s[uint8])(nil)\n\n" [sg_name group; storeTelemetryTypeName (sg_name group)];
   Fprintf "// %s returns the %s query group.\n" [sg_name group; sg_name group];
   Fprintf "func (%s *%s[SK]) %s() %s {\n" [defaultReceiverName; defaultMeshStoreType; sg_name group; sg_name group];
   Fprintf "\treturn %s.groups.%s\n" [defaultReceiverName; sg_name group];
   WriteString "}\n\n"] ++
  methods).

End EmitStore.
