(* ===== verification/Generate.v ===== *)
(** * Generate: the files of a generated store
    (sqlcplugin/emission.go, aliases.go, plugin.go)

    [generateWrapper] checks the queries against each other, collects the
    imports and writes the files; [Generate] is the plugin's entry point.
    go/parser and go/format are arguments: [Selectors] gives the selector
    expressions of a type that have an identifier on their left, in the order
    [ast.Inspect] visits them, and [formatSource] formats a file. *)

From S2P Require Import Prelude Errors GoStrings Unicode GoFormat Plugin Naming Annotations Imports.
From S2P Require Import PostgresTypes Queries Routes Collect Options Emit EmitMethods EmitStore.
From Stdlib Require Import Ascii String.

#[local] Open Scope string_scope.
#[local] Open Scope list_scope.
#[local] Coercion AStr : string >-> arg.
#[local] Arguments cons {A} & a l.

Section Generate.
Context `{UT : !UnicodeTables} `{GS : !GoSort} `{MO : !GoMapOrder}.

(** ** Bytes of a buffer *)

Definition text (w : write) : string :=
  match w with
  | WriteString lit => literal lit
  | WriteValue value => value
  | Fprintf format args => sprintf itoa (literal format) args
  end.

Definition render (b : buffer) : string := foldr (fun w s => text w +:+ s) "" b.

(** ** Aliases of sqlc types *)

Section Aliases.
Context (Selectors : string -> option (list (string * string))) (opts : options).

(** The closure [addType]: the exported names a type takes from the package. *)
Definition addType (aliases : gmap string unit) (typ : string) : result (gmap string unit) :=
  if bool_decide (typ = "") then mret aliases
  else
    match Selectors typ with
    | None => Err (Errorf "parse generated Go type %q for sqlc aliases: %w" [AStr typ] [Foreign 0])
    | Some selectors =>
        mret (fold_left (fun aliases '(x, sel) =>
          if bool_decide (x = internalQualifier opts) && IsUpper (firstRune sel)
          then <[sel := tt]> aliases else aliases) selectors aliases)
    end.

Definition structTypes (v : queryValue) : list string :=
  match qv_structType v with Some s => fld_typ <$> str_fields s | None => [] end.

(** The types [addType] is called with for a query, in order. *)
Definition queryTypes (query : generatedQuery) : list string :=
  (arg_typ <$> params query) ++ results query ++
  (match gq_route query with Some route => op_typ <$> rt_operands route | None => [] end) ++
  (match gq_shardArgs query with Some w => fld_typ <$> wr_fields w | None => [] end) ++
  (if qv_emit (gq_arg query) then [defineType opts (gq_arg query)] else []) ++
  structTypes (gq_arg query) ++ [defineType opts (gq_ret query)] ++ structTypes (gq_ret query).

(** A nullable enum needs the enum itself. *)
Definition addEnum (catalog : Catalog) (schema : Schema) (aliases : gmap string unit) (enum : string) : gmap string unit :=
  let name :=
    if bool_decide (sch_name schema <> cat_default_schema catalog)
    then sch_name schema +:+ ("_" +:+ enum) else enum in
  let name := structName name opts in
  match aliases !! ("Null" +:+ name) with
  | Some _ => <[name := tt]> aliases
  | None => aliases
  end.

Definition addEnums (catalog : Catalog) (aliases : gmap string unit) (schema : Schema) : gmap string unit :=
  if skippedSchema (sch_name schema) then aliases
  else fold_left (addEnum catalog schema) (sch_enums schema) aliases.

Definition collectSQLCTypeAliases (queries : list generatedQuery) (catalog : Catalog) : result (list string) :=
  if negb (ExportSQLCTypes opts) then mret []
  else
    aliases ← foldO addType ∅ (queries ≫= queryTypes);
    let aliases := fold_left (addEnums catalog) (cat_schemas catalog) aliases in
    mret (sortByKey (fun name => name) (fst <$> rangeMap aliases)).
End Aliases.

(** ** File names *)

Definition derivedOutputFileName (outputFileName section : string) : string :=
  let extension := Ext outputFileName in
  let stem := TrimSuffix outputFileName extension in
  stem +:+ ("_" +:+ (section +:+ extension)).

Definition fixedSections : list string := ["interfaces"; "read"; "write"; "sharded"].

(** The inner loop: the section gets prefixes until its file is free. *)
Fixpoint groupFileName (fuel : nat) (outputFileName section : string) (used : gset string) : option string :=
  match fuel with
  | O => None
  | S fuel =>
      let name := derivedOutputFileName outputFileName section in
      if bool_decide (ToLower name ∈ used)
      then groupFileName fuel outputFileName ("group_" +:+ section) used
      else Some name
  end.

Fixpoint groupFileNames (outputFileName : string) (groups : list storeGroup) (used : gset string) : option (list string) :=
  match groups with
  | [] => Some []
  | group :: groups =>
      name ← groupFileName (S (size used)) outputFileName (snakeCaseIdentifier (sg_name group)) used;
      names ← groupFileNames outputFileName groups ({[ToLower name]} ∪ used);
      Some (name :: names)
  end.

(** The names taken before any group's. *)
Definition fixedFileNames (outputFileName : string) : list string :=
  outputFileName :: (derivedOutputFileName outputFileName <$> fixedSections).

Definition storeGroupOutputFileNames (outputFileName : string) (groups : list storeGroup) : option (list string) :=
  groupFileNames outputFileName groups (list_to_set (ToLower <$> fixedFileNames outputFileName)).

(** ** Files *)

Record file := MkFile { file_name : string; file_contents : string }.

Section Files.
Context (formatSource : string -> result string).

Definition generateFile (opts : options) (imports : importSet) (body : buffer) : result string :=
  let out :=
    [Fprintf "%s\n\n" [generatedHeader];
     Fprintf "package %s\n\n" [PackageName opts]] ++
    writeImports (usedImports (sorted imports) (render body)) ++
    [WriteValue (render body)] in
  match formatSource (render out) with
  | Ok formatted => mret formatted
  | Err e => Err (Errorf "format generated wrapper: %w" [] [e])
  | Panic => Panic
  end.

(** Every query of a store with shards is sharded. *)
Definition checkShardModes (queries : list generatedQuery) : result unit :=
  foldO (fun _ query =>
    if bool_decide (gq_shardMode query = shardModeNone) then
      Err (Errorf "query %s must declare shard metadata because this store contains sharded queries; move unsharded queries to another generated store"
        [AStr (methodName query)] [])
    else mret tt) tt queries.

(** The imports every file may use, on top of those of the types. *)
Definition wrapperImports (opts : options) (imports : importSet) : importSet :=
  let imports :=
    if bool_decide (InternalImportPath opts <> "")
    then addNamed (importAlias (InternalImportAlias opts)) (InternalImportPath opts) imports else imports in
  let imports := addNamed defaultRuntimeAlias (RuntimeImportPath opts) imports in
  let imports := fold_left (fun imports path => add path imports)
    [defaultContext; defaultErrorsPackage; defaultFMT; defaultReflect; defaultSlog; defaultSync;
     defaultMetric; defaultTrace; defaultPGXPackage] imports in
  if negb (IgnoreMirrorError opts)
  then add defaultErrorsPackage (add defaultDatabaseSQL imports) else imports.

(** The files in order: a name and what [appendFile] is to write. *)
Definition wrapperBodies (opts : options) (queries : list generatedQuery) (aliases : list string)
    (routes : list shardRoute) (groups : list storeGroup) (groupFileNames : list string)
    : list (string * result buffer) :=
  let sharded := hasShardOperations queries in
  [(derivedOutputFileName (OutputFileName opts) "interfaces",
    mret (writeSQLCTypeAliases opts aliases ++
      writeQueryInterfaces opts queries groups ++
      (if sharded then writeShardKeyTypes opts routes ++ writeShardResolverInterface opts routes else [])));
   (derivedOutputFileName (OutputFileName opts) "read", mret (writeReadQueries opts queries));
   (derivedOutputFileName (OutputFileName opts) "write", mret (writeWriteQueries opts queries));
   (OutputFileName opts,
    configuration ← writeStoreConfiguration opts queries groups;
    mret (writeQueryOptions ++ writeQueryStore opts ++ writeNodeConstructor opts ++ configuration))] ++
  zip groupFileNames (writeStoreGroup opts <$> groups) ++
  [(derivedOutputFileName (OutputFileName opts) "sharded",
    mret (if sharded then writeShardedStore opts groups else []))].

(** [appendFile] for each of them. *)
Fixpoint appendFiles (opts : options) (imports : importSet) (bodies : list (string * result buffer)) : result (list file) :=
  match bodies with
  | [] => mret []
  | (name, body) :: bodies =>
      body ← body;
      content ← generateFile opts imports body;
      files ← appendFiles opts imports bodies;
      mret (MkFile name content :: files)
  end.

Definition generateWrapper (Selectors : string -> option (list (string * string))) (opts : options)
    (queries : list generatedQuery) (imports : importSet) (catalog : Catalog) : result (list file) :=
  routes ← collectShardRoutes queries;
  groups ← collectStoreGroups queries opts;
  groupFileNames ← panic_if_none (storeGroupOutputFileNames (OutputFileName opts) groups);
  aliases ← collectSQLCTypeAliases Selectors opts queries catalog;
  _ ← validateSQLCTypeAliases opts queries groups aliases;
  _ ← (if hasShardOperations queries then checkShardModes queries else mret tt);
  appendFiles opts (wrapperImports opts imports) (wrapperBodies opts queries aliases routes groups groupFileNames).

(** ** The entry point *)

(** An error of a step, wrapped. *)
Definition wrapStep {A} (format : string) (m : result A) : result A :=
  match m with Err e => Err (Errorf format [] [e]) | Ok a => Ok a | Panic => Panic end.

Definition Generate (Selectors : string -> option (list (string * string)))
    (ParseExpr : string -> option astExpr) (Singular : string -> string)
    (Decode : string -> result (options * bool))
    (ctxErr : option error) (req : GenerateRequest) (pluginOptions : string) : result (list file) :=
  match ctxErr with
  | Some e => Err (Errorf "generate pgmesh wrappers: %w" [] [e])
  | None =>
      opts ← wrapStep "parse options: %w" (parseOptions ParseExpr Decode req pluginOptions);
      '(queries, imports) ← wrapStep "build query specifications: %w"
        (querySpecs (req_catalog req) opts Singular (req_queries req));
      wrapStep "generate wrappers: %w" (generateWrapper Selectors opts queries imports (req_catalog req))
  end.
End Files.
End Generate.
