(* ===== verification/GenerateFiles.v ===== *)
(** * GenerateFiles: the names of the generated files

    The search for a free file name always ends, and the files of a store are
    distinct even on a file system that ignores case. *)

From S2P Require Import Prelude Errors GoStrings Unicode GoFormat Plugin Naming Annotations Imports.
From S2P Require Import PostgresTypes Queries Routes Collect Options Emit EmitMethods EmitStore Generate.
From Stdlib Require Import Ascii String.

#[local] Open Scope string_scope.

Lemma app_string_cancel_l (a b c : string) : a +:+ b = a +:+ c -> b = c.
Proof.
  induction a as [|x a IH]; [by rewrite !app_nil_string|]. rewrite !app_cons_string. intros [= H]. by apply IH.
Qed.

Lemma TrimSuffix_app a t : TrimSuffix (a +:+ t) t = a.
Proof.
  unfold TrimSuffix. rewrite (proj2 (HasSuffix_app _ _)) by (by exists a).
  rewrite length_app_string, Nat.add_sub. apply takeBytes_app.
Qed.

(** Repeated prefixes of a section. *)
Fixpoint prefixed (k : nat) (section : string) : string :=
  match k with O => section | S k => prefixed k ("group_" +:+ section) end.

Section FileNames.
Context `{UT : !UnicodeTables}.

(** The derived names keep what comes before the extension. *)
Lemma derived_shape name :
  goFileName name ->
  exists stem, name = stem +:+ ".go" /\
    forall section, derivedOutputFileName name section = stem +:+ ("_" +:+ (section +:+ ".go")).
Proof.
  intros ((stem & Hname) & Hs & _). exists stem. split; [done|]. intros section.
  unfold derivedOutputFileName.
  assert (Ext name = ".go") as ->. { by apply (Ext_plain name "go"); [done..|exists stem]. }
  by rewrite Hname, TrimSuffix_app.
Qed.

Lemma ToLower_group s : ToLower ("group_" +:+ s) = "group_" +:+ ToLower s.
Proof. rewrite !app_cons_string, !app_nil_string. rewrite !ToLower_cons_ascii by done. reflexivity. Qed.

Lemma prefixed_length k section t :
  String.length (ToLower (prefixed k section +:+ t)) = (6 * k + String.length (ToLower (section +:+ t)))%nat.
Proof.
  revert section. induction k as [|k IH]; intros section; [done|]. cbn [prefixed].
  rewrite IH, app_string_assoc, ToLower_group, length_app_string. cbn [String.length]. lia.
Qed.

Lemma derived_key_length stem section :
  String.length (ToLower (stem +:+ ("_" +:+ (section +:+ ".go")))) =
  (String.length (ToLower stem) + S (String.length (ToLower (section +:+ ".go"))))%nat.
Proof.
  rewrite app_cons_string, app_nil_string, ToLower_app_ascii, length_app_string by done.
  rewrite ToLower_cons_ascii by done. reflexivity.
Qed.

(** The names the search tries for a section. *)
Definition groupCandidates (fuel : nat) (outputFileName section : string) : list string :=
  (fun k => ToLower (derivedOutputFileName outputFileName (prefixed k section))) <$> seq 0 fuel.

Lemma groupFileName_None fuel name section used :
  groupFileName fuel name section used = None ->
  forall x, x ∈ groupCandidates fuel name section -> x ∈ used.
Proof.
  revert section. induction fuel as [|fuel IH]; intros section; [by intros _ x ?%elem_of_nil|].
  cbn [groupFileName]. case_bool_decide as Hin; [|done]. intros H x. unfold groupCandidates.
  cbn [seq fmap list_fmap]. intros [->|Hx]%elem_of_cons; [done|]. apply (IH _ H).
  unfold groupCandidates. rewrite <- fmap_S_seq, <- list_fmap_compose in Hx. done.
Qed.

Lemma groupCandidates_NoDup fuel name section :
  goFileName name -> NoDup (groupCandidates fuel name section).
Proof.
  intros (stem & _ & Hd)%derived_shape. unfold groupCandidates. apply NoDup_fmap_2_strong; [|apply NoDup_seq].
  intros i j _ _ E. apply (f_equal String.length) in E. rewrite !Hd, !derived_key_length, !prefixed_length in E. lia.
Qed.

Lemma groupFileName_Some fuel name section used file :
  groupFileName fuel name section used = Some file ->
  (ToLower file ∉ used) /\ exists k, file = derivedOutputFileName name (prefixed k section).
Proof.
  revert section. induction fuel as [|fuel IH]; intros section; cbn [groupFileName]; [done|].
  case_bool_decide as Hin; [|intros [= <-]; split; [done|by exists 0%nat]].
  intros [Hf [k ->]]%IH. split; [done|]. by exists (S k).
Qed.

(** The search ends. *)
Lemma groupFileName_found name section used :
  goFileName name -> is_Some (groupFileName (S (size used)) name section used).
Proof.
  intros Hname. destruct (groupFileName _ _ _ _) as [file|] eqn:E; [done|]. exfalso.
  pose proof (groupFileName_None _ _ _ _ E) as Hall.
  assert (list_to_set (groupCandidates (S (size used)) name section) ⊆ used) as Hsub
    by (intros x; rewrite elem_of_list_to_set; apply Hall).
  apply subseteq_size in Hsub. rewrite size_list_to_set in Hsub by by apply groupCandidates_NoDup.
  unfold groupCandidates in Hsub. rewrite length_fmap, length_seq in Hsub. lia.
Qed.

Lemma groupFileNames_found name groups used :
  goFileName name ->
  exists names, groupFileNames name groups used = Some names /\
    List.length names = List.length groups /\ NoDup (ToLower <$> names) /\
    Forall (fun file => ToLower file ∉ used) names /\
    Forall2 (fun group file => exists k, file = derivedOutputFileName name
      (prefixed k (snakeCaseIdentifier (sg_name group)))) groups names.
Proof.
  intros Hname. revert used. induction groups as [|group groups IH]; intros used.
  { exists []. split_and!; [done..|constructor|constructor|constructor]. }
  cbn [groupFileNames].
  destruct (groupFileName_found name (snakeCaseIdentifier (sg_name group)) used Hname) as [file E].
  rewrite E. apply groupFileName_Some in E as [Hfile Hk]. cbn [mbind option_bind].
  destruct (IH ({[ToLower file]} ∪ used)) as (names & -> & Hlen & Hnd & Hfree & Hks).
  exists (file :: names). cbn [mbind option_bind fmap list_fmap].
  split_and!; [done|by cbn; rewrite Hlen| | |by constructor].
  - constructor; [|done]. intros (f & Hf & Hin)%list_elem_of_fmap.
    rewrite Forall_forall in Hfree. apply Hfree in Hin. set_solver.
  - constructor; [done|]. eapply Forall_impl; [exact Hfree|]. set_solver.
Qed.

Lemma fixedFileNames_NoDup name : goFileName name -> NoDup (ToLower <$> fixedFileNames name).
Proof.
  intros (stem & Hname & Hd)%derived_shape. unfold fixedFileNames.
  assert (ToLower <$> (name :: (derivedOutputFileName name <$> fixedSections)) =
    append (ToLower stem) <$> (ToLower <$> [".go"; "_interfaces.go"; "_read.go"; "_write.go"; "_sharded.go"])) as ->.
  { unfold fixedSections. cbn [fmap list_fmap]. rewrite !Hd, Hname.
    rewrite !app_cons_string, !app_nil_string, !ToLower_app_ascii by done. done. }
  apply NoDup_fmap_2; [intros a b; apply app_string_cancel_l|].
  apply (bool_decide_unpack _). vm_compute. exact I.
Qed.
End FileNames.
