(* ===== verification/Conformance.v ===== *)
(** * Conformance: generated types implement the generated interfaces

    The generated files assert [var _ Accounts = ( *groupedMeshStore[uint8])(nil)]
    and the like, so a store whose methods do not match its interfaces does not
    compile. The declarations a writer emits are read off its writes: method
    lines of interfaces and headers of methods. A method's signature is its
    name with the types of its parameters and results; up to the aliases that
    re-export sqlc's types, the interface and both implementations of a store
    group have the same ones. *)

From S2P Require Import Prelude Errors GoStrings Unicode GoFormat Plugin Naming Annotations Imports.
From S2P Require Import Queries Collect Emit EmitMethods EmitStore Generate.
From Stdlib Require Import Ascii String.

#[local] Open Scope string_scope.
#[local] Open Scope list_scope.

(** ** Declarations *)

(** A method line of an interface, and the header of a method on a type. *)
Definition isMethodLine (w : write) : bool :=
  match w with Fprintf format _ => HasPrefix format "\t%s(" | _ => false end.

Definition isHeaderOf (receiver : string) (w : write) : bool :=
  match w with
  | Fprintf format (_ :: AStr r :: _) => HasPrefix format "func (%s *%s" && String.eqb r receiver
  | _ => false
  end.

(** Writes that declare nothing. *)
Definition isDeclaration (w : write) : bool :=
  match w with
  | Fprintf format _ => HasPrefix format "\t%s(" || HasPrefix format "func (%s *%s"
  | _ => false
  end.
Definition quiet (b : buffer) : Prop := Forall (fun w => isDeclaration w = false) b.

Record signature := MkSignature {
  sig_name : string;
  sig_params : list argument;
  sig_variadic : bool;      (* ends in the query options *)
  sig_results : list string;
}.

Definition sigParams (s : signature) : string :=
  if sig_variadic s then storeParamsSignature (sig_params s) else paramsSignature (sig_params s).

(** The line of a signature in an interface. *)
Definition interfaceLine (s : signature) : string :=
  String "009" (sig_name s +:+ ("(" +:+ (sigParams s +:+ (")" +:+ (resultsSignature (sig_results s) +:+ String "010" ""))))).

(** Result types as they stand in a header: bare, or each with a name of its own. *)
Definition resultsText (rs : list string) (t : string) : Prop :=
  t = resultsSignature rs \/
  exists names, List.length names = List.length rs /\ NoDup names /\ rs <> [] /\
    t = " (" +:+ (Join (zip_with (fun name r => name +:+ (" " +:+ r)) names rs) ", " +:+ ")").

(** The header of a method on a type. *)
Definition declaredOn (receiver : string) (s : signature) (line : string) : Prop :=
  exists t, resultsText (sig_results s) t /\
    line = "func (q *" +:+ (receiver +:+ (") " +:+ (sig_name s +:+ ("(" +:+
      (sigParams s +:+ (")" +:+ (t +:+ (" {" +:+ String "010" "")))))))).

(** The methods a query has in its store: the query itself, and for a copy the
    asynchronous copy and its flush. *)
Definition queryMethods (query : generatedQuery) (ps : list argument) (rs : list string) : list signature :=
  MkSignature (methodName query) ps true rs ::
  if isCopy query then
    [MkSignature (copyAsyncMethodName (methodName query)) ps false ["*pgmesh.Future[int64]"];
     MkSignature (copyFlushMethodName (methodName query)) [MkArgument "ctx" "context.Context"] false [resultErrorName]]
  else [].

(** With sqlc's types as they are, and as they are re-exported. *)
Definition ownMethods (query : generatedQuery) : list signature :=
  queryMethods query (storeParams query) (results query).
Definition exportedMethods (opts : options) (query : generatedQuery) : list signature :=
  queryMethods query (exportedSQLCArguments opts (storeParams query)) (exportedSQLCTypes opts (results query)).

(** ** Quiet buffers *)

Lemma quiet_nil : quiet [].
Proof. constructor. Qed.

Lemma quiet_cons w b : isDeclaration w = false -> quiet b -> quiet (w :: b).
Proof. by constructor. Qed.

Lemma quiet_app a b : quiet a -> quiet b -> quiet (a ++ b).
Proof. intros. by apply Forall_app. Qed.

Lemma quiet_each {A} (l : list A) f : (forall x, quiet (f x)) -> quiet (each l f).
Proof. intros H. unfold each, quiet. apply Forall_concat, Forall_fmap, Forall_forall. intros x _. apply H. Qed.

Lemma quiet_eachIndexed {A} (l : list A) f : (forall i x, quiet (f i x)) -> quiet (eachIndexed l f).
Proof.
  intros H. unfold eachIndexed, quiet. apply Forall_concat, Forall_forall.
  intros b (i & x & -> & _)%elem_of_lookup_imap. apply H.
Qed.

Lemma filter_quiet (P : write -> bool) b :
  (forall w, P w = true -> isDeclaration w = true) -> quiet b -> List.filter P b = [].
Proof.
  intros HP. induction 1 as [|w b Hw _ IH]; [done|]. cbn. destruct (P w) eqn:E; [|done].
  apply HP in E. congruence.
Qed.

Lemma isMethodLine_declaration w : isMethodLine w = true -> isDeclaration w = true.
Proof. destruct w; try done. cbn. by intros ->. Qed.

Lemma isHeaderOf_declaration r w : isHeaderOf r w = true -> isDeclaration w = true.
Proof.
  destruct w as [| |format [|a [|[|s] args]]]; try done. cbn. intros [-> _]%andb_true_iff. apply orb_true_r.
Qed.

Create HintDb quiet discriminated.

(** Case analysis on the conditions of a writer, then its writes one by one. *)
Ltac quiet_writer :=
  repeat match goal with
  | |- quiet [] => apply quiet_nil
  | |- quiet (_ ++ _) => apply quiet_app
  | |- quiet (each _ _) => apply quiet_each; intros ?
  | |- quiet (eachIndexed _ _) => apply quiet_eachIndexed; intros ? ?
  | |- quiet (_ :: _) => apply quiet_cons; [reflexivity|]
  | |- quiet (if ?b then _ else _) => destruct b
  | |- quiet (match ?x with _ => _ end) => destruct x
  end; try done; auto with quiet.

Section Writers.
Context `{UT : !UnicodeTables}.

Lemma writeStoreParamAliases_quiet qs : quiet (writeStoreParamAliases qs).
Proof. unfold writeStoreParamAliases. quiet_writer. Qed.

Lemma writeStructField_quiet opts name typ db : quiet (writeStructField opts name typ db).
Proof. unfold writeStructField. quiet_writer. Qed.

Lemma writeCopyBatchTypesAndOptions_quiet qs : quiet (writeCopyBatchTypesAndOptions qs).
Proof. unfold writeCopyBatchTypesAndOptions. cbv zeta. quiet_writer. Qed.

Lemma writeInternalQuerySpanStart_quiet s q e : quiet (writeInternalQuerySpanStart s q e).
Proof. unfold writeInternalQuerySpanStart. quiet_writer. Qed.

#[local] Hint Resolve writeStoreParamAliases_quiet writeStructField_quiet
  writeCopyBatchTypesAndOptions_quiet writeInternalQuerySpanStart_quiet : quiet.

Lemma eachM_Ok {A} (l : list A) f b :
  eachM l f = Ok b <-> exists bs, Forall2 (fun x y => f x = Ok y) l bs /\ b = List.concat bs.
Proof.
  revert b. induction l as [|x l IH]; intros b; cbn [eachM].
  { split; [intros [= <-]; by exists []|]. by intros (bs & ->%Forall2_nil_inv_l & ->). }
  rewrite bind_Ok. setoid_rewrite bind_Ok. setoid_rewrite IH. split.
  - intros (y & Hy & b' & (bs & Hbs & ->) & [= <-]). exists (y :: bs). by split; [constructor|].
  - intros (bs & (y & bs' & Hy & Hbs & ->)%Forall2_cons_inv_l & ->).
    exists y. split; [done|]. exists (List.concat bs'). split; [by exists bs'|done].
Qed.

Lemma writeSQLCArgReconstructor_quiet opts w b : writeSQLCArgReconstructor opts w = Ok b -> quiet b.
Proof.
  unfold writeSQLCArgReconstructor. destruct (isEmpty _); [intros [= <-]; apply quiet_nil|].
  rewrite bind_Ok. intros (s & _ & [= <-]). quiet_writer.
Qed.

Lemma quiet_concat bs : Forall quiet bs -> quiet (List.concat bs).
Proof. intros H. by apply Forall_concat. Qed.

Lemma writeShardArgWrappers_quiet opts qs b : writeShardArgWrappers opts qs = Ok b -> quiet b.
Proof.
  unfold writeShardArgWrappers. intros (bs & Hbs & ->)%eachM_Ok. apply quiet_concat.
  induction Hbs as [|q b qs bs Hq _ IH]; constructor; [|done].
  destruct (gq_shardArgs q) as [w|]; [|injection Hq as <-; apply quiet_nil].
  apply bind_Ok in Hq as (r & Hr%writeSQLCArgReconstructor_quiet & [= <-]).
  quiet_writer.
Qed.

(** ** Declarations of a writer *)

(** The declarations among the writes, in order. *)
Definition decls (b : buffer) : buffer := List.filter isDeclaration b.

Lemma decls_app a b : decls (a ++ b) = decls a ++ decls b.
Proof. apply List.filter_app. Qed.

Lemma decls_quiet b : quiet b -> decls b = [].
Proof. apply filter_quiet. done. Qed.

Lemma decls_each {A} (l : list A) f : decls (each l f) = each l (fun x => decls (f x)).
Proof.
  unfold each. induction l as [|x l IH]; [done|]. cbn. by rewrite decls_app, <- IH.
Qed.

(** Methods of a type and lines of interfaces are declarations. *)
Lemma filter_decls (P : write -> bool) b :
  (forall w, P w = true -> isDeclaration w = true) -> List.filter P (decls b) = List.filter P b.
Proof.
  intros HP. unfold decls. induction b as [|w b IH]; [done|]. cbn.
  destruct (isDeclaration w) eqn:E; cbn; [by rewrite IH|].
  destruct (P w) eqn:EP; [apply HP in EP; congruence|done].
Qed.

(** *** Interfaces *)

Lemma interface_lines opts q :
  Forall (fun w => isMethodLine w = true) (decls (writeStoreInterfaceMethod opts q)) /\
  text <$> decls (writeStoreInterfaceMethod opts q) = interfaceLine <$> exportedMethods opts q.
Proof.
  unfold writeStoreInterfaceMethod, exportedMethods, queryMethods. destruct (isCopy q); cbn [negb].
  - split; [by repeat constructor|]. reflexivity.
  - split; [by repeat constructor|]. reflexivity.
Qed.

Lemma decls_cons_quiet w b : isDeclaration w = false -> decls (w :: b) = decls b.
Proof. intros H. unfold decls. cbn. by rewrite H. Qed.

(** The methods of a kind. *)
Definition ofKind (k : queryKind) (qs : list generatedQuery) : list generatedQuery :=
  filter (fun q => kind q = k) qs.

Lemma each_lines opts k qs :
  let b := each qs (fun q => if bool_decide (kind q = k) then writeStoreInterfaceMethod opts q else []) in
  Forall (fun w => isMethodLine w = true) (decls b) /\
  text <$> decls b = interfaceLine <$> (ofKind k qs ≫= exportedMethods opts).
Proof.
  cbn zeta. induction qs as [|q qs [IH1 IH2]]; [done|]. unfold each in *. cbn [fmap list_fmap List.concat].
  rewrite decls_app, fmap_app, IH2. unfold ofKind. case_bool_decide as E.
  - destruct (interface_lines opts q) as [H1 H2]. rewrite filter_cons_True by done.
    split; [by apply Forall_app|]. cbn [mbind list_bind]. by rewrite fmap_app, H2.
  - rewrite filter_cons_False by done. by split.
Qed.

Lemma writeStoreGroupInterfaces_lines opts group :
  let b := writeStoreGroupInterfaces opts group in
  Forall (fun w => isMethodLine w = true) (decls b) /\
  text <$> decls b = interfaceLine <$>
    ((ofKind queryKindRead (sg_queries group) ++ ofKind queryKindWrite (sg_queries group)) ≫= exportedMethods opts).
Proof.
  cbn zeta. unfold writeStoreGroupInterfaces. cbv zeta.
  destruct (each_lines opts queryKindRead (sg_queries group)) as [R1 R2].
  destruct (each_lines opts queryKindWrite (sg_queries group)) as [W1 W2].
  unfold isRead, isWrite. rewrite !decls_app.
  repeat rewrite (decls_quiet (_ :: _)) by quiet_writer.
  rewrite !app_nil_l, ?app_nil_r, bind_app, !fmap_app, R2, W2. split; [by apply Forall_app|done].
Qed.

(** *** Methods *)

(** The declarations are the headers of these methods on a type. *)
Definition headersFor (receiver : string) (sigs : list signature) (b : buffer) : Prop :=
  Forall2 (fun s w => isHeaderOf receiver w = true /\ declaredOn (receiver +:+ "[SK]") s (text w)) sigs (decls b).

Lemma headersFor_app r s1 s2 a b : headersFor r s1 a -> headersFor r s2 b -> headersFor r (s1 ++ s2) (a ++ b).
Proof. unfold headersFor. rewrite decls_app. apply Forall2_app. Qed.

Lemma headersFor_quiet_l r s a b : quiet a -> headersFor r s b -> headersFor r s (a ++ b).
Proof. intros Ha. unfold headersFor. by rewrite decls_app, (decls_quiet a Ha). Qed.

Lemma headersFor_quiet_r r s a b : quiet b -> headersFor r s a -> headersFor r s (a ++ b).
Proof. intros Hb. unfold headersFor. by rewrite decls_app, (decls_quiet b Hb), app_nil_r. Qed.

Lemma headersFor_nil r b : quiet b -> headersFor r [] b.
Proof. intros Hb. unfold headersFor. rewrite (decls_quiet b Hb). constructor. Qed.

Lemma namedResults_text ps rs t names e :
  namedResults ps rs = (t, names, e) -> resultsText rs t /\ (rs <> [] -> names <> []).
Proof.
  unfold namedResults, namedResultsSignature.
  destruct (nameResults_fresh (List.length rs) 0 rs
    (list_to_set (argumentNames ps) ∪ list_to_set [defaultReceiverName; "storeOptions"])) as (ns & E & Hlen & Hnd & _).
  rewrite E. cbn [mbind option_bind default]. intros [= <- <- _]. split.
  - destruct rs as [|r rs]; [left; by destruct ns|]. right. exists ns. split_and!; [done..|].
    by destruct ns.
  - intros Hne ->. by destruct rs.
Qed.

Lemma header_text r n p t :
  text (Fprintf "func (%s *%s[SK]) %s(%s)%s {\n" [AStr defaultReceiverName; AStr r; AStr n; AStr p; AStr t]) =
  "func (q *" +:+ ((r +:+ "[SK]") +:+ (") " +:+ (n +:+ ("(" +:+ (p +:+ (")" +:+ (t +:+ (" {" +:+ String "010" "")))))))).
Proof. rewrite app_string_assoc. reflexivity. Qed.

Lemma header_declared r n ps variadic rs t :
  resultsText rs t ->
  headersFor r [MkSignature n ps variadic rs]
    [Fprintf "func (%s *%s[SK]) %s(%s)%s {\n"
       [AStr defaultReceiverName; AStr r; AStr n; AStr (sigParams (MkSignature n ps variadic rs)); AStr t]].
Proof.
  intros Ht. constructor; [|constructor]. split; [cbn; apply String.eqb_refl|].
  exists t. split; [done|]. apply header_text.
Qed.

Lemma async_header r n ps :
  headersFor r [MkSignature n ps false ["*pgmesh.Future[int64]"]]
    [Fprintf "func (%s *%s[SK]) %s(%s) *pgmesh.Future[int64] {\n"
       [AStr defaultReceiverName; AStr r; AStr n; AStr (paramsSignature ps)]].
Proof.
  constructor; [|constructor]. split; [cbn; apply String.eqb_refl|].
  exists " *pgmesh.Future[int64]". split; [by left|]. rewrite app_string_assoc. reflexivity.
Qed.

Lemma flush_header r n :
  headersFor r [MkSignature n [MkArgument "ctx" "context.Context"] false [resultErrorName]]
    [Fprintf "func (%s *%s[SK]) %s(ctx context.Context) error {\n" [AStr defaultReceiverName; AStr r; AStr n]].
Proof.
  constructor; [|constructor]. split; [cbn; apply String.eqb_refl|].
  exists " error". split; [by left|]. rewrite app_string_assoc. reflexivity.
Qed.

(** A header among quiet writes. *)
Lemma headersFor_cons r s sigs w b :
  headersFor r [s] [w] -> headersFor r sigs b -> headersFor r (s :: sigs) (w :: b).
Proof. apply (headersFor_app r [s] sigs [w] b). Qed.

Lemma headersFor_skip r sigs w b : isDeclaration w = false -> headersFor r sigs b -> headersFor r sigs (w :: b).
Proof. intros Hw. unfold headersFor. by rewrite decls_cons_quiet. Qed.

Lemma writeCopyTelemetryMethods_headers q ps r :
  headersFor r (List.tail (queryMethods q ps (results q))) (if isCopy q then writeCopyTelemetryMethods q ps r else []).
Proof.
  unfold queryMethods. destruct (isCopy q); [|constructor]. cbn [List.tail].
  unfold writeCopyTelemetryMethods. cbv zeta.
  apply headersFor_cons; [apply async_header|]. do 8 (apply headersFor_skip; [reflexivity|]).
  apply headersFor_cons; [apply flush_header|]. apply headersFor_nil. quiet_writer.
Qed.

Lemma writeStoreTelemetryWrapper_headers opts group :
  headersFor (storeTelemetryTypeName (sg_name group)) (sg_queries group ≫= exportedMethods opts)
    (writeStoreTelemetryWrapper opts group).
Proof.
  unfold writeStoreTelemetryWrapper. cbv zeta. apply headersFor_quiet_l; [quiet_writer|].
  induction (sg_queries group) as [|q qs IH]; [constructor|].
  unfold each in *. cbn [fmap list_fmap List.concat mbind list_bind]. apply headersFor_app; [|done].
  clear IH. set (ps := exportedSQLCArguments opts (storeParams q)). set (rs := exportedSQLCTypes opts (results q)).
  destruct (if lastResultIsError rs then namedResults ps rs else (resultsSignature rs, [], ""))
    as [[t names] e] eqn:E.
  assert (resultsText rs t) as Ht.
  { destruct (lastResultIsError rs); [by apply namedResults_text in E as [? _]|].
    injection E as <- _ _. by left. }
  change (exportedMethods opts q) with ([MkSignature (methodName q) ps true rs] ++ List.tail (queryMethods q ps (results q))).
  apply headersFor_app; [by apply header_declared|].
  apply headersFor_quiet_l; [quiet_writer|]. apply headersFor_quiet_l; [quiet_writer|].
  apply writeCopyTelemetryMethods_headers.
Qed.

(** The method of a query on its store, in each of its modes. *)
Definition ownMethod (q : generatedQuery) : signature := MkSignature (methodName q) (storeParams q) true (results q).

Lemma writeRoutedQueryMethod_headers q : headersFor defaultGroupType [ownMethod q] (writeRoutedQueryMethod q).
Proof.
  unfold writeRoutedQueryMethod. cbv zeta.
  destruct (if lastResultIsError (results q) then _ else _) as [[t names] e] eqn:E.
  assert (resultsText (results q) t) as Ht.
  { destruct (lastResultIsError (results q)); [by apply namedResults_text in E as [? _]|].
    injection E as <- _ _. by left. }
  apply headersFor_quiet_r; [quiet_writer|].
  apply headersFor_skip; [reflexivity|]. by apply header_declared.
Qed.

Lemma writeAllShardsQueryMethod_headers q b :
  writeAllShardsQueryMethod q = Ok b -> headersFor defaultGroupType [ownMethod q] b.
Proof.
  unfold writeAllShardsQueryMethod. cbv zeta.
  destruct (namedResults (storeParams q) (results q)) as [[t names] e] eqn:E.
  apply namedResults_text in E as [Ht _]. intros (merge & Hmerge & <-%mret_Ok)%bind_Ok.
  assert (quiet merge) as Hm.
  { revert Hmerge. repeat case_bool_decide; rewrite ?bind_Ok;
      try (intros (n & _ & [= <-])); try (intros [= <-]); quiet_writer. }
  apply headersFor_quiet_r; [quiet_writer|].
  apply headersFor_skip; [reflexivity|]. by apply header_declared.
Qed.

Lemma writeGroupedCopyQueryMethod_headers q b :
  writeGroupedCopyQueryMethod q = Ok b -> headersFor defaultGroupType [ownMethod q] b.
Proof.
  unfold writeGroupedCopyQueryMethod. cbv zeta. rewrite !bind_Ok.
  intros (rowsType & _ & H). apply bind_Ok in H as (inputName & _ & H). apply bind_Ok in H as (route & _ & H).
  destruct (namedResults (storeParams q) (results q)) as [[t names] e] eqn:E.
  apply namedResults_text in E as [Ht _].
  apply bind_Ok in H as (firstName & _ & H). apply bind_Ok in H as (append & Happend & <-%mret_Ok).
  assert (quiet append) as Ha.
  { revert Happend. destruct (gq_shardArgs q) as [w|]; [|intros [= <-]; quiet_writer].
    destruct (isEmpty _); cbn [negb]; [intros (? & _ & [= <-])%bind_Ok|intros [= <-]]; quiet_writer. }
  apply headersFor_quiet_r; [quiet_writer|].
  apply headersFor_skip; [reflexivity|]. by apply header_declared.
Qed.

Lemma writeGroupedManyQueryMethod_headers opts q b :
  writeGroupedManyQueryMethod opts q = Ok b -> headersFor defaultGroupType [ownMethod q] b.
Proof.
  unfold writeGroupedManyQueryMethod. cbv zeta. rewrite !bind_Ok.
  intros (spec & _ & H). apply bind_Ok in H as (inputName & _ & H). apply bind_Ok in H as (route & _ & H).
  apply bind_Ok in H as (firstResult & _ & H).
  destruct (namedResults (storeParams q) (results q)) as [[t names] e] eqn:E.
  apply namedResults_text in E as [Ht _].
  apply bind_Ok in H as (firstName & _ & <-%mret_Ok).
  apply headersFor_quiet_r; [quiet_writer|].
  apply headersFor_skip; [reflexivity|]. by apply header_declared.
Qed.

Lemma writeMeshStoreQueryMethod_headers opts q b :
  writeMeshStoreQueryMethod opts q = Ok b -> headersFor defaultGroupType [ownMethod q] b.
Proof.
  unfold writeMeshStoreQueryMethod. destruct (gq_shardMode q).
  - intros [= <-]. apply writeRoutedQueryMethod_headers.
  - intros [= <-]. apply writeRoutedQueryMethod_headers.
  - apply writeAllShardsQueryMethod_headers.
  - apply writeGroupedCopyQueryMethod_headers.
  - apply writeGroupedManyQueryMethod_headers.
Qed.

Lemma writeAsyncCopyMethod_headers q b :
  writeAsyncCopyMethod q = Ok b ->
  headersFor defaultGroupType
    [MkSignature (copyAsyncMethodName (methodName q)) (storeParams q) false ["*pgmesh.Future[int64]"]] b.
Proof.
  unfold writeAsyncCopyMethod. cbv zeta. rewrite !bind_Ok.
  intros (inputName & _ & H). apply bind_Ok in H as (rowsType & _ & H).
  apply bind_Ok in H as (groups & Hgroups & <-%mret_Ok).
  assert (quiet groups) as Hg.
  { revert Hgroups. case_bool_decide; [|intros [= <-]; quiet_writer].
    intros (route & _ & HG)%bind_Ok. apply bind_Ok in HG as (append & Happend & [= <-]).
    assert (quiet append).
    { revert Happend. unfold writeCopyGroupAppend. destruct (gq_shardArgs q) as [w|]; [|intros [= <-]; quiet_writer].
      destruct (isEmpty _); cbn [negb]; [intros (? & _ & [= <-])%bind_Ok|intros [= <-]]; quiet_writer. }
    quiet_writer. }
  apply headersFor_quiet_r; [quiet_writer|].
  apply headersFor_skip; [reflexivity|]. apply headersFor_cons; [apply async_header|]. apply headersFor_nil. quiet_writer.
Qed.

Lemma writeAsyncCopyFlushMethod_headers q :
  headersFor defaultGroupType
    [MkSignature (copyFlushMethodName (methodName q)) [MkArgument "ctx" "context.Context"] false [resultErrorName]]
    (writeAsyncCopyFlushMethod q).
Proof.
  unfold writeAsyncCopyFlushMethod. cbv zeta. apply headersFor_skip; [reflexivity|].
  apply headersFor_cons; [apply flush_header|]. apply headersFor_nil. quiet_writer.
Qed.

Lemma writeQueryMethodsOf_headers opts q b :
  writeQueryMethodsOf opts q = Ok b -> headersFor defaultGroupType (ownMethods q) b.
Proof.
  unfold writeQueryMethodsOf. intros (m & Hm%writeMeshStoreQueryMethod_headers & H)%bind_Ok.
  apply bind_Ok in H as (a & Ha & [= <-]). unfold ownMethods, queryMethods.
  apply (headersFor_app _ [ownMethod q]); [done|]. destruct (isCopy q); [|injection Ha as <-; constructor].
  unfold writeAsyncCopyQueryMethods in Ha. apply bind_Ok in Ha as (c & Hc%writeAsyncCopyMethod_headers & [= <-]).
  by apply (headersFor_app _ [_] [_]); [|apply writeAsyncCopyFlushMethod_headers].
Qed.

(** ** Store groups *)

(** The same method up to aliases: a re-exported type is the type itself. *)
Definition aliasOf (opts : options) (own exported : signature) : Prop :=
  sig_name exported = sig_name own /\ sig_variadic exported = sig_variadic own /\
  (sig_params exported = sig_params own \/ sig_params exported = exportedSQLCArguments opts (sig_params own)) /\
  (sig_results exported = sig_results own \/ sig_results exported = exportedSQLCTypes opts (sig_results own)).

(** Every method of the interfaces is declared on the type. *)
Definition implements (opts : options) (receiver : string) (b : buffer) : Prop :=
  forall line, line ∈ text <$> List.filter isMethodLine b ->
  exists exported own w, line = interfaceLine exported /\ aliasOf opts own exported /\
    w ∈ b /\ isHeaderOf receiver w = true /\ declaredOn (receiver +:+ "[SK]") own (text w).

Lemma ownMethods_alias opts q : Forall2 (aliasOf opts) (ownMethods q) (exportedMethods opts q).
Proof.
  unfold ownMethods, exportedMethods, queryMethods, aliasOf.
  constructor; [split_and!; try done; by right|]. destruct (isCopy q); [|constructor].
  repeat constructor; try done; (by right) || (by left).
Qed.

Lemma HasPrefix_header f : HasPrefix f "func (%s *%s" = true -> HasPrefix f "\t%s(" = false.
Proof.
  unfold HasPrefix. destruct f as [|c f]; [done|]. cbn [String.prefix].
  destruct (ascii_dec "f" c) as [<-|]; [reflexivity|done].
Qed.

Lemma headersFor_methods r sigs b :
  headersFor r sigs b ->
  List.filter isMethodLine (decls b) = [] /\
  (forall r', String.eqb r r' = false -> List.filter (isHeaderOf r') (decls b) = []) /\
  (forall s, s ∈ sigs -> exists w, w ∈ b /\ isHeaderOf r w = true /\ declaredOn (r +:+ "[SK]") s (text w)).
Proof.
  intros H. split_and!.
  - induction H as [|s w sigs ws [Hw _] _ IH]; [done|]. cbn.
    destruct w as [| |f [|a [|[|x] args]]]; try done. cbn in *. apply andb_true_iff in Hw as [Hf _].
    by rewrite (HasPrefix_header f Hf).
  - intros r' Hr. induction H as [|s w sigs ws [Hw _] _ IH]; [done|]. cbn.
    destruct w as [| |f [|a [|[|x] args]]]; try done. cbn in *. apply andb_true_iff in Hw as [Hf ->%String.eqb_eq].
    by rewrite Hr, andb_false_r.
  - intros s Hs. apply list_elem_of_lookup in Hs as [i Hi].
    eapply Forall2_lookup_l in H as (w & Hw & Hd); [|exact Hi]. exists w. split; [|done].
    apply list_elem_of_lookup_2 in Hw. unfold decls in Hw. apply list_elem_of_In, List.filter_In in Hw as [Hw _].
    by apply list_elem_of_In.
Qed.

Lemma methods_headers opts qs b :
  eachM qs (writeQueryMethodsOf opts) = Ok b -> headersFor defaultGroupType (qs ≫= ownMethods) b.
Proof.
  intros (bs & Hbs & ->)%eachM_Ok. induction Hbs as [|q b qs bs Hq _ IH]; [constructor|].
  cbn [List.concat mbind list_bind]. apply headersFor_app; [|done]. by apply writeQueryMethodsOf_headers in Hq.
Qed.

(** Where the declarations of a group's file are. *)
Lemma writeStoreGroup_parts opts group b :
  writeStoreGroup opts group = Ok b ->
  exists accessor methods,
    headersFor defaultGroupType (sg_queries group ≫= ownMethods) methods /\
    isMethodLine accessor = false /\ isHeaderOf defaultMeshStoreType accessor = true /\
    (forall w, w ∈ writeStoreTelemetryWrapper opts group ++ methods -> w ∈ b) /\
    decls b = decls (writeStoreGroupInterfaces opts group) ++ decls (writeStoreTelemetryWrapper opts group) ++
      [accessor] ++ decls methods.
Proof.
  unfold writeStoreGroup. cbv zeta. intros (w & Hw%writeShardArgWrappers_quiet & H)%bind_Ok.
  apply bind_Ok in H as (methods & Hm%methods_headers & <-%mret_Ok).
  exists (Fprintf "func (%s *%s[SK]) %s() %s {\n"
    [AStr defaultReceiverName; AStr defaultMeshStoreType; AStr (sg_name group); AStr (sg_name group)]), methods.
  split_and!; [done|done|done| |].
  - intros x. rewrite !elem_of_app. tauto.
  - rewrite !decls_app. rewrite (decls_quiet (writeStoreParamAliases _)) by auto with quiet.
    rewrite (decls_quiet w), (decls_quiet (writeCopyBatchTypesAndOptions _)) by auto with quiet. done.
Qed.

(** C34: Generated stores implement their interfaces. In the file of a store
    group the lines of the reader and writer interfaces are those of the
    group's read and write queries, with the asynchronous copy and the flush of
    every copy query, and every one of them is declared with the same name,
    parameter types and result types, up to re-exported sqlc types, both on the
    grouped store and on its telemetry wrapper. *)
Theorem store_group_implements opts group b :
  writeStoreGroup opts group = Ok b ->
  text <$> List.filter isMethodLine b =
    interfaceLine <$> ((ofKind queryKindRead (sg_queries group) ++ ofKind queryKindWrite (sg_queries group))
      ≫= exportedMethods opts) /\
  ofKind queryKindRead (sg_queries group) ++ ofKind queryKindWrite (sg_queries group) ≡ₚ sg_queries group /\
  implements opts defaultGroupType b /\ implements opts (storeTelemetryTypeName (sg_name group)) b.
Proof.
  intros (accessor & methods & Hm & Hacc & _ & Hin & Hd)%writeStoreGroup_parts.
  destruct (writeStoreGroupInterfaces_lines opts group) as [HI1 HI2].
  pose proof (writeStoreTelemetryWrapper_headers opts group) as Ht.
  destruct (headersFor_methods _ _ _ Hm) as (Hm1 & _ & Hm3).
  destruct (headersFor_methods _ _ _ Ht) as (Ht1 & _ & Ht3).
  set (qs := ofKind queryKindRead (sg_queries group) ++ ofKind queryKindWrite (sg_queries group)) in *.
  assert (qs ≡ₚ sg_queries group) as Hperm.
  { unfold qs, ofKind. clear. induction (sg_queries group) as [|q l IH]; [done|].
    destruct (kind q) eqn:E.
    - rewrite filter_cons_True, filter_cons_False by (done || by rewrite E). cbn [app]. by constructor.
    - rewrite filter_cons_False, filter_cons_True by (done || by rewrite E).
      rewrite <- Permutation_middle. by constructor. }
  assert (text <$> List.filter isMethodLine b = interfaceLine <$> (qs ≫= exportedMethods opts)) as Hlines.
  { rewrite <- HI2, <- (filter_decls isMethodLine), Hd, !List.filter_app, Ht1, Hm1 by apply isMethodLine_declaration.
    cbn [List.filter]. rewrite Hacc, !app_nil_r. f_equal.
    clear -HI1. induction HI1 as [|w l Hw _ IH]; [done|]. cbn. by rewrite Hw, IH. }
  split_and!; [done|done| |].
  - intros line Hl. rewrite Hlines in Hl. apply list_elem_of_fmap in Hl as (s & -> & Hs).
    apply list_elem_of_bind in Hs as (q & Hs & Hq). rewrite Hperm in Hq.
    pose proof (ownMethods_alias opts q) as Hal. apply list_elem_of_lookup in Hs as [i Hi].
    eapply Forall2_lookup_r in Hal as (own & Hown & Ha); [|exact Hi].
    destruct (Hm3 own) as (w & Hw & Hh & Hdec).
    { apply list_elem_of_bind. exists q. split; [by eapply list_elem_of_lookup_2|done]. }
    exists s, own, w. split_and!; try done. apply Hin, elem_of_app. by right.
  - intros line Hl. rewrite Hlines in Hl. apply list_elem_of_fmap in Hl as (s & -> & Hs).
    destruct (Ht3 s) as (w & Hw & Hh & Hdec).
    { apply list_elem_of_bind in Hs as (q & Hs & Hq). rewrite Hperm in Hq. apply list_elem_of_bind. by exists q. }
    exists s, s, w. split_and!; try done; [|apply Hin, elem_of_app; by left].
    split_and!; [done|done|by left|by left].
Qed.
End Writers.
