(* ===== verification/Declarations.v ===== *)
(** * Declarations: a generated package declares every name once

    The top-level types and functions a file declares are read off its writes,
    and are the names that [collectStoreGroups] reserves, with the unexported
    ones that come with them. For accepted queries no two declarations of the
    generated files have one name. *)

From S2P Require Import Prelude Errors GoStrings Unicode GoFormat Plugin Naming Annotations Imports.
From S2P Require Import PostgresTypes Queries Routes Collect Options Emit EmitMethods EmitStore Generate Conformance.
From Stdlib Require Import Ascii String.

#[local] Open Scope string_scope.
#[local] Open Scope list_scope.

(** ** Top-level declarations *)

Definition identByte (a : ascii) : bool :=
  let z := byteZ a in asciiUpper z || asciiLower z || inRange 48 57 z || (z =? 95)%Z.

(** The name at the start of a format: its letters and digits, with the operand
    of each %s. *)
Fixpoint declaredName (format : string) (args : list arg) : string :=
  match format with
  | String "%" (String "s" format) =>
      match args with AStr a :: args => a +:+ declaredName format args | _ => "" end
  | String c format => if identByte c then String c (declaredName format args) else ""
  | EmptyString => ""
  end.

(** A line at the margin that declares a type or a function that is no method. *)
Definition topName (format : string) (args : list arg) : option string :=
  if HasPrefix format "type " || (HasPrefix format "func " && negb (HasPrefix format "func ("))
  then Some (declaredName (dropBytes 5 format) args) else None.

Definition writtenName (w : write) : option string :=
  match w with
  | WriteString lit => topName lit []
  | WriteValue _ => None
  | Fprintf format args => topName format args
  end.

Definition declaredNames (b : buffer) : list string := omap writtenName b.

Lemma declaredNames_app a b : declaredNames (a ++ b) = declaredNames a ++ declaredNames b.
Proof. apply omap_app. Qed.

Lemma declaredNames_each {A} (l : list A) f : declaredNames (each l f) = l ≫= (fun x => declaredNames (f x)).
Proof.
  unfold each. induction l as [|x l IH]; [done|]. cbn. by rewrite declaredNames_app, IH.
Qed.

(** *** Writers that declare nothing at the margin *)

Definition inert (b : buffer) : Prop := Forall (fun w => writtenName w = None) b.

Lemma inert_nil : inert [].
Proof. constructor. Qed.
Lemma inert_cons w b : writtenName w = None -> inert b -> inert (w :: b).
Proof. by constructor. Qed.
Lemma inert_app a b : inert a -> inert b -> inert (a ++ b).
Proof. intros. by apply Forall_app. Qed.
Lemma inert_each {A} (l : list A) f : (forall x, inert (f x)) -> inert (each l f).
Proof. intros H. unfold each, inert. apply Forall_concat, Forall_fmap, Forall_forall. intros x _. apply H. Qed.
Lemma inert_eachIndexed {A} (l : list A) f : (forall i x, inert (f i x)) -> inert (eachIndexed l f).
Proof.
  intros H. unfold eachIndexed, inert. apply Forall_concat, Forall_forall.
  intros b (i & x & -> & _)%elem_of_lookup_imap. apply H.
Qed.
Lemma inert_concat bs : Forall inert bs -> inert (List.concat bs).
Proof. intros H. by apply Forall_concat. Qed.

Lemma declaredNames_inert b : inert b -> declaredNames b = [].
Proof. induction 1 as [|w b Hw _ IH]; [done|]. cbn. by rewrite Hw. Qed.

Create HintDb inert discriminated.

Ltac inert_writer :=
  repeat match goal with
  | |- inert [] => apply inert_nil
  | |- inert (_ ++ _) => apply inert_app
  | |- inert (each _ _) => apply inert_each; intros ?
  | |- inert (eachIndexed _ _) => apply inert_eachIndexed; intros ? ?
  | |- inert (_ :: _) => apply inert_cons; [reflexivity|]
  | |- inert (if ?b then _ else _) => destruct b
  | |- inert (match ?x with _ => _ end) => destruct x
  end; try done; auto with inert.

Section Writers.
Context `{UT : !UnicodeTables}.

Lemma writeStructField_inert opts name typ db : inert (writeStructField opts name typ db).
Proof. unfold writeStructField. inert_writer. Qed.
Lemma writeInternalQuerySpanStart_inert s q e : inert (writeInternalQuerySpanStart s q e).
Proof. unfold writeInternalQuerySpanStart. inert_writer. Qed.
Lemma writeStoreInterfaceMethod_inert opts q : inert (writeStoreInterfaceMethod opts q).
Proof. unfold writeStoreInterfaceMethod. cbv zeta. inert_writer. Qed.
Lemma writeCopyTelemetryMethods_inert q ps r : inert (writeCopyTelemetryMethods q ps r).
Proof. unfold writeCopyTelemetryMethods. cbv zeta. inert_writer. Qed.
#[local] Hint Resolve writeStructField_inert writeInternalQuerySpanStart_inert writeStoreInterfaceMethod_inert
  writeCopyTelemetryMethods_inert : inert.

Lemma writeSQLCArgReconstructor_inert opts w b : writeSQLCArgReconstructor opts w = Ok b -> inert b.
Proof.
  unfold writeSQLCArgReconstructor. destruct (isEmpty _); [intros [= <-]; apply inert_nil|].
  rewrite bind_Ok. intros (s & _ & [= <-]). inert_writer.
Qed.

Lemma writeQueryMethodBody_inert opts q mirror : inert (writeQueryMethodBody opts q mirror).
Proof. unfold writeQueryMethodBody. cbv zeta. inert_writer. Qed.
#[local] Hint Resolve writeQueryMethodBody_inert : inert.
Lemma writeQueryMethods_inert opts r qs k mirror : inert (writeQueryMethods opts r qs k mirror).
Proof. unfold writeQueryMethods. inert_writer. Qed.

(** Methods of a query. *)
Lemma writeRoutedQueryMethod_inert q : inert (writeRoutedQueryMethod q).
Proof.
  unfold writeRoutedQueryMethod. cbv zeta.
  destruct (if lastResultIsError (results q) then _ else _) as [[t names] e]. inert_writer.
Qed.

Lemma writeAllShardsQueryMethod_inert q b : writeAllShardsQueryMethod q = Ok b -> inert b.
Proof.
  unfold writeAllShardsQueryMethod. cbv zeta. destruct (namedResults _ _) as [[t names] e].
  intros (merge & Hmerge & <-%mret_Ok)%bind_Ok.
  assert (inert merge) as Hm.
  { revert Hmerge. repeat case_bool_decide; rewrite ?bind_Ok;
      try (intros (n & _ & [= <-])); try (intros [= <-]); inert_writer. }
  inert_writer.
Qed.

Lemma writeCopyGroupAppend_inert q t i n b : writeCopyGroupAppend q t i n = Ok b -> inert b.
Proof.
  unfold writeCopyGroupAppend. destruct (gq_shardArgs q) as [w|]; [|intros [= <-]; inert_writer].
  destruct (isEmpty _); cbn [negb]; [intros (? & _ & [= <-])%bind_Ok|intros [= <-]]; inert_writer.
Qed.

Lemma writeGroupedCopyQueryMethod_inert q b : writeGroupedCopyQueryMethod q = Ok b -> inert b.
Proof.
  unfold writeGroupedCopyQueryMethod. cbv zeta. rewrite !bind_Ok.
  intros (rowsType & _ & H). apply bind_Ok in H as (inputName & _ & H). apply bind_Ok in H as (route & _ & H).
  destruct (namedResults _ _) as [[t names] e].
  apply bind_Ok in H as (firstName & _ & H). apply bind_Ok in H as (append & Happend & <-%mret_Ok).
  assert (inert append) as Ha.
  { revert Happend. destruct (gq_shardArgs q) as [w|]; [|intros [= <-]; inert_writer].
    destruct (isEmpty _); cbn [negb]; [intros (? & _ & [= <-])%bind_Ok|intros [= <-]]; inert_writer. }
  inert_writer.
Qed.

Lemma writeGroupedManyQueryMethod_inert opts q b : writeGroupedManyQueryMethod opts q = Ok b -> inert b.
Proof.
  unfold writeGroupedManyQueryMethod. cbv zeta. rewrite !bind_Ok.
  intros (spec & _ & H). apply bind_Ok in H as (inputName & _ & H). apply bind_Ok in H as (route & _ & H).
  apply bind_Ok in H as (firstResult & _ & H). destruct (namedResults _ _) as [[t names] e].
  apply bind_Ok in H as (firstName & _ & <-%mret_Ok). inert_writer.
Qed.

Lemma writeMeshStoreQueryMethod_inert opts q b : writeMeshStoreQueryMethod opts q = Ok b -> inert b.
Proof.
  unfold writeMeshStoreQueryMethod. destruct (gq_shardMode q).
  - intros <-%mret_Ok. apply writeRoutedQueryMethod_inert.
  - intros <-%mret_Ok. apply writeRoutedQueryMethod_inert.
  - apply writeAllShardsQueryMethod_inert.
  - apply writeGroupedCopyQueryMethod_inert.
  - apply writeGroupedManyQueryMethod_inert.
Qed.

Lemma writeAsyncCopyMethod_inert q b : writeAsyncCopyMethod q = Ok b -> inert b.
Proof.
  unfold writeAsyncCopyMethod. cbv zeta. rewrite !bind_Ok.
  intros (inputName & _ & H). apply bind_Ok in H as (rowsType & _ & H).
  apply bind_Ok in H as (groups & Hgroups & <-%mret_Ok).
  assert (inert groups) as Hg.
  { revert Hgroups. case_bool_decide; [|intros [= <-]; inert_writer].
    intros (route & _ & HG)%bind_Ok. apply bind_Ok in HG as (append & Ha%writeCopyGroupAppend_inert & [= <-]).
    inert_writer. }
  inert_writer.
Qed.

Lemma writeQueryMethodsOf_inert opts q b : writeQueryMethodsOf opts q = Ok b -> inert b.
Proof.
  unfold writeQueryMethodsOf. intros (m & Hm%writeMeshStoreQueryMethod_inert & H)%bind_Ok.
  apply bind_Ok in H as (a & Ha & [= <-]). apply inert_app; [done|].
  destruct (isCopy q); [|injection Ha as <-; constructor].
  unfold writeAsyncCopyQueryMethods in Ha. apply bind_Ok in Ha as (c & Hc%writeAsyncCopyMethod_inert & [= <-]).
  apply inert_app; [done|]. unfold writeAsyncCopyFlushMethod. cbv zeta. inert_writer.
Qed.


(** *** The names each writer declares *)

(** The names of a query in its group's file. *)
Definition aliasNames (q : generatedQuery) : list string :=
  match gq_storeParamAlias q with Some a => [pa_name a] | None => [] end.
Definition wrapperNames (q : generatedQuery) : list string :=
  match gq_shardArgs q with Some w => [wr_name w] | None => [] end.
Definition copyNames (q : generatedQuery) : list string :=
  if isCopy q then [copyBatchStateTypeName (methodName q); copyBatchOptionName (methodName q)] else [].

Lemma writeStoreParamAliases_names qs : declaredNames (writeStoreParamAliases qs) = qs ≫= aliasNames.
Proof.
  unfold writeStoreParamAliases. rewrite declaredNames_each. apply list_bind_ext; [|done]. intros q. unfold aliasNames.
  destruct (gq_storeParamAlias q) as [a|]; [|done]. cbn. by rewrite app_string_nil_r.
Qed.

Lemma writeShardArgWrappers_names opts qs b :
  writeShardArgWrappers opts qs = Ok b -> declaredNames b = qs ≫= wrapperNames.
Proof.
  unfold writeShardArgWrappers. intros (bs & Hbs & ->)%eachM_Ok.
  induction Hbs as [|q b qs bs Hq _ IH]; [done|]. cbn [List.concat mbind list_bind]. rewrite declaredNames_app, IH. f_equal.
  unfold wrapperNames. destruct (gq_shardArgs q) as [w|]; [|by injection Hq as <-].
  apply bind_Ok in Hq as (r & Hr%writeSQLCArgReconstructor_inert & <-%mret_Ok).
  rewrite declaredNames_app, (declaredNames_inert (_ ++ _)) by inert_writer.
  cbn. by rewrite app_string_nil_r.
Qed.

Lemma writeCopyBatchTypesAndOptions_names qs :
  declaredNames (writeCopyBatchTypesAndOptions qs) = qs ≫= copyNames.
Proof.
  unfold writeCopyBatchTypesAndOptions. rewrite declaredNames_each. apply list_bind_ext; [|done]. intros q. unfold copyNames.
  destruct (isCopy q); [|done]. cbn. by rewrite !app_string_nil_r.
Qed.

Lemma writeStoreGroupInterfaces_names opts group :
  declaredNames (writeStoreGroupInterfaces opts group) =
  [storeReaderInterfaceName (sg_name group); storeWriterInterfaceName (sg_name group); sg_name group].
Proof.
  unfold writeStoreGroupInterfaces. cbv zeta. rewrite !declaredNames_app.
  rewrite !(declaredNames_inert (each _ _)) by inert_writer. cbn. by rewrite !app_string_nil_r.
Qed.

Lemma writeStoreTelemetryWrapper_names opts group :
  declaredNames (writeStoreTelemetryWrapper opts group) = [storeTelemetryTypeName (sg_name group)].
Proof.
  unfold writeStoreTelemetryWrapper. cbv zeta. rewrite declaredNames_app, (declaredNames_inert (each _ _)).
  - cbn. by rewrite !app_string_nil_r.
  - apply inert_each. intros q. destruct (if lastResultIsError _ then _ else _) as [[t names] e]. inert_writer.
Qed.

(** The names in the file of a store group. *)
Definition groupNames (group : storeGroup) : list string :=
  (sg_queries group ≫= aliasNames) ++ (sg_queries group ≫= wrapperNames) ++ (sg_queries group ≫= copyNames) ++
  [storeReaderInterfaceName (sg_name group); storeWriterInterfaceName (sg_name group); sg_name group;
   storeTelemetryTypeName (sg_name group); storeFactoryOptionName (sg_name group)].

Lemma writeStoreGroup_names opts group b : writeStoreGroup opts group = Ok b -> declaredNames b = groupNames group.
Proof.
  unfold writeStoreGroup. intros (w & Hw%writeShardArgWrappers_names & H)%bind_Ok.
  apply bind_Ok in H as (m & (bs & Hbs & ->)%eachM_Ok & <-%mret_Ok).
  assert (inert (List.concat bs)) as Hm.
  { apply inert_concat. clear Hw. induction Hbs as [|q b qs bs Hq _ IH]; [constructor|].
    constructor; [by eapply writeQueryMethodsOf_inert|done]. }
  cbv zeta. rewrite !declaredNames_app, Hw, writeStoreParamAliases_names, writeCopyBatchTypesAndOptions_names,
    writeStoreGroupInterfaces_names, writeStoreTelemetryWrapper_names, (declaredNames_inert (List.concat bs)) by done.
  unfold groupNames. cbn. by rewrite app_string_nil_r.
Qed.

(** *** The other files *)

Lemma writeSQLCTypeAliases_names opts aliases : declaredNames (writeSQLCTypeAliases opts aliases) = aliases.
Proof.
  unfold writeSQLCTypeAliases. rewrite declaredNames_each. induction aliases as [|a l IH]; [done|].
  cbn. rewrite app_string_nil_r. by f_equal.
Qed.

Lemma writeSplitInterface_names name qs k : declaredNames (writeSplitInterface name qs k) = [name].
Proof.
  unfold writeSplitInterface. rewrite !declaredNames_app, (declaredNames_inert (each _ _)) by inert_writer.
  cbn. by rewrite app_string_nil_r.
Qed.

Lemma writeQueryInterfaces_names opts qs groups :
  declaredNames (writeQueryInterfaces opts qs groups) =
  [defaultReadInterface; defaultWriteInterface; StoreInterfaceName opts].
Proof.
  unfold writeQueryInterfaces. rewrite !declaredNames_app, !writeSplitInterface_names,
    (declaredNames_inert (each _ _)) by inert_writer.
  cbn. by rewrite app_string_nil_r.
Qed.

Lemma writeShardKeyTypes_names opts routes :
  declaredNames (writeShardKeyTypes opts routes) = rt_methodName <$> routes.
Proof.
  unfold writeShardKeyTypes. rewrite declaredNames_each. induction routes as [|r routes IH]; [done|].
  cbn [mbind list_bind fmap list_fmap]. rewrite IH, !declaredNames_app, (declaredNames_inert (each _ _)) by inert_writer.
  cbn. by rewrite app_string_nil_r.
Qed.

Lemma writeShardResolverInterface_names opts routes :
  declaredNames (writeShardResolverInterface opts routes) = [ResolverInterfaceName opts].
Proof.
  unfold writeShardResolverInterface. rewrite !declaredNames_app, (declaredNames_inert (each _ _)) by inert_writer.
  cbn. by rewrite app_string_nil_r.
Qed.

Lemma writeReadQueries_names opts qs :
  declaredNames (writeReadQueries opts qs) = [defaultReadType; defaultReadNew].
Proof.
  unfold writeReadQueries. rewrite declaredNames_app, (declaredNames_inert (writeQueryMethods _ _ _ _ _)).
  - reflexivity.
  - apply writeQueryMethods_inert.
Qed.

Lemma writeWriteQueries_names opts qs :
  declaredNames (writeWriteQueries opts qs) = [defaultWriteType; defaultWriteNew].
Proof.
  unfold writeWriteQueries. rewrite !declaredNames_app, (declaredNames_inert (writeQueryMethods _ _ _ _ _)).
  - destruct (IgnoreMirrorError opts); reflexivity.
  - apply writeQueryMethods_inert.
Qed.

Lemma writeQueryStore_names opts : declaredNames (writeQueryStore opts) = [defaultStoreType; "newQueryStore"].
Proof. reflexivity. Qed.
Lemma writeQueryOptions_names :
  declaredNames writeQueryOptions = ["queryOptions"; "QueryOption"; "ReadFromPrimary"; "WithTx"; "applyQueryOptions"].
Proof. reflexivity. Qed.
Lemma writeNodeConstructor_names opts : declaredNames (writeNodeConstructor opts) = [defaultNodeNew].
Proof. reflexivity. Qed.

Lemma writeCopyBatchInitialization_inert copies b : writeCopyBatchInitialization copies = Ok b -> inert b.
Proof.
  unfold writeCopyBatchInitialization. destruct (notEmpty copies); cbn [negb]; [|by intros <-%mret_Ok; apply inert_nil].
  intros (m & (bs & Hbs & ->)%eachM_Ok & <-%mret_Ok)%bind_Ok.
  assert (inert (List.concat bs)) as Hm; [|inert_writer].
  apply inert_concat. induction Hbs as [|q b qs bs Hq _ IH]; [constructor|]. constructor; [|done].
  unfold writeCopyBatcher in Hq. apply bind_Ok in Hq as (t & _ & <-%mret_Ok). inert_writer.
Qed.

Definition configurationNames (opts : options) (groups : list storeGroup) : list string :=
  ["storeOptions"; "StoreOption"; "WithTracerProvider"; "WithMeterProvider"; "WithLogger"; "applyStoreOptions";
   "Topology"; "singletonConfig"; "SingletonOption"; "WithDatabaseName"; "WithReadReplicas"; "WithWriteMirrors";
   "singletonTopology"; "Singleton"; ConstructorName opts; defaultMeshStoreType] ++
  (if notEmpty groups then [defaultGroupType] else []).

Lemma writeStoreConfiguration_names opts qs groups b :
  writeStoreConfiguration opts qs groups = Ok b -> declaredNames b = configurationNames opts groups.
Proof.
  unfold writeStoreConfiguration, configurationNames. cbv zeta.
  intros (i & Hi%writeCopyBatchInitialization_inert & <-%mret_Ok)%bind_Ok.
  rewrite !declaredNames_app, (declaredNames_inert i) by done.
  destruct (notEmpty groups), (notEmpty (copyQueries qs)), (hasShardOperations qs);
    rewrite ?declaredNames_app, ?(declaredNames_inert (each _ _)) by inert_writer;
    cbn; by rewrite ?app_string_nil_r.
Qed.

Definition shardedNames (opts : options) : list string :=
  ["shardDatabase"; "shardMapping"; "shardedOptions"; "ShardedOption"; "WithReplicaSet"; "WithVirtualShardMapping";
   "shardedTopology"; ShardedConstructor opts].

Lemma writeShardedStore_names opts groups : declaredNames (writeShardedStore opts groups) = shardedNames opts.
Proof.
  unfold writeShardedStore, shardedNames. cbv zeta. rewrite !declaredNames_app.
  destruct (notEmpty groups), (existsb (fun g => notEmpty (copyQueries (sg_queries g))) groups); cbn; by rewrite ?app_string_nil_r.
Qed.

(** *** The package *)

(** The names of all files, in the order they are written. *)
Definition packageNames (opts : options) (queries : list generatedQuery) (aliases : list string)
    (routes : list shardRoute) (groups : list storeGroup) : list string :=
  let sharded := hasShardOperations queries in
  (aliases ++ [defaultReadInterface; defaultWriteInterface; StoreInterfaceName opts] ++
    (if sharded then (rt_methodName <$> routes) ++ [ResolverInterfaceName opts] else [])) ++
  [defaultReadType; defaultReadNew] ++ [defaultWriteType; defaultWriteNew] ++
  (["queryOptions"; "QueryOption"; "ReadFromPrimary"; "WithTx"; "applyQueryOptions"] ++
   [defaultStoreType; "newQueryStore"] ++ [defaultNodeNew] ++ configurationNames opts groups) ++
  (groups ≫= groupNames) ++ (if sharded then shardedNames opts else []).

(** The bodies that are written, name by name. *)
Definition bodiesNames (bodies : list (string * buffer)) : list string := bodies ≫= (fun b => declaredNames b.2).

Lemma bodiesNames_app a b : bodiesNames (a ++ b) = bodiesNames a ++ bodiesNames b.
Proof. apply bind_app. Qed.

Definition written (m : string * result buffer) (b : string * buffer) : Prop := m.1 = b.1 /\ m.2 = Ok b.2.

Lemma groups_written opts groups names bodies :
  List.length names = List.length groups ->
  Forall2 written (zip names (writeStoreGroup opts <$> groups)) bodies -> bodiesNames bodies = groups ≫= groupNames.
Proof.
  revert names bodies. induction groups as [|g groups IH]; intros [|name names] bodies Hl H; try done.
  { by apply Forall2_nil_inv_l in H as ->. }
  cbn in H. apply Forall2_cons_inv_l in H as ([n b] & bodies' & [_ Hb] & H & ->). cbn in Hb, Hl.
  change (declaredNames b ++ bodiesNames bodies' = groupNames g ++ (groups ≫= groupNames)).
  rewrite (writeStoreGroup_names opts g b Hb). f_equal. apply (IH names); [lia|done].
Qed.

End Writers.
