(* ===== verification/GenerateTotal.v ===== *)
(** * GenerateTotal: the generator never panics

    Go code panics where it indexes a slice out of range, dereferences nil or
    repeats a string a negative number of times. The queries built from sqlc's
    messages have what the writers index and dereference, so generation ends
    with files or with an error. *)

From S2P Require Import Prelude Errors GoStrings Unicode GoFormat Plugin SqlRelations Naming Annotations Imports.
From S2P Require Import PostgresTypes Queries Routes Collect Options Emit EmitMethods EmitStore Generate.
From S2P Require Import GenerateFiles Conformance.
From Stdlib Require Import Ascii String.

#[local] Open Scope string_scope.

(** One step of a proof that a computation does not panic. *)
Ltac no_panic :=
  repeat match goal with
  | |- mret _ <> Panic => done
  | |- Ok _ <> Panic => done
  | |- Err _ <> Panic => done
  | |- _ ≫= _ <> Panic => apply bind_not_Panic; [|intros ? ?]
  | |- (if ?b then _ else _) <> Panic => destruct b eqn:?
  | |- (match ?x with _ => _ end) <> Panic => destruct x eqn:?
  end; try done; auto with total.

Create HintDb total discriminated.

Lemma mapO_not_Panic {A B} (f : A -> result B) l : (forall a, a ∈ l -> f a <> Panic) -> mapO f l <> Panic.
Proof.
  induction l as [|a l IH]; intros Hf; cbn [mapO]; [done|].
  apply bind_not_Panic; [apply Hf; left|intros b _]. apply bind_not_Panic; [|done].
  apply IH. intros x Hx. apply Hf. by right.
Qed.

Lemma mapO_Forall {A B} (f : A -> result B) (P : A -> Prop) (Q : B -> Prop) l l' :
  mapO f l = Ok l' -> Forall P l -> (forall a b, P a -> f a = Ok b -> Q b) -> Forall Q l'.
Proof.
  intros H HP HQ. revert l' H. induction HP as [|a l Ha _ IH]; intros l'; cbn [mapO].
  { intros <-%mret_Ok. constructor. }
  intros (b & Hb & (bs & Hbs & <-%mret_Ok)%bind_Ok)%bind_Ok. constructor; [by eapply HQ|by apply IH].
Qed.

Section Types.
Context `{UT : !UnicodeTables} (catalog : Catalog) (opts : options) (Singular : string -> string).

(** A column as sqlc sends it. *)
Definition plainDims (c : Column) : Prop := (0 <= col_array_dims c)%Z.

Lemma goType_not_Panic c : plainDims c -> goType catalog opts c <> Panic.
Proof.
  intros Hd. unfold goType, wrapColumnType, Repeat, plainDims in *.
  assert ((col_array_dims c <? 0)%Z = false) as -> by lia. no_panic.
Qed.
#[local] Hint Resolve goType_not_Panic : total.

Lemma structFields_not_Panic useID st idx columns :
  Forall (fun c => plainDims (gc_column c)) columns -> structFields catalog opts useID st idx columns <> Panic.
Proof.
  intros H. revert st idx. induction H as [|c columns Hc _ IH]; intros st idx; [done|].
  cbn [structFields]. destruct (fieldNameStep opts useID st idx c). no_panic.
Qed.

Lemma checkIncompatible_not_Panic types fields : checkIncompatible types fields <> Panic.
Proof. revert types. induction fields as [|f fields IH]; intros types; cbn [checkIncompatible]; no_panic. Qed.
#[local] Hint Resolve structFields_not_Panic checkIncompatible_not_Panic : total.

Lemma columnsToStruct_not_Panic name columns useID :
  Forall (fun c => plainDims (gc_column c)) columns -> columnsToStruct catalog opts name columns useID <> Panic.
Proof. intros H. unfold columnsToStruct, checkIncompatibleFieldTypes. no_panic. Qed.
#[local] Hint Resolve columnsToStruct_not_Panic : total.

Lemma buildQueryArg_not_Panic q :
  is_Some (QueryParameterLimit opts) -> Forall (fun p => plainDims (par_column p)) (q_params q) ->
  buildQueryArg catalog opts q <> Panic.
Proof.
  intros [limit Hl] Hd. unfold buildQueryArg. rewrite Hl. cbn [panic_if_none mbind outcome_bind].
  assert (forall ps, Forall (fun p => plainDims (par_column p)) ps ->
    Forall (fun c => plainDims (gc_column c)) ((fun p => MkGoColumn (par_number p) (par_column p)) <$> ps)) as Hcols.
  { intros ps Hps. by apply Forall_fmap. }
  destruct (q_params q) as [|p [|p' ps]]; [done| |].
  - inversion_clear Hd. no_panic.
  - no_panic.
Qed.

Lemma fieldsMatch_not_Panic table idx fields columns :
  Forall plainDims columns -> fieldsMatch catalog opts table idx fields columns <> Panic.
Proof.
  intros H. revert idx fields. induction H as [|c columns Hc _ IH]; intros idx fields; destruct fields; try done.
  cbn [fieldsMatch]. no_panic.
Qed.
#[local] Hint Resolve fieldsMatch_not_Panic : total.

Lemma findModel_not_Panic columns structs :
  Forall plainDims columns -> findModel catalog opts columns structs <> Panic.
Proof.
  intros H. induction structs as [|s structs IH]; [done|]. cbn [findModel]. unfold queryColumnsMatchStruct. no_panic.
Qed.
#[local] Hint Resolve findModel_not_Panic : total.

Lemma buildQueryReturn_not_Panic q structs :
  Forall plainDims (q_columns q) -> buildQueryReturn catalog opts q structs <> Panic.
Proof.
  intros H. unfold buildQueryReturn.
  assert (forall cs, Forall plainDims cs ->
    Forall (fun c => plainDims (gc_column c)) (imap (fun idx c => MkGoColumn (Z.of_nat idx) c) cs)) as Hcols.
  { intros cs Hcs. apply Forall_forall. intros x (i & c & -> & Hc)%elem_of_lookup_imap.
    rewrite Forall_lookup in Hcs. by apply (Hcs i). }
  destruct (negb _); [done|]. destruct (q_columns q) as [|c [|c' cs]]; [done| |].
  - inversion_clear H. no_panic.
  - no_panic.
Qed.

Lemma resultTypes_not_Panic q ret : resultTypes opts q ret <> Panic.
Proof. unfold resultTypes. no_panic. Qed.

Lemma buildStructs_not_Panic `{GS : !GoSort} :
  (forall s t, s ∈ cat_schemas catalog -> t ∈ sch_tables s -> Forall plainDims (tbl_columns t)) ->
  buildStructs catalog opts Singular <> Panic.
Proof.
  intros H. unfold buildStructs. apply bind_not_Panic; [|done]. apply mapO_not_Panic.
  intros [s t] Hst. apply list_elem_of_bind in Hst as (s' & (t' & [= <- <-] & Ht)%list_elem_of_fmap & Hs).
  apply list_elem_of_filter in Hs as [_ Hs]. unfold tableStruct. apply bind_not_Panic; [|done].
  apply mapO_not_Panic. intros c Hc. unfold tableField. specialize (H s t Hs Ht).
  rewrite Forall_forall in H. specialize (H c Hc). no_panic.
Qed.

(** *** Routes *)

Lemma scalarResultKey_not_Panic qn et ret all names : scalarResultKey qn et ret all names <> Panic.
Proof. induction names as [|n names IH]; cbn [scalarResultKey]; no_panic. Qed.

Lemma structResultKey_not_Panic qn et fields all names : structResultKey qn et fields all names <> Panic.
Proof. induction names as [|n names IH]; cbn [structResultKey]; no_panic. Qed.
#[local] Hint Resolve scalarResultKey_not_Panic structResultKey_not_Panic : total.

Lemma buildGroupedManySpec_not_Panic q arg ret :
  Forall (fun p => plainDims (par_column p)) (q_params q) ->
  buildGroupedManySpec catalog opts Singular q arg ret <> Panic.
Proof.
  intros H. unfold buildGroupedManySpec, groupedManyResultKey.
  destruct (q_params q) as [|p [|p' ps]]; [done| |done]. inversion_clear H. no_panic.
Qed.

Lemma matchFields_not_Panic qn db matched fields : matchFields qn db matched fields <> Panic.
Proof.
  revert matched. induction fields as [|[f m] fields IH]; intros matched; cbn [matchFields]; [done|].
  destruct (bool_decide _); [apply IH|]. destruct matched as [[m' mm]|]; no_panic.
Qed.
#[local] Hint Resolve matchFields_not_Panic : total.

Lemma fieldFromGroups_not_Panic qn db groups : fieldFromGroups qn db groups <> Panic.
Proof. induction groups as [|g groups IH]; cbn [fieldFromGroups]; no_panic. Qed.
#[local] Hint Resolve fieldFromGroups_not_Panic : total.

Lemma resolveOperands_not_Panic q arg gm structs seen names :
  resolveOperands catalog opts q arg gm structs seen names <> Panic.
Proof.
  revert seen. induction names as [|n names IH]; intros seen; cbn [resolveOperands]; [done|].
  apply bind_not_Panic; [|intros o _; no_panic].
  unfold resolveOperand, routeOperandFieldFromModels. destruct (routeOperandForArg _ _ _); [done|].
  match goal with |- (match ?x with _ => _ end) <> Panic => destruct x end; no_panic.
Qed.
#[local] Hint Resolve resolveOperands_not_Panic buildGroupedManySpec_not_Panic : total.

Lemma shardPart_not_Panic q arg ret structs results annotation :
  Forall (fun p => plainDims (par_column p)) (q_params q) ->
  shardPart catalog opts Singular q arg ret structs results annotation <> Panic.
Proof. intros H. unfold shardPart, resolveShardRoute. no_panic. Qed.

(** What the shard part of a query comes to. *)
Definition shardParts (cmd : string) (results : list string)
    (mode : shardMode) (route : option shardRoute) (gm : option groupedManySpec) : Prop :=
  match mode with
  | shardModeNone | shardModeAll => route = None
  | shardModeRouted => True
  | shardModeGroupedCopy => cmd = cmdCopyFrom /\ is_Some route /\ results <> []
  | shardModeGroupedMany => cmd = cmdMany /\ is_Some route /\ is_Some gm /\ results <> []
  end.

Lemma shardPart_Ok q arg ret structs results annotation mode route gm :
  shardPart catalog opts Singular q arg ret structs results annotation = Ok (mode, route, gm) ->
  shardParts (q_cmd q) results mode route gm.
Proof.
  unfold shardPart. destruct annotation as [a|]; [|by intros [= <- <- <-]].
  case_bool_decide; [case_bool_decide; [done|]; destruct (oneOf _ _); [by intros [= <- <- <-]|done]|].
  destruct (HasPrefix _ _); [done|]. intros (g & Hg & (r & _ & HR)%bind_Ok)%bind_Ok.
  destruct (lastResultIsError results) eqn:E; cbn [negb] in HR; [|done].
  assert (results <> []) by (intros ->; done).
  injection HR as <- <- <-. destruct g as [g|].
  - cbn. split_and!; [|by eexists|by eexists|done]. revert Hg. by case_bool_decide.
  - destruct (bool_decide_reflect (q_cmd q = cmdCopyFrom)); [|done]. cbn. split_and!; [done|by eexists|done].
Qed.

(** ** Queries as they are built *)

(** A query as sqlc sends it: no negative dimensions, and a copy has
    parameters, each with a name. *)
Record plainQuery (q : Query) : Prop := {
  pq_params : Forall (fun p => plainDims (par_column p)) (q_params q);
  pq_columns : Forall plainDims (q_columns q);
  pq_copy : q_cmd q = cmdCopyFrom -> q_params q <> [] /\ Forall (fun p => paramName p <> "") (q_params q);
}.

Record built (q : generatedQuery) : Prop := {
  bu_ctx : head (params q) = Some contextArgument;
  bu_store : storeParams q = params q;
  bu_call : callArgs q = argumentNames (params q);
  bu_copy : command q = cmdCopyFrom -> isEmpty (gq_arg q) = false /\
    (is_Some (qv_structType (gq_arg q)) -> qv_emit (gq_arg q) = true) /\ is_Some (params q !! 1%nat);
  bu_emit : qv_emit (gq_arg q) = true -> is_Some (qv_structType (gq_arg q));
  bu_shard : shardParts (command q) (results q) (gq_shardMode q) (gq_route q) (gq_groupedMany q);
  bu_args : gq_shardArgs q = None;
}.

Lemma escape_nonempty name : name <> "" -> escape name <> "".
Proof. intros H. unfold escape. destruct (goKeywords name); [|done]. by destruct name. Qed.

Lemma buildQueryArg_shape q arg :
  buildQueryArg catalog opts q = Ok arg ->
  (qv_emit arg = true -> is_Some (qv_structType arg)) /\
  (is_Some (qv_structType arg) -> q_cmd q = cmdCopyFrom -> qv_emit arg = true) /\
  (q_params q <> [] -> Forall (fun p => paramName p <> "") (q_params q) -> isEmpty arg = false).
Proof.
  unfold buildQueryArg. intros (limit & _ & H)%bind_Ok.
  assert (forall strct, isEmpty {| qv_emit := (limit <? Z.of_nat (List.length (q_params q)))%Z || bool_decide (q_cmd q = cmdCopyFrom);
    qv_emitPointer := EmitParamsStructPointers opts; qv_name := defaultArgumentName; qv_dbName := "";
    qv_structType := Some strct; qv_typ := ""; qv_column := None |} = false) as He by done.
  assert (forall m, (m || bool_decide (q_cmd q = cmdCopyFrom)) = true \/ q_cmd q <> cmdCopyFrom) as Hc.
  { intros m. case_bool_decide; [left; apply orb_true_r|by right]. }
  destruct (q_params q) as [|p [|p' ps]].
  - apply mret_Ok in H as <-. split_and!; [done|by intros [? ?]|done].
  - destruct (negb _).
    + apply bind_Ok in H as (typ & _ & <-%mret_Ok). split_and!; [done|by intros [? ?]|].
      intros _ [Hp _]%Forall_cons. unfold isEmpty. cbn. rewrite (bool_decide_eq_false_2 (escape _ = "")).
      * by rewrite andb_false_r.
      * by apply escape_nonempty.
    + apply bind_Ok in H as (strct & _ & <-%mret_Ok). cbn [qv_emit qv_structType].
      split_and!; [done| |done]. intros _ Hcmd. destruct (Hc (limit <? 1)%Z); done.
  - apply bind_Ok in H as (strct & _ & <-%mret_Ok). cbn [qv_emit qv_structType].
    split_and!; [done| |done]. intros _ Hcmd. destruct (Hc (limit <? Z.of_nat (List.length (p :: p' :: ps)))%Z); done.
Qed.

Context `{UL : !UnicodeLaws UT}.

Lemma buildQuery_built structs imports q imports' out :
  plainQuery q -> buildQuery catalog opts Singular structs imports q = Ok (imports', out) -> built out.
Proof.
  intros [_ _ Hcopy]. unfold buildQuery. intros (arg & Harg%buildQueryArg_shape & H)%bind_Ok.
  apply bind_Ok in H as (ret & _ & H). apply bind_Ok in H as (rs & _ & H).
  apply bind_Ok in H as ([[k a] st] & _ & H). apply bind_Ok in H as ([[mode route] gm] & Hs%shardPart_Ok & H).
  apply mret_Ok in H. injection H as <- <-. destruct Harg as (He & Hc & Hn).
  constructor; cbn [params storeParams callArgs command gq_arg results gq_shardMode gq_route gq_groupedMany gq_shardArgs];
    try done.
  - unfold queryParams. repeat case_match; done.
  - intros Hcmd. destruct (Hcopy Hcmd) as [Hne Hall]. specialize (Hn Hne Hall).
    split_and!; [done|by intros ?; apply Hc|]. unfold queryParams.
    rewrite bool_decide_eq_true_2, Hn by done. by eexists.
Qed.

Lemma buildQuery_not_Panic structs imports q :
  is_Some (QueryParameterLimit opts) -> plainQuery q ->
  buildQuery catalog opts Singular structs imports q <> Panic.
Proof.
  intros Hl [Hp Hc _]. unfold buildQuery. apply bind_not_Panic; [by apply buildQueryArg_not_Panic|intros arg _].
  apply bind_not_Panic; [by apply buildQueryReturn_not_Panic|intros ret _].
  apply bind_not_Panic; [apply resultTypes_not_Panic|intros rs _].
  apply bind_not_Panic; [apply classifyQuery_sound|intros [[k a] st] _].
  apply bind_not_Panic; [by apply shardPart_not_Panic|]. by intros [[mode route] gm] _.
Qed.

Lemma buildEach_spec structs imports qs :
  is_Some (QueryParameterLimit opts) -> Forall plainQuery qs ->
  buildEach catalog opts Singular structs imports qs <> Panic /\
  forall imports' out, buildEach catalog opts Singular structs imports qs = Ok (imports', out) -> Forall built out.
Proof.
  intros Hl H. revert imports. induction H as [|q qs Hq _ IH]; intros imports; cbn [buildEach].
  { split; [done|]. intros ? ? [= <- <-]. constructor. }
  destruct (_ || _); [apply IH|]. split.
  - apply bind_not_Panic; [by apply buildQuery_not_Panic|intros [i o] _].
    apply bind_not_Panic; [apply IH|]. by intros [i' o'] _.
  - intros imports' out ([i o] & Ho%buildQuery_built & HR)%bind_Ok; [|done].
    apply bind_Ok in HR as ([i' o'] & Hrest & HR). apply mret_Ok in HR. injection HR as <- <-.
    constructor; [done|]. by eapply IH.
Qed.

(** ** Queries the writers can write *)

(** What a wrapper's SQL argument and the query's call arguments provide. *)
Definition convertible (q : generatedQuery) : Prop :=
  forall w, gq_shardArgs q = Some w -> isEmpty (wr_sqlcArg w) = true -> is_Some (callArgs q !! 1%nat).

Record emittable (q : generatedQuery) : Prop := {
  em_copy : command q = cmdCopyFrom ->
    is_Some (params q !! 1%nat) /\ is_Some (storeParams q !! 1%nat) /\ convertible q;
  em_shard : shardParts (command q) (results q) (gq_shardMode q) (gq_route q) (gq_groupedMany q);
  em_many : gq_shardMode q = shardModeGroupedMany -> is_Some (storeParams q !! 1%nat);
  em_wrapper : forall w, gq_shardArgs q = Some w -> isEmpty (wr_sqlcArg w) = false ->
    is_Some (qv_structType (wr_sqlcArg w));
}.

Lemma appendField_not_Panic qn w name db typ source : appendField qn w name db typ source <> Panic.
Proof. unfold appendField. no_panic. Qed.
#[local] Hint Resolve appendField_not_Panic : total.

Lemma wrapFields_not_Panic qn route w fields : wrapFields qn route w fields <> Panic.
Proof.
  revert w. induction fields as [|f fields IH]; intros w; cbn [wrapFields]; [done|].
  apply bind_not_Panic; [unfold wrapField; no_panic|intros [w' e] _].
  apply bind_not_Panic; [apply IH|]. by intros [w2 es] _.
Qed.
#[local] Hint Resolve wrapFields_not_Panic : total.

Lemma wrapShardParameters_not_Panic q route : built q -> wrapShardParameters opts q route <> Panic.
Proof.
  intros Hb. unfold wrapShardParameters. rewrite (bu_ctx q Hb). cbn [panic_if_none mbind outcome_bind].
  apply bind_not_Panic; [|by intros [[[w call] v] es] _].
  destruct (isEmpty _); [done|]. destruct (qv_emit (gq_arg q)) eqn:E.
  - destruct (bu_emit q Hb E) as [s ->]. cbn [panic_if_none mbind outcome_bind].
    apply bind_not_Panic; [auto with total|]. by intros [w es] _.
  - destruct (qv_structType _).
    + apply bind_not_Panic; [auto with total|]. by intros [w es] _.
    + destruct (routeOperandByDBName _ _); [done|]. destruct (if bool_decide _ then _ else _). no_panic.
Qed.

Lemma wrapShardParameters_emittable q route q' :
  built q -> gq_shardMode q <> shardModeGroupedMany -> gq_route q = Some route ->
  wrapShardParameters opts q route = Ok q' -> emittable q'.
Proof.
  intros Hb Hmode Hroute. unfold wrapShardParameters. rewrite (bu_ctx q Hb). cbn [panic_if_none mbind outcome_bind].
  intros ([[[w call] v] es] & Hcases & H)%bind_Ok. apply mret_Ok in H as <-.
  assert ((isEmpty v = false -> is_Some (qv_structType v)) /\
    (command q = cmdCopyFrom -> isEmpty v = true -> exists c cs, call = c :: cs)) as [Hv Hcall].
  { revert Hcases. pose proof (bu_copy q Hb) as Hcopy. destruct (isEmpty (gq_arg q)) eqn:Ee.
    { intros H%mret_Ok. injection H as <- <- <- <-. split; [done|]. intros Hc. by destruct (Hcopy Hc). }
    destruct (qv_emit (gq_arg q)) eqn:E.
    - destruct (bu_emit q Hb E) as [s Hs]. rewrite Hs. cbn [panic_if_none mbind outcome_bind].
      intros ([w' es'] & _ & H)%bind_Ok. apply mret_Ok in H. injection H as <- <- <- <-.
      split; [by intros _; rewrite Hs|]. by rewrite Ee.
    - destruct (qv_structType (gq_arg q)) as [s|] eqn:Es.
      + intros ([w' es'] & _ & H)%bind_Ok. apply mret_Ok in H. injection H as <- <- <- <-. split; [done|].
        intros Hc. destruct (Hcopy Hc) as (_ & Hem & _). specialize (Hem ltac:(by eexists)). congruence.
      + destruct (routeOperandByDBName route (qv_dbName (gq_arg q))).
        * intros H%mret_Ok. injection H as <- <- <- <-. split; [done|]. by eexists _, _.
        * destruct (if bool_decide (structName _ _ = "") then _ else _).
          intros (w' & _ & H)%bind_Ok. apply mret_Ok in H. injection H as <- <- <- <-. split; [done|]. by eexists _, _. }
  pose proof (bu_shard q Hb) as Hs. rewrite Hroute in Hs.
  constructor; cbn [withShardArgs command params storeParams callArgs gq_shardMode gq_route gq_groupedMany gq_shardArgs results].
  - intros Hc. destruct (bu_copy q Hb Hc) as (_ & _ & Hp). split_and!; [done|by eexists|].
    intros w' [= <-]. cbn [wr_sqlcArg callArgs]. intros He. destruct (Hcall Hc He) as (c & cs & ->). by eexists.
  - unfold shardParts in *. destruct (gq_shardMode q); try done. by destruct Hs as (? & _ & ?).
  - done.
  - intros w' [= <-]. cbn [wr_sqlcArg]. done.
Qed.

Lemma wrapGroupedManyShardOperands_spec q route :
  built q -> gq_shardMode q = shardModeGroupedMany ->
  wrapGroupedManyShardOperands opts q route <> Panic /\
  forall q', wrapGroupedManyShardOperands opts q route = Ok q' -> emittable q'.
Proof.
  intros Hb Hmode. pose proof (bu_shard q Hb) as Hs. rewrite Hmode in Hs. destruct Hs as (Hcmd & Hr & [gm Hgm] & Hres).
  unfold wrapGroupedManyShardOperands. rewrite Hgm, (bu_ctx q Hb). cbn [panic_if_none mbind outcome_bind]. split.
  - apply bind_not_Panic; [|by intros [w e] _]. no_panic.
  - intros q' ([w e] & _ & H)%bind_Ok. apply mret_Ok in H as <-.
    constructor; cbn [withShardArgs command params storeParams callArgs gq_shardMode gq_route gq_groupedMany gq_shardArgs results].
    + by rewrite Hcmd.
    + rewrite Hmode. split_and!; [done|by eexists|by eexists|done].
    + by eexists.
    + intros w' [= <-]. done.
Qed.

Lemma unrouted_emittable q : built q -> gq_route q = None -> emittable q.
Proof.
  intros Hb Hr. pose proof (bu_shard q Hb) as Hs. constructor.
  - intros Hc. destruct (bu_copy q Hb Hc) as (_ & _ & Hp). rewrite (bu_store q Hb). split_and!; [done..|].
    intros w. by rewrite (bu_args q Hb).
  - done.
  - intros Hm. rewrite Hm in Hs. destruct Hs as (_ & [? ?] & _). congruence.
  - intros w. by rewrite (bu_args q Hb).
Qed.

Lemma wrapRouted_spec qs :
  Forall built qs ->
  wrapRoutedQueryParameters opts qs <> Panic /\
  forall qs', wrapRoutedQueryParameters opts qs = Ok qs' -> Forall emittable qs'.
Proof.
  intros H. unfold wrapRoutedQueryParameters. split.
  - apply mapO_not_Panic. intros q Hq. rewrite Forall_forall in H. specialize (H q Hq).
    destruct (gq_route q) as [route|]; [|done]. case_bool_decide as Hm.
    + by apply wrapGroupedManyShardOperands_spec.
    + by apply wrapShardParameters_not_Panic.
  - intros qs' Hok. eapply mapO_Forall; [exact Hok|exact H|]. intros q q' Hq. cbn beta.
    destruct (gq_route q) as [route|] eqn:Er; [|intros <-%mret_Ok; by apply unrouted_emittable].
    case_bool_decide as Hm; [by apply wrapGroupedManyShardOperands_spec|].
    by apply wrapShardParameters_emittable.
Qed.

Lemma aliasSQLCParams_emittable q : emittable q -> emittable (aliasSQLCParams opts q).
Proof.
  intros Hq. unfold aliasSQLCParams. destruct (gq_shardArgs q) as [w|] eqn:Ew; [done|].
  destruct (qv_structType (gq_arg q)); [|done]. destruct (_ || _); [done|]. case_bool_decide; [done|].
  destruct Hq as [Hc Hs Hm Hw]. constructor; cbn [command params storeParams callArgs gq_shardMode gq_route gq_groupedMany gq_shardArgs results]; try done.
  - intros Hcmd. destruct (Hc Hcmd) as (H1 & H2 & H3). split_and!; [done| |by intros w].
    rewrite list_lookup_fmap. by apply fmap_is_Some.
  - intros Hmode. rewrite list_lookup_fmap. by apply fmap_is_Some, Hm.
Qed.

(** The columns of a request as sqlc sends them. *)
Record plainRequest (req : GenerateRequest) : Prop := {
  pr_tables : forall s t, s ∈ cat_schemas (req_catalog req) -> t ∈ sch_tables s -> Forall plainDims (tbl_columns t);
  pr_queries : Forall plainQuery (req_queries req);
}.

Lemma querySpecs_spec `{GS : !GoSort} qs :
  is_Some (QueryParameterLimit opts) -> Forall plainQuery qs ->
  (forall s t, s ∈ cat_schemas catalog -> t ∈ sch_tables s -> Forall plainDims (tbl_columns t)) ->
  querySpecs catalog opts Singular qs <> Panic /\
  forall out imports, querySpecs catalog opts Singular qs = Ok (out, imports) -> Forall emittable out.
Proof.
  intros Hl Hq Ht. unfold querySpecs, buildQueries, aliasSQLCParamsForStore. split.
  - apply bind_not_Panic; [by apply buildStructs_not_Panic|intros structs _].
    apply bind_not_Panic; [|by intros [i o] _].
    destruct (buildEach_spec structs newImportSet qs Hl Hq) as [Hp Hb].
    apply bind_not_Panic; [done|intros [i o] Ho]. apply Hb in Ho.
    apply bind_not_Panic; [by apply wrapRouted_spec|done].
  - intros out imports (structs & _ & H)%bind_Ok. apply bind_Ok in H as ([i o] & H & Ho).
    apply mret_Ok in Ho. injection Ho as <- <-.
    apply bind_Ok in H as ([i1 o1] & H1 & H). apply bind_Ok in H as (o2 & H2 & H). apply mret_Ok in H. injection H as <- <-.
    apply buildEach_spec in H1; [|done..]. apply wrapRouted_spec in H2; [|done].
    rewrite sortSlice_perm. apply Forall_fmap. eapply Forall_impl; [exact H2|]. apply aliasSQLCParams_emittable.
Qed.
End Types.

(** ** Writers *)

Section Writers.
Context `{UT : !UnicodeTables} `{GS : !GoSort} `{MO : !GoMapOrder}.

Lemma eachM_not_Panic {A} (l : list A) f : (forall x, x ∈ l -> f x <> Panic) -> eachM l f <> Panic.
Proof.
  induction l as [|x l IH]; intros Hf; cbn [eachM]; [done|].
  apply bind_not_Panic; [apply Hf; left|intros a _]. apply bind_not_Panic; [|done].
  apply IH. intros y Hy. apply Hf. by right.
Qed.

Lemma panic_if_none_Some {A} (o : option A) : is_Some o -> (panic_if_none o : result A) <> Panic.
Proof. by intros [a ->]. Qed.
#[local] Hint Resolve panic_if_none_Some : total.

Lemma lookup_fmap_Some {A B} (f : A -> B) (l : list A) i : is_Some (l !! i) -> is_Some (f <$> l !! i).
Proof. by intros [a ->]. Qed.
#[local] Hint Resolve lookup_fmap_Some : total.

Lemma namedResults_first ps rs t names e :
  namedResults ps rs = (t, names, e) -> rs <> [] -> is_Some (head names).
Proof. intros [_ H]%namedResults_text Hrs. apply H in Hrs. by destruct names. Qed.

Lemma writeGroupedMany_not_Panic opts q :
  emittable q -> gq_shardMode q = shardModeGroupedMany -> writeGroupedManyQueryMethod opts q <> Panic.
Proof.
  intros [_ Hs Hm _] Hmode. specialize (Hm Hmode). rewrite Hmode in Hs. destruct Hs as (_ & Hr & Hg & Hres).
  unfold writeGroupedManyQueryMethod. cbv zeta.
  do 4 (apply bind_not_Panic; [auto with total|intros ? _]); [by destruct (results q)|].
  destruct (namedResults _ _) as [[t names] e] eqn:E.
  apply bind_not_Panic; [|done]. apply panic_if_none_Some. by eapply namedResults_first.
Qed.

Lemma writeAllShards_not_Panic q : writeAllShardsQueryMethod q <> Panic.
Proof.
  unfold writeAllShardsQueryMethod. cbv zeta. destruct (namedResults _ _) as [[t names] e] eqn:E.
  apply bind_not_Panic; [|done]. case_bool_decide as Hv; [|done].
  assert (is_Some (head names)) as Hn by (eapply namedResults_first; [done|]; by destruct (results q)).
  repeat case_bool_decide; try done; (apply bind_not_Panic; [by apply panic_if_none_Some|done]).
Qed.

Lemma convertible_callArg q w :
  convertible q -> gq_shardArgs q = Some w -> isEmpty (wr_sqlcArg w) = true ->
  (panic_if_none (callArgs q !! 1%nat) : result string) <> Panic.
Proof. intros Hc Hw He. by eapply panic_if_none_Some, Hc. Qed.

Lemma writeGroupedCopy_not_Panic q :
  emittable q -> gq_shardMode q = shardModeGroupedCopy -> writeGroupedCopyQueryMethod q <> Panic.
Proof.
  intros [Hc Hs _ _] Hmode. rewrite Hmode in Hs. destruct Hs as (Hcmd & Hr & Hres).
  destruct (Hc Hcmd) as (Hp & Hsp & Hconv). unfold writeGroupedCopyQueryMethod. cbv zeta.
  do 3 (apply bind_not_Panic; [auto with total|intros ? _]).
  destruct (namedResults _ _) as [[t names] e] eqn:E.
  apply bind_not_Panic; [by eapply panic_if_none_Some, namedResults_first|intros ? _].
  apply bind_not_Panic; [|done]. destruct (gq_shardArgs q) as [w|] eqn:Ew; [|done].
  destruct (isEmpty _) eqn:Ee; [|done]. apply bind_not_Panic; [by eapply convertible_callArg|done].
Qed.

Lemma writeAsyncCopyMethod_not_Panic q :
  emittable q -> command q = cmdCopyFrom -> writeAsyncCopyQueryMethods q <> Panic.
Proof.
  intros [Hc Hs _ _] Hcmd. destruct (Hc Hcmd) as (Hp & Hsp & Hconv).
  unfold writeAsyncCopyQueryMethods, writeAsyncCopyMethod. cbv zeta. apply bind_not_Panic; [|done].
  do 2 (apply bind_not_Panic; [auto with total|intros ? _]). apply bind_not_Panic; [|done].
  case_bool_decide as Hmode; [|done]. rewrite Hmode in Hs. destruct Hs as (_ & Hr & _).
  apply bind_not_Panic; [auto with total|intros ? _]. apply bind_not_Panic; [|done].
  unfold writeCopyGroupAppend. destruct (gq_shardArgs q) as [w|] eqn:Ew; [|done].
  destruct (isEmpty _) eqn:Ee; [|done]. apply bind_not_Panic; [by eapply convertible_callArg|done].
Qed.

Lemma writeQueryMethodsOf_not_Panic opts q : emittable q -> writeQueryMethodsOf opts q <> Panic.
Proof.
  intros Hq. unfold writeQueryMethodsOf, writeMeshStoreQueryMethod, isCopy. apply bind_not_Panic; [|intros ? _].
  - destruct (gq_shardMode q) eqn:Em; [done|done|apply writeAllShards_not_Panic
      |by apply writeGroupedCopy_not_Panic|by apply writeGroupedMany_not_Panic].
  - apply bind_not_Panic; [|done]. case_bool_decide; [by apply writeAsyncCopyMethod_not_Panic|done].
Qed.

Lemma writeShardArgWrappers_not_Panic opts qs : Forall emittable qs -> writeShardArgWrappers opts qs <> Panic.
Proof.
  intros H. unfold writeShardArgWrappers. apply eachM_not_Panic. intros q Hq.
  rewrite Forall_forall in H. destruct (H q Hq) as [_ _ _ Hw].
  destruct (gq_shardArgs q) as [w|] eqn:Ew; [|done]. apply bind_not_Panic; [|done].
  unfold writeSQLCArgReconstructor. destruct (isEmpty _) eqn:Ee; [done|].
  apply bind_not_Panic; [|done]. by eapply panic_if_none_Some, Hw.
Qed.

Lemma writeStoreGroup_not_Panic opts group : Forall emittable (sg_queries group) -> writeStoreGroup opts group <> Panic.
Proof.
  intros H. unfold writeStoreGroup. apply bind_not_Panic; [by apply writeShardArgWrappers_not_Panic|intros ? _].
  apply bind_not_Panic; [|done]. apply eachM_not_Panic. intros q Hq. rewrite Forall_forall in H.
  by apply writeQueryMethodsOf_not_Panic, H.
Qed.

Lemma writeStoreConfiguration_not_Panic opts qs groups :
  Forall emittable qs -> writeStoreConfiguration opts qs groups <> Panic.
Proof.
  intros H. unfold writeStoreConfiguration, writeCopyBatchInitialization. cbv zeta.
  apply bind_not_Panic; [|done]. destruct (negb _); [done|]. apply bind_not_Panic; [|done].
  apply eachM_not_Panic. intros q [[Hcmd _] Hq]%list_elem_of_filter. rewrite Forall_forall in H.
  destruct (em_copy q (H q Hq) Hcmd) as (Hp & _). unfold writeCopyBatcher.
  apply bind_not_Panic; [auto with total|done].
Qed.

Lemma declare_not_Panic d format args name owner : declare d format args name owner <> Panic.
Proof. unfold declare. no_panic. Qed.
#[local] Hint Resolve declare_not_Panic : total.

Lemma collectStoreGroups_not_Panic qs opts : collectStoreGroups qs opts <> Panic.
Proof.
  unfold collectStoreGroups. cbv zeta. apply bind_not_Panic; [|intros d _; apply bind_not_Panic; [|intros d' _]].
  - apply foldO_not_Panic. intros d q _. unfold declareRoute. no_panic.
  - apply foldO_not_Panic. intros d' g _. unfold declareGroup. apply foldO_not_Panic. auto with total.
  - apply bind_not_Panic; [|done]. apply foldO_not_Panic. intros d2 q _. unfold declareQuery, checkCopyMethods. cbv zeta.
    apply bind_not_Panic; [|intros d3 _; apply bind_not_Panic; [no_panic|intros d4 _; no_panic]].
    case_bool_decide; [|done]. apply bind_not_Panic; [|auto with total].
    apply foldO_not_Panic. intros [] m _. no_panic.
Qed.

Lemma collectSQLCTypeAliases_not_Panic Selectors opts qs catalog :
  collectSQLCTypeAliases Selectors opts qs catalog <> Panic.
Proof.
  unfold collectSQLCTypeAliases. destruct (negb _); [done|]. apply bind_not_Panic; [|done].
  apply foldO_not_Panic. intros a typ _. unfold addType. no_panic.
Qed.

Lemma validateSQLCTypeAliases_not_Panic opts qs groups aliases :
  validateSQLCTypeAliases opts qs groups aliases <> Panic.
Proof.
  unfold validateSQLCTypeAliases. generalize (declarationMap opts qs groups). intros d.
  assert (checkAliases d aliases <> Panic); [|by destruct aliases].
  induction aliases as [|a aliases IH]; cbn [checkAliases]; no_panic.
Qed.

Context (formatSource : string -> result string) (format_total : forall s, formatSource s <> Panic).

Lemma appendFiles_not_Panic opts imports bodies :
  (forall name body, (name, body) ∈ bodies -> body <> Panic) ->
  appendFiles formatSource opts imports bodies <> Panic.
Proof.
  induction bodies as [|[name body] bodies IH]; intros H; cbn [appendFiles]; [done|].
  apply bind_not_Panic; [apply (H name); left|intros b _]. apply bind_not_Panic.
  - unfold generateFile. cbv zeta.
    match goal with |- context [formatSource ?t] => pose proof (format_total t); by destruct (formatSource t) end.
  - intros content _. apply bind_not_Panic; [|done]. apply IH. intros n b' Hb. apply (H n). by right.
Qed.

Lemma groups_emittable qs opts groups g :
  Forall emittable qs -> collectStoreGroups qs opts = Ok groups -> g ∈ groups -> Forall emittable (sg_queries g).
Proof.
  intros H Hok Hg. unfold collectStoreGroups in Hok. cbv zeta in Hok.
  apply bind_Ok in Hok as (d & _ & (d' & _ & (d2 & _ & <-%mret_Ok)%bind_Ok)%bind_Ok).
  destruct (groupQueries_spec qs) as (_ & _ & Hspec & _). destruct (Hspec g Hg) as (_ & -> & _).
  rewrite Forall_forall in H |- *. intros q [_ Hq]%list_elem_of_filter. by apply H.
Qed.

Lemma generateWrapper_not_Panic Selectors opts qs imports catalog :
  goFileName (OutputFileName opts) -> Forall emittable qs ->
  generateWrapper formatSource Selectors opts qs imports catalog <> Panic.
Proof.
  intros Hname Hq. unfold generateWrapper.
  apply bind_not_Panic; [unfold collectShardRoutes; apply bind_not_Panic; [apply addRoutes_not_Panic|done]|intros routes _].
  apply bind_not_Panic; [apply collectStoreGroups_not_Panic|intros groups Hgroups].
  destruct (groupFileNames_found (OutputFileName opts) groups
    (list_to_set (ToLower <$> fixedFileNames (OutputFileName opts))) Hname) as (names & Hnames & _).
  unfold storeGroupOutputFileNames. rewrite Hnames. cbn [panic_if_none mbind outcome_bind].
  apply bind_not_Panic; [apply collectSQLCTypeAliases_not_Panic|intros aliases _].
  apply bind_not_Panic; [apply validateSQLCTypeAliases_not_Panic|intros _ _].
  apply bind_not_Panic; [destruct (hasShardOperations qs); [|done]; apply foldO_not_Panic; intros [] q _; no_panic|intros _ _].
  apply appendFiles_not_Panic. unfold wrapperBodies. cbv zeta. intros name body.
  rewrite !elem_of_app. intros [Hb|[Hb|Hb]].
  - repeat (apply elem_of_cons in Hb as [[= -> ->]|Hb]); [done..| |by apply elem_of_nil in Hb].
    apply bind_not_Panic; [by apply writeStoreConfiguration_not_Panic|done].
  - apply elem_of_zip_r in Hb. apply list_elem_of_fmap in Hb as (g & -> & Hg).
    by eapply writeStoreGroup_not_Panic, groups_emittable.
  - by apply list_elem_of_singleton in Hb as [= -> ->].
Qed.
End Writers.
