(* ===== verification/GenerateSample.v ===== *)
(** * GenerateSample: the example stores of the repository

    The requests sqlc makes for examples/sqlc (sqlc.yaml, schema.sql,
    queries.sql, settings_queries.sql), run through the whole generator. The
    committed files of examples/internal/sharded and examples/internal/one are
    what comes out: both are compared by the number of their bytes and a
    checksum, white space left aside because the formatter is an argument. *)

From S2P Require Import Prelude Errors GoStrings Unicode GoFormat Plugin Naming Annotations Imports.
From S2P Require Import PostgresTypes Queries Routes Collect Options Emit EmitMethods EmitStore Generate.
From Stdlib Require Import Ascii String.

#[local] Open Scope string_scope.
#[local] Open Scope list_scope.

Module ExampleRequests.
#[local] Existing Instances asciiTables insertionGoSort listMapOrder.

Definition ident (n : string) : Identifier := MkIdentifier "" "" n.
Definition bigint : Identifier := MkIdentifier "" "pg_catalog" "int8".
Definition column (table : option Identifier) (name : string) (typ : Identifier) (array named : bool) : Column := {|
  col_name := name; col_not_null := true; col_is_array := array; col_is_named_param := named;
  col_table := table; col_type := Some typ; col_is_sqlc_slice := false; col_embed_table := None;
  col_original_name := name; col_unsigned := false; col_array_dims := if array then 1 else 0 |}.

(** The accounts table and its queries. *)
Definition accounts : Identifier := ident "accounts".
Definition idColumn : Column := column (Some accounts) "id" bigint false false.
Definition tenantColumn : Column := column (Some accounts) "tenant_id" bigint false false.
Definition nameColumn : Column := column (Some accounts) "display_name" (ident "text") false false.
Definition accountRow : list Column := [idColumn; tenantColumn; nameColumn].

Definition annotations (k : string) (shard : list string) (store : string) : list string :=
  [" kind: " +:+ k] ++ ((fun s => " shard: " +:+ s) <$> shard) ++ [" store: " +:+ store].
Definition numbered (cs : list Column) : list QueryParam := imap (fun i c => MkQueryParam (Z.of_nat (S i)) c) cs.

Definition accountQueries : list Query :=
  let keyed k := annotations k ["tenantKey(tenant_id)"] in
  [MkQuery "SELECT id, tenant_id, display_name FROM accounts WHERE tenant_id = $1 AND id = $2"
     "GetAccount" ":one" accountRow (numbered [tenantColumn; idColumn]) (keyed "read" "Accounts") None;
   MkQuery "SELECT id, tenant_id, display_name FROM accounts WHERE id = ANY($1::bigint[]) ORDER BY id"
     "ListAccountsByIDs" ":many" accountRow (numbered [column None "ids" bigint true true])
     (keyed "read" "Accounts") None;
   MkQuery "SELECT id, tenant_id, display_name FROM accounts ORDER BY id"
     "ListAllAccounts" ":many" accountRow [] (annotations "read" ["all()"] "Accounts") None;
   MkQuery "UPDATE accounts SET display_name = $3 WHERE tenant_id = $1 AND id = $2 RETURNING id, tenant_id, display_name"
     "UpdateAccountName" ":one" accountRow (numbered [tenantColumn; idColumn; nameColumn])
     (keyed "write" "Accounts") None;
   MkQuery "INSERT INTO accounts (id, tenant_id, display_name) VALUES ($1, $2, $3) ON CONFLICT (id) DO UPDATE SET tenant_id = EXCLUDED.tenant_id, display_name = EXCLUDED.display_name RETURNING id, tenant_id, display_name"
     "UpsertAccount" ":one" accountRow (numbered accountRow) (keyed "write" "Accounts") (Some accounts);
   MkQuery "INSERT INTO accounts (id, tenant_id, display_name) VALUES ($1, $2, $3)"
     "CopyAccounts" ":copyfrom" [] (numbered accountRow) (keyed "write" "Accounts") (Some accounts);
   MkQuery "SELECT COUNT(*) FROM accounts WHERE tenant_id = $1"
     "CountAccounts" ":one" [column None "count" bigint false false] (numbered [tenantColumn])
     (keyed "read" "Reports") None].

(** The settings table and its queries. *)
Definition settings : Identifier := ident "application_settings".
Definition keyColumn : Column := column (Some settings) "key" (ident "text") false false.
Definition valueColumn : Column := column (Some settings) "value" (ident "text") false false.

Definition settingQueries : list Query :=
  [MkQuery "SELECT key, value FROM application_settings WHERE key = $1"
     "GetSetting" ":one" [keyColumn; valueColumn] (numbered [keyColumn]) (annotations "read" [] "Settings") None;
   MkQuery "INSERT INTO application_settings (key, value) VALUES ($1, $2) ON CONFLICT (key) DO UPDATE SET value = EXCLUDED.value RETURNING key, value"
     "UpsertSetting" ":one" [keyColumn; valueColumn] (numbered [keyColumn; valueColumn])
     (annotations "write" [] "Settings") (Some settings)].

Definition catalog : Catalog :=
  MkCatalog "public" [MkSchema "public"
    [MkTable accounts accountRow; MkTable settings [keyColumn; valueColumn]] [] []].

Definition request (package : string) (queries : list Query) : GenerateRequest :=
  MkRequest "postgresql" ("../internal/" +:+ package) catalog queries.

(** The options of sqlc.yaml. *)
Definition pluginOptions (package : string) : options := {|
  OutputFileName := "zz_generated_store.go"; PackageName := package; InternalImportPath := "";
  InternalImportAlias := ""; ExportSQLCTypes := false; ConstructorName := ""; IgnoreMirrorError := false;
  StoreInterfaceName := ""; RuntimeImportPath := ""; ResolverInterfaceName := "";
  ShardedConstructor := ""; SQLPackage := "pgx/v5"; QueryParameterLimit := Some 1%Z;
  EmitParamsStructPointers := true; EmitResultStructPointers := true;
  EmitPointersForNullTypes := true; EmitPointersForNullEnumType := None;
  EmitExactTableNames := false; EmitJSONTags := false; Rename := ∅; Overrides := [] |}.

(** The singular forms of the names in the schema. *)
Definition singularForms (s : string) : string := TrimSuffix s "s".

Definition generate (package : string) (queries : list Query) : result (list file) :=
  Generate (fun text => Ok text) (fun _ => Some []) (fun _ => None) singularForms
    (fun _ => Ok (pluginOptions package, true)) None (request package queries) "{}".

(** The bytes of a text that are no white space: how many, and a checksum. *)
Definition checksumStep (acc : Z * Z) (c : ascii) : Z * Z :=
  let b := byteZ c in
  if IsSpace b then acc else (acc.1 + 1, (acc.2 * 263 + b) mod 2305843009213693951)%Z.
Fixpoint checksum (acc : Z * Z) (s : string) : Z * Z :=
  match s with EmptyString => acc | String c s => checksum (checksumStep acc c) s end.

Definition fingerprints (m : result (list file)) : result (list (string * (Z * Z))) :=
  match m with
  | Ok files => Ok ((fun f => (file_name f, checksum (0, 0)%Z (file_contents f))) <$> files)
  | Err e => Err e
  | Panic => Panic
  end.

(** The files of examples/internal/sharded. *)
Example sharded_store_reproduced :
  fingerprints (generate "sharded" accountQueries) =
    Ok [
      ("zz_generated_store_interfaces.go", (1594, 1953147939389776220));
      ("zz_generated_store_read.go", (1317, 844324265532485529));
      ("zz_generated_store_write.go", (2027, 416470318711825941));
      ("zz_generated_store.go", (7943, 233883541457494612));
      ("zz_generated_store_accounts.go", (22804, 2010681019632975207));
      ("zz_generated_store_reports.go", (3132, 1654770001000744728));
      ("zz_generated_store_sharded.go", (3578, 1453314464796427238))]%Z.
Proof. vm_compute. reflexivity. Qed.

(** The files of examples/internal/one. *)
Example one_store_reproduced :
  fingerprints (generate "one" settingQueries) =
    Ok [
      ("zz_generated_store_interfaces.go", (680, 1656231148439008205));
      ("zz_generated_store_read.go", (618, 1454388240633591930));
      ("zz_generated_store_write.go", (1347, 253222931897058119));
      ("zz_generated_store.go", (6335, 1407485262354286783));
      ("zz_generated_store_settings.go", (4531, 2017079276311721023));
      ("zz_generated_store_sharded.go", (44, 1412774331663352701))]%Z.
Proof. vm_compute. reflexivity. Qed.

End ExampleRequests.
