(* ===== verification/GenerateClaims.v ===== *)
(** * GenerateClaims: what the plugin promises

    The files of a store are distinct, generation never panics, and two inputs
    the generator accepts for which the code it writes cannot compile. The
    laws are shown to apply to the repository's own example requests. *)

From S2P Require Import Prelude Errors GoStrings Unicode GoFormat Plugin Naming Annotations Imports.
From S2P Require Import PostgresTypes Queries Routes Collect Options Emit EmitMethods EmitStore Generate.
From S2P Require Import GenerateFiles Conformance GenerateTotal GenerateSample.
From Stdlib Require Import Ascii String.

#[local] Open Scope string_scope.
#[local] Open Scope list_scope.

Section Claims.
Context `{UT : !UnicodeTables} `{GS : !GoSort} `{MO : !GoMapOrder}.
Context (formatSource : string -> result string) (Selectors : string -> option (list (string * string))).
Context (ParseExpr : string -> option astExpr) (Singular : string -> string).
Context (Decode : string -> result (options * bool)).

Lemma wrapStep_Ok {A} format (m : result A) a : wrapStep format m = Ok a <-> m = Ok a.
Proof. by destruct m. Qed.

Lemma wrapStep_not_Panic {A} format (m : result A) : m <> Panic -> wrapStep format m <> Panic.
Proof. by destruct m. Qed.

(** Parsed options name their output file and have a limit. *)
Lemma parsed_options req text opts :
  parseOptions ParseExpr Decode req text = Ok opts ->
  goFileName (OutputFileName opts) /\ is_Some (QueryParameterLimit opts).
Proof.
  intros (raw & _ & H)%parseOptions_Ok. rewrite (pa_others _ _ _ _ H). cbn. split; [apply H|].
  by destruct (QueryParameterLimit raw).
Qed.

Lemma appendFiles_names opts imports bodies files :
  appendFiles formatSource opts imports bodies = Ok files -> file_name <$> files = bodies.*1.
Proof.
  revert files. induction bodies as [|[name body] bodies IH]; intros files; cbn [appendFiles].
  { by intros <-%mret_Ok. }
  intros (b & _ & H)%bind_Ok. apply bind_Ok in H as (content & _ & H).
  apply bind_Ok in H as (rest & Hrest & <-%mret_Ok). cbn. by rewrite (IH rest).
Qed.

(** The order in which files are written, and the names taken first. *)
Lemma written_perm name names :
  [derivedOutputFileName name "interfaces"; derivedOutputFileName name "read"; derivedOutputFileName name "write"; name] ++
    names ++ [derivedOutputFileName name "sharded"] ≡ₚ fixedFileNames name ++ names.
Proof.
  unfold fixedFileNames, fixedSections. cbn [fmap list_fmap].
  set (i := derivedOutputFileName name "interfaces"). set (r := derivedOutputFileName name "read").
  set (w := derivedOutputFileName name "write"). set (s := derivedOutputFileName name "sharded"). solve_Permutation.
Qed.

Lemma names_NoDup name names :
  goFileName name -> NoDup (ToLower <$> names) ->
  Forall (fun file => ToLower file ∉ (list_to_set (ToLower <$> fixedFileNames name) : gset string)) names ->
  NoDup (ToLower <$> (fixedFileNames name ++ names)).
Proof.
  intros Hname Hnd Hfree. rewrite fmap_app. apply NoDup_app. split_and!; [by apply fixedFileNames_NoDup| |done].
  intros x Hx (file & -> & Hin)%list_elem_of_fmap. rewrite Forall_forall in Hfree.
  by apply (Hfree file Hin), elem_of_list_to_set.
Qed.

(** C35: The files of a store are distinct. When generation succeeds it writes
    the interfaces, the read and write queries and the store, one file for each
    store group named after the group (with [group_] in front as often as
    needed), and the sharded constructor last; no two of the names are equal,
    also where the file system ignores case. *)
Theorem generated_files_distinct ctxErr req text files :
  Generate formatSource Selectors ParseExpr Singular Decode ctxErr req text = Ok files ->
  exists opts queries imports groups names,
    parseOptions ParseExpr Decode req text = Ok opts /\
    querySpecs (req_catalog req) opts Singular (req_queries req) = Ok (queries, imports) /\
    collectStoreGroups queries opts = Ok groups /\
    Forall2 (fun group file => exists k, file = derivedOutputFileName (OutputFileName opts)
      (prefixed k (snakeCaseIdentifier (sg_name group)))) groups names /\
    file_name <$> files =
      [derivedOutputFileName (OutputFileName opts) "interfaces"; derivedOutputFileName (OutputFileName opts) "read";
       derivedOutputFileName (OutputFileName opts) "write"; OutputFileName opts] ++
      names ++ [derivedOutputFileName (OutputFileName opts) "sharded"] /\
    NoDup (ToLower <$> (file_name <$> files)).
Proof.
  unfold Generate. destruct ctxErr; [done|]. intros (opts & Hopts%wrapStep_Ok & H)%bind_Ok.
  apply bind_Ok in H as ([queries imports] & Hq%wrapStep_Ok & H). apply wrapStep_Ok in H.
  unfold generateWrapper in H. apply bind_Ok in H as (routes & _ & H). apply bind_Ok in H as (groups & Hg & H).
  destruct (parsed_options _ _ _ Hopts) as [Hname _].
  destruct (groupFileNames_found (OutputFileName opts) groups
    (list_to_set (ToLower <$> fixedFileNames (OutputFileName opts))) Hname) as (names & Hnames & Hlen & Hnd & Hfree & Hks).
  unfold storeGroupOutputFileNames in H. rewrite Hnames in H. cbn [panic_if_none mbind outcome_bind] in H.
  apply bind_Ok in H as (aliases & _ & H). apply bind_unit_Ok in H as [_ H]. apply bind_unit_Ok in H as [_ H].
  apply appendFiles_names in H. unfold wrapperBodies in H. cbv zeta in H.
  rewrite !fmap_app, fst_zip in H by (rewrite length_fmap; lia).
  exists opts, queries, imports, groups, names. split_and!; try done.
  rewrite H. cbn [fmap list_fmap fst app]. rewrite <- (app_nil_r [_]).
  change (NoDup (ToLower <$> ([derivedOutputFileName (OutputFileName opts) "interfaces";
    derivedOutputFileName (OutputFileName opts) "read"; derivedOutputFileName (OutputFileName opts) "write";
    OutputFileName opts] ++ names ++ [derivedOutputFileName (OutputFileName opts) "sharded"]))).
  rewrite written_perm. by apply names_NoDup.
Qed.

(** C37: Generation never panics. For a request as sqlc sends it (no negative
    array dimensions, copies with named parameters) the plugin returns files or
    an error, whatever the options, the annotations and the names are: nothing
    is indexed out of range, no nil pointer is followed, and the search for
    file names ends. *)
Theorem generate_never_panics `{UL : !UnicodeLaws UT} ctxErr req text :
  plainRequest req -> Decode text <> Panic -> (forall source, formatSource source <> Panic) ->
  Generate formatSource Selectors ParseExpr Singular Decode ctxErr req text <> Panic.
Proof.
  intros [Ht Hq] Hdecode Hformat. unfold Generate. destruct ctxErr; [done|].
  apply bind_not_Panic; [by apply wrapStep_not_Panic, parseOptions_not_Panic|].
  intros opts [Hname Hl]%wrapStep_Ok%parsed_options.
  destruct (querySpecs_spec (req_catalog req) opts Singular (req_queries req) Hl Hq Ht) as [Hp He].
  apply bind_not_Panic; [by apply wrapStep_not_Panic|]. intros [queries imports] Hok%wrapStep_Ok%He.
  by apply wrapStep_not_Panic, generateWrapper_not_Panic.
Qed.
End Claims.

(** ** The example stores *)

Module GenerateWitnesses.
Import ExampleRequests.
#[local] Existing Instances asciiTables insertionGoSort listMapOrder.

Definition isOk {A} (m : result A) : bool := match m with Ok _ => true | _ => false end.

Lemma isOk_spec {A} (m : result A) : isOk m = true -> exists a, m = Ok a.
Proof. destruct m; [by eexists|done..]. Qed.

Lemma sharded_generated : isOk (generate "sharded" accountQueries) = true.
Proof. vm_compute. reflexivity. Qed.

Lemma generated_files_distinct_witness :
  exists files, generate "sharded" accountQueries = Ok files /\ NoDup (ToLower <$> (file_name <$> files)).
Proof.
  destruct (isOk_spec _ sharded_generated) as [files H]. exists files. split; [exact H|].
  destruct (generated_files_distinct _ _ _ _ _ _ _ _ _ H) as (? & ? & ? & ? & ? & ? & ? & ? & ? & ? & Hnd).
  exact Hnd.
Defined.

Lemma sharded_plain : plainRequest (request "sharded" accountQueries).
Proof.
  split.
  - intros s t [->|[]%elem_of_nil]%elem_of_cons Ht.
    repeat (apply elem_of_cons in Ht as [->|Ht]); [repeat constructor; by vm_compute..|by apply elem_of_nil in Ht].
  - repeat constructor; try (by vm_compute); intros ?; try done; (split; [done|]); repeat constructor; done.
Qed.

Lemma generate_never_panics_witness :
  plainRequest (request "sharded" accountQueries) /\ generate "sharded" accountQueries <> Panic.
Proof.
  split; [exact sharded_plain|]. refine (generate_never_panics _ _ _ _ _ _ _ _ sharded_plain _ _); done.
Defined.

(** The groups of a request, with the options it is generated under. *)
Definition groupsOf (package : string) (queries : list Query) : result (options * list storeGroup) :=
  opts ← parseOptions (fun _ => None) (fun _ => Ok (pluginOptions package, true)) (request package queries) "{}";
  '(qs, _) ← querySpecs catalog opts singularForms queries;
  groups ← collectStoreGroups qs opts;
  mret (opts, groups).

(** The file of the accounts. *)
Definition accountsFile : result buffer :=
  '(opts, groups) ← groupsOf "sharded" accountQueries;
  group ← panic_if_none (head groups);
  writeStoreGroup opts group.

Lemma accountsFile_written : isOk accountsFile = true.
Proof. vm_compute. reflexivity. Qed.

Lemma store_group_implements_witness :
  exists opts group b, writeStoreGroup opts group = Ok b /\
    implements opts defaultGroupType b /\ implements opts (storeTelemetryTypeName (sg_name group)) b.
Proof.
  destruct (isOk_spec _ accountsFile_written) as [b H]. unfold accountsFile in H.
  apply bind_Ok in H as ([opts groups] & _ & H). apply bind_Ok in H as (group & _ & H).
  exists opts, group, b. destruct (store_group_implements opts group b H) as (_ & _ & H1 & H2).
  exact (conj H (conj H1 H2)).
Defined.
End GenerateWitnesses.

(** ** Inputs whose generated code cannot compile *)

Module GenerateFindings.
Import ExampleRequests.
#[local] Existing Instances asciiTables insertionGoSort listMapOrder.

(** The contents of the file with a name. *)
Definition contentsOf (m : result (list file)) (name : string) : option string :=
  match m with
  | Ok files => file_contents <$> head (List.filter (fun f => String.eqb (file_name f) name) files)
  | _ => None
  end.

Definition holds (m : result (list file)) (name : string) (fragments : list string) : Prop :=
  exists contents, contentsOf m name = Some contents /\ Forall (fun f => Contains contents f = true) fragments.

Definition holdsB (m : result (list file)) (name : string) (fragments : list string) : bool :=
  match contentsOf m name with Some c => forallb (Contains c) fragments | None => false end.

Lemma holdsB_spec m name fragments : holdsB m name fragments = true -> holds m name fragments.
Proof.
  unfold holdsB, holds. destruct (contentsOf m name) as [c|]; [|done]. intros H. exists c. split; [done|].
  apply Forall_forall. intros f Hf. rewrite forallb_forall in H. by apply H, list_elem_of_In.
Qed.

Definition generateFrom (opts : options) (tables : list Table) (queries : list Query) : result (list file) :=
  Generate (fun text => Ok text) (fun _ => Some []) (fun _ => Some (SelectorExpr Ident)) singularForms
    (fun _ => Ok (opts, true)) None
    (MkRequest "postgresql" "internal/db" (MkCatalog "public" [MkSchema "public" tables [] []]) queries) "{}".

(** A table with a column named [options], and a query by it. *)
Definition optionsColumn : Column := column (Some settings) "options" (ident "text") false false.
Definition settingRow : list Column := [keyColumn; valueColumn; optionsColumn].
Definition optionsQuery : Query :=
  MkQuery "SELECT key, value, options FROM application_settings WHERE options = $1"
    "GetByOptions" ":one" settingRow (numbered [optionsColumn]) (annotations "read" [] "Settings") None.

(** A parameter may be declared twice. The methods of a store declare
    local variables, [options] among them, next to their parameters; a query's
    single parameter keeps the name of its column. For a column named
    [options] the method written has a parameter [options] and declares
    [options] again with [:=] in the same block, which Go rejects. *)
Theorem parameter_redeclared :
  holds (generateFrom (pluginOptions "one") [MkTable settings settingRow] [optionsQuery]) "zz_generated_store_settings.go"
    [literal "func (q *groupedMeshStore[SK]) GetByOptions(ctx context.Context, options string, storeOptions ...QueryOption) (result *ApplicationSetting, err error) {\n\t// Trace the query and record its returned error.\n\tctx, querySpan := q.store.mesh.StartLogicalQuerySpan(ctx, \qSettings\q, \qGetByOptions\q, pgmesh.QueryKindRead)\n\tdefer func() { querySpan.End(err) }()\n\n\t// Resolve the shard key for this topology.\n\tvar shardKey SK\n\tshard, err := q.store.mesh.Resolve(shardKey)\n\tif err != nil {\n\t\treturn result, err\n\t}\n\n\t// Apply options that can override the default route.\n\toptions := applyQueryOptions(storeOptions...)\n"].
Proof. apply holdsB_spec. vm_compute. reflexivity. Qed.

(** Options that give a column a type of a package named [sync]. *)
Definition syncOptions : options := withOverrides (pluginOptions "sharded")
  [MkOverride (MkGoType "" "" "" false false "example.com/app/sync.Name") "" false false
     "accounts.display_name" "" "" "" "" "" "" ""].

(** Two imports of a name. Overrides may not import a package under a name
    that generated code uses for another one, but [sync] and [reflect] are left
    out of the names that are checked, although every file may import them. An
    override with a type of a package [example.com/app/sync] is accepted, and
    the file of the store imports two packages named [sync]. *)
Theorem override_import_collides :
  holds (generateFrom syncOptions [MkTable accounts accountRow] accountQueries) "zz_generated_store_accounts.go"
    [literal "\t\qsync\q\n"; literal "\t\qexample.com/app/sync\q\n"; "sync.Mutex"; "sync.Name"].
Proof. apply holdsB_spec. vm_compute. reflexivity. Qed.
End GenerateFindings.
