(* ===== verification/DeclaredOnce.v ===== *)
(** * DeclaredOnce: no name is declared twice

    The collision checks of [collectStoreGroups] and of the sqlc aliases,
    brought together with what the writers write: over all files of a package
    generated for queries with upper-case names, under renames to such names,
    every top-level name is declared once. [lower_case_copies_collide] is a
    package that declares a type twice without that. *)

From S2P Require Import Prelude Errors GoStrings Unicode GoFormat Plugin Naming Annotations Imports.
From S2P Require Import PostgresTypes Queries Routes Collect Options Emit EmitMethods EmitStore Generate.
From S2P Require Import GenerateFiles Conformance Declarations GenerateTotal GenerateSample GenerateClaims.
From Stdlib Require Import Ascii String.

#[local] Open Scope string_scope.
#[local] Open Scope list_scope.

(** ** Lists *)

Lemma bind_split {A B} (f g : A -> list B) (l : list A) :
  (l ≫= fun x => f x ++ g x) ≡ₚ (l ≫= f) ++ (l ≫= g).
Proof.
  induction l as [|x l IH]; [done|]. cbn [mbind list_bind]. rewrite IH. solve_Permutation.
Qed.

Lemma bind_perm_ext {A B} (f g : A -> list B) (l : list A) : (forall x, f x ≡ₚ g x) -> l ≫= f ≡ₚ l ≫= g.
Proof. intros H. induction l as [|x l IH]; [done|]. cbn [mbind list_bind]. by rewrite IH, H. Qed.

Lemma bind_singleton {A B} (f : A -> B) (l : list A) : (l ≫= fun x => [f x]) = f <$> l.
Proof. induction l as [|x l IH]; [done|]. cbn. by rewrite <- IH. Qed.

Lemma fmap_bind {A B C} (f : B -> C) (g : A -> list B) (l : list A) :
  f <$> (l ≫= g) = l ≫= fun x => f <$> g x.
Proof. induction l as [|x l IH]; [done|]. cbn [mbind list_bind]. by rewrite fmap_app, IH. Qed.

#[local] Instance app_submseteq_proper {A} : Proper (submseteq ==> submseteq ==> submseteq) (@app A).
Proof. intros a b H c d H'. by apply submseteq_app. Qed.

(** Classes with different labels. *)
Lemma classes_submseteq {A B} `{EqDecision B} (f : A -> B) (labels : list B) (l : list A) :
  NoDup labels -> (labels ≫= fun b => filter (fun x => f x = b) l) ⊆+ l.
Proof.
  intros Hnd. revert l. induction Hnd as [|b labels Hb _ IH]; intros l; [apply submseteq_nil_l|].
  cbn [mbind list_bind]. trans (filter (fun x => f x = b) l ++ filter (fun x => f x <> b) l).
  2:{ apply Permutation_submseteq, filter_app_complement. }
  apply submseteq_skips_l. rewrite <- (IH (filter (fun x => f x <> b) l)).
  match goal with |- ?a ⊆+ ?b => assert (a = b) as ->; [|done] end. clear IH. induction labels as [|b' labels IH]; [done|]. cbn [mbind list_bind].
  apply not_elem_of_cons in Hb as [Hne Hb]. rewrite (IH Hb). f_equal. rewrite list_filter_filter.
  apply list_filter_iff. naive_solver.
Qed.

(** ** Strings *)

Lemma app_string_inj a b s t :
  String.length s = String.length t -> a +:+ s = b +:+ t -> a = b /\ s = t.
Proof.
  intros Hl H. assert (String.length a = String.length b) as Hab.
  { apply (f_equal String.length) in H. rewrite !length_app_string in H. lia. }
  assert (a = b) as <- by (rewrite <- (takeBytes_app a s), <- (takeBytes_app b t), <- Hab; by f_equal).
  split; [done|]. by apply app_string_cancel_l in H.
Qed.

(** Starting with a lower-case ASCII letter, as all unexported names do here. *)
Definition lowFirst (s : string) : bool :=
  match s with String c _ => asciiLower (byteZ c) | EmptyString => false end.

Lemma lowFirst_app s t : s <> "" -> lowFirst (s +:+ t) = lowFirst s.
Proof. by destruct s. Qed.

Section Names.
Context `{UT : !UnicodeTables}.

Lemma ascii_firstRune c s : (byteZ c < 128)%Z -> firstRune (String c s) = byteZ c.
Proof.
  intros Hc. rewrite firstRune_runes. unfold runes. by rewrite runesOf_ascii.
Qed.

Lemma upper_not_low s : IsUpper (firstRune s) = true -> lowFirst s = false.
Proof.
  destruct s as [|c s]; [done|]. intros H. cbn [lowFirst]. destruct (asciiLower (byteZ c)) eqn:E; [|done].
  exfalso. unfold asciiLower, inRange in E. rewrite ascii_firstRune in H by lia.
  unfold IsUpper, asciiUpper, inRange in H. destruct (byteZ c <? 128)%Z eqn:E'; lia.
Qed.

(** The name of a query: an upper-case ASCII letter, then valid UTF-8. *)
Definition queryName (s : string) : Prop :=
  exists c t, s = String c t /\ asciiUpper (byteZ c) = true /\ wellFormed t.

Lemma queryName_not_low s t : queryName s -> lowFirst (s +:+ t) = false.
Proof.
  intros (c & s' & -> & H & _). rewrite app_cons_string. cbn [lowFirst]. unfold asciiUpper, asciiLower, inRange in *. lia.
Qed.

Lemma lowerTitle_queryName c t :
  asciiUpper (byteZ c) = true -> wellFormed t -> lowerTitle (String c t) = String (byteOf (byteZ c + 32)) t.
Proof.
  intros Hc Ht. pose proof Hc as Hr. unfold asciiUpper, inRange in Hr.
  unfold lowerTitle. rewrite bool_decide_eq_false_2 by done.
  unfold runes. rewrite runesOf_ascii by lia. cbn [fmap list_fmap fst onFirst].
  fold (runes t). change (ofRunes (?r :: ?rs)) with (encodeRune r +:+ ofRunes rs).
  rewrite wellFormed_ofRunes by done.
  assert (runeToLower (byteZ c) = byteZ c + 32)%Z as ->.
  { unfold runeToLower. rewrite Hc. destruct (byteZ c <? 128)%Z eqn:E; [reflexivity|lia]. }
  rewrite encodeRune_scalar by (unfold scalar, inRange, RuneError; lia).
  destruct (byteZ c + 32 <? 128)%Z eqn:E; [done|lia].
Qed.

Lemma lowerTitle_inj s t : queryName s -> queryName t -> lowerTitle s = lowerTitle t -> s = t.
Proof.
  intros (c & s' & -> & Hc & Hs) (d & t' & -> & Hd & Ht). rewrite !lowerTitle_queryName by done.
  unfold asciiUpper, inRange in *. pose proof (byteZ_range c). pose proof (byteZ_range d).
  intros [= E ->]. apply (f_equal byteZ) in E. rewrite !byteZ_byteOf in E by lia.
  assert (c = d) as -> by (rewrite <- (byteOf_byteZ c), <- (byteOf_byteZ d); f_equal; lia). done.
Qed.

Lemma lowerTitle_low s t : queryName s -> lowFirst (lowerTitle s +:+ t) = true.
Proof.
  intros (c & s' & -> & Hc & Hs). rewrite lowerTitle_queryName, app_cons_string by done. cbn [lowFirst].
  unfold asciiUpper, asciiLower, inRange in *. rewrite byteZ_byteOf by lia. lia.
Qed.

End Names.

(** ** The names of a package, sorted out *)

Definition internalNames : list string :=
  [defaultReadInterface; defaultWriteInterface; defaultReadType; defaultReadNew; defaultWriteType; defaultWriteNew;
   "queryOptions"; "applyQueryOptions"; defaultStoreType; "newQueryStore"; defaultNodeNew; "storeOptions";
   "applyStoreOptions"; "singletonConfig"; "singletonTopology"; defaultMeshStoreType; defaultGroupType;
   "shardDatabase"; "shardMapping"; "shardedOptions"; "shardedTopology"].

Definition fixedNames : list string :=
  ["QueryOption"; "ReadFromPrimary"; "WithTx"; "StoreOption"; "WithTracerProvider"; "WithMeterProvider"; "WithLogger";
   "Topology"; "SingletonOption"; "WithDatabaseName"; "WithReadReplicas"; "WithWriteMirrors"; "Singleton";
   "ShardedOption"; "WithReplicaSet"; "WithVirtualShardMapping"].

(** What sqlc declares in the package of its own code. *)
Definition sqlcNames (opts : options) : list string :=
  if bool_decide (InternalImportPath opts = "") then ["DBTX"; "New"; "Queries"; "Querier"] else [].

Definition configuredNames (opts : options) : list string := (publicNames opts).*2.

Definition copiedMethod (q : generatedQuery) : list string := if isCopy q then [methodName q] else [].

Section Package.
Context `{UT : !UnicodeTables}.
Context (opts : options) (queries : list generatedQuery) (aliases : list string)
  (routes : list shardRoute) (groups : list storeGroup).

Definition unexportedNames : list string :=
  internalNames ++ ((fun g => storeTelemetryTypeName (sg_name g)) <$> groups) ++
  (copyBatchStateTypeName <$> (queries ≫= copiedMethod)).

Definition exportedNames : list string :=
  aliases ++ (fixedNames ++ sqlcNames opts ++ configuredNames opts) ++ (rt_methodName <$> routes) ++
  (groups ≫= groupDeclarations) ++ (queries ≫= queryDeclarations).

(** The declarations of a query, in the files and as they are checked. *)
Lemma query_names q :
  aliasNames q ++ wrapperNames q ++ copyNames q ≡ₚ
  queryDeclarations q ++ (copyBatchStateTypeName <$> copiedMethod q).
Proof.
  unfold queryDeclarations, copyNames, copiedMethod, isCopy. fold (aliasNames q) (wrapperNames q).
  case_bool_decide; cbn [fmap list_fmap]; solve_Permutation.
Qed.

Lemma group_names g :
  groupNames g ≡ₚ groupDeclarations g ++ [storeTelemetryTypeName (sg_name g)] ++
    (sg_queries g ≫= queryDeclarations) ++ (sg_queries g ≫= fun q => copyBatchStateTypeName <$> copiedMethod q).
Proof.
  unfold groupNames. rewrite <- bind_split, <- (bind_perm_ext _ _ _ query_names), !bind_split.
  unfold groupDeclarations. solve_Permutation.
Qed.

Hypothesis groups_exact : forall g, g ∈ groups -> sg_queries g = queriesOf (sg_name g) queries.
Hypothesis groups_distinct : NoDup (sg_name <$> groups).

Lemma grouped_submseteq {B} (f : generatedQuery -> list B) :
  (groups ≫= fun g => sg_queries g ≫= f) ⊆+ (queries ≫= f).
Proof.
  assert ((groups ≫= fun g => sg_queries g ≫= f) =
    ((sg_name <$> groups) ≫= fun n => filter (fun q => store q = n) queries) ≫= f) as ->.
  2:{ apply bind_submseteq, classes_submseteq, groups_distinct. }
  clear groups_distinct. revert groups_exact. generalize groups as gs. induction gs as [|g gs IH]; intros Hg; [done|].
  cbn [mbind list_bind fmap list_fmap]. rewrite bind_app, (Hg g) by left. f_equal.
  apply IH. intros g' Hg'. apply Hg. by right.
Qed.

Lemma all_group_names :
  (groups ≫= groupNames) ⊆+
  (groups ≫= groupDeclarations) ++ ((fun g => storeTelemetryTypeName (sg_name g)) <$> groups) ++
  (queries ≫= queryDeclarations) ++ (copyBatchStateTypeName <$> (queries ≫= copiedMethod)).
Proof.
  rewrite (bind_perm_ext _ _ _ group_names), !bind_split, bind_singleton.
  repeat apply submseteq_app; try done; [apply grouped_submseteq|].
  rewrite fmap_bind. apply grouped_submseteq.
Qed.

Lemma package_names :
  sqlcNames opts ++ packageNames opts queries aliases routes groups ⊆+ unexportedNames ++ exportedNames.
Proof.
  unfold packageNames, unexportedNames, exportedNames, configuredNames. cbv zeta. rewrite all_group_names.
  assert ((if hasShardOperations queries then (rt_methodName <$> routes) ++ [ResolverInterfaceName opts] else [])
    ⊆+ (rt_methodName <$> routes) ++ [ResolverInterfaceName opts]) as -> by (by destruct (hasShardOperations _); [|apply submseteq_nil_l]).
  assert ((if hasShardOperations queries then shardedNames opts else []) ⊆+ shardedNames opts) as ->
    by (by destruct (hasShardOperations _); [|apply submseteq_nil_l]).
  unfold configurationNames.
  assert ((if notEmpty groups then [defaultGroupType] else []) ⊆+ [defaultGroupType]) as ->
    by (by destruct groups; [apply submseteq_nil_l|]).
  unfold shardedNames. cbn [fmap list_fmap publicNames snd].
  generalize (groups ≫= groupDeclarations) ((fun g => storeTelemetryTypeName (sg_name g)) <$> groups)
    (queries ≫= queryDeclarations) (copyBatchStateTypeName <$> (queries ≫= copiedMethod)) (rt_methodName <$> routes) (sqlcNames opts).
  intros l1 l2 l3 l4 l5 l6. unfold internalNames, fixedNames. solve_submseteq.
Qed.
End Package.

(** ** Accepted names *)

Record nameable `{UT : !UnicodeTables} (q : generatedQuery) : Prop := {
  nm_name : queryName (methodName q);
  nm_store : IsUpper (firstRune (store q)) = true;
  nm_route : forall r, gq_route q = Some r -> IsUpper (firstRune (rt_methodName r)) = true;
  nm_alias : forall a, gq_storeParamAlias q = Some a -> pa_name a = methodName q +:+ "T";
  nm_wrapper : forall w, gq_shardArgs q = Some w -> wr_name w = methodName q +:+ "T";
}.

Lemma fixedNames_declared b n : n ∈ fixedNames -> is_Some (fixedGeneratedDeclarations b !! n).
Proof.
  intros H. unfold fixedNames in H.
  repeat (apply elem_of_cons in H as [->|H]; [destruct b; by eexists|]). by apply elem_of_nil in H.
Qed.

Lemma sqlcNames_declared opts n :
  n ∈ sqlcNames opts -> is_Some (fixedGeneratedDeclarations (bool_decide (InternalImportPath opts = "")) !! n).
Proof.
  unfold sqlcNames. destruct (bool_decide _); intros H; [|by apply elem_of_nil in H].
  repeat (apply elem_of_cons in H as [->|H]; [by eexists|]). by apply elem_of_nil in H.
Qed.

(** The names that are taken before any query or group. *)
Lemma generated_declared opts n :
  n ∈ fixedNames ++ sqlcNames opts ++ configuredNames opts -> is_Some (generatedDeclarations opts !! n).
Proof.
  intros H. unfold generatedDeclarations. rewrite !lookup_insert_is_Some'.
  apply elem_of_app in H as [H|[H|H]%elem_of_app].
  - do 4 right. by apply fixedNames_declared.
  - do 4 right. by apply sqlcNames_declared.
  - unfold configuredNames in H. cbn in H. rewrite !elem_of_cons in H. pose proof (not_elem_of_nil n). naive_solver.
Qed.

(** *** The map the aliases are compared with *)

Lemma declarationMap_mono {A} (f : gmap string string -> A -> gmap string string) (l : list A) d n :
  (forall d a, is_Some (d !! n) -> is_Some (f d a !! n)) -> is_Some (d !! n) -> is_Some (foldl f d l !! n).
Proof. intros Hf. revert d. induction l as [|a l IH]; intros d Hd; [done|]. cbn [foldl]. by apply IH, Hf. Qed.

Lemma declarationMap_elem {A} (f : gmap string string -> A -> gmap string string) (names : A -> list string) l d n :
  (forall d a, is_Some (d !! n) -> is_Some (f d a !! n)) ->
  (forall d a, n ∈ names a -> is_Some (f d a !! n)) -> n ∈ l ≫= names -> is_Some (foldl f d l !! n).
Proof.
  intros Hmono Hf. revert d. induction l as [|a l IH]; intros d H; [by apply elem_of_nil in H|].
  cbn [mbind list_bind] in H. cbn [foldl]. apply elem_of_app in H as [H|H]; [|by apply IH].
  by apply declarationMap_mono, Hf.
Qed.

(** Inserting names keeps a name. *)
Ltac keeps_name := intros; repeat case_match; rewrite ?lookup_insert_is_Some'; auto 8.

Lemma group_turn_keeps (d : gmap string string) (g : storeGroup) n l :
  is_Some (d !! n) -> is_Some (foldl (fun d name => <[name := "store group " +:+ sg_name g]> d) d l !! n).
Proof. apply declarationMap_mono. keeps_name. Qed.

Lemma group_turn_adds (d : gmap string string) (g : storeGroup) n l :
  n ∈ l -> is_Some (foldl (fun (d : gmap string string) name => <[name := "store group " +:+ sg_name g]> d) d l !! n).
Proof.
  intros H. apply (declarationMap_elem _ (fun x => [x])); [keeps_name| |by rewrite bind_singleton, list_fmap_id].
  intros d' x ->%list_elem_of_singleton. keeps_name.
Qed.

Lemma declarationMap_holds opts queries groups n :
  is_Some (generatedDeclarations opts !! n) \/ n ∈ (groups ≫= groupDeclarations) \/
  n ∈ (rt_methodName <$> routesOf queries) \/ n ∈ (queries ≫= queryDeclarations) ->
  is_Some (declarationMap opts queries groups !! n).
Proof.
  intros H. unfold declarationMap. cbv zeta. destruct H as [H|[H|H]].
  - apply declarationMap_mono; [keeps_name|]. apply declarationMap_mono; [|done]. intros. by apply group_turn_keeps.
  - apply declarationMap_mono; [keeps_name|]. apply (declarationMap_elem _ groupDeclarations); [|by intros; apply group_turn_adds|done].
    intros. by apply group_turn_keeps.
  - apply (declarationMap_elem _ (fun q => (rt_methodName <$> option_list (gq_route q)) ++ queryDeclarations q)); [keeps_name| |].
    + intros d q Hn. unfold queryDeclarations in Hn.
      repeat case_match; rewrite ?lookup_insert_is_Some'; cbn in Hn;
        rewrite ?elem_of_cons in Hn; pose proof (not_elem_of_nil n); naive_solver.
    + rewrite bind_split, elem_of_app. destruct H as [H|H]; [left|by right].
      unfold routesOf in H. clear groups. induction queries as [|q qs IH]; [done|].
      cbn [omap list_omap] in H. cbn [mbind list_bind]. apply elem_of_app.
      destruct (gq_route q); [|by right; apply IH]. apply elem_of_cons in H as [->|H]; [left; left|by right; apply IH].
Qed.

Lemma checkAliases_free d aliases : checkAliases d aliases = Ok tt -> Forall (fun n => d !! n = None) aliases.
Proof.
  induction aliases as [|a l IH]; intros H; [constructor|]. cbn [checkAliases] in H.
  destruct (d !! a) eqn:E; [done|]. constructor; [done|by apply IH].
Qed.

Section Accepted.
Context `{UT : !UnicodeTables} `{GS : !GoSort} `{MO : !GoMapOrder}.
Context (opts : options) (queries : list generatedQuery) (aliases : list string)
  (routes : list shardRoute) (groups : list storeGroup).
Hypothesis acc : acceptable opts.
Hypothesis collected : collectShardRoutes queries = Ok routes.
Hypothesis grouped : collectStoreGroups queries opts = Ok groups.
Hypothesis aliased : validateSQLCTypeAliases opts queries groups aliases = Ok tt.
Hypothesis aliases_distinct : NoDup aliases.

Lemma reserved_distinct : NoDup (fixedNames ++ sqlcNames opts ++ configuredNames opts).
Proof.
  assert (forall n, n ∈ fixedNames ++ sqlcNames opts ->
    is_Some (fixedGeneratedDeclarations (bool_decide (InternalImportPath opts = "")) !! n)) as Hfix.
  { intros n [H|H]%elem_of_app; [by apply fixedNames_declared|by apply sqlcNames_declared]. }
  rewrite app_assoc. apply NoDup_app. split_and!.
  - unfold sqlcNames. case_bool_decide; apply (bool_decide_unpack _); by vm_compute.
  - intros n [v Hn]%Hfix Hc. apply (acc_unreserved opts acc) in Hc. congruence.
  - apply acc.
Qed.

Lemma routes_collected : NoDup (rt_methodName <$> routes) /\ forall r, r ∈ routes -> r ∈ routesOf queries.
Proof.
  unfold collectShardRoutes in collected. apply bind_Ok in collected as (m & Hm & <-%mret_Ok).
  destruct (collected_routes queries m Hm) as (H1 & H2 & _). split; [by rewrite sortByKey_perm|].
  intros r. rewrite sortByKey_perm. apply H2.
Qed.

Lemma key_of_route n : n ∈ (rt_methodName <$> routes) -> n ∈ (rt_methodName <$> routesOf queries).
Proof. intros (r & -> & Hr)%list_elem_of_fmap. apply list_elem_of_fmap_2. by apply routes_collected. Qed.

Lemma aliases_free n :
  n ∈ aliases -> n ∉ (fixedNames ++ sqlcNames opts ++ configuredNames opts) ++ (rt_methodName <$> routes) ++
    (groups ≫= groupDeclarations) ++ (queries ≫= queryDeclarations).
Proof.
  intros Hn Hin. assert (declarationMap opts queries groups !! n = None) as Hfree.
  { assert (checkAliases (declarationMap opts queries groups) aliases = Ok tt) as Hc by (by destruct aliases).
    apply checkAliases_free in Hc. rewrite Forall_forall in Hc. by apply Hc. }
  destruct (declarationMap_holds opts queries groups n) as [? ?]; [|congruence].
  apply elem_of_app in Hin as [H|[H|[H|H]%elem_of_app]%elem_of_app]; [|auto using key_of_route..].
  left. by apply generated_declared.
Qed.

Lemma exported_distinct : NoDup (exportedNames opts queries aliases routes groups).
Proof.
  destruct (storeGroups_spec queries opts groups grouped) as (Hnd & Hfree & Hkeys & _).
  destruct routes_collected as [Hroutes _]. unfold exportedNames.
  apply NoDup_app. split_and!; [done|apply aliases_free|]. apply NoDup_app. split_and!; [apply reserved_distinct| |].
  - intros n [v Hn]%generated_declared [Hr|Hr]%elem_of_app.
    + apply key_of_route, Hkeys in Hr. congruence.
    + apply Hfree in Hr as [Hr _]. congruence.
  - apply NoDup_app. split_and!; [done| |done]. intros n Hr%key_of_route [_ Hn]%Hfree. done.
Qed.

Hypothesis names : Forall nameable queries.

Lemma copied_queryName n : n ∈ (queries ≫= copiedMethod) -> queryName n.
Proof.
  intros (q & Hn & Hq)%list_elem_of_bind. unfold copiedMethod in Hn. destruct (isCopy q); [|by apply elem_of_nil in Hn].
  apply list_elem_of_singleton in Hn as ->. rewrite Forall_forall in names. by apply (nm_name _ (names q Hq)).
Qed.

Lemma copied_distinct : NoDup (queries ≫= copiedMethod).
Proof.
  destruct (storeGroups_spec queries opts groups grouped) as (Hnd & _). apply NoDup_app in Hnd as (_ & _ & Hnd).
  apply (NoDup_fmap_1 copyBatchOptionName). rewrite fmap_bind.
  rewrite (bind_perm_ext queryDeclarations (fun q => (copyBatchOptionName <$> copiedMethod q) ++ aliasNames q ++ wrapperNames q)), bind_split in Hnd.
  - by apply NoDup_app in Hnd as (Hnd & _).
  - intros q. unfold queryDeclarations, copiedMethod, isCopy. by case_bool_decide.
Qed.

Lemma telemetry_not_internal g : storeTelemetryTypeName g ∉ internalNames.
Proof.
  unfold storeTelemetryTypeName. intros H. unfold internalNames in H.
  repeat (apply elem_of_cons in H as [H|H]; [by rewrite !app_cons_string in H; injection H|]). by apply elem_of_nil in H.
Qed.

Lemma state_suffix n s : HasSuffix s "BatchState" = false -> copyBatchStateTypeName n <> s.
Proof.
  intros H <-. assert (HasSuffix (copyBatchStateTypeName n) "BatchState" = true) by (apply HasSuffix_app; by eexists).
  congruence.
Qed.

Lemma unexported_distinct : NoDup (unexportedNames queries groups).
Proof.
  destruct (storeGroups_spec queries opts groups grouped) as (_ & _ & _ & _ & _ & Hg & _).
  unfold unexportedNames. apply NoDup_app. split_and!.
  - apply (bool_decide_unpack _). by vm_compute.
  - intros n Hi [(g & -> & _)%list_elem_of_fmap|(m & -> & _)%list_elem_of_fmap]%elem_of_app.
    + by apply telemetry_not_internal in Hi.
    + revert Hi. unfold internalNames.
      intros Hi. repeat (apply elem_of_cons in Hi as [Hi|Hi]; [by apply state_suffix in Hi|]). by apply elem_of_nil in Hi.
  - apply NoDup_app. split_and!.
    + rewrite (list_fmap_compose sg_name storeTelemetryTypeName). apply NoDup_fmap_2; [|done].
      intros a b H. unfold storeTelemetryTypeName in H. apply app_string_cancel_l in H. by apply app_string_inj in H as [? _].
    + intros n (g & -> & _)%list_elem_of_fmap (m & H & _)%list_elem_of_fmap.
      unfold storeTelemetryTypeName, copyBatchStateTypeName in H.
      change "BatchState" with ("Batch" +:+ "State") in H. rewrite <- !app_string_assoc in H.
      by apply app_string_inj in H as [_ ?].
    + apply NoDup_fmap_2_strong; [|apply copied_distinct]. intros a b Ha Hb H.
      apply app_string_inj in H as [H _]; [|done]. apply lowerTitle_inj; [by apply copied_queryName..|done].
Qed.

Lemma unexported_low n : n ∈ unexportedNames queries groups -> lowFirst n = true.
Proof.
  unfold unexportedNames. intros [H|[(g & -> & _)%list_elem_of_fmap|(m & -> & Hm)%list_elem_of_fmap]%elem_of_app]%elem_of_app.
  - unfold internalNames in H. repeat (apply elem_of_cons in H as [->|H]; [done|]). by apply elem_of_nil in H.
  - done.
  - by apply lowerTitle_low, copied_queryName.
Qed.

Hypothesis aliases_exported : Forall (fun n => lowFirst n = false) aliases.

Lemma group_exported g n : g ∈ groups -> n ∈ groupDeclarations g -> lowFirst n = false.
Proof.
  intros Hg. destruct (storeGroups_spec queries opts groups grouped) as (_ & _ & _ & _ & _ & _ & _ & Hin & _).
  destruct (Hin g Hg) as [Hq Hne]. assert (IsUpper (firstRune (sg_name g)) = true) as Hup.
  { destruct (sg_queries g) as [|q qs]; [done|]. assert (q ∈ queriesOf (sg_name g) queries) as Hqin by (rewrite <- Hq; left).
    apply list_elem_of_filter in Hqin as [<- Hqin]. rewrite Forall_forall in names. by apply (nm_store _ (names q Hqin)). }
  apply upper_not_low in Hup. assert (forall t, lowFirst t = false -> lowFirst (sg_name g +:+ t) = false) as Happ.
  { intros t Ht. destruct (decide (sg_name g = "")) as [->|Hn]; [done|]. by rewrite lowFirst_app. }
  unfold groupDeclarations. rewrite !elem_of_cons. pose proof (not_elem_of_nil n).
  intros [->|[->|[->|[->|?]]]]; try done; by apply Happ.
Qed.

Lemma query_exported q n : q ∈ queries -> n ∈ queryDeclarations q -> lowFirst n = false.
Proof.
  intros Hq Hn. rewrite Forall_forall in names. destruct (names q Hq) as [Hname _ _ Ha Hw].
  unfold queryDeclarations in Hn. apply elem_of_app in Hn as [H|[H|H]%elem_of_app].
  - case_bool_decide; [|by apply elem_of_nil in H]. by apply list_elem_of_singleton in H as ->.
  - destruct (gq_storeParamAlias q) as [a|]; [|by apply elem_of_nil in H]. apply list_elem_of_singleton in H as ->.
    rewrite (Ha a) by done. by apply queryName_not_low.
  - destruct (gq_shardArgs q) as [w|]; [|by apply elem_of_nil in H]. apply list_elem_of_singleton in H as ->.
    rewrite (Hw w) by done. by apply queryName_not_low.
Qed.

Lemma exported_not_low n : n ∈ exportedNames opts queries aliases routes groups -> lowFirst n = false.
Proof.
  unfold exportedNames. rewrite Forall_forall in aliases_exported.
  intros [H|[[H|[H|H]%elem_of_app]%elem_of_app|[H|[H|H]%elem_of_app]%elem_of_app]%elem_of_app]%elem_of_app.
  - by apply aliases_exported.
  - unfold fixedNames in H. repeat (apply elem_of_cons in H as [->|H]; [done|]). by apply elem_of_nil in H.
  - unfold sqlcNames in H. case_bool_decide; repeat (apply elem_of_cons in H as [->|H]; [done|]); by apply elem_of_nil in H.
  - pose proof (acc_exported opts acc) as Hup. rewrite Forall_forall in Hup. apply upper_not_low. by apply Hup.
  - apply list_elem_of_fmap in H as (r & -> & (q & Hq & Hr)%routes_collected%list_elem_of_omap).
    rewrite Forall_forall in names. by apply upper_not_low, (nm_route _ (names q Hq)).
  - apply list_elem_of_bind in H as (g & Hn & Hg). by eapply group_exported.
  - apply list_elem_of_bind in H as (q & Hn & Hq). by eapply query_exported.
Qed.

(** Nothing is declared twice, not even together with what sqlc declares. *)
Lemma package_distinct : NoDup (sqlcNames opts ++ packageNames opts queries aliases routes groups).
Proof.
  destruct (storeGroups_spec queries opts groups grouped) as (_ & _ & _ & _ & _ & Hd & _ & Hin & _).
  pose proof (package_names opts queries aliases routes groups (fun g Hg => proj1 (Hin g Hg)) Hd) as [k Hk]%submseteq_Permutation.
  assert (NoDup (unexportedNames queries groups ++ exportedNames opts queries aliases routes groups)) as H.
  { apply NoDup_app. split_and!; [apply unexported_distinct| |apply exported_distinct].
    intros n Hu%unexported_low He%exported_not_low. congruence. }
  rewrite Hk in H. by apply NoDup_app in H as [H _].
Qed.

End Accepted.

(** ** Names of accepted requests *)

Section Requests.
Context `{UT : !UnicodeTables} `{UL : !UnicodeLaws UT} `{GS : !GoSort} `{MO : !GoMapOrder}.
Context (opts : options).

(** No SQL name is renamed to one that starts with a lower-case letter. *)
Definition renamesExported : Prop := forall s r, Rename opts !! s = Some r -> lowFirst r = false.

Lemma first_not_low s : asciiLower (firstRune s) = false -> lowFirst s = false.
Proof.
  destruct s as [|c s]; [done|]. cbn [lowFirst]. intros H. destruct (asciiLower (byteZ c)) eqn:E; [|done].
  rewrite ascii_firstRune in H; [congruence|]. unfold asciiLower, inRange in E. lia.
Qed.

Lemma structName_not_low name : renamesExported -> lowFirst (structName name opts) = false.
Proof.
  intros Hr. destruct (decide (default "" (Rename opts !! name) = "")) as [E|E].
  - pose proof (struct_name_valid name opts E) as H. destruct (existsb wordRune (runes name)); [|by rewrite H].
    by apply first_not_low, H.
  - unfold structName. rewrite bool_decide_eq_true_2 by done. destruct (Rename opts !! name) as [r|] eqn:Er; [|done].
    by apply (Hr name).
Qed.

Definition keysExported (m : gmap string unit) : Prop := forall n, is_Some (m !! n) -> lowFirst n = false.

Lemma keysExported_insert m n : keysExported m -> lowFirst n = false -> keysExported (<[n := tt]> m).
Proof. intros Hm Hn k [->|Hk]%lookup_insert_is_Some'; [done|by apply Hm]. Qed.

Context (Selectors : string -> option (list (string * string))).

Lemma addType_exported m typ m' : keysExported m -> addType Selectors opts m typ = Ok m' -> keysExported m'.
Proof.
  unfold addType. intros Hm. case_bool_decide; [by intros <-%mret_Ok|]. destruct (Selectors typ) as [l|]; [|done].
  intros <-%mret_Ok. revert m Hm. induction l as [|[x sel] l IH]; intros m Hm; [done|]. cbn [fold_left]. apply IH.
  destruct (bool_decide _ && _) eqn:E; [|done]. apply andb_true_iff in E as [_ E]. by apply keysExported_insert, upper_not_low.
Qed.

Lemma addEnums_exported catalog m schema :
  renamesExported -> keysExported m -> keysExported (addEnums opts catalog m schema).
Proof.
  intros Hr Hm. unfold addEnums. destruct (skippedSchema _); [done|].
  revert m Hm. induction (sch_enums schema) as [|e l IH]; intros m Hm; [done|]. cbn [fold_left]. apply IH.
  unfold addEnum. cbv zeta. case_match; [|done]. by apply keysExported_insert, structName_not_low.
Qed.

Lemma collected_aliases queries catalog aliases :
  renamesExported -> collectSQLCTypeAliases Selectors opts queries catalog = Ok aliases ->
  NoDup aliases /\ Forall (fun n => lowFirst n = false) aliases.
Proof.
  intros Hr. unfold collectSQLCTypeAliases. destruct (ExportSQLCTypes opts); cbn [negb].
  2:{ intros <-%mret_Ok. split; constructor. }
  intros (m & Hm & <-%mret_Ok)%bind_Ok.
  assert (keysExported m) as Hk.
  { revert Hm. assert (keysExported ∅) as H0 by (intros n [? H]; by rewrite lookup_empty in H).
    revert H0. generalize (∅ : gmap string unit). induction (queries ≫= queryTypes opts) as [|typ l IH]; intros m0 H0 H.
    - by injection H as <-.
    - apply foldO_cons_Ok in H as (m1 & H1 & H). eapply IH; [by eapply addType_exported|done]. }
  set (m' := fold_left _ _ m). assert (keysExported m') as Hk'.
  { unfold m'. clear Hm m'. revert m Hk. induction (cat_schemas catalog) as [|s l IH]; intros m Hk; [done|].
    cbn [fold_left]. by apply IH, addEnums_exported. }
  split.
  - rewrite sortByKey_perm, rangeMap_perm. apply NoDup_fst_map_to_list.
  - rewrite sortByKey_perm, rangeMap_perm. apply Forall_forall. intros n ([k u] & -> & Hin)%list_elem_of_fmap.
    apply elem_of_map_to_list in Hin. apply Hk'. by eexists.
Qed.

(** *** From sqlc's queries *)

Context (catalog : Catalog) (Singular : string -> string).

Record nameableBuilt (q : generatedQuery) : Prop := {
  nb_named : nameable q;
  nb_alias : gq_storeParamAlias q = None;
}.

Lemma resolveShardRoute_upper q arg a gm structs r :
  resolveShardRoute catalog opts q arg a gm structs = Ok r -> IsUpper (firstRune (rt_methodName r)) = true.
Proof.
  unfold resolveShardRoute. cbv zeta. case_bool_decide; [done|]. destruct (negb _ || negb _) eqn:E; [done|].
  intros (ops & _ & <-%mret_Ok)%bind_Ok. cbn. by apply orb_false_iff in E as [_ ?%negb_false_iff].
Qed.

Lemma shardPart_upper q arg ret structs rs annotation mode r gm :
  shardPart catalog opts Singular q arg ret structs rs annotation = Ok (mode, Some r, gm) ->
  IsUpper (firstRune (rt_methodName r)) = true.
Proof.
  unfold shardPart. destruct annotation as [a|]; [|done].
  case_bool_decide; [case_bool_decide; [done|]; by destruct (oneOf _ _)|].
  destruct (HasPrefix _ _); [done|]. intros (g & _ & (r0 & Hr%resolveShardRoute_upper & HR)%bind_Ok)%bind_Ok.
  destruct (negb _); [done|]. injection HR as _ <- _. by destruct g.
Qed.

Lemma buildQuery_nameable structs imports q imports' out :
  queryName (q_name q) -> buildQuery catalog opts Singular structs imports q = Ok (imports', out) -> nameableBuilt out.
Proof.
  intros Hq. unfold buildQuery. intros (arg & _ & H)%bind_Ok.
  apply bind_Ok in H as (ret & _ & H). apply bind_Ok in H as (rs & _ & H).
  apply bind_Ok in H as ([[k a] st] & Hc & H). apply bind_Ok in H as ([[mode route] gm] & Hs & H).
  apply mret_Ok in H. injection H as <- <-. split; [|done]. constructor; cbn [methodName store gq_route gq_storeParamAlias gq_shardArgs]; try done.
  - apply classifyQuery_sound in Hc as [(_ & _ & ?) _]. done.
  - intros r ->. by apply shardPart_upper in Hs.
Qed.

Lemma buildEach_nameable structs imports qs imports' out :
  Forall (fun q => q_name q = "" \/ queryName (q_name q)) qs ->
  buildEach catalog opts Singular structs imports qs = Ok (imports', out) -> Forall nameableBuilt out.
Proof.
  intros H. revert imports imports' out. induction H as [|q qs Hq _ IH]; intros imports imports' out; cbn [buildEach].
  { intros [= <- <-]. constructor. }
  destruct (bool_decide (q_name q = "") || _) eqn:E; [apply IH|].
  intros ([i o] & Ho & HR)%bind_Ok. apply bind_Ok in HR as ([i' o'] & Hrest & HR).
  apply mret_Ok in HR. injection HR as <- <-. constructor; [|by eapply IH].
  apply orb_false_iff in E as [E%bool_decide_eq_false _]. destruct Hq as [?|Hq]; [done|]. by eapply buildQuery_nameable.
Qed.

(** A wrapped query keeps its name, store and route, and has a wrapper named after it. *)
Lemma withShardArgs_nameable q route r0 st call w gm :
  nameableBuilt q -> gq_route q = Some r0 -> rt_methodName route = rt_methodName r0 ->
  wr_name w = methodName q +:+ "T" -> nameableBuilt (withShardArgs q route st call w gm).
Proof.
  intros [[Hn Hs Hr Ha Hw] Hna] Hr0 Hroute Hname. split; [|done]. constructor; cbn; try done.
  - intros r [= <-]. rewrite Hroute. by apply Hr.
  - intros w' [= <-]. done.
Qed.

Lemma wrapRouted_nameable qs qs' :
  Forall nameableBuilt qs -> wrapRoutedQueryParameters opts qs = Ok qs' -> Forall nameableBuilt qs'.
Proof.
  intros H Hok. unfold wrapRoutedQueryParameters in Hok. eapply mapO_Forall; [exact Hok|exact H|].
  intros q q' Hq. cbn beta. destruct (gq_route q) as [route|] eqn:Er; [|by intros <-%mret_Ok].
  case_bool_decide; [unfold wrapGroupedManyShardOperands|unfold wrapShardParameters].
  - intros (spec & _ & HR)%bind_Ok. apply bind_Ok in HR as ([w e] & _ & HR).
    apply bind_Ok in HR as (ctx & _ & <-%mret_Ok). by apply withShardArgs_nameable with route.
  - intros (ctx & _ & HR)%bind_Ok. apply bind_Ok in HR as ([[[w call] v] es] & _ & <-%mret_Ok).
    by apply withShardArgs_nameable with route.
Qed.

Lemma aliasSQLCParams_nameable q : nameableBuilt q -> nameable (aliasSQLCParams opts q).
Proof.
  intros [Hq Hna]. unfold aliasSQLCParams. destruct (gq_shardArgs q) as [w|] eqn:Ew; [done|].
  destruct (qv_structType (gq_arg q)); [|done]. destruct (_ || _); [done|]. case_bool_decide; [done|].
  destruct Hq as [Hn Hs Hr Ha Hw]. constructor; cbn [methodName store gq_route gq_storeParamAlias gq_shardArgs]; try done.
  by intros a [= <-].
Qed.

Lemma querySpecs_nameable qs out imports :
  Forall (fun q => q_name q = "" \/ queryName (q_name q)) qs ->
  querySpecs catalog opts Singular qs = Ok (out, imports) -> Forall nameable out.
Proof.
  intros Hq. unfold querySpecs, buildQueries, aliasSQLCParamsForStore.
  intros (structs & _ & H)%bind_Ok. apply bind_Ok in H as ([i o] & H & Ho).
  apply mret_Ok in Ho. injection Ho as <- <-.
  apply bind_Ok in H as ([i1 o1] & H1 & H). apply bind_Ok in H as (o2 & H2 & H). apply mret_Ok in H. injection H as <- <-.
  apply buildEach_nameable in H1; [|done]. apply wrapRouted_nameable in H2; [|done].
  rewrite sortSlice_perm. apply Forall_fmap. eapply Forall_impl; [exact H2|]. apply aliasSQLCParams_nameable.
Qed.
End Requests.

(** ** The generated package *)

Section Claim.
Context `{UT : !UnicodeTables} `{UL : !UnicodeLaws UT} `{GS : !GoSort} `{MO : !GoMapOrder}.
Context (formatSource : string -> result string) (Selectors : string -> option (list (string * string))).
Context (ParseExpr : string -> option astExpr) (Singular : string -> string).
Context (Decode : string -> result (options * bool)).

(** A file holds the imports and the body that were written for it. *)
Definition fileOf (opts : options) (imports : importSet) (body : string * buffer) (f : file) : Prop :=
  body.1 = file_name f /\ generateFile formatSource opts imports body.2 = Ok (file_contents f).

Lemma appendFiles_bodies opts imports ms files :
  appendFiles formatSource opts imports ms = Ok files ->
  exists bodies, Forall2 written ms bodies /\ Forall2 (fileOf opts imports) bodies files.
Proof.
  revert files. induction ms as [|[name m] ms IH]; intros files; cbn [appendFiles].
  { intros <-%mret_Ok. exists []. split; constructor. }
  intros (b & Hb & H)%bind_Ok. apply bind_Ok in H as (content & Hc & H).
  apply bind_Ok in H as (rest & (bodies & H1 & H2)%IH & <-%mret_Ok).
  exists ((name, b) :: bodies). split; by constructor.
Qed.

Lemma written_cons name m ms bodies :
  Forall2 written ((name, m) :: ms) bodies -> exists b bodies', m = Ok b /\ Forall2 written ms bodies' /\
    bodiesNames bodies = declaredNames b ++ bodiesNames bodies'.
Proof. intros ([n b] & bodies' & [_ Hm] & H & ->)%Forall2_cons_inv_l. by exists b, bodies'. Qed.

Lemma wrapperBodies_names opts queries aliases routes groups names bodies :
  List.length names = List.length groups ->
  Forall2 written (wrapperBodies opts queries aliases routes groups names) bodies ->
  bodiesNames bodies = packageNames opts queries aliases routes groups.
Proof.
  intros Hl H. unfold wrapperBodies in H. cbv zeta in H.
  apply Forall2_app_inv_l in H as (b1 & b2 & H1 & H2 & ->). apply Forall2_app_inv_l in H2 as (b3 & b4 & H3 & H4 & ->).
  apply groups_written in H3; [|done]. rewrite !bodiesNames_app, H3. clear H3 Hl.
  apply written_cons in H1 as (i & r1 & <-%mret_Ok & H1 & ->). apply written_cons in H1 as (r & r2 & <-%mret_Ok & H1 & ->).
  apply written_cons in H1 as (w & r3 & <-%mret_Ok & H1 & ->). apply written_cons in H1 as (s & r4 & Hs & H1 & ->).
  apply Forall2_nil_inv_l in H1 as ->. apply written_cons in H4 as (d & r5 & <-%mret_Ok & H4 & ->).
  apply Forall2_nil_inv_l in H4 as ->. apply bind_Ok in Hs as (c & Hc%writeStoreConfiguration_names & <-%mret_Ok).
  unfold packageNames. cbv zeta. change (bodiesNames []) with (@nil string).
  rewrite !app_nil_r, !declaredNames_app, writeSQLCTypeAliases_names, writeQueryInterfaces_names, writeReadQueries_names,
    writeWriteQueries_names, writeQueryOptions_names, writeQueryStore_names, writeNodeConstructor_names, Hc.
  destruct (hasShardOperations queries);
    rewrite ?declaredNames_app, ?writeShardKeyTypes_names, ?writeShardResolverInterface_names, ?writeShardedStore_names;
    by rewrite <- ?app_assoc.
Qed.

(** C36: A generated package declares every name once. When generation succeeds
    for queries whose names start with an upper-case letter, under options that
    rename nothing to a lower-case name, the files hold bodies in which no
    top-level type or function is declared twice: not within a file, not in two
    files, and, where the files go into sqlc's own package, not with the names
    [DBTX], [New], [Queries] and [Querier] of sqlc's code. *)
Theorem package_declares_once ctxErr req text opts files :
  Generate formatSource Selectors ParseExpr Singular Decode ctxErr req text = Ok files ->
  parseOptions ParseExpr Decode req text = Ok opts ->
  renamesExported opts ->
  Forall (fun q => q_name q = "" \/ queryName (q_name q)) (req_queries req) ->
  exists imports bodies,
    Forall2 (fileOf opts imports) bodies files /\
    NoDup (sqlcNames opts ++ bodiesNames bodies).
Proof.
  unfold Generate. destruct ctxErr; [done|]. intros H Hopts Hren Hnames. rewrite Hopts in H.
  cbn [wrapStep mbind outcome_bind] in H.
  apply bind_Ok in H as ([queries imports] & Hq%wrapStep_Ok & H). apply wrapStep_Ok in H.
  unfold generateWrapper in H. apply bind_Ok in H as (routes & Hroutes & H). apply bind_Ok in H as (groups & Hg & H).
  destruct (parsed_options _ _ _ _ _ Hopts) as [Hname _].
  destruct (groupFileNames_found (OutputFileName opts) groups
    (list_to_set (ToLower <$> fixedFileNames (OutputFileName opts))) Hname) as (names & Hfiles & Hlen & _).
  unfold storeGroupOutputFileNames in H. rewrite Hfiles in H. cbn [panic_if_none mbind outcome_bind] in H.
  apply bind_Ok in H as (aliases & Ha & H). apply bind_unit_Ok in H as [Hv H]. apply bind_unit_Ok in H as [_ H].
  apply appendFiles_bodies in H as (bodies & Hw & Hf). exists (wrapperImports opts imports), bodies. split; [done|].
  rewrite (wrapperBodies_names opts queries aliases routes groups names bodies Hlen Hw).
  apply collected_aliases in Ha as [Hnd Hup]; [|done]. apply querySpecs_nameable in Hq; [|done].
  apply parseOptions_Ok in Hopts as (raw & _ & Hp). pose proof (pa_acceptable _ _ _ _ Hp) as Hacc.
  apply (acceptable_withOverrides _ (Overrides opts)) in Hacc. rewrite <- (pa_others _ _ _ _ Hp) in Hacc.
  by apply package_distinct.
Qed.
End Claim.

(** ** The example stores *)

Module DeclaredSample.
Import ExampleRequests GenerateWitnesses.
#[local] Existing Instances asciiTables asciiLaws insertionGoSort listMapOrder.

Definition parsed (package : string) (queries : list Query) : result options :=
  parseOptions (fun _ => None) (fun _ => Ok (pluginOptions package, true)) (request package queries) "{}".

Lemma sharded_parsed : isOk (parsed "sharded" accountQueries) = true.
Proof. vm_compute. reflexivity. Qed.

Definition renamesNothing (m : result options) : bool := match m with Ok o => bool_decide (Rename o = ∅) | _ => false end.
Lemma sharded_renames : renamesNothing (parsed "sharded" accountQueries) = true.
Proof. vm_compute. reflexivity. Qed.

Definition queryNameB (s : string) : bool :=
  match s with
  | String c t => asciiUpper (byteZ c) && forallb (fun r => negb (r =? RuneError)%Z) (runes t)
  | EmptyString => false
  end.

Lemma queryNameB_spec s : queryNameB s = true -> queryName s.
Proof.
  destruct s as [|c t]; [done|]. cbn [queryNameB]. intros [Hc Ht]%andb_true_iff. exists c, t. split_and!; [done..|].
  unfold wellFormed. rewrite Forall_forall. intros r Hr. rewrite forallb_forall in Ht.
  specialize (Ht r (proj1 (list_elem_of_In _ _) Hr)). intros ->. done.
Qed.

Lemma accounts_named : forallb (fun q => queryNameB (q_name q)) accountQueries = true.
Proof. vm_compute. reflexivity. Qed.

Lemma package_declares_once_witness :
  exists opts files imports bodies, generate "sharded" accountQueries = Ok files /\
    Forall2 (fileOf (fun text => Ok text) opts imports) bodies files /\ NoDup (sqlcNames opts ++ bodiesNames bodies).
Proof.
  destruct (isOk_spec _ sharded_generated) as [files H]. destruct (isOk_spec _ sharded_parsed) as [opts Hopts].
  pose proof sharded_renames as Hren. rewrite Hopts in Hren. apply bool_decide_eq_true in Hren.
  assert (renamesExported opts) as Hr by (intros s r Hs; by rewrite Hren, lookup_empty in Hs).
  assert (Forall (fun q => q_name q = "" \/ queryName (q_name q)) accountQueries) as Hn.
  { apply Forall_forall. intros q Hq. right. pose proof accounts_named as Ha. rewrite forallb_forall in Ha.
    by apply queryNameB_spec, Ha, list_elem_of_In. }
  destruct (package_declares_once (fun text => Ok text) (fun _ => Some []) (fun _ => None) singularForms _ None
    (request "sharded" accountQueries) "{}" opts files H Hopts Hr Hn) as (imports & bodies & Hf & Hnd).
  exists opts, files, imports, bodies. exact (conj H (conj Hf Hnd)).
Defined.

(** The names as a reader of the files finds them: on lines that start with
    [type] or [func] and declare no method. *)
Definition nameChars (s : string) : string :=
  fold_right (fun c acc => if identByte c then String c acc else "") "" (list_ascii_of_string s).
Definition lineName (line : string) : option string :=
  if HasPrefix line "type " || (HasPrefix line "func " && negb (HasPrefix line "func ("))
  then Some (nameChars (dropBytes 5 line)) else None.
Definition textNames (text : string) : list string := omap lineName (splitByte "010" text).

Definition packageOf (package : string) (queries : list Query) : result (list string) :=
  opts ← parsed package queries;
  '(qs, _) ← querySpecs catalog opts singularForms queries;
  routes ← collectShardRoutes qs;
  groups ← collectStoreGroups qs opts;
  mret (packageNames opts qs [] routes groups).

(** The names read off the writes are those in the text of the files. *)
Example names_in_text :
  (fun files => files ≫= fun f => textNames (file_contents f)) <$> generate "sharded" accountQueries =
    packageOf "sharded" accountQueries /\
  (fun files => files ≫= fun f => textNames (file_contents f)) <$> generate "one" settingQueries =
    packageOf "one" settingQueries.
Proof. split; vm_compute; reflexivity. Qed.

(** Two copies whose names differ in the case of the first letter only: the
    option constructors differ, but both copies keep their batchers in a type
    [copyAccountsBatchState]. *)
Definition copyNamed (name : string) : Query :=
  MkQuery "INSERT INTO accounts (id, tenant_id, display_name) VALUES ($1, $2, $3)"
    name ":copyfrom" [] (numbered accountRow) (annotations "write" ["tenantKey(tenant_id)"] "Accounts") (Some accounts).

Theorem lower_case_copies_collide :
  isOk (generate "sharded" [copyNamed "CopyAccounts"; copyNamed "copyAccounts"]) = true /\
  (fun names => count_occ string_dec names "copyAccountsBatchState") <$>
    packageOf "sharded" [copyNamed "CopyAccounts"; copyNamed "copyAccounts"] = Ok 2%nat.
Proof. split; vm_compute; reflexivity. Qed.

End DeclaredSample.
